(* ===== verification/_CoqProject ===== *)
-Q . S2P
Prelude.v
Dlist.v
SkewHeap.v
Sched.v
Timer.v
RoundRobin.v
Stride.v
Cstring.v
Printfmt.v
Iobuf.v
Bitmap.v
PmmManager.v
FirstFit.v
FirstFitAbove.v
BestFit.v
Buddy.v
Slub.v
SlubHeap.v
SlubSpec.v
Kmalloc.v
PageTable.v
PageTree.v
Vma.v
Cow.v
Wait.v
Philosophers.v
Process.v
ProcTree.v
Lifecycle.v
Reaping.v
Waiting.v
ProcSystem.v
Sfs.v
SfsBlocks.v
Disk.v
SfsFile.v
SfsIo.v
SfsTrunc.v
SfsSpec.v
Vfs.v
VfsSpec.v
Files.v
FilesSpec.v
FilesOpen.v
FilesFork.v
FilesCwd.v
FilesRun.v
Devs.v
Console.v
Stdin.v
FilesProps.v
