(* ===== verification/Prelude.v ===== *)
(** * The ucore kernel of src/lab8: a verification development

    The repository holds the solutions to the ucore laboratory course, lab1 to
    lab8; each later lab extends the kernel of the one before.  This development
    models the kernel of [src/lab8], the fullest, and leaves the earlier copies
    of the same files aside.  Paths below are relative to [src/lab8].

    ** How the code is modelled

    A C function is a Definition, or a Fixpoint with fuel, in the monad [K S] of
    this file: a state [S] is threaded through, and a run ends in [Done], in
    [Panic] (a failed [assert], a [panic], an access C leaves undefined), or in
    [Timeout] when fuel runs out.  [wp m Q s] says that [m] run from [s] ends
    normally and in [Q]: it excludes panics and timeouts, so it is total
    correctness.  [wlp] allows a panic, never a timeout; it is used where the
    code can really panic.  Every lemma [wp_f] gives the effect of the C
    function [f]; the tactic [kstep] applies the rules of the monad.

    Integers are [Z], and arithmetic that can leave its C type is wrapped by
    [u32], [u64], [s32] and so on.  Pointers are [Z], NULL is 0; a store is a
    finite map from addresses to records.  Where a structure is a pointer
    structure whose shape is the point ([Dlist], [SkewHeap], the free lists of
    [FirstFit], [BestFit] and [Buddy], the process tree of [Process], the page
    tables), the pointers are modelled.  A list of entries that is only used
    through list.h is a Rocq list, as justified by the theorems of [Dlist].
    Interrupts are off in the critical sections of C and a switch of process
    happens in [schedule] only, so code between two calls of [schedule] is one
    step; a function that calls [schedule] half-way is cut there in two.

    ** The files

    - [Prelude]: integers, rounding (libs/defs.h), the monad and its program
      logic, lemmas on lists and maps.
    - [Dlist]: libs/list.h.  [SkewHeap]: libs/skew_heap.h.
    - [Sched]: kern/schedule/sched.c, sched.h.  [sched_class] is the record of C,
      [SchedPolicy] the contract of a policy; [schedule], [wakeup_proc] and
      [proc_run] are proved against it.  [Timer]: [add_timer], [del_timer],
      [run_timer_list].  [RoundRobin] (default_sched.c) and [Stride]
      (default_sched_stride.c) discharge [SchedPolicy].
    - [Cstring]: libs/string.c.  [Printfmt]: libs/printfmt.c, hash.c, rand.c.
    - [PmmManager]: the page allocator as kern/mm/pmm.c calls it; [PhysAlloc] is
      the contract of a manager, discharged by [FirstFit] (default_pmm.c),
      [BestFit] (best_fit_pmm.c) and [Buddy] (buddy_pmm.c); a manager that takes a
      run back page by page meets [PiecewiseAlloc] too, as [Buddy] does.
      [FirstFitAbove]: the one case in which first fit corrupts its list.
    - [Slub]: the definitions of kern/mm/slub.c, on any [PhysAlloc]; [SlubHeap]:
      their invariant, where every object is handed out, in the chain of its
      cache or in the chain of its page; [SlubSpec]: what each operation does to
      it; [Kmalloc]: the theorems on [kmalloc] and [kfree], as an abstract set of
      blocks.
    - [PageTable]: the definitions of kern/mm/pmm.c, mmu.h on page tables;
      [PageTree]: their invariant and theorems.  The allocator is any [PhysAlloc].
    - [Vma]: the areas of an address space (kern/mm/vmm.c).  [Cow]: page faults,
      [dup_mmap], [exit_mmap], and kern/mm/cow.c, on [PageTable] and [Vma].
    - [Wait]: kern/sync/wait.c and sem.c on [Sched]; [sem_refines] relates the
      kernel's semaphores to abstract ones.  [Philosophers]: kern/sync/monitor.c
      and check_sync.c, threads on the abstract semaphores, interleaved.
    - [Process]: the definitions of kern/process/proc.c; [ProcTree]: the tree of
      processes and process numbers; [Lifecycle]: the invariant of the process
      table and [do_fork]; [Reaping]: [do_exit] and the collection of a child;
      [Waiting]: [do_wait] and [do_kill]; [ProcSystem]: all system calls
      interleaved, from [proc_init] on.  What a process owns (descriptor, stack,
      address space, files) is behind the record [resources] and its laws.
    - [Iobuf]: kern/fs/iobuf.c.  [Bitmap]: kern/fs/sfs/bitmap.c.
    - [Sfs]: the definitions of kern/fs/sfs (sfs_io.c, sfs_lock.c, sfs.h and the
      part of sfs_inode.c on regular files); [SfsBlocks]: single blocks, against
      the contract [BlockDevice]; [SfsFile]: the block map of a file; [SfsIo] and
      [SfsTrunc]: transfers and resizing; [SfsSpec]: the abstract file system and
      the theorems.  [Disk]: kern/driver/ide.c, ramdisk.c and
      kern/fs/devs/dev_disk0.c, which discharge [BlockDevice].
    - [Vfs]: the definitions of kern/fs/vfs, on any tables of operations of inodes
      and file systems; [VfsSpec]: the counts of the inodes against who holds
      them, with the contract [VopLaws] of the operations: they change counts
      only where they hand an inode out, results are 0 or negative, and
      [fsop_get_root] returns an inode ([sfs_get_root] panics rather than return
      NULL).  What an opening with O_CREAT loses is [leaked].
    - [Files]: the definitions of kern/fs/file.c, fs.c and of [copy_files] and
      [put_files] of proc.c.  A call that may sleep in an operation of an inode is
      cut before it ([file_begin], then [file_io_end] and the like).  [FilesSpec]:
      the invariant of the tables of open files and the calls on a descriptor;
      [FilesOpen]: opening and duplicating; [FilesFork]: fork and exit;
      [FilesCwd]: the working directory; [FilesRun]: processes interleaved, with
      the step relation [fstep] and its invariant [fwf]; [FilesProps]: the
      theorems.  A step of a run is taken only where no inode is within 8 of the
      limit of 65536 references ([roomy]); the counts of a run that opens nothing
      with O_CREAT stay below it as long as there are few tables.
    - [Devs]: kern/fs/devs/dev.c and dev_stdout.c, which discharge [VopLaws] from
      the contract [DevLaws] of a device; [Console]: writing to the console, and
      the boot of a kernel that has only this device.  [Stdin]:
      kern/fs/devs/dev_stdin.c, the ring of typed characters; keys may come
      when it is full.

    ** What the theorems show

    - Safety of the composition: no wake-up of [do_wait] is lost and the process
      table stays well formed in every run ([ProcSystem]); the philosophers never
      eat next to each other and every run ends ([Philosophers]).
    - Memory: each allocator meets [PhysAlloc], so two allocations never overlap;
      blocks of [kmalloc] never overlap and a released block can be handed out
      again ([Kmalloc]);
      page tables and reference counts agree after every operation ([PageTree]);
      a page fault never gives more than the areas allow, and a shared page is
      copied before it is written ([Cow]); [user_mem_check] is exact ([Vma]).
    - Scheduling: the run queue is exactly the runnable processes ([Sched]),
      round robin serves everybody ([RoundRobin]), strides are compared right
      despite wrap-around ([Stride]), ticks wake the right sleepers ([Timer]).
    - Library: heaps stay ordered, copying handles overlap, [vsnprintf] stays in
      its buffer, stores what fits and returns the full length, numbers print and
      read back.
    - Files: reading, writing and resizing refine operations on byte strings,
      with every failure of the device or lack of space, and keep the map of free
      blocks exact ([SfsSpec]); the disk moves blocks exactly ([Disk]).
    - Open files: in every run of [fstep] the openings of an inode are exactly the
      descriptors that name it, and its references exactly what descriptors,
      directories and devices hold, plus at most one for each opening with O_CREAT
      so far; no assertion of the descriptor code fails, and the last exit closes
      everything ([files_run_sound], [files_run_safe]); opening, closing, forking
      and writing to the console do what they promise ([FilesProps]); keys reach
      the reader in order and wake it, and on a full ring a key takes the place of
      the oldest one ([Stdin]).  That opening ends in no panic is claimed for
      devices only; elsewhere it can panic ([vfs_open_excl_refuted]), and so do
      operations that an inode does not have ([missing_op_refuted]).

    The theorems that end in [_refuted] or [_overrides] prove that the code does
    something it does not mean to; the manifest lists these findings.

    ** Fuel

    Loops over a linked structure take the size of the store as fuel: they pass
    each entry at most once.  [skew_heap_merge] takes one more than the number of
    entries ([merge_fuel]); [get_pid] twice [MAX_PID], because each restart of
    the scan raises the candidate and the candidate wraps at most once
    ([pid_fuel]); the loops of libs/string.c take the fuel as an argument and
    the theorems ask for one more than the length of what is read; the run of
    the philosophers is bounded by 800 steps, which is proved.  In every case the
    theorem shows that [Timeout] does not happen.

    ** Not modelled

    Code that only talks to the machine (kern/trap, kern/init, kern/driver but for
    the disks, the assembly files, libs/riscv.h, sbi.h, atomic.h), the part of pmm.c that
    reads the memory map ([page_init], [pmm_init]) and all self-tests that only
    print or assert; kern/debug; the user programs and tools.  These either
    have no state of the kernel's or cannot be said without a model of the
    hardware.  An open and a change of directory are one
    step each, although the lookup of a name can sleep; a table of operations for
    the Simple File System, which needs its directories, is not built, so that the
    theorems on files of [SfsSpec] and those of [FilesProps] meet only in the
    contract [VopLaws].

    Not modelled yet, and worth it: directories and the mounting of the file
    system (sfs_fs.c, the directory part of sfs_inode.c), the copying of buffers
    in sysfile.c, [fs_init], and the loading of programs ([do_execve],
    [load_icode]). *)
From stdpp Require Export base list gmap numbers option sorting.
From Stdlib Require Export ZArith Lia.

#[global] Open Scope Z_scope.
#[export] Set Warnings "-clear-no-such-hyp".

(** ** Machine integers *)

(** A C integer of [w] bits is a [Z]; arithmetic that can leave its range is
    followed by an explicit wrap. *)
Definition uwrap (w x : Z) : Z := x mod 2 ^ w.
Definition swrap (w x : Z) : Z := (x + 2 ^ (w - 1)) mod 2 ^ w - 2 ^ (w - 1).

Abbreviation u8 := (uwrap 8).
Abbreviation u16 := (uwrap 16).
Abbreviation u32 := (uwrap 32).
Abbreviation u64 := (uwrap 64).
Abbreviation s32 := (swrap 32).
Abbreviation s64 := (swrap 64).

Lemma uwrap_small w x : 0 <= x < 2 ^ w -> uwrap w x = x.
Proof. apply Z.mod_small. Qed.

Lemma uwrap_range w x : 0 <= w -> 0 <= uwrap w x < 2 ^ w.
Proof. intros. apply Z.mod_pos_bound. lia. Qed.

Lemma swrap_small w x : 0 < w -> - 2 ^ (w - 1) <= x < 2 ^ (w - 1) -> swrap w x = x.
Proof.
  intros Hw Hx. unfold swrap.
  assert (2 ^ w = 2 * 2 ^ (w - 1)) as E.
  { rewrite <- Z.pow_succ_r by lia. f_equal. lia. }
  rewrite Z.mod_small by lia. lia.
Qed.

Lemma uwrap_uwrap w x : uwrap w (uwrap w x) = uwrap w x.
Proof. unfold uwrap. apply Zmod_mod. Qed.

Lemma uwrap_add_l w x y : uwrap w (uwrap w x + y) = uwrap w (x + y).
Proof. unfold uwrap. apply Zplus_mod_idemp_l. Qed.

Lemma uwrap_sub w x y : uwrap w (uwrap w x - uwrap w y) = uwrap w (x - y).
Proof. unfold uwrap. symmetry. apply Zminus_mod. Qed.

(** ** libs/defs.h: rounding *)

Definition ROUNDDOWN (a n : Z) : Z := a - a mod n.
Definition ROUNDUP (a n : Z) : Z := ROUNDDOWN (u64 (a + n - 1)) n.
Definition ROUNDUP_DIV (a n : Z) : Z := u64 (a + n - 1) / n.

(** [lia] with division and remainder. *)
Ltac zlia := Z.to_euclidean_division_equations; lia.

Lemma ROUNDDOWN_mul a n : 0 < n -> ROUNDDOWN a n = n * (a / n).
Proof. intros. unfold ROUNDDOWN. pose proof (Z.div_mod a n). lia. Qed.

Lemma ROUNDDOWN_bounds a n : 0 < n -> ROUNDDOWN a n <= a < ROUNDDOWN a n + n.
Proof. intros. unfold ROUNDDOWN. pose proof (Z.mod_pos_bound a n). lia. Qed.

Lemma ROUNDDOWN_aligned a n : 0 < n -> ROUNDDOWN a n mod n = 0.
Proof. intros. rewrite ROUNDDOWN_mul by lia. rewrite Z.mul_comm. apply Z_mod_mult. Qed.

Lemma ROUNDDOWN_id a n : 0 < n -> a mod n = 0 -> ROUNDDOWN a n = a.
Proof. unfold ROUNDDOWN. lia. Qed.

Lemma ROUNDUP_bounds a n :
  0 <= a -> 0 < n -> a + n <= 2 ^ 64 -> a <= ROUNDUP a n < a + n.
Proof.
  intros. unfold ROUNDUP. rewrite uwrap_small by lia.
  pose proof (ROUNDDOWN_bounds (a + n - 1) n). lia.
Qed.

Lemma ROUNDUP_DIV_spec a n q :
  0 <= a -> 0 < n -> a + n <= 2 ^ 64 ->
  ROUNDUP_DIV a n = q <-> (q - 1) * n < a <= q * n.
Proof.
  intros. unfold ROUNDUP_DIV. rewrite uwrap_small by lia. split.
  - intros <-. pose proof (Z.div_mod (a + n - 1) n). pose proof (Z.mod_pos_bound (a + n - 1) n). nia.
  - intros. symmetry. apply (Z.div_unique _ _ _ (a + n - 1 - q * n)); [left|]; lia.
Qed.

(** A duplicate-free list of keys is no longer than the map is large. *)
Lemma alloc_size {A} (h : gmap Z A) (l : list Z) :
  NoDup l -> (forall q, q ∈ l -> is_Some (h !! q)) -> (length l <= size h)%nat.
Proof.
  intros Hnd Ha. rewrite <-(size_dom (D := gset Z)), <-(size_list_to_set (C := gset Z) l) by done.
  apply subseteq_size. intros q Hq%elem_of_list_to_set. by apply elem_of_dom, Ha.
Qed.

(** How many members of a list pass a test. *)
Fixpoint count {A} (f : A -> bool) (l : list A) : Z :=
  match l with [] => 0 | x :: l => (if f x then 1 else 0) + count f l end.

Lemma count_ext {A} (f g : A -> bool) l : (forall x, x ∈ l -> f x = g x) -> count f l = count g l.
Proof.
  induction l as [|x l IH]; intros H; [done|]. cbn. rewrite H, IH; [done| |apply elem_of_cons; by left].
  intros y Hy. apply H, elem_of_cons. by right.
Qed.

Lemma count_bounds {A} (f : A -> bool) l : 0 <= count f l <= Z.of_nat (length l).
Proof. induction l as [|x l IH]; cbn [count length]; [lia|]. destruct (f x); lia. Qed.

Lemma count_zero {A} (f : A -> bool) l : (forall x, x ∈ l -> f x = false) -> count f l = 0.
Proof.
  induction l as [|x l IH]; intros H; [done|]. cbn. rewrite H, IH; [done| |apply elem_of_cons; by left].
  intros y Hy. apply H, elem_of_cons. by right.
Qed.

Lemma count_change {A} (f g : A -> bool) l x :
  NoDup l -> x ∈ l -> (forall y, y ∈ l -> y <> x -> g y = f y) ->
  count g l = count f l - (if f x then 1 else 0) + (if g x then 1 else 0).
Proof.
  induction l as [|y l IH]; intros Hnd Hx H; [by apply not_elem_of_nil in Hx|]. apply NoDup_cons in Hnd as [Hy Hnd].
  cbn. apply elem_of_cons in Hx as [->|Hx].
  - rewrite (count_ext g f l); [lia|]. intros z Hz. apply H; [apply elem_of_cons; by right|by intros ->].
  - rewrite (H y), (IH Hnd Hx); [lia| |apply elem_of_cons; by left|by intros ->].
    intros z Hz. apply H, elem_of_cons. by right.
Qed.

Lemma count_pos {A} (f : A -> bool) l x : x ∈ l -> f x = true -> 0 < count f l.
Proof.
  induction l as [|y l IH]; intros Hx Hf; [by apply not_elem_of_nil in Hx|]. cbn. pose proof (count_bounds f l).
  apply elem_of_cons in Hx as [->|Hx]; [rewrite Hf; lia|]. specialize (IH Hx Hf). destruct (f y); lia.
Qed.

Lemma NoDup_pairs {A B} (l : list A) (k : list B) : NoDup l -> NoDup k -> NoDup (list_prod l k).
Proof.
  intros Hl Hk. induction l as [|x l IH]; cbn; [constructor|]. apply NoDup_cons in Hl as [Hx Hl]. apply NoDup_app. split_and!.
  - apply NoDup_fmap_2; [by intros ?? [= ->]|done].
  - intros [x' y] (y'&[= -> ->]&_)%list_elem_of_fmap Hin. apply Hx.
    rewrite list_elem_of_In, in_prod_iff, <-!list_elem_of_In in Hin. tauto.
  - by apply IH.
Qed.

Lemma Forall2_in_impl {A B} (P Q : A -> B -> Prop) l k :
  Forall2 P l k -> (forall x y, x ∈ l -> P x y -> Q x y) -> Forall2 Q l k.
Proof.
  induction 1 as [|x y l k Hxy _ IH]; intros H; constructor.
  - apply H; [apply elem_of_cons; by left|done].
  - apply IH. intros a b Ha. apply H, elem_of_cons. by right.
Qed.

(** ** Parts of a list, by position *)

Definition slice {A} (i n : Z) (l : list A) : list A := take (Z.to_nat n) (drop (Z.to_nat i) l).
Definition splice {A} (i : Z) (d l : list A) : list A := take (Z.to_nat i) l ++ d ++ drop (Z.to_nat i + length d) l.

Section slices.
Context {A : Type}.
Implicit Types l d : list A.

Lemma lookup_slice i n l k :
  slice i n l !! k = if decide (k < Z.to_nat n)%nat then l !! (Z.to_nat i + k)%nat else None.
Proof.
  unfold slice. case_decide; [by rewrite lookup_take_lt, lookup_drop by lia|by rewrite lookup_take_ge by lia].
Qed.

Lemma length_slice i n l : 0 <= i -> 0 <= n -> i + n <= Z.of_nat (length l) -> Z.of_nat (length (slice i n l)) = n.
Proof. intros. unfold slice. rewrite length_take, length_drop. lia. Qed.

Lemma length_splice i d l :
  0 <= i -> i + Z.of_nat (length d) <= Z.of_nat (length l) -> length (splice i d l) = length l.
Proof. intros. unfold splice. rewrite !length_app, length_take, length_drop. lia. Qed.

Lemma lookup_splice i d l k :
  0 <= i -> i <= Z.of_nat (length l) ->
  splice i d l !! k =
    if decide (Z.of_nat k < i) then l !! k
    else if decide (Z.of_nat k < i + Z.of_nat (length d)) then d !! (k - Z.to_nat i)%nat else l !! k.
Proof.
  intros Hi Hl. unfold splice. case_decide.
  - rewrite lookup_app_l by (rewrite length_take; lia). by rewrite lookup_take_lt by lia.
  - rewrite lookup_app_r by (rewrite length_take; lia). rewrite length_take, Nat.min_l by lia. case_decide.
    + by rewrite lookup_app_l by lia.
    + rewrite lookup_app_r by lia. rewrite lookup_drop. f_equal. lia.
Qed.

Lemma slice_all l : slice 0 (Z.of_nat (length l)) l = l.
Proof. unfold slice. rewrite Nat2Z.id. by apply take_ge. Qed.

Lemma slice_nil i l : slice i 0 l = [].
Proof. done. Qed.

Lemma slice_app l i a b : 0 <= i -> 0 <= a -> 0 <= b -> slice i (a + b) l = slice i a l ++ slice (i + a) b l.
Proof.
  intros. unfold slice. rewrite !Z2Nat.inj_add by lia. by rewrite <-drop_drop, take_take_drop.
Qed.

Lemma slice_splice_eq i d l :
  0 <= i -> i <= Z.of_nat (length l) -> slice i (Z.of_nat (length d)) (splice i d l) = d.
Proof.
  intros. apply list_eq. intros k. rewrite lookup_slice. case_decide.
  - rewrite lookup_splice by lia. rewrite decide_False, decide_True by lia. f_equal. lia.
  - symmetry. apply lookup_ge_None_2. lia.
Qed.

Lemma slice_splice_ne i d l j n :
  0 <= i -> i <= Z.of_nat (length l) -> 0 <= j -> 0 <= n -> j + n <= i \/ i + Z.of_nat (length d) <= j ->
  slice j n (splice i d l) = slice j n l.
Proof.
  intros. apply list_eq. intros k. rewrite !lookup_slice. case_decide; [|done].
  rewrite lookup_splice by lia. repeat case_decide; (done || lia).
Qed.

Lemma splice_nil i l : splice i [] l = l.
Proof. unfold splice. rewrite Nat.add_0_r. cbn. apply take_drop. Qed.

Lemma splice_all d l : length d = length l -> splice 0 d l = d.
Proof. intros E. unfold splice. rewrite drop_ge by lia. by rewrite app_nil_r. Qed.

Lemma splice_slice i n l : 0 <= i -> 0 <= n -> i + n <= Z.of_nat (length l) -> splice i (slice i n l) l = l.
Proof.
  intros. apply list_eq. intros k. rewrite lookup_splice by lia.
  pose proof (length_slice i n l ltac:(lia) ltac:(lia) ltac:(lia)) as E. rewrite lookup_slice.
  repeat case_decide; (done || lia || (f_equal; lia)).
Qed.

(** Two pieces one after the other are one piece. *)
Lemma splice_app i d1 d2 l :
  0 <= i -> i + Z.of_nat (length d1) + Z.of_nat (length d2) <= Z.of_nat (length l) ->
  splice (i + Z.of_nat (length d1)) d2 (splice i d1 l) = splice i (d1 ++ d2) l.
Proof.
  intros. apply list_eq. intros k. rewrite lookup_splice by (rewrite ?length_splice; lia).
  rewrite !lookup_splice by lia. rewrite length_app.
  repeat case_decide; try lia; try done.
  - by rewrite lookup_app_l by lia.
  - rewrite lookup_app_r by lia. f_equal. lia.
Qed.

Lemma splice_app_r i d l l' :
  0 <= i -> i + Z.of_nat (length d) <= Z.of_nat (length l) -> splice i d (l ++ l') = splice i d l ++ l'.
Proof.
  intros. unfold splice. rewrite <-!app_assoc. rewrite take_app_le by lia. by rewrite drop_app_le by lia.
Qed.

Lemma splice_app_l l i d l' :
  0 <= i -> i <= Z.of_nat (length l') -> splice (Z.of_nat (length l) + i) d (l ++ l') = l ++ splice i d l'.
Proof.
  intros. apply list_eq. intros k. rewrite lookup_splice by (rewrite ?length_app; lia).
  destruct (decide (k < length l)%nat).
  - rewrite !lookup_app_l by lia. by rewrite decide_True by lia.
  - rewrite !lookup_app_r by lia. rewrite lookup_splice by lia. repeat case_decide; try lia; f_equal; lia.
Qed.

Lemma slice_app_left i n l l' : 0 <= i -> 0 <= n -> i + n <= Z.of_nat (length l) -> slice i n (l ++ l') = slice i n l.
Proof.
  intros. apply list_eq. intros k. rewrite !lookup_slice. case_decide; [|done]. by rewrite lookup_app_l by lia.
Qed.

Lemma slice_app_right i n l l' : 0 <= i -> slice (Z.of_nat (length l) + i) n (l ++ l') = slice i n l'.
Proof.
  intros. apply list_eq. intros k. rewrite !lookup_slice. case_decide; [|done]. rewrite lookup_app_r by lia. f_equal. lia.
Qed.

Lemma slice_slice i n j m l : 0 <= i -> 0 <= j -> j + m <= n -> slice j m (slice i n l) = slice (i + j) m l.
Proof.
  intros. apply list_eq. intros k. rewrite !lookup_slice. case_decide; [|done]. rewrite decide_True by lia. f_equal. lia.
Qed.

Lemma Forall_slice (P : A -> Prop) i n l : Forall P l -> Forall P (slice i n l).
Proof. intros. by apply Forall_take, Forall_drop. Qed.

Lemma Forall_splice (P : A -> Prop) i d l : Forall P l -> Forall P d -> Forall P (splice i d l).
Proof. intros. apply Forall_app. split; [by apply Forall_take|]. apply Forall_app. split; [done|by apply Forall_drop]. Qed.
End slices.

(** ** libs/error.h: error codes *)

Definition E_UNSPECIFIED := 1.
Definition E_BAD_PROC := 2.
Definition E_INVAL := 3.
Definition E_NO_MEM := 4.
Definition E_NO_FREE_PROC := 5.
Definition E_FAULT := 6.
Definition E_SWAP_FAULT := 7.
Definition E_INVAL_ELF := 8.
Definition E_KILLED := 9.
Definition E_PANIC := 10.
Definition E_TIMEOUT := 11.
Definition E_TOO_BIG := 12.
Definition E_NO_DEV := 13.
Definition E_NA_DEV := 14.
Definition E_BUSY := 15.
Definition E_NOENT := 16.
Definition E_ISDIR := 17.
Definition E_NOTDIR := 18.
Definition E_XDEV := 19.
Definition E_UNIMP := 20.
Definition E_SEEK := 21.
Definition E_MAX_OPEN := 22.
Definition E_EXISTS := 23.
Definition E_NOTEMPTY := 24.

(** ** Kernel computations *)

(** A call ends normally, ends in a kernel panic (an [assert] that fails, a
    [panic], an access through a pointer that is not valid), or, for the loops
    that carry fuel, has not ended when the fuel is spent. *)
Inductive outcome (A : Type) : Type :=
  | Done (a : A)
  | Panic
  | Timeout.
Arguments Done {A} a.
Arguments Panic {A}.
Arguments Timeout {A}.

(** A computation over the kernel state [S]. *)
Definition K (S A : Type) : Type := S -> outcome (A * S).

#[export] Instance K_ret S : MRet (K S) := fun A a s => Done (a, s).
#[export] Instance K_bind S : MBind (K S) := fun A B f m s =>
  match m s with
  | Done (a, s') => f a s'
  | Panic => Panic
  | Timeout => Timeout
  end.

Definition get {S} : K S S := fun s => Done (s, s).
Definition put {S} (s' : S) : K S () := fun _ => Done ((), s').
Definition gets {S A} (f : S -> A) : K S A := fun s => Done (f s, s).
Definition modify {S} (f : S -> S) : K S () := fun s => Done ((), f s).
Definition panic {S A} : K S A := fun _ => Panic.
Definition timeout {S A} : K S A := fun _ => Timeout.
Definition assert {S} (b : bool) : K S () := fun s => if b then Done ((), s) else Panic.
Definition unwrap {S A} (o : option A) : K S A := fun s =>
  match o with Some a => Done (a, s) | None => Panic end.
Definition when {S} (b : bool) (m : K S ()) : K S () := if b then m else mret ().

(** A computation over a part of the state. *)
Definition zoom {S T A} (proj : S -> T) (upd : T -> S -> S) (m : K T A) : K S A := fun s =>
  match m (proj s) with
  | Done (a, t) => Done (a, upd t s)
  | Panic => Panic
  | Timeout => Timeout
  end.

(** [wp m Q s]: run from [s], the computation [m] ends normally, and its
    result and final state satisfy [Q].  It excludes panics and timeouts. *)
Definition wp {S A} (m : K S A) (Q : A -> S -> Prop) (s : S) : Prop :=
  match m s with Done (a, s') => Q a s' | _ => False end.

Section wp.
Context {S : Type}.

Lemma wp_ret {A} (a : A) (Q : A -> S -> Prop) s : Q a s -> wp (mret a) Q s.
Proof. done. Qed.

Lemma wp_bind {A B} (m : K S A) (f : A -> K S B) Q s :
  wp m (fun a s' => wp (f a) Q s') s -> wp (m ≫= f) Q s.
Proof. unfold wp, mbind, K_bind. by destruct (m s) as [[a s']| |]. Qed.

Lemma wp_bind_inv {A B} (m : K S A) (f : A -> K S B) Q s :
  wp (m ≫= f) Q s -> wp m (fun a s' => wp (f a) Q s') s.
Proof. unfold wp, mbind, K_bind. by destruct (m s) as [[a s']| |]. Qed.

Lemma wp_assoc {A B C} (m : K S A) (f : A -> K S B) (g : B -> K S C) Q s :
  wp (m ≫= f) (fun b s' => wp (g b) Q s') s -> wp (m ≫= fun a => f a ≫= g) Q s.
Proof.
  unfold wp, mbind, K_bind. destruct (m s) as [[a s']| |]; [|done|done].
  by destruct (f a s') as [[b s'']| |].
Qed.

Lemma wp_assoc3 {B C} (m1 m2 : K S ()) (m3 : K S B) (g : B -> K S C) Q s :
  wp (m1;; m2;; m3) (fun b s' => wp (g b) Q s') s -> wp (m1;; m2;; m3 ≫= g) Q s.
Proof.
  unfold wp, mbind, K_bind. destruct (m1 s) as [[[] s1]| |]; [|done..].
  destruct (m2 s1) as [[[] s2]| |]; [|done..]. by destruct (m3 s2) as [[b s3]| |].
Qed.

Lemma wp_mono {A} (m : K S A) (P Q : A -> S -> Prop) s :
  wp m P s -> (forall a s', P a s' -> Q a s') -> wp m Q s.
Proof. unfold wp. destruct (m s) as [[a s']| |]; eauto. Qed.

Lemma wp_get (Q : S -> S -> Prop) s : Q s s -> wp get Q s.
Proof. done. Qed.
Lemma wp_gets {A} (f : S -> A) (Q : A -> S -> Prop) s : Q (f s) s -> wp (gets f) Q s.
Proof. done. Qed.
Lemma wp_put s' (Q : () -> S -> Prop) s : Q () s' -> wp (put s') Q s.
Proof. done. Qed.
Lemma wp_modify f (Q : () -> S -> Prop) s : Q () (f s) -> wp (modify f) Q s.
Proof. done. Qed.
Lemma wp_assert b (Q : () -> S -> Prop) s : b = true -> Q () s -> wp (assert b) Q s.
Proof. by intros ->. Qed.
Lemma wp_unwrap {A} (o : option A) a (Q : A -> S -> Prop) s :
  o = Some a -> Q a s -> wp (unwrap o) Q s.
Proof. by intros ->. Qed.
Lemma wp_when b (m : K S ()) (Q : () -> S -> Prop) s :
  (b = true -> wp m Q s) -> (b = false -> Q () s) -> wp (when b m) Q s.
Proof. unfold when. destruct b; [eauto|]. intros _ H. by apply H. Qed.

Lemma wp_when_dec P `{!Decision P} (m : K S ()) (Q : () -> S -> Prop) s :
  (P -> wp m Q s) -> (~ P -> Q () s) -> wp (when (bool_decide P) m) Q s.
Proof. intros H1 H2. case_bool_decide; [by apply H1|by apply H2]. Qed.

Lemma wp_zoom {T A} (proj : S -> T) upd (m : K T A) (Q : A -> S -> Prop) s :
  wp m (fun a t => Q a (upd t s)) (proj s) -> wp (zoom proj upd m) Q s.
Proof. unfold wp, zoom. by destruct (m (proj s)) as [[a t]| |]. Qed.

Lemma wp_and {A} (m : K S A) (P Q : A -> S -> Prop) s :
  wp m P s -> wp m Q s -> wp m (fun a s' => P a s' /\ Q a s') s.
Proof. unfold wp. destruct (m s) as [[a s']| |]; auto. Qed.

Lemma wp_Done {A} (m : K S A) (Q : A -> S -> Prop) s :
  wp m Q s <-> exists a s', m s = Done (a, s') /\ Q a s'.
Proof.
  unfold wp. split.
  - destruct (m s) as [[a s']| |]; naive_solver.
  - by intros (a & s' & -> & ?).
Qed.

Lemma bind_Done {A B} (m : K S A) (f : A -> K S B) s r :
  (m ≫= f) s = Done r <-> exists a s', m s = Done (a, s') /\ f a s' = Done r.
Proof.
  unfold mbind, K_bind. split.
  - destruct (m s) as [[a s']| |]; naive_solver.
  - by intros (a & s' & -> & ?).
Qed.

Lemma bind_after {A B} (m : K S A) (f : A -> K S B) s a s' : m s = Done (a, s') -> (m ≫= f) s = f a s'.
Proof. intros E. unfold mbind, K_bind. by rewrite E. Qed.
Lemma bind_panic {A B} (m : K S A) (f : A -> K S B) s : m s = Panic -> (m ≫= f) s = Panic.
Proof. intros E. unfold mbind, K_bind. by rewrite E. Qed.
End wp.

(** [wlp m Q s]: as [wp], but the run may end in a panic; it still ends. *)
Definition wlp {S A} (m : K S A) (Q : A -> S -> Prop) (s : S) : Prop :=
  match m s with Done (a, s') => Q a s' | Panic => True | Timeout => False end.

Lemma wp_wlp {S A} (m : K S A) (Q : A -> S -> Prop) s : wp m Q s -> wlp m Q s.
Proof. unfold wp, wlp. by destruct (m s) as [[a s']| |]. Qed.
Lemma wlp_bind {S A B} (m : K S A) (f : A -> K S B) Q s :
  wlp m (fun a s' => wlp (f a) Q s') s -> wlp (m ≫= f) Q s.
Proof. unfold wlp, mbind, K_bind. by destruct (m s) as [[a s']| |]. Qed.
Lemma wlp_bind_wp {S A B} (m : K S A) (f : A -> K S B) Q s :
  wp m (fun a s' => wlp (f a) Q s') s -> wlp (m ≫= f) Q s.
Proof. intros H. by apply wlp_bind, wp_wlp. Qed.
Lemma wlp_mono {S A} (m : K S A) (P Q : A -> S -> Prop) s :
  wlp m P s -> (forall a s', P a s' -> Q a s') -> wlp m Q s.
Proof. unfold wlp. destruct (m s) as [[a s']| |]; eauto. Qed.
Lemma wlp_ret {S A} (a : A) (Q : A -> S -> Prop) s : Q a s -> wlp (mret a) Q s.
Proof. done. Qed.
Lemma wlp_assert {S} b (Q : () -> S -> Prop) s : (b = true -> Q () s) -> wlp (assert b) Q s.
Proof. intros H. unfold wlp, assert. destruct b; auto. Qed.
Lemma wlp_unwrap {S A} (o : option A) (Q : A -> S -> Prop) s :
  (forall a, o = Some a -> Q a s) -> wlp (unwrap o) Q s.
Proof. intros H. unfold wlp, unwrap. destruct o; auto. Qed.

Lemma wlp_zoom {S T A} (proj : S -> T) upd (m : K T A) (Q : A -> S -> Prop) s :
  wlp m (fun a t => Q a (upd t s)) (proj s) -> wlp (zoom proj upd m) Q s.
Proof. unfold wlp, zoom. by destruct (m (proj s)) as [[a t]| |]. Qed.

(** [keeps I m]: every run of [m] that ends normally keeps [I]. *)
Definition keeps {S A} (I : S -> Prop) (m : K S A) : Prop :=
  forall s a s', m s = Done (a, s') -> I s -> I s'.

Section keeps.
Context {S : Type} (I : S -> Prop).

Lemma keeps_ret {A} (a : A) : keeps I (mret a).
Proof. by intros s b s' [= _ <-]. Qed.
Lemma keeps_bind {A B} (m : K S A) (f : A -> K S B) :
  keeps I m -> (forall a, keeps I (f a)) -> keeps I (m ≫= f).
Proof. intros H1 H2 s b s' (a&s1&E1&E2)%bind_Done Hs. eapply H2, H1; eassumption. Qed.
Lemma keeps_get : keeps I get.
Proof. by intros s b s' [= _ <-]. Qed.
Lemma keeps_unwrap {A} (o : option A) : keeps I (unwrap o).
Proof. intros s b s'. unfold unwrap. destruct o; [|done]. by intros [= _ <-]. Qed.
Lemma keeps_assert b : keeps I (assert b).
Proof. intros s a s'. unfold assert. destruct b; [|done]. by intros [= _ <-]. Qed.
Lemma keeps_panic {A} : keeps I (panic (A := A)).
Proof. by intros s a s'. Qed.
Lemma keeps_timeout {A} : keeps I (timeout (A := A)).
Proof. by intros s a s'. Qed.
Lemma keeps_when b (m : K S ()) : keeps I m -> keeps I (when b m).
Proof. intros H. destruct b; [done|apply keeps_ret]. Qed.
Lemma keeps_modify f : (forall s, I s -> I (f s)) -> keeps I (modify f).
Proof. intros H s a s' [= _ <-]. apply H. Qed.
Lemma keeps_wp {A} (m : K S A) (Q : A -> S -> Prop) s :
  keeps I m -> I s -> wp m Q s -> wp m (fun a s' => Q a s' /\ I s') s.
Proof. unfold wp. intros Hk Hi. specialize (Hk s). destruct (m s) as [[a s']| |]; eauto. Qed.
Lemma keeps_zoom {T A} (proj : S -> T) upd (m : K T A) :
  (forall s t, I s -> I (upd t s)) -> keeps I (zoom proj upd m).
Proof. intros H s a s'. unfold zoom. destruct (m (proj s)) as [[? ?]| |]; [|done..]. intros [= _ <-]. apply H. Qed.
Lemma keeps_read {T A} (proj : S -> T) (m : K T A) : keeps I (zoom proj (fun _ s => s) m).
Proof. intros s a s'. unfold zoom. destruct (m (proj s)) as [[? ?]| |]; [|done..]. by intros [= _ <-]. Qed.
End keeps.

(** [sim R m1 m2]: every run of [m1] that ends normally has one of [m2] with the
    same result, from states related by [R] to states related by [R]. *)
Definition sim {S1 S2 A} (R : S1 -> S2 -> Prop) (m1 : K S1 A) (m2 : K S2 A) : Prop :=
  forall s1 s2 a s1', R s1 s2 -> m1 s1 = Done (a, s1') -> exists s2', m2 s2 = Done (a, s2') /\ R s1' s2'.

Section sim.
Context {S1 S2 : Type} (R : S1 -> S2 -> Prop).

Lemma sim_ret {A} (a : A) : sim R (mret a) (mret a).
Proof. intros s1 s2 b s1' HR [= <- <-]. by exists s2. Qed.
Lemma sim_bind {A B} (m1 : K S1 A) (m2 : K S2 A) (f1 : A -> K S1 B) (f2 : A -> K S2 B) :
  sim R m1 m2 -> (forall a, sim R (f1 a) (f2 a)) -> sim R (m1 ≫= f1) (m2 ≫= f2).
Proof.
  intros Hm Hf s1 s2 b s1' HR (a&t1&E1&E2)%bind_Done. destruct (Hm _ _ _ _ HR E1) as (t2&E3&HR2).
  destruct (Hf a _ _ _ _ HR2 E2) as (s2'&E4&HR3). exists s2'. split; [|done]. unfold mbind, K_bind. by rewrite E3.
Qed.
Lemma sim_unwrap {A} (o : option A) : sim R (unwrap o) (unwrap o).
Proof. intros s1 s2 a s1' HR. unfold unwrap. destruct o; [|done]. intros [= <- <-]. by exists s2. Qed.
Lemma sim_assert b : sim R (assert b) (assert b).
Proof. intros s1 s2 a s1' HR. unfold assert. destruct b; [|done]. intros [= <- <-]. by exists s2. Qed.
Lemma sim_panic {A} : sim R (panic (A := A)) panic.
Proof. by intros s1 s2 a s1'. Qed.
Lemma sim_timeout {A} : sim R (timeout (A := A)) timeout.
Proof. by intros s1 s2 a s1'. Qed.
Lemma sim_when b (m1 : K S1 ()) (m2 : K S2 ()) : sim R m1 m2 -> sim R (when b m1) (when b m2).
Proof. intros H. destruct b; [done|apply sim_ret]. Qed.
End sim.

Create HintDb kernel.
#[export] Hint Resolve sim_ret sim_unwrap sim_assert sim_panic sim_timeout : kernel.
#[export] Hint Resolve keeps_ret keeps_get keeps_unwrap keeps_assert keeps_panic keeps_timeout
  keeps_read : kernel.
#[export] Hint Resolve uwrap_range : kernel.

(** [kstep] runs the model one primitive further inside a [wp] goal. *)
Ltac kstep :=
  lazymatch goal with
  | |- wp (mret _) _ _ => apply wp_ret
  | |- wp (mbind _ _) _ _ => apply wp_bind
  | |- wp get _ _ => apply wp_get
  | |- wp (gets _) _ _ => apply wp_gets
  | |- wp (put _) _ _ => apply wp_put
  | |- wp (modify _) _ _ => apply wp_modify
  | |- wp (assert _) _ _ => apply wp_assert
  | |- wp (unwrap _) _ _ => eapply wp_unwrap
  | |- wp (zoom _ _ _) _ _ => apply wp_zoom
  | |- wp (let _ := _ in _) _ _ => cbv zeta
  end.
Ltac ksteps := repeat (kstep; cbn beta).

(** [kkeeps] takes a [keeps] goal apart along the structure of the program. *)
Ltac kkeeps :=
  repeat (first
    [ solve [eauto 3 with kernel]
    | apply keeps_bind; [|intros ?]
    | apply keeps_when
    | match goal with |- keeps _ (match ?x with _ => _ end) => destruct x end ]).

(** [ksim] takes a [sim] goal of twice the same program apart. *)
Ltac ksim :=
  repeat (first
    [ solve [eauto 3 with kernel]
    | apply sim_bind; [|intros ?]
    | apply sim_when
    | match goal with |- sim _ (match ?x with _ => _ end) _ => destruct x end ]).
