(* ===== verification/Dlist.v ===== *)
(** libs/list.h: the circular doubly linked list every queue of the kernel is
    built on.  The entries live in a shared store, as in C, and each operation
    is a sequence of field writes.  [dlist h head l] says that the entries from
    [head] form a well-linked ring whose members, in order, are [l]; the
    theorems show what each operation does to [l].  The other components use
    this result and keep [l] itself. *)
From S2P Require Import Prelude.

(** ** Data *)

Abbreviation ptr := Z.

Record list_entry := mk_entry { le_prev : ptr; le_next : ptr }.
Abbreviation store := (gmap ptr list_entry).

Definition load (p : ptr) : K store list_entry := fun h => unwrap (h !! p) h.
Definition set_prev (p v : ptr) : K store () :=
  e ← load p; modify (fun h => <[p := mk_entry v (le_next e)]> h).
Definition set_next (p v : ptr) : K store () :=
  e ← load p; modify (fun h => <[p := mk_entry (le_prev e) v]> h).

(** ** Operations *)

Definition list_init (elm : ptr) : K store () :=
  set_next elm elm;; set_prev elm elm.

Definition __list_add (elm prev next : ptr) : K store () :=
  set_prev next elm;; set_next prev elm;;
  set_next elm next;;
  set_prev elm prev.

Definition __list_del (prev next : ptr) : K store () :=
  set_next prev next;;
  set_prev next prev.

Definition list_add_after (listelm elm : ptr) : K store () :=
  e ← load listelm; __list_add elm listelm (le_next e).

Definition list_add (listelm elm : ptr) : K store () := list_add_after listelm elm.

Definition list_add_before (listelm elm : ptr) : K store () :=
  e ← load listelm; __list_add elm (le_prev e) listelm.

Definition list_del (listelm : ptr) : K store () :=
  e ← load listelm; __list_del (le_prev e) (le_next e).

Definition list_del_init (listelm : ptr) : K store () :=
  list_del listelm;; list_init listelm.

Definition list_empty (lst : ptr) : K store bool :=
  e ← load lst; mret (bool_decide (le_next e = lst)).

Definition list_next (listelm : ptr) : K store ptr :=
  e ← load listelm; mret (le_next e).

Definition list_prev (listelm : ptr) : K store ptr :=
  e ← load listelm; mret (le_prev e).

(** The loop [while ((le = list_next(le)) != list)] of every traversal. *)
Fixpoint list_walk (fuel : nat) (lst le : ptr) : K store (list ptr) :=
  match fuel with
  | O => timeout
  | S fuel =>
      le ← list_next le;
      if bool_decide (le = lst) then mret []
      else l ← list_walk fuel lst le; mret (le :: l)
  end.

(** ** Rings *)

Definition nxt (h : store) (p : ptr) : option ptr := le_next <$> h !! p.
Definition prv (h : store) (p : ptr) : option ptr := le_prev <$> h !! p.

(** [linked h a l z]: following [next] from [a] runs through [l] to [z], and
    the [prev] fields lead back. *)
Fixpoint linked (h : store) (a : ptr) (l : list ptr) (z : ptr) : Prop :=
  match l with
  | [] => nxt h a = Some z /\ prv h z = Some a
  | b :: l => nxt h a = Some b /\ prv h b = Some a /\ linked h b l z
  end.

Definition ring (h : store) (c : list ptr) : Prop :=
  NoDup c /\ match c with [] => True | a :: l => linked h a l a end.

Definition dlist (h : store) (head : ptr) (l : list ptr) : Prop := ring h (head :: l).

Lemma linked_app h a l1 b l2 z :
  linked h a (l1 ++ b :: l2) z <-> linked h a l1 b /\ linked h b l2 z.
Proof. revert a. induction l1; naive_solver. Qed.

Lemma linked_ext h h' a l z :
  linked h a l z ->
  (forall q, q ∈ a :: l -> nxt h' q = nxt h q) ->
  (forall q, q ∈ l ++ [z] -> prv h' q = prv h q) ->
  linked h' a l z.
Proof.
  revert a. induction l as [|b l IH]; cbn; intros a Hl Hn Hp.
  - rewrite Hn, Hp; set_solver.
  - destruct Hl as (?&?&?). rewrite Hn, Hp by set_solver. split_and!; [done..|].
    apply IH; set_solver.
Qed.

Lemma linked_nxt h a l z : linked h a l z -> nxt h a = Some (hd z l).
Proof. destruct l; naive_solver. Qed.

(** The pointers determine the list. *)
Lemma linked_fun h a l l' z : linked h a l z -> linked h a l' z -> z ∉ l -> z ∉ l' -> l = l'.
Proof.
  revert a l'. induction l as [|b l IH]; intros a [|b' l'] H1 H2 N1 N2; cbn in H1, H2; [done| | |].
  - destruct H1 as [E1 _], H2 as (E2&_). rewrite E1 in E2. injection E2 as <-. set_solver +N2.
  - destruct H1 as (E1&_), H2 as [E2 _]. rewrite E1 in E2. injection E2 as ->. set_solver +N1.
  - destruct H1 as (E1&_&H1), H2 as (E2&_&H2). rewrite E1 in E2. injection E2 as <-. f_equal.
    eapply IH; [exact H1|exact H2|set_solver +N1|set_solver +N2].
Qed.

Lemma lastd_snoc {A} (l : list A) b d : List.last (l ++ [b]) d = b.
Proof. apply List.last_last. Qed.

Lemma lastd_cons {A} (b d : A) l : List.last (b :: l) d = List.last l b.
Proof. revert b. induction l as [|c l IH]; [done|]. intros b. cbn in *. destruct l; [done|]. apply (IH b). Qed.

Lemma last_in_cons {A} (x : A) l : List.last l x ∈ x :: l.
Proof.
  induction l as [|b l _] using rev_ind; [set_solver|]. rewrite lastd_snoc. set_solver.
Qed.

Lemma linked_prv h a l z : linked h a l z -> prv h z = Some (List.last l a).
Proof.
  induction l as [|b l _] using rev_ind; [naive_solver|].
  rewrite lastd_snoc. intros [_ [_ ?]]%linked_app. done.
Qed.

(** The operations write fields; they allocate and free nothing. *)
Definition same_cells (h h' : store) : Prop := forall q, is_Some (h' !! q) <-> is_Some (h !! q).

(** Every entry of a list is allocated. *)
Lemma linked_alloc h a l z q : linked h a l z -> q ∈ a :: l -> is_Some (h !! q).
Proof.
  revert a. induction l as [|b l IH]; intros a Hl Hq.
  - apply list_elem_of_singleton in Hq as ->. destruct Hl as [Hn _].
    unfold nxt in Hn. destruct (h !! a); naive_solver.
  - destruct Hl as (Hn&_&Hl). apply elem_of_cons in Hq as [->|Hq]; [|eauto].
    unfold nxt in Hn. destruct (h !! a); naive_solver.
Qed.

Lemma ring_alloc h c q : ring h c -> q ∈ c -> is_Some (h !! q).
Proof. destruct c as [|a l]; [set_solver|]. intros [_ Hl] Hq. by eapply linked_alloc. Qed.

(** The same ring seen from another of its entries. *)
Lemma ring_rotate h l1 l2 : ring h (l1 ++ l2) -> ring h (l2 ++ l1).
Proof.
  intros [Hnd Hl]. split; [by rewrite (Permutation_app_comm l2 l1)|].
  destruct l2 as [|b l2]; cbn in *; [by rewrite app_nil_r in Hl|].
  destruct l1 as [|a l1]; [by rewrite app_nil_r|]. cbn in Hl.
  apply linked_app in Hl as [H1 H2]. apply linked_app. done.
Qed.

(** ** What the field writes do *)

Section effects.
Implicit Types (h : store) (p q e n : ptr).

Lemma wp_set_next p v h (Q : () -> store -> Prop) :
  is_Some (h !! p) ->
  (forall h', same_cells h h' ->
     (forall q, nxt h' q = if decide (q = p) then Some v else nxt h q) ->
     (forall q, prv h' q = prv h q) -> Q () h') ->
  wp (set_next p v) Q h.
Proof.
  intros [e He] HQ. unfold set_next, load, wp, mbind, K_bind, unwrap. rewrite He. cbn.
  apply HQ; intros q; unfold nxt, prv;
    rewrite lookup_insert; repeat case_decide; simplify_eq; rewrite ?He; naive_solver.
Qed.

Lemma wp_set_prev p v h (Q : () -> store -> Prop) :
  is_Some (h !! p) ->
  (forall h', same_cells h h' ->
     (forall q, nxt h' q = nxt h q) ->
     (forall q, prv h' q = if decide (q = p) then Some v else prv h q) -> Q () h') ->
  wp (set_prev p v) Q h.
Proof.
  intros [e He] HQ. unfold set_prev, load, wp, mbind, K_bind, unwrap. rewrite He. cbn.
  apply HQ; intros q; unfold nxt, prv;
    rewrite lookup_insert; repeat case_decide; simplify_eq; rewrite ?He; naive_solver.
Qed.

Lemma wp_load p h (Q : list_entry -> store -> Prop) :
  is_Some (h !! p) ->
  (forall ent, h !! p = Some ent -> Q ent h) -> wp (load p) Q h.
Proof. intros [e He] HQ. unfold wp, load, unwrap. rewrite He. eauto. Qed.

(** Whichever of the three entries are the same. *)
Lemma wp___list_add_any e p n h (Q : () -> store -> Prop) :
  is_Some (h !! e) -> is_Some (h !! p) -> is_Some (h !! n) ->
  (forall h', same_cells h h' ->
     (forall q, nxt h' q = if decide (q = e) then Some n
                           else if decide (q = p) then Some e else nxt h q) ->
     (forall q, prv h' q = if decide (q = e) then Some p
                           else if decide (q = n) then Some e else prv h q) -> Q () h') ->
  wp (__list_add e p n) Q h.
Proof.
  intros He Hp Hn HQ. unfold __list_add.
  kstep; apply wp_set_prev; [done|]. intros h1 D1 N1 P1.
  kstep; apply wp_set_next; [by apply D1|]. intros h2 D2 N2 P2.
  kstep; apply wp_set_next; [by apply D2, D1|]. intros h3 D3 N3 P3.
  apply wp_set_prev; [by apply D3, D2, D1|]. intros h4 D4 N4 P4.
  apply HQ; [intros q; by rewrite (D4 q), (D3 q), (D2 q), (D1 q)|..]; intros q.
  - by rewrite N4, N3, N2, N1.
  - by rewrite P4, P3, P2, P1.
Qed.

Lemma wp___list_add e p n h (Q : () -> store -> Prop) :
  is_Some (h !! e) -> is_Some (h !! p) -> is_Some (h !! n) -> e <> p -> e <> n ->
  (forall h', same_cells h h' ->
     (forall q, nxt h' q = if decide (q = e) then Some n
                           else if decide (q = p) then Some e else nxt h q) ->
     (forall q, prv h' q = if decide (q = e) then Some p
                           else if decide (q = n) then Some e else prv h q) -> Q () h') ->
  wp (__list_add e p n) Q h.
Proof. intros He Hp Hn _ _. by apply wp___list_add_any. Qed.

Lemma wp___list_del p n h (Q : () -> store -> Prop) :
  is_Some (h !! p) -> is_Some (h !! n) ->
  (forall h', same_cells h h' ->
     (forall q, nxt h' q = if decide (q = p) then Some n else nxt h q) ->
     (forall q, prv h' q = if decide (q = n) then Some p else prv h q) -> Q () h') ->
  wp (__list_del p n) Q h.
Proof.
  intros Hp Hn HQ. unfold __list_del.
  kstep; apply wp_set_next; [done|]. intros h1 D1 N1 P1.
  apply wp_set_prev; [by apply D1|]. intros h2 D2 N2 P2.
  apply HQ; [intros q; by rewrite (D2 q), (D1 q)|..]; intros q; [by rewrite N2, N1|by rewrite P2, P1].
Qed.
End effects.

(** ** Each operation on the ring *)

Section ring_ops.
Implicit Types (h : store) (x e head : ptr) (l : list ptr).

(** Insertion after the entry the ring is seen from. *)
Lemma wp_list_add_ring x l e h (Q : () -> store -> Prop) :
  ring h (x :: l) -> is_Some (h !! e) -> e ∉ x :: l ->
  (forall h', same_cells h h' ->
     (forall q, q ∉ e :: x :: l -> nxt h' q = nxt h q /\ prv h' q = prv h q) ->
     ring h' (x :: e :: l) -> Q () h') ->
  wp (list_add x e) Q h.
Proof.
  intros [Hnd Hl] He Hni HQ. apply not_elem_of_cons in Hni as [Hex Hel].
  pose proof (linked_nxt _ _ _ _ Hl) as Hn.
  unfold list_add, list_add_after.
  kstep. apply wp_load; [eapply linked_alloc; [done|set_solver]|]. intros ent Hent.
  assert (le_next ent = hd x l) as -> by (unfold nxt in Hn; rewrite Hent in Hn; naive_solver).
  apply wp___list_add; auto.
  - eapply linked_alloc; [done|]. destruct l; cbn; set_solver.
  - destruct l; cbn; set_solver.
  - intros h' D N P. apply HQ; [done|..].
    + intros q Hq. rewrite N, P. rewrite !decide_False; [done|..]; destruct l; cbn; set_solver +Hq.
    + split; [apply NoDup_cons in Hnd as [??]; constructor; [set_solver +H Hex|by constructor]|].
      destruct l as [|b l]; cbn in *.
      * rewrite !N, !P. repeat case_decide; naive_solver.
      * apply NoDup_cons in Hnd as [Hx Hnd]. apply NoDup_cons in Hnd as [Hb Hnd].
        destruct Hl as (_&_&Hl). apply not_elem_of_cons in Hel as [Heb Hel].
        apply not_elem_of_cons in Hx as [Hxb Hx].
        rewrite !N, !P. repeat case_decide; try congruence. split_and!; try done.
        eapply linked_ext; [apply Hl|..]; intros q Hq; rewrite ?N, ?P, !decide_False; try done;
          set_solver +Hq Heb Hel Hxb Hx Hb Hex.
Qed.

(** Insertion before it: the new entry is the last of the ring. *)
Lemma wp_list_add_before_ring x l e h (Q : () -> store -> Prop) :
  ring h (x :: l) -> is_Some (h !! e) -> e ∉ x :: l ->
  (forall h', same_cells h h' ->
     (forall q, q ∉ e :: x :: l -> nxt h' q = nxt h q /\ prv h' q = prv h q) ->
     ring h' (x :: l ++ [e]) -> Q () h') ->
  wp (list_add_before x e) Q h.
Proof.
  intros [Hnd Hl] He Hni HQ. apply not_elem_of_cons in Hni as [Hex Hel].
  pose proof (linked_prv _ _ _ _ Hl) as Hp.
  assert (Hlast : List.last l x ∈ x :: l) by apply last_in_cons.
  unfold list_add_before.
  kstep. apply wp_load; [eapply linked_alloc; [done|set_solver]|]. intros ent Hent.
  assert (le_prev ent = List.last l x) as ->
    by (unfold prv in Hp; rewrite Hent in Hp; naive_solver).
  apply wp___list_add; auto.
  - by eapply linked_alloc.
  - set_solver +Hlast Hex Hel.
  - intros h' S N P. apply HQ; [done|..].
    + intros q Hq. rewrite N, P. rewrite !decide_False; [done|..]; set_solver +Hq Hlast.
    + split; [apply NoDup_cons in Hnd as [??]; constructor; [set_solver +H Hex|];
               apply NoDup_app; split_and!; [done|set_solver +Hel|apply NoDup_singleton]|].
      induction l as [|b l _] using rev_ind; cbn in *.
      * rewrite !N, !P. repeat case_decide; naive_solver.
      * rewrite lastd_snoc in *. rewrite <-app_assoc. cbn.
        apply linked_app in Hl as [H1 [H2 H3]]. apply linked_app. cbn.
        apply NoDup_cons in Hnd as [Hx Hnd]. apply NoDup_app in Hnd as (_&Hd&_).
        assert ((e <> b) /\ (x <> b) /\ (e ∉ l) /\ (x ∉ l) /\ (b ∉ l)) as (?&?&?&?&?)
          by (split_and!; set_solver +Hel Hx Hd).
        rewrite !N, !P. repeat case_decide; try congruence. split_and!; try done.
        eapply linked_ext; [apply H1|..]; intros q Hq; rewrite ?N, ?P, !decide_False; try done;
          set_solver +Hq H H0 H4 H5 H6 Hex.
Qed.

(** Removal of the entry the ring is seen from. *)
Lemma wp_list_del_ring x l h (Q : () -> store -> Prop) :
  ring h (x :: l) -> l <> [] ->
  (forall h', same_cells h h' ->
     (forall q, q ∉ l -> nxt h' q = nxt h q /\ prv h' q = prv h q) ->
     ring h' l -> Q () h') ->
  wp (list_del x) Q h.
Proof.
  intros [Hnd Hl] Hne HQ.
  pose proof (linked_prv _ _ _ _ Hl) as Hp. pose proof (linked_nxt _ _ _ _ Hl) as Hn.
  unfold list_del.
  kstep. apply wp_load; [eapply linked_alloc; [done|set_solver]|]. intros ent Hent.
  assert (le_prev ent = List.last l x) as ->
    by (unfold prv in Hp; rewrite Hent in Hp; naive_solver).
  assert (le_next ent = hd x l) as -> by (unfold nxt in Hn; rewrite Hent in Hn; naive_solver).
  apply NoDup_cons in Hnd as [Hx Hnd].
  destruct l as [|b l]; [done|]. cbn in Hl. destruct Hl as (_&_&Hl). cbn [hd].
  assert (Hlast : List.last (b :: l) x ∈ b :: l) by (rewrite lastd_cons; apply last_in_cons).
  apply wp___list_del.
  - by eapply linked_alloc.
  - eapply linked_alloc; [done|set_solver].
  - intros h' S N P. apply HQ; [done|..].
    + intros q Hq. rewrite N, P. rewrite !decide_False; [done|..]; set_solver +Hq Hlast.
    + split; [done|]. rewrite lastd_cons in *.
      induction l as [|c l _] using rev_ind; cbn in *.
      * rewrite !N, !P. by rewrite !decide_True by done.
      * rewrite lastd_snoc in *. apply linked_app in Hl as [H1 [H2 H3]].
        apply NoDup_cons in Hnd as [Hb Hnd]. apply NoDup_app in Hnd as (?&Hd&_).
        apply linked_app. cbn. rewrite !N, !P. rewrite !decide_True by done.
        split; [|done]. eapply linked_ext; [apply H1|..]; intros q Hq; rewrite ?N, ?P, decide_False;
          try done; set_solver +Hq Hb Hd.
Qed.
End ring_ops.

(** ** The operations on the list behind a head *)

(** The entries outside [c] keep both their fields. *)
Definition untouched (h h' : store) (c : list ptr) : Prop :=
  forall q, q ∉ c -> nxt h' q = nxt h q /\ prv h' q = prv h q.

Lemma untouched_subseteq h h' c c' : untouched h h' c -> c ⊆ c' -> untouched h h' c'.
Proof. intros H Hs q Hq. apply H. set_solver +Hq Hs. Qed.

Lemma wp_list_add_at h head l1 l2 e (Q : () -> store -> Prop) :
  dlist h head (l1 ++ l2) -> is_Some (h !! e) -> e ∉ head :: l1 ++ l2 ->
  (forall h', same_cells h h' -> untouched h h' (e :: head :: l1 ++ l2) ->
              dlist h' head (l1 ++ e :: l2) -> Q () h') ->
  wp (list_add (List.last l1 head) e) Q h.
Proof.
  intros Hd He Hni HQ. unfold dlist in *. destruct l1 as [|x l1 _] using rev_ind; cbn in *.
  - apply (wp_list_add_ring _ l2); auto.
  - rewrite lastd_snoc. rewrite <-!app_assoc in *. cbn in *.
    apply (ring_rotate _ (head :: l1) (x :: l2)) in Hd.
    apply (wp_list_add_ring _ (l2 ++ head :: l1)); [done|done|set_solver +Hni|].
    intros h' Hs Hf Hr. apply HQ;
      [done| |apply (ring_rotate _ (x :: e :: l2) (head :: l1)), Hr].
    eapply untouched_subseteq; [exact Hf|set_solver+].
Qed.

Lemma wp_list_add_before_at h head l1 l2 e (Q : () -> store -> Prop) :
  dlist h head (l1 ++ l2) -> is_Some (h !! e) -> e ∉ head :: l1 ++ l2 ->
  (forall h', same_cells h h' -> untouched h h' (e :: head :: l1 ++ l2) ->
              dlist h' head (l1 ++ e :: l2) -> Q () h') ->
  wp (list_add_before (hd head l2) e) Q h.
Proof.
  intros Hd He Hni HQ. unfold dlist in *. destruct l2 as [|x l2]; cbn [hd].
  - rewrite app_nil_r in *. apply (wp_list_add_before_ring _ l1); auto.
  - apply (ring_rotate _ (head :: l1) (x :: l2)) in Hd.
    apply (wp_list_add_before_ring _ (l2 ++ head :: l1)); [done|done|set_solver +Hni|].
    intros h' Hs Hf Hr. apply HQ; [done| |].
    + eapply untouched_subseteq; [exact Hf|set_solver+].
    + rewrite <-app_assoc in Hr. apply (ring_rotate _ (x :: l2) ((head :: l1) ++ [e])) in Hr.
      by rewrite <-app_assoc in Hr.
Qed.

(** Following the pointers of a list. *)
Lemma dlist_nxt h head l1 l2 : dlist h head (l1 ++ l2) -> nxt h (List.last l1 head) = Some (hd head l2).
Proof.
  intros [_ Hl]. destruct l1 as [|x l1 _] using rev_ind; cbn in *.
  - by eapply linked_nxt.
  - rewrite lastd_snoc, <-app_assoc in *. cbn in Hl. apply linked_app in Hl as [_ Hl]. by eapply linked_nxt.
Qed.

Lemma dlist_prv h head l1 l2 : dlist h head (l1 ++ l2) -> prv h (hd head l2) = Some (List.last l1 head).
Proof.
  intros [_ Hl]. destruct l2 as [|x l2]; cbn [hd].
  - rewrite app_nil_r in Hl. by eapply linked_prv.
  - apply linked_app in Hl as [Hl _]. by eapply linked_prv.
Qed.

Lemma wp_list_next p q h (Q : ptr -> store -> Prop) : nxt h p = Some q -> Q q h -> wp (list_next p) Q h.
Proof.
  intros E H. unfold list_next. kstep. unfold nxt in E. destruct (h !! p) eqn:Ep; [|done].
  injection E as <-. apply wp_load; [eauto|]. intros ent Hent. rewrite Ep in Hent.
  injection Hent as <-. by apply wp_ret.
Qed.

Lemma wp_list_prev p q h (Q : ptr -> store -> Prop) : prv h p = Some q -> Q q h -> wp (list_prev p) Q h.
Proof.
  intros E H. unfold list_prev. kstep. unfold prv in E. destruct (h !! p) eqn:Ep; [|done].
  injection E as <-. apply wp_load; [eauto|]. intros ent Hent. rewrite Ep in Hent.
  injection Hent as <-. by apply wp_ret.
Qed.

Lemma wp_list_empty p q h (Q : bool -> store -> Prop) :
  nxt h p = Some q -> Q (bool_decide (q = p)) h -> wp (list_empty p) Q h.
Proof.
  intros E H. unfold list_empty. kstep. unfold nxt in E. destruct (h !! p) eqn:Ep; [|done].
  injection E as <-. apply wp_load; [eauto|]. intros ent Hent. rewrite Ep in Hent.
  injection Hent as <-. by apply wp_ret.
Qed.

(** [list_add] after the last entry of a prefix [l1] of a list
    (or after the head, when [l1] is empty) and [list_add_before] before the
    first entry of the rest (or before the head, when the rest is empty) both
    insert the new entry exactly there, and write no entry outside the list. *)
Theorem list_insert_spec h head l1 l2 e :
  dlist h head (l1 ++ l2) -> is_Some (h !! e) -> e ∉ head :: l1 ++ l2 ->
  wp (list_add (List.last l1 head) e)
     (fun _ h' => dlist h' head (l1 ++ e :: l2) /\ untouched h h' (e :: head :: l1 ++ l2)) h /\
  wp (list_add_before (hd head l2) e)
     (fun _ h' => dlist h' head (l1 ++ e :: l2) /\ untouched h h' (e :: head :: l1 ++ l2)) h.
Proof.
  intros Hd He Hni. split.
  - eapply wp_list_add_at; [done..|]. intros h' _ ??. done.
  - eapply wp_list_add_before_at; [done..|]. intros h' _ ??. done.
Qed.

Lemma wp_list_del h head l1 x l2 (Q : () -> store -> Prop) :
  dlist h head (l1 ++ x :: l2) ->
  (forall h', same_cells h h' -> untouched h h' (head :: l1 ++ l2) ->
              dlist h' head (l1 ++ l2) -> Q () h') ->
  wp (list_del x) Q h.
Proof.
  intros Hd HQ. apply (ring_rotate _ (head :: l1) (x :: l2)) in Hd.
  apply (wp_list_del_ring _ (l2 ++ head :: l1)); [done|by destruct l2|].
  intros h' S Hf Hr. apply HQ; [done|..].
  - eapply untouched_subseteq; [exact Hf|set_solver+].
  - by apply (ring_rotate _ l2 (head :: l1)).
Qed.

Lemma wp_list_init e h (Q : () -> store -> Prop) :
  is_Some (h !! e) ->
  (forall h', same_cells h h' -> untouched h h' [e] -> dlist h' e [] -> Q () h') ->
  wp (list_init e) Q h.
Proof.
  intros He HQ. unfold list_init.
  kstep. apply wp_set_next; [done|]. intros h1 S1 N1 P1.
  apply wp_set_prev; [by apply S1|]. intros h2 S2 N2 P2. apply HQ.
  - intros q. by rewrite (S2 q), (S1 q).
  - intros q Hq%not_elem_of_cons. rewrite N2, P2, N1, P1, !decide_False; tauto.
  - split; [apply NoDup_singleton|]. cbn. by rewrite N2, P2, N1, !decide_True.
Qed.

(** [list_del_init] takes the entry out of its list and leaves it
    as an empty list of its own, whatever its place; every other entry of the
    store keeps its fields. *)
Theorem list_del_init_spec h head l1 x l2 :
  dlist h head (l1 ++ x :: l2) ->
  wp (list_del_init x)
     (fun _ h' => dlist h' head (l1 ++ l2) /\ dlist h' x [] /\
                  untouched h h' (x :: head :: l1 ++ l2)) h.
Proof.
  intros Hd. assert (Hx : is_Some (h !! x)) by (eapply ring_alloc; [done|set_solver+]).
  unfold list_del_init. kstep. eapply wp_list_del; [done|]. intros h1 S1 F1 D1.
  apply wp_list_init; [by apply S1|]. intros h2 S2 F2 D2. split_and!; [|done|].
  - assert (x ∉ head :: l1 ++ l2) as Hni.
    { destruct Hd as [Hnd _]. rewrite <-(Permutation_middle l1 l2 x), (Permutation_swap x head) in Hnd.
      by apply NoDup_cons in Hnd as [? _]. }
    destruct D1 as [Hnd Hl]. split; [done|].
    eapply linked_ext; [done|..]; intros q Hq; apply F2; set_solver +Hq Hni.
  - intros q Hq. destruct (F1 q) as [<- <-]; [set_solver +Hq|]. apply F2. set_solver +Hq.
Qed.

(** The traversal loop of the kernel visits the entries of the
    list once each, in order, and ends at the head; [list_empty] tells whether
    there is none. *)
Theorem list_walk_spec h head l fuel :
  dlist h head l -> (length l < fuel)%nat ->
  list_walk fuel head head h = Done (l, h) /\
  list_empty head h = Done (bool_decide (l = []), h).
Proof.
  intros [Hnd Hl] Hf. split.
  - assert (G : forall a l, linked h a l head -> head ∉ l -> (length l < fuel)%nat ->
                list_walk fuel head a h = Done (l, h)).
    { clear. induction fuel as [|fuel IH]; intros a l Hl Hni Hf; [lia|].
      pose proof (linked_nxt _ _ _ _ Hl) as Hn. unfold nxt in Hn.
      destruct (h !! a) as [ent|] eqn:E; [|done]. cbn in Hn. injection Hn as Hn.
      cbn [list_walk]. unfold list_next, load, unwrap, mbind, K_bind. rewrite E. cbn. rewrite Hn.
      destruct l as [|b l]; cbn [hd].
      - by rewrite bool_decide_true.
      - apply not_elem_of_cons in Hni as [Hb Hni]. rewrite bool_decide_false by done.
        destruct Hl as (_&_&Hl). rewrite (IH b l); [done|done|done|cbn in Hf; lia]. }
    apply G; [done| |done]. by apply NoDup_cons in Hnd as [? _].
  - pose proof (linked_nxt _ _ _ _ Hl) as Hn. unfold nxt in Hn.
    destruct (h !! head) as [ent|] eqn:E; [|done]. cbn in Hn. injection Hn as Hn.
    unfold list_empty, load, unwrap, mbind, K_bind. rewrite E. cbn. rewrite Hn.
    unfold mret, K_ret. do 2 f_equal. apply bool_decide_ext. destruct l as [|b l]; cbn; [done|].
    apply NoDup_cons in Hnd as [Hni _]. split; [|done]. intros ->. set_solver +Hni.
Qed.

(** ** Witnesses: a list of two entries, and one entry on its own. *)

Definition ex_store : store :=
  <[10 := mk_entry 30 20]> (<[20 := mk_entry 10 30]> (<[30 := mk_entry 20 10]>
  {[ 40 := mk_entry 40 40 ]})).

Lemma ex_dlist : dlist ex_store 10 [20; 30].
Proof. split; [apply (bool_decide_unpack _); vm_compute; exact I|]. cbn. done. Qed.

Lemma list_insert_spec_witness :
  wp (list_add 20 40) (fun _ h' => dlist h' 10 [20; 40; 30] /\ untouched ex_store h' [40; 10; 20; 30]) ex_store /\
  wp (list_add_before 30 40) (fun _ h' => dlist h' 10 [20; 40; 30] /\ untouched ex_store h' [40; 10; 20; 30]) ex_store.
Proof.
  refine (list_insert_spec ex_store 10 [20] [30] 40 ex_dlist _ _).
  - eexists; reflexivity.
  - apply (bool_decide_unpack _). vm_compute. exact I.
Defined.

Lemma list_del_init_spec_witness :
  wp (list_del_init 20)
    (fun _ h' => dlist h' 10 [30] /\ dlist h' 20 [] /\ untouched ex_store h' [20; 10; 30]) ex_store.
Proof. exact (list_del_init_spec ex_store 10 [] 20 [30] ex_dlist). Defined.

Lemma list_walk_spec_witness :
  list_walk 3 10 10 ex_store = Done ([20; 30], ex_store) /\
  list_empty 10 ex_store = Done (false, ex_store).
Proof. refine (list_walk_spec ex_store 10 [20; 30] 3 ex_dlist _). cbn. lia. Defined.
