(* ===== verification/SkewHeap.v ===== *)
(** libs/skew_heap.h: the skew heap behind the stride scheduler, at the level
    of the entries and their three pointers.  [rep h t par] says that the
    entries of the store [h] spell the binary tree [t], whose root has parent
    [par]; the theorems show that the pointer code computes the merge of trees,
    that it keeps the heap order of the comparison function it is given, and
    that its recursion is bounded by the number of entries. *)
From S2P Require Import Prelude.

(** ** Data *)

Abbreviation ptr := Z.
Definition NULL : ptr := 0.

Record skew_heap_entry := mk_she { parent : ptr; left : ptr; right : ptr }.
Abbreviation store := (gmap ptr skew_heap_entry).

(** [compare_f] returns -1, 0 or 1. *)
Definition compare_f := ptr -> ptr -> Z.

Definition load (p : ptr) : K store skew_heap_entry := fun h => unwrap (h !! p) h.
Definition set_parent (p v : ptr) : K store () :=
  e ← load p; modify (fun h => <[p := mk_she v (left e) (right e)]> h).
Definition set_left (p v : ptr) : K store () :=
  e ← load p; modify (fun h => <[p := mk_she (parent e) v (right e)]> h).
Definition set_right (p v : ptr) : K store () :=
  e ← load p; modify (fun h => <[p := mk_she (parent e) (left e) v]> h).

(** ** Operations *)

Definition skew_heap_init (a : ptr) : K store () :=
  set_parent a NULL;; set_right a NULL;; set_left a NULL.

Fixpoint skew_heap_merge (fuel : nat) (a b : ptr) (comp : compare_f) : K store ptr :=
  match fuel with
  | O => timeout
  | S fuel =>
      if bool_decide (a = NULL) then mret b
      else if bool_decide (b = NULL) then mret a
      else if bool_decide (comp a b = -1) then
        ea ← load a;
        let r := left ea in
        l ← skew_heap_merge fuel (right ea) b comp;
        set_left a l;;
        set_right a r;;
        when (bool_decide (l <> NULL)) (set_parent l a);;
        mret a
      else
        eb ← load b;
        let r := left eb in
        l ← skew_heap_merge fuel a (right eb) comp;
        set_left b l;;
        set_right b r;;
        when (bool_decide (l <> NULL)) (set_parent l b);;
        mret b
  end.

(** The recursion goes down one entry at a time; every entry is in the store. *)
Definition merge_fuel (h : store) : nat := S (size h).

Definition skew_heap_insert (a b : ptr) (comp : compare_f) : K store ptr :=
  skew_heap_init b;;
  n ← gets merge_fuel;
  skew_heap_merge n a b comp.

Definition skew_heap_remove (a b : ptr) (comp : compare_f) : K store ptr :=
  eb ← load b;
  let p := parent eb in
  n ← gets merge_fuel;
  rep ← skew_heap_merge n (left eb) (right eb) comp;
  when (bool_decide (rep <> NULL)) (set_parent rep p);;
  if bool_decide (p <> NULL) then
    ep ← load p;
    (if bool_decide (left ep = b) then set_left p rep else set_right p rep);;
    mret a
  else mret rep.

(** ** Trees *)

Inductive tree := Leaf | Node (l : tree) (p : ptr) (r : tree).

Fixpoint elems (t : tree) : list ptr :=
  match t with Leaf => [] | Node l p r => p :: elems l ++ elems r end.
Definition root (t : tree) : ptr := match t with Leaf => NULL | Node _ p _ => p end.

(** The merge of two trees, as libs/skew_heap.h describes it. *)
Fixpoint tmerge (comp : compare_f) (t1 : tree) : tree -> tree :=
  fix go (t2 : tree) : tree :=
    match t1, t2 with
    | Leaf, _ => t2
    | _, Leaf => t1
    | Node l1 a r1, Node l2 b r2 =>
        if bool_decide (comp a b = -1) then Node (tmerge comp r1 t2) a l1
        else Node (go r2) b l2
    end.

(** The tree without the entry [b]: its two subtrees take its place. *)
Fixpoint tremove (comp : compare_f) (b : ptr) (t : tree) : tree :=
  match t with
  | Leaf => Leaf
  | Node l p r =>
      if bool_decide (p = b) then tmerge comp l r
      else Node (tremove comp b l) p (tremove comp b r)
  end.

Fixpoint rep (h : store) (t : tree) (par : ptr) : Prop :=
  match t with
  | Leaf => True
  | Node l p r =>
      p <> NULL /\ h !! p = Some (mk_she par (root l) (root r)) /\ rep h l p /\ rep h r p
  end.

Lemma tmerge_leaf_r comp t : tmerge comp t Leaf = t.
Proof. by destruct t. Qed.

Lemma tmerge_node comp l1 a r1 l2 b r2 :
  tmerge comp (Node l1 a r1) (Node l2 b r2) =
  if bool_decide (comp a b = -1) then Node (tmerge comp r1 (Node l2 b r2)) a l1
  else Node (tmerge comp (Node l1 a r1) r2) b l2.
Proof. done. Qed.

Lemma tmerge_elems comp t1 t2 : elems (tmerge comp t1 t2) ≡ₚ elems t1 ++ elems t2.
Proof.
  revert t2. induction t1 as [|l1 _ a r1 IH1]; intros t2; [by destruct t2|].
  induction t2 as [|l2 _ b r2 IH2]; [by rewrite app_nil_r|].
  rewrite tmerge_node. case_bool_decide; cbn [elems].
  - rewrite IH1. cbn. solve_Permutation.
  - rewrite IH2. cbn. solve_Permutation.
Qed.

(** ** Heap order *)

(** [b] may stand below [a]: the comparison does not put it strictly before. *)
Definition below (comp : compare_f) (a b : ptr) : Prop := comp b a <> -1.

Fixpoint heap_ordered (comp : compare_f) (t : tree) : Prop :=
  match t with
  | Leaf => True
  | Node l p r =>
      Forall (below comp p) (elems l ++ elems r) /\ heap_ordered comp l /\ heap_ordered comp r
  end.

(** What the heap needs of the comparison, on the entries it holds. *)
Definition weak_order (comp : compare_f) (s : list ptr) : Prop :=
  (forall x y, x ∈ s -> y ∈ s -> comp x y = -1 -> comp y x <> -1) /\
  (forall x y z, x ∈ s -> y ∈ s -> z ∈ s ->
     below comp x y -> below comp y z -> below comp x z).

Lemma weak_order_mono comp s s' : weak_order comp s -> s' ⊆ s -> weak_order comp s'.
Proof. intros [H1 H2] Hs. split; intros *; [|intros ???]; eauto. Qed.

Lemma tmerge_ordered comp t1 t2 :
  weak_order comp (elems t1 ++ elems t2) ->
  heap_ordered comp t1 -> heap_ordered comp t2 -> heap_ordered comp (tmerge comp t1 t2).
Proof.
  revert t2. induction t1 as [|l1 _ a r1 IH1]; intros t2; [by destruct t2|].
  induction t2 as [|l2 _ b r2 IH2]; [done|]. intros Hw H1 H2.
  pose proof H1 as (F1&Hl1&Hr1). pose proof H2 as (F2&Hl2&Hr2).
  destruct Hw as [Has Htr]. rewrite Forall_forall in F1, F2.
  rewrite tmerge_node. case_bool_decide as Hc; cbn [heap_ordered].
  - assert (below comp a b) as Hab by (apply Has; [set_solver +..|done]).
    split_and!; [|apply IH1; [|done|done]|done].
    + rewrite tmerge_elems, !Forall_forall. intros y Hy.
      assert (y = b \/ y ∈ elems l2 ++ elems r2 \/ y ∈ elems l1 ++ elems r1) as [->|[Hy'|Hy']]
        by (cbn in Hy; set_solver +Hy); [done| |by apply F1].
      apply (Htr a b y); [set_solver +Hy'..|done|by apply F2].
    + apply (weak_order_mono _ _ _ (conj Has Htr)). set_solver +.
  - assert (below comp b a) as Hba by done.
    split_and!; [|apply IH2; [|done|done]|done].
    + rewrite tmerge_elems, !Forall_forall. intros y Hy.
      assert (y = a \/ y ∈ elems l1 ++ elems r1 \/ y ∈ elems l2 ++ elems r2) as [->|[Hy'|Hy']]
        by (cbn in Hy; set_solver +Hy); [done| |by apply F2].
      apply (Htr b a y); [set_solver +Hy'..|done|by apply F1].
    + apply (weak_order_mono _ _ _ (conj Has Htr)). set_solver +.
Qed.

(** The root of an ordered heap is a least element. *)
Lemma heap_ordered_min comp t x :
  weak_order comp (elems t) -> heap_ordered comp t -> x ∈ elems t -> below comp (root t) x.
Proof.
  destruct t as [|l p r]; cbn; [set_solver|]. intros [Has _] [F _] Hx.
  rewrite Forall_forall in F. apply elem_of_cons in Hx as [->|Hx]; [|by apply F].
  intros Hc. apply (Has p p); [set_solver +..|done|done].
Qed.

Lemma tremove_notin comp b t : b ∉ elems t -> tremove comp b t = t.
Proof.
  induction t as [|l IHl p r IHr]; cbn; [done|]. intros Hb.
  rewrite bool_decide_false by set_solver +Hb.
  rewrite IHl, IHr; [done|set_solver +Hb..].
Qed.

Lemma tremove_elems comp b t :
  NoDup (elems t) -> b ∈ elems t -> b :: elems (tremove comp b t) ≡ₚ elems t.
Proof.
  induction t as [|l IHl p r IHr]; cbn; [set_solver|]. intros Hnd Hb.
  apply NoDup_cons in Hnd as [Hp (Hl&Hd&Hr)%NoDup_app].
  case_bool_decide as E; [subst; by rewrite tmerge_elems|].
  cbn. apply elem_of_cons in Hb as [->|[Hb|Hb]%elem_of_app]; [done|..].
  - assert (Hbr : b ∉ elems r) by (set_solver +Hb Hd).
    rewrite (tremove_notin _ _ r) by done.
    rewrite <-(IHl Hl Hb). cbn. solve_Permutation.
  - assert (Hbl : b ∉ elems l) by (set_solver +Hb Hd).
    rewrite (tremove_notin _ _ l) by done.
    rewrite <-(IHr Hr Hb). cbn. solve_Permutation.
Qed.

Lemma tremove_subseteq comp b t : elems (tremove comp b t) ⊆ elems t.
Proof.
  induction t as [|l IHl p r IHr]; cbn; [done|].
  case_bool_decide; [rewrite tmerge_elems; set_solver +|cbn; set_solver +IHl IHr].
Qed.

Lemma tremove_ordered comp b t :
  weak_order comp (elems t) -> heap_ordered comp t -> heap_ordered comp (tremove comp b t).
Proof.
  induction t as [|l IHl p r IHr]; cbn; [done|]. intros Hw (F&Hl&Hr).
  case_bool_decide.
  - apply tmerge_ordered; [|done..]. eapply weak_order_mono; [done|]. set_solver +.
  - cbn. split_and!.
    + rewrite Forall_forall in *. intros x Hx. apply F.
      pose proof (tremove_subseteq comp b l). pose proof (tremove_subseteq comp b r).
      set_solver +Hx H0 H1.
    + apply IHl; [|done]. eapply weak_order_mono; [done|]. set_solver +.
    + apply IHr; [|done]. eapply weak_order_mono; [done|]. set_solver +.
Qed.

(** ** The pointer code computes the tree operations *)

Section effects.
Implicit Types (h : store) (ent : skew_heap_entry).

Lemma wp_she_load p ent h (Q : skew_heap_entry -> store -> Prop) :
  h !! p = Some ent -> Q ent h -> wp (load p) Q h.
Proof. intros Hp HQ. unfold wp, load, unwrap. by rewrite Hp. Qed.
Lemma wp_set_left p v ent h (Q : () -> store -> Prop) :
  h !! p = Some ent -> Q () (<[p := mk_she (parent ent) v (right ent)]> h) ->
  wp (set_left p v) Q h.
Proof. intros. unfold set_left. kstep. by eapply wp_she_load. Qed.
Lemma wp_set_right p v ent h (Q : () -> store -> Prop) :
  h !! p = Some ent -> Q () (<[p := mk_she (parent ent) (left ent) v]> h) ->
  wp (set_right p v) Q h.
Proof. intros. unfold set_right. kstep. by eapply wp_she_load. Qed.
Lemma wp_set_parent p v ent h (Q : () -> store -> Prop) :
  h !! p = Some ent -> Q () (<[p := mk_she v (left ent) (right ent)]> h) ->
  wp (set_parent p v) Q h.
Proof. intros. unfold set_parent. kstep. by eapply wp_she_load. Qed.

Lemma rep_ext h h' t par :
  rep h t par -> (forall q, q ∈ elems t -> h' !! q = h !! q) -> rep h' t par.
Proof.
  revert par. induction t as [|l IHl p r IHr]; cbn; [done|]. intros par (Hp&Hpe&Hl&Hr) He.
  rewrite He by set_solver +. split_and!; [done|done|apply IHl|apply IHr]; try done;
    intros q Hq; apply He; set_solver +Hq.
Qed.

Lemma rep_root_NULL h t par : rep h t par -> root t = NULL <-> t = Leaf.
Proof. destruct t; cbn; naive_solver. Qed.

Lemma rep_alloc h t par q : rep h t par -> q ∈ elems t -> is_Some (h !! q).
Proof.
  revert par. induction t as [|l IHl p r IHr]; cbn; intros par; [set_solver +|].
  intros (_&Hp&Hl&Hr) [->|[Hq|Hq]%elem_of_app]%elem_of_cons; eauto.
Qed.

(** The step both branches of the merge share: [l] becomes the left subtree
    of [a], the former left subtree its right one. *)
Lemma wp_merge_tail a par la ra l r h (Q : ptr -> store -> Prop) lpar :
  a <> NULL -> h !! a = Some (mk_she par la ra) ->
  rep h l lpar -> rep h r a -> NoDup (a :: elems l ++ elems r) ->
  (forall h', rep h' (Node l a r) par ->
     (forall q, q ∉ a :: elems l ++ elems r -> h' !! q = h !! q) -> Q a h') ->
  wp (set_left a (root l);; set_right a (root r);;
      when (bool_decide (root l <> NULL)) (set_parent (root l) a);; mret a) Q h.
Proof.
  intros Ha Hae Hl Hr Hnd HQ. apply NoDup_cons in Hnd as [Hni (Hnl&Hd&_)%NoDup_app].
  kstep. eapply wp_set_left; [done|]. cbn.
  kstep. eapply wp_set_right; [apply lookup_insert_eq|]. cbn. rewrite insert_insert_eq.
  kstep. destruct l as [|l1 p r1]; cbn [root].
  - apply wp_when; [by case_bool_decide|]. intros _. apply wp_ret. apply HQ.
    + cbn. rewrite lookup_insert_eq. split_and!; [done..|].
      eapply rep_ext; [done|]. intros q Hq. rewrite lookup_insert_ne; [done|]. set_solver +Hni Hq.
    + intros q Hq. rewrite lookup_insert_ne; [done|]. set_solver +Hq.
  - cbn in Hl. destruct Hl as (Hp&Hpe&Hl1&Hr1).
    assert (a <> p) by set_solver +Hni. apply NoDup_cons in Hnl as [Hnp _].
    apply wp_when; [intros _|by rewrite bool_decide_true].
    eapply wp_set_parent; [rewrite lookup_insert_ne; done|]. cbn. apply HQ.
    + cbn. rewrite lookup_insert_ne, !lookup_insert_eq by done. split_and!; try done.
      * eapply rep_ext; [done|]. intros q Hq. rewrite !lookup_insert_ne; [done|..].
        { set_solver +Hni Hq. } { set_solver +Hnp Hq. }
      * eapply rep_ext; [done|]. intros q Hq. rewrite !lookup_insert_ne; [done|..].
        { set_solver +Hni Hq. } { set_solver +Hnp Hq. }
      * eapply rep_ext; [done|]. intros q Hq. rewrite !lookup_insert_ne; [done|..].
        { set_solver +Hni Hq. } { set_solver +Hd Hq. }
    + intros q Hq. rewrite !lookup_insert_ne; [done|set_solver +Hq..].
Qed.

(** [if (rep) rep->parent = p] *)
Lemma wp_reparent p t par h (Q : () -> store -> Prop) :
  rep h t par -> NoDup (elems t) ->
  (forall h', rep h' t p -> (forall q, q ∉ elems t -> h' !! q = h !! q) -> Q () h') ->
  wp (when (bool_decide (root t <> NULL)) (set_parent (root t) p)) Q h.
Proof.
  intros Hr Hnd HQ. destruct t as [|l q r]; cbn [root].
  { apply wp_when; [by case_bool_decide|]. intros _. by apply HQ. }
  destruct Hr as (Hq&Hqe&Hl&Hr). apply NoDup_cons in Hnd as [Hni _].
  apply wp_when; [intros _|by rewrite bool_decide_true].
  eapply wp_set_parent; [done|]. cbn. apply HQ.
  - cbn. rewrite lookup_insert_eq. split_and!; [done|done|..]; (eapply rep_ext; [done|]);
      intros x Hx; apply lookup_insert_ne; set_solver +Hx Hni.
  - intros x Hx. apply lookup_insert_ne. set_solver +Hx.
Qed.

Lemma wp_skew_heap_merge comp fuel : forall t1 t2 p1 p2 h (Q : ptr -> store -> Prop),
  rep h t1 p1 -> rep h t2 p2 -> NoDup (elems t1 ++ elems t2) ->
  (length (elems t1 ++ elems t2) < fuel)%nat ->
  (forall h' par, par = p1 \/ par = p2 -> rep h' (tmerge comp t1 t2) par ->
     (forall q, q ∉ elems t1 ++ elems t2 -> h' !! q = h !! q) ->
     Q (root (tmerge comp t1 t2)) h') ->
  wp (skew_heap_merge fuel (root t1) (root t2) comp) Q h.
Proof.
  induction fuel as [|fuel IH]; intros t1 t2 p1 p2 h Q R1 R2 Hnd Hf HQ; [lia|].
  cbn [skew_heap_merge].
  destruct t1 as [|l1 a r1].
  { cbn [root]. rewrite bool_decide_true by done. apply wp_ret.
    replace (tmerge comp Leaf t2) with t2 in HQ by (by destruct t2). eauto. }
  destruct t2 as [|l2 b r2].
  { pose proof R1 as (Ha&_). cbn [root]. rewrite bool_decide_false, bool_decide_true by done.
    apply wp_ret. rewrite tmerge_leaf_r in HQ. eauto. }
  pose proof R1 as (Ha&Hea&Rl1&Rr1). pose proof R2 as (Hb&Heb&Rl2&Rr2).
  cbn [root]. rewrite !bool_decide_false by done.
  rewrite tmerge_node in HQ. case_bool_decide.
  - kstep. eapply wp_she_load; [done|]. cbn [left right]. kstep.
    change b with (root (Node l2 b r2)).
    eapply IH; [done|exact R2|..].
    { cbn in Hnd. apply NoDup_cons in Hnd as [_ Hnd]. rewrite <-app_assoc in Hnd.
      by apply NoDup_app in Hnd as (_&_&Hnd). }
    { cbn in Hf |- *. repeat rewrite length_app in Hf. repeat rewrite length_app. cbn in Hf |- *.
      repeat rewrite length_app in Hf. repeat rewrite length_app. lia. }
    intros h1 par _ R' F'. cbn in Hnd. rewrite NoDup_cons in Hnd. destruct Hnd as [Hna Hnd].
    rewrite <-app_assoc in Hnd. pose proof Hnd as (_&Hd&_)%NoDup_app.
    eapply (wp_merge_tail a p1 _ _ _ l1); [done| |done| |..].
    + rewrite F'; [done|]. cbn. set_solver +Hna.
    + eapply rep_ext; [done|]. intros q Hq. apply F'. cbn. set_solver +Hd Hq.
    + rewrite tmerge_elems. constructor; [cbn; set_solver +Hna|].
      by rewrite Permutation_app_comm.
    + intros h' R F. apply (HQ h' p1); [auto|done|]. intros q Hq. rewrite F, F'; [done|..].
      * cbn in Hq |- *. set_solver +Hq.
      * rewrite tmerge_elems. cbn in Hq |- *. set_solver +Hq.
  - kstep. eapply wp_she_load; [done|]. cbn [left right]. kstep.
    change a with (root (Node l1 a r1)).
    assert (Hnd' : NoDup (b :: elems l2 ++ (elems r2 ++ elems (Node l1 a r1)))).
    { rewrite app_assoc. change (b :: (elems l2 ++ elems r2) ++ elems (Node l1 a r1))
        with (elems (Node l2 b r2) ++ elems (Node l1 a r1)). by rewrite Permutation_app_comm. }
    apply NoDup_cons in Hnd' as [Hnb Hnd']. pose proof Hnd' as (_&Hd&Hnd'')%NoDup_app.
    eapply IH; [exact R1|done|by rewrite Permutation_app_comm|..].
    { cbn in Hf |- *. repeat rewrite length_app in Hf. repeat rewrite length_app. cbn in Hf |- *.
      repeat rewrite length_app in Hf. repeat rewrite length_app. lia. }
    intros h1 par _ R' F'.
    eapply (wp_merge_tail b p2 _ _ _ l2); [done| |done| |..].
    + rewrite F'; [done|]. cbn. cbn in Hnb. set_solver +Hnb.
    + eapply rep_ext; [done|]. intros q Hq. apply F'. cbn. cbn in Hd. set_solver +Hd Hq.
    + rewrite tmerge_elems. constructor; [set_solver +Hnb|].
      by rewrite (Permutation_app_comm _ (elems l2)), (Permutation_app_comm (elems (Node _ _ _))).
    + intros h' R F. apply (HQ h' p2); [auto|done|]. intros q Hq. rewrite F, F'; [done|..].
      * cbn in Hq |- *. set_solver +Hq.
      * rewrite tmerge_elems. cbn in Hq |- *. set_solver +Hq.
Qed.
End effects.

(** ** A tree seen from one of its entries *)

Inductive frame := FL (p : ptr) (r : tree) | FR (l : tree) (p : ptr).

Definition fill1 (f : frame) (s : tree) : tree :=
  match f with FL p r => Node s p r | FR l p => Node l p s end.
Definition frame_ptr (f : frame) : ptr := match f with FL p _ | FR _ p => p end.
Definition frame_sub (f : frame) : tree := match f with FL _ t | FR t _ => t end.

Fixpoint fill (C : list frame) (s : tree) : tree :=
  match C with [] => s | f :: C => fill C (fill1 f s) end.
Fixpoint ctx_elems (C : list frame) : list ptr :=
  match C with [] => [] | f :: C => frame_ptr f :: elems (frame_sub f) ++ ctx_elems C end.
Definition hole_parent (par : ptr) (C : list frame) : ptr :=
  match C with [] => par | f :: _ => frame_ptr f end.

Lemma fill_elems C s : elems (fill C s) ≡ₚ ctx_elems C ++ elems s.
Proof.
  revert s. induction C as [|f C IH]; intros s; cbn; [done|].
  rewrite IH. destruct f; cbn; solve_Permutation.
Qed.

Lemma fill_find t b : b ∈ elems t -> exists C lb rb, t = fill C (Node lb b rb).
Proof.
  assert (G : forall C t, b ∈ elems t -> exists C' lb rb, fill C t = fill C' (Node lb b rb)).
  { intros C t'. revert C. induction t' as [|l IHl p r IHr]; intros C; cbn; [set_solver +|].
    intros [->|[Hl|Hr]%elem_of_app]%elem_of_cons; [by exists C, l, r|..].
    - by apply (IHl (FL p r :: C)).
    - by apply (IHr (FR l p :: C)). }
  apply (G []).
Qed.

Lemma tremove_fill comp b C lb rb :
  NoDup (elems (fill C (Node lb b rb))) ->
  tremove comp b (fill C (Node lb b rb)) = fill C (tmerge comp lb rb).
Proof.
  assert (G : forall s s', b ∈ elems s -> NoDup (elems (fill C s)) -> tremove comp b s = s' ->
            tremove comp b (fill C s) = fill C s').
  { induction C as [|f C IH]; intros s s' Hb Hnd Hs; cbn in *; [done|].
    apply IH; [destruct f; set_solver +Hb|done|].
    rewrite fill_elems in Hnd. apply NoDup_app in Hnd as (_&_&Hnd).
    destruct f as [p r|l p]; cbn in *; apply NoDup_cons in Hnd as [Hp (?&Hd&?)%NoDup_app];
      rewrite bool_decide_false by set_solver +Hb Hp; rewrite Hs; f_equal;
      apply tremove_notin; set_solver +Hb Hd. }
  intros Hnd. apply G; [set_solver +|done|]. cbn. by rewrite bool_decide_true.
Qed.

Lemma root_fill_node C l l' p r r' : root (fill C (Node l p r)) = root (fill C (Node l' p r')).
Proof.
  revert l l' p r r'. induction C as [|f C IH]; intros *; cbn; [done|]. destruct f; apply IH.
Qed.

Lemma root_fill_top f C s s' : root (fill (f :: C) s) = root (fill (f :: C) s').
Proof. destruct f; apply root_fill_node. Qed.

Lemma rep_fill h C s par : rep h (fill C s) par -> rep h s (hole_parent par C).
Proof.
  revert s. induction C as [|f C IH]; intros s; cbn; [done|].
  intros Hr%IH. destruct f; cbn in Hr; naive_solver.
Qed.

Lemma rep_fill_change h h' C s s' par :
  rep h (fill C s) par -> rep h' s' (hole_parent par C) -> root s' = root s ->
  (forall q, q ∈ ctx_elems C -> h' !! q = h !! q) -> rep h' (fill C s') par.
Proof.
  revert s s'. induction C as [|f C IH]; intros s s' Hr Hr' E F; cbn in *; [done|].
  pose proof (rep_fill _ _ _ _ Hr) as Hf.
  apply (IH (fill1 f s)); [done| |by destruct f|intros q Hq; apply F; set_solver +Hq].
  destruct f as [p r|l p]; cbn in *; destruct Hf as (?&?&?&?); rewrite F, E by set_solver +;
    split_and!; try done; (eapply rep_ext; [done|]); intros q Hq; apply F; set_solver +Hq.
Qed.

(** ** The operations on a heap *)

(** The insertion, without the order. *)
Lemma wp_skew_heap_insert comp h t b (Q : ptr -> store -> Prop) :
  rep h t NULL -> NoDup (b :: elems t) -> b <> NULL -> is_Some (h !! b) ->
  (forall h', let t' := tmerge comp t (Node Leaf b Leaf) in
     rep h' t' NULL -> elems t' ≡ₚ b :: elems t ->
     (forall q, q ∉ b :: elems t -> h' !! q = h !! q) -> Q (root t') h') ->
  wp (skew_heap_insert (root t) b comp) Q h.
Proof.
  cbv zeta. intros Hr [Hb Hnd]%NoDup_cons HN [eb Heb] HQ. unfold skew_heap_insert, skew_heap_init.
  kstep. kstep. eapply wp_set_parent; [done|]. kstep.
  eapply wp_set_right; [apply lookup_insert_eq|]. eapply wp_set_left; [apply lookup_insert_eq|].
  rewrite !insert_insert_eq. cbn. ksteps.
  assert (Hperm : elems t ++ elems (Node Leaf b Leaf) ≡ₚ b :: elems t) by (cbn; solve_Permutation).
  set (h1 := <[b:=_]> h).
  assert (Hr1 : rep h1 t NULL).
  { eapply rep_ext; [exact Hr|]. intros q Hq. apply lookup_insert_ne. set_solver +Hb Hq. }
  assert (Hr2 : rep h1 (Node Leaf b Leaf) NULL) by (unfold h1; cbn; rewrite lookup_insert_eq; naive_solver).
  change b with (root (Node Leaf b Leaf)) at 1.
  eapply wp_skew_heap_merge; [done|done|..].
  - rewrite Hperm. by constructor.
  - unfold merge_fuel. apply Nat.lt_succ_r, alloc_size; [rewrite Hperm; by constructor|].
    intros q [Hq|Hq]%elem_of_app; [by eapply rep_alloc in Hr1|by eapply rep_alloc in Hr2].
  - intros h' par Hpar R F. apply HQ; [by destruct Hpar as [->| ->]|by rewrite tmerge_elems|].
    intros q Hq. rewrite F by (by rewrite Hperm). apply lookup_insert_ne. set_solver +Hq.
Qed.

(** The pointer of the removed entry's parent now leads to [tb]. *)
Lemma wp_replace_child h h2 f C lb b rb tb (Q : () -> store -> Prop) :
  rep h (fill (f :: C) (Node lb b rb)) NULL -> NoDup (elems (fill (f :: C) (Node lb b rb))) ->
  rep h2 tb (frame_ptr f) -> elems tb ⊆ elems lb ++ elems rb ->
  (forall q, q ∉ elems lb ++ elems rb -> h2 !! q = h !! q) ->
  (forall h3, rep h3 (fill (f :: C) tb) NULL ->
     (forall q, q ∉ elems (fill (f :: C) (Node lb b rb)) \/ q = b -> h3 !! q = h !! q) -> Q () h3) ->
  wp (ep ← load (frame_ptr f);
      if bool_decide (left ep = b) then set_left (frame_ptr f) (root tb)
      else set_right (frame_ptr f) (root tb)) Q h2.
Proof.
  intros Hr Hnd R2 Htb F HQ. rewrite fill_elems in Hnd.
  apply NoDup_app in Hnd as (HndC&HdC&[Hbs Hnds]%NoDup_cons).
  pose proof (rep_fill _ (f :: C) _ _ Hr) as (HbN&_).
  cbn [fill] in Hr. pose proof (rep_fill _ _ _ _ Hr) as Hf.
  assert (Hp : frame_ptr f ∉ elems lb ++ elems rb) by (cbn in HdC; set_solver +HdC).
  assert (Hpf : frame_ptr f ∉ elems tb) by (set_solver +Hp Htb).
  assert (Hsub : forall q, q ∈ elems (frame_sub f) -> q ∉ b :: elems lb ++ elems rb)
    by (intros q Hq; apply HdC; cbn; set_solver +Hq).
  cbn in HndC. apply NoDup_cons in HndC as [Hpc HndC].
  assert (Hfin : forall h3, rep h3 (fill1 f tb) (hole_parent NULL C) ->
     (forall q, q <> frame_ptr f -> h3 !! q = h2 !! q) -> Q () h3).
  { intros h3 R3 F3. apply HQ.
    - cbn [fill]. eapply rep_fill_change; [exact Hr|done|by destruct f|].
      intros q Hq. rewrite F3 by set_solver +Hq Hpc. apply F.
      assert (q ∉ b :: elems lb ++ elems rb) by (apply HdC; cbn; set_solver +Hq). set_solver +H.
    - intros q [Hq| ->].
      + rewrite fill_elems in Hq. cbn in Hq. rewrite F3 by set_solver +Hq. apply F. set_solver +Hq.
      + rewrite F3; [by apply F|]. intros ->. apply (HdC (frame_ptr f)); cbn; set_solver +. }
  assert (Hfs : forall h3, (forall q, q <> frame_ptr f -> h3 !! q = h2 !! q) ->
     rep h (frame_sub f) (frame_ptr f) -> rep h3 (frame_sub f) (frame_ptr f) /\ rep h3 tb (frame_ptr f)).
  { intros h3 F3 Rs. split; (eapply rep_ext; [eassumption|]); intros q Hq.
    - rewrite F3 by set_solver +Hq Hpc. apply F. specialize (Hsub q Hq). set_solver +Hsub.
    - apply F3. set_solver +Hq Hpf. }
  kstep. destruct f as [p r|l p]; cbn in Hf, Hp, Hsub, Hfin, Hfs |- *; destruct Hf as (HpN&Hpe&Hf1&Hf2);
    (eapply wp_she_load; [rewrite (F _ Hp); exact Hpe|]); cbn [left].
  - rewrite bool_decide_true by done. eapply wp_set_left; [rewrite (F _ Hp); exact Hpe|].
    destruct (Hfs (<[p := mk_she (hole_parent NULL C) (root tb) (root r)]> h2)) as [Ha Hc];
      [intros; by apply lookup_insert_ne|done|].
    apply Hfin; [cbn; by rewrite lookup_insert_eq|intros; by apply lookup_insert_ne].
  - rewrite bool_decide_false.
    2:{ intros E. destruct l as [|l1 x l2]; cbn in E; [done|]. subst x.
        apply (Hsub b); cbn; set_solver +. }
    eapply wp_set_right; [rewrite (F _ Hp); exact Hpe|].
    destruct (Hfs (<[p := mk_she (hole_parent NULL C) (root l) (root tb)]> h2)) as [Ha Hc];
      [intros; by apply lookup_insert_ne|done|].
    apply Hfin; [cbn; by rewrite lookup_insert_eq|intros; by apply lookup_insert_ne].
Qed.

(** The removal, without the order. *)
Lemma wp_skew_heap_remove comp h t b (Q : ptr -> store -> Prop) :
  rep h t NULL -> NoDup (elems t) -> b ∈ elems t ->
  (forall h', let t' := tremove comp b t in
     rep h' t' NULL -> b :: elems t' ≡ₚ elems t ->
     (forall q, q ∉ elems t \/ q = b -> h' !! q = h !! q) -> Q (root t') h') ->
  wp (skew_heap_remove (root t) b comp) Q h.
Proof.
  cbv zeta. intros Hr Hnd Hb HQ.
  pose proof (tremove_elems comp b t Hnd Hb) as Hel.
  destruct (fill_find _ _ Hb) as (C&lb&rb&->). rewrite tremove_fill in * by done.
  set (tb := tmerge comp lb rb) in *.
  pose proof (rep_fill _ _ _ _ Hr) as (HbN&Heb&Rl&Rr).
  pose proof Hnd as Hnd'. rewrite fill_elems in Hnd'.
  apply NoDup_app in Hnd' as (HndC&HdC&[Hbs Hnds]%NoDup_cons).
  assert (Htb : elems tb ⊆ elems lb ++ elems rb) by (unfold tb; rewrite tmerge_elems; done).
  unfold skew_heap_remove. kstep. eapply wp_she_load; [done|]. cbn [parent left right].
  ksteps. eapply wp_skew_heap_merge; [exact Rl|exact Rr|done|..].
  { unfold merge_fuel. apply Nat.lt_succ_r, alloc_size; [done|].
    intros q [Hq|Hq]%elem_of_app; [by eapply rep_alloc in Rl|by eapply rep_alloc in Rr]. }
  fold tb. intros h1 par _ R1 F1.
  assert (Hndt : NoDup (elems tb)) by (unfold tb; by rewrite tmerge_elems).
  kstep. apply (wp_reparent _ tb par); [done|done|]. intros h2 R2 F2.
  assert (F : forall q, q ∉ elems lb ++ elems rb -> h2 !! q = h !! q).
  { intros q Hq. rewrite F2, F1; [done|done|]. set_solver +Htb Hq. }
  destruct C as [|f C]; cbn [hole_parent] in *.
  { rewrite bool_decide_false by tauto. apply wp_ret. apply HQ; [done|done|].
    intros q [Hq| ->]; apply F; [|done]. cbn in Hq. set_solver +Hq. }
  rewrite bool_decide_true.
  2:{ cbn [fill] in Hr. pose proof (rep_fill _ _ _ _ Hr) as Hf. destruct f; cbn in Hf; tauto. }
  apply (wp_assoc _ (fun ep => if bool_decide (left ep = b) then _ else _) (fun _ => mret _)).
  eapply wp_replace_child; [exact Hr|done|done|done|done|]. intros h3 R3 F3. apply wp_ret.
  rewrite (root_fill_top f C _ tb). by apply HQ.
Qed.

(** [skew_heap_insert] adds the entry to the heap: the result is a
    well-linked, ordered heap that holds the old entries and the new one, and
    its root is a least entry.  No other entry of the store is written. *)
Theorem skew_heap_insert_spec comp h t b :
  rep h t NULL -> NoDup (b :: elems t) -> b <> NULL -> is_Some (h !! b) ->
  weak_order comp (b :: elems t) -> heap_ordered comp t ->
  wp (skew_heap_insert (root t) b comp)
     (fun a h' => exists t', a = root t' /\ rep h' t' NULL /\ heap_ordered comp t' /\
        elems t' ≡ₚ b :: elems t /\ Forall (below comp a) (b :: elems t) /\
        forall q, q ∉ b :: elems t -> h' !! q = h !! q) h.
Proof.
  intros Hr Hnd HN Heb Hw Ho. apply wp_skew_heap_insert; [done..|]. cbv zeta. intros h' R Hel F.
  exists (tmerge comp t (Node Leaf b Leaf)).
  assert (Hw' : weak_order comp (elems (tmerge comp t (Node Leaf b Leaf))))
    by (eapply weak_order_mono; [done|]; by rewrite Hel).
  assert (Ho' : heap_ordered comp (tmerge comp t (Node Leaf b Leaf))).
  { apply tmerge_ordered; [|done|cbn; auto]. eapply weak_order_mono; [exact Hw'|].
    by rewrite tmerge_elems. }
  split_and!; [done..| |done]. rewrite Forall_forall. intros x Hx.
  apply heap_ordered_min; [done|done|]. by rewrite Hel.
Qed.

(** Property C31. [skew_heap_remove] takes any entry out of the heap, the root
    included: the result is a well-linked, ordered heap with the remaining
    entries, the one that [tremove] describes. *)
Theorem skew_heap_remove_spec comp h t b :
  rep h t NULL -> NoDup (elems t) -> b ∈ elems t ->
  weak_order comp (elems t) -> heap_ordered comp t ->
  wp (skew_heap_remove (root t) b comp)
     (fun a h' => let t' := tremove comp b t in
        a = root t' /\ rep h' t' NULL /\ heap_ordered comp t' /\
        b :: elems t' ≡ₚ elems t /\ forall q, q ∉ elems t -> h' !! q = h !! q) h.
Proof.
  intros Hr Hnd Hb Hw Ho. apply wp_skew_heap_remove; [done..|]. cbv zeta. intros h' R Hel F.
  split_and!; [done|done|by apply tremove_ordered|done|naive_solver].
Qed.

(** ** Witnesses: a heap of two entries ordered by address, and a third entry. *)

Definition ex_comp : compare_f := fun a b => if a <? b then -1 else if a =? b then 0 else 1.
Definition ex_heap : store :=
  <[2 := mk_she NULL 3 NULL]> (<[3 := mk_she 2 NULL NULL]> {[ 1 := mk_she 9 9 9 ]}).
Definition ex_tree : tree := Node (Node Leaf 3 Leaf) 2 Leaf.

Lemma ex_rep : rep ex_heap ex_tree NULL.
Proof. cbn. done. Qed.

Lemma ex_comp_order s : weak_order ex_comp s.
Proof.
  assert (E : forall x y, ex_comp x y = -1 <-> x < y).
  { intros x y. unfold ex_comp. destruct (Z.ltb_spec x y); [done|]. destruct (x =? y); lia. }
  split; [intros x y _ _; rewrite !E; lia|]. intros x y z _ _ _. unfold below. rewrite !E. lia.
Qed.

Lemma ex_ordered : heap_ordered ex_comp ex_tree.
Proof. split; [repeat constructor; discriminate|]. by repeat constructor. Qed.

Lemma skew_heap_insert_spec_witness :
  wp (skew_heap_insert 2 1 ex_comp)
     (fun a h' => exists t', a = root t' /\ rep h' t' NULL /\ heap_ordered ex_comp t' /\
        elems t' ≡ₚ [1; 2; 3] /\ Forall (below ex_comp a) [1; 2; 3] /\
        forall q, q ∉ [1; 2; 3] -> h' !! q = ex_heap !! q) ex_heap.
Proof.
  refine (skew_heap_insert_spec ex_comp ex_heap ex_tree 1 ex_rep _ _ _ (ex_comp_order _) ex_ordered).
  - apply (bool_decide_unpack _). vm_compute. exact I.
  - discriminate.
  - eexists; reflexivity.
Defined.

Lemma skew_heap_remove_spec_witness :
  wp (skew_heap_remove 2 2 ex_comp)
     (fun a h' => let t' := tremove ex_comp 2 ex_tree in
        a = root t' /\ rep h' t' NULL /\ heap_ordered ex_comp t' /\
        2 :: elems t' ≡ₚ [2; 3] /\ forall q, q ∉ [2; 3] -> h' !! q = ex_heap !! q) ex_heap.
Proof.
  refine (skew_heap_remove_spec ex_comp ex_heap ex_tree 2 ex_rep _ _ (ex_comp_order _) ex_ordered).
  - apply (bool_decide_unpack _). vm_compute. exact I.
  - apply elem_of_cons. left. reflexivity.
Defined.
