(* ===== verification/Sched.v ===== *)
(** kern/schedule/sched.c and sched.h: the scheduler core.  The scheduling
    policy is a [sched_class], a record of operations as in C; what the core
    relies on is stated once, by the class [SchedPolicy], and the files
    [RoundRobin] and [Stride] discharge it.  The run queue, the processes and
    the timers are one state; lists of entries are kept as Rocq lists (Dlist
    relates them to the pointer structure). *)
From S2P Require Import Prelude SkewHeap.

(** ** Data: kern/process/proc.h, kern/schedule/sched.h *)

Inductive proc_state := PROC_UNINIT | PROC_SLEEPING | PROC_RUNNABLE | PROC_ZOMBIE.
#[export] Instance proc_state_eq_dec : EqDecision proc_state.
Proof. solve_decision. Defined.

Definition WT_INTERRUPTED := 0x80000000.
Definition WT_CHILD := Z.lor 0x00000001 WT_INTERRUPTED.
Definition WT_KSEM := 0x00000100.
Definition WT_TIMER := Z.lor 0x00000002 WT_INTERRUPTED.
Definition WT_KBD := Z.lor 0x00000004 WT_INTERRUPTED.

Definition MAX_TIME_SLICE := 5.

(** The fields of [struct proc_struct] the scheduler uses.  [on_rq] says that
    [proc->rq] points to the run queue rather than being [NULL]. *)
Record proc := mk_proc {
  state : proc_state;
  wait_state : Z;
  need_resched : bool;
  runs : Z;
  on_rq : bool;
  time_slice : Z;
  lab6_stride : Z;
  lab6_priority : Z;
}.

Abbreviation pptr := Z.

Record run_queue := mk_rq {
  run_list : list pptr;
  proc_num : Z;
  max_time_slice : Z;
  lab6_run_pool : ptr;
}.

(** What a scheduling policy reads and writes.  [pool] holds the heap entries
    embedded in the processes, under the address of their process. *)
Record rqs := mk_rqs {
  procs : gmap pptr proc;
  pool : store;
  rq : run_queue;
}.

Definition set_procs (m : gmap pptr proc) (s : rqs) : rqs := mk_rqs m (pool s) (rq s).
Definition set_rq (q : run_queue) (s : rqs) : rqs := mk_rqs (procs s) (pool s) q.
Definition set_pool (h : store) (s : rqs) : rqs := mk_rqs (procs s) h (rq s).

Definition set_state (st : proc_state) (ws : Z) (p : proc) : proc :=
  mk_proc st ws (need_resched p) (runs p) (on_rq p) (time_slice p) (lab6_stride p) (lab6_priority p).
Definition set_need_resched (b : bool) (p : proc) : proc :=
  mk_proc (state p) (wait_state p) b (runs p) (on_rq p) (time_slice p) (lab6_stride p) (lab6_priority p).
Definition set_runs (r : Z) (p : proc) : proc :=
  mk_proc (state p) (wait_state p) (need_resched p) r (on_rq p) (time_slice p) (lab6_stride p) (lab6_priority p).
Definition set_on_rq (b : bool) (p : proc) : proc :=
  mk_proc (state p) (wait_state p) (need_resched p) (runs p) b (time_slice p) (lab6_stride p) (lab6_priority p).
Definition set_time_slice (t : Z) (p : proc) : proc :=
  mk_proc (state p) (wait_state p) (need_resched p) (runs p) (on_rq p) t (lab6_stride p) (lab6_priority p).
Definition set_lab6_stride (x : Z) (p : proc) : proc :=
  mk_proc (state p) (wait_state p) (need_resched p) (runs p) (on_rq p) (time_slice p) x (lab6_priority p).

(** Read and write through a process pointer. *)
Definition proc_at (p : pptr) : K rqs proc := fun s => unwrap (procs s !! p) s.
Definition proc_upd (p : pptr) (f : proc -> proc) : K rqs () :=
  x ← proc_at p; modify (fun s => set_procs (<[p := f x]> (procs s)) s).

Record sched_class := mk_class {
  sc_init : K rqs ();
  sc_enqueue : pptr -> K rqs ();
  sc_dequeue : pptr -> K rqs ();
  sc_pick_next : K rqs (option pptr);
  sc_proc_tick : pptr -> K rqs ();
}.

(** A timer waits in [timer_list]; [expires] counts from the timer before it. *)
Record timer_t := mk_timer { expires : Z; tproc : pptr }.
Abbreviation tptr := Z.

Record kstate := mk_kst {
  sch : rqs;
  current : pptr;
  idleproc : pptr;
  timers : gmap tptr timer_t;
  timer_list : list tptr;
}.

Definition set_sch (r : rqs) (s : kstate) : kstate :=
  mk_kst r (current s) (idleproc s) (timers s) (timer_list s).
Definition set_current (p : pptr) (s : kstate) : kstate :=
  mk_kst (sch s) p (idleproc s) (timers s) (timer_list s).
Definition set_timers (m : gmap tptr timer_t) (s : kstate) : kstate :=
  mk_kst (sch s) (current s) (idleproc s) m (timer_list s).
Definition set_timer_list (l : list tptr) (s : kstate) : kstate :=
  mk_kst (sch s) (current s) (idleproc s) (timers s) l.

Definition in_sch {A} (m : K rqs A) : K kstate A := zoom sch set_sch m.

(** ** Operations *)

Section core.
Context (sc : sched_class).

Definition sched_class_enqueue (p : pptr) : K kstate () :=
  s ← get; when (bool_decide (p <> idleproc s)) (in_sch (sc_enqueue sc p)).
Definition sched_class_dequeue (p : pptr) : K kstate () := in_sch (sc_dequeue sc p).
Definition sched_class_pick_next : K kstate (option pptr) := in_sch (sc_pick_next sc).
Definition sched_class_proc_tick (p : pptr) : K kstate () :=
  s ← get;
  if bool_decide (p <> idleproc s) then in_sch (sc_proc_tick sc p)
  else in_sch (proc_upd p (set_need_resched true)).

Definition sched_init : K kstate () :=
  modify (set_timer_list []);;
  modify (fun s => set_sch (set_rq (mk_rq (run_list (rq (sch s))) (proc_num (rq (sch s)))
                              MAX_TIME_SLICE (lab6_run_pool (rq (sch s)))) (sch s)) s);;
  in_sch (sc_init sc).

Definition wakeup_proc (p : pptr) : K kstate () :=
  x ← in_sch (proc_at p);
  assert (bool_decide (state x <> PROC_ZOMBIE));;
  when (bool_decide (state x <> PROC_RUNNABLE))
    (in_sch (proc_upd p (set_state PROC_RUNNABLE 0));;
     s ← get;
     when (bool_decide (p <> current s)) (sched_class_enqueue p)).

(** kern/process/proc.c, [proc_run]: the context switch itself is outside the
    model; what remains of it is the change of [current]. *)
Definition proc_run (p : pptr) : K kstate () :=
  s ← get; when (bool_decide (p <> current s)) (modify (set_current p)).

Definition schedule : K kstate () :=
  s ← get;
  let cur := current s in
  in_sch (proc_upd cur (set_need_resched false));;
  c ← in_sch (proc_at cur);
  when (bool_decide (state c = PROC_RUNNABLE)) (sched_class_enqueue cur);;
  o ← sched_class_pick_next;
  match o with Some n => sched_class_dequeue n | None => mret () end;;
  let next := default (idleproc s) o in
  n ← in_sch (proc_at next);
  in_sch (proc_upd next (set_runs (s32 (runs n + 1))));;
  when (bool_decide (next <> cur)) (proc_run next).
End core.

(** ** What the core relies on *)

(** The life cycle of a process as the core sees it; a policy does not change it. *)
Definition life (s : rqs) (p : pptr) : option (proc_state * Z) :=
  (fun x => (state x, wait_state x)) <$> procs s !! p.
Definition same_life (s s' : rqs) : Prop := forall p, life s' p = life s p.

(** A change of a process that a policy does not look at. *)
Definition policy_neutral (f : proc -> proc) : Prop := forall x,
  on_rq (f x) = on_rq x /\ time_slice (f x) = time_slice x /\
  lab6_stride (f x) = lab6_stride x /\ lab6_priority (f x) = lab6_priority x.

(** A process descriptor comes into being, with its heap entry, or goes. *)
Definition adopt (p : pptr) (x : proc) (e : skew_heap_entry) (s : rqs) : rqs :=
  mk_rqs (<[p := x]> (procs s)) (<[p := e]> (pool s)) (rq s).
Definition release (p : pptr) (s : rqs) : rqs :=
  mk_rqs (delete p (procs s)) (delete p (pool s)) (rq s).

(** A scheduling policy keeps a set of queued processes. *)
Class SchedPolicy (sc : sched_class) := {
  queued : rqs -> list pptr;
  policy_inv : rqs -> Prop;
  enqueue_law s p : policy_inv s -> is_Some (procs s !! p) -> p <> 0 -> p ∉ queued s ->
    wp (sc_enqueue sc p) (fun _ s' =>
      policy_inv s' /\ queued s' ≡ₚ p :: queued s /\ same_life s s') s;
  dequeue_law s p : policy_inv s -> p ∈ queued s ->
    wp (sc_dequeue sc p) (fun _ s' =>
      policy_inv s' /\ p :: queued s' ≡ₚ queued s /\ same_life s s') s;
  pick_law s : policy_inv s ->
    wp (sc_pick_next sc) (fun o s' =>
      policy_inv s' /\ queued s' = queued s /\ same_life s s' /\
      match o with Some p => p ∈ queued s | None => queued s = [] end) s;
  tick_law s p : policy_inv s -> is_Some (procs s !! p) -> p ∉ queued s ->
    wp (sc_proc_tick sc p) (fun _ s' =>
      policy_inv s' /\ queued s' = queued s /\ same_life s s') s;
  neutral_law s p f x : policy_inv s -> procs s !! p = Some x -> policy_neutral f ->
    policy_inv (set_procs (<[p := f x]> (procs s)) s) /\
    queued (set_procs (<[p := f x]> (procs s)) s) = queued s;
  adopt_law s p x e : policy_inv s -> procs s !! p = None -> on_rq x = false ->
    policy_inv (adopt p x e s) /\ queued (adopt p x e s) = queued s;
  release_law s p : policy_inv s -> p ∉ queued s ->
    policy_inv (release p s) /\ queued (release p s) = queued s;
}.

Lemma life_Some s p : is_Some (procs s !! p) <-> is_Some (life s p).
Proof. unfold life. by rewrite fmap_is_Some. Qed.

Lemma same_life_alloc s s' p : same_life s s' -> is_Some (procs s !! p) -> is_Some (procs s' !! p).
Proof. intros H. by rewrite !life_Some, H. Qed.

Lemma same_life_trans s1 s2 s3 : same_life s1 s2 -> same_life s2 s3 -> same_life s1 s3.
Proof. intros H1 H2 p. by rewrite H2. Qed.

Section core_facts.
Context (sc : sched_class) `{!SchedPolicy sc}.
Implicit Types (s : kstate) (p : pptr).

Definition runnable s p : Prop := exists ws, life (sch s) p = Some (PROC_RUNNABLE, ws).

(** The scheduler's invariant: the run queue holds exactly the runnable
    processes other than the running one and the idle one, each once. *)
Record sched_inv s : Prop := {
  si_policy : policy_inv (sch s);
  si_nodup : NoDup (queued (sch s));
  si_queued p : p ∈ queued (sch s) <-> runnable s p /\ p <> current s /\ p <> idleproc s;
  si_current : is_Some (procs (sch s) !! current s);
  si_idle : is_Some (procs (sch s) !! idleproc s);
  si_null : procs (sch s) !! 0 = None;
}.

Lemma wp_proc_at p x (Q : proc -> rqs -> Prop) (r : rqs) :
  procs r !! p = Some x -> Q x r -> wp (proc_at p) Q r.
Proof. intros E H. unfold wp, proc_at, unwrap. by rewrite E. Qed.

Lemma wp_proc_upd p f x (Q : () -> rqs -> Prop) (r : rqs) :
  procs r !! p = Some x -> Q () (set_procs (<[p := f x]> (procs r)) r) ->
  wp (proc_upd p f) Q r.
Proof. intros E H. unfold proc_upd. kstep. eapply wp_proc_at; [done|]. by apply wp_modify. Qed.

Lemma same_life_upd r p f x :
  procs r !! p = Some x -> state (f x) = state x -> wait_state (f x) = wait_state x ->
  same_life r (set_procs (<[p := f x]> (procs r)) r).
Proof.
  intros E H1 H2 q. unfold life. cbn. rewrite lookup_insert. case_decide; [|done]. subst.
  rewrite E. cbn. by rewrite H1, H2.
Qed.

Lemma not_null s p : sched_inv s -> is_Some (procs (sch s) !! p) -> p <> 0.
Proof. intros H [x Hx] ->. by rewrite (si_null _ H) in Hx. Qed.

Lemma same_life_null (r r' : rqs) : same_life r r' -> procs r !! 0 = None -> procs r' !! 0 = None.
Proof.
  intros H E. specialize (H 0). unfold life in H. rewrite E in H. cbn in H.
  by destruct (procs r' !! 0).
Qed.

(** [wakeup_proc] on a process that is not a zombie. *)
Lemma wp_wakeup_proc s p st ws (Q : () -> kstate -> Prop) :
  sched_inv s -> life (sch s) p = Some (st, ws) -> st <> PROC_ZOMBIE ->
  (forall r, sched_inv (set_sch r s) ->
     (forall q, life r q = if decide (q = p) then
                             Some (PROC_RUNNABLE, if decide (st = PROC_RUNNABLE) then ws else 0)
                           else life (sch s) q) -> Q () (set_sch r s)) ->
  wp (wakeup_proc sc p) Q s.
Proof.
  intros Hi Hp Hz HQ. unfold wakeup_proc, in_sch.
  pose proof Hp as (x&Hx&[= -> ->])%fmap_Some.
  kstep. kstep. eapply wp_proc_at; [done|].
  replace (set_sch (sch s) s) with s by (by destruct s).
  kstep. kstep; [by rewrite bool_decide_true|]. apply wp_when; intros Hr.
  2:{ apply bool_decide_eq_false, dec_stable in Hr.
      replace s with (set_sch (sch s) s) by (by destruct s). apply HQ.
      - by destruct s.
      - intros q. destruct (decide (q = p)) as [->|]; [|done].
        by rewrite Hp, Hr. }
  apply bool_decide_eq_true in Hr. rewrite decide_False in HQ by done.
  kstep. kstep. eapply wp_proc_upd; [done|]. set (r1 := set_procs _ _).
  assert (Hneu : policy_neutral (set_state PROC_RUNNABLE 0)) by done.
  destruct (neutral_law (sch s) p _ x (si_policy _ Hi) Hx Hneu) as [Hpi Hq]. fold r1 in Hpi, Hq.
  assert (Hlife : forall q, life r1 q = if decide (q = p) then Some (PROC_RUNNABLE, 0) else life (sch s) q).
  { intros q. unfold life, r1. cbn. rewrite lookup_insert.
    destruct (decide (p = q)) as [->|]; [by rewrite decide_True|by rewrite decide_False]. }
  assert (Hpq : p ∉ queued (sch s)).
  { intros [[ws' Hl] _]%(si_queued _ Hi). rewrite Hp in Hl. congruence. }
  assert (Halloc : forall q, is_Some (procs (sch s) !! q) -> is_Some (procs r1 !! q)).
  { intros q. rewrite !life_Some, Hlife. case_decide; eauto. }
  assert (Hnull : procs r1 !! 0 = None).
  { cbn. rewrite lookup_insert_ne; [apply Hi|]. eapply not_null; eauto. }
  ksteps. cbn [current set_sch]. apply wp_when; intros Hc.
  - apply bool_decide_eq_true in Hc. unfold sched_class_enqueue. ksteps. cbn [idleproc set_sch].
    apply wp_when; intros Hid.
    + apply bool_decide_eq_true in Hid. unfold in_sch. kstep. cbn [sch set_sch].
      eapply wp_mono; [apply enqueue_law|].
      * done. * apply Halloc. eauto. * eapply not_null; eauto. * by rewrite Hq.
      * intros [] r2 (H1&H2&H3). change (Q () (set_sch r2 s)). apply HQ.
        -- rewrite Hq in H2. split; cbn [sch set_sch current idleproc].
           ++ done.
           ++ rewrite H2. constructor; [done|apply Hi].
           ++ intros q. rewrite H2, elem_of_cons, (si_queued _ Hi). unfold runnable.
              cbn [sch set_sch]. rewrite H3, Hlife. case_decide; [naive_solver|].
              naive_solver.
           ++ eapply same_life_alloc; [done|]. apply Halloc, Hi.
           ++ eapply same_life_alloc; [done|]. apply Halloc, Hi.
           ++ by eapply same_life_null.
        -- intros q. by rewrite H3, Hlife.
    + apply bool_decide_eq_false, dec_stable in Hid. subst p. apply HQ; [|done].
      split; cbn [sch set_sch current idleproc]; try done; rewrite ?Hq; try apply Halloc; try apply Hi.
      intros q. rewrite (si_queued _ Hi). unfold runnable. cbn [sch set_sch]. rewrite Hlife.
      case_decide; naive_solver.
  - apply bool_decide_eq_false, dec_stable in Hc. subst p. apply HQ; [|done].
    split; cbn [sch set_sch current idleproc]; try done; rewrite ?Hq; try apply Halloc; try apply Hi.
    intros q. rewrite (si_queued _ Hi). unfold runnable. cbn [sch set_sch]. rewrite Hlife.
    case_decide; naive_solver.
Qed.

Definition keeps_life (f : proc -> proc) : Prop :=
  policy_neutral f /\ forall x, state (f x) = state x /\ wait_state (f x) = wait_state x.

(** A write to a field that neither the policy nor the life cycle sees. *)
Lemma wp_proc_upd_neutral p f (r : rqs) (Q : () -> rqs -> Prop) :
  policy_inv r -> is_Some (procs r !! p) -> keeps_life f ->
  (forall r', policy_inv r' -> queued r' = queued r -> same_life r r' -> Q () r') ->
  wp (proc_upd p f) Q r.
Proof.
  intros Hp [x Hx] [Hf Hl] HQ. eapply wp_proc_upd; [done|].
  destruct (neutral_law r p f x Hp Hx Hf) as [? ?]. apply HQ; [done|done|].
  apply same_life_upd; naive_solver.
Qed.

(** After the running process has been put back, the queue holds the runnable
    processes other than the idle one. *)
Record mid_inv (s : kstate) (r : rqs) : Prop := {
  mi_policy : policy_inv r;
  mi_nodup : NoDup (queued r);
  mi_queued p : p ∈ queued r <-> runnable s p /\ p <> idleproc s;
  mi_life : same_life (sch s) r;
}.

Lemma wp_requeue s r c (Q : () -> kstate -> Prop) :
  sched_inv s -> policy_inv r -> queued r = queued (sch s) -> same_life (sch s) r ->
  procs r !! current s = Some c ->
  (forall r', mid_inv s r' -> Q () (set_sch r' s)) ->
  wp (when (bool_decide (state c = PROC_RUNNABLE)) (sched_class_enqueue sc (current s))) Q (set_sch r s).
Proof.
  intros Hi Hp Hq Hl Hc HQ.
  assert (Hcur : life (sch s) (current s) = Some (state c, wait_state c)).
  { rewrite <-Hl. unfold life. by rewrite Hc. }
  assert (Hsame : forall q, q ∈ queued r <-> runnable s q /\ q <> current s /\ q <> idleproc s).
  { intros q. rewrite Hq. apply Hi. }
  apply wp_when_dec; intros E.
  - unfold sched_class_enqueue. ksteps. cbn [idleproc set_sch]. apply wp_when_dec; intros Hid.
    + unfold in_sch. kstep. cbn [sch set_sch]. eapply wp_mono; [apply enqueue_law|].
      * done.
      * eauto.
      * eapply not_null; [done|]. apply life_Some. eauto.
      * rewrite Hsame. naive_solver.
      * intros [] r2 (H1&H2&H3). change (Q () (set_sch r2 s)). apply HQ. split.
        -- done.
        -- rewrite H2. constructor; [rewrite Hsame; naive_solver|]. rewrite Hq. apply Hi.
        -- intros q. rewrite H2, elem_of_cons, Hsame. unfold runnable.
           destruct (decide (q = current s)) as [->|]; [|naive_solver]. rewrite Hcur, E. naive_solver.
        -- by eapply same_life_trans.
    + apply dec_stable in Hid. apply HQ. split; [done|rewrite Hq; apply Hi| |done].
      intros q. rewrite Hsame. rewrite Hid. naive_solver.
  - apply HQ. split; [done|rewrite Hq; apply Hi| |done].
    intros q. rewrite Hsame. split; [naive_solver|]. intros [[ws Hr] ?]. split_and!; [by exists ws| |done].
    intros ->. rewrite Hcur in Hr. naive_solver.
Qed.

Lemma wp_schedule s (Q : () -> kstate -> Prop) :
  sched_inv s ->
  (forall r n, sched_inv (set_current n (set_sch r s)) -> same_life (sch s) r ->
     (n = idleproc s /\ (forall q, runnable s q -> q = idleproc s)) \/
     (n <> idleproc s /\ runnable s n) -> Q () (set_current n (set_sch r s))) ->
  wp (schedule sc) Q s.
Proof.
  intros Hi HQ. unfold schedule, in_sch. ksteps.
  apply wp_proc_upd_neutral; [apply Hi|apply Hi|done|]. intros r1 P1 Q1 L1.
  destruct (same_life_alloc _ _ _ L1 (si_current _ Hi)) as [c Hc].
  kstep. kstep. cbn [sch set_sch]. eapply wp_proc_at; [done|].
  kstep. apply (wp_requeue s r1 c); [done|done|done|done|done|]. intros r2 [P2 N2 Q2 L2].
  kstep. unfold sched_class_pick_next, in_sch. kstep. cbn [sch set_sch].
  eapply wp_mono; [by apply pick_law|]. intros o r3 (P3&Q3&L3&Ho). kstep.
  assert (Hnext : exists n, n = default (idleproc s) o /\
    wp (match o with Some n => sched_class_dequeue sc n | None => mret () end)
       (fun _ s' => exists r, s' = set_sch r s /\ policy_inv r /\ NoDup (queued r) /\
          (forall p, p ∈ queued r <-> runnable s p /\ p <> n /\ p <> idleproc s) /\
          same_life (sch s) r /\
          ((n = idleproc s /\ (forall q, runnable s q -> q = idleproc s)) \/
           (n <> idleproc s /\ runnable s n))) (set_sch r3 s)).
  { exists (default (idleproc s) o). split; [done|]. destruct o as [n|]; cbn [default].
    - unfold sched_class_dequeue, in_sch. kstep. cbn [sch set_sch].
      eapply wp_mono; [apply dequeue_law; [done|by rewrite Q3]|]. intros [] r4 (P4&Q4&L4).
      exists r4. rewrite Q3 in Q4. pose proof N2 as N2'. rewrite <-Q4 in N2'.
      apply NoDup_cons in N2' as [Hn Hnd]. split_and!; [done|done|done| | |].
      + intros q. assert (q ∈ queued r2 <-> q = n \/ q ∈ queued r4) as E
          by (rewrite <-Q4; apply elem_of_cons). rewrite Q2 in E. cbn. naive_solver.
      + by do 2 (eapply same_life_trans; [|done]).
      + right. cbn. apply Q2 in Ho. naive_solver.
    - apply wp_ret. exists r3. rewrite Q3. split_and!; [done|done|done| | |].
      + intros q. rewrite Q2. naive_solver.
      + by eapply same_life_trans.
      + left. split; [done|]. intros q Hr. destruct (decide (q = idleproc s)); [done|].
        exfalso. assert (q ∈ queued r2) as Hq by (by apply Q2). rewrite Ho in Hq. set_solver +Hq. }
  destruct Hnext as (n&Hn&Hw). change (current (set_sch _ _)) with (current s).
  eapply wp_mono; [exact Hw|]. clear Hw. intros [] s4 (r4&->&P4&N4&Q4&L4&Hor). cbn [idleproc set_sch]. rewrite <-Hn.
  assert (is_Some (procs r4 !! n)) as [xn Hxn].
  { eapply same_life_alloc; [done|]. destruct Hor as [[-> _]|[_ [ws Hr]]]; [apply Hi|].
    apply life_Some. eauto. }
  kstep. kstep. cbn [sch set_sch]. eapply wp_proc_at; [done|].
  kstep. kstep. cbn [sch set_sch].
  apply wp_proc_upd_neutral; [done|eauto|done|]. intros r5 P5 Q5 L5.
  assert (Hfin : sched_inv (set_current n (set_sch r5 s))).
  { assert (L : same_life (sch s) r5) by (by eapply same_life_trans).
    split; cbn [sch set_sch set_current current idleproc].
    - done.
    - by rewrite Q5.
    - intros q. rewrite Q5, Q4. unfold runnable. cbn [sch set_sch set_current]. by rewrite L.
    - eapply same_life_alloc; [exact L5|]. eauto.
    - eapply same_life_alloc; [done|]. apply Hi.
    - eapply same_life_null; [done|]. apply Hi. }
  specialize (HQ r5 n Hfin (same_life_trans _ _ _ L4 L5) Hor).
  apply wp_when_dec; intros E.
  - unfold proc_run. ksteps. apply wp_when_dec; intros E'; [by apply wp_modify|].
    by apply dec_stable in E'.
  - apply dec_stable in E. change (Q () (set_sch r5 s)). by rewrite E in HQ; destruct s.
Qed.

(** The running process stops being runnable; it is in no run queue, so the
    invariant stands. *)
Lemma wp_halt_current s st ws (Q : () -> kstate -> Prop) :
  sched_inv s -> st <> PROC_RUNNABLE ->
  (forall r, sched_inv (set_sch r s) ->
     (forall p, life r p = if decide (p = current s) then Some (st, ws) else life (sch s) p) -> Q () (set_sch r s)) ->
  wp (in_sch (proc_upd (current s) (set_state st ws))) Q s.
Proof.
  intros Hi Hst HQ. destruct (si_current _ Hi) as [c Hc]. unfold in_sch. kstep. eapply wp_proc_upd; [exact Hc|].
  destruct (neutral_law (sch s) (current s) (set_state st ws) c (si_policy _ Hi) Hc ltac:(done)) as [Hp Hq].
  set (r := set_procs _ _) in *.
  assert (Hlife : forall p, life r p = if decide (p = current s) then Some (st, ws) else life (sch s) p).
  { intros p. unfold life, r. cbn. rewrite lookup_insert.
    destruct (decide (current s = p)) as [->|]; [by rewrite decide_True|by rewrite decide_False]. }
  assert (Halloc : forall p, is_Some (procs (sch s) !! p) -> is_Some (procs r !! p)).
  { intros p. rewrite !life_Some, Hlife. case_decide; eauto. }
  apply HQ; [|done]. split; cbn [sch set_sch current idleproc]; try apply Halloc; try apply Hi.
  - done.
  - rewrite Hq. apply Hi.
  - intros p. rewrite Hq, (si_queued _ Hi). unfold runnable. cbn [sch set_sch]. rewrite Hlife. case_decide; naive_solver.
  - cbn. rewrite lookup_insert_ne; [apply Hi|]. eapply not_null; eauto.
Qed.

(** A write that neither the policy nor the life cycle sees, in the kernel state. *)
Lemma wp_touch s p f (Q : () -> kstate -> Prop) :
  sched_inv s -> is_Some (procs (sch s) !! p) -> keeps_life f ->
  (forall r, sched_inv (set_sch r s) -> same_life (sch s) r -> Q () (set_sch r s)) ->
  wp (in_sch (proc_upd p f)) Q s.
Proof.
  intros Hi Hp Hf HQ. unfold in_sch. kstep. apply wp_proc_upd_neutral; [apply Hi|done|done|].
  intros r P E L. apply HQ; [|done]. split; cbn [sch set_sch current idleproc].
  - done.
  - rewrite E. apply Hi.
  - intros q. rewrite E, (si_queued _ Hi). unfold runnable. cbn [sch set_sch]. by rewrite L.
  - eapply same_life_alloc; [done|apply Hi].
  - eapply same_life_alloc; [done|apply Hi].
  - eapply same_life_null; [done|apply Hi].
Qed.

Lemma life_adopt r p x e q : life (adopt p x e r) q = if decide (q = p) then Some (state x, wait_state x) else life r q.
Proof.
  unfold life, adopt. cbn. rewrite lookup_insert.
  destruct (decide (p = q)) as [->|]; [by rewrite decide_True|by rewrite decide_False].
Qed.

Lemma life_release r p q : life (release p r) q = if decide (q = p) then None else life r q.
Proof.
  unfold life, release. cbn. rewrite lookup_delete.
  destruct (decide (p = q)) as [->|]; [by rewrite decide_True|by rewrite decide_False].
Qed.

Lemma sched_inv_adopt s p x e :
  sched_inv s -> procs (sch s) !! p = None -> p <> 0 -> on_rq x = false -> state x <> PROC_RUNNABLE ->
  sched_inv (set_sch (adopt p x e (sch s)) s).
Proof.
  intros Hi Hp Hn Hx Hr. destruct (adopt_law (sch s) p x e (si_policy _ Hi) Hp Hx) as [P E].
  assert (Hlp : life (sch s) p = None) by (unfold life; by rewrite Hp).
  split; cbn [sch set_sch current idleproc].
  - done.
  - rewrite E. apply Hi.
  - intros q. rewrite E, (si_queued _ Hi). unfold runnable. cbn [sch set_sch]. rewrite life_adopt.
    destruct (decide (q = p)) as [->|]; [|done]. rewrite Hlp. naive_solver.
  - apply lookup_insert_is_Some'. right. apply Hi.
  - apply lookup_insert_is_Some'. right. apply Hi.
  - cbn. rewrite lookup_insert_ne by done. apply Hi.
Qed.

Lemma sched_inv_release s p st ws :
  sched_inv s -> life (sch s) p = Some (st, ws) -> st <> PROC_RUNNABLE -> p <> current s -> p <> idleproc s ->
  sched_inv (set_sch (release p (sch s)) s).
Proof.
  intros Hi Hp Hr Hc Hd. assert (Hq : p ∉ queued (sch s)).
  { rewrite (si_queued _ Hi). intros [[ws' H] _]. congruence. }
  destruct (release_law (sch s) p (si_policy _ Hi) Hq) as [P E]. split; cbn [sch set_sch current idleproc].
  - done.
  - rewrite E. apply Hi.
  - intros q. rewrite E, (si_queued _ Hi). unfold runnable. cbn [sch set_sch]. rewrite life_release.
    destruct (decide (q = p)) as [->|]; [|done]. rewrite Hp. naive_solver.
  - cbn. rewrite lookup_delete_ne by done. apply Hi.
  - cbn. rewrite lookup_delete_ne by done. apply Hi.
  - cbn. rewrite lookup_delete. case_decide; [done|]. apply Hi.
Qed.
End core_facts.

(** ** The properties *)

(** Property C23. [schedule] keeps the run queue equal to the set of runnable
    processes that are not running, whatever the policy, never runs a process
    that cannot run, and runs the idle process only when no other can run. *)
Theorem schedule_spec sc `{!SchedPolicy sc} s :
  sched_inv sc s ->
  wp (schedule sc) (fun _ s' =>
    sched_inv sc s' /\ same_life (sch s) (sch s') /\
    ((current s' = idleproc s /\ (forall q, runnable s q -> q = idleproc s)) \/
     (current s' <> idleproc s /\ runnable s (current s')))) s.
Proof. intros H. apply (wp_schedule sc s); [done|]. intros r n H1 H2 H3. done. Qed.

(** [wakeup_proc] makes its process runnable, clears what it was
    waiting for, queues it exactly when it is neither running nor idle, and
    touches the life cycle of no other process. *)
Theorem wakeup_proc_spec sc `{!SchedPolicy sc} s p st ws :
  sched_inv sc s -> life (sch s) p = Some (st, ws) -> st <> PROC_ZOMBIE ->
  wp (wakeup_proc sc p) (fun _ s' =>
    sched_inv sc s' /\ runnable s' p /\ current s' = current s /\ idleproc s' = idleproc s /\
    (forall q, q <> p -> life (sch s') q = life (sch s) q) /\
    (st <> PROC_RUNNABLE -> life (sch s') p = Some (PROC_RUNNABLE, 0))) s.
Proof.
  intros Hi Hp Hz. eapply (wp_wakeup_proc sc); [done..|]. intros r Hr Hl. split_and!; [done| |done|done| |].
  - eexists. cbn. by rewrite Hl, decide_True.
  - intros q Hq. cbn. by rewrite Hl, decide_False.
  - intros Hne. cbn. by rewrite Hl, decide_True, decide_False.
Qed.
