(* ===== verification/Timer.v ===== *)
(** kern/schedule/sched.c: the timer list.  Each timer counts from the one
    before it, so that a clock tick only touches the first; [deadlines] reads
    the list back as absolute times, and the theorems show that the code
    maintains the sorted list of deadlines: insertion, removal, and a tick that
    lowers every deadline by one and wakes the processes whose time has come. *)
From S2P Require Import Prelude Sched.

(** ** Operations *)

Section timers.
Context (sc : sched_class).

Definition timer_at (t : tptr) : K kstate timer_t := fun s => unwrap (timers s !! t) s.
Definition set_expires (t : tptr) (e : Z) : K kstate () :=
  x ← timer_at t; modify (fun s => set_timers (<[t := mk_timer e (tproc x)]> (timers s)) s).

(** The walk of [add_timer]: [pre] are the timers passed, [post] those from
    [le] on; the result is the place to insert at. *)
Fixpoint add_timer_walk (t : tptr) (pre post : list tptr) : K kstate (list tptr * list tptr) :=
  match post with
  | [] => mret (pre, [])
  | n :: post' =>
      timer ← timer_at t;
      next ← timer_at n;
      if expires timer <? expires next then
        set_expires n (u32 (expires next - expires timer));;
        mret (pre, n :: post')
      else
        set_expires t (u32 (expires timer - expires next));;
        add_timer_walk t (pre ++ [n]) post'
  end.

Definition add_timer (t : tptr) : K kstate () :=
  timer ← timer_at t;
  assert (bool_decide (0 < expires timer /\ tproc timer <> 0));;
  s ← get;
  assert (bool_decide (t ∉ timer_list s));;
  '(pre, post) ← add_timer_walk t [] (timer_list s);
  modify (set_timer_list (pre ++ t :: post)).

(** The entry after [t] in a list. *)
Fixpoint next_of (t : tptr) (l : list tptr) : option tptr :=
  match l with
  | [] => None
  | x :: l => if bool_decide (x = t) then head l else next_of t l
  end.
Fixpoint list_remove_one (t : tptr) (l : list tptr) : list tptr :=
  match l with
  | [] => []
  | x :: l => if bool_decide (x = t) then l else x :: list_remove_one t l
  end.

Definition del_timer (t : tptr) : K kstate () :=
  s ← get;
  when (bool_decide (t ∈ timer_list s))
    (timer ← timer_at t;
     when (bool_decide (expires timer <> 0))
       (match next_of t (timer_list s) with
        | Some n => next ← timer_at n; set_expires n (u32 (expires next + expires timer))
        | None => mret ()
        end);;
     modify (set_timer_list (list_remove_one t (timer_list s)))).

(** The loop of [run_timer_list]: [t] is [timer], [rest] the timers after it. *)
Fixpoint run_expired (t : tptr) (rest : list tptr) : K kstate () :=
  timer ← timer_at t;
  when (bool_decide (expires timer = 0))
    (x ← in_sch (proc_at (tproc timer));
     when (bool_decide (wait_state x <> 0))
       (assert (bool_decide (Z.land (wait_state x) WT_INTERRUPTED <> 0)));;
     wakeup_proc sc (tproc timer);;
     del_timer t;;
     match rest with
     | [] => mret ()
     | t' :: rest' => run_expired t' rest'
     end).

Definition run_timer_list : K kstate () :=
  s ← get;
  match timer_list s with
  | [] => mret ()
  | t :: rest =>
      timer ← timer_at t;
      assert (bool_decide (expires timer <> 0));;
      set_expires t (u32 (expires timer - 1));;
      run_expired t rest
  end;;
  s ← get;
  sched_class_proc_tick sc (current s).
End timers.

(** ** Deadlines *)

Definition exp_of (m : gmap tptr timer_t) (t : tptr) : Z := default 0 (expires <$> m !! t).

(** The absolute time, from now, at which each timer of the list ends. *)
Fixpoint deadlines (m : gmap tptr timer_t) (base : Z) (l : list tptr) : list (tptr * Z) :=
  match l with
  | [] => []
  | t :: l => (t, base + exp_of m t) :: deadlines m (base + exp_of m t) l
  end.

Definition state_deadlines (s : kstate) : list (tptr * Z) := deadlines (timers s) 0 (timer_list s).

(** The timers of the list exist, once each, with counts in range, and every
    deadline fits an [unsigned int]. *)
Record timers_wf (m : gmap tptr timer_t) (l : list tptr) : Prop := {
  tw_nodup : NoDup l;
  tw_alloc t : t ∈ l -> exists x, m !! t = Some x /\ 0 <= expires x;
  tw_bound : Forall (fun d => d.2 < 2 ^ 32) (deadlines m 0 l);
}.

Fixpoint dsum (m : gmap tptr timer_t) (l : list tptr) : Z :=
  match l with [] => 0 | t :: l => exp_of m t + dsum m l end.

Lemma dsum_app m l1 l2 : dsum m (l1 ++ l2) = dsum m l1 + dsum m l2.
Proof. induction l1; cbn in *; lia. Qed.

Lemma dsum_ext m m' l : (forall t, t ∈ l -> exp_of m' t = exp_of m t) -> dsum m' l = dsum m l.
Proof.
  induction l as [|t l IH]; intros H; cbn; [done|].
  rewrite H, IH; [done| |set_solver +]. intros q Hq. apply H. set_solver +Hq.
Qed.

Lemma deadlines_app m b l1 l2 :
  deadlines m b (l1 ++ l2) = deadlines m b l1 ++ deadlines m (b + dsum m l1) l2.
Proof.
  revert b. induction l1 as [|t l1 IH]; intros b; cbn; [by rewrite Z.add_0_r|].
  rewrite IH. by rewrite Z.add_assoc.
Qed.

Lemma deadlines_ext m m' b l :
  (forall t, t ∈ l -> exp_of m' t = exp_of m t) -> deadlines m' b l = deadlines m b l.
Proof.
  revert b. induction l as [|t l IH]; intros b H; cbn; [done|].
  rewrite H by set_solver +. rewrite IH; [done|]. intros q Hq. apply H. set_solver +Hq.
Qed.

Lemma deadlines_fst m b l : (deadlines m b l).*1 = l.
Proof. revert b. induction l as [|t l IH]; intros b; cbn; [done|]. by rewrite IH. Qed.

Lemma deadlines_in m b l d : d ∈ deadlines m b l -> d.1 ∈ l.
Proof. intros H. rewrite <-(deadlines_fst m b l). by apply list_elem_of_fmap_2. Qed.

Lemma deadlines_ge m b l :
  (forall t, t ∈ l -> 0 <= exp_of m t) -> Forall (fun d => b <= d.2) (deadlines m b l).
Proof.
  revert b. induction l as [|t l IH]; intros b H; cbn; constructor.
  - assert (0 <= exp_of m t) by (apply H; set_solver +). cbn. lia.
  - eapply Forall_impl; [apply IH|].
    + intros q Hq. apply H. set_solver +Hq.
    + assert (0 <= exp_of m t) by (apply H; set_solver +). intros d Hd. cbn in *. lia.
Qed.

Lemma dsum_nonneg m l : (forall t, t ∈ l -> 0 <= exp_of m t) -> 0 <= dsum m l.
Proof.
  induction l as [|t l IH]; intros H; cbn; [lia|].
  assert (0 <= exp_of m t) by (apply H; set_solver +).
  assert (0 <= dsum m l) by (apply IH; intros q Hq; apply H; set_solver +Hq). lia.
Qed.

Lemma wf_exp m l t : timers_wf m l -> t ∈ l -> 0 <= exp_of m t.
Proof. intros H Ht. destruct (tw_alloc _ _ H t Ht) as (x&Hx&?). unfold exp_of. by rewrite Hx. Qed.

(** Each count is bounded by its deadline. *)
Lemma wf_dsum m l1 t l2 :
  timers_wf m (l1 ++ t :: l2) -> 0 <= dsum m l1 /\ dsum m l1 + exp_of m t < 2 ^ 32.
Proof.
  intros H. split; [apply dsum_nonneg; intros; eapply wf_exp; [done|set_solver]|].
  pose proof (tw_bound _ _ H) as Hb. rewrite deadlines_app, Forall_app in Hb.
  destruct Hb as [_ Hb]. cbn in Hb. apply Forall_cons in Hb as [Hb _]. cbn in Hb. lia.
Qed.

Section effects.
Implicit Types (s : kstate) (t : tptr).

Lemma wp_timer_at t x s (Q : timer_t -> kstate -> Prop) :
  timers s !! t = Some x -> Q x s -> wp (timer_at t) Q s.
Proof. intros E H. unfold wp, timer_at, unwrap. by rewrite E. Qed.

Lemma wp_set_expires t e x s (Q : () -> kstate -> Prop) :
  timers s !! t = Some x -> Q () (set_timers (<[t := mk_timer e (tproc x)]> (timers s)) s) ->
  wp (set_expires t e) Q s.
Proof. intros E H. unfold set_expires. kstep. eapply wp_timer_at; [done|]. by apply wp_modify. Qed.

Lemma exp_of_Some m t x : m !! t = Some x -> exp_of m t = expires x.
Proof. unfold exp_of. by intros ->. Qed.

Lemma exp_of_insert m t x : exp_of (<[t := x]> m) t = expires x.
Proof. unfold exp_of. by rewrite lookup_insert_eq. Qed.

Lemma exp_of_insert_ne m t t' x : t <> t' -> exp_of (<[t := x]> m) t' = exp_of m t'.
Proof. intros. unfold exp_of. by rewrite lookup_insert_ne. Qed.
End effects.

(** ** Insertion *)
Lemma wp_add_timer_walk t pre post s (Q : list tptr * list tptr -> kstate -> Prop) x :
  timers s !! t = Some x -> 0 <= expires x < 2 ^ 32 ->
  NoDup (t :: post) ->
  (forall n, n ∈ post -> exists y, timers s !! n = Some y /\ 0 <= expires y < 2 ^ 32) ->
  (forall mid p2 m', post = mid ++ p2 ->
     (forall n, is_Some (m' !! n) <-> is_Some (timers s !! n)) ->
     (forall n, tproc <$> m' !! n = tproc <$> timers s !! n) ->
     exp_of m' t = expires x - dsum (timers s) mid -> 0 <= exp_of m' t ->
     (forall n, n <> t -> Some n <> head p2 -> exp_of m' n = exp_of (timers s) n) ->
     match p2 with
     | [] => True
     | n :: _ => exp_of m' t < exp_of (timers s) n /\
                 exp_of m' n = exp_of (timers s) n - exp_of m' t
     end -> Q (pre ++ mid, p2) (set_timers m' s)) ->
  wp (add_timer_walk t pre post) Q s.
Proof.
  revert pre s x Q. induction post as [|n post IH]; intros pre s x Q Ht Hx Hnd Ha HQ; cbn [add_timer_walk].
  - apply wp_ret. replace s with (set_timers (timers s) s) by (by destruct s).
    rewrite <-(app_nil_r pre). apply HQ; try done; cbn.
    + rewrite (exp_of_Some _ _ _ Ht). lia.
    + rewrite (exp_of_Some _ _ _ Ht). lia.
  - apply NoDup_cons in Hnd as [Htn [Hn Hnd]%NoDup_cons].
    apply not_elem_of_cons in Htn as [Htn Htp].
    destruct (Ha n) as (y&Hy&Hyb); [set_solver +|].
    kstep. eapply wp_timer_at; [done|]. kstep. eapply wp_timer_at; [done|].
    destruct (expires x <? expires y) eqn:E.
    + apply Z.ltb_lt in E. kstep. eapply wp_set_expires; [done|]. apply wp_ret.
      rewrite uwrap_small by lia. rewrite <-(app_nil_r pre).
      pose proof (exp_of_Some _ _ _ Ht) as Et. pose proof (exp_of_Some _ _ _ Hy) as Ey.
      apply HQ; [done| | | | | |].
      * intros q. rewrite lookup_insert_is_Some. split; [intros [<-|[_ ?]]; eauto|].
        destruct (decide (n = q)); eauto.
      * intros q. rewrite lookup_insert. case_decide; [|done]. subst. by rewrite Hy.
      * rewrite exp_of_insert_ne by done. cbn. lia.
      * rewrite exp_of_insert_ne by done. lia.
      * intros q Hq Hh. apply exp_of_insert_ne. naive_solver.
      * rewrite exp_of_insert, exp_of_insert_ne by done. cbn. lia.
    + apply Z.ltb_ge in E. kstep. eapply wp_set_expires; [done|].
      rewrite uwrap_small by lia. set (m1 := <[t:=_]> (timers s)).
      eapply (IH (pre ++ [n]) (set_timers m1 s)).
      * apply lookup_insert_eq.
      * cbn. lia.
      * by constructor.
      * intros q Hq. destruct (Ha q) as (z&Hz&?); [set_solver +Hq|]. exists z.
        split; [|done]. cbn [timers set_timers]. unfold m1. rewrite lookup_insert_ne; [done|]. intros ->. by apply Htp.
      * intros mid p2 m' -> Hal Hpr Het Hge Hother Hhead. rewrite <-app_assoc. cbn [app].
        cbn [timers set_timers] in *.
        assert (Hne : forall q, q <> t -> exp_of m1 q = exp_of (timers s) q)
          by (intros; by apply exp_of_insert_ne).
        assert (Hds : dsum m1 mid = dsum (timers s) mid).
        { apply dsum_ext. intros q Hq. apply Hne. set_solver +Hq Htp. }
        change (set_timers m' (set_timers m1 s)) with (set_timers m' s).
        apply HQ; [done| | | | | |].
        -- intros q. rewrite Hal. unfold m1. rewrite lookup_insert_is_Some.
           split; [intros [<-|[_ ?]]; eauto|]. destruct (decide (t = q)); eauto.
        -- intros q. rewrite Hpr. unfold m1. rewrite lookup_insert. case_decide; [|done].
           subst. by rewrite Ht.
        -- rewrite Het. cbn. rewrite Hds, (exp_of_Some _ _ _ Hy). lia.
        -- done.
        -- intros q Hq Hh. rewrite Hother by done. by apply Hne.
        -- destruct p2 as [|q p2]; [done|]. rewrite Hne in Hhead; [done|]. set_solver +Htp.
Qed.

Lemma deadlines_le m b l :
  (forall t, t ∈ l -> 0 <= exp_of m t) -> Forall (fun d => d.2 <= b + dsum m l) (deadlines m b l).
Proof.
  revert b. induction l as [|t l IH]; intros b H; cbn; constructor.
  - assert (0 <= dsum m l) by (apply dsum_nonneg; intros; apply H; set_solver).
    cbn. lia.
  - eapply Forall_impl; [apply IH|].
    + intros q Hq. apply H. set_solver +Hq.
    + intros d Hd. cbn in *. lia.
Qed.

Lemma wf_lookup m l t : timers_wf m l -> t ∈ l -> exists x, m !! t = Some x /\ 0 <= expires x < 2 ^ 32.
Proof.
  intros H Ht. destruct (tw_alloc _ _ H t Ht) as (x&Hx&?). exists x. split; [done|].
  apply list_elem_of_split in Ht as (l1&l2&->).
  pose proof (wf_dsum _ _ _ _ H) as [??]. rewrite (exp_of_Some _ _ _ Hx) in *. lia.
Qed.

(** What the tick, the insertion and the removal keep of the state. *)
Definition same_procs_of_timers (m m' : gmap tptr timer_t) : Prop :=
  forall n, tproc <$> m' !! n = tproc <$> m !! n.

(** Well-formedness read off the deadlines. *)
Lemma timers_wf_intro m l :
  NoDup l -> (forall t, t ∈ l -> is_Some (m !! t)) ->
  (forall t, t ∈ l -> 0 <= exp_of m t) ->
  Forall (fun d => d.2 < 2 ^ 32) (deadlines m 0 l) -> timers_wf m l.
Proof.
  intros Hnd Ha He Hb. split; [done| |done]. intros t Ht. destruct (Ha t Ht) as [x Hx].
  exists x. split; [done|]. specialize (He t Ht). by rewrite (exp_of_Some _ _ _ Hx) in He.
Qed.

Definition add_timer_post (s : kstate) (t : tptr) (e : Z) (s' : kstate) : Prop :=
  (exists pre post, state_deadlines s = pre ++ post /\
     state_deadlines s' = pre ++ (t, e) :: post /\
     Forall (fun d => d.2 <= e) pre /\ Forall (fun d => e < d.2) post) /\
  timers_wf (timers s') (timer_list s') /\
  same_procs_of_timers (timers s) (timers s') /\ sch s' = sch s.

Lemma wp_add_timer s t x (Q : () -> kstate -> Prop) :
  timers_wf (timers s) (timer_list s) -> timers s !! t = Some x -> t ∉ timer_list s ->
  0 < expires x < 2 ^ 32 -> tproc x <> 0 ->
  (forall s', add_timer_post s t (expires x) s' -> Q () s') -> wp (add_timer t) Q s.
Proof.
  intros Hwf Ht Hnt Hx Hp HQ. unfold add_timer. kstep. eapply wp_timer_at; [done|].
  kstep. kstep; [by rewrite bool_decide_true by (split; [lia|done])|].
  kstep. kstep. kstep. kstep; [by rewrite bool_decide_true|]. kstep.
  eapply wp_add_timer_walk; [done|lia|constructor; [done|apply Hwf]|intros n; by apply wf_lookup|].
  intros mid p2 m' El Hal Hpr Het Hge Hother Hhead. cbn [app]. apply wp_modify. apply HQ.
  pose proof (tw_nodup _ _ Hwf) as Hnd. rewrite El in Hnd, Hnt.
  apply NoDup_app in Hnd as (Hnd1&Hdis&Hnd2).
  assert (Hmid : forall q, q ∈ mid -> exp_of m' q = exp_of (timers s) q).
  { intros q Hq. apply Hother; [set_solver +Hq Hnt|]. intros E. apply (Hdis q Hq).
    apply (head_Some_elem_of p2). done. }
  assert (Htl : deadlines m' (expires x) p2 = deadlines (timers s) (dsum (timers s) mid) p2).
  { destruct p2 as [|n p2]; [done|]. cbn. destruct Hhead as [_ ->]. rewrite Het.
    replace (expires x + _) with (dsum (timers s) mid + exp_of (timers s) n) by lia. f_equal.
    apply deadlines_ext. intros q Hq. apply NoDup_cons in Hnd2 as [Hn _].
    apply Hother; [set_solver +Hq Hnt|set_solver +Hq Hn]. }
  assert (Hnn : forall q, q ∈ timer_list s -> 0 <= exp_of (timers s) q) by (intros; by eapply wf_exp).
  rewrite El in Hnn.
  assert (Hd : deadlines m' 0 (mid ++ t :: p2) =
    deadlines (timers s) 0 mid ++ (t, expires x) :: deadlines (timers s) (dsum (timers s) mid) p2).
  { rewrite deadlines_app. cbn. rewrite (dsum_ext (timers s) m') by done.
    replace (_ + exp_of m' t) with (expires x) by lia. by rewrite Htl, (deadlines_ext (timers s)). }
  pose proof (tw_bound _ _ Hwf) as Hb. rewrite El, deadlines_app, Forall_app in Hb.
  destruct Hb as [Hb1 Hb2]. unfold add_timer_post, state_deadlines.
  cbn [timers timer_list set_timers set_timer_list sch]. rewrite Hd.
  split_and!; [|apply timers_wf_intro|done|done].
  - exists (deadlines (timers s) 0 mid), (deadlines (timers s) (dsum (timers s) mid) p2).
    split_and!; [by rewrite El, deadlines_app|done| |].
    + eapply Forall_impl; [apply deadlines_le; set_solver +Hnn|]. intros d Hdd. cbn in *. lia.
    + destruct p2 as [|n p2]; [constructor|]. cbn. destruct Hhead as [Hh _].
      assert (Hf := deadlines_ge (timers s) (dsum (timers s) mid + exp_of (timers s) n) p2).
      constructor; [cbn; lia|]. eapply Forall_impl; [apply Hf; set_solver +Hnn|].
      intros d Hdd. cbn in *. lia.
  - apply NoDup_app. split_and!; [done|set_solver +Hnt Hdis|constructor; [set_solver +Hnt|done]].
  - intros q Hq. apply Hal. destruct (decide (q = t)) as [->|]; [eauto|].
    destruct (tw_alloc _ _ Hwf q) as (y&?&_); [|eauto]. rewrite El. set_solver.
  - intros q Hq. destruct (decide (q = t)) as [->|Hqt]; [done|].
    destruct (decide (Some q = head p2)) as [E|E].
    + destruct p2; [done|]. injection E as ->. lia.
    + rewrite Hother by done. apply Hnn. set_solver.
  - rewrite Hd. apply Forall_app. split; [done|]. constructor; [cbn; lia|done].
Qed.

(** ** Removal *)
Lemma list_remove_one_split t l1 l2 : t ∉ l1 -> list_remove_one t (l1 ++ t :: l2) = l1 ++ l2.
Proof.
  induction l1 as [|y l1 IH]; intros H; cbn; [by rewrite bool_decide_true|].
  rewrite bool_decide_false, IH; [done|set_solver +H|set_solver +H].
Qed.

Lemma next_of_split t l1 l2 : t ∉ l1 -> next_of t (l1 ++ t :: l2) = head l2.
Proof.
  induction l1 as [|y l1 IH]; intros H; cbn; [by rewrite bool_decide_true|].
  rewrite bool_decide_false, IH; [done|set_solver +H|set_solver +H].
Qed.

Definition del_timer_post (s : kstate) (t : tptr) (s' : kstate) : Prop :=
  state_deadlines s' = filter (fun d => d.1 <> t) (state_deadlines s) /\
  timers_wf (timers s') (timer_list s') /\
  same_procs_of_timers (timers s) (timers s') /\ sch s' = sch s.

Lemma filter_none {A} (P : A -> Prop) `{!forall x, Decision (P x)} l :
  Forall P l -> filter P l = l.
Proof. induction 1; [done|]. rewrite filter_cons_True; [by f_equal|done]. Qed.

(** The list without [t], when the count of [t] has been given to the next. *)
Lemma deadlines_del m m' l1 t l2 :
  timers_wf m (l1 ++ t :: l2) ->
  (forall n, n ∈ l1 ++ l2 ->
     exp_of m' n = exp_of m n + if bool_decide (Some n = head l2) then exp_of m t else 0) ->
  (forall n, is_Some (m !! n) -> is_Some (m' !! n)) ->
  deadlines m' 0 (l1 ++ l2) = filter (fun d => d.1 <> t) (deadlines m 0 (l1 ++ t :: l2)) /\
  timers_wf m' (l1 ++ l2).
Proof.
  intros Hwf He Hal. pose proof (tw_nodup _ _ Hwf) as (Hnd1&Hdis&[Ht Hnd2]%NoDup_cons)%NoDup_app.
  assert (Hnt : forall (l : list tptr) b, t ∉ l -> Forall (fun d : tptr * Z => d.1 <> t) (deadlines m b l)).
  { intros l b Hl. apply Forall_forall. intros d Hd Ed. apply Hl. rewrite <-Ed.
    rewrite <-(deadlines_fst m b l). by apply list_elem_of_fmap_2. }
  assert (H1 : forall n, n ∈ l1 -> exp_of m' n = exp_of m n).
  { intros n Hn. rewrite He by set_solver +Hn. rewrite bool_decide_false; [lia|].
    intros E. apply (Hdis n Hn). symmetry in E. apply head_Some_elem_of in E. set_solver +E. }
  assert (Heq : deadlines m' 0 (l1 ++ l2) =
                filter (fun d => d.1 <> t) (deadlines m 0 (l1 ++ t :: l2))).
  { rewrite !deadlines_app, filter_app. f_equal.
    - rewrite filter_none by (apply Hnt; set_solver +Hdis). by apply deadlines_ext.
    - cbn [deadlines]. rewrite filter_cons_False by (cbn; naive_solver).
      rewrite filter_none by (by apply Hnt). rewrite (dsum_ext m m') by done.
      destruct l2 as [|n l2]; [done|]. cbn. rewrite He by set_solver +.
      rewrite bool_decide_true by done.
      replace (_ + (exp_of m n + _)) with (0 + dsum m l1 + exp_of m t + exp_of m n) by lia.
      f_equal. apply deadlines_ext. intros q Hq. rewrite He by set_solver +Hq.
      rewrite bool_decide_false; [lia|]. apply NoDup_cons in Hnd2 as [Hn _]. naive_solver. }
  split; [done|]. apply timers_wf_intro.
  - apply NoDup_app. split_and!; [done|set_solver +Hdis|done].
  - intros q Hq. apply Hal. destruct (tw_alloc _ _ Hwf q) as (y&?&_); [set_solver +Hq|eauto].
  - intros q Hq. rewrite He by done. assert (0 <= exp_of m q) by (eapply wf_exp; [done|set_solver +Hq]).
    assert (0 <= exp_of m t) by (eapply wf_exp; [done|set_solver +]). case_bool_decide; lia.
  - rewrite Heq. apply Forall_forall. intros d [_ Hd]%list_elem_of_filter.
    by eapply (proj1 (Forall_forall _ _) (tw_bound _ _ Hwf)).
Qed.

Lemma wp_del_timer s t (Q : () -> kstate -> Prop) :
  timers_wf (timers s) (timer_list s) ->
  (forall s', del_timer_post s t s' -> Q () s') -> wp (del_timer t) Q s.
Proof.
  intros Hwf HQ. unfold del_timer. ksteps. apply wp_when_dec.
  2:{ intros Hnt. apply HQ. split_and!; [|done|done|done]. symmetry. apply filter_none, Forall_forall.
      intros d Hd <-. by apply Hnt, (deadlines_in (timers s) 0). }
  intros Hin. destruct (wf_lookup _ _ _ Hwf Hin) as (x&Hx&Hb).
  apply list_elem_of_split in Hin as (l1&l2&El). rewrite El in Hwf.
  pose proof (tw_nodup _ _ Hwf) as (_&Hdis&Ht)%NoDup_app.
  apply NoDup_cons in Ht as [Ht _].
  assert (Ht1 : t ∉ l1) by set_solver +Hdis.
  pose proof (exp_of_Some _ _ _ Hx) as Ex.
  assert (Hfin : forall m', (forall n, n ∈ l1 ++ l2 -> exp_of m' n = exp_of (timers s) n +
       if bool_decide (Some n = head l2) then exp_of (timers s) t else 0) ->
     (forall n, is_Some (timers s !! n) -> is_Some (m' !! n)) ->
     same_procs_of_timers (timers s) m' -> Q () (set_timer_list (l1 ++ l2) (set_timers m' s))).
  { intros m' H1 H2 H3. destruct (deadlines_del _ m' _ _ _ Hwf H1 H2) as [H4 H5].
    apply HQ. unfold del_timer_post, state_deadlines. cbn. by rewrite El. }
  assert (Hsame : (forall n, n ∈ l1 ++ l2 -> exp_of (timers s) n = exp_of (timers s) n +
       if bool_decide (Some n = head l2) then exp_of (timers s) t else 0) ->
     Q () (set_timer_list (l1 ++ l2) s)).
  { intros H. specialize (Hfin (timers s) H). replace (set_timers (timers s) s) with s in Hfin
      by (by destruct s). by apply Hfin. }
  kstep. eapply wp_timer_at; [done|]. kstep. apply wp_when_dec; intros H0.
  - rewrite El, next_of_split by done. destruct l2 as [|n l2]; cbn [head].
    + apply wp_ret, wp_modify. rewrite list_remove_one_split by done.
      apply Hsame. intros q _. case_bool_decide; [done|lia].
    + destruct (wf_lookup _ _ n Hwf) as (y&Hy&Hyb); [set_solver +|].
      kstep. eapply wp_timer_at; [done|]. eapply wp_set_expires; [done|]. apply wp_modify.
      rewrite list_remove_one_split by done.
      pose proof (wf_dsum (timers s) (l1 ++ [t]) n l2) as Hs. rewrite <-app_assoc, dsum_app in Hs.
      destruct (Hs Hwf) as [_ Hs2]. cbn in Hs2. pose proof (exp_of_Some _ _ _ Hy) as Ey.
      assert (0 <= dsum (timers s) l1) by (eapply wf_dsum; done).
      rewrite uwrap_small by lia. apply Hfin.
      * intros q Hq. destruct (decide (q = n)) as [->|Hqn].
        -- rewrite exp_of_insert, bool_decide_true by done. cbn. lia.
        -- rewrite exp_of_insert_ne by done. rewrite bool_decide_false by (cbn; congruence). lia.
      * intros q. rewrite lookup_insert_is_Some. destruct (decide (n = q)); eauto.
      * intros q. rewrite lookup_insert. case_decide; [|done]. subst. by rewrite Hy.
  - apply dec_stable in H0. apply wp_modify. rewrite El, list_remove_one_split by done.
    apply Hsame. intros q _. case_bool_decide; lia.
Qed.

(** ** A clock tick *)

Section tick.
Context (sc : sched_class) `{!SchedPolicy sc}.
Implicit Types (s : kstate).

Lemma wp_proc_tick s (Q : () -> kstate -> Prop) :
  sched_inv sc s ->
  (forall r, sched_inv sc (set_sch r s) -> same_life (sch s) r -> Q () (set_sch r s)) ->
  wp (sched_class_proc_tick sc (current s)) Q s.
Proof.
  intros Hi HQ. unfold sched_class_proc_tick, in_sch.
  assert (Hfin : forall r, policy_inv r -> queued r = queued (sch s) -> same_life (sch s) r ->
    Q () (set_sch r s)).
  { intros r H1 H2 H3. apply HQ; [|done]. split; cbn [sch set_sch current idleproc].
    - done.
    - rewrite H2. apply Hi.
    - intros q. rewrite H2, (si_queued _ _ Hi). unfold runnable. cbn. by rewrite H3.
    - eapply same_life_alloc; [done|]. apply Hi.
    - eapply same_life_alloc; [done|]. apply Hi.
    - eapply same_life_null; [done|]. apply Hi. }
  ksteps. case_bool_decide; kstep.
  - eapply wp_mono; [apply tick_law; [apply Hi|apply Hi|]|].
    + rewrite (si_queued _ _ Hi). naive_solver.
    + intros [] r (?&?&?). by apply Hfin.
  - apply (wp_proc_upd_neutral sc); [apply Hi|apply Hi|done|done].
Qed.

(** A process that an expired timer may wake. *)
Definition wakeable (r : rqs) (p : pptr) : Prop := exists st ws,
  life r p = Some (st, ws) /\ st <> PROC_ZOMBIE /\ (ws = 0 \/ Z.land ws WT_INTERRUPTED <> 0).

(** The processes of the timers whose deadline is [k]. *)
Definition due (s : kstate) (k : Z) (p : pptr) : Prop := exists t,
  (t, k) ∈ state_deadlines s /\ tproc <$> timers s !! t = Some p.

(** The effect of the expirations on the processes. *)
Definition woken (s : kstate) (k : Z) (r : rqs) : Prop := forall p,
  (due s k p -> exists ws, life r p = Some (PROC_RUNNABLE, ws)) /\
  (life r p = life (sch s) p \/ due s k p).

Lemma deadlines_pos m l : timers_wf m l -> Forall (fun d => 0 <= d.2) (deadlines m 0 l).
Proof. intros H. apply deadlines_ge. intros. by eapply wf_exp. Qed.

Lemma timers_wf_tail m t l : timers_wf m (t :: l) -> exp_of m t = 0 -> timers_wf m l.
Proof.
  intros H E. pose proof (tw_bound _ _ H) as Hb. cbn in Hb. rewrite E in Hb.
  apply Forall_cons in Hb as [_ Hb]. split; [by eapply NoDup_cons, H| |done].
  intros q Hq. apply (tw_alloc _ _ H). set_solver +Hq.
Qed.

(** Nothing is due: the expirations change nothing. *)
Lemma nothing_due s t rest (Q : () -> kstate -> Prop) :
  timer_list s = t :: rest -> timers_wf (timers s) (timer_list s) -> 0 < exp_of (timers s) t ->
  sched_inv sc s ->
  (forall r l, sched_inv sc (set_sch r s) -> timers_wf (timers s) l ->
     deadlines (timers s) 0 l = filter (fun d => d.2 <> 0) (state_deadlines s) ->
     woken s 0 r -> Q () (set_timer_list l (set_sch r s))) -> Q () s.
Proof.
  intros El Hwf He Hi HQ.
  assert (Hpos : Forall (fun d => d.2 <> 0) (state_deadlines s)).
  { unfold state_deadlines. rewrite El. cbn. constructor; [cbn; lia|].
    eapply Forall_impl; [apply deadlines_ge; intros; eapply wf_exp; [done|rewrite El; set_solver]|].
    cbn. intros ? ?. lia. }
  replace s with (set_timer_list (timer_list s) (set_sch (sch s) s)) by (by destruct s).
  apply HQ; [by destruct s|done|by rewrite filter_none|].
  intros p. split; [|by left]. intros (q&Hq&_).
  by rewrite Forall_forall in Hpos; apply Hpos in Hq.
Qed.

Lemma wp_run_expired t rest s (Q : () -> kstate -> Prop) :
  sched_inv sc s -> timers_wf (timers s) (timer_list s) -> timer_list s = t :: rest ->
  (forall p, due s 0 p -> wakeable (sch s) p) ->
  (forall r l, sched_inv sc (set_sch r s) -> timers_wf (timers s) l ->
     deadlines (timers s) 0 l = filter (fun d => d.2 <> 0) (state_deadlines s) ->
     woken s 0 r -> Q () (set_timer_list l (set_sch r s))) ->
  wp (run_expired sc t rest) Q s.
Proof.
  revert t s Q. induction rest as [|t' rest IH]; intros t s Q Hi Hwf El Hw HQ.
  all: rewrite El in Hwf; destruct (wf_lookup _ _ t Hwf) as (x&Hx&Hb); [set_solver +|].
  all: pose proof (exp_of_Some _ _ _ Hx) as Ex.
  all: cbn [run_expired]; kstep; (eapply wp_timer_at; [done|]); apply wp_when_dec; intros He.
  (* the first count is not zero: no timer is due *)
  2,4: rewrite <-El in Hwf; apply (nothing_due s t _ Q El Hwf); [lia|done..].
  (* one expiration *)
  all: assert (Hdue : due s 0 (tproc x))
    by (exists t; unfold state_deadlines; rewrite El, Hx; cbn; rewrite Ex, He; split; [set_solver +|done]).
  all: destruct (Hw _ Hdue) as (st&ws&Hl&Hz&Hws); pose proof Hl as (y&Hy&[= Hst Hws'])%fmap_Some.
  all: kstep; unfold in_sch; kstep; (eapply wp_proc_at; [done|]);
    replace (set_sch (sch s) s) with s by (by destruct s); kstep.
  all: eapply (wp_mono _ (fun _ s' => s' = s));
    [apply wp_when_dec; [intros Hn; apply wp_assert; [|done];
       apply bool_decide_eq_true; rewrite <-Hws' in *; naive_solver|done]|intros [] ? ->].
  all: kstep; apply (wp_wakeup_proc sc s _ st ws); [done|done|done|]; intros r Hir Hlr.
  all: kstep; unfold del_timer; ksteps; cbn [timer_list set_sch]; rewrite El;
    rewrite bool_decide_true by set_solver +; cbn [when]; kstep; (eapply wp_timer_at; [done|]);
    rewrite (bool_decide_false _ (fun H => H He)); cbn [when]; ksteps;
    cbn [list_remove_one]; rewrite bool_decide_true by done.
  all: assert (Hdl : state_deadlines s = (t, 0) :: deadlines (timers s) 0 (tail (timer_list s)))
    by (unfold state_deadlines; rewrite El; cbn; by rewrite Ex, He).
  all: rewrite El in Hdl; cbn [tail] in Hdl.
  all: pose proof (timers_wf_tail _ _ _ Hwf (eq_trans Ex He)) as Hwf'.
  - apply HQ; [done|done|by rewrite Hdl, filter_cons_False by (cbn; naive_solver)|].
    intros p. rewrite Hlr. split.
    + intros (q&Hq&Hqp). rewrite Hdl in Hq. apply list_elem_of_singleton in Hq as [= ->].
      rewrite Hx in Hqp. injection Hqp as <-. rewrite decide_True by done. eauto.
    + destruct (decide (p = tproc x)) as [->|]; [by right|by left].
  - set (s1 := set_timer_list (t' :: rest) (set_sch r s)).
    assert (Hdue1 : forall p, due s 0 p <-> p = tproc x \/ due s1 0 p).
    { intros p. unfold due. rewrite Hdl. unfold state_deadlines, s1.
      cbn [timers timer_list set_timer_list set_sch]. split.
      - intros (q&Hq&Hqp). apply elem_of_cons in Hq as [[= ->]|Hq]; [|eauto].
        rewrite Hx in Hqp. injection Hqp as <-. by left.
      - intros [->|(q&Hq&Hqp)]; [exists t; rewrite Hx|exists q];
          (split; [apply elem_of_cons; auto|done]). }
    apply (IH t' s1).
    + destruct Hir; by split.
    + done.
    + done.
    + intros p Hp. unfold wakeable. cbn [sch s1 set_timer_list set_sch]. rewrite Hlr.
      destruct (decide (p = tproc x)) as [->|Hne].
      * eexists _, _. split; [done|]. split; [done|]. case_decide; [|by left]. naive_solver.
      * apply Hw, Hdue1. by right.
    + intros r' l Hir' Hwl Hdl' Hwk. change (set_timer_list l (set_sch r' s1))
        with (set_timer_list l (set_sch r' s)).
      apply HQ; [destruct Hir'; by split|done| |].
      * rewrite Hdl, filter_cons_False by (cbn; naive_solver). exact Hdl'.
      * intros p. destruct (Hwk p) as [Hw1 Hw2]. cbn [sch s1 set_timer_list set_sch] in Hw2.
        rewrite Hlr in Hw2. rewrite Hdue1. split.
        -- intros [->|Hd]; [|by apply Hw1]. destruct Hw2 as [Hw2|Hd]; [|by apply Hw1].
           rewrite decide_True in Hw2 by done. eauto.
        -- destruct (decide (p = tproc x)) as [->|]; [by right; left|naive_solver].
Qed.

Lemma deadlines_shift m b l :
  deadlines m (b - 1) l = (fun d => (d.1, d.2 - 1)) <$> deadlines m b l.
Proof.
  revert b. induction l as [|t l IH]; intros b; cbn; [done|].
  replace (b - 1 + exp_of m t) with (b + exp_of m t - 1) by lia. by rewrite IH.
Qed.

Lemma filter_tick (l : list (tptr * Z)) :
  filter (fun d => d.2 <> 0) ((fun d => (d.1, d.2 - 1)) <$> l) =
  (fun d => (d.1, d.2 - 1)) <$> filter (fun d => d.2 <> 1) l.
Proof.
  induction l as [|d l IH]; [done|]. rewrite fmap_cons, !filter_cons, IH. cbn [fst snd].
  do 2 case_decide; [done|lia|lia|done].
Qed.

Definition tick_post (s s' : kstate) : Prop :=
  sched_inv sc s' /\ timers_wf (timers s') (timer_list s') /\
  state_deadlines s' = (fun d => (d.1, d.2 - 1)) <$> filter (fun d => d.2 <> 1) (state_deadlines s) /\
  woken s 1 (sch s').

Lemma wp_end_of_tick s r l m (Q : () -> kstate -> Prop) :
  sched_inv sc (set_sch r s) -> timers_wf m l ->
  deadlines m 0 l = (fun d => (d.1, d.2 - 1)) <$> filter (fun d => d.2 <> 1) (state_deadlines s) ->
  woken s 1 r -> (forall s', tick_post s s' -> Q () s') ->
  wp (s ← get; sched_class_proc_tick sc (current s)) Q (set_timer_list l (set_sch r (set_timers m s))).
Proof.
  intros Hi Hwf Hd Hw HQ. ksteps. apply wp_proc_tick; [destruct Hi; by split|].
  intros r' Hi' Hl'. apply HQ. split_and!; [done|done|done|].
  intros p. cbn [sch set_sch]. rewrite Hl'. cbn [sch set_sch set_timer_list]. apply Hw.
Qed.

Lemma wp_run_timer_list s (Q : () -> kstate -> Prop) :
  sched_inv sc s -> timers_wf (timers s) (timer_list s) ->
  Forall (fun d => 0 < d.2) (state_deadlines s) ->
  (forall p, due s 1 p -> wakeable (sch s) p) ->
  (forall s', tick_post s s' -> Q () s') -> wp (run_timer_list sc) Q s.
Proof.
  intros Hi Hwf Hpos Hw HQ. unfold run_timer_list. ksteps.
  destruct (timer_list s) as [|t rest] eqn:El.
  { apply wp_ret. replace s with (set_timer_list [] (set_sch (sch s) (set_timers (timers s) s)))
      by (rewrite <-El; by destruct s).
    apply wp_end_of_tick; [by destruct s|done|unfold state_deadlines; by rewrite El| |done].
    intros p. split; [|by left]. intros (q&Hq&_). unfold state_deadlines in Hq. rewrite El in Hq.
    set_solver +Hq. }
  destruct (wf_lookup _ _ t Hwf) as (x&Hx&Hb); [set_solver +|].
  pose proof (exp_of_Some _ _ _ Hx) as Ex.
  unfold state_deadlines in Hpos. rewrite El in Hpos. cbn in Hpos.
  apply Forall_cons in Hpos as [Hp _]. cbn in Hp.
  pose proof (tw_nodup _ _ Hwf) as [Htr _]%NoDup_cons.
  kstep. eapply wp_timer_at; [done|]. kstep. kstep; [apply bool_decide_eq_true; lia|].
  kstep. eapply wp_set_expires; [done|]. rewrite uwrap_small by lia.
  set (m := <[t:=_]> (timers s)).
  assert (Hd : deadlines m 0 (t :: rest) = (fun d => (d.1, d.2 - 1)) <$> state_deadlines s).
  { unfold state_deadlines. rewrite El. cbn.
    assert (exp_of m t = expires x - 1) as -> by apply exp_of_insert.
    replace (0 + exp_of (timers s) t) with (expires x) by lia.
    replace (0 + (expires x - 1)) with (expires x - 1) by lia. f_equal.
    rewrite <-deadlines_shift. apply deadlines_ext. intros q Hq. apply exp_of_insert_ne. set_solver. }
  assert (Hwf1 : timers_wf m (t :: rest)).
  { apply timers_wf_intro; [apply Hwf| | |].
    - intros q Hq. apply lookup_insert_is_Some. destruct (decide (t = q)); [by left|right].
      split; [done|]. destruct (tw_alloc _ _ Hwf q Hq) as (?&?&_). eauto.
    - intros q Hq. destruct (decide (t = q)) as [<-|]; [unfold m; rewrite exp_of_insert; cbn; lia|].
      unfold m. rewrite exp_of_insert_ne by done. by eapply wf_exp.
    - rewrite Hd. apply Forall_fmap. unfold state_deadlines. rewrite El.
      eapply Forall_impl; [apply (tw_bound _ _ Hwf)|]. cbn. intros d ?. lia. }
  assert (Hdue : forall p, due (set_timers m s) 0 p <-> due s 1 p).
  { assert (Hin : forall q, (q, 0) ∈ (fun d : tptr * Z => (d.1, d.2 - 1)) <$> state_deadlines s
                    <-> (q, 1) ∈ state_deadlines s).
    { intros q. rewrite list_elem_of_fmap. split.
      - intros ([q' k]&[= -> ?]&?). by replace 1 with k by lia.
      - intros H. by exists (q, 1). }
    assert (Htp : forall q, tproc <$> m !! q = tproc <$> timers s !! q).
    { intros q. unfold m. rewrite lookup_insert. case_decide; [|done]. subst. by rewrite Hx. }
    intros p. unfold due, state_deadlines at 1. cbn [timers timer_list set_timers].
    rewrite El, Hd. by setoid_rewrite Hin; setoid_rewrite Htp. }
  apply wp_run_expired; [destruct Hi; by split|by cbn [timers timer_list set_timers]; rewrite El|done| |].
  { intros p Hp'. by apply Hw, Hdue. }
  intros r l Hir Hwl Hdl Hwk. apply wp_end_of_tick; [destruct Hir; by split|done| | |done].
  - cbn [timers set_timers] in Hdl. rewrite Hdl. unfold state_deadlines at 1.
    cbn [timers timer_list set_timers]. by rewrite El, Hd, filter_tick.
  - intros p. destruct (Hwk p). by rewrite <-Hdue.
Qed.
End tick.

(** ** The properties *)

(** [add_timer] inserts a timer that is to end in [e] ticks into
    the sorted list of deadlines, after those that end no later, and changes no
    other deadline, although it rewrites the relative counts. *)
Theorem add_timer_spec s t x :
  timers_wf (timers s) (timer_list s) -> timers s !! t = Some x -> t ∉ timer_list s ->
  0 < expires x < 2 ^ 32 -> tproc x <> 0 ->
  wp (add_timer t) (fun _ s' =>
    (exists pre post, state_deadlines s = pre ++ post /\
       state_deadlines s' = pre ++ (t, expires x) :: post /\
       Forall (fun d => d.2 <= expires x) pre /\ Forall (fun d => expires x < d.2) post) /\
    timers_wf (timers s') (timer_list s') /\
    same_procs_of_timers (timers s) (timers s') /\ sch s' = sch s) s.
Proof. intros ????? . eapply wp_add_timer; [eassumption..|]. intros s' Hp. exact Hp. Qed.

(** [del_timer] removes the deadline of its timer, if it is
    pending, and keeps every other deadline where it was. *)
Theorem del_timer_spec s t :
  timers_wf (timers s) (timer_list s) ->
  wp (del_timer t) (fun _ s' =>
    state_deadlines s' = filter (fun d => d.1 <> t) (state_deadlines s) /\
    timers_wf (timers s') (timer_list s') /\
    same_procs_of_timers (timers s) (timers s') /\ sch s' = sch s) s.
Proof. intros. apply wp_del_timer; [assumption|]. intros s' Hp. exact Hp. Qed.

(** Property C28. One clock tick lowers every deadline by one, takes the timers
    that reach zero off the list, makes exactly their processes runnable, and
    keeps the scheduler's invariant. *)
Theorem run_timer_list_spec sc `{!SchedPolicy sc} s :
  sched_inv sc s -> timers_wf (timers s) (timer_list s) ->
  Forall (fun d => 0 < d.2) (state_deadlines s) ->
  (forall p, due s 1 p -> wakeable (sch s) p) ->
  wp (run_timer_list sc) (fun _ s' =>
    sched_inv sc s' /\ timers_wf (timers s') (timer_list s') /\
    state_deadlines s' = (fun d => (d.1, d.2 - 1)) <$> filter (fun d => d.2 <> 1) (state_deadlines s) /\
    woken s 1 (sch s')) s.
Proof. intros. apply (wp_run_timer_list sc); [assumption..|]. intros s' Hp. exact Hp. Qed.
