(* ===== verification/RoundRobin.v ===== *)
(** kern/schedule/default_sched.c: the round-robin policy.  It discharges the
    interface [SchedPolicy] of the scheduler core; the theorems about [schedule]
    and the timer tick are instantiated with it here, and the rotation of the
    queue and the length of a time slice are stated of the policy itself. *)
From S2P Require Import Prelude SkewHeap Sched Timer.

(** ** Operations *)

Definition RR_init : K rqs () :=
  modify (fun s => set_rq (mk_rq [] 0 (max_time_slice (rq s)) 0) s).

(** [list_empty(&(proc->run_link))]: the process is on no list. *)
Definition RR_enqueue (p : pptr) : K rqs () :=
  s ← get;
  assert (bool_decide (p ∉ run_list (rq s)));;
  x ← proc_at p;
  assert (negb (on_rq x));;
  when ((time_slice x <=? 0) || (time_slice x >? max_time_slice (rq s)))
    (proc_upd p (set_time_slice (max_time_slice (rq s))));;
  proc_upd p (set_on_rq true);;
  modify (fun s => set_rq (mk_rq (run_list (rq s)) (u32 (proc_num (rq s) + 1))
                             (max_time_slice (rq s)) (lab6_run_pool (rq s))) s);;
  modify (fun s => set_rq (mk_rq (run_list (rq s) ++ [p]) (proc_num (rq s))
                             (max_time_slice (rq s)) (lab6_run_pool (rq s))) s).

Definition RR_dequeue (p : pptr) : K rqs () :=
  x ← proc_at p;
  assert (on_rq x);;
  s ← get;
  assert (bool_decide (p ∈ run_list (rq s)));;
  modify (fun s => set_rq (mk_rq (list_remove_one p (run_list (rq s))) (proc_num (rq s))
                             (max_time_slice (rq s)) (lab6_run_pool (rq s))) s);;
  proc_upd p (set_on_rq false);;
  modify (fun s => set_rq (mk_rq (run_list (rq s)) (u32 (proc_num (rq s) - 1))
                             (max_time_slice (rq s)) (lab6_run_pool (rq s))) s).

Definition RR_pick_next : K rqs (option pptr) :=
  s ← get; mret (head (run_list (rq s))).

Definition RR_proc_tick (p : pptr) : K rqs () :=
  x ← proc_at p;
  when (time_slice x >? 0) (proc_upd p (set_time_slice (time_slice x - 1)));;
  x ← proc_at p;
  when (bool_decide (time_slice x = 0)) (proc_upd p (set_need_resched true)).

Definition default_sched_class : sched_class :=
  mk_class RR_init RR_enqueue RR_dequeue RR_pick_next RR_proc_tick.

(** ** The invariant of the queue *)

Record RR_inv (s : rqs) : Prop := {
  rr_nodup : NoDup (run_list (rq s));
  rr_rq p x : procs s !! p = Some x -> on_rq x = bool_decide (p ∈ run_list (rq s));
  rr_alloc p : p ∈ run_list (rq s) -> is_Some (procs s !! p);
  rr_num : proc_num (rq s) = u32 (Z.of_nat (length (run_list (rq s))));
}.

Lemma same_life_insert r r' p x y :
  procs r !! p = Some x -> procs r' = <[p := y]> (procs r) ->
  state y = state x -> wait_state y = wait_state x -> same_life r r'.
Proof.
  intros Hx E H1 H2 q. unfold life. rewrite E, lookup_insert. case_decide; [|done]. subst.
  rewrite Hx. cbn. by rewrite H1, H2.
Qed.

(** What [RR_enqueue] does to the process it queues. *)
Definition slice_on_enqueue (max ts : Z) : Z :=
  if (ts <=? 0) || (ts >? max) then max else ts.

Lemma wp_RR_enqueue s p x (Q : () -> rqs -> Prop) :
  RR_inv s -> procs s !! p = Some x -> p ∉ run_list (rq s) ->
  (forall s', RR_inv s' -> same_life s s' ->
     procs s' = <[p := set_on_rq true (set_time_slice (slice_on_enqueue (max_time_slice (rq s)) (time_slice x)) x)]> (procs s) ->
     run_list (rq s') = run_list (rq s) ++ [p] -> max_time_slice (rq s') = max_time_slice (rq s) ->
     Q () s') ->
  wp (RR_enqueue p) Q s.
Proof.
  intros Hi Hx Hp HQ. unfold RR_enqueue. ksteps; [by rewrite bool_decide_true|].
  eapply wp_proc_at; [done|]. kstep. kstep.
  { rewrite (rr_rq _ Hi _ _ Hx), bool_decide_false by done. done. }
  set (y := set_time_slice (slice_on_enqueue (max_time_slice (rq s)) (time_slice x)) x).
  kstep. eapply (wp_mono _ (fun _ s' => s' = set_procs (<[p := y]> (procs s)) s)).
  { unfold y, slice_on_enqueue. apply wp_when; intros ->; [by eapply wp_proc_upd|].
    replace (set_time_slice (time_slice x) x) with x by (by destruct x).
    rewrite insert_id by done. by destruct s. }
  intros [] ? ->. kstep. eapply wp_proc_upd; [apply lookup_insert_eq|]. ksteps.
  cbn [procs set_procs set_rq]. rewrite insert_insert_eq. apply HQ; [|by eapply same_life_insert|done..].
  split; cbn.
  - apply NoDup_app. split_and!; [apply Hi|set_solver +Hp|apply NoDup_singleton].
  - intros q z. rewrite lookup_insert. case_decide as E; [intros [= <-]|intros Hz].
    + cbn. subst q. rewrite bool_decide_true; [done|set_solver +].
    + rewrite (rr_rq _ Hi _ _ Hz). apply bool_decide_ext. set_solver +E.
  - intros q Hq. apply lookup_insert_is_Some.
    destruct (decide (p = q)); [by left|right]. split; [done|]. apply Hi. set_solver.
  - rewrite (rr_num _ Hi), uwrap_add_l, length_app. cbn. f_equal. lia.
Qed.

Lemma list_remove_one_perm t l : t ∈ l -> t :: list_remove_one t l ≡ₚ l.
Proof.
  induction l as [|y l IH]; intros H; [set_solver +H|]. cbn. case_bool_decide; [by subst|].
  rewrite Permutation_swap, IH; [done|set_solver].
Qed.

Lemma wp_RR_dequeue s p (Q : () -> rqs -> Prop) :
  RR_inv s -> p ∈ run_list (rq s) ->
  (forall s', RR_inv s' -> same_life s s' -> run_list (rq s') = list_remove_one p (run_list (rq s)) ->
     (forall q x, procs s !! q = Some x -> procs s' !! q = Some (if decide (q = p) then set_on_rq false x else x)) ->
     max_time_slice (rq s') = max_time_slice (rq s) -> Q () s') ->
  wp (RR_dequeue p) Q s.
Proof.
  intros Hi Hp HQ. destruct (rr_alloc _ Hi p Hp) as [x Hx]. unfold RR_dequeue.
  kstep. eapply wp_proc_at; [done|]. kstep. kstep.
  { by rewrite (rr_rq _ Hi _ _ Hx), bool_decide_true. }
  ksteps; [by rewrite bool_decide_true|]. eapply wp_proc_upd; [done|]. ksteps.
  pose proof (list_remove_one_perm _ _ Hp) as Hperm.
  pose proof (rr_nodup _ Hi) as Hnd. rewrite <-Hperm in Hnd. apply NoDup_cons in Hnd as [Hpn Hnd].
  assert (Hin : forall q, q ∈ run_list (rq s) <-> q = p \/ q ∈ list_remove_one p (run_list (rq s))).
  { intros q. rewrite <-Hperm at 1. apply elem_of_cons. }
  apply HQ; [|by eapply same_life_insert|done| |done].
  - split; cbn.
    + done.
    + intros q z. rewrite lookup_insert. case_decide as E; [intros [= <-]|intros Hz].
      * subst q. by rewrite bool_decide_false.
      * rewrite (rr_rq _ Hi _ _ Hz). apply bool_decide_ext. rewrite Hin. naive_solver.
    + intros q Hq. apply lookup_insert_is_Some. destruct (decide (p = q)); [by left|right].
      split; [done|]. apply Hi, Hin. by right.
    + apply Permutation_length in Hperm. cbn [length] in Hperm. rewrite (rr_num _ Hi).
      rewrite <-Z.add_opp_r, uwrap_add_l. f_equal. lia.
  - intros q y Hq. cbn. rewrite lookup_insert. do 2 case_decide; naive_solver.
Qed.

Lemma wp_RR_proc_tick s p x (Q : () -> rqs -> Prop) :
  procs s !! p = Some x ->
  (let ts := if time_slice x >? 0 then time_slice x - 1 else time_slice x in
   Q () (set_procs (<[p := set_need_resched (if bool_decide (ts = 0) then true else need_resched x)
                             (set_time_slice ts x)]> (procs s)) s)) ->
  wp (RR_proc_tick p) Q s.
Proof.
  cbv zeta. intros Hx HQ. unfold RR_proc_tick. kstep. eapply wp_proc_at; [done|]. kstep.
  set (ts := if time_slice x >? 0 then _ else _) in *.
  eapply (wp_mono _ (fun _ s' => s' = set_procs (<[p := set_time_slice ts x]> (procs s)) s)).
  { unfold ts. apply wp_when; intros ->; [by eapply wp_proc_upd|].
    replace (set_time_slice (time_slice x) x) with x by (by destruct x).
    rewrite insert_id by done. by destruct s. }
  intros [] ? ->. kstep. eapply wp_proc_at; [apply lookup_insert_eq|].
  apply wp_when; cbn [time_slice set_time_slice]; intros E; rewrite E in HQ.
  - eapply wp_proc_upd; [apply lookup_insert_eq|]. cbn [procs set_procs].
    rewrite insert_insert_eq. exact HQ.
  - exact HQ.
Qed.

(** ** Round robin is a scheduling policy *)

#[export] Program Instance RR_policy : SchedPolicy default_sched_class := {|
  queued s := run_list (rq s);
  policy_inv := RR_inv;
|}.
Next Obligation.
  intros s p Hi [x Hx] _ Hp. cbn. eapply wp_RR_enqueue; [done..|]. intros s' Hi' Hl _ -> _.
  split_and!; [done| |done]. by rewrite Permutation_app_comm.
Qed.
Next Obligation.
  intros s p Hi Hp. cbn. eapply wp_RR_dequeue; [done..|]. intros s' Hi' Hl -> _ _.
  split_and!; [done| |done]. by apply list_remove_one_perm.
Qed.
Next Obligation.
  intros s Hi. cbn. unfold RR_pick_next. ksteps. split_and!; [done..|].
  destruct (run_list (rq s)); [done|]. set_solver +.
Qed.
Lemma RR_inv_neutral s p x y :
  RR_inv s -> procs s !! p = Some x -> on_rq y = on_rq x -> RR_inv (set_procs (<[p := y]> (procs s)) s).
Proof.
  intros Hi Hx Hy. split; cbn; [apply Hi| | |apply Hi].
  - intros q z. rewrite lookup_insert. case_decide; [intros [= <-]; subst|]; [rewrite Hy|]; by apply Hi.
  - intros q Hq. apply lookup_insert_is_Some. destruct (decide (p = q)); [by left|right].
    split; [done|by apply Hi].
Qed.
Next Obligation.
  intros s p Hi [x Hx] Hp. cbn. eapply wp_RR_proc_tick; [done|]. cbv zeta.
  split_and!; [by eapply RR_inv_neutral|done|].
  by eapply same_life_insert.
Qed.
Next Obligation.
  intros s p f x Hi Hx Hf. cbn. split; [|done]. eapply RR_inv_neutral; [done..|]. apply Hf.
Qed.

Next Obligation.
  intros s p x e Hi Hp Hx. cbn. split; [|done].
  assert (Hn : p ∉ run_list (rq s)) by (intros [y Hy]%(rr_alloc _ Hi); congruence).
  split; cbn; [apply Hi| | |apply Hi].
  - intros q z. rewrite lookup_insert. case_decide; [intros [= <-]; subst|by apply Hi].
    by rewrite bool_decide_false.
  - intros q Hq. apply lookup_insert_is_Some'. right. by apply Hi.
Qed.
Next Obligation.
  intros s p Hi Hp. cbn in *. split; [|done]. split; cbn; [apply Hi| | |apply Hi].
  - intros q z [_ Hz]%lookup_delete_Some. by apply Hi.
  - intros q Hq. rewrite lookup_delete_ne by congruence. by apply Hi.
Qed.

(** ** Rotation *)
Lemma wp_RR_pick s (Q : option pptr -> rqs -> Prop) :
  Q (head (run_list (rq s))) s -> wp RR_pick_next Q s.
Proof. intros H. unfold RR_pick_next. by ksteps. Qed.

(** The queue and the running process after one [schedule]. *)
Lemma wp_schedule_RR s p l (Q : () -> kstate -> Prop) :
  sched_inv default_sched_class s -> runnable s (current s) -> current s <> idleproc s ->
  run_list (rq (sch s)) = p :: l ->
  (forall s', sched_inv default_sched_class s' -> current s' = p -> idleproc s' = idleproc s ->
     same_life (sch s) (sch s') -> run_list (rq (sch s')) = l ++ [current s] -> Q () s') ->
  wp (schedule default_sched_class) Q s.
Proof.
  intros Hi Hr Hc El HQ.
  eapply (wp_mono _ (fun _ s' => (sched_inv default_sched_class s' /\ same_life (sch s) (sch s') /\
      idleproc s' = idleproc s) /\ (current s' = p /\ run_list (rq (sch s')) = l ++ [current s])));
    [|intros [] s' ((?&?&?)&(?&?)); by apply HQ].
  apply wp_and.
  { apply (wp_schedule default_sched_class s); [done|]. intros r n ? ? _. done. }
  pose proof (si_policy _ _ Hi) as Hp. cbn in Hp.
  destruct (si_current _ _ Hi) as [c Hcur].
  assert (Hcq : current s ∉ run_list (rq (sch s))).
  { intros H. apply (si_queued _ _ Hi) in H. naive_solver. }
  assert (Hst : state c = PROC_RUNNABLE).
  { destruct Hr as [ws H]. unfold life in H. rewrite Hcur in H. by injection H. }
  assert (Hpc : p <> current s) by (rewrite El in Hcq; set_solver +Hcq).
  unfold schedule, in_sch. ksteps. eapply wp_proc_upd; [done|].
  kstep. kstep. cbn [sch set_sch]. eapply wp_proc_at; [apply lookup_insert_eq|].
  kstep. cbn [state set_need_resched]. rewrite bool_decide_true by done. cbn [when].
  unfold sched_class_enqueue. ksteps. cbn [idleproc set_sch]. rewrite bool_decide_true by done.
  cbn [when]. unfold in_sch. kstep. cbn [sch set_sch sc_enqueue default_sched_class].
  eapply wp_RR_enqueue; [by eapply RR_inv_neutral|apply lookup_insert_eq|done|].
  cbn [rq set_procs]. intros r1 Hi1 Hl1 Hm1 Hr1 _. rewrite El in Hr1.
  kstep. unfold sched_class_pick_next, in_sch. kstep. cbn [sch set_sch sc_pick_next default_sched_class].
  apply wp_RR_pick. rewrite Hr1. cbn [head app]. kstep.
  unfold sched_class_dequeue, in_sch. kstep. cbn [sch set_sch sc_dequeue default_sched_class].
  eapply wp_RR_dequeue; [done|rewrite Hr1; set_solver +|]. intros r2 Hi2 Hl2 Hr2 _ _.
  rewrite Hr1 in Hr2. cbn [list_remove_one app] in Hr2. rewrite bool_decide_true in Hr2 by done.
  cbn [default]. kstep. kstep. cbn [sch set_sch].
  destruct (same_life_alloc _ _ p Hl2) as [z Hz].
  { apply (rr_alloc _ Hi1). rewrite Hr1. set_solver +. }
  eapply wp_proc_at; [done|]. kstep. kstep. cbn [sch set_sch]. eapply wp_proc_upd; [done|].
  cbn [current set_sch]. rewrite (bool_decide_true (p <> current s)) by done. cbn [when].
  unfold proc_run. ksteps. cbn [current set_sch]. rewrite bool_decide_true by done. cbn [when].
  apply wp_modify. done.
Qed.

(** [n] calls of [schedule] in a row, as at the end of [n] time slices. *)
Fixpoint schedules (sc : sched_class) (n : nat) : K kstate () :=
  match n with O => mret () | S n => schedule sc;; schedules sc n end.

Lemma wp_schedules_RR l1 s p l2 (Q : () -> kstate -> Prop) :
  sched_inv default_sched_class s -> runnable s (current s) -> current s <> idleproc s ->
  run_list (rq (sch s)) = l1 ++ p :: l2 ->
  (forall s', sched_inv default_sched_class s' -> current s' = p ->
     run_list (rq (sch s')) = l2 ++ current s :: l1 -> Q () s') ->
  wp (schedules default_sched_class (S (length l1))) Q s.
Proof.
  revert s l2. induction l1 as [|q l1 IH]; intros s l2 Hi Hr Hc El HQ; cbn [length schedules].
  - kstep. eapply wp_schedule_RR; [done..|]. intros s' ?????. apply wp_ret. by apply HQ.
  - kstep. eapply wp_schedule_RR; [done..|]. intros s' Hi' Hc' Hid Hl El'. subst q.
    assert (Hq : current s' ∈ run_list (rq (sch s))) by (rewrite El; set_solver +).
    apply (si_queued _ _ Hi) in Hq as ([ws Hq]&Hq1&Hq2).
    rewrite <-app_assoc in El'. cbn [app] in El'.
    eapply (IH s' (l2 ++ [current s])); [done|exists ws; by rewrite Hl|congruence|done|].
    intros s2 ? ? E2. apply HQ; [done..|]. by rewrite E2, <-app_assoc.
Qed.

(** ** Time slices *)

Fixpoint RR_ticks (n : nat) (p : pptr) : K rqs () :=
  match n with O => mret () | S n => RR_proc_tick p;; RR_ticks n p end.

Lemma wp_RR_ticks n s p x (Q : () -> rqs -> Prop) :
  procs s !! p = Some x -> 0 < time_slice x ->
  (forall s' y, procs s' !! p = Some y -> time_slice y = Z.max 0 (time_slice x - Z.of_nat n) ->
     need_resched y = need_resched x || bool_decide (time_slice x <= Z.of_nat n) -> Q () s') ->
  wp (RR_ticks n p) Q s.
Proof.
  intros Hx Hpos HQ.
  assert (Hgen : forall n s y, procs s !! p = Some y -> 0 <= time_slice y ->
    (time_slice y = 0 -> need_resched y = true) ->
    wp (RR_ticks n p) (fun _ s' => exists z, procs s' !! p = Some z /\
       time_slice z = Z.max 0 (time_slice y - Z.of_nat n) /\
       need_resched z = need_resched y || bool_decide (time_slice y <= Z.of_nat n)) s).
  { clear. intros n. induction n as [|n IH]; intros s y Hy Hge Hz; cbn [RR_ticks].
    - apply wp_ret. exists y. split; [done|]. split; [lia|].
      case_bool_decide; [rewrite Hz by lia; done|by rewrite orb_false_r].
    - kstep. eapply wp_RR_proc_tick; [done|]. cbv zeta.
      set (ts := if time_slice y >? 0 then _ else _).
      assert (Ets : ts = Z.max 0 (time_slice y - 1)).
      { unfold ts. destruct (Z.gtb_spec (time_slice y) 0); lia. }
      eapply wp_mono; [eapply IH; [apply lookup_insert_eq|cbn; lia|]|].
      + cbn. intros ->. by rewrite bool_decide_true.
      + cbn. intros [] s' (z&?&Hs&Hn). exists z. split; [done|]. split; [lia|]. rewrite Hn.
        destruct (need_resched y); [by case_bool_decide|]. cbn.
        repeat case_bool_decide; try done; lia. }
  eapply wp_mono; [apply (Hgen n s x Hx); lia|]. intros [] s' (z&?&?&?). by eapply HQ.
Qed.

(** ** The properties *)

(** Property C32. Under round robin the ready queue rotates: with a running
    process that stays runnable, the process at position [n] of the queue runs
    after [n+1] calls of [schedule], the ones before it having moved behind the
    process that was running; no process can be overtaken. *)
Theorem RR_round_robin s l1 p l2 :
  sched_inv default_sched_class s -> runnable s (current s) -> current s <> idleproc s ->
  run_list (rq (sch s)) = l1 ++ p :: l2 ->
  wp (schedules default_sched_class (S (length l1))) (fun _ s' =>
    current s' = p /\ run_list (rq (sch s')) = l2 ++ current s :: l1 /\
    sched_inv default_sched_class s') s.
Proof. intros. eapply wp_schedules_RR; [done..|]. intros s' ???. done. Qed.

(** A process enters the queue at its tail with between one and
    [max_time_slice] ticks, keeping what was left of a slice it had not used up;
    while it runs, it is asked to give way at the tick that ends its slice and at
    none before. *)
Theorem RR_time_slice s p x n :
  RR_inv s -> procs s !! p = Some x -> p ∉ run_list (rq s) ->
  need_resched x = false -> 0 < max_time_slice (rq s) ->
  wp (RR_enqueue p;; RR_dequeue p;; RR_ticks n p) (fun _ s' => exists y,
    let slice := if decide (0 < time_slice x <= max_time_slice (rq s)) then time_slice x
                 else max_time_slice (rq s) in
    procs s' !! p = Some y /\ 1 <= slice <= max_time_slice (rq s) /\
    time_slice y = Z.max 0 (slice - Z.of_nat n) /\
    need_resched y = bool_decide (slice <= Z.of_nat n)) s.
Proof.
  intros Hi Hx Hp Hn Hm. kstep. eapply wp_RR_enqueue; [done..|]. intros s1 Hi1 _ Hpr Hl _.
  kstep. eapply wp_RR_dequeue; [done|rewrite Hl; set_solver +|]. intros s2 _ _ _ Hpr2 _.
  specialize (Hpr2 p _ ltac:(rewrite Hpr; apply lookup_insert_eq)).
  rewrite decide_True in Hpr2 by done.
  assert (Hs : slice_on_enqueue (max_time_slice (rq s)) (time_slice x) =
    if decide (0 < time_slice x <= max_time_slice (rq s)) then time_slice x
    else max_time_slice (rq s)).
  { unfold slice_on_enqueue. case_decide.
    - rewrite (proj2 (Z.leb_gt _ _)) by lia. destruct (Z.gtb_spec (time_slice x) (max_time_slice (rq s))); [lia|done].
    - destruct (Z.leb_spec (time_slice x) 0); [done|].
      destruct (Z.gtb_spec (time_slice x) (max_time_slice (rq s))); [done|lia]. }
  eapply wp_RR_ticks; [done|cbn; rewrite Hs; case_decide; lia|].
  intros s' y Hy Ht Hnr. exists y. cbn in Ht, Hnr. rewrite Hs in Ht, Hnr. rewrite Hn in Hnr.
  cbv zeta. split; [done|]. split; [case_decide; lia|]. by split.
Qed.

(** ** Witnesses: a machine with an idle process, a running process, two ready
    ones and a sleeper whose timer is about to end. *)

Definition ex_proc (st : proc_state) (ws : Z) (q : bool) (ts : Z) : proc :=
  mk_proc st ws false 0 q ts 0 0.
Definition ex_rqs : rqs := mk_rqs
  (<[1 := ex_proc PROC_RUNNABLE 0 false 5]> (<[2 := ex_proc PROC_RUNNABLE 0 false 2]>
   (<[3 := ex_proc PROC_RUNNABLE 0 true 5]> (<[4 := ex_proc PROC_RUNNABLE 0 true 0]>
   {[ 5 := ex_proc PROC_SLEEPING WT_TIMER false 0 ]})))) ∅ (mk_rq [3; 4] 2 MAX_TIME_SLICE 0).
Definition ex_state : kstate := mk_kst ex_rqs 2 1
  (<[7 := mk_timer 1 5]> {[ 8 := mk_timer 4 4 ]}) [7].

Lemma ex_procs p x : procs ex_rqs !! p = Some x ->
  (p = 1 /\ x = ex_proc PROC_RUNNABLE 0 false 5) \/ (p = 2 /\ x = ex_proc PROC_RUNNABLE 0 false 2) \/
  (p = 3 /\ x = ex_proc PROC_RUNNABLE 0 true 5) \/ (p = 4 /\ x = ex_proc PROC_RUNNABLE 0 true 0) \/
  (p = 5 /\ x = ex_proc PROC_SLEEPING WT_TIMER false 0).
Proof.
  unfold ex_rqs. cbn [procs]. rewrite !lookup_insert, lookup_singleton.
  repeat case_decide; intros [= <-]; naive_solver.
Qed.

Lemma ex_RR_inv : RR_inv ex_rqs.
Proof.
  split.
  - apply (bool_decide_unpack _). vm_compute. done.
  - intros p x Hx. apply ex_procs in Hx as [[-> ->]|[[-> ->]|[[-> ->]|[[-> ->]|[-> ->]]]]]; by vm_compute.
  - intros p Hp. cbn in Hp. apply elem_of_cons in Hp as [->|Hp]; [eexists; reflexivity|].
    apply list_elem_of_singleton in Hp as ->. eexists; reflexivity.
  - reflexivity.
Qed.

Lemma ex_sched_inv : sched_inv default_sched_class ex_state.
Proof.
  split; [apply ex_RR_inv|apply ex_RR_inv| |by eexists|by eexists|done].
  intros p. cbn [queued RR_policy ex_state sch rq ex_rqs run_list current idleproc].
  rewrite !elem_of_cons, elem_of_nil. unfold runnable, life. split.
  - intros [->|[->|[]]]; (split; [eexists; reflexivity|done]).
  - intros ([ws (x&Hx&Hst)%fmap_Some]&H2&H1). cbn [ex_state sch] in Hx.
    apply ex_procs in Hx as [[-> ->]|[[-> ->]|[[-> ->]|[[-> ->]|[-> ->]]]]]; naive_solver.
Qed.

Lemma schedule_spec_witness :
  sched_inv default_sched_class ex_state /\
  wp (schedule default_sched_class) (fun _ s' =>
    sched_inv default_sched_class s' /\ same_life (sch ex_state) (sch s') /\
    ((current s' = 1 /\ (forall q, runnable ex_state q -> q = 1)) \/
     (current s' <> 1 /\ runnable ex_state (current s')))) ex_state.
Proof. split; [exact ex_sched_inv|exact (schedule_spec default_sched_class ex_state ex_sched_inv)]. Defined.

Lemma wakeup_proc_spec_witness :
  life ex_rqs 5 = Some (PROC_SLEEPING, WT_TIMER) /\
  wp (wakeup_proc default_sched_class 5) (fun _ s' =>
    sched_inv default_sched_class s' /\ runnable s' 5 /\ current s' = 2 /\ idleproc s' = 1 /\
    (forall q, q <> 5 -> life (sch s') q = life ex_rqs q) /\
    (PROC_SLEEPING <> PROC_RUNNABLE -> life (sch s') 5 = Some (PROC_RUNNABLE, 0))) ex_state.
Proof.
  split; [reflexivity|].
  refine (wakeup_proc_spec default_sched_class ex_state 5 PROC_SLEEPING WT_TIMER ex_sched_inv _ _).
  - reflexivity.
  - discriminate.
Defined.

Lemma RR_round_robin_witness :
  wp (schedules default_sched_class 2) (fun _ s' =>
    current s' = 4 /\ run_list (rq (sch s')) = [2; 3] /\ sched_inv default_sched_class s') ex_state.
Proof.
  refine (RR_round_robin ex_state [3] 4 [] ex_sched_inv _ _ _).
  - exists 0. reflexivity.
  - discriminate.
  - reflexivity.
Defined.

Lemma RR_time_slice_witness :
  wp (RR_enqueue 2;; RR_dequeue 2;; RR_ticks 2 2) (fun _ s' => exists y,
    procs s' !! 2 = Some y /\ 1 <= 2 <= 5 /\ time_slice y = 0 /\ need_resched y = true) ex_rqs.
Proof.
  refine (RR_time_slice ex_rqs 2 (ex_proc PROC_RUNNABLE 0 false 2) 2 ex_RR_inv _ _ _ _).
  - reflexivity.
  - apply (bool_decide_unpack _). vm_compute. exact I.
  - reflexivity.
  - reflexivity.
Defined.

Lemma ex_timers_wf : timers_wf (timers ex_state) (timer_list ex_state).
Proof.
  apply timers_wf_intro; cbn [timer_list ex_state].
  - apply NoDup_singleton.
  - intros t ->%list_elem_of_singleton. by eexists.
  - intros t ->%list_elem_of_singleton. vm_compute. discriminate.
  - repeat constructor.
Qed.

Lemma add_timer_spec_witness :
  wp (add_timer 8) (fun _ s' =>
    (exists pre post, state_deadlines ex_state = pre ++ post /\
       state_deadlines s' = pre ++ (8, 4) :: post /\
       Forall (fun d => d.2 <= 4) pre /\ Forall (fun d => 4 < d.2) post) /\
    timers_wf (timers s') (timer_list s') /\
    same_procs_of_timers (timers ex_state) (timers s') /\ sch s' = ex_rqs) ex_state.
Proof.
  refine (add_timer_spec ex_state 8 (mk_timer 4 4) ex_timers_wf _ _ _ _).
  - reflexivity.
  - apply (bool_decide_unpack _). vm_compute. exact I.
  - cbn. lia.
  - discriminate.
Defined.

Lemma del_timer_spec_witness :
  wp (del_timer 7) (fun _ s' =>
    state_deadlines s' = filter (fun d => d.1 <> 7) (state_deadlines ex_state) /\
    timers_wf (timers s') (timer_list s') /\
    same_procs_of_timers (timers ex_state) (timers s') /\ sch s' = ex_rqs) ex_state.
Proof. exact (del_timer_spec ex_state 7 ex_timers_wf). Defined.

Lemma run_timer_list_spec_witness :
  due ex_state 1 5 /\
  wp (run_timer_list default_sched_class) (fun _ s' =>
    sched_inv default_sched_class s' /\ timers_wf (timers s') (timer_list s') /\
    state_deadlines s' =
      (fun d => (d.1, d.2 - 1)) <$> filter (fun d => d.2 <> 1) (state_deadlines ex_state) /\
    woken ex_state 1 (sch s')) ex_state.
Proof.
  split; [exists 7; split; [apply elem_of_cons; by left|reflexivity]|].
  refine (run_timer_list_spec default_sched_class ex_state ex_sched_inv ex_timers_wf _ _).
  - repeat constructor.
  - intros p (t&Ht&Hp). change (state_deadlines ex_state) with [(7, 1)] in Ht.
    apply list_elem_of_singleton in Ht as [= ->]. injection Hp as <-.
    exists PROC_SLEEPING, WT_TIMER. split; [reflexivity|]. split; [discriminate|]. right. discriminate.
Defined.
