(* ===== verification/Stride.v ===== *)
(** kern/schedule/default_sched_stride.c: stride scheduling on the skew heap.
    It discharges the interface [SchedPolicy], and the policy's own theorem
    shows that the comparison of 32-bit strides is right, wrap-around included,
    as long as the strides lie in a window of [BIG_STRIDE], and that picking
    keeps them there. *)
From S2P Require Import Prelude SkewHeap Sched RoundRobin.

(** ** Operations *)

Definition BIG_STRIDE := Z.shiftl 1 30.

Definition stride_of (m : gmap pptr proc) (p : pptr) : Z := default 0 (lab6_stride <$> m !! p).

Definition proc_stride_comp_f (m : gmap pptr proc) : compare_f := fun a b =>
  let c := s32 (u32 (stride_of m a - stride_of m b)) in
  if c >? 0 then 1 else if c =? 0 then 0 else -1.

Definition in_pool {A} (m : K store A) : K rqs A := zoom pool set_pool m.

Definition set_run_pool (a : ptr) (s : rqs) : rqs :=
  set_rq (mk_rq (run_list (rq s)) (proc_num (rq s)) (max_time_slice (rq s)) a) s.
Definition set_proc_num (n : Z) (s : rqs) : rqs :=
  set_rq (mk_rq (run_list (rq s)) n (max_time_slice (rq s)) (lab6_run_pool (rq s))) s.

Definition stride_init : K rqs () :=
  modify (fun s => set_rq (mk_rq [] (proc_num (rq s)) (max_time_slice (rq s)) (lab6_run_pool (rq s))) s);;
  modify (set_run_pool NULL);;
  modify (set_proc_num 0).

Definition stride_enqueue (p : pptr) : K rqs () :=
  s ← get;
  a ← in_pool (skew_heap_insert (lab6_run_pool (rq s)) p (proc_stride_comp_f (procs s)));
  modify (set_run_pool a);;
  x ← proc_at p;
  when (bool_decide (time_slice x = 0) || (time_slice x >? max_time_slice (rq s)))
    (proc_upd p (set_time_slice (max_time_slice (rq s))));;
  proc_upd p (set_on_rq true);;
  modify (fun s => set_proc_num (u32 (proc_num (rq s) + 1)) s).

Definition stride_dequeue (p : pptr) : K rqs () :=
  s ← get;
  a ← in_pool (skew_heap_remove (lab6_run_pool (rq s)) p (proc_stride_comp_f (procs s)));
  modify (set_run_pool a);;
  proc_upd p (set_on_rq false);;
  modify (fun s => set_proc_num (u32 (proc_num (rq s) - 1)) s).

Definition stride_pick_next : K rqs (option pptr) :=
  s ← get;
  if bool_decide (lab6_run_pool (rq s) = NULL) then mret None
  else
    let p := lab6_run_pool (rq s) in
    x ← proc_at p;
    (if bool_decide (lab6_priority x = 0) then proc_upd p (set_lab6_stride (u32 (lab6_stride x + BIG_STRIDE)))
     else proc_upd p (set_lab6_stride (u32 (lab6_stride x + BIG_STRIDE / lab6_priority x))));;
    mret (Some p).

Definition stride_proc_tick (p : pptr) : K rqs () :=
  x ← proc_at p;
  when (time_slice x >? 0) (proc_upd p (set_time_slice (time_slice x - 1)));;
  x ← proc_at p;
  when (bool_decide (time_slice x = 0)) (proc_upd p (set_need_resched true)).

Definition stride_sched_class : sched_class :=
  mk_class stride_init stride_enqueue stride_dequeue stride_pick_next stride_proc_tick.

(** ** The heap of the queue *)

(** The processes of the heap below an entry. *)
Fixpoint flatten (fuel : nat) (h : store) (a : ptr) : list pptr :=
  match fuel with
  | O => []
  | S fuel =>
      if bool_decide (a = NULL) then [] else
      match h !! a with
      | Some e => a :: flatten fuel h (left e) ++ flatten fuel h (right e)
      | None => []
      end
  end.

Lemma flatten_rep fuel h t par :
  rep h t par -> (length (elems t) < fuel)%nat -> flatten fuel h (root t) = elems t.
Proof.
  revert t par. induction fuel as [|fuel IH]; intros t par Hr Hf; [lia|].
  destruct t as [|l p r]; [done|]. cbn in Hr. destruct Hr as (Hp&Hh&Hl&Hr).
  cbn. rewrite bool_decide_false by done. rewrite Hh. cbn [left right].
  cbn in Hf. rewrite length_app in Hf.
  rewrite (IH l p), (IH r p); [done|done|lia|done|lia].
Qed.

Definition stride_queued (s : rqs) : list pptr :=
  flatten (S (size (pool s))) (pool s) (lab6_run_pool (rq s)).

#[global] Arguments stride_queued : simpl never.

(** The heap of the run queue spells the tree [t]. *)
Record stride_tree (s : rqs) (t : tree) : Prop := {
  st_rep : rep (pool s) t NULL;
  st_root : lab6_run_pool (rq s) = root t;
  st_nodup : NoDup (elems t);
  st_procs p : p ∈ elems t -> is_Some (procs s !! p);
  st_pool p : is_Some (procs s !! p) -> is_Some (pool s !! p);
}.

Definition stride_inv (s : rqs) : Prop := exists t, stride_tree s t.

Lemma stride_tree_queued s t : stride_tree s t -> stride_queued s = elems t.
Proof.
  intros H. unfold stride_queued. rewrite (st_root _ _ H). eapply flatten_rep; [apply H|].
  apply Nat.lt_succ_r, alloc_size; [apply H|]. intros q Hq. eapply rep_alloc; [apply H|done].
Qed.

Lemma stride_tree_neutral s t p x y :
  stride_tree s t -> procs s !! p = Some x ->
  stride_tree (set_procs (<[p := y]> (procs s)) s) t.
Proof.
  intros H Hx. split; cbn; [apply H|apply H|apply H| |].
  - intros q Hq. apply lookup_insert_is_Some. destruct (decide (p = q)); [by left|right].
    split; [done|by eapply st_procs].
  - intros q [->|[_ Hq]]%lookup_insert_is_Some; eapply st_pool; eauto.
Qed.

Lemma wp_stride_enqueue s t p x (Q : () -> rqs -> Prop) :
  stride_tree s t -> procs s !! p = Some x -> p <> NULL -> p ∉ elems t ->
  (forall s', let t' := tmerge (proc_stride_comp_f (procs s)) t (Node Leaf p Leaf) in
     stride_tree s' t' -> elems t' ≡ₚ p :: elems t -> same_life s s' ->
     (exists y, procs s' = <[p := y]> (procs s) /\ lab6_stride y = lab6_stride x) -> Q () s') ->
  wp (stride_enqueue p) Q s.
Proof.
  cbv zeta. intros H Hx Hn Hp HQ. unfold stride_enqueue, in_pool. ksteps. rewrite (st_root _ _ H).
  apply wp_skew_heap_insert; [apply H|constructor; [done|apply H]|done|eapply st_pool; eauto|].
  cbv zeta. intros h' R E F. ksteps. eapply wp_proc_at; [done|]. kstep.
  set (y := if bool_decide (time_slice x = 0) || (time_slice x >? max_time_slice (rq s))
            then set_time_slice (max_time_slice (rq s)) x else x).
  set (s1 := set_run_pool _ _).
  eapply (wp_mono _ (fun _ s' => s' = set_procs (<[p := y]> (procs s)) s1)).
  { unfold y. apply wp_when; intros ->; [by eapply wp_proc_upd|].
    rewrite insert_id by done. by destruct s. }
  intros [] ? ->. kstep. eapply wp_proc_upd; [apply lookup_insert_eq|]. ksteps.
  cbn [procs set_procs]. rewrite insert_insert_eq. apply HQ.
  - split; cbn; [done|done|by rewrite E; constructor; [|apply H]| |].
    + intros q Hq. apply lookup_insert_is_Some. destruct (decide (p = q)); [by left|right].
      split; [done|]. eapply st_procs; [done|]. rewrite E in Hq. set_solver.
    + intros q Hq. assert (is_Some (procs s !! q)) as Hqs.
      { apply lookup_insert_is_Some in Hq as [<-|[_ ?]]; eauto. }
      destruct (decide (q ∈ p :: elems t)) as [Hin|Hin].
      * eapply rep_alloc; [done|]. by rewrite E.
      * rewrite F by done. by eapply st_pool.
  - done.
  - eapply same_life_insert; [done|done|..]; unfold y; by destruct (_ || _).
  - eexists. split; [done|]. unfold y. by destruct (_ || _).
Qed.

Lemma wp_stride_dequeue s t p x (Q : () -> rqs -> Prop) :
  stride_tree s t -> p ∈ elems t -> procs s !! p = Some x ->
  (forall s', let t' := tremove (proc_stride_comp_f (procs s)) p t in
     stride_tree s' t' -> p :: elems t' ≡ₚ elems t -> same_life s s' ->
     (exists y, procs s' = <[p := y]> (procs s) /\ lab6_stride y = lab6_stride x) -> Q () s') ->
  wp (stride_dequeue p) Q s.
Proof.
  cbv zeta. intros H Hp Hx HQ. unfold stride_dequeue, in_pool. ksteps. rewrite (st_root _ _ H).
  apply wp_skew_heap_remove; [apply H|apply H|done|].
  cbv zeta. intros h' R E F. ksteps. eapply wp_proc_upd; [done|]. ksteps.
  pose proof (st_nodup _ _ H) as Hnd. rewrite <-E in Hnd. apply NoDup_cons in Hnd as [Hpn Hnd].
  apply HQ; [|done|by eapply same_life_insert|by eexists].
  split; cbn; [done|done|done| |].
  - intros q Hq. apply lookup_insert_is_Some. destruct (decide (p = q)); [by left|right].
    split; [done|]. eapply st_procs; [done|]. rewrite <-E. set_solver.
  - intros q Hq. assert (is_Some (procs s !! q)) as Hqs.
    { apply lookup_insert_is_Some in Hq as [<-|[_ ?]]; eauto. }
    destruct (decide (q ∈ elems (tremove (proc_stride_comp_f (procs s)) p t))) as [Hin|Hin].
    + by eapply rep_alloc.
    + rewrite F; [by eapply st_pool|]. destruct (decide (q = p)); [by right|left].
      rewrite <-E. set_solver.
Qed.

(** ** The order of the strides *)

(** [sigma] gives each process the stride it would have without wrap-around;
    they lie in a window of [BIG_STRIDE] from [m] on. *)
Definition in_window (ps : gmap pptr proc) (l : list pptr) (sigma : pptr -> Z) (m : Z) : Prop :=
  Forall (fun p => stride_of ps p = u32 (sigma p) /\ m <= sigma p <= m + BIG_STRIDE) l.

Lemma s32_u32_sub a b : - 2 ^ 31 <= a - b < 2 ^ 31 -> s32 (u32 (u32 a - u32 b)) = a - b.
Proof.
  intros H. rewrite uwrap_sub. unfold swrap.
  change (u32 (u32 (a - b) + 2 ^ (32 - 1)) - 2 ^ (32 - 1) = a - b).
  rewrite uwrap_add_l, uwrap_small; lia.
Qed.

Lemma comp_window ps l sigma m x y :
  in_window ps l sigma m -> x ∈ l -> y ∈ l ->
  proc_stride_comp_f ps x y = -1 <-> sigma x < sigma y.
Proof.
  intros H Hx Hy. unfold in_window in H. rewrite Forall_forall in H.
  destruct (H x Hx) as [Ex ?], (H y Hy) as [Ey ?]. assert (BIG_STRIDE = 2 ^ 30) by done.
  unfold proc_stride_comp_f. rewrite Ex, Ey, s32_u32_sub by lia.
  destruct (Z.gtb_spec (sigma x - sigma y) 0); [split; [done|lia]|].
  destruct (Z.eqb_spec (sigma x - sigma y) 0); [split; [done|lia]|]. split; [lia|done].
Qed.

Lemma window_order ps l sigma m : in_window ps l sigma m -> weak_order (proc_stride_comp_f ps) l.
Proof.
  intros H. split.
  - intros x y Hx Hy. rewrite !(comp_window _ _ _ _ _ _ H) by done. lia.
  - intros x y z Hx Hy Hz. unfold below. rewrite !(comp_window _ _ _ _ _ _ H) by done. lia.
Qed.

Lemma heap_ordered_ext comp comp' t :
  (forall x y, x ∈ elems t -> y ∈ elems t -> comp' x y = comp x y) ->
  heap_ordered comp t -> heap_ordered comp' t.
Proof.
  induction t as [|l IHl p r IHr]; [done|]. intros E (F&Hl&Hr). cbn in E. split_and!.
  - rewrite Forall_forall in F |- *. intros q Hq. unfold below. rewrite E by set_solver +Hq. by apply F.
  - apply IHl; [|done]. intros x y Hx Hy. apply E; set_solver +Hx Hy.
  - apply IHr; [|done]. intros x y Hx Hy. apply E; set_solver +Hx Hy.
Qed.

Lemma stride_of_insert m p x q :
  stride_of (<[p := x]> m) q = if decide (p = q) then lab6_stride x else stride_of m q.
Proof. unfold stride_of. rewrite lookup_insert. by case_decide. Qed.

Lemma comp_ext m m' x y :
  stride_of m' x = stride_of m x -> stride_of m' y = stride_of m y ->
  proc_stride_comp_f m' x y = proc_stride_comp_f m x y.
Proof. unfold proc_stride_comp_f. by intros -> ->. Qed.

(** How far a process moves each time it is picked. *)
Definition pass (x : proc) : Z :=
  if bool_decide (lab6_priority x = 0) then BIG_STRIDE else BIG_STRIDE / lab6_priority x.

Lemma pass_range x : 0 <= lab6_priority x -> 0 <= pass x <= BIG_STRIDE.
Proof.
  intros H. assert (BIG_STRIDE = 2 ^ 30) as E by done. unfold pass. case_bool_decide; [lia|]. split.
  - apply Z.div_pos; lia.
  - apply Z.div_le_upper_bound; nia.
Qed.

Lemma wp_stride_pick s t (Q : option pptr -> rqs -> Prop) :
  stride_tree s t ->
  match t with
  | Leaf => Q None s
  | Node _ p _ => forall x, procs s !! p = Some x ->
      Q (Some p) (set_procs (<[p := set_lab6_stride (u32 (lab6_stride x + pass x)) x]> (procs s)) s)
  end -> wp stride_pick_next Q s.
Proof.
  intros H HQ. unfold stride_pick_next. ksteps. rewrite (st_root _ _ H).
  destruct t as [|l p r]; cbn [root]; [by apply wp_ret|].
  pose proof (st_rep _ _ H) as (Hp&_). rewrite bool_decide_false by done.
  destruct (st_procs _ _ H p) as [x Hx]; [cbn; set_solver +|]. specialize (HQ x Hx).
  kstep. eapply wp_proc_at; [done|]. kstep. unfold pass in HQ.
  case_bool_decide; (eapply wp_proc_upd; [done|]); by apply wp_ret.
Qed.

Lemma wp_stride_tick s p x (Q : () -> rqs -> Prop) :
  procs s !! p = Some x ->
  (forall y, state y = state x -> wait_state y = wait_state x ->
     Q () (set_procs (<[p := y]> (procs s)) s)) -> wp (stride_proc_tick p) Q s.
Proof. intros Hx HQ. apply (wp_RR_proc_tick s p x); [done|]. cbv zeta. by apply HQ. Qed.

(** ** Stride scheduling is a scheduling policy *)

#[export] Program Instance stride_policy : SchedPolicy stride_sched_class := {|
  queued := stride_queued;
  policy_inv := stride_inv;
|}.
Next Obligation.
  intros s p [t H] [x Hx] Hn Hp. rewrite (stride_tree_queued _ _ H) in Hp. cbn.
  eapply wp_stride_enqueue; [done..|]. cbv zeta. intros s' H' E L _.
  rewrite (stride_tree_queued _ _ H), (stride_tree_queued _ _ H'). split_and!; [by eexists|done|done].
Qed.
Next Obligation.
  intros s p [t H] Hp. rewrite (stride_tree_queued _ _ H) in Hp.
  destruct (st_procs _ _ H p Hp) as [x Hx]. cbn.
  eapply wp_stride_dequeue; [done..|]. cbv zeta. intros s' H' E L _.
  rewrite (stride_tree_queued _ _ H), (stride_tree_queued _ _ H'). split_and!; [by eexists|done|done].
Qed.
Next Obligation.
  intros s [t H]. cbn. eapply wp_stride_pick; [done|]. rewrite (stride_tree_queued _ _ H).
  destruct t as [|l p r].
  - split_and!; [by exists Leaf|done..].
  - intros x Hx. pose proof (stride_tree_neutral _ _ _ _ (set_lab6_stride (u32 (lab6_stride x + pass x)) x) H Hx) as H'.
    split_and!; [by eexists|by rewrite (stride_tree_queued _ _ H')|by eapply same_life_insert|].
    cbn. set_solver +.
Qed.
Next Obligation.
  intros s p [t H] [x Hx] Hp. cbn. eapply wp_stride_tick; [done|]. intros y H1 H2.
  pose proof (stride_tree_neutral _ _ _ _ y H Hx) as H'.
  split_and!; [by eexists|by rewrite (stride_tree_queued _ _ H), (stride_tree_queued _ _ H')|].
  by eapply same_life_insert.
Qed.
Next Obligation.
  intros s p f x [t H] Hx _. pose proof (stride_tree_neutral _ _ _ _ (f x) H Hx) as H'.
  split; [by eexists|]. by rewrite (stride_tree_queued _ _ H), (stride_tree_queued _ _ H').
Qed.
Next Obligation.
  intros s p x e [t H] Hp _. assert (Hn : p ∉ elems t) by (intros [y Hy]%(st_procs _ _ H); congruence).
  assert (H' : stride_tree (adopt p x e s) t).
  { split; cbn; [|apply H|apply H| |].
    - eapply rep_ext; [apply H|]. intros q Hq. apply lookup_insert_ne. by intros ->.
    - intros q Hq. apply lookup_insert_is_Some'. right. by apply (st_procs _ _ H).
    - intros q. rewrite !lookup_insert_is_Some'. intros [?|?%(st_pool _ _ H)]; tauto. }
  split; [by exists t|]. by rewrite (stride_tree_queued _ _ H), (stride_tree_queued _ _ H').
Qed.
Next Obligation.
  intros s p [t H] Hp. rewrite (stride_tree_queued _ _ H) in Hp.
  assert (H' : stride_tree (release p s) t).
  { split; cbn; [|apply H|apply H| |].
    - eapply rep_ext; [apply H|]. intros q Hq. apply lookup_delete_ne. by intros ->.
    - intros q Hq. rewrite lookup_delete_ne by congruence. by apply (st_procs _ _ H).
    - intros q. rewrite !lookup_delete. case_decide; [by intros [? ?]|]. apply (st_pool _ _ H). }
  split; [by exists t|]. by rewrite (stride_tree_queued _ _ H), (stride_tree_queued _ _ H').
Qed.

(** Serving a process of least stride moves the window to its old stride. *)
Definition served (sigma : pptr -> Z) (p : pptr) (x : proc) (q : pptr) : Z :=
  if decide (q = p) then sigma p + pass x else sigma q.

Lemma served_window ps l sigma m p x x' :
  in_window ps l sigma m -> p ∈ l -> Forall (fun q => sigma p <= sigma q) l ->
  ps !! p = Some x -> 0 <= lab6_priority x -> lab6_stride x' = u32 (lab6_stride x + pass x) ->
  in_window (<[p := x']> ps) l (served sigma p x) (sigma p).
Proof.
  unfold in_window. rewrite !Forall_forall. intros Hw Hpt Hmin Hx Hprio Hs q Hq.
  destruct (Hw q Hq) as [Eq Hq1], (Hw p Hpt) as [Ep Hp1]. specialize (Hmin q Hq).
  rewrite stride_of_insert. unfold served. pose proof (pass_range x Hprio).
  destruct (decide (p = q)) as [<-|].
  - rewrite decide_True by done. split; [|lia]. rewrite Hs. unfold stride_of in Ep. rewrite Hx in Ep.
    cbn in Ep. by rewrite Ep, uwrap_add_l.
  - rewrite decide_False by done. split; [done|lia].
Qed.

(** Only the stride of the root changes, so what is below it stays in order. *)
Lemma served_ordered ps l p r x sigma m :
  in_window (<[p := x]> ps) (elems (Node l p r)) sigma m -> NoDup (elems (Node l p r)) ->
  heap_ordered (proc_stride_comp_f ps) (Node l p r) ->
  heap_ordered (proc_stride_comp_f (<[p := x]> ps)) (tmerge (proc_stride_comp_f (<[p := x]> ps)) l r).
Proof.
  intros Hw Hnd Ho. cbn in Hnd. apply NoDup_cons in Hnd as [Hpn Hnd]. apply tmerge_ordered.
  - eapply weak_order_mono; [exact (window_order _ _ _ _ Hw)|]. cbn. set_solver +.
  - apply (heap_ordered_ext (proc_stride_comp_f ps)); [|apply Ho]. intros q1 q2 Hq1 Hq2.
    apply comp_ext; rewrite stride_of_insert, decide_False; [done|set_solver|done|set_solver].
  - apply (heap_ordered_ext (proc_stride_comp_f ps)); [|apply Ho]. intros q1 q2 Hq1 Hq2.
    apply comp_ext; rewrite stride_of_insert, decide_False; [done|set_solver|done|set_solver].
Qed.

(** ** The property *)

(** One turn of the policy: the next process leaves the queue and, its turn
    over, comes back. *)
Definition stride_turn : K rqs (option pptr) :=
  o ← stride_pick_next;
  match o with Some p => stride_dequeue p;; stride_enqueue p | None => mret () end;;
  mret o.

(** Property C30. As long as the strides of the queued processes lie in a window
    of [BIG_STRIDE], a turn serves a process of least stride, wrapped 32-bit
    counters notwithstanding, moves it ahead by [BIG_STRIDE / priority], and
    leaves a well-linked, ordered heap of the same processes whose strides lie
    in the window that starts at the stride of the process served. *)
Theorem stride_turn_spec s t sigma m :
  stride_tree s t -> heap_ordered (proc_stride_comp_f (procs s)) t -> t <> Leaf ->
  in_window (procs s) (elems t) sigma m ->
  (forall p x, procs s !! p = Some x -> 0 <= lab6_priority x) ->
  wp stride_turn (fun o s' => exists p x t', o = Some p /\ procs s !! p = Some x /\
    p ∈ elems t /\ Forall (fun q => sigma p <= sigma q) (elems t) /\
    stride_tree s' t' /\ elems t' ≡ₚ elems t /\ heap_ordered (proc_stride_comp_f (procs s')) t' /\
    in_window (procs s') (elems t') (served sigma p x) (sigma p)) s.
Proof.
  intros H Ho Hne Hw Hprio. unfold stride_turn. kstep. eapply wp_stride_pick; [done|].
  destruct t as [|l p r]; [done|]. intros x Hx. set (t := Node l p r) in *.
  set (x' := set_lab6_stride _ x). set (s1 := set_procs _ s).
  pose proof (stride_tree_neutral _ _ _ _ x' H Hx) as H1. fold s1 in H1.
  assert (Hpt : p ∈ elems t) by (cbn; set_solver +).
  assert (Hmin : Forall (fun q => sigma p <= sigma q) (elems t)).
  { apply Forall_forall. intros q Hq.
    pose proof (heap_ordered_min _ _ q (window_order _ _ _ _ Hw) Ho Hq) as Hb.
    unfold below in Hb. rewrite (comp_window _ _ _ _ _ _ Hw) in Hb by (cbn; set_solver). cbn in Hb. lia. }
  pose proof (served_window _ _ _ _ _ _ x' Hw Hpt Hmin Hx (Hprio _ _ Hx) eq_refl) as Hw1.
  pose proof (served_ordered _ _ _ _ x' _ _ Hw1 (st_nodup _ _ H) Ho) as Ho1.
  kstep. kstep. eapply wp_stride_dequeue; [exact H1|done|apply lookup_insert_eq|].
  cbv zeta. intros s2 H2 E2 _ (y2&P2&Y2). cbn [tremove t] in H2, E2.
  rewrite bool_decide_true in H2, E2 by done. set (t2 := tmerge _ l r) in *.
  assert (E2' : elems t2 ≡ₚ elems l ++ elems r) by exact (Permutation_cons_inv E2).
  eapply wp_stride_enqueue; [exact H2|rewrite P2; apply lookup_insert_eq|apply (st_rep _ _ H)| |].
  { rewrite E2'. by apply (NoDup_cons _ _), (st_nodup _ _ H). }
  cbv zeta. intros s3 H3 E3 _ (y3&P3&Y3). apply wp_ret.
  assert (Hso : forall q, stride_of (procs s3) q = stride_of (procs s1) q /\
                          stride_of (procs s2) q = stride_of (procs s1) q).
  { intros q. rewrite P3, P2. cbn [procs s1 set_procs]. rewrite !stride_of_insert.
    destruct (decide (p = q)); [|done]. rewrite Y3, Y2. done. }
  assert (Hw2 : in_window (procs s2) (elems t) (served sigma p x) (sigma p)).
  { eapply Forall_impl; [exact Hw1|]. intros q [??]. by destruct (Hso q) as [_ ->]. }
  assert (Hel : elems (tmerge (proc_stride_comp_f (procs s2)) t2 (Node Leaf p Leaf)) ≡ₚ elems t)
    by (rewrite E3; exact E2).
  exists p, x, (tmerge (proc_stride_comp_f (procs s2)) t2 (Node Leaf p Leaf)).
  split_and!; [done|done|done|done|done|done| |].
  - apply (heap_ordered_ext (proc_stride_comp_f (procs s2))).
    { intros q1 q2 _ _. apply comp_ext; by destruct (Hso q1), (Hso q2); congruence. }
    apply tmerge_ordered; [|apply (heap_ordered_ext (proc_stride_comp_f (procs s1)))|cbn; auto].
    + eapply weak_order_mono; [exact (window_order _ _ _ _ Hw2)|]. rewrite <-tmerge_elems. by rewrite Hel.
    + intros q1 q2 _ _. apply comp_ext; by destruct (Hso q1), (Hso q2).
    + exact Ho1.
  - unfold in_window. rewrite Hel. eapply Forall_impl; [exact Hw1|]. intros q [??].
    by destruct (Hso q) as [-> _].
Qed.

(** ** Witness: two processes, the stride of the second having wrapped around. *)

Definition ex_stride_proc (stride prio : Z) : proc := mk_proc PROC_RUNNABLE 0 false 0 true 5 stride prio.
Definition ex_stride_state : rqs := mk_rqs
  (<[2 := ex_stride_proc (2 ^ 32 - 10) 4]> {[ 3 := ex_stride_proc 5 0 ]})
  (<[2 := mk_she NULL 3 NULL]> {[ 3 := mk_she 2 NULL NULL ]}) (mk_rq [] 2 5 2).
Definition ex_sigma (p : pptr) : Z := if p =? 2 then 2 ^ 32 - 10 else 2 ^ 32 + 5.

Lemma ex_stride_procs p x : procs ex_stride_state !! p = Some x ->
  (p = 2 /\ x = ex_stride_proc (2 ^ 32 - 10) 4) \/ (p = 3 /\ x = ex_stride_proc 5 0).
Proof.
  unfold ex_stride_state. cbn [procs]. rewrite lookup_insert, lookup_singleton.
  repeat case_decide; intros [= <-]; naive_solver.
Qed.

Lemma ex_stride_tree : stride_tree ex_stride_state ex_tree.
Proof.
  split.
  - cbn. done.
  - reflexivity.
  - apply (bool_decide_unpack _). vm_compute. exact I.
  - intros p Hp. cbn in Hp. apply elem_of_cons in Hp as [->|Hp]; [by eexists|].
    apply list_elem_of_singleton in Hp as ->. by eexists.
  - intros p [x Hx]. apply ex_stride_procs in Hx as [[-> _]|[-> _]]; by eexists.
Qed.

Lemma stride_turn_spec_witness :
  wp stride_turn (fun o s' => exists p x t', o = Some p /\ procs ex_stride_state !! p = Some x /\
    p ∈ elems ex_tree /\ Forall (fun q => ex_sigma p <= ex_sigma q) (elems ex_tree) /\
    stride_tree s' t' /\ elems t' ≡ₚ elems ex_tree /\ heap_ordered (proc_stride_comp_f (procs s')) t' /\
    in_window (procs s') (elems t') (served ex_sigma p x)
      (ex_sigma p)) ex_stride_state.
Proof.
  refine (stride_turn_spec ex_stride_state ex_tree ex_sigma (2 ^ 32 - 20) ex_stride_tree _ _ _ _).
  - split; [repeat constructor; vm_compute; discriminate|]. by repeat constructor.
  - discriminate.
  - repeat constructor; vm_compute; discriminate.
  - intros p x Hx. apply ex_stride_procs in Hx as [[_ ->]|[_ ->]]; vm_compute; discriminate.
Defined.
