(* ===== verification/Cstring.v ===== *)
(** libs/string.c on a byte-addressed memory: the string and memory routines as
    loops over addresses, an access outside the mapped addresses being a fault.
    [bytes_at m a l] says that the bytes [l] are stored from [a] on, [cstring]
    that they are followed by the terminating zero.  A [char] is unsigned, as
    on RISC-V. *)
From S2P Require Import Prelude.

(** ** Memory *)

Abbreviation mem := (gmap Z Z).

Definition rd (a : Z) : K mem Z := fun m => unwrap (m !! a) m.
Definition wr (a v : Z) : K mem () := _ ← rd a; modify <[a := u8 v]>.

(** ** Operations *)

Fixpoint strlen_loop (fuel : nat) (s cnt : Z) : K mem Z :=
  match fuel with
  | O => timeout
  | S fuel => c ← rd s; if bool_decide (c <> 0) then strlen_loop fuel (s + 1) (u64 (cnt + 1)) else mret cnt
  end.
Definition strlen (fuel : nat) (s : Z) : K mem Z := strlen_loop fuel s 0.

Fixpoint strnlen_loop (fuel : nat) (s len cnt : Z) : K mem Z :=
  match fuel with
  | O => timeout
  | S fuel =>
      if cnt <? len then
        c ← rd s;
        if bool_decide (c <> 0) then strnlen_loop fuel (s + 1) len (u64 (cnt + 1)) else mret cnt
      else mret cnt
  end.
Definition strnlen (fuel : nat) (s len : Z) : K mem Z := strnlen_loop fuel s len 0.

Fixpoint strcpy_loop (fuel : nat) (p src : Z) : K mem () :=
  match fuel with
  | O => timeout
  | S fuel => c ← rd src; wr p c;; when (bool_decide (c <> 0)) (strcpy_loop fuel (p + 1) (src + 1))
  end.
Definition strcpy (fuel : nat) (dst src : Z) : K mem Z := strcpy_loop fuel dst src;; mret dst.

Fixpoint strncpy_loop (n : nat) (p src : Z) : K mem () :=
  match n with
  | O => mret ()
  | S n => c ← rd src; wr p c;; strncpy_loop n (p + 1) (if bool_decide (c <> 0) then src + 1 else src)
  end.
Definition strncpy (dst src len : Z) : K mem Z := strncpy_loop (Z.to_nat len) dst src;; mret dst.

Fixpoint strcmp (fuel : nat) (s1 s2 : Z) : K mem Z :=
  match fuel with
  | O => timeout
  | S fuel =>
      c1 ← rd s1;
      c2 ← rd s2;
      if bool_decide (c1 <> 0) && bool_decide (c1 = c2) then strcmp fuel (s1 + 1) (s2 + 1)
      else mret (u8 c1 - u8 c2)
  end.

Fixpoint strncmp_loop (n : nat) (s1 s2 : Z) : K mem Z :=
  match n with
  | O => mret 0
  | S n =>
      c1 ← rd s1;
      c2 ← rd s2;
      if bool_decide (c1 <> 0) && bool_decide (c1 = c2) then strncmp_loop n (s1 + 1) (s2 + 1)
      else mret (u8 c1 - u8 c2)
  end.
Definition strncmp (s1 s2 n : Z) : K mem Z := strncmp_loop (Z.to_nat n) s1 s2.

(** The result is [None] for [NULL]. *)
Fixpoint strchr (fuel : nat) (s c : Z) : K mem (option Z) :=
  match fuel with
  | O => timeout
  | S fuel =>
      x ← rd s;
      if bool_decide (x <> 0) then
        if bool_decide (x = c) then mret (Some s) else strchr fuel (s + 1) c
      else mret None
  end.

Fixpoint strfind (fuel : nat) (s c : Z) : K mem Z :=
  match fuel with
  | O => timeout
  | S fuel =>
      x ← rd s;
      if bool_decide (x <> 0) then
        if bool_decide (x = c) then mret s else strfind fuel (s + 1) c
      else mret s
  end.

Fixpoint memset_loop (n : nat) (p c : Z) : K mem () :=
  match n with O => mret () | S n => wr p c;; memset_loop n (p + 1) c end.
Definition memset (s c n : Z) : K mem Z := memset_loop (Z.to_nat n) s c;; mret s.

Fixpoint copy_up (n : nat) (d s : Z) : K mem () :=
  match n with O => mret () | S n => x ← rd s; wr d x;; copy_up n (d + 1) (s + 1) end.
Fixpoint copy_down (n : nat) (d s : Z) : K mem () :=
  match n with O => mret () | S n => x ← rd (s - 1); wr (d - 1) x;; copy_down n (d - 1) (s - 1) end.

Definition memmove (dst src n : Z) : K mem Z :=
  (if (src <? dst) && (src + n >? dst) then copy_down (Z.to_nat n) (dst + n) (src + n)
   else copy_up (Z.to_nat n) dst src);;
  mret dst.

Definition memcpy (dst src n : Z) : K mem Z := copy_up (Z.to_nat n) dst src;; mret dst.

Fixpoint memcmp_loop (n : nat) (s1 s2 : Z) : K mem Z :=
  match n with
  | O => mret 0
  | S n =>
      c1 ← rd s1;
      c2 ← rd s2;
      if bool_decide (c1 <> c2) then mret (u8 c1 - u8 c2) else memcmp_loop n (s1 + 1) (s2 + 1)
  end.
Definition memcmp (v1 v2 n : Z) : K mem Z := memcmp_loop (Z.to_nat n) v1 v2.

(** The value of a digit character in any base up to 36. *)
Definition digit (c : Z) : option Z :=
  if (48 <=? c) && (c <=? 57) then Some (c - 48)
  else if (97 <=? c) && (c <=? 122) then Some (c - 97 + 10)
  else if (65 <=? c) && (c <=? 90) then Some (c - 65 + 10)
  else None.

Fixpoint strtol_space (fuel : nat) (s : Z) : K mem Z :=
  match fuel with
  | O => timeout
  | S fuel => c ← rd s; if bool_decide (c = 32 \/ c = 9) then strtol_space fuel (s + 1) else mret s
  end.

Fixpoint strtol_digits (fuel : nat) (s base val : Z) : K mem (Z * Z) :=
  match fuel with
  | O => timeout
  | S fuel =>
      c ← rd s;
      match digit c with
      | None => mret (s, val)
      | Some dig =>
          if dig >=? base then mret (s, val)
          else strtol_digits fuel (s + 1) base (s64 (val * base + dig))
      end
  end.

(** [strtol] returns the value and the [endptr] it stores.  The byte after a
    leading [0] is read only when the base allows a prefix, as [&&] has it. *)
Definition strtol (fuel : nat) (s base : Z) : K mem (Z * Z) :=
  s ← strtol_space fuel s;
  c ← rd s;
  let '(s, neg) := if bool_decide (c = 43) then (s + 1, false)
                   else if bool_decide (c = 45) then (s + 1, true) else (s, false) in
  pre ← (if bool_decide (base = 0 \/ base = 16) then
           c0 ← rd s;
           if bool_decide (c0 = 48) then c1 ← rd (s + 1); mret (bool_decide (c1 = 120)) else mret false
         else mret false);
  '(s, base) ← (if pre : bool then mret (s + 2, 16)
                else if bool_decide (base = 0) then
                  c0 ← rd s;
                  mret (if bool_decide (c0 = 48) then (s + 1, 8) else (s, 10))
                else mret (s, base));
  '(s, val) ← strtol_digits fuel s base 0;
  mret (if neg : bool then s64 (- val) else val, s).

(** ** Bytes in memory *)

Definition bytes_at (m : mem) (a : Z) (l : list Z) : Prop :=
  forall i b, l !! i = Some b -> m !! (a + Z.of_nat i) = Some b.
Definition is_byte (b : Z) : Prop := 0 <= b < 256.
Definition cstring (m : mem) (a : Z) (l : list Z) : Prop :=
  bytes_at m a (l ++ [0]) /\ Forall (fun b => 0 < b < 256) l.
Definition mapped (m : mem) (a n : Z) : Prop := forall x, a <= x < a + n -> is_Some (m !! x).
Definition unchanged_outside (m m' : mem) (a n : Z) : Prop :=
  forall x, ~ (a <= x < a + n) -> m' !! x = m !! x.

Lemma bytes_at_cons m a b l : bytes_at m a (b :: l) <-> m !! a = Some b /\ bytes_at m (a + 1) l.
Proof.
  split.
  - intros H. split; [specialize (H 0%nat b eq_refl); by rewrite Z.add_0_r in H|].
    intros i c Hc. specialize (H (S i) c Hc). by replace (a + 1 + Z.of_nat i) with (a + Z.of_nat (S i)) by lia.
  - intros [H1 H2] [|i] c Hc; cbn in Hc; [injection Hc as <-; by rewrite Z.add_0_r|].
    replace (a + Z.of_nat (S i)) with (a + 1 + Z.of_nat i) by lia. by apply H2.
Qed.

Lemma bytes_at_app m a l1 l2 :
  bytes_at m a (l1 ++ l2) <-> bytes_at m a l1 /\ bytes_at m (a + Z.of_nat (length l1)) l2.
Proof.
  revert a. induction l1 as [|b l1 IH]; intros a; cbn [length app].
  - rewrite Z.add_0_r. split; [intros H; split; [by intros i c|done]|naive_solver].
  - rewrite !bytes_at_cons, IH. replace (a + Z.of_nat (S (length l1))) with (a + 1 + Z.of_nat (length l1)) by lia.
    naive_solver.
Qed.

Lemma cstring_cons m a b l : cstring m a (b :: l) <-> m !! a = Some b /\ 0 < b < 256 /\ cstring m (a + 1) l.
Proof. unfold cstring. cbn. rewrite bytes_at_cons, Forall_cons. naive_solver. Qed.

Lemma cstring_nil m a : cstring m a [] <-> m !! a = Some 0.
Proof.
  unfold cstring. cbn. rewrite bytes_at_cons. split; [naive_solver|]. intros H.
  split; [split; [done|by intros i c]|done].
Qed.

Lemma u8_byte b : is_byte b -> u8 b = b.
Proof. intros H. apply uwrap_small. unfold is_byte in H. lia. Qed.

Section effects.
Implicit Types (m : mem).

Lemma wp_rd a v m (Q : Z -> mem -> Prop) : m !! a = Some v -> Q v m -> wp (rd a) Q m.
Proof. intros E H. unfold wp, rd, unwrap. by rewrite E. Qed.

Lemma wp_wr a v m (Q : () -> mem -> Prop) :
  is_Some (m !! a) -> Q () (<[a := u8 v]> m) -> wp (wr a v) Q m.
Proof. intros [x E] H. unfold wr. kstep. eapply wp_rd; [done|]. by apply wp_modify. Qed.

Lemma mapped_insert m a n x v : mapped m a n -> mapped (<[x := v]> m) a n.
Proof.
  intros H y Hy. apply lookup_insert_is_Some. destruct (decide (x = y)); [by left|right].
  split; [done|by apply H].
Qed.

Lemma bytes_at_insert_ne m a l x v :
  ~ (a <= x < a + Z.of_nat (length l)) -> bytes_at m a l -> bytes_at (<[x := v]> m) a l.
Proof.
  intros Hx H i b Hb. apply lookup_lt_Some in Hb as Hi.
  rewrite lookup_insert_ne by lia. by apply H.
Qed.
End effects.

(** ** Copying *)
Lemma unchanged_trans m m1 m2 a n a1 n1 a2 n2 :
  unchanged_outside m m1 a1 n1 -> unchanged_outside m1 m2 a2 n2 ->
  a <= a1 -> a1 + n1 <= a + n -> a <= a2 -> a2 + n2 <= a + n -> unchanged_outside m m2 a n.
Proof. intros H1 H2 ???? x Hx. rewrite H2, H1 by lia. done. Qed.

Lemma unchanged_insert m a v : unchanged_outside m (<[a := v]> m) a 1.
Proof. intros x Hx. apply lookup_insert_ne. lia. Qed.

Lemma wp_copy_up l m d s (Q : () -> mem -> Prop) :
  bytes_at m s l -> Forall is_byte l -> mapped m d (Z.of_nat (length l)) ->
  ~ (s < d < s + Z.of_nat (length l)) ->
  (forall m', bytes_at m' d l -> unchanged_outside m m' d (Z.of_nat (length l)) -> Q () m') ->
  wp (copy_up (length l) d s) Q m.
Proof.
  revert m d s Q. induction l as [|b l IH]; intros m d s Q Hb Hf Hm Hd HQ; cbn [length copy_up] in *.
  - apply wp_ret, HQ; [by intros i c|by intros x Hx].
  - apply bytes_at_cons in Hb as [Hb Hl]. apply Forall_cons in Hf as [Hfb Hf].
    kstep. eapply wp_rd; [done|]. kstep. apply wp_wr; [apply Hm; lia|]. rewrite u8_byte by done.
    apply IH; [|done|apply mapped_insert; intros x Hx; apply Hm; lia|lia|].
    + apply bytes_at_insert_ne; [lia|done].
    + intros m' H1 H2. apply HQ.
      * apply bytes_at_cons. split; [|done]. rewrite H2 by lia. apply lookup_insert_eq.
      * eapply unchanged_trans; [apply unchanged_insert|exact H2|lia..].
Qed.

Lemma wp_copy_down l m d s (Q : () -> mem -> Prop) :
  bytes_at m (s - Z.of_nat (length l)) l -> Forall is_byte l ->
  mapped m (d - Z.of_nat (length l)) (Z.of_nat (length l)) -> s < d ->
  (forall m', bytes_at m' (d - Z.of_nat (length l)) l ->
     unchanged_outside m m' (d - Z.of_nat (length l)) (Z.of_nat (length l)) -> Q () m') ->
  wp (copy_down (length l) d s) Q m.
Proof.
  revert m d s Q. induction l as [|b l IH] using rev_ind; intros m d s Q Hb Hf Hm Hd HQ.
  - apply wp_ret, HQ; [by intros i c|by intros x Hx].
  - rewrite length_app, Nat.add_1_r in *. cbn [copy_down].
    apply Forall_app in Hf as [Hf [Hfb _]%Forall_cons].
    apply bytes_at_app in Hb as [Hl Hb]. apply bytes_at_cons in Hb as [Hb _].
    kstep. eapply (wp_rd _ b); [rewrite <-Hb; f_equal; lia|]. kstep. apply wp_wr; [apply Hm; lia|].
    rewrite u8_byte by done. apply IH; [|done|apply mapped_insert; intros x Hx; apply Hm; lia|lia|].
    + apply bytes_at_insert_ne; [lia|].
      by replace (s - 1 - Z.of_nat (length l)) with (s - Z.of_nat (S (length l))) by lia.
    + intros m' H1 H2. apply HQ.
      * apply bytes_at_app. split.
        -- by replace (d - Z.of_nat (S (length l))) with (d - 1 - Z.of_nat (length l)) by lia.
        -- apply bytes_at_cons. split; [|by intros i c].
           replace (_ + _) with (d - 1) by lia. rewrite H2 by lia. apply lookup_insert_eq.
      * eapply unchanged_trans; [apply unchanged_insert|exact H2|lia..].
Qed.

Lemma wp_memmove l m d s (Q : Z -> mem -> Prop) :
  bytes_at m s l -> Forall is_byte l -> mapped m d (Z.of_nat (length l)) ->
  (forall m', bytes_at m' d l -> unchanged_outside m m' d (Z.of_nat (length l)) -> Q d m') ->
  wp (memmove d s (Z.of_nat (length l))) Q m.
Proof.
  intros Hb Hf Hm HQ. unfold memmove. kstep. rewrite Nat2Z.id.
  destruct ((s <? d) && _) eqn:E.
  - apply andb_true_iff in E as [E1%Z.ltb_lt _].
    apply wp_copy_down; rewrite ?Z.add_simpl_r; [done|done|done|lia|]. intros m' ??. apply wp_ret. by apply HQ.
  - apply wp_copy_up; [done|done|done| |intros m' ??; apply wp_ret; by apply HQ].
    intros [H1 H2]. apply Z.ltb_lt in H1. rewrite H1 in E. cbn in E.
    destruct (Z.gtb_spec (s + Z.of_nat (length l)) d); [done|lia].
Qed.

Lemma wp_memset_loop n m p c (Q : () -> mem -> Prop) :
  mapped m p (Z.of_nat n) ->
  (forall m', bytes_at m' p (replicate n (u8 c)) -> unchanged_outside m m' p (Z.of_nat n) -> Q () m') ->
  wp (memset_loop n p c) Q m.
Proof.
  revert m p. induction n as [|n IH]; intros m p Hm HQ; cbn [memset_loop].
  - apply wp_ret, HQ; [by intros i b|by intros x Hx].
  - kstep. apply wp_wr; [apply Hm; lia|]. apply IH; [apply mapped_insert; intros x Hx; apply Hm; lia|].
    intros m' H1 H2. apply HQ.
    + cbn. apply bytes_at_cons. split; [|done]. rewrite H2 by lia. apply lookup_insert_eq.
    + eapply unchanged_trans; [apply unchanged_insert|exact H2|lia..].
Qed.

(** ** Strings *)
Lemma wp_strlen_loop l fuel m s cnt (Q : Z -> mem -> Prop) :
  cstring m s l -> (length l < fuel)%nat -> 0 <= cnt -> cnt + Z.of_nat (length l) < 2 ^ 64 ->
  Q (cnt + Z.of_nat (length l)) m -> wp (strlen_loop fuel s cnt) Q m.
Proof.
  revert fuel s cnt. induction l as [|b l IH]; intros [|fuel] s cnt Hs Hf Hc Hb HQ; cbn in Hf; try lia;
    cbn [strlen_loop].
  - apply cstring_nil in Hs. kstep. eapply wp_rd; [done|]. cbn. apply wp_ret. by rewrite Z.add_0_r in HQ.
  - apply cstring_cons in Hs as (Hb'&Hr&Hs). kstep. eapply wp_rd; [done|].
    cbn [length] in *. rewrite bool_decide_true by lia. rewrite uwrap_small by lia.
    apply IH; [done|lia..|]. by replace (cnt + 1 + _) with (cnt + Z.of_nat (S (length l))) by lia.
Qed.

(** [strnlen] ends within the shorter of the string and the limit. *)
Lemma wp_strnlen_loop l fuel m s len cnt (Q : Z -> mem -> Prop) :
  cstring m s l -> (length l < fuel)%nat -> 0 <= cnt <= len -> len < 2 ^ 64 ->
  Q (Z.min len (cnt + Z.of_nat (length l))) m -> wp (strnlen_loop fuel s len cnt) Q m.
Proof.
  revert fuel s cnt. induction l as [|b l IH]; intros [|fuel] s cnt Hs Hf Hc Hb HQ; cbn in Hf; try lia;
    cbn [strnlen_loop]; cbn [length] in HQ.
  all: destruct (Z.ltb_spec cnt len) as [Hlt|Hge];
    [|apply wp_ret; rewrite Z.min_l in HQ by lia; by replace cnt with len by lia].
  - apply cstring_nil in Hs. kstep. eapply wp_rd; [done|]. cbn. apply wp_ret.
    by replace (Z.min len (cnt + Z.of_nat 0)) with cnt in HQ by lia.
  - apply cstring_cons in Hs as (Hb'&Hr&Hs). kstep. eapply wp_rd; [done|].
    rewrite bool_decide_true by lia. rewrite uwrap_small by lia.
    apply IH; [done|lia..|]. by replace (cnt + 1 + Z.of_nat (length l)) with (cnt + Z.of_nat (S (length l))) by lia.
Qed.

(** The order of strings of unsigned bytes. *)
Fixpoint lex (l1 l2 : list Z) : comparison :=
  match l1, l2 with
  | [], [] => Eq
  | [], _ => Lt
  | _, [] => Gt
  | a :: l1, b :: l2 => match a ?= b with Eq => lex l1 l2 | c => c end
  end.

Lemma lex_Eq l1 l2 : lex l1 l2 = Eq <-> l1 = l2.
Proof.
  revert l2. induction l1 as [|a l1 IH]; intros [|b l2]; cbn; try done.
  destruct (Z.compare_spec a b) as [->|H|H]; [rewrite IH; naive_solver| |];
    (split; [done|intros [= -> ->]; lia]).
Qed.

Lemma wp_strcmp l1 l2 fuel m s1 s2 (Q : Z -> mem -> Prop) :
  cstring m s1 l1 -> cstring m s2 l2 -> (length l1 < fuel)%nat ->
  (forall r, (r ?= 0) = lex l1 l2 -> Q r m) -> wp (strcmp fuel s1 s2) Q m.
Proof.
  revert l2 fuel s1 s2. induction l1 as [|b l1 IH]; intros l2 [|fuel] s1 s2 H1 H2 Hf HQ; cbn in Hf; try lia;
    cbn [strcmp].
  - apply cstring_nil in H1. kstep. eapply wp_rd; [done|]. kstep. destruct l2 as [|c l2].
    + apply cstring_nil in H2. eapply wp_rd; [done|]. apply wp_ret, HQ. done.
    + apply cstring_cons in H2 as (H2&Hc&_). eapply wp_rd; [done|]. cbn. apply wp_ret, HQ.
      rewrite !u8_byte by (unfold is_byte; lia). cbn. apply Z.compare_lt_iff. lia.
  - apply cstring_cons in H1 as (H1&Hb&H1'). kstep. eapply wp_rd; [done|]. kstep.
    rewrite (bool_decide_true (b <> 0)) by lia. destruct l2 as [|c l2].
    + apply cstring_nil in H2. eapply wp_rd; [done|]. rewrite bool_decide_false by lia. apply wp_ret, HQ.
      rewrite !u8_byte by (unfold is_byte; lia). cbn. apply Z.compare_gt_iff. lia.
    + apply cstring_cons in H2 as (H2&Hc&H2'). eapply wp_rd; [done|]. cbn in HQ. case_bool_decide as E; cbn.
      * subst c. apply (IH l2); [done|done|lia|]. intros r Hr. apply HQ. by rewrite Z.compare_refl.
      * apply wp_ret, HQ. rewrite !u8_byte by (unfold is_byte; lia).
        destruct (Z.compare_spec b c); [done|apply Z.compare_lt_iff; lia|apply Z.compare_gt_iff; lia].
Qed.

(** [strncpy] writes the string, cut to the length or padded with zeros. *)
Lemma wp_strncpy_loop n l m p src (Q : () -> mem -> Prop) :
  cstring m src l -> mapped m p (Z.of_nat n) ->
  p + Z.of_nat n <= src \/ src + Z.of_nat (length l) + 1 <= p ->
  (forall m', bytes_at m' p (take n (l ++ replicate n 0)) -> unchanged_outside m m' p (Z.of_nat n) -> Q () m') ->
  wp (strncpy_loop n p src) Q m.
Proof.
  revert m p src l. induction n as [|n IH]; intros m p src l Hs Hm Hd HQ; cbn [strncpy_loop].
  - apply wp_ret, HQ; [by intros i b|by intros x Hx].
  - assert (Hins : forall b, cstring (<[p := b]> m) src l).
    { intros b. destruct Hs as [H1 H2]. split; [|done]. apply bytes_at_insert_ne; [|done].
      rewrite length_app. cbn. lia. }
    assert (Hm' : forall b, mapped (<[p := b]> m) (p + 1) (Z.of_nat n)).
    { intros b. apply mapped_insert. intros x Hx. apply Hm. lia. }
    assert (Hfin : forall b m' l', bytes_at m' (p + 1) l' ->
       unchanged_outside (<[p := b]> m) m' (p + 1) (Z.of_nat n) ->
       b :: l' = take (S n) (l ++ replicate (S n) 0) -> Q () m').
    { intros b m' l' H1 H2 E. apply HQ.
      - rewrite <-E. apply bytes_at_cons. split; [|done]. rewrite H2 by lia. apply lookup_insert_eq.
      - eapply unchanged_trans; [apply unchanged_insert|exact H2|lia..]. }
    destruct l as [|b l].
    + pose proof Hs as H0. apply cstring_nil in H0. kstep. eapply wp_rd; [done|].
      kstep. apply wp_wr; [apply Hm; lia|]. change (u8 0) with 0.
      rewrite bool_decide_false by tauto.
      apply (IH _ _ _ []); [apply Hins|apply Hm'|cbn [length] in *; lia|]. intros m' H1 H2. by eapply Hfin.
    + pose proof Hs as (H0&Hb&_)%cstring_cons. kstep. eapply wp_rd; [done|].
      kstep. apply wp_wr; [apply Hm; lia|]. rewrite u8_byte by (unfold is_byte; lia).
      rewrite bool_decide_true by lia. pose proof (Hins b) as (_&_&Ht)%cstring_cons.
      apply (IH _ _ _ l); [done|apply Hm'|cbn [length] in *; lia|]. intros m' H1 H2. eapply Hfin; [exact H1|exact H2|].
      change (b :: take n (l ++ replicate n 0) = b :: take n (l ++ replicate (S n) 0)). f_equal.
      change (replicate (S n) 0) with (0 :: replicate n 0).
      rewrite replicate_cons_app, app_assoc, (take_app_le (l ++ replicate n 0)); [reflexivity|].
      rewrite length_app, length_replicate. lia.
Qed.

(** ** Properties *)

(** [memmove] copies its bytes as if through a buffer of its own,
    also when source and destination overlap in either direction, and writes
    nothing outside the destination. *)
Theorem memmove_spec m dst src l :
  bytes_at m src l -> Forall is_byte l -> mapped m dst (Z.of_nat (length l)) ->
  wp (memmove dst src (Z.of_nat (length l))) (fun r m' =>
    r = dst /\ bytes_at m' dst l /\ unchanged_outside m m' dst (Z.of_nat (length l))) m.
Proof. intros. apply wp_memmove; [done..|]. intros m' ??. done. Qed.

(** [strcmp] ends on two terminated strings, and the sign of its
    result is the lexicographic order of their unsigned bytes; it is zero
    exactly when the strings are equal. *)
Theorem strcmp_spec m s1 s2 l1 l2 fuel :
  cstring m s1 l1 -> cstring m s2 l2 -> (length l1 < fuel)%nat ->
  exists r, strcmp fuel s1 s2 m = Done (r, m) /\ (r ?= 0) = lex l1 l2 /\ (r = 0 <-> l1 = l2).
Proof.
  intros H1 H2 Hf.
  assert (wp (strcmp fuel s1 s2) (fun r m' => m' = m /\ (r ?= 0) = lex l1 l2) m) as Hw.
  { eapply wp_strcmp; [done..|]. intros r Hr. done. }
  apply wp_Done in Hw as (r&m'&E&->&Hr). exists r. split_and!; [done|done|].
  rewrite <-lex_Eq, <-Hr. symmetry. apply Z.compare_eq_iff.
Qed.

(** [strlen] and [strnlen] end on a terminated string and give its
    length, [strnlen] cut at the limit, without writing to memory. *)
Theorem strlen_spec m s l len fuel :
  cstring m s l -> (length l < fuel)%nat -> Z.of_nat (length l) < 2 ^ 64 -> 0 <= len < 2 ^ 64 ->
  strlen fuel s m = Done (Z.of_nat (length l), m) /\
  strnlen fuel s len m = Done (Z.min len (Z.of_nat (length l)), m).
Proof.
  intros Hs Hf Hb Hl. split.
  - assert (wp (strlen fuel s) (fun r m' => r = Z.of_nat (length l) /\ m' = m) m) as Hw
      by (by eapply wp_strlen_loop).
    apply wp_Done in Hw as (r&m'&E&->&->). done.
  - assert (wp (strnlen fuel s len) (fun r m' => r = Z.min len (Z.of_nat (length l)) /\ m' = m) m) as Hw
      by (eapply wp_strnlen_loop; [done|done|lia..|done]).
    apply wp_Done in Hw as (r&m'&E&->&->). done.
Qed.

(** [strncpy] fills its destination exactly: the string cut at the
    length, or padded with zeros up to it, and nothing beyond. *)
Theorem strncpy_spec m dst src l len :
  cstring m src l -> 0 <= len -> mapped m dst len ->
  dst + len <= src \/ src + Z.of_nat (length l) + 1 <= dst ->
  wp (strncpy dst src len) (fun r m' => r = dst /\
    bytes_at m' dst (take (Z.to_nat len) (l ++ replicate (Z.to_nat len) 0)) /\
    unchanged_outside m m' dst len) m.
Proof.
  intros Hs Hl Hm Hd. unfold strncpy. kstep.
  rewrite <-(Z2Nat.id len) in Hm, Hd by done. eapply wp_strncpy_loop; [done..|].
  intros m' H1 H2. rewrite Z2Nat.id in H2 by done. by apply wp_ret.
Qed.

(** ** Witnesses *)

(** Store the bytes [l] from [a] on. *)
Fixpoint poke (a : Z) (l : list Z) (m : mem) : mem :=
  match l with [] => m | b :: l => <[a := b]> (poke (a + 1) l m) end.

Definition ex_mem : mem := poke 100 [104; 105; 33; 0; 0] (poke 200 [104; 111; 0] ∅).

Lemma ex_bytes : bytes_at ex_mem 100 [104; 105; 33].
Proof. rewrite !bytes_at_cons. split_and!; [reflexivity..|]. by intros i b. Qed.
Lemma ex_cstring1 : cstring ex_mem 100 [104; 105; 33].
Proof. rewrite !cstring_cons, cstring_nil. split_and!; try reflexivity. Qed.
Lemma ex_cstring2 : cstring ex_mem 200 [104; 111].
Proof. rewrite !cstring_cons, cstring_nil. split_and!; try reflexivity. Qed.

Lemma memmove_spec_witness :
  wp (memmove 101 100 3) (fun r m' => r = 101 /\ bytes_at m' 101 [104; 105; 33] /\
    unchanged_outside ex_mem m' 101 3) ex_mem.
Proof.
  refine (memmove_spec ex_mem 101 100 [104; 105; 33] ex_bytes _ _).
  - repeat constructor; discriminate.
  - intros x Hx. cbn in Hx. assert (x = 101 \/ x = 102 \/ x = 103) as [->|[->| ->]] by lia; by eexists.
Defined.

Lemma strcmp_spec_witness :
  exists r, strcmp 4 100 200 ex_mem = Done (r, ex_mem) /\ (r ?= 0) = Lt /\
    (r = 0 <-> [104; 105; 33] = [104; 111]).
Proof.
  refine (strcmp_spec ex_mem 100 200 [104; 105; 33] [104; 111] 4 ex_cstring1 ex_cstring2 _). cbn. lia.
Defined.

Lemma strncpy_spec_witness :
  wp (strncpy 100 200 5) (fun r m' => r = 100 /\ bytes_at m' 100 [104; 111; 0; 0; 0] /\
    unchanged_outside ex_mem m' 100 5) ex_mem.
Proof.
  refine (strncpy_spec ex_mem 100 200 [104; 111] 5 ex_cstring2 _ _ _).
  - lia.
  - intros x Hx. assert (x = 100 \/ x = 101 \/ x = 102 \/ x = 103 \/ x = 104) as E by lia.
    destruct E as [->|[->|[->|[->| ->]]]]; by eexists.
  - left. lia.
Defined.

Lemma strlen_spec_witness :
  strlen 9 100 ex_mem = Done (3, ex_mem) /\ strnlen 9 100 2 ex_mem = Done (2, ex_mem).
Proof. refine (strlen_spec ex_mem 100 [104; 105; 33] 2 9 ex_cstring1 _ _ _); cbn; lia. Defined.
