(* ===== verification/Printfmt.v ===== *)
(** libs/printfmt.c: formatted output.  The formatter is parametric in the
    routine [putch] that takes its characters, as in C, and reads the format and
    the strings from memory; [vsnprintf] instantiates [putch] with the bounded
    buffer.  libs/hash.c and libs/rand.c stand at the end. *)
From Stdlib Require Import Ascii String.
From S2P Require Import Prelude Cstring.
#[local] Open Scope Z_scope.
#[local] Abbreviation length := Datatypes.length.

(** The code of a character. *)
Definition chr (a : Ascii.ascii) : Z := Z.of_N (Ascii.N_of_ascii a).
Fixpoint codes (s : String.string) : list Z :=
  match s with String.EmptyString => [] | String.String a s => chr a :: codes s end.

Definition digits_table : list Z := codes "0123456789abcdef".

Definition MAXERROR := 24.
Definition error_string (err : Z) : option (list Z) :=
  match Z.to_nat err with
  | 1 => Some (codes "unspecified error")
  | 2 => Some (codes "bad process")
  | 3 => Some (codes "invalid parameter")
  | 4 => Some (codes "out of memory")
  | 5 => Some (codes "out of processes")
  | 6 => Some (codes "segmentation fault")
  | 8 => Some (codes "invalid elf file")
  | 9 => Some (codes "process is killed")
  | 10 => Some (codes "panic failure")
  | _ => None
  end%nat.

(** ** The formatter *)

Record flags := mk_flags { padc : Z; width : Z; precision : Z; lflag : Z; altflag : bool }.
Definition no_flags : flags := mk_flags (chr " ") (-1) (-1) 0 false.

(** [va_arg]: the next argument; there is none left in a wrong call. *)
Definition va_arg {S} (ap : list Z) : K S (Z * list Z) :=
  match ap with [] => panic | a :: ap => mret (a, ap) end.

Definition getuint (a lflag : Z) : Z :=
  if lflag >=? 2 then u64 a else if bool_decide (lflag <> 0) then u64 a else u32 a.
Definition getint (a lflag : Z) : Z :=
  if lflag >=? 2 then s64 a else if bool_decide (lflag <> 0) then s64 a else s32 a.

Section formatter.
Context {S : Type} (mem_of : S -> mem) (putch : Z -> K S ()).

(** Reading memory. *)
Definition in_mem {A} (m : K mem A) : K S A := zoom mem_of (fun _ s => s) m.

Fixpoint put_n (n : nat) (c : Z) : K S () :=
  match n with O => mret () | Datatypes.S n => putch c;; put_n n c end.
Fixpoint put_all (l : list Z) : K S () :=
  match l with [] => mret () | c :: l => putch c;; put_all l end.

Fixpoint printnum (fuel : nat) (num base width padc : Z) : K S () :=
  match fuel with
  | O => timeout
  | Datatypes.S fuel =>
      let result := num / base in
      let mod_ := num mod base in
      (if num >=? base then printnum fuel result base (width - 1) padc
       else put_n (Z.to_nat (width - 1)) padc);;
      c ← unwrap (digits_table !! Z.to_nat mod_);
      putch c
  end.

(** The number printed by the cases [d u o p x]; 64 digits are enough for
    any [unsigned long long] in any base from 2. *)
Definition number (num base : Z) (fl : flags) : K S () := printnum 64 num base (width fl) (padc fl).

Definition print_int (a : Z) (fl : flags) : K S () :=
  let num := getint a (lflag fl) in
  if num <? 0 then putch (chr "-");; number (u64 (- num)) 10 fl
  else number (u64 num) 10 fl.

(** The loop of the case [s]; its result is the width left. *)
Fixpoint put_string (fuel : nat) (p width precision : Z) (alt : bool) : K S Z :=
  match fuel with
  | O => timeout
  | Datatypes.S fuel =>
      ch ← in_mem (rd p);
      if bool_decide (ch <> 0) && ((precision <? 0) || (precision - 1 >=? 0)) then
        putch (if alt && ((ch <? chr " ") || (ch >? chr "~")) then chr "?" else ch);;
        put_string fuel (p + 1) (width - 1)
          (if precision <? 0 then precision else precision - 1) alt
      else mret width
  end.

(** "(null)", printed for a null pointer, is not in memory. *)
Fixpoint put_literal (l : list Z) (width precision : Z) : K S Z :=
  match l with
  | [] => mret width
  | ch :: l =>
      if (precision <? 0) || (precision - 1 >=? 0) then
        putch ch;; put_literal l (width - 1) (if precision <? 0 then precision else precision - 1)
      else mret width
  end.

Definition print_string (fuel : nat) (p : Z) (fl : flags) : K S () :=
  let null := codes "(null)" in
  w ← (if (width fl >? 0) && negb (padc fl =? chr "-") then
         n ← (if bool_decide (p = 0) then mret (Z.min (u64 (precision fl)) (Z.of_nat (length null)))
              else in_mem (strnlen fuel p (u64 (precision fl))));
         put_n (Z.to_nat (width fl - n)) (padc fl);;
         mret (Z.min (width fl - n) 0)
       else mret (width fl));
  w ← (if bool_decide (p = 0) then put_literal null w (precision fl)
       else put_string fuel p w (precision fl) (altflag fl));
  put_n (Z.to_nat w) (chr " ").

(** The case [e]: the two inner calls of [printfmt]. *)
Definition print_error (a : Z) : K S () :=
  let err := s32 a in
  let err := if err <? 0 then s32 (- err) else err in
  assert (0 <=? err);;
  match (if err >? MAXERROR then None else error_string err) with
  | Some p => put_all p
  | None => put_all (codes "error ");; print_int err no_flags
  end.

(** The digits of a width or precision. *)
Fixpoint read_number (fuel : nat) (fmt precision ch : Z) : K S (Z * Z) :=
  match fuel with
  | O => timeout
  | Datatypes.S fuel =>
      let precision := s32 (precision * 10 + ch - chr "0") in
      ch ← in_mem (rd fmt);
      if (ch <? chr "0") || (ch >? chr "9") then mret (fmt, precision)
      else read_number fuel (fmt + 1) precision ch
  end.

(** An unknown directive is printed literally: back to after its [%]. *)
Fixpoint back_to_percent (fuel : nat) (fmt : Z) : K S Z :=
  match fuel with
  | O => timeout
  | Datatypes.S fuel =>
      c ← in_mem (rd (fmt - 1));
      if bool_decide (c <> chr "%") then back_to_percent fuel (fmt - 1) else mret fmt
  end.

Definition process_precision (fl : flags) : flags :=
  if width fl <? 0 then mk_flags (padc fl) (precision fl) (-1) (lflag fl) (altflag fl) else fl.

(** One directive, from after its [%]; the recursive calls are [reswitch]. *)
Fixpoint directive (fuel : nat) (fmt : Z) (ap : list Z) (fl : flags) : K S (Z * list Z) :=
  match fuel with
  | O => timeout
  | Datatypes.S fuel' =>
      ch ← in_mem (rd fmt);
      let fmt := fmt + 1 in
      if ch =? chr "-" then
        directive fuel' fmt ap (mk_flags (chr "-") (width fl) (precision fl) (lflag fl) (altflag fl))
      else if ch =? chr "0" then
        directive fuel' fmt ap (mk_flags (chr "0") (width fl) (precision fl) (lflag fl) (altflag fl))
      else if (chr "1" <=? ch) && (ch <=? chr "9") then
        '(fmt, n) ← read_number fuel fmt 0 ch;
        directive fuel' fmt ap
          (process_precision (mk_flags (padc fl) (width fl) n (lflag fl) (altflag fl)))
      else if ch =? chr "*" then
        '(a, ap) ← va_arg ap;
        directive fuel' fmt ap
          (process_precision (mk_flags (padc fl) (width fl) (s32 a) (lflag fl) (altflag fl)))
      else if ch =? chr "." then
        directive fuel' fmt ap
          (mk_flags (padc fl) (if width fl <? 0 then 0 else width fl) (precision fl) (lflag fl) (altflag fl))
      else if ch =? chr "#" then
        directive fuel' fmt ap (mk_flags (padc fl) (width fl) (precision fl) (lflag fl) true)
      else if ch =? chr "l" then
        directive fuel' fmt ap (mk_flags (padc fl) (width fl) (precision fl) (lflag fl + 1) (altflag fl))
      else if ch =? chr "c" then '(a, ap) ← va_arg ap; putch (s32 a);; mret (fmt, ap)
      else if ch =? chr "e" then '(a, ap) ← va_arg ap; print_error a;; mret (fmt, ap)
      else if ch =? chr "s" then '(p, ap) ← va_arg ap; print_string fuel p fl;; mret (fmt, ap)
      else if ch =? chr "d" then '(a, ap) ← va_arg ap; print_int a fl;; mret (fmt, ap)
      else if ch =? chr "u" then
        '(a, ap) ← va_arg ap; number (getuint a (lflag fl)) 10 fl;; mret (fmt, ap)
      else if ch =? chr "o" then
        '(a, ap) ← va_arg ap; number (getuint a (lflag fl)) 8 fl;; mret (fmt, ap)
      else if ch =? chr "p" then
        putch (chr "0");; putch (chr "x");;
        '(a, ap) ← va_arg ap; number (u64 a) 16 fl;; mret (fmt, ap)
      else if ch =? chr "x" then
        '(a, ap) ← va_arg ap; number (getuint a (lflag fl)) 16 fl;; mret (fmt, ap)
      else if ch =? chr "%" then putch ch;; mret (fmt, ap)
      else
        putch (chr "%");;
        fmt ← back_to_percent fuel (fmt - 1);
        mret (fmt, ap)
  end.

(** The characters up to the next [%]; [None] at the end of the format. *)
Fixpoint literal (fuel : nat) (fmt : Z) : K S (option Z) :=
  match fuel with
  | O => timeout
  | Datatypes.S fuel =>
      ch ← in_mem (rd fmt);
      if bool_decide (ch <> chr "%") then
        if bool_decide (ch = 0) then mret None
        else putch ch;; literal fuel (fmt + 1)
      else mret (Some (fmt + 1))
  end.

Fixpoint vprintfmt (fuel : nat) (fmt : Z) (ap : list Z) : K S () :=
  match fuel with
  | O => timeout
  | Datatypes.S fuel' =>
      o ← literal fuel fmt;
      match o with
      | None => mret ()
      | Some fmt => '(fmt, ap) ← directive fuel fmt ap no_flags; vprintfmt fuel' fmt ap
      end
  end.
End formatter.

(** ** Printing into a buffer *)

Record sprintbuf := mk_sprintbuf { buf : Z; ebuf : Z; cnt : Z }.
Abbreviation bstate := (mem * sprintbuf)%type.

Definition sprintputch (ch : Z) : K bstate () :=
  modify (fun s => (s.1, mk_sprintbuf (buf s.2) (ebuf s.2) (s32 (cnt s.2 + 1))));;
  s ← get;
  when (buf s.2 <? ebuf s.2)
    (zoom fst (fun m s => (m, s.2)) (wr (buf s.2) ch);;
     modify (fun s => (s.1, mk_sprintbuf (buf s.2 + 1) (ebuf s.2) (cnt s.2)))).

Definition vsnprintf (fuel : nat) (str size fmt : Z) (ap : list Z) : K mem Z := fun m =>
  let b := mk_sprintbuf str (str + u64 size - 1) 0 in
  if bool_decide (str = 0) || (buf b >? ebuf b) then Done (- E_INVAL, m)
  else
    match vprintfmt fst sprintputch fuel fmt ap (m, b) with
    | Done (_, (m, b)) => (wr (buf b) 0;; mret (cnt b)) m
    | Panic => Panic
    | Timeout => Timeout
    end.

(** ** hash.c and rand.c *)

Definition GOLDEN_RATIO_PRIME_32 := 0x9e370001.
Definition hash32 (val bits : Z) : Z :=
  let hash := u32 (val * GOLDEN_RATIO_PRIME_32) in Z.shiftr hash (u32 (32 - bits)).

Definition RAND_MAX := 2147483647.
Definition rand (next : Z) : Z * Z :=
  let next := Z.land (u64 (next * 0x5DEECE66D + 0xB)) (Z.shiftl 1 48 - 1) in
  let result := Z.shiftr next 12 in
  (s32 (result mod (RAND_MAX + 1)), next).
Definition srand (seed : Z) : Z := seed.

(** ** Numbers *)

Definition digit_char (d : Z) : Z := if d <? 10 then 48 + d else 97 + (d - 10).

(** The digits of a number, most significant first. *)
Fixpoint digits (fuel : nat) (num base : Z) : list Z :=
  match fuel with
  | O => []
  | S fuel => (if num >=? base then digits fuel (num / base) base else []) ++ [digit_char (num mod base)]
  end.

(** A number as it is printed: padded on the left to its width. *)
Definition padded (l : list Z) (width padc : Z) : list Z :=
  replicate (Z.to_nat (width - Z.of_nat (length l))) padc ++ l.

Section numbers.
Context {S : Type} (putch : Z -> K S ()).

Lemma put_all_app l1 l2 s : put_all putch (l1 ++ l2) s = (put_all putch l1;; put_all putch l2) s.
Proof.
  revert s. induction l1 as [|c l1 IH]; intros s; [done|]. cbn [app put_all].
  unfold mbind, K_bind in *. destruct (putch c s) as [[[] s']| |]; [|done..]. apply IH.
Qed.

Lemma put_n_all n c s : put_n putch n c s = put_all putch (replicate n c) s.
Proof.
  revert s. induction n as [|n IH]; intros s; [done|]. cbn [put_n put_all replicate].
  unfold mbind, K_bind. destruct (putch c s) as [[[] s']| |]; [|done..]. apply IH.
Qed.

Lemma digits_table_lookup d : 0 <= d < 16 -> digits_table !! Z.to_nat d = Some (digit_char d).
Proof.
  intros H. assert (exists n, d = Z.of_nat n /\ (n < 16)%nat) as (n&->&Hn) by (exists (Z.to_nat d); lia).
  rewrite Nat2Z.id. do 16 (destruct n as [|n]; [done|]). lia.
Qed.

Lemma printnum_digits fuel num base width padc s :
  2 <= base <= 16 -> 0 <= num < base ^ Z.of_nat fuel -> (0 < fuel)%nat ->
  printnum putch fuel num base width padc s =
  put_all putch (padded (digits fuel num base) width padc) s.
Proof.
  intros Hb. revert num width s. induction fuel as [|fuel IH]; intros num width s Hn Hf; [lia|].
  pose proof (Z.mod_pos_bound num base) as Hm. cbn [printnum digits]. unfold padded.
  rewrite digits_table_lookup by lia. rewrite length_app, app_assoc, put_all_app.
  destruct (Z.geb_spec num base) as [Hge|Hlt].
  - assert (Hq : 0 <= num / base < base ^ Z.of_nat fuel).
    { split; [apply Z.div_pos; lia|]. apply Z.div_lt_upper_bound; [lia|].
      rewrite <-Z.pow_succ_r by lia. replace (Z.succ (Z.of_nat fuel)) with (Z.of_nat (Datatypes.S fuel)) by lia. apply Hn. }
    assert (0 < fuel)%nat.
    { destruct fuel; [|lia]. cbn in Hn. lia. }
    unfold mbind, K_bind. rewrite IH by done. unfold padded.
    replace (width - 1 - Z.of_nat (length (digits fuel (num / base) base)))
      with (width - Z.of_nat (length (digits fuel (num / base) base) + 1)) by lia.
    destruct (put_all _ _ s) as [[[] s']| |]; [|done..]. cbn [length].
    unfold unwrap. cbn. unfold mbind, K_bind. by destruct (putch _ s') as [[[] ?]| |].
  - unfold mbind, K_bind. rewrite put_n_all, app_nil_r. cbn [length Nat.add].
    replace (width - Z.of_nat 1) with (width - 1) by lia.
    destruct (put_all _ _ s) as [[[] s']| |]; [|done..].
    unfold unwrap. cbn. unfold mbind, K_bind. by destruct (putch _ s') as [[[] ?]| |].
Qed.
End numbers.

(** The value of a digit string. *)
Definition value (base v : Z) (l : list Z) : Z :=
  fold_left (fun v c => v * base + default 0 (digit c)) l v.

Lemma digit_digit_char d : 0 <= d < 16 -> digit (digit_char d) = Some d.
Proof.
  intros H. assert (exists n, d = Z.of_nat n /\ (n < 16)%nat) as (n&->&Hn) by (exists (Z.to_nat d); lia).
  do 16 (destruct n as [|n]; [done|]). lia.
Qed.

Definition digit_below (base c : Z) : Prop := 0 < c < 256 /\ exists d, digit c = Some d /\ 0 <= d < base.

Lemma digits_below fuel num base : 2 <= base <= 16 -> Forall (digit_below base) (digits fuel num base).
Proof.
  intros Hb. revert num. induction fuel as [|fuel IH]; intros num; cbn; [constructor|].
  apply Forall_app. split; [destruct (num >=? base); [apply IH|constructor]|].
  pose proof (Z.mod_pos_bound num base). constructor; [|constructor]. split.
  - unfold digit_char. destruct (Z.ltb_spec (num mod base) 10); lia.
  - exists (num mod base). rewrite digit_digit_char by lia. split; [done|lia].
Qed.

Lemma digits_value fuel num base :
  2 <= base <= 16 -> 0 <= num < base ^ Z.of_nat fuel -> (0 < fuel)%nat ->
  value base 0 (digits fuel num base) = num.
Proof.
  intros Hb. revert num. induction fuel as [|fuel IH]; intros num Hn Hf; [lia|].
  pose proof (Z.mod_pos_bound num base) as Hm. pose proof (Z.div_mod num base) as Hd.
  cbn [digits]. unfold value in *. rewrite fold_left_app. cbn [fold_left].
  rewrite digit_digit_char by lia. cbn [default].
  destruct (Z.geb_spec num base) as [Hge|Hlt].
  - rewrite IH; [cbn; lia| |].
    + split; [apply Z.div_pos; lia|]. apply Z.div_lt_upper_bound; [lia|].
      rewrite <-Z.pow_succ_r by lia. replace (Z.succ (Z.of_nat fuel)) with (Z.of_nat (S fuel)) by lia. apply Hn.
    + destruct fuel; [|lia]. cbn in Hn. lia.
  - cbn. rewrite Z.mod_small by lia. lia.
Qed.

Lemma value_ge base v l : 1 <= base -> 0 <= v -> Forall (digit_below base) l -> v <= value base v l.
Proof.
  intros Hb. revert v. induction l as [|c l IH]; intros v Hv Hl; cbn; [lia|].
  apply Forall_cons in Hl as [[_ (d&Hd&?)] Hl]. rewrite Hd. cbn.
  assert (v <= v * base + d) by nia. specialize (IH (v * base + d) ltac:(lia) Hl). unfold value in IH. lia.
Qed.

Lemma wp_strtol_digits l fuel m s base v (Q : Z * Z -> mem -> Prop) :
  cstring m s l -> Forall (digit_below base) l -> (length l < fuel)%nat -> 1 <= base -> 0 <= v ->
  value base v l < 2 ^ 63 ->
  Q (s + Z.of_nat (length l), value base v l) m -> wp (strtol_digits fuel s base v) Q m.
Proof.
  revert fuel s v. induction l as [|c l IH]; intros [|fuel] s v Hs Hl Hf Hb Hv Hlt HQ; cbn in Hf; try lia;
    cbn [strtol_digits].
  - apply cstring_nil in Hs. kstep. eapply wp_rd; [done|]. cbn. apply wp_ret.
    cbn in HQ. by rewrite Z.add_0_r in HQ.
  - apply cstring_cons in Hs as (Hc&_&Hs). apply Forall_cons in Hl as [[_ (d&Hd&?)] Hl].
    kstep. eapply wp_rd; [done|]. rewrite Hd. destruct (Z.geb_spec d base); [lia|].
    cbn in Hlt, HQ. rewrite Hd in Hlt, HQ. cbn in Hlt, HQ. fold (value base (v * base + d) l) in Hlt, HQ.
    pose proof (value_ge base (v * base + d) l Hb ltac:(nia) Hl).
    rewrite swrap_small by (cbn; nia). apply IH; [done..|lia|done|nia|done|].
    by replace (s + 1 + Z.of_nat (length l)) with (s + Z.of_nat (S (length l))) by lia.
Qed.

Lemma wp_strtol_space k l fuel m s (Q : Z -> mem -> Prop) :
  cstring m s (replicate k 32 ++ l) -> (k < fuel)%nat -> head l <> Some 32 -> head l <> Some 9 ->
  Q (s + Z.of_nat k) m -> wp (strtol_space fuel s) Q m.
Proof.
  revert fuel s. induction k as [|k IH]; intros [|fuel] s Hs Hf H1 H2 HQ; try lia; cbn [strtol_space].
  - rewrite Z.add_0_r in HQ. destruct l as [|c l].
    + apply cstring_nil in Hs. kstep. eapply wp_rd; [done|]. by apply wp_ret.
    + apply cstring_cons in Hs as (Hc&_). kstep. eapply wp_rd; [done|].
      rewrite bool_decide_false by naive_solver. by apply wp_ret.
  - cbn [replicate app] in Hs. apply cstring_cons in Hs as (Hc&_&Hs). kstep. eapply wp_rd; [done|].
    rewrite bool_decide_true by tauto. apply IH; [done|lia|done|done|].
    by replace (s + 1 + Z.of_nat k) with (s + Z.of_nat (S k)) by lia.
Qed.

Lemma cstring_app m s l1 l2 : cstring m s (l1 ++ l2) -> cstring m (s + Z.of_nat (length l1)) l2.
Proof.
  intros [H1 [_ H2]%Forall_app]. rewrite <-app_assoc in H1. apply bytes_at_app in H1 as [_ H1]. done.
Qed.

(** After spaces, a non-empty digit string is read as a whole. *)
Lemma wp_strtol k l fuel m s base (Q : Z * Z -> mem -> Prop) :
  cstring m s (replicate k 32 ++ l) -> l <> [] -> Forall (digit_below base) l ->
  (k + length l < fuel)%nat -> 2 <= base <= 36 ->
  (base = 16 -> l !! 1%nat <> Some 120) -> value base 0 l < 2 ^ 63 ->
  Q (value base 0 l, s + Z.of_nat k + Z.of_nat (length l)) m -> wp (strtol fuel s base) Q m.
Proof.
  intros Hsp Hne Hl Hf Hb Hx Hlt HQ. destruct l as [|c l]; [done|].
  assert (Hcd : c <> 32 /\ c <> 9 /\ c <> 43 /\ c <> 45).
  { apply Forall_cons in Hl as [[_ (d&Hd&_)] _]. split_and!; intros ->; done. }
  unfold strtol. kstep. eapply wp_strtol_space; [done|lia|cbn; naive_solver..|].
  apply cstring_app in Hsp as Hs. rewrite length_replicate in Hs. set (s1 := s + Z.of_nat k) in *.
  pose proof Hs as (Hc&_&Hs')%cstring_cons.
  kstep. eapply wp_rd; [done|]. rewrite !bool_decide_false by tauto. cbn zeta. kstep.
  eapply (wp_mono _ (fun b m' => b = false /\ m' = m)).
  { case_bool_decide as Hb16; [|by apply wp_ret]. kstep. eapply wp_rd; [done|].
    case_bool_decide as E; [|by apply wp_ret]. kstep.
    destruct l as [|c1 l].
    - apply cstring_nil in Hs'. eapply wp_rd; [done|]. by apply wp_ret.
    - apply cstring_cons in Hs' as (Hc1&_). eapply wp_rd; [done|]. apply wp_ret.
      rewrite bool_decide_false; [done|]. intros ->. apply Hx; [lia|done]. }
  intros b m' [-> ->]. kstep. rewrite bool_decide_false by lia. apply wp_ret.
  kstep. eapply wp_strtol_digits; [done|done|lia|lia|lia|done|]. by apply wp_ret.
Qed.

Lemma digit_below_not_x base c : base <= 16 -> digit_below base c -> c <> 120.
Proof. intros Hb [_ (d&Hd&?)] ->. cbn in Hd. injection Hd as <-. lia. Qed.

(** ** The buffer *)

Section keeps_output.
Context {S : Type} (mem_of : S -> mem) (putch : Z -> K S ()) (I : S -> Prop)
  (Hputch : forall c, keeps I (putch c)).
#[local] Hint Resolve Hputch : kernel.

Lemma keeps_in_mem {A} (m : K mem A) : keeps I (in_mem mem_of m).
Proof. apply keeps_read. Qed.
#[local] Hint Resolve keeps_in_mem : kernel.
Lemma keeps_put_n n c : keeps I (put_n putch n c).
Proof. induction n; cbn; kkeeps. Qed.
Lemma keeps_put_all l : keeps I (put_all putch l).
Proof. induction l; cbn; kkeeps. Qed.
#[local] Hint Resolve keeps_put_n keeps_put_all : kernel.
Lemma keeps_printnum fuel num base w c : keeps I (printnum putch fuel num base w c).
Proof. revert num w. induction fuel; intros; cbn; kkeeps. Qed.
#[local] Hint Resolve keeps_printnum : kernel.
Lemma keeps_print_int a fl : keeps I (print_int putch a fl).
Proof. unfold print_int, number. cbv zeta. kkeeps. Qed.
Lemma keeps_put_string fuel p w pr alt : keeps I (put_string mem_of putch fuel p w pr alt).
Proof. revert p w pr. induction fuel; intros; cbn; kkeeps. Qed.
Lemma keeps_put_literal l w pr : keeps I (put_literal putch l w pr).
Proof. revert w pr. induction l; intros; cbn; kkeeps. Qed.
#[local] Hint Resolve keeps_print_int keeps_put_string keeps_put_literal : kernel.
Lemma keeps_print_string fuel p fl : keeps I (print_string mem_of putch fuel p fl).
Proof. unfold print_string. cbv zeta. kkeeps. Qed.
Lemma keeps_print_error a : keeps I (print_error putch a).
Proof. unfold print_error. cbv zeta. kkeeps. Qed.
Lemma keeps_read_number fuel fmt n ch : keeps I (read_number mem_of fuel fmt n ch).
Proof. revert fmt n ch. induction fuel; intros; cbn; kkeeps. Qed.
Lemma keeps_back_to_percent fuel fmt : keeps I (back_to_percent mem_of fuel fmt).
Proof. revert fmt. induction fuel; intros; cbn; kkeeps. Qed.
Lemma keeps_va_arg ap : keeps I (va_arg ap).
Proof. destruct ap; cbn; kkeeps. Qed.
#[local] Hint Resolve keeps_print_string keeps_print_error keeps_read_number
  keeps_back_to_percent keeps_va_arg : kernel.
Lemma keeps_directive fuel fmt ap fl : keeps I (directive mem_of putch fuel fmt ap fl).
Proof.
  revert fmt ap fl. induction fuel as [|fuel IH]; intros; [apply keeps_timeout|].
  cbn [directive]. cbv zeta. unfold number. kkeeps.
Qed.
Lemma keeps_literal fuel fmt : keeps I (literal mem_of putch fuel fmt).
Proof. revert fmt. induction fuel; intros; cbn; kkeeps. Qed.
#[local] Hint Resolve keeps_directive keeps_literal : kernel.
Lemma keeps_vprintfmt fuel fmt ap : keeps I (vprintfmt mem_of putch fuel fmt ap).
Proof. revert fmt ap. induction fuel; intros; [apply keeps_timeout|]. cbn [vprintfmt]. kkeeps. Qed.
End keeps_output.

(** Two runs of the formatter whose [putch] and memories are related. *)
Section sim_output.
Context {S1 S2 : Type} (mem1 : S1 -> mem) (mem2 : S2 -> mem) (put1 : Z -> K S1 ()) (put2 : Z -> K S2 ()) (R : S1 -> S2 -> Prop)
  (Hput : forall c, sim R (put1 c) (put2 c)) (Hmem : forall s1 s2, R s1 s2 -> mem1 s1 ⊆ mem2 s2).
#[local] Hint Resolve Hput : kernel.

(** What reads a memory reads the same in a larger one. *)
Lemma sim_rd a : sim (⊆@{mem}) (rd a) (rd a).
Proof.
  intros m1 m2 c m1' Hs. unfold rd, unwrap. destruct (m1 !! a) as [v|] eqn:E; [|done]. intros [= <- <-].
  exists m2. by rewrite (lookup_weaken _ _ _ _ E Hs).
Qed.
Lemma sim_strnlen fuel s len : sim (⊆@{mem}) (strnlen fuel s len) (strnlen fuel s len).
Proof.
  unfold strnlen. generalize 0 as cnt. revert s. induction fuel as [|fuel IH]; intros s cnt; cbn [strnlen_loop]; [apply sim_timeout|].
  destruct (cnt <? len); [|apply sim_ret]. apply sim_bind; [apply sim_rd|]. intros c. destruct (bool_decide (c <> 0)); [apply IH|apply sim_ret].
Qed.
Lemma sim_in_mem {A} (m : K mem A) : sim (⊆@{mem}) m m -> sim R (in_mem mem1 m) (in_mem mem2 m).
Proof.
  intros Hm s1 s2 a s1' HR. unfold in_mem, zoom. destruct (m (mem1 s1)) as [[b h]| |] eqn:E; [|done..]. intros [= <- <-].
  destruct (Hm _ _ _ _ (Hmem _ _ HR) E) as (h2&->&_). by exists s2.
Qed.
Lemma sim_in_rd a : sim R (in_mem mem1 (rd a)) (in_mem mem2 (rd a)).
Proof. apply sim_in_mem, sim_rd. Qed.
Lemma sim_in_strnlen fuel s len : sim R (in_mem mem1 (strnlen fuel s len)) (in_mem mem2 (strnlen fuel s len)).
Proof. apply sim_in_mem, sim_strnlen. Qed.
#[local] Hint Resolve sim_in_rd sim_in_strnlen : kernel.
Lemma sim_put_n n c : sim R (put_n put1 n c) (put_n put2 n c).
Proof. induction n; cbn; ksim. Qed.
Lemma sim_put_all l : sim R (put_all put1 l) (put_all put2 l).
Proof. induction l; cbn; ksim. Qed.
#[local] Hint Resolve sim_put_n sim_put_all : kernel.
Lemma sim_printnum fuel num base w c : sim R (printnum put1 fuel num base w c) (printnum put2 fuel num base w c).
Proof. revert num w. induction fuel; intros; cbn; ksim. Qed.
#[local] Hint Resolve sim_printnum : kernel.
Lemma sim_print_int a fl : sim R (print_int put1 a fl) (print_int put2 a fl).
Proof. unfold print_int, number. cbv zeta. ksim. Qed.
Lemma sim_put_string fuel p w pr alt : sim R (put_string mem1 put1 fuel p w pr alt) (put_string mem2 put2 fuel p w pr alt).
Proof. revert p w pr. induction fuel; intros; cbn; ksim. Qed.
Lemma sim_put_literal l w pr : sim R (put_literal put1 l w pr) (put_literal put2 l w pr).
Proof. revert w pr. induction l; intros; cbn; ksim. Qed.
#[local] Hint Resolve sim_print_int sim_put_string sim_put_literal : kernel.
Lemma sim_print_string fuel p fl : sim R (print_string mem1 put1 fuel p fl) (print_string mem2 put2 fuel p fl).
Proof. unfold print_string. cbv zeta. ksim. Qed.
Lemma sim_print_error a : sim R (print_error put1 a) (print_error put2 a).
Proof. unfold print_error. cbv zeta. ksim. Qed.
Lemma sim_read_number fuel fmt n ch : sim R (read_number mem1 fuel fmt n ch) (read_number mem2 fuel fmt n ch).
Proof. revert fmt n ch. induction fuel; intros; cbn; ksim. Qed.
Lemma sim_back_to_percent fuel fmt : sim R (back_to_percent mem1 fuel fmt) (back_to_percent mem2 fuel fmt).
Proof. revert fmt. induction fuel; intros; cbn; ksim. Qed.
Lemma sim_va_arg ap : sim R (va_arg ap) (va_arg ap).
Proof. destruct ap; cbn; ksim. Qed.
#[local] Hint Resolve sim_print_string sim_print_error sim_read_number sim_back_to_percent sim_va_arg : kernel.
Lemma sim_directive fuel fmt ap fl : sim R (directive mem1 put1 fuel fmt ap fl) (directive mem2 put2 fuel fmt ap fl).
Proof.
  revert fmt ap fl. induction fuel as [|fuel IH]; intros; [apply sim_timeout|].
  cbn [directive]. cbv zeta. unfold number. ksim.
Qed.
Lemma sim_literal fuel fmt : sim R (literal mem1 put1 fuel fmt) (literal mem2 put2 fuel fmt).
Proof. revert fmt. induction fuel; intros; cbn; ksim. Qed.
#[local] Hint Resolve sim_directive sim_literal : kernel.
Lemma sim_vprintfmt fuel fmt ap : sim R (vprintfmt mem1 put1 fuel fmt ap) (vprintfmt mem2 put2 fuel fmt ap).
Proof. revert fmt ap. induction fuel; intros; [apply sim_timeout|]. cbn [vprintfmt]. ksim. Qed.
End sim_output.

(** The whole text: what a [putch] gets that keeps everything. *)
Definition collect (c : Z) : K (mem * list Z) () := modify (fun s => (s.1, s.2 ++ [c])).
Definition formatted (fuel : nat) (fmt : Z) (ap : list Z) (m : mem) : option (list Z) :=
  match vprintfmt fst collect fuel fmt ap (m, []) with Done (_, (_, t)) => Some t | _ => None end.

(** The memory without the buffer. *)
Definition outside (str size : Z) (m : mem) : mem := filter (fun p => ~ (str <= p.1 < str + size)) m.

Definition fits (size : Z) (t : list Z) : list Z := u8 <$> take (Z.to_nat (size - 1)) t.

(** The text [t] has been printed: the buffer has the part that fits. *)
Record printed_to (m0 : mem) (str size : Z) (s1 : mem * list Z) (s2 : bstate) : Prop := {
  pt_mem : s1.1 = outside str size m0;
  pt_cnt : cnt s2.2 = s32 (Z.of_nat (length s1.2));
  pt_ebuf : ebuf s2.2 = str + size - 1;
  pt_buf : buf s2.2 = str + Z.min (Z.of_nat (length s1.2)) (size - 1);
  pt_text : bytes_at s2.1 str (fits size s1.2);
  pt_mapped : mapped s2.1 str size;
  pt_outside : unchanged_outside m0 s2.1 str size;
}.

(** [n] characters have been put into the buffer of [size] bytes at [str]. *)
Definition in_buffer (m0 : mem) (str size : Z) (s : bstate) : Prop := exists n,
  0 <= n /\ cnt s.2 = s32 n /\ ebuf s.2 = str + size - 1 /\ buf s.2 = str + Z.min n (size - 1) /\
  unchanged_outside m0 s.1 str size.

Lemma s32_succ n : s32 (s32 n + 1) = s32 (n + 1).
Proof.
  unfold swrap. f_equal.
  change (u32 (u32 (n + 2 ^ 31) - 2 ^ 31 + 1 + 2 ^ 31) = u32 (n + 1 + 2 ^ 31)).
  replace (u32 (n + 2 ^ 31) - 2 ^ 31 + 1 + 2 ^ 31) with (u32 (n + 2 ^ 31) + 1) by lia.
  rewrite uwrap_add_l. f_equal. lia.
Qed.

Lemma keeps_sprintputch m0 str size c : 0 < size -> keeps (in_buffer m0 str size) (sprintputch c).
Proof.
  intros Hs [m b] [] s' E (n&Hn&Hc&He&Hb&Hu). cbn in Hc, He, Hb, Hu. unfold sprintputch in E.
  apply bind_Done in E as (?&?&[= <- <-]&E). apply bind_Done in E as (?&?&[= <- <-]&E). cbn in E.
  destruct (Z.ltb_spec (buf b) (ebuf b)); cbn in E.
  - apply bind_Done in E as (?&s1&E1&[= <-]). unfold zoom in E1. cbn in E1. unfold wr in E1.
    destruct (rd (buf b) m) as [[v m1]| |] eqn:Er; cbn in E1;
      unfold mbind, K_bind in E1; rewrite Er in E1; [|done..].
    unfold rd, unwrap in Er. destruct (m !! buf b); [|done]. injection Er as <- <-.
    injection E1 as <- <-. exists (n + 1). cbn. split_and!; [lia|by rewrite Hc, s32_succ|done|lia|].
    intros x Hx. rewrite lookup_insert_ne by lia. by apply Hu.
  - injection E as <-. exists (n + 1). cbn. split_and!; [lia|by rewrite Hc, s32_succ|done|lia|done].
Qed.

Lemma outside_below m0 str size s1 s2 : printed_to m0 str size s1 s2 -> s1.1 ⊆ s2.1.
Proof.
  intros [-> _ _ _ _ _ H]. apply map_subseteq_spec. intros x v [Hx Hn]%map_lookup_filter_Some. rewrite <-Hx. by apply H.
Qed.

Lemma printed_none m str size : 0 < size -> mapped m str size -> printed_to m str size (outside str size m, []) (m, mk_sprintbuf str (str + size - 1) 0).
Proof. intros Hs Hm. split; cbn; try done; [lia|]. unfold fits. by rewrite take_nil. Qed.

Lemma fits_short size t : Z.of_nat (length t) <= size - 1 -> fits size t = u8 <$> t.
Proof. intros H. unfold fits. by rewrite take_ge by lia. Qed.

Lemma fits_length size t : 0 < size -> Z.of_nat (length (fits size t)) = Z.min (Z.of_nat (length t)) (size - 1).
Proof. intros H. unfold fits. rewrite length_fmap, length_take. lia. Qed.

Lemma sim_collect m0 str size c : 0 < size -> sim (printed_to m0 str size) (collect c) (sprintputch c).
Proof.
  intros Hs [mh t] [m b] [] s1' [A1 A2 A3 A4 A5 A6 A7] [= <-]. cbn in *.
  assert (E : s32 (cnt b + 1) = s32 (Z.of_nat (length (t ++ [c])))) by (rewrite A2, s32_succ, length_app; f_equal; cbn; lia).
  enough (Hw : wp (sprintputch c) (fun _ s' => printed_to m0 str size (mh, t ++ [c]) s') (m, b)) by (apply wp_Done in Hw as ([]&s'&?&?); by exists s').
  unfold sprintputch. kstep. kstep. kstep. kstep. cbn [fst snd buf ebuf cnt]. destruct (Z.ltb_spec (buf b) (ebuf b)) as [Hlt|Hge]; cbn [when].
  - kstep. kstep. eapply wp_wr; [apply A6; cbn; lia|]. kstep. split; cbn; try done; [rewrite length_app; cbn; lia| | |].
    + rewrite !fits_short in * by (rewrite ?length_app; cbn; lia). rewrite fmap_app. apply bytes_at_app. rewrite length_fmap.
      replace (buf b) with (str + Z.of_nat (length t)) by lia. split; [apply bytes_at_insert_ne; [rewrite length_fmap; lia|done]|].
      intros [|i] v; [|done]. intros [= <-]. rewrite Z.add_0_r. apply lookup_insert_eq.
    + intros x Hx. destruct (decide (x = buf b)) as [->|]; [rewrite lookup_insert_eq; by eexists|]. rewrite lookup_insert_ne by done. by apply A6.
    + intros x Hx. rewrite lookup_insert_ne by lia. by apply A7.
  - kstep. split; cbn; try done; [rewrite length_app; cbn; lia|]. unfold fits in *. by rewrite take_app_le by lia.
Qed.

(** ** Properties *)

(** Property C34. A number printed in base 2 to 16, padded with spaces to any
    width, consists of the [padded] digits, most significant first; reading it
    back with [strtol] in that base gives the number and stops at its end. *)
Theorem printnum_strtol_roundtrip num base width m a fuel :
  0 <= num < 2 ^ 63 -> 2 <= base <= 16 ->
  let out := padded (digits 64 num base) width 32 in
  cstring m a out -> (length out < fuel)%nat ->
  (forall S (putch : Z -> K S ()) (s : S), printnum putch 64 num base width 32 s = put_all putch out s) /\
  strtol fuel a base m = Done ((num, a + Z.of_nat (length out)), m).
Proof.
  intros Hn Hb out Hm Hf.
  assert (Hpow : num < base ^ Z.of_nat 64).
  { pose proof (Z.pow_le_mono_l 2 base (Z.of_nat 64)) as H. change (2 ^ Z.of_nat 64) with (2 ^ 64) in H.
    assert (2 ^ 63 < 2 ^ 64) by reflexivity. lia. }
  split; [intros S putch s; apply printnum_digits; [done|lia|lia]|].
  pose proof (digits_value 64 num base Hb ltac:(lia) ltac:(lia)) as Hv.
  pose proof (digits_below 64 num base Hb) as Hd.
  assert (wp (strtol fuel a base) (fun r m' => r = (num, a + Z.of_nat (length out)) /\ m' = m) m) as Hw.
  { unfold out, padded in *. rewrite length_app, length_replicate in *.
    eapply wp_strtol; [exact Hm| |done|lia|lia| |lia|].
    - cbn [digits]. by intros [_ ?]%app_nil.
    - intros _ H. apply list_elem_of_lookup_2 in H. rewrite Forall_forall in Hd.
      apply (digit_below_not_x base 120); [lia|by apply Hd|done].
    - rewrite Hv. split; [|done]. f_equal. lia. }
  apply wp_Done in Hw as (r&m'&E&->&->). done.
Qed.

(** Property C33. Whatever the format and its arguments, [vsnprintf] writes only to
    the buffer it was given and ends it with a zero; NULL is refused.  When the
    format and the strings lie outside the buffer and their text is [t], the call
    returns, with the length of the whole of [t], even where the buffer is shorter;
    the buffer then holds the first [size - 1] characters of [t] and a zero. *)
Theorem vsnprintf_bounded fuel str size fmt ap m :
  0 < size < 2 ^ 64 ->
  (forall r m', vsnprintf fuel str size fmt ap m = Done (r, m') ->
     (str = 0 /\ r = - E_INVAL /\ m' = m) \/
     (exists n, 0 <= n < size /\ m' !! (str + n) = Some 0 /\ unchanged_outside m m' str size)) /\
  (forall t, str <> 0 -> mapped m str size -> formatted fuel fmt ap (outside str size m) = Some t ->
     exists m', vsnprintf fuel str size fmt ap m = Done (s32 (Z.of_nat (length t)), m') /\
       bytes_at m' str (fits size t ++ [0]) /\ unchanged_outside m m' str size).
Proof.
  intros Hs. unfold vsnprintf. rewrite uwrap_small by lia. cbn [buf ebuf]. destruct (Z.gtb_spec str (str + size - 1)); [lia|]. split.
  - intros r m' E. case_bool_decide as H0; [injection E as <- <-; by left|]. right. cbn in E.
    destruct (vprintfmt _ _ _ _ _ _) as [[[] [m1 b]]| |] eqn:Ev; [|done..].
    assert (in_buffer m str size (m1, b)) as (n&Hn&Hc&He&Hb&Hu).
    { eapply keeps_vprintfmt; [intros; apply keeps_sprintputch; lia|exact Ev|].
      exists 0. cbn. split_and!; [lia|done|done|lia|by intros x Hx]. }
    cbn in Hc, He, Hb, Hu. apply bind_Done in E as ([]&m2&Ew&[= <- <-]).
    unfold wr in Ew. apply bind_Done in Ew as (v&m3&Er&[= <-]).
    unfold rd, unwrap in Er. destruct (m1 !! buf b); [|done]. injection Er as <- <-.
    exists (Z.min n (size - 1)). split_and!; [lia|lia|rewrite <-Hb; apply lookup_insert_eq|].
    intros x Hx. rewrite lookup_insert_ne by lia. by apply Hu.
  - intros t H0 Hm Ht. rewrite bool_decide_false by done. cbn [orb]. unfold formatted in Ht.
    destruct (vprintfmt fst collect _ _ _ _) as [[[] [mh t']]| |] eqn:Ev; [|done..]. injection Ht as ->.
    destruct (sim_vprintfmt fst fst collect sprintputch (printed_to m str size) (fun c => sim_collect m str size c (proj1 Hs))
      (outside_below m str size) fuel fmt ap (outside str size m, []) (m, mk_sprintbuf str (str + size - 1) 0) () (mh, t))
      as ([m1 b]&->&[_ A2 _ A4 A5 A6 A7]); [apply printed_none; [lia|done]|exact Ev|]. cbn in A2, A4, A5, A6, A7.
    assert (Hw : wp (wr (buf b) 0;; mret (cnt b)) (fun r m' => r = s32 (Z.of_nat (length t)) /\ bytes_at m' str (fits size t ++ [0]) /\ unchanged_outside m m' str size) m1).
    { kstep. eapply wp_wr; [apply A6; lia|]. kstep. split; [done|]. pose proof (fits_length size t (proj1 Hs)) as Hl. split.
      - apply bytes_at_app. split; [apply bytes_at_insert_ne; [lia|done]|]. rewrite Hl, <-A4. intros [|i] v; [|done]. intros [= <-]. rewrite Z.add_0_r. apply lookup_insert_eq.
      - intros x Hx. rewrite lookup_insert_ne by lia. by apply A7. }
    apply wp_Done in Hw as (r&m'&E&->&?). by exists m'.
Qed.

(** [hash32] stays below [2^bits]; [rand] stays within
    [0, RAND_MAX] and its state within 48 bits. *)
Theorem hash32_rand_range val bits seed :
  1 <= bits <= 32 ->
  0 <= hash32 val bits < 2 ^ bits /\
  0 <= (rand seed).1 <= RAND_MAX /\ 0 <= (rand seed).2 < 2 ^ 48.
Proof.
  intros Hb. split_and!.
  - unfold hash32. cbv zeta. apply Z.shiftr_nonneg, uwrap_range. lia.
  - unfold hash32. cbv zeta. rewrite (uwrap_small 32 (32 - bits)) by lia.
    rewrite Z.shiftr_div_pow2 by lia. apply Z.div_lt_upper_bound; [lia|].
    rewrite <-Z.pow_add_r by lia. replace (32 - bits + bits) with 32 by lia. by apply uwrap_range.
  - cbn [rand fst]. unfold rand. cbv zeta. cbn [fst].
    pose proof (Z.mod_pos_bound (Z.shiftr (Z.land (u64 (seed * 0x5DEECE66D + 0xB)) (Z.shiftl 1 48 - 1)) 12)
      (RAND_MAX + 1) ltac:(done)) as H. rewrite swrap_small; [lia|done|]. change (RAND_MAX + 1) with (2 ^ 31) in *. lia.
  - unfold rand. cbv zeta. cbn [fst].
    pose proof (Z.mod_pos_bound (Z.shiftr (Z.land (u64 (seed * 0x5DEECE66D + 0xB)) (Z.shiftl 1 48 - 1)) 12)
      (RAND_MAX + 1) ltac:(done)) as H. rewrite swrap_small; [|done|]; change (RAND_MAX + 1) with (2 ^ 31) in *;
      change RAND_MAX with (2 ^ 31 - 1); lia.
  - unfold rand. cbv zeta. cbn [snd]. apply Z.land_nonneg. right. done.
  - unfold rand. cbv zeta. cbn [snd]. change (Z.shiftl 1 48 - 1) with (Z.ones 48).
    rewrite Z.land_ones by done. by apply Z.mod_pos_bound.
Qed.

(** ** Witnesses *)

(** The format "v=%5d %s" at 300, a string at 320, an 8-byte buffer at 400. *)
Definition ex_fmt_mem : mem :=
  poke 300 (codes "v=%5d %s" ++ [0]) (poke 320 (codes "pages" ++ [0]) (poke 400 (replicate 8 255) ∅)).
Definition ex_print : outcome (Z * mem) := vsnprintf 40 400 8 300 [42; 320] ex_fmt_mem.

(** Of the 13 characters "v=   42 pages" the 8 bytes hold 7. *)
Lemma vsnprintf_bounded_witness :
  formatted 40 300 [42; 320] (outside 400 8 ex_fmt_mem) = Some (codes "v=   42 pages") /\
  exists m', vsnprintf 40 400 8 300 [42; 320] ex_fmt_mem = Done (13, m') /\
    bytes_at m' 400 (codes "v=   42" ++ [0]) /\ unchanged_outside ex_fmt_mem m' 400 8.
Proof.
  assert (E : formatted 40 300 [42; 320] (outside 400 8 ex_fmt_mem) = Some (codes "v=   42 pages")) by (vm_compute; reflexivity).
  split; [exact E|]. refine (proj2 (vsnprintf_bounded 40 400 8 300 [42; 320] ex_fmt_mem _) (codes "v=   42 pages") _ _ E); [lia|done|].
  intros x Hx. assert (x = 400 \/ x = 401 \/ x = 402 \/ x = 403 \/ x = 404 \/ x = 405 \/ x = 406 \/ x = 407) as Hc by lia.
  repeat (destruct Hc as [->|Hc]; [eexists; vm_compute; reflexivity|]). subst x. eexists. vm_compute. reflexivity.
Defined.

Lemma printnum_strtol_roundtrip_witness :
  padded (digits 64 48879 16) 6 32 = codes "  beef" /\
  strtol 9 100 16 (poke 100 (codes "  beef" ++ [0]) ∅) =
    Done ((48879, 106), poke 100 (codes "  beef" ++ [0]) ∅).
Proof.
  split; [vm_compute; reflexivity|].
  refine (proj2 (printnum_strtol_roundtrip 48879 16 6 (poke 100 (codes "  beef" ++ [0]) ∅) 100 9 _ _ _ _)).
  - lia.
  - lia.
  - change (padded (digits 64 48879 16) 6 32) with (codes "  beef"). split.
    + unfold bytes_at. intros i b Hi. do 7 (destruct i as [|i]; [injection Hi as <-; reflexivity|]). done.
    + repeat constructor; vm_compute; reflexivity.
  - vm_compute. lia.
Defined.

Lemma hash32_rand_range_witness :
  0 <= hash32 7 10 < 2 ^ 10 /\ 0 <= (rand 1).1 <= RAND_MAX /\ 0 <= (rand 1).2 < 2 ^ 48.
Proof. refine (hash32_rand_range 7 10 1 _). lia. Defined.
