(* ===== verification/Iobuf.v ===== *)
(** kern/fs/iobuf.c: the buffer descriptor of file I/O.  A transfer copies as
    much as both sides hold, and moves the descriptor past it. *)
From S2P Require Import Prelude Cstring.

(** ** Data and operations *)

Record iobuf := mk_iobuf { io_base : Z; io_offset : Z; io_len : Z; io_resid : Z }.
Abbreviation iostate := (mem * iobuf)%type.

Definition iobuf_used (iob : iobuf) : Z := u64 (io_len iob - io_resid iob).

Definition iobuf_init (base len offset : Z) : iobuf := mk_iobuf base offset len len.

Definition on_mem {A} (m : K mem A) : K iostate A := zoom fst (fun m s => (m, s.2)) m.

Definition iobuf_skip (n : Z) : K iostate () :=
  '(_, iob) ← get;
  assert (io_resid iob >=? n);;
  modify (fun s => (s.1, mk_iobuf (io_base iob + n) (io_offset iob + n) (io_len iob) (u64 (io_resid iob - n)))).

(** The result and what is stored through [copiedp]. *)
Definition iobuf_move (data len : Z) (m2b : bool) : K iostate (Z * Z) :=
  '(_, iob) ← get;
  let alen := if io_resid iob >? len then len else io_resid iob in
  len ← (if alen >? 0 then
           let '(src, dst) := if m2b then (data, io_base iob) else (io_base iob, data) in
           on_mem (memmove dst src alen);;
           iobuf_skip alen;;
           mret (u64 (len - alen))
         else mret len);
  mret (if bool_decide (len = 0) then 0 else - E_NO_MEM, alen).

Definition iobuf_move_zeros (len : Z) : K iostate (Z * Z) :=
  '(_, iob) ← get;
  let alen := if io_resid iob >? len then len else io_resid iob in
  len ← (if alen >? 0 then
           on_mem (memset (io_base iob) 0 alen);;
           iobuf_skip alen;;
           mret (u64 (len - alen))
         else mret len);
  mret (if bool_decide (len = 0) then 0 else - E_NO_MEM, alen).

(** ** Properties *)

(** The descriptor after [n] bytes. *)
Definition skipped (iob : iobuf) (n : Z) : iobuf :=
  mk_iobuf (io_base iob + n) (io_offset iob + n) (io_len iob) (io_resid iob - n).

Definition iobuf_wf (iob : iobuf) : Prop := 0 <= io_resid iob <= io_len iob /\ io_len iob < 2 ^ 64.

Lemma skipped_wf iob n : iobuf_wf iob -> 0 <= n <= io_resid iob -> iobuf_wf (skipped iob n).
Proof. unfold iobuf_wf. cbn. lia. Qed.

Lemma wp_iobuf_skip m iob n (Q : () -> iostate -> Prop) :
  iobuf_wf iob -> 0 <= n <= io_resid iob -> Q () (m, skipped iob n) -> wp (iobuf_skip n) Q (m, iob).
Proof.
  intros [Hr Hl] Hn HQ. unfold iobuf_skip. kstep. kstep. kstep. kstep.
  { destruct (Z.geb_spec (io_resid iob) n); [done|lia]. }
  kstep. cbn [fst]. rewrite uwrap_small by lia. exact HQ.
Qed.

Lemma alen_min a b : (if a >? b then b else a) = Z.min a b.
Proof. destruct (Z.gtb_spec a b); lia. Qed.

(** [iobuf_move] transfers exactly [min(io_resid, len)] bytes, in
    the direction asked for, overlap or not; it writes to no other byte, moves
    the descriptor past the bytes transferred, reports their number, and fails
    exactly when they are fewer than asked for. *)
Theorem iobuf_move_spec m iob data (m2b : bool) l l' :
  iobuf_wf iob -> Z.of_nat (length (l ++ l')) < 2 ^ 64 -> Forall is_byte l ->
  Z.of_nat (length l) = Z.min (io_resid iob) (Z.of_nat (length (l ++ l'))) ->
  let src := if m2b then data else io_base iob in
  let dst := if m2b then io_base iob else data in
  bytes_at m src l -> mapped m dst (Z.of_nat (length l)) ->
  wp (iobuf_move data (Z.of_nat (length (l ++ l'))) m2b) (fun r s' =>
    r = (if bool_decide (l' = []) then 0 else - E_NO_MEM, Z.of_nat (length l)) /\
    bytes_at s'.1 dst l /\ unchanged_outside m s'.1 dst (Z.of_nat (length l)) /\
    s'.2 = skipped iob (Z.of_nat (length l)) /\ iobuf_wf s'.2) (m, iob).
Proof.
  intros Hw Hlen Hl Hmin src dst Hb Hm. unfold iobuf_move. kstep. kstep. cbv zeta.
  rewrite alen_min, <-Hmin. rewrite length_app in *.
  assert (Hfin : forall m', bytes_at m' dst l -> unchanged_outside m m' dst (Z.of_nat (length l)) ->
    (if bool_decide (Z.of_nat (length l + length l') - Z.of_nat (length l) = 0) then 0 else - E_NO_MEM,
       Z.of_nat (length l)) = (if bool_decide (l' = []) then 0 else - E_NO_MEM, Z.of_nat (length l)) /\
    bytes_at m' dst l /\ unchanged_outside m m' dst (Z.of_nat (length l)) /\
    skipped iob (Z.of_nat (length l)) = skipped iob (Z.of_nat (length l)) /\
    iobuf_wf (skipped iob (Z.of_nat (length l)))).
  { intros m' H1 H2. split_and!; [|done|done|done|apply skipped_wf; [done|lia]].
    destruct l' as [|c l']; [rewrite !bool_decide_true by (done || cbn; lia); done|].
    rewrite !bool_decide_false by (done || cbn; lia). done. }
  kstep. destruct (Z.gtb_spec (Z.of_nat (length l)) 0) as [Hpos|Hz].
  - assert ((if m2b then (data, io_base iob) else (io_base iob, data)) = (src, dst)) as -> by (by destruct m2b).
    kstep. unfold on_mem. kstep. cbn [fst]. apply wp_memmove; [done|done|done|]. intros m' H1 H2.
    cbn [snd]. kstep. apply wp_iobuf_skip; [done|lia|]. apply wp_ret. rewrite uwrap_small by lia. apply wp_ret.
    by apply Hfin.
  - destruct l; [|cbn in Hz; lia]. apply wp_ret, wp_ret. cbn [length] in *.
    specialize (Hfin m ltac:(by intros i c) ltac:(by intros x Hx)). rewrite Z.sub_0_r in Hfin.
    destruct Hfin as (?&?&?&_&?). split_and!; try done. cbn. destruct iob. cbn. unfold skipped. cbn. f_equal; lia.
Qed.

(** ** Witness: five bytes are asked for, three are left in the buffer. *)
Lemma iobuf_move_spec_witness :
  wp (iobuf_move 200 5 false) (fun r s' =>
    r = (- E_NO_MEM, 3) /\ bytes_at s'.1 200 [104; 105; 33] /\ unchanged_outside ex_mem s'.1 200 3 /\
    s'.2 = skipped (mk_iobuf 100 7 8 3) 3 /\ iobuf_wf s'.2) (ex_mem, mk_iobuf 100 7 8 3).
Proof.
  refine (iobuf_move_spec ex_mem (mk_iobuf 100 7 8 3) 200 false [104; 105; 33] [0; 0] _ _ _ _ ex_bytes _).
  - unfold iobuf_wf. cbn. lia.
  - cbn. lia.
  - repeat constructor; discriminate.
  - reflexivity.
  - intros x Hx. cbn in Hx. assert (x = 200 \/ x = 201 \/ x = 202) as E by lia.
    destruct E as [->|[->| ->]]; by eexists.
Defined.
