(* ===== verification/Bitmap.v ===== *)
(** kern/fs/sfs/bitmap.c: the bitmap of free disk blocks, words of 32 bits in
    which a set bit is a free block.  [free_bit b i] reads one bit; the theorems
    say what creation, allocation, test and release do to the bits. *)
From S2P Require Import Prelude.

(** ** Data *)

Definition WORD_BITS := 32.

Record bitmap := mk_bitmap { nbits : Z; nwords : Z; map : list Z }.

Definition set_map (ws : list Z) (b : bitmap) : bitmap := mk_bitmap (nbits b) (nwords b) ws.
Definition word_at (ix : Z) : K bitmap Z := fun b => unwrap (if ix <? 0 then None else map b !! Z.to_nat ix) b.
Definition set_word (ix w : Z) : K bitmap () :=
  _ ← word_at ix; modify (fun b => set_map (<[Z.to_nat ix := w]> (map b)) b).

(** ** Operations *)

(** The loop that marks the bits past the end as used. *)
Fixpoint clear_overbits (n : nat) (w overbits : Z) : Z :=
  match n with
  | O => w
  | S n => if overbits <? WORD_BITS then clear_overbits n (Z.lxor w (u32 (Z.shiftl 1 overbits))) (overbits + 1) else w
  end.

(** [kmalloc1], [kmalloc2]: whether the two calls of [kmalloc] succeed. *)
Definition bitmap_create (kmalloc1 kmalloc2 : bool) (n : Z) : outcome (option bitmap) :=
  if bool_decide (n = 0) then Panic
  else if negb kmalloc1 then Done None
  else
    let nw := u32 (ROUNDUP_DIV n WORD_BITS) in
    if negb kmalloc2 then Done None
    else
      let ws := replicate (Z.to_nat nw) 0xFFFFFFFF in
      if bool_decide (n <> nw * WORD_BITS) then
        let ix := u32 (nw - 1) in
        let overbits := u32 (n - ix * WORD_BITS) in
        if bool_decide (n / WORD_BITS = ix) && (0 <? overbits) && (overbits <? WORD_BITS) then
          Done (Some (mk_bitmap n nw (alter (fun w => clear_overbits 32 w overbits) (Z.to_nat ix) ws)))
        else Panic
      else Done (Some (mk_bitmap n nw ws)).

(** The loop over the bits of a word. *)
Fixpoint find_offset (n : nat) (w offset : Z) : option Z :=
  match n with
  | O => None
  | S n =>
      if bool_decide (Z.land w (u32 (Z.shiftl 1 offset)) <> 0) then Some offset
      else find_offset n w (offset + 1)
  end.

Fixpoint alloc_loop (n : nat) (ix : Z) : K bitmap (Z * option Z) :=
  match n with
  | O => mret (- E_NO_MEM, None)
  | S n =>
      w ← word_at ix;
      if bool_decide (w <> 0) then
        offset ← unwrap (find_offset 32 w 0);
        set_word ix (Z.lxor w (u32 (Z.shiftl 1 offset)));;
        mret (0, Some (u32 (ix * WORD_BITS + offset)))
      else alloc_loop n (ix + 1)
  end.

(** The result and, on success, what is stored through [index_store]. *)
Definition bitmap_alloc : K bitmap (Z * option Z) :=
  b ← get; alloc_loop (Z.to_nat (nwords b)) 0.

(** The word's index and the mask. *)
Definition bitmap_translate (index : Z) : K bitmap (Z * Z) :=
  b ← get;
  assert (index <? nbits b);;
  mret (index / WORD_BITS, u32 (Z.shiftl 1 (index mod WORD_BITS))).

Definition bitmap_test (index : Z) : K bitmap Z :=
  '(word, mask) ← bitmap_translate index;
  w ← word_at word;
  mret (s32 (Z.land w mask)).

Definition bitmap_free (index : Z) : K bitmap () :=
  '(word, mask) ← bitmap_translate index;
  w ← word_at word;
  assert (bool_decide (Z.land w mask = 0));;
  set_word word (Z.lor w mask).

Definition bitmap_getdata : K bitmap (list Z * Z) := b ← get; mret (map b, 4 * nwords b).

(** ** Bits *)

Definition free_bit (b : bitmap) (i : Z) : bool :=
  match map b !! Z.to_nat (i / 32) with Some w => Z.testbit w (i mod 32) | None => false end.

Record bitmap_wf (b : bitmap) : Prop := {
  wf_len : Z.of_nat (length (map b)) = nwords b;
  wf_bits : 0 < nbits b <= nwords b * 32;
  wf_words : nwords b < 2 ^ 27;
  wf_word w : w ∈ map b -> 0 <= w < 2 ^ 32;
  wf_end i : nbits b <= i -> free_bit b i = false;
}.

Lemma mask_small o : 0 <= o < 32 -> u32 (Z.shiftl 1 o) = 2 ^ o.
Proof.
  intros H. rewrite Z.shiftl_1_l. apply uwrap_small. split; [apply Z.pow_nonneg; lia|].
  apply Z.pow_lt_mono_r; lia.
Qed.

Lemma land_mask w o : 0 <= o < 32 -> (Z.land w (u32 (Z.shiftl 1 o)) = 0 <-> Z.testbit w o = false).
Proof.
  intros H. rewrite mask_small by done. split.
  - intros E. assert (Z.testbit (Z.land w (2 ^ o)) o = false) as T by (rewrite E; apply Z.bits_0).
    rewrite Z.land_spec, Z.pow2_bits_true, andb_true_r in T by lia. done.
  - intros E. apply Z.bits_inj'. intros n Hn. rewrite Z.land_spec, Z.bits_0, Z.pow2_bits_eqb by lia.
    destruct (Z.eqb_spec o n); [subst; by rewrite E|apply andb_false_r].
Qed.

Lemma find_offset_spec n w o :
  0 <= o -> o + Z.of_nat n <= 32 ->
  match find_offset n w o with
  | Some r => o <= r < o + Z.of_nat n /\ Z.testbit w r = true /\ forall i, o <= i < r -> Z.testbit w i = false
  | None => forall i, o <= i < o + Z.of_nat n -> Z.testbit w i = false
  end.
Proof.
  revert o. induction n as [|n IH]; intros o Ho Hn; cbn [find_offset]; [intros i Hi; lia|].
  case_bool_decide as E.
  - split_and!; [lia|lia| |intros i Hi; lia].
    destruct (Z.testbit w o) eqn:T; [done|]. exfalso. by apply E, land_mask; [lia|].
  - apply land_mask in E; [|lia]. specialize (IH (o + 1) ltac:(lia) ltac:(lia)).
    destruct (find_offset n w (o + 1)) as [r|].
    + destruct IH as (?&?&Hl). split_and!; [lia|lia|done|]. intros i Hi.
      destruct (decide (i = o)) as [->|]; [done|apply Hl; lia].
    + intros i Hi. destruct (decide (i = o)) as [->|]; [done|apply IH; lia].
Qed.

Lemma word_bits_zero w : 0 <= w < 2 ^ 32 -> (forall i, 0 <= i < 32 -> Z.testbit w i = false) -> w = 0.
Proof.
  intros Hw H. apply Z.bits_inj'. intros n Hn. rewrite Z.bits_0. destruct (decide (n < 32)); [apply H; lia|].
  rewrite <-(Z.mod_small w (2 ^ 32)) by done. apply Z.mod_pow2_bits_high. lia.
Qed.

Lemma testbit_range w : (forall n, 32 <= n -> Z.testbit w n = false) -> 0 <= w -> 0 <= w < 2 ^ 32.
Proof.
  intros H Hw. split; [done|]. destruct (decide (w = 0)) as [->|]; [done|].
  destruct (Z.lt_ge_cases w (2 ^ 32)) as [|Hge]; [done|]. exfalso.
  assert (32 <= Z.log2 w) by (apply Z.log2_le_pow2; lia).
  specialize (H (Z.log2 w) ltac:(lia)). rewrite Z.bit_log2 in H by lia. done.
Qed.

(** Writing one word changes its 32 bits only. *)
Lemma free_bit_set b ix w0 w i :
  map b !! Z.to_nat ix = Some w0 -> 0 <= ix -> 0 <= i ->
  free_bit (set_map (<[Z.to_nat ix := w]> (map b)) b) i =
  if decide (i / 32 = ix) then Z.testbit w (i mod 32) else free_bit b i.
Proof.
  intros Hw Hix Hi. unfold free_bit. cbn. case_decide as E.
  - subst ix. rewrite list_lookup_insert_eq; [done|]. by eapply lookup_lt_Some.
  - rewrite list_lookup_insert_ne; [done|]. pose proof (Z.div_pos i 32 Hi). lia.
Qed.

Lemma wp_word_at ix w b (Q : Z -> bitmap -> Prop) :
  0 <= ix -> map b !! Z.to_nat ix = Some w -> Q w b -> wp (word_at ix) Q b.
Proof. intros H E HQ. unfold wp, word_at, unwrap. rewrite (proj2 (Z.ltb_ge _ _)) by lia. by rewrite E. Qed.

Lemma wp_set_word ix w0 w b (Q : () -> bitmap -> Prop) :
  0 <= ix -> map b !! Z.to_nat ix = Some w0 -> Q () (set_map (<[Z.to_nat ix := w]> (map b)) b) ->
  wp (set_word ix w) Q b.
Proof. intros H E HQ. unfold set_word. kstep. eapply wp_word_at; [done|done|]. by apply wp_modify. Qed.

Lemma bitmap_lookup b ix : bitmap_wf b -> 0 <= ix < nwords b -> exists w, map b !! Z.to_nat ix = Some w /\ 0 <= w < 2 ^ 32.
Proof.
  intros H Hix. destruct (lookup_lt_is_Some_2 (map b) (Z.to_nat ix)) as [w Hw]; [pose proof (wf_len _ H); lia|].
  exists w. split; [done|]. apply (wf_word _ H). by eapply list_elem_of_lookup_2.
Qed.

(** A bit that lies in the words. *)
Lemma free_bit_range b i : bitmap_wf b -> 0 <= i -> free_bit b i = true -> 0 <= i < nbits b.
Proof.
  intros H Hi Hf. split; [done|]. destruct (Z.lt_ge_cases i (nbits b)); [done|].
  by rewrite (wf_end _ H) in Hf.
Qed.

(** One bit changed by a word operation. *)
Lemma wf_set b ix w0 w :
  bitmap_wf b -> 0 <= ix < nwords b -> map b !! Z.to_nat ix = Some w0 -> 0 <= w < 2 ^ 32 ->
  (forall i, nbits b <= i -> i / 32 = ix -> Z.testbit w (i mod 32) = false) ->
  bitmap_wf (set_map (<[Z.to_nat ix := w]> (map b)) b).
Proof.
  intros H Hix Hw0 Hw Hend. split; cbn.
  - rewrite length_insert. apply H.
  - apply H.
  - apply H.
  - intros v [j Hj]%list_elem_of_lookup. apply list_lookup_insert_Some in Hj as [(_&<-&_)|[_ Hj]]; [done|].
    apply (wf_word _ H). by eapply list_elem_of_lookup_2.
  - intros i Hi. pose proof (wf_bits _ H). erewrite free_bit_set by (done || lia). case_decide as E.
    + by apply Hend.
    + by apply H.
Qed.

(** Flipping a bit on or off. *)
Lemma lxor_mask_bit w o i : 0 <= o < 32 -> 0 <= i ->
  Z.testbit (Z.lxor w (u32 (Z.shiftl 1 o))) i = xorb (Z.testbit w i) (o =? i).
Proof. intros Ho Hi. by rewrite Z.lxor_spec, mask_small, Z.pow2_bits_eqb by lia. Qed.

Lemma lor_mask_bit w o i : 0 <= o < 32 -> 0 <= i ->
  Z.testbit (Z.lor w (u32 (Z.shiftl 1 o))) i = Z.testbit w i || (o =? i).
Proof. intros Ho Hi. by rewrite Z.lor_spec, mask_small, Z.pow2_bits_eqb by lia. Qed.

Lemma high_bits w n : 0 <= w < 2 ^ 32 -> 32 <= n -> Z.testbit w n = false.
Proof. intros Hw Hn. rewrite <-(Z.mod_small w (2 ^ 32)) by done. apply Z.mod_pow2_bits_high. lia. Qed.

Lemma lxor_mask_range w o : 0 <= o < 32 -> 0 <= w < 2 ^ 32 -> 0 <= Z.lxor w (u32 (Z.shiftl 1 o)) < 2 ^ 32.
Proof.
  intros Ho Hw. apply testbit_range.
  - intros n Hn. rewrite lxor_mask_bit, high_bits by lia. destruct (Z.eqb_spec o n); [lia|done].
  - rewrite mask_small by done. apply Z.lxor_nonneg. split; intros; [apply Z.pow_nonneg|]; lia.
Qed.

Lemma lor_mask_range w o : 0 <= o < 32 -> 0 <= w < 2 ^ 32 -> 0 <= Z.lor w (u32 (Z.shiftl 1 o)) < 2 ^ 32.
Proof.
  intros Ho Hw. apply testbit_range.
  - intros n Hn. rewrite lor_mask_bit, high_bits by lia. destruct (Z.eqb_spec o n); [lia|done].
  - rewrite mask_small by done. apply Z.lor_nonneg. split; [lia|apply Z.pow_nonneg; lia].
Qed.

Lemma index_split ix o : 0 <= o < 32 -> (ix * 32 + o) / 32 = ix /\ (ix * 32 + o) mod 32 = o.
Proof.
  intros H. split.
  - symmetry. apply (Z.div_unique _ _ _ o); lia.
  - symmetry. apply (Z.mod_unique _ _ ix); lia.
Qed.

(** The bits after one index has been given the value [v]. *)
Definition bit_set (b b' : bitmap) (index : Z) (v : bool) : Prop :=
  nbits b' = nbits b /\ forall i, 0 <= i -> free_bit b' i = if decide (i = index) then v else free_bit b i.

Lemma wp_alloc_loop n ix b (Q : Z * option Z -> bitmap -> Prop) :
  bitmap_wf b -> 0 <= ix -> ix + Z.of_nat n = nwords b ->
  (forall i, 0 <= i < ix * 32 -> free_bit b i = false) ->
  ((forall i, 0 <= i -> free_bit b i = false) -> Q (- E_NO_MEM, None) b) ->
  (forall b' index, bitmap_wf b' -> 0 <= index < nbits b -> free_bit b index = true ->
     (forall i, 0 <= i < index -> free_bit b i = false) -> bit_set b b' index false -> Q (0, Some index) b') ->
  wp (alloc_loop n ix) Q b.
Proof.
  intros H. revert ix. induction n as [|n IH]; intros ix Hix Hn Hlow HN HS; cbn [alloc_loop].
  - apply wp_ret, HN. intros i Hi. destruct (free_bit b i) eqn:E; [|done]. pose proof E as E'.
    apply (free_bit_range _ _ H Hi) in E. pose proof (wf_bits _ H). rewrite Hlow in E' by lia. done.
  - destruct (bitmap_lookup b ix H) as (w&Hw&Hwr); [lia|]. kstep. eapply wp_word_at; [done|done|].
    case_bool_decide as E.
    + pose proof (find_offset_spec 32 w 0 ltac:(lia) ltac:(lia)) as Hf.
      destruct (find_offset 32 w 0) as [o|].
      2:{ exfalso. apply E, word_bits_zero; [done|]. intros i Hi. apply Hf. lia. }
      destruct Hf as (Ho&Hbit&Hlo). kstep. kstep; [done|]. kstep. eapply wp_set_word; [done|done|]. apply wp_ret.
      assert (Ho' : 0 <= o < 32) by lia. destruct (index_split ix o Ho') as [Ed Em].
      assert (Hfree : free_bit b (ix * 32 + o) = true) by (unfold free_bit; rewrite Ed, Em, Hw; done).
      pose proof (free_bit_range _ (ix * 32 + o) H ltac:(lia) Hfree) as Hr. pose proof (wf_words _ H).
      change WORD_BITS with 32. rewrite uwrap_small by lia. apply HS; [| |done| |].
      * eapply wf_set; [done|lia|done|by apply lxor_mask_range|].
        intros i Hi Ei. rewrite lxor_mask_bit by (try apply Z.mod_pos_bound; lia).
        assert (free_bit b i = false) as Hfi by (by apply H). unfold free_bit in Hfi. rewrite Ei, Hw in Hfi.
        rewrite Hfi. destruct (Z.eqb_spec o (i mod 32)); [|done].
        pose proof (Z.div_mod i 32). lia.
      * done.
      * intros i Hi. destruct (decide (i < ix * 32)); [apply Hlow; lia|].
        unfold free_bit. assert (i / 32 = ix) as ->.
        { symmetry. apply (Z.div_unique _ _ _ (i - ix * 32)); lia. }
        rewrite Hw. apply Hlo. pose proof (Z.div_mod i 32). pose proof (Z.mod_pos_bound i 32).
        assert (i / 32 = ix) by (symmetry; apply (Z.div_unique _ _ _ (i - ix * 32)); lia). lia.
      * split; [done|]. intros i Hi. erewrite free_bit_set by (done || lia).
        destruct (decide (i = ix * 32 + o)) as [->|Hne].
        -- rewrite Ed, Em, decide_True by done. rewrite lxor_mask_bit, Hbit by lia. by rewrite Z.eqb_refl.
        -- case_decide as Eix; [|done]. pose proof (Z.mod_pos_bound i 32). pose proof (Z.div_mod i 32).
           rewrite lxor_mask_bit by lia. unfold free_bit. rewrite Eix, Hw.
           destruct (Z.eqb_spec o (i mod 32)); [lia|apply xorb_false_r].
    + apply (IH (ix + 1)); [lia|lia| |done|done]. intros i Hi. destruct (decide (i < ix * 32)); [apply Hlow; lia|].
      unfold free_bit. assert (i / 32 = ix) as -> by (symmetry; apply (Z.div_unique _ _ _ (i - ix * 32)); lia).
      rewrite Hw, E. apply Z.bits_0.
Qed.

Lemma wp_bitmap_translate index b (Q : Z * Z -> bitmap -> Prop) :
  index < nbits b -> Q (index / 32, u32 (Z.shiftl 1 (index mod 32))) b -> wp (bitmap_translate index) Q b.
Proof. intros H HQ. unfold bitmap_translate. ksteps; [by apply Z.ltb_lt|]. done. Qed.

(** The word that holds a bit in range. *)
Lemma bit_at b index :
  bitmap_wf b -> 0 <= index < nbits b ->
  exists w, map b !! Z.to_nat (index / 32) = Some w /\ 0 <= w < 2 ^ 32 /\ 0 <= index / 32 < nwords b /\
    0 <= index mod 32 < 32 /\ free_bit b index = Z.testbit w (index mod 32).
Proof.
  intros H Hi. pose proof (wf_bits _ H) as Hb.
  assert (Hix : 0 <= index / 32 < nwords b) by (split; [apply Z.div_pos; lia|apply Z.div_lt_upper_bound; lia]).
  destruct (bitmap_lookup b _ H Hix) as (w&Hw&Hwr). exists w.
  split_and!; [done|lia|lia|lia|lia|apply Z.mod_pos_bound; lia|apply Z.mod_pos_bound; lia|]. unfold free_bit. by rewrite Hw.
Qed.

Lemma wp_bitmap_test b index :
  bitmap_wf b -> 0 <= index < nbits b ->
  wp (bitmap_test index) (fun r b' => b' = b /\ (r <> 0 <-> free_bit b index = true)) b.
Proof.
  intros H Hi. destruct (bit_at _ _ H Hi) as (w&Hw&Hwr&Hix&Hm&Hbit). pose proof (wf_bits _ H) as Hb.
  pose proof (land_mask w _ Hm) as Hl.
  unfold bitmap_test. kstep. apply wp_bitmap_translate; [lia|]. kstep. eapply wp_word_at; [lia|done|].
  apply wp_ret. split; [done|]. rewrite Hbit.
  assert (Hs : s32 (Z.land w (u32 (Z.shiftl 1 (index mod 32)))) = 0 <->
               Z.land w (u32 (Z.shiftl 1 (index mod 32))) = 0).
  { assert (0 <= Z.land w (u32 (Z.shiftl 1 (index mod 32))) < 2 ^ 32) as Hr.
    { apply testbit_range; [intros n Hn; rewrite Z.land_spec, high_bits by lia; done|apply Z.land_nonneg; lia]. }
    split; [|by intros ->]. unfold swrap. intros E.
    change (2 ^ (32 - 1)) with (2 ^ 31) in E.
    pose proof (Z.div_mod (Z.land w (u32 (Z.shiftl 1 (index mod 32))) + 2 ^ 31) (2 ^ 32)). lia. }
  rewrite <-not_false_iff_true, <-Hl, <-Hs. done.
Qed.

Lemma wp_bitmap_free b index :
  bitmap_wf b -> 0 <= index < nbits b -> free_bit b index = false ->
  wp (bitmap_free index) (fun _ b' => bitmap_wf b' /\ bit_set b b' index true) b.
Proof.
  intros H Hi Hf. destruct (bit_at _ _ H Hi) as (w&Hw&Hwr&Hix&Hm&Hbit). pose proof (wf_bits _ H) as Hb.
  pose proof (land_mask w _ Hm) as Hl.
  rewrite Hbit in Hf. unfold bitmap_free. kstep. apply wp_bitmap_translate; [lia|].
  kstep. eapply wp_word_at; [lia|done|]. kstep. kstep; [by apply bool_decide_eq_true, Hl|].
  eapply wp_set_word; [lia|done|]. split.
  + eapply wf_set; [done|lia|done|by apply lor_mask_range|]. intros i Hni Ei.
    rewrite lor_mask_bit by (try apply Z.mod_pos_bound; lia).
    assert (free_bit b i = false) as Hfi by (by apply H). unfold free_bit in Hfi. rewrite Ei, Hw in Hfi.
    rewrite Hfi. destruct (Z.eqb_spec (index mod 32) (i mod 32)); [|done].
    pose proof (Z.div_mod i 32). pose proof (Z.div_mod index 32). lia.
  + split; [done|]. intros i Hi'. erewrite free_bit_set by (done || lia).
    destruct (decide (i = index)) as [->|Hne].
    * rewrite decide_True by done. rewrite lor_mask_bit by lia. by rewrite Z.eqb_refl, orb_true_r.
    * case_decide as Eix; [|done]. pose proof (Z.mod_pos_bound i 32). pose proof (Z.div_mod i 32).
      pose proof (Z.div_mod index 32). rewrite lor_mask_bit by lia. unfold free_bit. rewrite Eix, Hw.
      destruct (Z.eqb_spec (index mod 32) (i mod 32)); [lia|apply orb_false_r].
Qed.

Lemma bitmap_free_twice b index :
  bitmap_wf b -> 0 <= index < nbits b -> free_bit b index = true -> bitmap_free index b = Panic.
Proof.
  intros H Hi Hf. destruct (bit_at _ _ H Hi) as (w&Hw&Hwr&Hix&Hm&Hbit). pose proof (wf_bits _ H) as Hb.
  pose proof (land_mask w _ Hm) as Hl.
  rewrite Hbit in Hf. unfold bitmap_free.
  unfold mbind, K_bind, bitmap_translate, get. cbn. unfold mbind, K_bind. unfold assert at 1.
  rewrite (proj2 (Z.ltb_lt _ _)) by lia. cbn. unfold word_at, unwrap.
  change WORD_BITS with 32. rewrite (proj2 (Z.ltb_ge _ _)) by lia. rewrite Hw. unfold assert.
  rewrite bool_decide_false; [done|]. rewrite Hl, Hf. done.
Qed.

Lemma wp_bitmap_alloc b :
  bitmap_wf b ->
  wp bitmap_alloc (fun r b' => bitmap_wf b' /\
    match r with
    | (e, Some index) => e = 0 /\ 0 <= index < nbits b /\ free_bit b index = true /\
        (forall i, 0 <= i < index -> free_bit b i = false) /\ bit_set b b' index false
    | (e, None) => e = - E_NO_MEM /\ b' = b /\ forall i, 0 <= i -> free_bit b i = false
    end) b.
Proof.
  intros H. unfold bitmap_alloc. ksteps. pose proof (wf_bits _ H).
  apply wp_alloc_loop; [done|lia|rewrite Z2Nat.id; lia|lia|done|]. done.
Qed.

(** ** Properties *)

(** [bitmap_alloc] hands out the lowest free index and marks it,
    and it alone, as used; it fails, changing nothing, exactly when no index is
    free. *)
Theorem bitmap_alloc_spec b :
  bitmap_wf b ->
  wp bitmap_alloc (fun r b' => bitmap_wf b' /\
    match r with
    | (e, Some index) => e = 0 /\ 0 <= index < nbits b /\ free_bit b index = true /\
        (forall i, 0 <= i < index -> free_bit b i = false) /\ bit_set b b' index false
    | (e, None) => e = - E_NO_MEM /\ b' = b /\ forall i, 0 <= i -> free_bit b i = false
    end) b.
Proof. apply wp_bitmap_alloc. Qed.

(** On an index in range, [bitmap_test] tells whether it is free;
    [bitmap_free] of a used index marks it, and it alone, as free, and
    [bitmap_free] of a free one is a panic. *)
Theorem bitmap_free_spec b index :
  bitmap_wf b -> 0 <= index < nbits b ->
  wp (bitmap_test index) (fun r b' => b' = b /\ (r <> 0 <-> free_bit b index = true)) b /\
  (free_bit b index = false ->
     wp (bitmap_free index) (fun _ b' => bitmap_wf b' /\ bit_set b b' index true) b) /\
  (free_bit b index = true -> bitmap_free index b = Panic).
Proof.
  intros H Hi. split_and!; [by apply wp_bitmap_test|by apply wp_bitmap_free|by apply bitmap_free_twice].
Qed.

(** The bits of the last word, once the ones past the end are cleared. *)
Lemma clear_overbits_bit n w o i :
  0 <= o -> 32 <= o + Z.of_nat n -> 0 <= i < 32 ->
  Z.testbit (clear_overbits n w o) i = if o <=? i then negb (Z.testbit w i) else Z.testbit w i.
Proof.
  revert w o. induction n as [|n IH]; intros w o Ho Hn Hi; cbn [clear_overbits].
  - destruct (Z.leb_spec o i); [lia|done].
  - unfold WORD_BITS. destruct (Z.ltb_spec o 32).
    + rewrite IH by lia. rewrite lxor_mask_bit by lia.
      destruct (Z.leb_spec o i), (Z.leb_spec (o + 1) i), (Z.eqb_spec o i); try lia;
        by destruct (Z.testbit w i).
    + destruct (Z.leb_spec o i); [lia|done].
Qed.

Lemma clear_overbits_range n w o : 0 <= o -> 0 <= w < 2 ^ 32 -> 0 <= clear_overbits n w o < 2 ^ 32.
Proof.
  revert w o. induction n as [|n IH]; intros w o Ho Hw; cbn [clear_overbits]; [done|].
  unfold WORD_BITS. destruct (Z.ltb_spec o 32); [|done]. apply IH; [lia|]. apply lxor_mask_range; lia.
Qed.

Lemma ones_bit i : 0 <= i < 32 -> Z.testbit 0xFFFFFFFF i = true.
Proof. intros H. change 0xFFFFFFFF with (Z.ones 32). apply Z.ones_spec_low. lia. Qed.

(** A bitmap is created with exactly the indices below its size
    free, whatever the size modulo the word length. *)
Theorem bitmap_create_spec n :
  0 < n < 2 ^ 32 - 32 ->
  exists b, bitmap_create true true n = Done (Some b) /\ bitmap_wf b /\ nbits b = n /\
    forall i, 0 <= i -> free_bit b i = bool_decide (i < n).
Proof.
  intros Hn. unfold bitmap_create. rewrite bool_decide_false by lia. cbn [negb].
  set (nw := u32 (ROUNDUP_DIV n WORD_BITS)).
  assert (Hq : (ROUNDUP_DIV n 32 - 1) * 32 < n <= ROUNDUP_DIV n 32 * 32).
  { apply ROUNDUP_DIV_spec; lia. }
  assert (Enw : nw = ROUNDUP_DIV n 32) by (apply uwrap_small; change WORD_BITS with 32; lia).
  rewrite <-Enw in Hq. clearbody nw.
  assert (Hrep : forall ix, 0 <= ix < nw -> replicate (Z.to_nat nw) 0xFFFFFFFF !! Z.to_nat ix = Some 0xFFFFFFFF)
    by (intros ix Hix; apply lookup_replicate_2; lia).
  assert (Hdiv : forall i, 0 <= i -> i < nw * 32 -> 0 <= i / 32 < nw).
  { intros i Hi Hlt. split; [apply Z.div_pos; lia|apply Z.div_lt_upper_bound; lia]. }
  case_bool_decide as E; change WORD_BITS with 32 in *.
  - assert (Eix : u32 (nw - 1) = nw - 1) by (apply uwrap_small; lia). rewrite Eix.
    assert (Eov : u32 (n - (nw - 1) * 32) = n - (nw - 1) * 32) by (apply uwrap_small; lia). rewrite Eov.
    assert (Ed : n / 32 = nw - 1) by (symmetry; apply (Z.div_unique _ _ _ (n - (nw - 1) * 32)); lia).
    rewrite bool_decide_true by done. rewrite !(proj2 (Z.ltb_lt _ _)) by lia. cbn [andb].
    eexists. split; [reflexivity|]. set (b := mk_bitmap _ _ _).
    assert (Hfree : forall i, 0 <= i -> free_bit b i = bool_decide (i < n)).
    { intros i Hi. pose proof (Z.mod_pos_bound i 32). pose proof (Z.div_mod i 32). unfold free_bit, b. cbn [map].
      destruct (decide (i / 32 = nw - 1)) as [Ei|Hne].
      - rewrite Ei, list_lookup_alter_eq, Hrep by lia. cbn [fmap option_fmap option_map].
        rewrite clear_overbits_bit, ones_bit by lia. case_bool_decide; destruct (Z.leb_spec (n - (nw - 1) * 32) (i mod 32)); try done; lia.
      - rewrite list_lookup_alter_ne by lia. destruct (decide (i < nw * 32)) as [Hlt|Hge].
        + rewrite Hrep by (by apply Hdiv). rewrite ones_bit by lia. pose proof (Hdiv i Hi Hlt).
          rewrite bool_decide_true by lia. done.
        + assert (nw <= i / 32) by (apply Z.div_le_lower_bound; lia).
          rewrite (proj1 (lookup_replicate_None _ _ _)) by lia. rewrite bool_decide_false by lia. done. }
    split_and!; [|done|done]. split; unfold b; cbn [map nbits nwords].
    + rewrite length_alter, length_replicate. lia.
    + lia.
    + lia.
    + intros w [j Hj]%list_elem_of_lookup. destruct (decide (j = Z.to_nat (nw - 1))) as [->|].
      * rewrite list_lookup_alter_eq in Hj. apply fmap_Some in Hj as (v&Hv&->).
        apply lookup_replicate in Hv as [-> _]. apply clear_overbits_range; lia.
      * rewrite list_lookup_alter_ne in Hj by done. apply lookup_replicate in Hj as [-> _]. lia.
    + intros i Hi. fold b. rewrite Hfree by lia. by apply bool_decide_eq_false; lia.
  - eexists. split; [reflexivity|]. set (b := mk_bitmap _ _ _).
    assert (Hfree : forall i, 0 <= i -> free_bit b i = bool_decide (i < n)).
    { intros i Hi. pose proof (Z.mod_pos_bound i 32). unfold free_bit, b. cbn [map].
      destruct (decide (i < nw * 32)) as [Hlt|Hge].
      - rewrite Hrep by (by apply Hdiv). rewrite ones_bit, bool_decide_true by lia. done.
      - assert (nw <= i / 32) by (apply Z.div_le_lower_bound; lia).
        rewrite (proj1 (lookup_replicate_None _ _ _)), bool_decide_false by lia. done. }
    split_and!; [|done|done]. split; unfold b; cbn [map nbits nwords].
    + rewrite length_replicate. lia.
    + lia.
    + lia.
    + intros w [j Hj]%list_elem_of_lookup. apply lookup_replicate in Hj as [-> _]. lia.
    + intros i Hi. fold b. rewrite Hfree by lia. by apply bool_decide_eq_false; lia.
Qed.

(** ** Witnesses: 40 blocks, of which 0 and 1 are in use. *)

Definition ex_bitmap : bitmap := mk_bitmap 40 2 [0xFFFFFFFC; 0xFF].

Lemma ex_bitmap_wf : bitmap_wf ex_bitmap.
Proof.
  split; cbn [nbits nwords map ex_bitmap]; [reflexivity|lia|lia| |].
  - intros w Hw. rewrite !elem_of_cons in Hw. destruct Hw as [->|[->|Hw%not_elem_of_nil]]; [lia|lia|done].
  - intros i Hi. unfold free_bit. cbn [map ex_bitmap]. pose proof (Z.mod_pos_bound i 32). pose proof (Z.div_mod i 32).
    destruct (decide (i / 32 = 1)) as [E|E].
    + rewrite E. cbn. change 0xFF with (Z.ones 8). apply Z.ones_spec_high. lia.
    + assert (2 <= i / 32) as H2 by lia. rewrite lookup_ge_None_2; [done|]. cbn. lia.
Qed.

Lemma bitmap_alloc_spec_witness :
  wp bitmap_alloc (fun r b' => bitmap_wf b' /\
    match r with
    | (e, Some index) => e = 0 /\ 0 <= index < 40 /\ free_bit ex_bitmap index = true /\
        (forall i, 0 <= i < index -> free_bit ex_bitmap i = false) /\ bit_set ex_bitmap b' index false
    | (e, None) => e = - E_NO_MEM /\ b' = ex_bitmap /\ forall i, 0 <= i -> free_bit ex_bitmap i = false
    end) ex_bitmap.
Proof. exact (bitmap_alloc_spec ex_bitmap ex_bitmap_wf). Defined.

Lemma bitmap_free_spec_witness :
  wp (bitmap_test 1) (fun r b' => b' = ex_bitmap /\ (r <> 0 <-> free_bit ex_bitmap 1 = true)) ex_bitmap /\
  (free_bit ex_bitmap 1 = false ->
     wp (bitmap_free 1) (fun _ b' => bitmap_wf b' /\ bit_set ex_bitmap b' 1 true) ex_bitmap) /\
  (free_bit ex_bitmap 1 = true -> bitmap_free 1 ex_bitmap = Panic).
Proof. refine (bitmap_free_spec ex_bitmap 1 ex_bitmap_wf _). cbn. lia. Defined.

Lemma bitmap_create_spec_witness :
  exists b, bitmap_create true true 40 = Done (Some b) /\ bitmap_wf b /\ nbits b = 40 /\
    forall i, 0 <= i -> free_bit b i = bool_decide (i < 40).
Proof. refine (bitmap_create_spec 40 _). lia. Defined.
