(* ===== verification/PmmManager.v ===== *)
(** kern/mm/memlayout.h, pmm.h and pmm.c: page descriptors and the physical memory manager as the rest of the
    kernel sees it.  [pmm_manager] is the record of operations of C; the class
    [PhysAlloc] is the contract of a manager: the set of free pages is known,
    an allocation takes a run of free pages out of it, a release puts the run
    back.  The files [FirstFit], [BestFit] and [Buddy] discharge it. *)
From S2P Require Import Prelude.

(** A page descriptor; [flags] has two bits in use, [PG_reserved] and
    [PG_property].  The number of a page stands for the address of its
    descriptor. *)
Record page := mk_page { ref : Z; reserved : bool; prop_flag : bool; property : Z }.

Record pmm_manager (St : Type) := mk_pmm_manager {
  pm_init : K St ();
  pm_init_memmap : Z -> Z -> K St ();
  pm_alloc_pages : Z -> K St (option Z);
  pm_free_pages : Z -> Z -> K St ();
  pm_nr_free_pages : K St Z;
}.
Arguments mk_pmm_manager {St}.
Arguments pm_init {St}.
Arguments pm_init_memmap {St}.
Arguments pm_alloc_pages {St}.
Arguments pm_free_pages {St}.
Arguments pm_nr_free_pages {St}.

Section wrappers.
Context {St : Type} (pm : pmm_manager St).

(** The callers in pmm.c; interrupts are off around each call. *)
Definition init_pmm_manager : K St () := pm_init pm.
Definition init_memmap (base n : Z) : K St () := pm_init_memmap pm base n.
Definition alloc_pages (n : Z) : K St (option Z) := pm_alloc_pages pm n.
Definition free_pages (base n : Z) : K St () := pm_free_pages pm base n.
Definition nr_free_pages : K St Z := pm_nr_free_pages pm.
End wrappers.

(** The pages [p] to [p + n - 1]. *)
Definition run_of (p n q : Z) : Prop := p <= q < p + n.

Class PhysAlloc {St : Type} (pm : pmm_manager St) := {
  pa_inv : St -> Prop;
  pa_free : St -> Z -> Prop;
  (** The number of pages granted for a request. *)
  pa_size : Z -> Z;
  (** The runs that may be given back. *)
  pa_freeable : St -> Z -> Z -> Prop;
  pa_size_ge n : 0 < n -> n <= pa_size n;
  pa_alloc s n : pa_inv s -> 0 < n ->
    wp (pm_alloc_pages pm n) (fun o s' => pa_inv s' /\
      match o with
      | None => forall q, pa_free s' q <-> pa_free s q
      | Some p => (forall q, run_of p (pa_size n) q -> pa_free s q) /\
                  (forall q, pa_free s' q <-> pa_free s q /\ ~ run_of p (pa_size n) q)
      end) s;
  pa_release s base n : pa_inv s -> pa_freeable s base n ->
    wp (pm_free_pages pm base n) (fun _ s' => pa_inv s' /\
      forall q, pa_free s' q <-> pa_free s q \/ run_of base (pa_size n) q) s;
}.

(** A manager that also takes the pages of a run back one by one. *)
Class PiecewiseAlloc {St : Type} (pm : pmm_manager St) `{!PhysAlloc pm} := {
  pw_size : pa_size 1 = 1;
  pw_alloc s n : pa_inv s -> 0 < n ->
    wp (pm_alloc_pages pm n) (fun o s' => forall p, o = Some p -> pa_freeable s' p 1) s;
}.

(** The array of descriptors inside an allocator's state. *)
Class PageStore (St : Type) := {
  ps_pages : St -> gmap Z page;
  ps_set : gmap Z page -> St -> St;
  ps_pages_set m s : ps_pages (ps_set m s) = m;
}.

Definition set_ref (v : Z) (x : page) : page := mk_page v (reserved x) (prop_flag x) (property x).

Section refs.
Context {St : Type} `{!PageStore St}.

Definition ref_of (s : St) (p : Z) : option Z := ref <$> ps_pages s !! p.

Definition page_ref (p : Z) : K St Z := fun s => unwrap (ref_of s p) s.
Definition set_page_ref (p v : Z) : K St () :=
  s ← get; x ← unwrap (ps_pages s !! p); put (ps_set (<[p := set_ref v x]> (ps_pages s)) s).
Definition page_ref_inc (p : Z) : K St Z := r ← page_ref p; set_page_ref p (s32 (r + 1));; page_ref p.
Definition page_ref_dec (p : Z) : K St Z := r ← page_ref p; set_page_ref p (s32 (r - 1));; page_ref p.
End refs.

(** What the code that maps pages relies on: single pages come and go, a free
    page has reference count 0, every other count is left alone, and any page
    that is not free can be given back. *)
Class PageAlloc {St : Type} (pm : pmm_manager St) `{!PageStore St} := {
  pg_inv : St -> Prop;
  pg_free : St -> Z -> Prop;
  pg_nonneg s p : pg_inv s -> is_Some (ref_of s p) -> 0 <= p;
  pg_free_ref s p : pg_inv s -> pg_free s p -> ref_of s p = Some 0;
  pg_alloc s : pg_inv s ->
    wp (pm_alloc_pages pm 1) (fun o s' => pg_inv s' /\ (forall q, ref_of s' q = ref_of s q) /\
      match o with
      | None => forall q, pg_free s' q <-> pg_free s q
      | Some p => pg_free s p /\ forall q, pg_free s' q <-> pg_free s q /\ q <> p
      end) s;
  pg_release s p : pg_inv s -> is_Some (ref_of s p) -> ~ pg_free s p ->
    wp (pm_free_pages pm p 1) (fun _ s' => pg_inv s' /\
      (forall q, ref_of s' q = if decide (q = p) then Some 0 else ref_of s q) /\
      forall q, pg_free s' q <-> pg_free s q \/ q = p) s;
  pg_set_ref s p v : pg_inv s -> is_Some (ref_of s p) -> ~ pg_free s p ->
    wp (set_page_ref p v) (fun _ s' => pg_inv s' /\
      (forall q, ref_of s' q = if decide (q = p) then Some v else ref_of s q) /\
      forall q, pg_free s' q <-> pg_free s q) s;
}.

(** Whatever the page allocator, two allocations in a row never
    hand out the same page: the second run is disjoint from the first, and
    neither is free afterwards. *)
Theorem alloc_pages_disjoint {St} (pm : pmm_manager St) `{!PhysAlloc pm} s n1 n2 :
  pa_inv s -> 0 < n1 -> 0 < n2 ->
  wp (o1 ← alloc_pages pm n1; o2 ← alloc_pages pm n2; mret (o1, o2)) (fun r s' =>
    pa_inv s' /\
    match r with
    | (Some p1, Some p2) => forall q,
        ~ (run_of p1 n1 q /\ run_of p2 n2 q) /\
        (run_of p1 n1 q \/ run_of p2 n2 q -> pa_free s q /\ ~ pa_free s' q)
    | _ => True
    end) s.
Proof.
  intros Hi H1 H2. kstep. eapply wp_mono; [by apply pa_alloc|]. intros o1 s1 (Hi1&Ho1).
  kstep. eapply wp_mono; [by apply pa_alloc|]. intros o2 s2 (Hi2&Ho2). apply wp_ret. split; [done|].
  destruct o1 as [p1|], o2 as [p2|]; try done. intros q.
  destruct Ho1 as [Hf1 Hr1], Ho2 as [Hf2 Hr2]. specialize (Hf1 q). specialize (Hf2 q).
  specialize (Hr1 q). specialize (Hr2 q). unfold run_of in *.
  pose proof (pa_size_ge n1 H1). pose proof (pa_size_ge n2 H2).
  assert (p1 <= q < p1 + n1 -> p1 <= q < p1 + pa_size n1) by lia.
  assert (p2 <= q < p2 + n2 -> p2 <= q < p2 + pa_size n2) by lia. tauto.
Qed.
