(* ===== verification/FirstFit.v ===== *)
(** kern/mm/default_pmm.c: the first-fit allocator of physical pages, on the linked list of free blocks.
    The address of a descriptor, of its [page_link] and the number of its page
    are one number; [HEAD] is the address of [free_list].  [fl_inv s bs] says
    that the list holds the blocks [bs], by address and with a gap between two
    of them.  The theorems give the effect of allocation and release on the
    blocks; [FirstFitAbove] shows what goes wrong when a block above all others
    is freed. *)
From S2P Require Import Prelude Dlist PmmManager.

(** ** Data *)

Record pstate := mk_pstate { pages : gmap Z page; links : store; nr_free : Z }.

Definition HEAD : ptr := -1.

Definition set_pages (m : gmap Z page) (s : pstate) : pstate := mk_pstate m (links s) (nr_free s).
Definition set_links (h : store) (s : pstate) : pstate := mk_pstate (pages s) h (nr_free s).
Definition set_nr_free (n : Z) (s : pstate) : pstate := mk_pstate (pages s) (links s) n.
Definition on_links {A} (m : K store A) : K pstate A := zoom links set_links m.

Definition page_at (p : Z) : K pstate page := fun s => unwrap (pages s !! p) s.
Definition page_upd (p : Z) (f : page -> page) : K pstate () :=
  x ← page_at p; modify (fun s => set_pages (<[p := f x]> (pages s)) s).

Definition set_property (n : Z) (x : page) : page := mk_page (ref x) (reserved x) (prop_flag x) n.
Definition SetPageProperty (x : page) : page := mk_page (ref x) (reserved x) true (property x).
Definition ClearPageProperty (x : page) : page := mk_page (ref x) (reserved x) false (property x).
(** [p->flags = 0; set_page_ref(p, 0)] *)
Definition clear_flags (x : page) : page := mk_page 0 false false (property x).

(** ** Operations *)

Definition default_init : K pstate () := on_links (list_init HEAD);; modify (set_nr_free 0).

Fixpoint init_pages (n : nat) (p : Z) : K pstate () :=
  match n with
  | O => mret ()
  | S n =>
      x ← page_at p;
      assert (reserved x);;
      page_upd p (fun x => mk_page 0 false false 0);;
      init_pages n (p + 1)
  end.

(** The loop that puts a block into the list; the list is not empty. *)
Fixpoint insert_walk (fuel : nat) (le base : Z) : K pstate () :=
  match fuel with
  | O => timeout
  | S fuel =>
      le ← on_links (list_next le);
      if bool_decide (le = HEAD) then mret ()
      else if base <? le then on_links (list_add_before le base)
      else
        nx ← on_links (list_next le);
        when (bool_decide (nx = HEAD)) (on_links (list_add le base));;
        insert_walk fuel le base
  end.

(** Every entry of the list is in the store; the walk can meet the new block. *)
Definition walk_fuel (s : pstate) : nat := S (S (size (links s))).

Definition insert_block (base : Z) : K pstate () :=
  e ← on_links (list_empty HEAD);
  if e : bool then on_links (list_add HEAD base)
  else n ← gets walk_fuel; insert_walk n HEAD base.

Definition default_init_memmap (base n : Z) : K pstate () :=
  assert (0 <? n);;
  init_pages (Z.to_nat n) base;;
  page_upd base (set_property (u32 n));;
  page_upd base SetPageProperty;;
  modify (fun s => set_nr_free (u32 (nr_free s + n)) s);;
  insert_block base.

Fixpoint first_fit (fuel : nat) (le n : Z) : K pstate (option Z) :=
  match fuel with
  | O => timeout
  | S fuel =>
      le ← on_links (list_next le);
      if bool_decide (le = HEAD) then mret None
      else
        x ← page_at le;
        if property x >=? n then mret (Some le) else first_fit fuel le n
  end.

(** The end of the allocation: the block found is cut to [n] pages. *)
Definition take_block (page n : Z) : K pstate () :=
  prev ← on_links (list_prev page);
  on_links (list_del page);;
  x ← page_at page;
  when (property x >? n)
    (let p := page + n in
     page_upd p (set_property (u32 (property x - n)));;
     page_upd p SetPageProperty;;
     on_links (list_add prev p));;
  modify (fun s => set_nr_free (u32 (nr_free s - n)) s);;
  page_upd page ClearPageProperty.

Definition default_alloc_pages (n : Z) : K pstate (option Z) :=
  assert (0 <? n);;
  s ← get;
  if n >? nr_free s then mret None
  else
    o ← first_fit (walk_fuel s) HEAD n;
    match o with None => mret () | Some page => take_block page n end;;
    mret o.

Fixpoint free_pages_loop (n : nat) (p : Z) : K pstate () :=
  match n with
  | O => mret ()
  | S n =>
      x ← page_at p;
      assert (negb (reserved x) && negb (prop_flag x));;
      page_upd p clear_flags;;
      free_pages_loop n (p + 1)
  end.

(** Merge with the block before; the result is the new [base]. *)
Definition merge_prev (base : Z) : K pstate Z :=
  le ← on_links (list_prev base);
  if bool_decide (le <> HEAD) then
    x ← page_at le;
    if bool_decide (le + property x = base) then
      b ← page_at base;
      page_upd le (set_property (u32 (property x + property b)));;
      page_upd base ClearPageProperty;;
      on_links (list_del base);;
      mret le
    else mret base
  else mret base.

Definition merge_next (base : Z) : K pstate () :=
  le ← on_links (list_next base);
  when (bool_decide (le <> HEAD))
    (b ← page_at base;
     when (bool_decide (base + property b = le))
       (x ← page_at le;
        page_upd base (set_property (u32 (property b + property x)));;
        page_upd le ClearPageProperty;;
        on_links (list_del le))).

Definition default_free_pages (base n : Z) : K pstate () :=
  assert (0 <? n);;
  free_pages_loop (Z.to_nat n) base;;
  page_upd base (set_property (u32 n));;
  page_upd base SetPageProperty;;
  modify (fun s => set_nr_free (u32 (nr_free s + n)) s);;
  insert_block base;;
  base ← merge_prev base;
  merge_next base.

Definition default_nr_free_pages : K pstate Z := gets nr_free.

(** ** Free blocks *)

Abbreviation block := (Z * Z)%type.

Fixpoint total (bs : list block) : Z := match bs with [] => 0 | b :: bs => b.2 + total bs end.

(** The blocks stand in increasing order from [lo] on, [g] pages at least
    between two of them: none with [g = 0], so that they are disjoint, one with
    [g = 1], so that no two can be merged. *)
Fixpoint spaced (g lo : Z) (bs : list block) : Prop :=
  match bs with [] => True | b :: bs => lo <= b.1 /\ 0 < b.2 /\ spaced g (b.1 + b.2 + g) bs end.

Definition end_of (g lo : Z) (bs : list block) : Z :=
  match last bs with None => lo | Some b => b.1 + b.2 + g end.

Lemma end_of_cons g lo b bs : end_of g lo (b :: bs) = end_of g (b.1 + b.2 + g) bs.
Proof. unfold end_of. rewrite last_cons. by destruct (last bs). Qed.

Lemma spaced_app g lo bs1 bs2 : spaced g lo (bs1 ++ bs2) <-> spaced g lo bs1 /\ spaced g (end_of g lo bs1) bs2.
Proof.
  revert lo. induction bs1 as [|b bs1 IH]; intros lo; [cbn; tauto|].
  rewrite end_of_cons. cbn. rewrite IH. tauto.
Qed.

Lemma spaced_mono g g' lo lo' bs : spaced g lo bs -> g' <= g -> lo' <= lo -> spaced g' lo' bs.
Proof.
  revert lo lo'. induction bs as [|b bs IH]; intros lo lo'; cbn; [done|]. intros (?&?&?) ??.
  split_and!; [lia|lia|eapply IH; [done|done|lia]].
Qed.

Lemma spaced_in g lo bs b : 0 <= g -> spaced g lo bs -> b ∈ bs -> lo <= b.1 /\ 0 < b.2.
Proof.
  intros Hg. revert lo. induction bs as [|c bs IH]; intros lo H Hb; [by apply not_elem_of_nil in Hb|].
  cbn in H. destruct H as (?&?&H). apply elem_of_cons in Hb as [->|Hb]; [lia|].
  specialize (IH _ H Hb). lia.
Qed.

Lemma spaced_end g lo bs b : 0 <= g -> spaced g lo bs -> b ∈ bs -> b.1 + b.2 + g <= end_of g lo bs.
Proof.
  intros Hg. revert lo b. induction bs as [|c bs IH]; intros lo b H Hb; [by apply not_elem_of_nil in Hb|].
  cbn in H. destruct H as (?&?&H). rewrite end_of_cons. apply elem_of_cons in Hb as [->|Hb]; [|by apply IH].
  destruct bs as [|d bs]; [unfold end_of; cbn; lia|].
  assert (Hd : d ∈ d :: bs) by (apply elem_of_cons; by left).
  pose proof (spaced_in _ _ _ _ Hg H Hd). specialize (IH _ d H Hd). lia.
Qed.

Lemma total_app bs1 bs2 : total (bs1 ++ bs2) = total bs1 + total bs2.
Proof. induction bs1; cbn; lia. Qed.

Lemma total_nonneg g lo bs : spaced g lo bs -> 0 <= total bs.
Proof. revert lo. induction bs as [|b bs IH]; intros lo; cbn; [lia|]. intros (?&?&H). specialize (IH _ H). lia. Qed.

Lemma total_in g lo bs b : spaced g lo bs -> b ∈ bs -> b.2 <= total bs.
Proof.
  revert lo. induction bs as [|c bs IH]; intros lo H Hb; [by apply not_elem_of_nil in Hb|].
  cbn in H. destruct H as (?&?&H). cbn. pose proof (total_nonneg _ _ _ H).
  apply elem_of_cons in Hb as [->|Hb]; [lia|]. specialize (IH _ H Hb). lia.
Qed.

(** The pages of the blocks. *)
Definition free_page (bs : list block) (q : Z) : Prop := exists b, b ∈ bs /\ b.1 <= q < b.1 + b.2.

(** The state holds the blocks [bs]. *)
Record fl_inv (g : Z) (s : pstate) (bs : list block) : Prop := {
  fi_list : dlist (links s) HEAD bs.*1;
  fi_cells p : is_Some (pages s !! p) -> 0 <= p /\ is_Some (links s !! p);
  fi_block b : b ∈ bs -> exists x, pages s !! b.1 = Some x /\ prop_flag x = true /\ property x = b.2;
  fi_pages q : free_page bs q -> exists x, pages s !! q = Some x /\ reserved x = false;
  fi_flag q x : pages s !! q = Some x -> prop_flag x = true -> q ∈ bs.*1;
  fi_spaced : spaced g 0 bs;
  fi_nr : nr_free s = total bs;
  fi_bound : total bs < 2 ^ 32;
}.

Lemma wp_page_at p x s (Q : page -> pstate -> Prop) : pages s !! p = Some x -> Q x s -> wp (page_at p) Q s.
Proof. intros E H. unfold wp, page_at, unwrap. by rewrite E. Qed.

Lemma wp_page_upd p f x s (Q : () -> pstate -> Prop) :
  pages s !! p = Some x -> Q () (set_pages (<[p := f x]> (pages s)) s) -> wp (page_upd p f) Q s.
Proof. intros E H. unfold page_upd. kstep. eapply wp_page_at; [done|]. by apply wp_modify. Qed.

Lemma set_links_id s : set_links (links s) s = s.
Proof. by destruct s. Qed.

Lemma wp_next p q s (Q : Z -> pstate -> Prop) :
  nxt (links s) p = Some q -> Q q s -> wp (on_links (list_next p)) Q s.
Proof. intros E H. unfold on_links. kstep. eapply wp_list_next; [done|]. by rewrite set_links_id. Qed.
Lemma wp_prev p q s (Q : Z -> pstate -> Prop) :
  prv (links s) p = Some q -> Q q s -> wp (on_links (list_prev p)) Q s.
Proof. intros E H. unfold on_links. kstep. eapply wp_list_prev; [done|]. by rewrite set_links_id. Qed.
Lemma wp_empty p q s (Q : bool -> pstate -> Prop) :
  nxt (links s) p = Some q -> Q (bool_decide (q = p)) s -> wp (on_links (list_empty p)) Q s.
Proof. intros E H. unfold on_links. kstep. eapply wp_list_empty; [done|]. by rewrite set_links_id. Qed.

Section blocks.
Context (g : Z) (Hg : 0 <= g).
Implicit Types (s : pstate) (bs : list block).

Lemma fl_fuel s bs : fl_inv g s bs -> (length bs < walk_fuel s)%nat.
Proof.
  intros H. unfold walk_fuel. rewrite <-(length_fmap fst bs).
  assert (length (bs.*1) <= size (links s))%nat; [|lia]. apply alloc_size.
  - pose proof (fi_list _ _ _ H) as [Hnd _]. by apply NoDup_cons in Hnd as [_ Hnd].
  - intros q (b&->&Hb)%list_elem_of_fmap. destruct (fi_block _ _ _ H b Hb) as (x&Hx&_).
    apply (fi_cells _ _ _ H). eauto.
Qed.

Lemma fl_nonneg s bs b : fl_inv g s bs -> b ∈ bs -> 0 <= b.1.
Proof. intros H Hb. by apply (spaced_in g 0 bs b Hg (fi_spaced _ _ _ H)). Qed.

(** First fit finds the first block that is large enough. *)
Lemma wp_first_fit bs2 bs1 fuel s n (Q : option Z -> pstate -> Prop) :
  fl_inv g s (bs1 ++ bs2) -> (length bs2 < fuel)%nat ->
  (Forall (fun b => b.2 < n) bs2 -> Q None s) ->
  (forall mid b rest, bs2 = mid ++ b :: rest -> Forall (fun b => b.2 < n) mid -> n <= b.2 -> Q (Some b.1) s) ->
  wp (first_fit fuel (List.last (bs1.*1) HEAD) n) Q s.
Proof.
  intros H. revert bs1 fuel H Q. induction bs2 as [|b bs2 IH]; intros bs1 [|fuel] H Q Hf Hn Hs; cbn in Hf; try lia;
    cbn [first_fit]; pose proof (fi_list _ _ _ H) as Hl; rewrite fmap_app in Hl; apply dlist_nxt in Hl;
    kstep; (eapply wp_next; [exact Hl|]).
  - cbn. by apply wp_ret, Hn.
  - cbn [fmap list_fmap hd].
    assert (Hb : b ∈ bs1 ++ b :: bs2) by (apply elem_of_app; right; apply elem_of_cons; by left).
    pose proof (fl_nonneg _ _ _ H Hb). rewrite bool_decide_false by (unfold HEAD; lia).
    destruct (fi_block _ _ _ H b Hb) as (x&Hx&_&Hp). kstep. eapply wp_page_at; [done|]. rewrite Hp.
    destruct (Z.geb_spec b.2 n).
    + apply wp_ret. apply (Hs [] b bs2); [done|constructor|lia].
    + specialize (IH (bs1 ++ [b]) fuel). rewrite <-app_assoc, fmap_app in IH. cbn in IH.
      rewrite lastd_snoc in IH. apply IH; [done|lia| |].
      * intros Hfa. apply Hn. by constructor.
      * intros mid c rest -> Hfa Hc. apply (Hs (b :: mid) c rest); [done| |done]. by constructor.
Qed.

Lemma spaced_split lo bs1 b bs2 :
  spaced g lo (bs1 ++ b :: bs2) ->
  (forall c, c ∈ bs1 -> c.1 + c.2 + g <= b.1 /\ lo <= c.1 /\ 0 < c.2) /\
  (forall c, c ∈ bs2 -> b.1 + b.2 + g <= c.1 /\ 0 < c.2) /\ lo <= b.1 /\ 0 < b.2.
Proof.
  intros [H1 (H2&H3&H4)]%spaced_app. split_and!; [| | |done].
  - intros c Hc. pose proof (spaced_end _ _ _ _ Hg H1 Hc). pose proof (spaced_in _ _ _ _ Hg H1 Hc). lia.
  - intros c Hc. pose proof (spaced_in _ _ _ _ Hg H4 Hc). lia.
  - destruct (last bs1) as [c|] eqn:E; [|by unfold end_of in H2; rewrite E in H2].
    apply last_Some_elem_of in E. pose proof (spaced_end _ _ _ _ Hg H1 E).
    pose proof (spaced_in _ _ _ _ Hg H1 E). lia.
Qed.

Lemma in_mid {A} (l1 : list A) x l2 : x ∈ l1 ++ x :: l2.
Proof. apply elem_of_app. right. apply elem_of_cons. by left. Qed.

Lemma fmap_mid (bs1 : list block) b bs2 : (bs1 ++ b :: bs2).*1 = bs1.*1 ++ b.1 :: bs2.*1.
Proof. by rewrite fmap_app. Qed.

(** The list, without one block or with one more. *)
Lemma wp_links_del p bs1 b bs2 s (Q : () -> pstate -> Prop) :
  dlist (links s) HEAD (bs1 ++ b :: bs2).*1 -> b.1 = p ->
  (forall h', same_cells (links s) h' -> dlist h' HEAD (bs1 ++ bs2).*1 -> Q () (set_links h' s)) ->
  wp (on_links (list_del p)) Q s.
Proof.
  intros Hl <- HQ. rewrite fmap_mid in Hl. unfold on_links. kstep. eapply wp_list_del; [done|].
  intros h' Hs _ Hd. apply HQ; [done|]. by rewrite fmap_app.
Qed.

Lemma wp_links_add bs1 b bs2 s (Q : () -> pstate -> Prop) :
  dlist (links s) HEAD (bs1 ++ bs2).*1 -> is_Some (links s !! b.1) -> b.1 <> HEAD -> b.1 ∉ (bs1 ++ bs2).*1 ->
  (forall h', same_cells (links s) h' -> dlist h' HEAD (bs1 ++ b :: bs2).*1 -> Q () (set_links h' s)) ->
  wp (on_links (list_add (List.last (bs1.*1) HEAD) b.1)) Q s.
Proof.
  intros Hl Hb Hne Hni HQ. rewrite fmap_app in Hl, Hni. unfold on_links. kstep.
  eapply wp_list_add_at; [done|done|by apply not_elem_of_cons|].
  intros h' Hs _ Hd. apply HQ; [done|]. by rewrite fmap_mid.
Qed.

Definition remainder (b : block) (n : Z) : list block :=
  if b.2 >? n then [(b.1 + n, b.2 - n)] else [].

Lemma remainder_total b n : n <= b.2 -> total (remainder b n) = b.2 - n.
Proof. intros. unfold remainder. destruct (Z.gtb_spec b.2 n); cbn; lia. Qed.

Lemma remainder_spaced lo bs1 b bs2 n :
  spaced g lo (bs1 ++ b :: bs2) -> 0 < n <= b.2 -> spaced g lo (bs1 ++ remainder b n ++ bs2).
Proof.
  intros [H1 (H2&H3&H4)]%spaced_app Hn. apply spaced_app. split; [done|].
  unfold remainder. destruct (Z.gtb_spec b.2 n); cbn.
  - split_and!; [lia|lia|]. eapply spaced_mono; [done|lia|lia].
  - eapply spaced_mono; [done|lia|]. lia.
Qed.

(** What an allocation leaves of the descriptors. *)
Definition taken (s s' : pstate) (p n : Z) : Prop :=
  (forall q, is_Some (pages s' !! q) <-> is_Some (pages s !! q)) /\
  (forall q x', pages s' !! q = Some x' ->
     exists x, pages s !! q = Some x /\ reserved x' = reserved x /\ ref x' = ref x) /\
  (forall q, p <= q < p + n -> exists x, pages s' !! q = Some x /\ reserved x = false /\ prop_flag x = false).

Lemma wp_take_block bs1 b bs2 n s (Q : () -> pstate -> Prop) :
  fl_inv g s (bs1 ++ b :: bs2) -> 0 < n <= b.2 ->
  (forall s', fl_inv g s' (bs1 ++ remainder b n ++ bs2) -> taken s s' b.1 n -> Q () s') ->
  wp (take_block b.1 n) Q s.
Proof.
  intros H Hn HQ. pose proof (spaced_split _ _ _ _ (fi_spaced _ _ _ H)) as (Hb1&Hb2&Hb0&Hbpos).
  pose proof (fi_list _ _ _ H) as Hl. pose proof Hl as Hpv. rewrite fmap_mid in Hpv. apply dlist_prv in Hpv.
  destruct (fi_block _ _ _ H b (in_mid _ _ _)) as (x&Hx&Hxf&Hxp).
  pose proof (fi_nr _ _ _ H) as Hnr. pose proof (fi_bound _ _ _ H) as Hbd.
  rewrite total_app in Hnr, Hbd. cbn [total] in Hnr, Hbd.
  pose proof (fi_spaced _ _ _ H) as Hsp. apply spaced_app in Hsp as [Hsp1 (_&_&Hsp2)].
  pose proof (total_nonneg _ _ _ Hsp1). pose proof (total_nonneg _ _ _ Hsp2).
  assert (Hfree : forall q, b.1 <= q < b.1 + b.2 -> free_page (bs1 ++ b :: bs2) q).
  { intros q Hq. exists b. split; [apply in_mid|lia]. }
  unfold take_block. kstep. eapply wp_prev; [exact Hpv|]. kstep.
  eapply wp_links_del; [exact Hl|done|]. intros h1 Hs1 Hd1. kstep.
  eapply wp_page_at; [done|]. rewrite Hxp. kstep.
  eapply (wp_mono _ (fun _ s' => exists m h, s' = set_links h (set_pages m s) /\ same_cells (links s) h /\
     dlist h HEAD (bs1 ++ remainder b n ++ bs2).*1 /\ m !! b.1 = Some x /\
     (forall q, q <> b.1 + n -> m !! q = pages s !! q) /\
     (b.2 > n -> exists y z, pages s !! (b.1 + n) = Some z /\ m !! (b.1 + n) = Some y /\ prop_flag y = true /\
        property y = b.2 - n /\ reserved y = reserved z /\ ref y = ref z) /\
     (b.2 = n -> m !! (b.1 + n) = pages s !! (b.1 + n)))).
  { unfold remainder. apply wp_when; intros Hgt.
    - apply Z.gtb_lt in Hgt. rewrite (proj2 (Z.gtb_lt _ _)) by lia. cbv zeta.
      destruct (fi_pages _ _ _ H (b.1 + n)) as (z&Hz&Hzr); [apply Hfree; lia|].
      kstep. eapply wp_page_upd; [exact Hz|]. kstep. eapply wp_page_upd; [apply lookup_insert_eq|].
      cbn [pages set_pages set_links]. rewrite insert_insert_eq, uwrap_small by lia.
      apply (wp_links_add bs1 (b.1 + n, b.2 - n) bs2); cbn [links set_pages set_links fst].
      + done.
      + apply Hs1, (fi_cells _ _ _ H). eauto.
      + unfold HEAD. lia.
      + intros (c&Hc&Hcb)%list_elem_of_fmap. apply elem_of_app in Hcb as [Hcb|Hcb].
        * apply Hb1 in Hcb. lia.
        * apply Hb2 in Hcb. lia.
      + intros h2 Hs2 Hd2. exists (<[b.1 + n := SetPageProperty (set_property (b.2 - n) z)]> (pages s)), h2.
        split; [reflexivity|]. split_and!.
        * intros q. by rewrite (Hs2 q), (Hs1 q).
        * done.
        * rewrite lookup_insert_ne by lia. done.
        * intros q Hq. by apply lookup_insert_ne.
        * intros _. eexists _, z. rewrite lookup_insert_eq. split_and!; done.
        * lia.
    - assert (b.2 = n) by (destruct (Z.gtb_spec b.2 n); [done|lia]).
      rewrite Hgt. exists (pages s), h1. split_and!; try done. lia. }
  intros [] s1 (m&h&->&Hs&Hd&Hm0&Hm1&Hm2&Hm3). kstep. kstep. cbn [nr_free set_links set_pages].
  eapply wp_page_upd; [exact Hm0|]. cbn [pages set_links set_pages set_nr_free].
  assert (Hrel : forall q y, (<[b.1:=ClearPageProperty x]> m) !! q = Some y ->
    exists z, pages s !! q = Some z /\ reserved y = reserved z /\ ref y = ref z /\
      (prop_flag y = true -> q <> b.1 /\ (q = b.1 + n /\ b.2 > n \/ prop_flag z = true))).
  { intros q y. rewrite lookup_insert. case_decide; [intros [= <-]; subst q; eauto 10|]. intros Hy.
    destruct (decide (q = b.1 + n)) as [->|]; [|rewrite Hm1 in Hy by done; exists y; naive_solver].
    destruct (decide (b.2 = n)); [rewrite Hm3 in Hy by done; exists y; naive_solver|].
    destruct Hm2 as (y'&z&Hz&Hy'&_&_&?&?); [lia|]. rewrite Hy in Hy'. injection Hy' as <-.
    exists z. split_and!; [done|done|done|]. intros _. split; [lia|left; lia]. }
  assert (Hdom : forall q, is_Some ((<[b.1:=ClearPageProperty x]> m) !! q) <-> is_Some (pages s !! q)).
  { intros q. split; [intros [y Hy]; destruct (Hrel q y Hy) as (z&?&_); eauto|].
    intros Hq. apply lookup_insert_is_Some. destruct (decide (b.1 = q)); [by left|right]. split; [done|].
    destruct (decide (q = b.1 + n)) as [->|]; [|by rewrite Hm1].
    destruct (decide (b.2 = n)); [by rewrite Hm3|]. destruct Hm2 as (?&?&?&?&?); [lia|]. eauto. }
  assert (Hsub : forall q, free_page (bs1 ++ remainder b n ++ bs2) q -> free_page (bs1 ++ b :: bs2) q).
  { intros q (c&Hc&Hq). rewrite !elem_of_app in Hc. destruct Hc as [Hc|[Hc|Hc]].
    - exists c. split; [apply elem_of_app; by left|done].
    - apply Hfree. unfold remainder in Hc. destruct (Z.gtb_spec b.2 n); [|by apply not_elem_of_nil in Hc].
      apply list_elem_of_singleton in Hc as ->. cbn in Hq. lia.
    - exists c. split; [apply elem_of_app; right; apply elem_of_cons; by right|done]. }
  apply HQ.
  - split; cbn [pages links nr_free set_links set_pages set_nr_free].
    + done.
    + intros q Hq%Hdom. apply (fi_cells _ _ _ H) in Hq as [? ?]. split; [done|by apply Hs].
    + intros c Hc. rewrite !elem_of_app in Hc. destruct Hc as [Hc|[Hc|Hc]].
      * pose proof (Hb1 _ Hc). rewrite lookup_insert_ne, Hm1 by lia. apply (fi_block _ _ _ H), elem_of_app. by left.
      * unfold remainder in Hc. destruct (Z.gtb_spec b.2 n); [|by apply not_elem_of_nil in Hc].
        apply list_elem_of_singleton in Hc as ->. cbn [fst snd]. rewrite lookup_insert_ne by lia.
        destruct Hm2 as (y&?&?&?&?&?&_); [lia|]. by exists y.
      * pose proof (Hb2 _ Hc). rewrite lookup_insert_ne by lia.
        assert (Hin : c ∈ bs1 ++ b :: bs2) by (apply elem_of_app; right; apply elem_of_cons; by right).
        destruct (decide (c.1 = b.1 + n)) as [Ec|]; [|rewrite Hm1 by done; by apply (fi_block _ _ _ H)].
        assert (m !! c.1 = pages s !! c.1) as -> by (rewrite Ec; apply Hm3; lia). by apply (fi_block _ _ _ H).
    + intros q Hq%Hsub. destruct (fi_pages _ _ _ H q Hq) as (z&Hz&Hr).
      destruct (proj2 (Hdom q)) as [y Hy]; [eauto|]. destruct (Hrel q y Hy) as (z'&Hz'&E&_).
      exists y. split; [done|]. congruence.
    + intros q y Hy Hf. destruct (Hrel q y Hy) as (z&Hz&_&_&Hfl). destruct (Hfl Hf) as [Hqb [[-> ?]|Hfz]].
      * unfold remainder. rewrite (proj2 (Z.gtb_lt _ _)) by lia. rewrite !fmap_app. set_solver +.
      * apply (fi_flag _ _ _ H q z Hz) in Hfz. rewrite fmap_mid in Hfz. rewrite !fmap_app.
        set_solver +Hfz Hqb.
    + by apply remainder_spaced; [apply H|].
    + rewrite !total_app, remainder_total, uwrap_small by lia. lia.
    + rewrite !total_app, remainder_total by lia. lia.
  - split_and!; cbn [pages links set_links set_pages set_nr_free].
    + done.
    + intros q y Hy. destruct (Hrel q y Hy) as (z&?&?&?&_). eauto.
    + intros q Hq. destruct (fi_pages _ _ _ H q) as (z&Hz&Hr); [apply Hfree; lia|].
      destruct (proj2 (Hdom q)) as [y Hy]; [eauto|]. destruct (Hrel q y Hy) as (z'&Hz'&E&_&Hfl).
      exists y. split_and!; [done|congruence|]. destruct (prop_flag y); [|done].
      destruct (Hfl eq_refl) as [Hqb [[? _]|Hfz]]; [lia|]. exfalso.
      apply (fi_flag _ _ _ H q _ Hz') in Hfz. apply list_elem_of_fmap in Hfz as (c&->&Hc).
      apply elem_of_app in Hc as [Hc|[->|Hc]%elem_of_cons]; [apply Hb1 in Hc; lia|done|apply Hb2 in Hc; lia].
Qed.
End blocks.

(** ** Insertion and merging *)
Lemma wp_insert_walk bs2 bs1 c bs3 fuel base n s (Q : () -> pstate -> Prop) :
  dlist (links s) HEAD (bs1 ++ bs2 ++ c :: bs3).*1 ->
  (forall b : block, b ∈ bs1 ++ bs2 -> HEAD < b.1 < base) -> HEAD < base < c.1 ->
  is_Some (links s !! base) -> base ∉ (bs1 ++ bs2 ++ c :: bs3).*1 -> (length bs2 < fuel)%nat ->
  (forall h', same_cells (links s) h' -> dlist h' HEAD (bs1 ++ bs2 ++ (base, n) :: c :: bs3).*1 ->
     Q () (set_links h' s)) ->
  wp (insert_walk fuel (List.last (bs1.*1) HEAD) base) Q s.
Proof.
  revert bs1 fuel. induction bs2 as [|b bs2 IH]; intros bs1 [|fuel] Hl Hlt Hc Hb Hni Hf HQ; cbn [length] in Hf; try lia;
    cbn [insert_walk]; pose proof Hl as Hn; rewrite fmap_app in Hn; apply dlist_nxt in Hn.
  - cbn [app fmap list_fmap hd] in *. kstep. eapply wp_next; [exact Hn|].
    rewrite bool_decide_false by lia. rewrite (proj2 (Z.ltb_lt _ _)) by lia.
    unfold on_links. kstep. rewrite fmap_app in Hl, Hni.
    change c.1 with (hd HEAD (c :: bs3).*1).
    apply (wp_list_add_before_at _ HEAD bs1.*1 (c :: bs3).*1); [done|done|apply not_elem_of_cons; split; [lia|done]|].
    intros h' Hs _ Hd. apply HQ; [done|]. rewrite fmap_app. done.
  - cbn [app fmap list_fmap hd] in Hn. kstep. eapply wp_next; [exact Hn|].
    assert (Hbb : HEAD < b.1 < base) by (apply Hlt, in_mid).
    rewrite bool_decide_false by lia. rewrite (proj2 (Z.ltb_ge _ _)) by lia.
    assert (E : bs1 ++ (b :: bs2) ++ c :: bs3 = (bs1 ++ [b]) ++ bs2 ++ c :: bs3) by (by rewrite <-app_assoc).
    rewrite E in Hl, Hni. pose proof Hl as Hn2. rewrite fmap_app in Hn2. apply dlist_nxt in Hn2.
    rewrite (fmap_app fst bs1 [b]) in Hn2. cbn [fmap list_fmap] in Hn2. rewrite lastd_snoc in Hn2.
    kstep. eapply wp_next; [exact Hn2|].
    kstep. rewrite bool_decide_false; cbn [when].
    2:{ destruct bs2 as [|d bs2]; cbn; [lia|]. assert (HEAD < d.1 < base); [|lia].
        apply Hlt, elem_of_app. right. apply elem_of_cons. right. apply elem_of_cons. by left. }
    apply wp_ret. specialize (IH (bs1 ++ [b]) fuel). rewrite (fmap_app fst bs1 [b]) in IH. cbn [fmap list_fmap] in IH.
    rewrite lastd_snoc in IH. apply IH; [exact Hl|by rewrite <-app_assoc|done|done|done|lia|].
    intros h' Hs Hd. apply HQ; [done|]. by rewrite <-app_assoc in Hd.
Qed.

(** The block is put in its place: the list is empty, or a free block follows. *)
Lemma wp_insert_block bs1 bs2 base n s (Q : () -> pstate -> Prop) :
  dlist (links s) HEAD (bs1 ++ bs2).*1 ->
  (forall b : block, b ∈ bs1 -> HEAD < b.1 < base) -> (forall b : block, b ∈ bs2 -> base < b.1) -> HEAD < base ->
  is_Some (links s !! base) -> (bs2 = [] -> bs1 = []) -> (length bs1 < walk_fuel s)%nat ->
  (forall h', same_cells (links s) h' -> dlist h' HEAD (bs1 ++ (base, n) :: bs2).*1 -> Q () (set_links h' s)) ->
  wp (insert_block base) Q s.
Proof.
  intros Hl H1 H2 Hb Hc Hne Hf HQ. unfold insert_block. kstep.
  pose proof (dlist_nxt _ _ [] _ Hl) as Hn. cbn [List.last] in Hn. eapply wp_empty; [exact Hn|].
  destruct bs2 as [|c bs2].
  - rewrite (Hne eq_refl). rewrite (Hne eq_refl) in Hl, Hn, HQ. rewrite bool_decide_true by done.
    unfold on_links. kstep.
    apply (wp_list_add_at _ HEAD [] []); [done|done|apply not_elem_of_cons; split; [lia|apply not_elem_of_nil]|].
    intros h' Hs _ Hd. by apply HQ.
  - rewrite bool_decide_false.
    2:{ destruct bs1 as [|b bs1]; cbn.
        - assert (base < c.1) by (apply H2, elem_of_cons; by left). lia.
        - assert (HEAD < b.1 < base) by (apply H1, elem_of_cons; by left). lia. }
    kstep. kstep. apply (wp_insert_walk bs1 [] c bs2 _ base n); [done|done| |done| |done|done].
    + split; [done|]. apply H2, elem_of_cons. by left.
    + intros (b&Eb&Hin)%list_elem_of_fmap. cbn [app] in Hin.
      apply elem_of_app in Hin as [Hin|Hin]; [apply H1 in Hin; lia|apply H2 in Hin; lia].
Qed.

(** Two blocks that touch become one. *)
Lemma wp_join l1 p k n l2 s (Q : () -> pstate -> Prop) :
  fl_inv 0 s (l1 ++ (p, k) :: (p + k, n) :: l2) ->
  (forall s', fl_inv 0 s' (l1 ++ (p, k + n) :: l2) -> Q () s') ->
  wp (page_upd p (set_property (u32 (k + n)));; page_upd (p + k) ClearPageProperty;;
      on_links (list_del (p + k))) Q s.
Proof.
  intros H HQ. pose proof (spaced_split 0 (Z.le_refl 0) _ _ _ _ (fi_spaced _ _ _ H)) as (H1&H2&H3&H4).
  assert (Hpn : (p + k, n) ∈ (p + k, n) :: l2) by (apply elem_of_cons; by left).
  pose proof (H2 _ Hpn) as [_ Hn]. cbn [fst snd] in *.
  pose proof (fi_spaced _ _ _ H) as Hsp. apply spaced_app in Hsp as [Hsp1 Hsp2].
  cbn [spaced fst snd] in Hsp2. destruct Hsp2 as (Hlo&_&_&_&Hsp2).
  assert (H5 : forall c : block, c ∈ l2 -> p + k + n <= c.1 /\ 0 < c.2).
  { intros c Hc. pose proof (spaced_in 0 _ _ _ ltac:(lia) Hsp2 Hc). lia. }
  pose proof (fi_nr _ _ _ H) as Hnr. pose proof (fi_bound _ _ _ H) as Hbd.
  rewrite total_app in Hnr, Hbd. cbn [total fst snd] in Hnr, Hbd.
  pose proof (total_nonneg _ _ _ Hsp1). pose proof (total_nonneg _ _ _ Hsp2).
  set (bs := l1 ++ (p, k) :: (p + k, n) :: l2) in *.
  assert (Hin2 : (p + k, n) ∈ bs) by (apply elem_of_app; right; apply elem_of_cons; by right).
  destruct (fi_block _ _ _ H (p, k) (in_mid _ _ _)) as (x&Hx&Hxf&Hxp).
  destruct (fi_block _ _ _ H _ Hin2) as (y&Hy&Hyf&Hyp). cbn [fst snd] in *.
  kstep. eapply wp_page_upd; [exact Hx|]. kstep.
  eapply wp_page_upd; [cbn; rewrite lookup_insert_ne by lia; exact Hy|].
  assert (Ebs : bs = (l1 ++ [(p, k)]) ++ (p + k, n) :: l2) by (unfold bs; by rewrite <-app_assoc).
  eapply (wp_links_del _ (l1 ++ [(p, k)]) (p + k, n) l2); [cbn; rewrite <-Ebs; apply H|done|].
  cbn [links set_pages pages]. intros h' Hs Hd. rewrite <-app_assoc in Hd. rewrite uwrap_small by lia.
  set (m := <[p + k := _]> _).
  assert (Hm : forall q z, m !! q = Some z -> exists z0, pages s !! q = Some z0 /\ reserved z = reserved z0 /\
            (prop_flag z = true -> prop_flag z0 = true /\ q <> p + k)).
  { intros q z. unfold m. rewrite !lookup_insert. case_decide; [subst q; intros [= <-]; exists y; done|].
    case_decide; [subst q; intros [= <-]; exists x; cbn; split_and!; [done|done|intros; split; [done|lia]]|].
    intros Hz. exists z. split_and!; [done|done|intros; split; [done|lia]]. }
  assert (Hdom : forall q, is_Some (m !! q) <-> is_Some (pages s !! q)).
  { intros q. split; [intros [z Hz]; destruct (Hm q z Hz) as (?&?&_); eauto|]. intros Hq. unfold m.
    apply lookup_insert_is_Some'. right. apply lookup_insert_is_Some'. by right. }
  apply HQ. split; cbn [pages links nr_free set_links set_pages].
  - rewrite fmap_app in Hd |- *. exact Hd.
  - intros q Hq%Hdom. apply (fi_cells _ _ _ H) in Hq as [? ?]. split; [done|by apply Hs].
  - intros c Hc. apply elem_of_app in Hc as [Hc|[->|Hc]%elem_of_cons]; cbn [fst snd].
    + pose proof (H1 _ Hc). unfold m. rewrite !lookup_insert_ne by lia.
      apply (fi_block _ _ _ H), elem_of_app. by left.
    + unfold m. rewrite lookup_insert_ne, lookup_insert_eq by lia. by eexists.
    + pose proof (H5 _ Hc). unfold m. rewrite !lookup_insert_ne by lia.
      apply (fi_block _ _ _ H), elem_of_app. right. apply elem_of_cons. right. apply elem_of_cons. by right.
  - intros q (c&Hc&Hq).
    assert (free_page bs q) as Hfq.
    { apply elem_of_app in Hc as [Hc|[->|Hc]%elem_of_cons]; cbn [fst snd] in Hq.
      - exists c. split; [apply elem_of_app; by left|done].
      - destruct (decide (q < p + k)); [exists (p, k); split; [apply in_mid|cbn; lia]|].
        exists (p + k, n). split; [done|cbn; lia].
      - exists c. split; [|done]. apply elem_of_app. right. apply elem_of_cons. right. apply elem_of_cons. by right. }
    destruct (fi_pages _ _ _ H q Hfq) as (z&Hz&Hr). destruct (proj2 (Hdom q)) as [z' Hz']; [eauto|].
    destruct (Hm q z' Hz') as (z0&Hz0&E&_). exists z'. split; [done|]. congruence.
  - intros q z Hz Hf. destruct (Hm q z Hz) as (z0&Hz0&_&Hfl). destruct (Hfl Hf) as [Hf0 Hne].
    apply (fi_flag _ _ _ H q _ Hz0) in Hf0. unfold bs in Hf0. rewrite fmap_mid in Hf0 |- *. cbn in Hf0 |- *.
    set_solver +Hf0 Hne.
  - apply spaced_app. split; [done|]. cbn. split_and!; [done|lia|].
    by replace (p + (k + n) + 0) with (p + k + n + 0) by lia.
  - rewrite total_app. cbn. lia.
  - rewrite total_app. cbn. lia.
Qed.

(** ** Release *)

(** An allocated run of pages. *)
Definition allocated (s : pstate) (bs : list block) (base n : Z) : Prop :=
  forall q, base <= q < base + n ->
    ~ free_page bs q /\ exists x, pages s !! q = Some x /\ reserved x = false /\ prop_flag x = false.

Lemma split_blocks g lo bs base n :
  0 <= g -> spaced g lo bs -> 0 < n -> (forall q, base <= q < base + n -> ~ free_page bs q) ->
  exists bs1 bs2, bs = bs1 ++ bs2 /\ (forall b : block, b ∈ bs1 -> b.1 + b.2 <= base) /\
    (forall b : block, b ∈ bs2 -> base + n <= b.1).
Proof.
  intros Hg. revert lo. induction bs as [|b bs IH]; intros lo H Hn Hf.
  - exists [], []. split_and!; [done|..]; by intros b ?%not_elem_of_nil.
  - pose proof H as (Hlo&Hb&Hs). destruct (decide (b.1 + b.2 <= base)).
    + destruct (IH _ Hs Hn) as (bs1&bs2&->&H1&H2).
      { intros q Hq (c&Hc&Hcq). apply (Hf q Hq). exists c. split; [apply elem_of_cons; by right|done]. }
      exists (b :: bs1), bs2. split_and!; [done| |done]. intros c [->|Hc]%elem_of_cons; [done|by apply H1].
    + assert (base + n <= b.1).
      { destruct (decide (base + n <= b.1)); [done|]. exfalso. apply (Hf (Z.max base b.1)); [lia|].
        exists b. split; [apply elem_of_cons; by left|lia]. }
      exists [], (b :: bs). split_and!; [done|by intros c ?%not_elem_of_nil|].
      intros c [->|Hc]%elem_of_cons; [done|]. pose proof (spaced_in _ _ _ _ Hg Hs Hc). lia.
Qed.

Lemma wp_free_pages_loop n p s (Q : () -> pstate -> Prop) :
  (forall q, p <= q < p + Z.of_nat n -> exists x, pages s !! q = Some x /\ reserved x = false /\ prop_flag x = false) ->
  (forall m, (forall q, ~ (p <= q < p + Z.of_nat n) -> m !! q = pages s !! q) ->
     (forall q, p <= q < p + Z.of_nat n -> exists x, m !! q = Some x /\ reserved x = false /\ prop_flag x = false /\ ref x = 0) ->
     Q () (set_pages m s)) ->
  wp (free_pages_loop n p) Q s.
Proof.
  revert p s. induction n as [|n IH]; intros p s Ha HQ; cbn [free_pages_loop].
  - apply wp_ret. replace s with (set_pages (pages s) s) by (by destruct s). apply HQ; [done|lia].
  - destruct (Ha p) as (x&Hx&Hr&Hf); [lia|]. kstep. eapply wp_page_at; [done|].
    kstep. kstep; [by rewrite Hr, Hf|]. kstep. eapply wp_page_upd; [done|]. apply IH.
    + intros q Hq. cbn. rewrite lookup_insert_ne by lia. apply Ha. lia.
    + intros m Hm1 Hm2. apply HQ.
      * intros q Hq. rewrite Hm1 by lia. apply lookup_insert_ne. lia.
      * intros q Hq. destruct (decide (q = p)) as [->|]; [|apply Hm2; lia].
        rewrite Hm1 by lia. cbn. rewrite lookup_insert_eq. by eexists.
Qed.

Lemma wp_merge_prev bs1 base n bs2 s (Q : Z -> pstate -> Prop) :
  fl_inv 0 s (bs1 ++ (base, n) :: bs2) ->
  (forall s' bs1' base' n', fl_inv 0 s' (bs1' ++ (base', n') :: bs2) ->
     (bs1' = bs1 /\ base' = base /\ n' = n /\ end_of 1 0 bs1 <= base) \/
     (bs1 = bs1' ++ [(base', base - base')] /\ n' = base - base' + n) -> Q base' s') ->
  wp (merge_prev base) Q s.
Proof.
  intros H HQ. pose proof (fi_list _ _ _ H) as Hl. rewrite fmap_mid in Hl. apply dlist_prv in Hl. cbn [hd fst] in Hl.
  destruct (fi_block _ _ _ H (base, n) (in_mid _ _ _)) as (x&Hx&_&Hxp). cbn [fst snd] in Hx, Hxp.
  unfold merge_prev. kstep. eapply wp_prev; [exact Hl|].
  pose proof (spaced_split 0 (Z.le_refl 0) _ _ _ _ (fi_spaced _ _ _ H)) as (H1&_&H3&_). cbn [fst snd] in *.
  destruct bs1 as [|b bs1 _] using rev_ind.
  { cbn [fmap list_fmap List.last]. rewrite bool_decide_false by (intros E; by apply E). apply wp_ret.
    apply (HQ s [] base n); [done|]. left. split_and!; try done. }
  rewrite fmap_app. cbn [fmap list_fmap]. rewrite lastd_snoc.
  assert (Hb : b ∈ (bs1 ++ [b]) ++ (base, n) :: bs2) by (rewrite <-app_assoc; apply in_mid).
  assert (Hb' : b ∈ bs1 ++ [b]) by apply in_mid. specialize (H1 b Hb').
  destruct (fi_block _ _ _ H b Hb) as (y&Hy&_&Hyp).
  rewrite bool_decide_true by (unfold HEAD; lia).
  kstep. eapply wp_page_at; [done|]. rewrite Hyp. case_bool_decide as E.
  - kstep. eapply wp_page_at; [done|]. rewrite Hxp. destruct b as [p k]. cbn [fst snd] in *. subst base.
    apply wp_assoc3. rewrite <-app_assoc in H. apply (wp_join bs1 p k n bs2); [exact H|].
    intros s' H'. apply wp_ret. apply (HQ s' bs1 p (k + n)); [exact H'|]. right.
    by replace (p + k - p) with k by lia.
  - apply wp_ret. apply (HQ s (bs1 ++ [b]) base n); [done|]. left. split_and!; try done.
    unfold end_of. rewrite last_snoc. lia.
Qed.

Lemma wp_merge_next bs1 base n bs2 s (Q : () -> pstate -> Prop) :
  fl_inv 0 s (bs1 ++ (base, n) :: bs2) ->
  (forall s' bs2' n', fl_inv 0 s' (bs1 ++ (base, n') :: bs2') ->
     (bs2' = bs2 /\ n' = n /\ match bs2 with [] => True | c :: _ => base + n + 1 <= c.1 end) \/
     (exists k, bs2 = (base + n, k) :: bs2' /\ n' = n + k) -> Q () s') ->
  wp (merge_next base) Q s.
Proof.
  intros H HQ. pose proof (fi_list _ _ _ H) as Hl.
  assert (E : bs1 ++ (base, n) :: bs2 = (bs1 ++ [(base, n)]) ++ bs2) by (by rewrite <-app_assoc).
  rewrite E, fmap_app in Hl. apply dlist_nxt in Hl. rewrite fmap_app in Hl. cbn [fmap list_fmap fst] in Hl.
  rewrite lastd_snoc in Hl.
  destruct (fi_block _ _ _ H (base, n) (in_mid _ _ _)) as (x&Hx&_&Hxp). cbn [fst snd] in Hx, Hxp.
  pose proof (spaced_split 0 (Z.le_refl 0) _ _ _ _ (fi_spaced _ _ _ H)) as (_&H2&H3&_). cbn [fst snd] in *.
  unfold merge_next. kstep. eapply wp_next; [exact Hl|].
  destruct bs2 as [|[c k] bs2].
  { cbn. apply (HQ s [] n); [done|]. by left. }
  change (hd HEAD ((c, k) :: bs2).*1) with c.
  assert (Hc : (c, k) ∈ bs1 ++ (base, n) :: (c, k) :: bs2).
  { apply elem_of_app. right. apply elem_of_cons. right. apply elem_of_cons. by left. }
  assert (base + n + 0 <= c) by (apply (H2 (c, k)), elem_of_cons; by left).
  destruct (fi_block _ _ _ H _ Hc) as (y&Hy&_&Hyp). cbn [fst snd] in Hy, Hyp.
  assert (0 < n) by (eapply (spaced_in 0 0 _ (base, n)); [lia|apply H|apply in_mid]).
  rewrite bool_decide_true by (unfold HEAD; lia). cbn [when].
  kstep. eapply wp_page_at; [done|]. rewrite Hxp. apply wp_when_dec; intros Ec.
  - subst c. kstep. eapply wp_page_at; [done|]. rewrite Hyp.
    eapply wp_join; [exact H|]. intros s' H'. apply (HQ s' bs2 (n + k)); [done|]. right. by exists k.
  - apply (HQ s ((c, k) :: bs2) n); [done|]. left. split_and!; [done|done|]. cbn. lia.
Qed.

Lemma spaced_relo g lo lo' bs :
  spaced g lo bs -> match bs with [] => True | c :: _ => lo' <= c.1 end -> spaced g lo' bs.
Proof. destruct bs as [|c bs]; cbn; tauto. Qed.

(** After both merges no two blocks touch. *)
Lemma merged_spaced bs1 bs2 base n bs1' base' n' bs2' n'' :
  spaced 1 0 bs1 -> spaced 1 (end_of 1 0 bs1) bs2 ->
  (bs1' = bs1 /\ base' = base /\ n' = n /\ end_of 1 0 bs1 <= base) \/
    (bs1 = bs1' ++ [(base', base - base')] /\ n' = base - base' + n) ->
  (bs2' = bs2 /\ n'' = n' /\ match bs2 with [] => True | c :: _ => base' + n' + 1 <= c.1 end) \/
    (exists k, bs2 = (base' + n', k) :: bs2' /\ n'' = n' + k) ->
  0 < n'' -> spaced 1 0 (bs1' ++ (base', n'') :: bs2').
Proof.
  intros H1 H2 Hl Hr Hn. apply spaced_app.
  assert (spaced 1 0 bs1' /\ end_of 1 0 bs1' <= base') as [? ?].
  { destruct Hl as [(->&->&->&?)|[-> ?]]; [done|]. apply spaced_app in H1 as [? (?&?&?)]. done. }
  split; [done|]. cbn. split_and!; [done|done|].
  destruct Hr as [(->&->&Hc)|(k&->&->)]; [by eapply spaced_relo|].
  cbn in H2. destruct H2 as (_&_&H2). by replace (base' + (n' + k) + 1) with (base' + n' + k + 1) by lia.
Qed.

Lemma free_page_app bs1 bs2 q : free_page (bs1 ++ bs2) q <-> free_page bs1 q \/ free_page bs2 q.
Proof.
  unfold free_page. split.
  - intros (b&[?|?]%elem_of_app&?); eauto.
  - intros [(b&?&?)|(b&?&?)]; exists b; rewrite elem_of_app; auto.
Qed.

Lemma free_page_cons b bs q : free_page (b :: bs) q <-> b.1 <= q < b.1 + b.2 \/ free_page bs q.
Proof.
  unfold free_page. split.
  - intros (c&[->|?]%elem_of_cons&?); eauto.
  - intros [?|(c&?&?)]; [exists b|exists c]; rewrite elem_of_cons; auto.
Qed.

(** The merged list has the pages of the old one and the new block. *)
Lemma merged_pages bs1 bs2 base n bs1' base' n' bs2' n'' :
  spaced 1 0 (bs1 ++ bs2) -> 0 < n -> 
  (bs1' = bs1 /\ base' = base /\ n' = n /\ end_of 1 0 bs1 <= base) \/
    (bs1 = bs1' ++ [(base', base - base')] /\ n' = base - base' + n) ->
  (bs2' = bs2 /\ n'' = n' /\ match bs2 with [] => True | c :: _ => base' + n' + 1 <= c.1 end) \/
    (exists k, bs2 = (base' + n', k) :: bs2' /\ n'' = n' + k) ->
  forall q, free_page (bs1' ++ (base', n'') :: bs2') q <->
            free_page (bs1 ++ bs2) q \/ base <= q < base + n.
Proof.
  intros Hs Hn Hl Hr q.
  destruct Hl as [(->&->&->&_)|[-> ->]]; destruct Hr as [(->&->&_)|(k&->&->)];
    rewrite !free_page_app, !free_page_cons; cbn [fst snd]; rewrite ?free_page_app, ?free_page_cons; cbn [fst snd].
  - tauto.
  - apply (spaced_in 1 0 _ (base + n, k)) in Hs; [|lia|apply in_mid]. cbn in Hs.
    assert (base <= q < base + (n + k) <-> base <= q < base + n \/ base + n <= q < base + n + k) by lia. tauto.
  - rewrite <-app_assoc in Hs. cbn [app] in Hs.
    apply (spaced_in 1 0 _ (base', base - base')) in Hs; [|lia|apply in_mid]. cbn in Hs.
    assert (~ free_page [] q) by (intros (?&?%not_elem_of_nil&_); done).
    assert (base' <= q < base' + (base - base' + n) <->
      base' <= q < base' + (base - base') \/ base <= q < base + n) by lia. tauto.
  - pose proof Hs as Hs'. rewrite <-app_assoc in Hs. cbn [app] in Hs.
    apply (spaced_in 1 0 _ (base', base - base')) in Hs; [|lia|apply in_mid]. cbn in Hs.
    apply (spaced_in 1 0 _ (base' + (base - base' + n), k)) in Hs'; [|lia|apply in_mid]. cbn in Hs'.
    assert (~ free_page [] q) by (intros (?&?%not_elem_of_nil&_); done).
    assert (base' <= q < base' + (base - base' + n + k) <->
      base' <= q < base' + (base - base') \/ base <= q < base + n \/
      base' + (base - base' + n) <= q < base' + (base - base' + n) + k) by lia. tauto.
Qed.

Lemma merged_total bs1 bs2 base n bs1' base' n' bs2' n'' :
  (bs1' = bs1 /\ base' = base /\ n' = n /\ end_of 1 0 bs1 <= base) \/
    (bs1 = bs1' ++ [(base', base - base')] /\ n' = base - base' + n) ->
  (bs2' = bs2 /\ n'' = n' /\ match bs2 with [] => True | c :: _ => base' + n' + 1 <= c.1 end) \/
    (exists k, bs2 = (base' + n', k) :: bs2' /\ n'' = n' + k) ->
  total (bs1' ++ (base', n'') :: bs2') = total (bs1 ++ bs2) + n.
Proof.
  intros [(->&->&->&_)|[-> ->]] [(->&->&_)|(k&->&->)]; rewrite !total_app; cbn [total snd];
    rewrite ?total_app; cbn [total snd]; lia.
Qed.

Lemma wp_default_free s bs base n (Q : () -> pstate -> Prop) :
  fl_inv 1 s bs -> 0 < n -> 0 <= base -> allocated s bs base n -> total bs + n < 2 ^ 32 ->
  (bs = [] \/ exists b, b ∈ bs /\ base < b.1) ->
  (forall s' bs', fl_inv 1 s' bs' -> total bs' = total bs + n ->
     (forall q, free_page bs' q <-> free_page bs q \/ base <= q < base + n) -> Q () s') ->
  wp (default_free_pages base n) Q s.
Proof.
  intros H Hn Hb0 Ha Hbd Hpos HQ.
  destruct (split_blocks 1 0 bs base n) as (bs1&bs2&->&H1&H2); [lia|apply H|done|intros q Hq; by apply Ha|].
  pose proof (fi_spaced _ _ _ H) as Hsp. pose proof Hsp as [Hs1 Hs2]%spaced_app.
  unfold default_free_pages. kstep. kstep; [by apply Z.ltb_lt|]. kstep.
  apply wp_free_pages_loop; rewrite Z2Nat.id by lia; [intros q Hq; by apply Ha|].
  intros m Hm1 Hm2. destruct (Hm2 base) as (x&Hx&Hxr&Hxf&Hxref); [lia|].
  kstep. eapply wp_page_upd; [exact Hx|]. kstep. eapply wp_page_upd; [apply lookup_insert_eq|].
  cbn [pages set_pages]. rewrite insert_insert_eq. kstep. kstep. cbn [nr_free set_pages].
  pose proof (fi_nr _ _ _ H) as Hnr. pose proof (total_nonneg _ _ _ Hsp). rewrite !uwrap_small by lia.
  set (m' := <[base:=_]> m). set (s1 := set_nr_free _ _).
  assert (Hout : forall q, ~ (base <= q < base + n) -> m' !! q = pages s !! q).
  { intros q Hq. unfold m'. rewrite lookup_insert_ne by lia. by apply Hm1. }
  assert (Hin : forall q, base <= q < base + n -> exists y, m' !! q = Some y /\ reserved y = false /\
            prop_flag y = bool_decide (q = base) /\ (q = base -> property y = n)).
  { intros q Hq. unfold m'. destruct (decide (q = base)) as [->|].
    - rewrite lookup_insert_eq. eexists. split_and!; [done|done|by rewrite bool_decide_true|done].
    - rewrite lookup_insert_ne by done. destruct (Hm2 q Hq) as (y&?&?&?&_). exists y.
      split_and!; [done|done|by rewrite bool_decide_false|done]. }
  assert (Hlk : is_Some (links s !! base)).
  { apply (fi_cells _ _ _ H). destruct (Ha base) as [_ (y&?&_)]; [lia|eauto]. }
  pose proof (fl_fuel 1 s _ H) as Hfuel. rewrite length_app in Hfuel.
  kstep. apply (wp_insert_block bs1 bs2 base n).
  - apply H.
  - intros b Hb. pose proof (spaced_in 1 0 _ b ltac:(lia) Hs1 Hb). specialize (H1 b Hb). unfold HEAD. lia.
  - intros b Hb. specialize (H2 b Hb). lia.
  - unfold HEAD. lia.
  - done.
  - intros ->. destruct Hpos as [[-> _]%app_nil|(b&Hb&Hlt)]; [done|]. rewrite app_nil_r in Hb.
    specialize (H1 b Hb). pose proof (spaced_in 1 0 _ b ltac:(lia) Hs1 Hb). lia.
  - unfold walk_fuel in *. cbn [links s1 set_nr_free set_pages]. lia.
  - intros h' Hs Hd.
    assert (Hins : fl_inv 0 (set_links h' s1) (bs1 ++ (base, n) :: bs2)).
    { split; cbn [pages links nr_free set_links set_nr_free s1 set_pages].
      - done.
      - intros q Hq. destruct (decide (base <= q < base + n)) as [Hr|Hr].
        + destruct (Ha q Hr) as [_ (y&Hy&_)]. assert (is_Some (pages s !! q)) as Hq' by eauto.
          apply (fi_cells _ _ _ H) in Hq' as [? ?]. split; [lia|by apply Hs].
        + rewrite Hout in Hq by done. apply (fi_cells _ _ _ H) in Hq as [? ?]. split; [lia|by apply Hs].
      - intros b Hb. apply elem_of_app in Hb as [Hb|[->|Hb]%elem_of_cons]; cbn [fst snd].
        + rewrite Hout; [apply (fi_block _ _ _ H), elem_of_app; by left|].
          specialize (H1 b Hb). pose proof (spaced_in 1 0 _ b ltac:(lia) Hs1 Hb). lia.
        + destruct (Hin base) as (y&?&_&Hf&Hp); [lia|]. exists y. rewrite bool_decide_true in Hf by done. auto.
        + rewrite Hout; [apply (fi_block _ _ _ H), elem_of_app; by right|]. specialize (H2 b Hb). lia.
      - intros q (b&Hb&Hq). destruct (decide (base <= q < base + n)) as [Hr|Hr];
          [destruct (Hin q Hr) as (y&?&?&_); eauto|].
        rewrite Hout by done. apply (fi_pages _ _ _ H). exists b. split; [|done].
        apply elem_of_app in Hb as [Hb|[->|Hb]%elem_of_cons]; [apply elem_of_app; by left|done|apply elem_of_app; by right].
      - intros q y Hy Hf. rewrite fmap_mid. destruct (decide (base <= q < base + n)) as [Hr|Hr].
        + destruct (Hin q Hr) as (y'&Hy'&_&Hf'&_). rewrite Hy in Hy'. injection Hy' as <-.
          rewrite Hf in Hf'. symmetry in Hf'. apply bool_decide_eq_true in Hf' as ->. set_solver +.
        + rewrite Hout in Hy by done. apply (fi_flag _ _ _ H q y Hy) in Hf. rewrite fmap_app in Hf. set_solver +Hf.
      - apply spaced_app. split; [eapply spaced_mono; [done|lia|lia]|]. cbn. split_and!; [|lia|].
        + unfold end_of. destruct (last bs1) as [b|] eqn:Eb; [|lia].
          apply last_Some_elem_of in Eb. specialize (H1 b Eb). lia.
        + eapply spaced_relo; [eapply spaced_mono; [done|lia|reflexivity]|].
          destruct bs2 as [|c bs2]; [done|]. assert (base + n <= c.1) by (apply H2, elem_of_cons; by left). lia.
      - rewrite !total_app in *. cbn [total snd]. lia.
      - rewrite !total_app in *. cbn [total snd]. lia. }
    kstep. eapply wp_merge_prev; [exact Hins|]. intros s2 bs1' base' n' H3 Hl.
    eapply wp_merge_next; [exact H3|]. intros s3 bs2' n'' H4 Hr.
    assert (Hn'' : 0 < n'') by (eapply (spaced_in 0 0 _ (base', n'')); [lia|apply H4|apply in_mid]).
    apply (HQ s3 (bs1' ++ (base', n'') :: bs2')).
    + destruct H4. split; try done. by eapply merged_spaced.
    + by eapply merged_total.
    + by eapply merged_pages.
Qed.

Lemma wp_default_alloc s bs n (Q : option Z -> pstate -> Prop) :
  fl_inv 1 s bs -> 0 < n ->
  (Forall (fun b => b.2 < n) bs -> Q None s) ->
  (forall s' bs1 b bs2, bs = bs1 ++ b :: bs2 -> Forall (fun b => b.2 < n) bs1 -> n <= b.2 ->
     fl_inv 1 s' (bs1 ++ remainder b n ++ bs2) -> taken s s' b.1 n -> Q (Some b.1) s') ->
  wp (default_alloc_pages n) Q s.
Proof.
  intros H Hn HN HS. unfold default_alloc_pages. ksteps; [by apply Z.ltb_lt|].
  destruct (Z.gtb_spec n (nr_free s)) as [Hgt|Hle].
  { apply wp_ret, HN, Forall_forall. intros b Hb. pose proof (total_in _ _ _ _ (fi_spaced _ _ _ H) Hb).
    rewrite (fi_nr _ _ _ H) in Hgt. lia. }
  kstep. apply (wp_first_fit 1 ltac:(lia) bs []); [done|by eapply fl_fuel| |].
  - intros Hf. kstep. apply wp_ret. by apply wp_ret, HN.
  - intros bs1 b bs2 -> Hf Hb. kstep. eapply (wp_take_block 1); [lia|done|lia|].
    intros s' H' Ht. apply wp_ret. by eapply HS.
Qed.

Lemma remainder_pages bs1 b bs2 n q :
  spaced 1 0 (bs1 ++ b :: bs2) -> 0 < n <= b.2 ->
  free_page (bs1 ++ remainder b n ++ bs2) q <-> free_page (bs1 ++ b :: bs2) q /\ ~ run_of b.1 n q.
Proof.
  intros Hs Hn. pose proof (spaced_split 1 ltac:(lia) _ _ _ _ Hs) as (H1&H2&_&_).
  assert (Hd1 : free_page bs1 q -> ~ run_of b.1 n q).
  { intros (c&Hc&Hq). specialize (H1 c Hc). unfold run_of. lia. }
  assert (Hd2 : free_page bs2 q -> ~ run_of b.1 n q).
  { intros (c&Hc&Hq). specialize (H2 c Hc). unfold run_of. lia. }
  rewrite !free_page_app, free_page_cons. unfold run_of in *.
  assert (Hr : free_page (remainder b n) q <-> b.1 + n <= q < b.1 + b.2).
  { unfold remainder. destruct (Z.gtb_spec b.2 n).
    - rewrite free_page_cons. cbn. split; [intros [?|(?&?%not_elem_of_nil&_)]; [lia|done]|intros; left; lia].
    - split; [intros (?&?%not_elem_of_nil&_); done|lia]. }
  rewrite Hr. assert (b.1 + n <= q < b.1 + b.2 <-> b.1 <= q < b.1 + b.2 /\ ~ b.1 <= q < b.1 + n) by lia. tauto.
Qed.

(** ** First fit keeps the contract of a page allocator *)

Definition default_pmm_manager : pmm_manager pstate :=
  mk_pmm_manager default_init default_init_memmap default_alloc_pages default_free_pages default_nr_free_pages.

(** What may be freed: an allocated run, not above every free block. *)
Definition freeable (s : pstate) (bs : list block) (base n : Z) : Prop :=
  0 < n /\ 0 <= base /\ allocated s bs base n /\ total bs + n < 2 ^ 32 /\
  (bs = [] \/ exists b, b ∈ bs /\ base < b.1).

(** A heap has one block list only. *)
Lemma fl_inv_fun s bs bs' : fl_inv 1 s bs -> fl_inv 1 s bs' -> bs = bs'.
Proof.
  intros H H'. assert (Hf : bs.*1 = bs'.*1).
  { pose proof (fi_list _ _ _ H) as [Hn1 Hl1]. pose proof (fi_list _ _ _ H') as [Hn2 Hl2].
    apply NoDup_cons in Hn1 as [Hh1 _]. apply NoDup_cons in Hn2 as [Hh2 _].
    by eapply linked_fun. }
  assert (Hs : forall b b', b ∈ bs -> b' ∈ bs' -> b.1 = b'.1 -> b = b').
  { intros [b k] [b' k'] Hb Hb' E. cbn in E. subst b'.
    destruct (fi_block _ _ _ H _ Hb) as (x&Hx&_&Hp), (fi_block _ _ _ H' _ Hb') as (x'&Hx'&_&Hp').
    cbn [fst snd] in *. rewrite Hx in Hx'. injection Hx' as <-. congruence. }
  clear H H'. revert bs' Hf Hs. induction bs as [|b bs IH]; intros [|b' bs'] Hf Hs; try done.
  injection Hf as E Hf. f_equal.
  - apply Hs; [apply elem_of_cons; by left..|done].
  - apply IH; [done|]. intros c c' Hc Hc'. apply Hs; apply elem_of_cons; by right.
Qed.

#[export] Program Instance default_PhysAlloc : PhysAlloc default_pmm_manager := {|
  pa_inv s := exists bs, fl_inv 1 s bs;
  pa_free s q := exists bs, fl_inv 1 s bs /\ free_page bs q;
  pa_size n := n;
  pa_freeable s base n := exists bs, fl_inv 1 s bs /\ freeable s bs base n;
|}.
Next Obligation. done. Qed.
Next Obligation.
  intros s n [bs H] Hn. cbn. apply (wp_default_alloc s bs); [done|done| |].
  - intros _. split; [by exists bs|done].
  - intros s' bs1 b bs2 -> _ Hb H' _. split; [eauto|].
    pose proof (fun q => remainder_pages bs1 b bs2 n q (fi_spaced _ _ _ H) ltac:(lia)) as Hr. split.
    + intros q Hq. exists (bs1 ++ b :: bs2). split; [done|]. exists b. split; [apply in_mid|].
      unfold run_of in Hq. lia.
    + intros q. split.
      * intros (bs'&Hb'&Hq). rewrite (fl_inv_fun _ _ _ Hb' H') in Hq. apply Hr in Hq as [? ?]. eauto.
      * intros ((bs'&Hb'&Hq)&Hn'). rewrite (fl_inv_fun _ _ _ Hb' H) in Hq. eexists. split; [done|]. by apply Hr.
Qed.
Next Obligation.
  intros s base n _ (bs&H&Hn&Hb&Ha&Ht&Hp). cbn. eapply wp_default_free; [done..|].
  intros s' bs' H' _ Hr. split; [eauto|]. intros q. split.
  - intros (bs2&H2&Hq). rewrite (fl_inv_fun _ _ _ H2 H') in Hq. apply Hr in Hq as [?|?]; eauto.
  - intros Hq. exists bs'. split; [done|]. apply Hr. destruct Hq as [(bs2&H2&Hq)|?]; [|by right].
    left. by rewrite (fl_inv_fun _ _ _ H H2).
Qed.

(** ** Properties *)

(** [default_alloc_pages] returns the lowest free block that is
    large enough, cut to the request, with the rest of it left free in its place;
    when it returns nothing, no block was large enough and nothing changed.  The
    pages handed out are neither reserved nor marked free. *)
Theorem default_alloc_pages_spec s bs n :
  fl_inv 1 s bs -> 0 < n ->
  wp (default_alloc_pages n) (fun o s' =>
    match o with
    | None => s' = s /\ Forall (fun b => b.2 < n) bs
    | Some p => exists bs1 b bs2, bs = bs1 ++ b :: bs2 /\ p = b.1 /\ n <= b.2 /\
        Forall (fun b => b.2 < n) bs1 /\ fl_inv 1 s' (bs1 ++ remainder b n ++ bs2) /\ taken s s' p n
    end) s.
Proof.
  intros H Hn. apply (wp_default_alloc s bs); [done|done|done|].
  intros s' bs1 b bs2 -> ????. exists bs1, b, bs2. done.
Qed.

(** [default_free_pages] gives back an allocated run that lies
    below some free block, or any run when nothing is free: the free pages are
    then the old ones and the run, and the blocks are again sorted, disjoint and
    fully merged, no two of them touching. *)
Theorem default_free_pages_spec s bs base n :
  fl_inv 1 s bs -> freeable s bs base n ->
  wp (default_free_pages base n) (fun _ s' => exists bs', fl_inv 1 s' bs' /\
    total bs' = total bs + n /\
    (forall q, free_page bs' q <-> free_page bs q \/ base <= q < base + n)) s.
Proof.
  intros H (Hn&Hb&Ha&Ht&Hp). apply (wp_default_free s bs); [done..|]. intros s' bs' ???. by exists bs'.
Qed.

(** ** Witnesses: ten pages, of which 2 to 5 are allocated. *)

Definition ex_page (flag : bool) (n : Z) : page := mk_page 0 false flag n.
Definition ex_pages : gmap Z page := list_to_map
  ((fun q => (q, if q =? 0 then ex_page true 2 else if q =? 6 then ex_page true 4 else ex_page false 0))
     <$> seqZ 0 10).
Definition ex_links (l : list (Z * list_entry)) : store :=
  list_to_map (l ++ ((fun q => (q, mk_entry q q)) <$> seqZ 0 10)).
Definition ex_pstate : pstate := mk_pstate ex_pages
  (ex_links [(HEAD, mk_entry 6 0); (0, mk_entry HEAD 6); (6, mk_entry 0 HEAD)]) 6.
Definition ex_blocks : list block := [(0, 2); (6, 4)].

(** What remains of the invariant once the links are known, as a test. *)
Definition fl_test (g : Z) (s : pstate) (bs : list block) : bool :=
  bool_decide (map_Forall (fun p _ => 0 <= p /\ is_Some (links s !! p)) (pages s)) &&
  bool_decide (Forall (fun b => (fun x => (prop_flag x, property x)) <$> pages s !! b.1 = Some (true, b.2)) bs) &&
  bool_decide (Forall (fun b => Forall (fun q => reserved <$> pages s !! q = Some false) (seqZ b.1 b.2)) bs) &&
  bool_decide (map_Forall (fun q x => prop_flag x = true -> q ∈ bs.*1) (pages s)) &&
  bool_decide (nr_free s = total bs) && (total bs <? 2 ^ 32).

Lemma fl_test_inv g s bs :
  dlist (links s) HEAD bs.*1 -> spaced g 0 bs -> fl_test g s bs = true -> fl_inv g s bs.
Proof.
  intros Hd Hs Ht. unfold fl_test in Ht. rewrite !andb_true_iff, !bool_decide_eq_true, Z.ltb_lt in Ht.
  destruct Ht as [[[[[H1 H2] H3] H4] H5] H6]. rewrite Forall_forall in H2, H3. split; try done.
  - intros p [x Hx]. by apply (H1 p x).
  - intros b Hb. specialize (H2 b Hb). destruct (pages s !! b.1) as [x|]; [|done].
    injection H2 as ??. by exists x.
  - intros q (b&Hb&Hq). specialize (H3 b Hb). rewrite Forall_forall in H3.
    specialize (H3 q ltac:(apply elem_of_seqZ; lia)). destruct (pages s !! q) as [x|]; [|done].
    injection H3 as ?. by exists x.
Qed.

Lemma ex_fl_inv : fl_inv 1 ex_pstate ex_blocks.
Proof.
  apply fl_test_inv; [|cbn; lia|vm_compute; reflexivity].
  split; [apply (bool_decide_unpack _); vm_compute; exact I|]. cbn. done.
Qed.

Lemma ex_freeable : freeable ex_pstate ex_blocks 2 4.
Proof.
  split_and!; [lia|lia| |done|].
  - intros q Hq. assert (q = 2 \/ q = 3 \/ q = 4 \/ q = 5) as E by lia. split.
    + intros (b&Hb&Hbq). unfold ex_blocks in Hb. rewrite !elem_of_cons in Hb. destruct Hb as [->|[->|Hb%not_elem_of_nil]]; cbn in Hbq; [lia|lia|done].
    + exists (ex_page false 0). destruct E as [->|[->|[->| ->]]]; done.
  - right. exists (6, 4). split; [apply elem_of_cons; right; apply elem_of_cons; by left|cbn; lia].
Qed.

Lemma default_alloc_pages_spec_witness :
  wp (default_alloc_pages 3) (fun o s' =>
    match o with
    | None => s' = ex_pstate /\ Forall (fun b => b.2 < 3) ex_blocks
    | Some p => exists bs1 b bs2, ex_blocks = bs1 ++ b :: bs2 /\ p = b.1 /\ 3 <= b.2 /\
        Forall (fun b => b.2 < 3) bs1 /\ fl_inv 1 s' (bs1 ++ remainder b 3 ++ bs2) /\ taken ex_pstate s' p 3
    end) ex_pstate.
Proof. refine (default_alloc_pages_spec ex_pstate ex_blocks 3 ex_fl_inv _). lia. Defined.

Lemma default_free_pages_spec_witness :
  wp (default_free_pages 2 4) (fun _ s' => exists bs', fl_inv 1 s' bs' /\ total bs' = 6 + 4 /\
    (forall q, free_page bs' q <-> free_page ex_blocks q \/ 2 <= q < 2 + 4)) ex_pstate.
Proof. exact (default_free_pages_spec ex_pstate ex_blocks 2 4 ex_fl_inv ex_freeable). Defined.

Lemma alloc_pages_disjoint_witness :
  wp (o1 ← alloc_pages default_pmm_manager 1; o2 ← alloc_pages default_pmm_manager 3; mret (o1, o2))
    (fun r s' => (exists bs, fl_inv 1 s' bs) /\
    match r with
    | (Some p1, Some p2) => forall q,
        ~ (run_of p1 1 q /\ run_of p2 3 q) /\
        (run_of p1 1 q \/ run_of p2 3 q ->
           (exists bs, fl_inv 1 ex_pstate bs /\ free_page bs q) /\ ~ (exists bs, fl_inv 1 s' bs /\ free_page bs q))
    | _ => True
    end) ex_pstate.
Proof.
  refine (alloc_pages_disjoint default_pmm_manager ex_pstate 1 3 _ _ _).
  - exists ex_blocks. exact ex_fl_inv.
  - lia.
  - lia.
Defined.
