(* ===== verification/FirstFitAbove.v ===== *)
(** kern/mm/default_pmm.c, what [FirstFit] leaves out: a block that is freed above
    all free blocks.  [insert_walk] puts it behind the last block and then meets it
    as the new last one, and adds it again, behind itself. *)
From S2P Require Import Prelude Dlist PmmManager FirstFit.
#[local] Abbreviation length := Datatypes.length.

(** Following [next] from the head one meets the blocks [bs] and then [base], of
    [n] pages, which points back to itself. *)
Record overlapping (s : pstate) (bs : list block) (base n : Z) : Prop := {
  ov_next l1 p l2 : bs.*1 ++ [base] = l1 ++ p :: l2 -> nxt (links s) (List.last l1 HEAD) = Some p;
  ov_prev : prv (links s) base = Some base;
  ov_end : exists q, nxt (links s) base = Some q /\ q <> base /\ is_Some (links s !! q);
  ov_block b : b ∈ bs -> 0 <= b.1 < base /\ exists x, pages s !! b.1 = Some x /\ property x = b.2;
  ov_base : exists x, pages s !! base = Some x /\ property x = n;
  ov_pages q : base <= q < base + n -> 0 <= q /\ is_Some (pages s !! q) /\ is_Some (links s !! q);
  ov_fuel : (length bs < walk_fuel s - 1)%nat;
}.

(** ** Adding a block to itself *)
Lemma wp_link_add p e q s (Q : () -> pstate -> Prop) :
  nxt (links s) p = Some q -> is_Some (links s !! e) -> is_Some (links s !! q) ->
  (forall h', same_cells (links s) h' ->
     (forall x, nxt h' x = if decide (x = e) then Some q else if decide (x = p) then Some e else nxt (links s) x) ->
     (forall x, prv h' x = if decide (x = e) then Some p else if decide (x = q) then Some e else prv (links s) x) -> Q () (set_links h' s)) ->
  wp (on_links (list_add p e)) Q s.
Proof.
  intros Hp He Hq HQ. unfold on_links, list_add, list_add_after. kstep. unfold nxt in Hp. destruct (links s !! p) as [x|] eqn:Ex; [|done].
  injection Hp as <-. kstep. apply wp_load; [by eexists|]. intros ent E. rewrite Ex in E. injection E as <-.
  apply wp___list_add_any; [done|by eexists|done|]. intros h' D N P. by apply HQ.
Qed.

Lemma wp_link_del e p q s (Q : () -> pstate -> Prop) :
  prv (links s) e = Some p -> nxt (links s) e = Some q -> is_Some (links s !! p) -> is_Some (links s !! q) ->
  (forall h', same_cells (links s) h' -> (forall x, nxt h' x = if decide (x = p) then Some q else nxt (links s) x) ->
     (forall x, prv h' x = if decide (x = q) then Some p else prv (links s) x) -> Q () (set_links h' s)) ->
  wp (on_links (list_del e)) Q s.
Proof.
  intros He Hn Hp Hq HQ. unfold on_links, list_del. kstep. unfold nxt in Hn. unfold prv in He. destruct (links s !! e) as [x|] eqn:Ex; [|done].
  injection Hn as <-. injection He as <-. kstep. apply wp_load; [by eexists|]. intros ent E. rewrite Ex in E. injection E as <-.
  apply wp___list_del; [done|done|]. intros h' D N P. by apply HQ.
Qed.

Lemma chain_below (bs : list block) base l1 p l2 :
  (forall b, b ∈ bs -> b.1 < base) -> HEAD < base -> bs.*1 ++ [base] = l1 ++ p :: l2 -> List.last l1 HEAD < base.
Proof.
  intros Hb Hh E. assert (Hl : forall x, x ∈ l1 -> x < base).
  { intros x Hx. assert (Hin : x ∈ bs.*1).
    { destruct l2 as [|z l2 _] using rev_ind.
      - by apply app_inj_tail in E as [-> _].
      - rewrite app_comm_cons, app_assoc in E. apply app_inj_tail in E as [-> _]. set_solver +Hx. }
    apply list_elem_of_fmap in Hin as (b&->&Hin). by apply Hb. }
  destruct l1 as [|y l1]; [done|]. rewrite lastd_cons. apply Hl, last_in_cons.
Qed.

Lemma wp_walk_above (bs2 bs1 : list block) fuel base s (Q : () -> pstate -> Prop) :
  bs2 <> [] -> dlist (links s) HEAD (bs1 ++ bs2).*1 -> (forall b, b ∈ bs1 ++ bs2 -> HEAD < b.1 < base) ->
  is_Some (links s !! base) -> (S (length bs2) < fuel)%nat ->
  (forall h', same_cells (links s) h' -> prv h' base = Some base -> nxt h' base = Some HEAD ->
     (forall l1 p l2, (bs1 ++ bs2).*1 ++ [base] = l1 ++ p :: l2 -> nxt h' (List.last l1 HEAD) = Some p) -> Q () (set_links h' s)) ->
  wp (insert_walk fuel (List.last (bs1.*1) HEAD) base) Q s.
Proof.
  revert bs1 fuel. induction bs2 as [|b bs2 IH]; intros bs1 fuel Hne Hl Hlt Hb Hf HQ; [done|]. clear Hne.
  destruct fuel as [|fuel]; [lia|]. cbn [insert_walk length] in *. assert (Hbb : HEAD < b.1 < base) by (apply Hlt, in_mid).
  pose proof Hl as Hn. rewrite fmap_app in Hn. apply dlist_nxt in Hn. kstep. eapply wp_next; [exact Hn|]. cbn [hd fmap list_fmap].
  rewrite (bool_decide_false (b.1 = HEAD)) by lia. destruct (Z.ltb_spec base b.1); [lia|].
  assert (E : bs1 ++ b :: bs2 = (bs1 ++ [b]) ++ bs2) by (by rewrite <-app_assoc). rewrite E in *.
  pose proof Hl as Hn2. rewrite fmap_app in Hn2. apply dlist_nxt in Hn2. rewrite (fmap_app fst bs1 [b]) in Hn2. cbn [fmap list_fmap] in Hn2. rewrite lastd_snoc in Hn2.
  kstep. eapply wp_next; [exact Hn2|]. specialize (IH (bs1 ++ [b]) fuel). rewrite (fmap_app fst bs1 [b]) in IH. cbn [fmap list_fmap] in IH. rewrite lastd_snoc in IH.
  destruct bs2 as [|c bs2].
  2: { kstep. cbn [fmap list_fmap hd]. assert (HEAD < c.1 < base) by (apply Hlt, in_mid). rewrite bool_decide_false by lia. cbn [when]. apply wp_ret.
       apply IH; [done|exact Hl|exact Hlt|done|cbn in *; lia|exact HQ]. }
  clear IH E. rewrite app_nil_r in *. cbn [hd fmap list_fmap]. rewrite bool_decide_true by done. cbn [when]. kstep.
  destruct fuel as [|fuel]; [lia|]. destruct fuel as [|fuel]; [cbn in Hf; lia|].
  pose proof (wp_links_add (bs1 ++ [b]) (base, 0) []) as Hadd. rewrite (fmap_app fst bs1 [b]) in Hadd. cbn [fmap list_fmap] in Hadd. rewrite lastd_snoc in Hadd.
  apply Hadd; [by rewrite app_nil_r|done|cbn; lia| |].
  { rewrite app_nil_r. intros (d&Ed&Hd)%list_elem_of_fmap. cbn in Ed. apply Hlt in Hd. lia. }
  clear Hadd. intros h1 Hs1 Hd1. rewrite fmap_app in Hd1. cbn [fmap list_fmap fst] in Hd1.
  assert (Hc1 : forall l1 p l2, (bs1 ++ [b]).*1 ++ [base] = l1 ++ p :: l2 -> nxt h1 (List.last l1 HEAD) = Some p).
  { intros l1 p l2 E. rewrite E in Hd1. by apply dlist_nxt in Hd1. }
  cbn [insert_walk]. kstep. eapply wp_next; [cbn; specialize (Hc1 (bs1 ++ [b]).*1 base []); rewrite (fmap_app fst bs1 [b]) in Hc1; cbn [fmap list_fmap] in Hc1;
    rewrite lastd_snoc in Hc1; by apply Hc1|].
  rewrite (bool_decide_false (base = HEAD)) by lia. destruct (Z.ltb_spec base base); [lia|].
  assert (Hend : nxt h1 base = Some HEAD).
  { pose proof (dlist_nxt h1 HEAD ((bs1 ++ [b]).*1 ++ [base]) []) as He. rewrite app_nil_r, lastd_snoc in He. by apply He. }
  kstep. eapply wp_next; [exact Hend|]. rewrite bool_decide_true by done. cbn [when]. kstep.
  eapply wp_link_add; [exact Hend|by apply Hs1| |].
  { apply Hs1. eapply (ring_alloc _ _ HEAD); [exact Hl|]. by left. }
  intros h2 Hs2 N2 P2. kstep. eapply wp_next; [cbn; by rewrite N2, decide_True|]. rewrite bool_decide_true by done. apply wp_ret.
  apply (HQ h2); [intros q; cbn in Hs2; by rewrite (Hs2 q), (Hs1 q)|by rewrite P2, decide_True|by rewrite N2, decide_True|].
  intros l1 p l2 E. assert (Hlow : List.last l1 HEAD < base) by (apply (chain_below (bs1 ++ [b]) base l1 p l2); [|lia|exact E]; intros d Hd; by apply Hlt in Hd as [_ ?]).
  rewrite N2, !decide_False by lia. cbn. by eapply Hc1.
Qed.

(** ** Releasing and allocating *)
Lemma wp_free_above s bs base n (Q : () -> pstate -> Prop) :
  fl_inv 1 s bs -> bs <> [] -> 0 < n -> allocated s bs base n -> (forall b, b ∈ bs -> b.1 < base) -> total bs + n < 2 ^ 32 ->
  (forall s', overlapping s' bs base n -> nr_free s' = total bs + n -> Q () s') -> wp (default_free_pages base n) Q s.
Proof.
  intros H Hne Hn Ha Hlt Hbd HQ. pose proof (fi_spaced _ _ _ H) as Hsp. pose proof (total_nonneg _ _ _ Hsp).
  assert (Hb0 : forall b, b ∈ bs -> HEAD < b.1 < base).
  { intros b Hb. pose proof (spaced_in 1 0 _ b ltac:(lia) Hsp Hb). specialize (Hlt b Hb). unfold HEAD. lia. }
  assert (Hcell : forall q, base <= q < base + n -> 0 <= q /\ is_Some (links s !! q)).
  { intros q Hq. destruct (Ha q Hq) as [_ (x&Hx&_)]. apply (fi_cells _ _ _ H). by exists x. }
  assert (Hbs : forall b, b ∈ bs -> ~ (base <= b.1 < base + n)) by (intros b Hb; specialize (Hlt b Hb); lia).
  unfold default_free_pages. kstep. kstep; [by apply Z.ltb_lt|]. kstep.
  apply wp_free_pages_loop; rewrite Z2Nat.id by lia; [intros q Hq; by apply Ha|]. intros m Hm1 Hm2. destruct (Hm2 base) as (x&Hx&_); [lia|].
  kstep. eapply wp_page_upd; [exact Hx|]. kstep. eapply wp_page_upd; [apply lookup_insert_eq|]. cbn [pages set_pages]. rewrite insert_insert_eq.
  kstep. kstep. cbn [nr_free set_pages]. rewrite (fi_nr _ _ _ H), !uwrap_small by lia. set (m' := <[base := _]> m). set (s1 := set_nr_free _ _).
  assert (Hm' : m' !! base = Some (SetPageProperty (set_property n x))) by apply lookup_insert_eq.
  destruct bs as [|b0 bs]; [done|]. pose proof (fi_list _ _ _ H) as Hl. pose proof Hl as Hn0. apply (dlist_nxt _ HEAD []) in Hn0.
  assert (Hsize : (S (length (b0 :: bs)) <= size (links s))%nat).
  { rewrite <-(length_fmap fst (b0 :: bs)). apply (alloc_size (links s) (base :: (b0 :: bs).*1)).
    - apply NoDup_cons. split; [intros (b&E&Hb)%list_elem_of_fmap; apply Hb0 in Hb; lia|]. destruct Hl as [Hnd _]. by apply NoDup_cons in Hnd as [_ Hnd].
    - intros q [->|Hq]%elem_of_cons; [apply Hcell; lia|]. eapply (ring_alloc _ _ q); [exact Hl|by right]. }
  kstep. unfold insert_block. kstep. eapply wp_empty; [exact Hn0|]. rewrite bool_decide_false by (specialize (Hb0 b0 ltac:(by left)); cbn; lia). kstep. kstep.
  apply (wp_walk_above (b0 :: bs) []); [done|exact Hl|exact Hb0|apply Hcell; lia|change (walk_fuel _) with (S (S (size (links s)))); lia|].
  intros h Hs Hp Hq Hc. set (s2 := set_links h s1).
  assert (Hov : overlapping s2 (b0 :: bs) base n).
  { split; cbn [links pages s2 s1 set_links set_nr_free set_pages]; [exact Hc|exact Hp| | | | |].
    - exists HEAD. split_and!; [done|unfold HEAD; specialize (Hcell base); lia|]. apply Hs. eapply ring_alloc; [exact Hl|by left].
    - intros b Hb. pose proof (spaced_in 1 0 _ b ltac:(lia) Hsp Hb). specialize (Hlt b Hb). split; [lia|].
      destruct (fi_block _ _ _ H b Hb) as (y&Hy&_&?). exists y. split; [|done]. unfold m'. rewrite lookup_insert_ne by lia. by rewrite Hm1 by (by apply Hbs).
    - by eexists.
    - intros q Hq0. destruct (Hcell q Hq0) as [? Hc0]. split_and!; [done| |by apply Hs]. unfold m'. destruct (decide (q = base)) as [->|]; [rewrite lookup_insert_eq; by eexists|].
      rewrite lookup_insert_ne by done. destruct (Hm2 q Hq0) as (y&?&_). by exists y.
    - assert (E : size h = size (links s)); [|change (walk_fuel _) with (S (S (size h))); rewrite E; lia].
      rewrite <-!(size_dom (D := gset Z)). f_equal. apply set_eq. intros q. rewrite !elem_of_dom. apply Hs. }
  kstep. unfold merge_prev. kstep. eapply wp_prev; [exact Hp|]. rewrite bool_decide_true by (unfold HEAD; specialize (Hcell base); lia).
  kstep. eapply wp_page_at; [exact Hm'|]. rewrite bool_decide_false by (cbn; lia). apply wp_ret.
  unfold merge_next. kstep. eapply wp_next; [exact Hq|]. rewrite bool_decide_false by (intros E; by apply E). cbn [when]. apply wp_ret. by apply HQ.
Qed.

Lemma wp_first_fit_above bs2 bs1 fuel s base n m (Q : option Z -> pstate -> Prop) :
  overlapping s (bs1 ++ bs2) base n -> 0 <= base -> (length bs2 < fuel)%nat -> Forall (fun b => b.2 < m) bs2 -> m <= n ->
  Q (Some base) s -> wp (first_fit fuel (List.last (bs1.*1) HEAD) m) Q s.
Proof.
  revert bs1 fuel. induction bs2 as [|b bs2 IH]; intros bs1 [|fuel] H Hb Hf Hs Hm HQ; cbn in Hf; try lia; cbn [first_fit].
  - kstep. eapply wp_next; [eapply (ov_next _ _ _ _ H bs1.*1 base []); by rewrite app_nil_r|]. rewrite bool_decide_false by (unfold HEAD; lia).
    destruct (ov_base _ _ _ _ H) as (x&Hx&Hp). kstep. eapply wp_page_at; [exact Hx|]. rewrite Hp. destruct (Z.geb_spec n m); [|lia]. by apply wp_ret.
  - apply Forall_cons in Hs as [Hb2 Hs]. destruct (ov_block _ _ _ _ H b (in_mid _ _ _)) as (Hlt&x&Hx&Hp).
    kstep. eapply wp_next; [eapply (ov_next _ _ _ _ H bs1.*1 b.1 (bs2.*1 ++ [base])); by rewrite fmap_mid, <-app_assoc|]. rewrite bool_decide_false by (unfold HEAD; lia).
    kstep. eapply wp_page_at; [exact Hx|]. rewrite Hp. destruct (Z.geb_spec b.2 m); [lia|].
    specialize (IH (bs1 ++ [b]) fuel). rewrite (fmap_app fst bs1 [b]), <-app_assoc in IH. cbn [fmap list_fmap app] in IH. rewrite lastd_snoc in IH. apply IH; (done || lia).
Qed.

(** The block is found again after it has been handed out. *)
Lemma wp_alloc_above s bs base n m (Q : option Z -> pstate -> Prop) :
  overlapping s bs base n -> 0 < m <= n -> Forall (fun b => b.2 < m) bs -> m <= nr_free s < 2 ^ 32 -> n < 2 ^ 32 ->
  (forall s', overlapping s' bs base n -> nr_free s' = nr_free s - m -> Q (Some base) s') -> wp (default_alloc_pages m) Q s.
Proof.
  intros H Hm Hs Hnr Hn HQ. pose proof (ov_fuel _ _ _ _ H) as Hfuel. destruct (ov_pages _ _ _ _ H base ltac:(lia)) as (Hb0&_&Hbl).
  unfold default_alloc_pages. kstep. kstep; [apply Z.ltb_lt; lia|]. kstep. kstep. destruct (Z.gtb_spec m (nr_free s)); [lia|].
  kstep. eapply (wp_first_fit_above bs []); [exact H|done|lia|done|lia|]. kstep.
  destruct (ov_base _ _ _ _ H) as (x&Hx&Hp), (ov_end _ _ _ _ H) as (q&Hq&Hqb&Hql).
  unfold take_block. kstep. eapply wp_prev; [apply (ov_prev _ _ _ _ H)|]. kstep. eapply wp_link_del; [apply (ov_prev _ _ _ _ H)|exact Hq|done|done|].
  intros h D N P. kstep. eapply wp_page_at; [exact Hx|]. rewrite Hp.
  assert (Hbelow : forall l1 p l2, bs.*1 ++ [base] = l1 ++ p :: l2 -> List.last l1 HEAD < base).
  { intros l1 p l2 E. eapply (chain_below bs); [|unfold HEAD; lia|exact E]. intros b Hb. by apply (ov_block _ _ _ _ H). }
  (** The links and pages that are left are those of an overlapping state. *)
  assert (Hend : forall h' mp, same_cells (links s) h' -> prv h' base = Some base ->
    (exists q, nxt h' base = Some q /\ q <> base /\ is_Some (h' !! q)) -> (forall y, y < base -> nxt h' y = nxt (links s) y) ->
    (forall y, is_Some (mp !! y) <-> is_Some (pages s !! y)) -> (forall y, y < base -> mp !! y = pages s !! y) -> mp !! base = Some x ->
    wp (modify (fun s => set_nr_free (u32 (nr_free s - m)) s);; page_upd base ClearPageProperty) (fun _ => wp (mret (Some base)) Q) (set_links h' (set_pages mp s))).
  { intros h' mp D' P' Hq' N' Hdom Hlow Hbase. kstep. kstep. eapply wp_page_upd; [exact Hbase|]. kstep. apply HQ; [|cbn; by rewrite uwrap_small by lia].
    split; cbn [links pages set_links set_pages set_nr_free]; [|exact P'|exact Hq'| | | |].
    - intros l1 p l2 E. rewrite N' by (by eapply Hbelow). by eapply (ov_next _ _ _ _ H).
    - intros b Hb. destruct (ov_block _ _ _ _ H b Hb) as (Hlt&y&Hy&?). split; [done|]. exists y. rewrite lookup_insert_ne by lia. by rewrite Hlow by lia.
    - eexists. rewrite lookup_insert_eq. split; [done|]. exact Hp.
    - intros y Hy. destruct (ov_pages _ _ _ _ H y Hy) as (?&Hpy&Hly). split_and!; [done| |by apply D'].
      destruct (decide (y = base)) as [->|]; [rewrite lookup_insert_eq; by eexists|]. rewrite lookup_insert_ne by done. by apply Hdom.
    - assert (E : size h' = size (links s)); [|change (walk_fuel _) with (S (S (size h'))); rewrite E; exact Hfuel].
      rewrite <-!(size_dom (D := gset Z)). f_equal. apply set_eq. intros y. rewrite !elem_of_dom. apply D'. }
  kstep. destruct (Z.gtb_spec n m) as [Hgt|Hle]; cbn [when].
  - cbv zeta. destruct (ov_pages _ _ _ _ H (base + m) ltac:(lia)) as (_&[z Hz]&Hzl).
    kstep. eapply wp_page_upd; [exact Hz|]. kstep. eapply wp_page_upd; [apply lookup_insert_eq|]. cbn [pages set_pages set_links]. rewrite insert_insert_eq.
    eapply (wp_link_add base (base + m) q); [cbn; by rewrite N, decide_True|by apply D|by apply D|]. cbn [links set_links set_pages]. intros h2 D2 N2 P2.
    apply (Hend h2 (<[base + m := SetPageProperty (set_property (u32 (n - m)) z)]> (pages s))).
    + intros y. by rewrite (D2 y), (D y).
    + rewrite P2, decide_False by lia. rewrite decide_False by congruence. rewrite P, decide_False by congruence. apply (ov_prev _ _ _ _ H).
    + exists (base + m). rewrite N2, decide_False, decide_True by lia. split_and!; [done|lia|by apply D2, D].
    + intros y Hy. rewrite N2, !decide_False by lia. by rewrite N, decide_False by lia.
    + intros y. rewrite lookup_insert_is_Some'. split; [intros [<-|]; [by eexists|done]|by right].
    + intros y Hy. by rewrite lookup_insert_ne by lia.
    + by rewrite lookup_insert_ne by lia.
  - apply wp_ret. assert (n = m) as -> by lia. specialize (Hend h (pages s)). assert (Es : set_links h (set_pages (pages s) s) = set_links h s) by (by destruct s).
    rewrite Es in Hend. apply Hend; [done| | |intros y Hy; by rewrite N, decide_False by lia|done|done|exact Hx].
    + rewrite P, decide_False by congruence. apply (ov_prev _ _ _ _ H).
    + exists q. rewrite N, decide_True by done. split_and!; [done|done|by apply D].
Qed.

(** Property C40. The hypothesis of [default_free_pages_spec] that some free block
    lies above is needed.  Whenever a run is freed above all free blocks, the new
    block is linked to itself and cannot be taken out of the list: two requests
    that it serves, one after the other, both get its first pages. *)
Theorem default_free_above_all_refuted s bs base n m :
  fl_inv 1 s bs -> bs <> [] -> allocated s bs base n -> (forall b, b ∈ bs -> b.1 < base) -> total bs + n < 2 ^ 32 ->
  0 < m <= n -> Forall (fun b => b.2 < m) bs -> 2 * m <= total bs + n ->
  wp (default_free_pages base n;; o1 ← default_alloc_pages m; o2 ← default_alloc_pages m; mret (o1, o2))
    (fun r _ => r = (Some base, Some base)) s.
Proof.
  intros H Hne Ha Hlt Hbd Hm Hsm H2. pose proof (total_nonneg _ _ _ (fi_spaced _ _ _ H)).
  kstep. eapply wp_free_above; [exact H|done|lia|done|done|done|]. intros s1 H1 E1.
  kstep. eapply wp_alloc_above; [exact H1|done|done|lia|lia|]. intros s2 Hs2 E2.
  kstep. eapply wp_alloc_above; [exact Hs2|done|done|lia|lia|]. intros s3 _ _. by apply wp_ret.
Qed.

(** Page 0 is free, pages 4 to 8 are allocated and are given back; then three
    pages are requested twice. *)
Definition ex_low : pstate := mk_pstate
  (<[6 := ex_page false 0]> (<[0 := ex_page true 1]> ex_pages))
  (ex_links [(HEAD, mk_entry 0 0); (0, mk_entry HEAD HEAD)]) 1.

Lemma ex_low_inv : fl_inv 1 ex_low [(0, 1)].
Proof.
  apply fl_test_inv; [|cbn; lia|vm_compute; reflexivity].
  split; [apply (bool_decide_unpack _); vm_compute; exact I|]. cbn. done.
Qed.

Lemma ex_low_allocated : allocated ex_low [(0, 1)] 4 5.
Proof.
  intros q Hq. split.
  - intros (b&Hb&Hbq). apply list_elem_of_singleton in Hb as ->. cbn in Hbq. lia.
  - assert (q = 4 \/ q = 5 \/ q = 6 \/ q = 7 \/ q = 8) as E by lia. exists (ex_page false 0). destruct E as [->|[->|[->|[->| ->]]]]; done.
Qed.

Lemma default_free_above_all_refuted_witness :
  wp (default_free_pages 4 5;; o1 ← default_alloc_pages 3; o2 ← default_alloc_pages 3; mret (o1, o2)) (fun r _ => r = (Some 4, Some 4)) ex_low.
Proof.
  apply (default_free_above_all_refuted ex_low [(0, 1)] 4 5 3); [exact ex_low_inv|done|exact ex_low_allocated| |done|done| |done].
  - intros b ->%list_elem_of_singleton. done.
  - repeat constructor.
Defined.
