(* ===== verification/BestFit.v ===== *)
(** kern/mm/best_fit_pmm.c: the best-fit allocator.  Only the search differs
    from first fit; the routines that are the same text in C ([insert_block],
    [take_block], the merges) are those of [FirstFit].  The theorem is that the
    block chosen is the lowest among the smallest that are large enough. *)
From S2P Require Import Prelude Dlist PmmManager FirstFit.

(** ** Operations *)

Definition best_fit_init : K pstate () := on_links (list_init HEAD);; modify (set_nr_free 0).

Definition best_fit_init_memmap (base n : Z) : K pstate () :=
  assert (0 <? n);;
  init_pages (Z.to_nat n) base;;
  page_upd base (set_property (u32 n));;
  page_upd base SetPageProperty;;
  modify (fun s => set_nr_free (u32 (nr_free s + n)) s);;
  insert_block base.

Fixpoint best_fit (fuel : nat) (le n min_size : Z) (page : option Z) : K pstate (option Z) :=
  match fuel with
  | O => timeout
  | S fuel =>
      le ← on_links (list_next le);
      if bool_decide (le = HEAD) then mret page
      else
        x ← page_at le;
        if (property x >=? n) && (property x <? min_size) then best_fit fuel le n (property x) (Some le)
        else best_fit fuel le n min_size page
  end.

Definition best_fit_alloc_pages (n : Z) : K pstate (option Z) :=
  assert (0 <? n);;
  s ← get;
  if n >? nr_free s then mret None
  else
    o ← best_fit (walk_fuel s) HEAD n (u32 (nr_free s + 1)) None;
    match o with None => mret () | Some page => take_block page n end;;
    mret o.

Definition best_fit_free_pages (base n : Z) : K pstate () :=
  assert (0 <? n);;
  free_pages_loop (Z.to_nat n) base;;
  page_upd base (set_property (u32 n));;
  page_upd base SetPageProperty;;
  modify (fun s => set_nr_free (u32 (nr_free s + n)) s);;
  insert_block base;;
  base ← merge_prev base;
  merge_next base.

Definition best_fit_nr_free_pages : K pstate Z := gets nr_free.

Definition best_fit_pmm_manager : pmm_manager pstate :=
  mk_pmm_manager best_fit_init best_fit_init_memmap best_fit_alloc_pages best_fit_free_pages
    best_fit_nr_free_pages.

(** ** The search *)

(** The block the search ends with. *)
Fixpoint best (n min : Z) (page : option block) (bs : list block) : option block :=
  match bs with
  | [] => page
  | b :: bs => if (b.2 >=? n) && (b.2 <? min) then best n b.2 (Some b) bs else best n min page bs
  end.

Lemma wp_best_fit bs2 bs1 fuel s n min page (Q : option Z -> pstate -> Prop) :
  fl_inv 1 s (bs1 ++ bs2) -> (length bs2 < fuel)%nat ->
  Q (fst <$> best n min page bs2) s ->
  wp (best_fit fuel (List.last (bs1.*1) HEAD) n min (fst <$> page)) Q s.
Proof.
  revert bs1 fuel min page. induction bs2 as [|b bs2 IH]; intros bs1 [|fuel] min page H Hf HQ; cbn in Hf; try lia;
    cbn [best_fit]; pose proof (fi_list _ _ _ H) as Hl; rewrite fmap_app in Hl; apply dlist_nxt in Hl;
    kstep; (eapply wp_next; [exact Hl|]).
  - cbn. by apply wp_ret.
  - change (hd HEAD (b :: bs2).*1) with b.1. cbn [best] in HQ.
    assert (Hb : b ∈ bs1 ++ b :: bs2) by apply in_mid.
    pose proof (fl_nonneg 1 ltac:(lia) _ _ _ H Hb). rewrite bool_decide_false by (unfold HEAD; lia).
    destruct (fi_block _ _ _ H b Hb) as (x&Hx&_&Hp). kstep. eapply wp_page_at; [done|]. rewrite Hp.
    specialize (IH (bs1 ++ [b]) fuel). rewrite <-app_assoc, (fmap_app fst bs1 [b]) in IH.
    cbn [app fmap list_fmap] in IH. rewrite lastd_snoc in IH.
    destruct ((b.2 >=? n) && (b.2 <? min)).
    + apply (IH b.2 (Some b)); [done|lia|done].
    + apply IH; [done|lia|done].
Qed.

(** [b] is the lowest of the smallest blocks of [bs] with at least [n] pages. *)
Definition best_block (n : Z) (bs1 : list block) (b : block) (bs2 : list block) : Prop :=
  n <= b.2 /\ Forall (fun c => n <= c.2 -> b.2 < c.2) bs1 /\ Forall (fun c => n <= c.2 -> b.2 <= c.2) bs2.

Lemma best_spec n bs2 : forall bs1 min page,
  match page with
  | None => Forall (fun c => c.2 < n) bs1 /\ Forall (fun c => c.2 < min) bs2
  | Some b => min = b.2 /\ exists l1 l2, bs1 = l1 ++ b :: l2 /\ best_block n l1 b l2
  end ->
  match best n min page bs2 with
  | None => Forall (fun c => c.2 < n) (bs1 ++ bs2)
  | Some b => exists l1 l2, bs1 ++ bs2 = l1 ++ b :: l2 /\ best_block n l1 b l2
  end.
Proof.
  induction bs2 as [|c bs2 IH]; intros bs1 min page H; cbn [best].
  - rewrite app_nil_r. destruct page; naive_solver.
  - replace (bs1 ++ c :: bs2) with ((bs1 ++ [c]) ++ bs2) by (by rewrite <-app_assoc).
    destruct (Z.geb_spec c.2 n) as [Hge|Hlt]; cbn [andb].
    + destruct (Z.ltb_spec c.2 min) as [Hlt|Hge2].
      * apply IH. split; [done|]. exists bs1, []. split; [done|]. split_and!; [lia| |constructor].
        destruct page as [b|].
        -- destruct H as (->&l1&l2&->&Hn&H1&H2). apply Forall_app. split.
           ++ eapply Forall_impl; [exact H1|]. cbn. intros d Hd ?. specialize (Hd ltac:(lia)). lia.
           ++ constructor; [lia|]. eapply Forall_impl; [exact H2|]. cbn. intros d Hd ?. specialize (Hd ltac:(lia)). lia.
        -- destruct H as [H _]. eapply Forall_impl; [exact H|]. cbn. intros d ??. lia.
      * apply IH. destruct page as [b|].
        -- destruct H as (->&l1&l2&->&Hn&H1&H2). split; [done|]. exists l1, (l2 ++ [c]).
           split; [by rewrite <-app_assoc|]. split_and!; [done|done|]. apply Forall_app. split; [done|].
           constructor; [lia|constructor].
        -- destruct H as [_ H]. apply Forall_cons in H as [? _]. lia.
    + apply IH. destruct page as [b|].
      * destruct H as (->&l1&l2&->&Hn&H1&H2). split; [done|]. exists l1, (l2 ++ [c]).
        split; [by rewrite <-app_assoc|]. split_and!; [done|done|]. apply Forall_app. split; [done|].
        constructor; [lia|constructor].
      * destruct H as [H1 H2]. apply Forall_cons in H2 as [_ H2]. split; [|done].
        apply Forall_app. split; [done|]. constructor; [lia|constructor].
Qed.

Lemma wp_best_fit_alloc s bs n (Q : option Z -> pstate -> Prop) :
  fl_inv 1 s bs -> 0 < n -> total bs + 1 < 2 ^ 32 ->
  (Forall (fun b => b.2 < n) bs -> Q None s) ->
  (forall s' bs1 b bs2, bs = bs1 ++ b :: bs2 -> best_block n bs1 b bs2 ->
     fl_inv 1 s' (bs1 ++ remainder b n ++ bs2) -> taken s s' b.1 n -> Q (Some b.1) s') ->
  wp (best_fit_alloc_pages n) Q s.
Proof.
  intros H Hn Ht HN HS. unfold best_fit_alloc_pages. ksteps; [by apply Z.ltb_lt|].
  pose proof (fi_nr _ _ _ H) as Hnr. pose proof (total_nonneg _ _ _ (fi_spaced _ _ _ H)).
  assert (Hall : Forall (fun c : block => c.2 < nr_free s + 1) bs).
  { apply Forall_forall. intros b Hb. pose proof (total_in _ _ _ _ (fi_spaced _ _ _ H) Hb). lia. }
  destruct (Z.gtb_spec n (nr_free s)) as [Hgt|Hle].
  { apply wp_ret, HN. eapply Forall_impl; [exact Hall|]. cbn. intros. lia. }
  kstep. apply (wp_best_fit bs [] _ s n _ None); [done|by eapply fl_fuel|].
  rewrite uwrap_small by lia.
  pose proof (best_spec n bs [] (nr_free s + 1) None (conj (Forall_nil_2 _) Hall)) as Hb.
  destruct (best _ _ _ _) as [b|]; cbn [fmap option_fmap option_map app] in *.
  - destruct Hb as (bs1&bs2&->&Hb). kstep. apply (wp_take_block 1 ltac:(lia) bs1 b bs2); [done| |].
    + destruct Hb. lia.
    + intros s' H' Htk. apply wp_ret. by eapply HS.
  - kstep. apply wp_ret. by apply wp_ret, HN.
Qed.

#[export] Program Instance best_fit_PhysAlloc : PhysAlloc best_fit_pmm_manager := {|
  pa_inv s := exists bs, fl_inv 1 s bs /\ total bs + 1 < 2 ^ 32;
  pa_free s q := exists bs, fl_inv 1 s bs /\ free_page bs q;
  pa_size n := n;
  pa_freeable s base n := exists bs, fl_inv 1 s bs /\ freeable s bs base n /\ total bs + n + 1 < 2 ^ 32;
|}.
Next Obligation. done. Qed.
Next Obligation.
  intros s n (bs&H&Ht) Hn. cbn. apply (wp_best_fit_alloc s bs); [done|done|done| |].
  - intros _. split; [by exists bs|done].
  - intros s' bs1 b bs2 -> Hb H' _. destruct Hb as [Hb _]. split.
    + eexists. split; [done|]. rewrite !total_app, remainder_total in * by lia. cbn in Ht. lia.
    + pose proof (fun q => remainder_pages bs1 b bs2 n q (fi_spaced _ _ _ H) ltac:(lia)) as Hr. split.
      * intros q Hq. exists (bs1 ++ b :: bs2). split; [done|]. exists b. split; [apply in_mid|].
        unfold run_of in Hq. lia.
      * intros q. split.
        -- intros (bs'&Hb'&Hq). rewrite (fl_inv_fun _ _ _ Hb' H') in Hq. apply Hr in Hq as [? ?]. eauto.
        -- intros ((bs'&Hb'&Hq)&Hn'). rewrite (fl_inv_fun _ _ _ Hb' H) in Hq. eexists. split; [done|]. by apply Hr.
Qed.
Next Obligation.
  intros s base n _ (bs&H&(Hn&Hb&Ha&Ht&Hp)&Ht1). cbn. change (best_fit_free_pages base n) with (default_free_pages base n).
  eapply wp_default_free; [done..|]. intros s' bs' H' Htot Hr. split.
  - exists bs'. split; [done|lia].
  - intros q. split.
    + intros (bs2&H2&Hq). rewrite (fl_inv_fun _ _ _ H2 H') in Hq. apply Hr in Hq as [?|?]; eauto.
    + intros Hq. exists bs'. split; [done|]. apply Hr. destruct Hq as [(bs2&H2&Hq)|?]; [|by right].
      left. by rewrite (fl_inv_fun _ _ _ H H2).
Qed.

(** ** Property *)

(** [best_fit_alloc_pages] returns the lowest of the smallest free
    blocks that are large enough, cut to the request, with the rest of it left
    free; when it returns nothing, no block was large enough. *)
Theorem best_fit_alloc_pages_spec s bs n :
  fl_inv 1 s bs -> 0 < n -> total bs + 1 < 2 ^ 32 ->
  wp (best_fit_alloc_pages n) (fun o s' =>
    match o with
    | None => s' = s /\ Forall (fun b => b.2 < n) bs
    | Some p => exists bs1 b bs2, bs = bs1 ++ b :: bs2 /\ p = b.1 /\ best_block n bs1 b bs2 /\
        fl_inv 1 s' (bs1 ++ remainder b n ++ bs2) /\ taken s s' p n
    end) s.
Proof.
  intros H Hn Ht. apply (wp_best_fit_alloc s bs); [done|done|done|done|].
  intros s' bs1 b bs2 -> ???. exists bs1, b, bs2. done.
Qed.

Lemma best_fit_alloc_pages_spec_witness :
  wp (best_fit_alloc_pages 2) (fun o s' =>
    match o with
    | None => s' = ex_pstate /\ Forall (fun b => b.2 < 2) ex_blocks
    | Some p => exists bs1 b bs2, ex_blocks = bs1 ++ b :: bs2 /\ p = b.1 /\ best_block 2 bs1 b bs2 /\
        fl_inv 1 s' (bs1 ++ remainder b 2 ++ bs2) /\ taken ex_pstate s' p 2
    end) ex_pstate.
Proof. refine (best_fit_alloc_pages_spec ex_pstate ex_blocks 2 ex_fl_inv _ _); reflexivity. Defined.
