(* ===== verification/Buddy.v ===== *)
(** kern/mm/buddy_pmm.c: the buddy allocator of physical pages, one list of free
    blocks per order.  As in [FirstFit] a descriptor, its list entry and its page
    number are one number; [HEAD i] is the address of [free_area[i].free_list].
    [buddy_inv s fl held] says that the list of order [i] holds the blocks at
    [fl i], aligned, disjoint, no two buddies among them; [held] is the block an
    operation has in its hands.  The instance at the end discharges [PhysAlloc]
    and, unlike the first-fit allocator, takes back any page it gave. *)
From S2P Require Import Prelude Dlist PmmManager FirstFit.

(** ** Data *)

Definition MAX_ORDER := 14.
Definition HEAD (i : Z) : ptr := - (i + 1).

Record bstate := mk_bstate { pages : gmap Z page; links : store; nr_free : gmap Z Z }.

Definition set_pages (m : gmap Z page) (s : bstate) : bstate := mk_bstate m (links s) (nr_free s).
Definition set_links (h : store) (s : bstate) : bstate := mk_bstate (pages s) h (nr_free s).
Definition set_nr_free (m : gmap Z Z) (s : bstate) : bstate := mk_bstate (pages s) (links s) m.
Definition on_links {A} (m : K store A) : K bstate A := zoom links set_links m.

Definition page_at (p : Z) : K bstate page := fun s => unwrap (pages s !! p) s.
Definition page_upd (p : Z) (f : page -> page) : K bstate () :=
  x ← page_at p; modify (fun s => set_pages (<[p := f x]> (pages s)) s).
Definition nr_at (i : Z) : K bstate Z := fun s => unwrap (nr_free s !! i) s.
Definition nr_upd (i d : Z) : K bstate () :=
  n ← nr_at i; modify (fun s => set_nr_free (<[i := u32 (n + d)]> (nr_free s)) s).

(** ** Operations *)

Fixpoint init_areas (n : nat) (i : Z) : K bstate () :=
  match n with
  | O => mret ()
  | S n => on_links (list_init (HEAD i));; modify (fun s => set_nr_free (<[i := 0]> (nr_free s)) s);;
           init_areas n (i + 1)
  end.

Definition buddy_init : K bstate () := init_areas (Z.to_nat (MAX_ORDER + 1)) 0.

(** [(1 << order) < n] compares an [int] with a [size_t]: at 31 the shift is
    negative and its conversion exceeds every request of the kernel. *)
Fixpoint get_order_from (fuel : nat) (order n : Z) : Z :=
  match fuel with
  | O => order
  | S fuel => if u64 (s32 (Z.shiftl 1 order)) <? n then get_order_from fuel (order + 1) n else order
  end.
Definition get_order (n : Z) : Z := get_order_from 32 0 n.

Fixpoint init_pages (n : nat) (p : Z) : K bstate () :=
  match n with
  | O => mret ()
  | S n =>
      x ← page_at p;
      assert (reserved x);;
      page_upd p (fun x => mk_page 0 false false 0);;
      init_pages n (p + 1)
  end.

(** The largest order that fits and is aligned. *)
Fixpoint fit_order (order : nat) (base n : Z) : Z :=
  match order with
  | O => 0
  | S o =>
      let size := Z.shiftl 1 (Z.of_nat order) in
      if (n >=? size) && bool_decide (Z.land base (size - 1) = 0) then Z.of_nat order
      else fit_order o base n
  end.

(** A free block goes to the front of the list of its order. *)
Definition put_block (p order : Z) : K bstate () :=
  page_upd p (set_property (u32 (Z.shiftl 1 order)));;
  page_upd p SetPageProperty;;
  on_links (list_add (HEAD order) p);;
  nr_upd order 1.

Fixpoint add_blocks (fuel : nat) (base n : Z) : K bstate () :=
  if 0 <? n then
    match fuel with
    | O => timeout
    | S fuel =>
        let order := fit_order (Z.to_nat MAX_ORDER) base n in
        let size := Z.shiftl 1 order in
        put_block base order;;
        add_blocks fuel (base + size) (n - size)
    end
  else mret ().

Definition buddy_init_memmap (base n : Z) : K bstate () :=
  assert (0 <? n);;
  init_pages (Z.to_nat n) base;;
  add_blocks (Z.to_nat n) base n.

(** Halve the block at [page] from order [cur] down to the order wanted. *)
Fixpoint split (n : nat) (page cur : Z) : K bstate () :=
  match n with
  | O => mret ()
  | S n =>
      let cur := cur - 1 in
      put_block (page + Z.shiftl 1 cur) cur;;
      split n page cur
  end.

Fixpoint alloc_from (fuel : nat) (order cur : Z) : K bstate (option Z) :=
  if cur <=? MAX_ORDER then
    match fuel with
    | O => timeout
    | S fuel =>
        e ← on_links (list_empty (HEAD cur));
        if negb e then
          page ← on_links (list_next (HEAD cur));
          on_links (list_del page);;
          nr_upd cur (-1);;
          split (Z.to_nat (cur - order)) page cur;;
          page_upd page ClearPageProperty;;
          mret (Some page)
        else alloc_from fuel order (cur + 1)
    end
  else mret None.

Definition buddy_alloc_pages (n : Z) : K bstate (option Z) :=
  assert (0 <? n);;
  let order := get_order n in
  if order >? MAX_ORDER then mret None else alloc_from 15 order order.

Fixpoint clear_pages (n : nat) (p : Z) : K bstate () :=
  match n with
  | O => mret ()
  | S n => page_upd p clear_flags;; clear_pages n (p + 1)
  end.

(** The merging loop: the final block and its order. *)
Fixpoint merge (fuel : nat) (base order : Z) : K bstate (Z * Z) :=
  if order <? MAX_ORDER then
    match fuel with
    | O => timeout
    | S fuel =>
        let buddy := Z.lxor base (Z.shiftl 1 order) in
        x ← page_at buddy;
        if negb (reserved x) && prop_flag x && bool_decide (property x = Z.shiftl 1 order) then
          on_links (list_del buddy);;
          nr_upd order (-1);;
          page_upd buddy ClearPageProperty;;
          merge fuel (if buddy <? base then buddy else base) (order + 1)
        else mret (base, order)
    end
  else mret (base, order).

Definition buddy_free_pages (base n : Z) : K bstate () :=
  assert (0 <? n);;
  let order := get_order n in
  clear_pages (Z.to_nat (Z.shiftl 1 order)) base;;
  '(base, order) ← merge 15 base order;
  put_block base order.

Fixpoint sum_areas (n : nat) (i total : Z) : K bstate Z :=
  match n with
  | O => mret total
  | S n => k ← nr_at i; sum_areas n (i + 1) (u64 (total + u32 (k * Z.shiftl 1 i)))
  end.
Definition buddy_nr_free_pages : K bstate Z := sum_areas (Z.to_nat (MAX_ORDER + 1)) 0 0.

Definition buddy_pmm_manager : pmm_manager bstate :=
  mk_pmm_manager buddy_init buddy_init_memmap buddy_alloc_pages buddy_free_pages buddy_nr_free_pages.

(** ** Orders *)
Lemma shiftl_1 k : 0 <= k -> Z.shiftl 1 k = 2 ^ k.
Proof. intros. rewrite Z.shiftl_mul_pow2 by done. lia. Qed.

Lemma pow_pos k : 0 <= k -> 0 < 2 ^ k.
Proof. intros. apply Z.pow_pos_nonneg; lia. Qed.

Lemma get_order_from_spec fuel o n :
  let k := get_order_from fuel o n in
  o <= k /\ (k < o + Z.of_nat fuel -> n <= u64 (s32 (Z.shiftl 1 k))) /\
  (forall j, o <= j < k -> u64 (s32 (Z.shiftl 1 j)) < n).
Proof.
  revert o. induction fuel as [|fuel IH]; intros o; cbn [get_order_from]; cbv zeta; [split_and!; lia|].
  destruct (Z.ltb_spec (u64 (s32 (Z.shiftl 1 o))) n) as [Hlt|Hge].
  - destruct (IH (o + 1)) as (H1&H2&H3). split_and!; [lia|intros; apply H2; lia|].
    intros j Hj. destruct (decide (j = o)) as [->|]; [done|apply H3; lia].
  - split_and!; [lia|lia|lia].
Qed.

Lemma order_size k : 0 <= k <= 14 -> u64 (s32 (Z.shiftl 1 k)) = 2 ^ k.
Proof.
  intros. rewrite shiftl_1 by lia. pose proof (pow_pos k ltac:(lia)).
  assert (2 ^ k <= 2 ^ 14) by (apply Z.pow_le_mono_r; lia).
  change (2 ^ 14) with 16384 in *. rewrite swrap_small by (change (2 ^ (32 - 1)) with 2147483648; lia).
  rewrite uwrap_small by (change (2 ^ 64) with 18446744073709551616; lia). done.
Qed.

(** The order of a request is the least one whose blocks are large enough. *)
Lemma get_order_spec n : 0 < n ->
  0 <= get_order n /\ (get_order n <= 14 <-> n <= 2 ^ 14) /\ (get_order n <= 14 -> n <= 2 ^ get_order n) /\
  (forall j, 0 <= j < get_order n -> j <= 14 -> 2 ^ j < n).
Proof.
  intros H. destruct (get_order_from_spec 32 0 n) as (H1&H2&H3). fold (get_order n) in *.
  set (k := get_order n) in *. clearbody k.
  assert (Hk : k <= 14 -> n <= 2 ^ k) by (intros; rewrite <-order_size by lia; apply H2; lia).
  assert (Hj : forall j, 0 <= j < k -> j <= 14 -> 2 ^ j < n).
  { intros j Hj Hj'. rewrite <-order_size by lia. apply H3. lia. }
  split_and!; [done| |done|done]. split; intros Hl.
  - specialize (Hk Hl). assert (2 ^ k <= 2 ^ 14) by (apply Z.pow_le_mono_r; lia). lia.
  - destruct (decide (k <= 14)); [done|]. specialize (Hj 14 ltac:(lia) ltac:(lia)). lia.
Qed.

Lemma lxor_1 m : Z.lxor m 1 = if Z.even m then m + 1 else m - 1.
Proof.
  destruct (Z.even m) eqn:E.
  - symmetry. apply Z.add_nocarry_lxor. change 1 with (Z.ones 1) at 1. rewrite Z.land_ones by lia.
    change (2 ^ 1) with 2. rewrite Zmod_even, E. done.
  - assert (m = Z.lxor (m - 1) 1) as Em.
    { rewrite <-Z.add_nocarry_lxor; [lia|]. change 1 with (Z.ones 1) at 2. rewrite Z.land_ones by lia.
      change (2 ^ 1) with 2. by rewrite Zmod_even, Z.even_sub, E. }
    rewrite Em at 1. by rewrite Z.lxor_assoc, Z.lxor_nilpotent, Z.lxor_0_r.
Qed.

(** The buddy of an aligned block: the other half of the block one order up. *)
Lemma buddy_cases p k : 0 <= k -> p mod 2 ^ k = 0 ->
  (Z.lxor p (2 ^ k) = p + 2 ^ k /\ p mod 2 ^ (k + 1) = 0) \/
  (Z.lxor p (2 ^ k) = p - 2 ^ k /\ (p - 2 ^ k) mod 2 ^ (k + 1) = 0).
Proof.
  intros Hk Hp. pose proof (pow_pos k Hk) as Hpos. set (m := p / 2 ^ k).
  assert (Em : p = m * 2 ^ k) by (unfold m; pose proof (Z.div_mod p (2 ^ k)); lia).
  assert (El : Z.lxor p (2 ^ k) = Z.lxor m 1 * 2 ^ k).
  { rewrite Em. rewrite <-!Z.shiftl_mul_pow2 by done. rewrite Z.shiftl_lxor. by rewrite shiftl_1. }
  assert (E1 : 2 ^ (k + 1) = 2 * 2 ^ k) by (rewrite Z.pow_add_r by lia; lia).
  rewrite El, lxor_1, E1. clearbody m. destruct (Z.even m) eqn:E.
  - left. apply Z.even_spec in E as [j Ej]. split; [lia|]. rewrite Em, Ej.
    replace (2 * j * 2 ^ k) with (j * (2 * 2 ^ k)) by lia. apply Z_mod_mult.
  - right. rewrite <-Z.negb_odd in E. apply negb_false_iff, Z.odd_spec in E as [j Ej]. split; [lia|].
    rewrite Em, Ej. replace ((2 * j + 1) * 2 ^ k - 2 ^ k) with (j * (2 * 2 ^ k)) by lia. apply Z_mod_mult.
Qed.

(** ** The lists of all orders *)

Definition orders (i : Z) : Prop := 0 <= i <= 14.

Record rings (h : store) (fl : Z -> list Z) : Prop := {
  rg_list i : orders i -> dlist h (HEAD i) (fl i);
  rg_pos i p : orders i -> p ∈ fl i -> 0 <= p;
  rg_one i j p : orders i -> orders j -> p ∈ fl i -> p ∈ fl j -> i = j;
}.

Definition upd (fl : Z -> list Z) (k : Z) (l : list Z) (i : Z) : list Z := if decide (i = k) then l else fl i.

Lemma dlist_frame h h' c a l : untouched h h' c -> dlist h a l -> (forall q, q ∈ a :: l -> q ∉ c) -> dlist h' a l.
Proof.
  intros Hu [Hnd Hl] Hd. split; [done|]. eapply linked_ext; [exact Hl|..]; intros q Hq; apply Hu, Hd; [done|].
  apply elem_of_app in Hq as [?| ->%list_elem_of_singleton]; apply elem_of_cons; auto.
Qed.

Lemma rings_apart h fl i j : rings h fl -> orders i -> orders j -> i <> j ->
  forall q, q ∈ HEAD i :: fl i -> q ∉ HEAD j :: fl j.
Proof.
  intros H Hi Hj Hne q Hq Hq'. unfold orders in *. rewrite elem_of_cons in Hq, Hq'.
  destruct Hq as [->|Hq], Hq' as [Hq'|Hq'].
  - unfold HEAD in Hq'. lia.
  - pose proof (rg_pos _ _ H _ _ Hj Hq'). unfold HEAD in *. lia.
  - subst q. pose proof (rg_pos _ _ H _ _ Hi Hq). unfold HEAD in *. lia.
  - by apply Hne, (rg_one _ _ H i j q).
Qed.

Lemma wp_rings_del h fl k l1 p l2 (Q : () -> store -> Prop) :
  rings h fl -> orders k -> fl k = l1 ++ p :: l2 ->
  (forall h', same_cells h h' -> rings h' (upd fl k (l1 ++ l2)) -> Q () h') -> wp (list_del p) Q h.
Proof.
  intros H Hk E HQ. pose proof (rg_list _ _ H k Hk) as Hl. rewrite E in Hl.
  eapply wp_list_del; [exact Hl|]. intros h' Hs Hu Hd. apply HQ; [done|].
  assert (Hsub : forall q, q ∈ l1 ++ l2 -> q ∈ fl k) by (intros q; rewrite E; set_solver+).
  split.
  - intros i Hi. unfold upd. case_decide as Ei; [by subst|]. eapply dlist_frame; [exact Hu|by apply H|].
    intros q Hq Hq'. apply (rings_apart _ _ i k H Hi Hk Ei q Hq). rewrite elem_of_cons in Hq' |- *.
    destruct Hq'; [by left|right; auto].
  - intros i q Hi. unfold upd. case_decide as Ei; [|by apply H]. intros Hq. subst i. eapply rg_pos; eauto.
  - intros i j q Hi Hj. unfold upd. intros Hqi Hqj. eapply rg_one; [exact H|done|done|..];
      repeat case_decide; subst; eauto.
Qed.

Lemma wp_rings_add h fl k p (Q : () -> store -> Prop) :
  rings h fl -> orders k -> 0 <= p -> is_Some (h !! p) -> (forall i, orders i -> p ∉ fl i) ->
  (forall h', same_cells h h' -> rings h' (upd fl k (p :: fl k)) -> Q () h') -> wp (list_add (HEAD k) p) Q h.
Proof.
  intros H Hk Hp Hc Hni HQ. unfold orders in *.
  assert (Hneg : forall i, orders i -> p <> HEAD i) by (unfold orders, HEAD; lia).
  eapply (wp_list_add_at h (HEAD k) [] (fl k)); [by apply H|done| |].
  - apply not_elem_of_cons. split; [by apply Hneg|by apply Hni].
  - intros h' Hs Hu Hd. apply HQ; [done|]. split.
    + intros i Hi. unfold upd. case_decide as Ei; [by subst|]. eapply dlist_frame; [exact Hu|by apply H|].
      intros q Hq Hq'. cbn [app] in Hq'. apply elem_of_cons in Hq' as [->|Hq'].
      * apply elem_of_cons in Hq as [Hq|Hq]; [by apply (Hneg i)|by apply (Hni i)].
      * by apply (rings_apart _ _ i k H Hi Hk Ei q Hq).
    + intros i q Hi. unfold upd. case_decide; [|by apply H]. intros [->|Hq]%elem_of_cons; [done|]. by apply (rg_pos _ _ H k).
    + intros i j q Hi Hj. unfold upd. intros Hqi Hqj.
      assert (forall i, orders i -> q ∈ (if decide (i = k) then p :: fl k else fl i) ->
        (q = p /\ i = k) \/ (q <> p /\ q ∈ fl i)) as Hc'.
      { intros i' Hi' Hq. case_decide; [subst i'|right; split; [|done]; intros ->; by apply (Hni i')].
        destruct (decide (q = p)); [by left|]. right. apply elem_of_cons in Hq as [?|?]; done. }
      apply Hc' in Hqi, Hqj; try done. destruct Hqi as [[? ->]|[? Hqi]], Hqj as [[? ->]|[? Hqj]]; try done.
      by apply (rg_one _ _ H i j q).
Qed.

(** ** The invariant *)

(** A page that may be free: it exists, is not reserved and nobody refers to it. *)
Definition usable (s : bstate) (q : Z) : Prop := exists x, pages s !! q = Some x /\ reserved x = false /\ ref x = 0.

Definition apart (fl : Z -> list Z) (p k : Z) : Prop :=
  forall i b, orders i -> b ∈ fl i -> b + 2 ^ i <= p \/ p + 2 ^ k <= b.

(** The block [p] of order [k] can be put on a list. *)
Record loose (s : bstate) (fl : Z -> list Z) (p k : Z) : Prop := {
  lo_order : orders k;
  lo_align : p mod 2 ^ k = 0;
  lo_pages q : p <= q < p + 2 ^ k -> usable s q;
  lo_apart : apart fl p k;
}.

(** [dirty]: the head of the block held may still carry its flag. *)
Record buddy_inv (s : bstate) (fl : Z -> list Z) (held : option (Z * Z)) (dirty : bool) : Prop := {
  bi_rings : rings (links s) fl;
  bi_cells p : is_Some (pages s !! p) -> 0 <= p /\ is_Some (links s !! p);
  bi_super q r : is_Some (pages s !! q) -> q / 2 ^ 14 = r / 2 ^ 14 -> is_Some (pages s !! r);
  bi_block i p : orders i -> p ∈ fl i -> p mod 2 ^ i = 0 /\
    exists x, pages s !! p = Some x /\ prop_flag x = true /\ property x = 2 ^ i;
  bi_pages i p q : orders i -> p ∈ fl i -> p <= q < p + 2 ^ i -> usable s q;
  bi_flag q x : pages s !! q = Some x -> prop_flag x = true ->
    (exists i, orders i /\ q ∈ fl i) \/ (dirty = true /\ exists k, held = Some (q, k));
  bi_apart i j p q : orders i -> orders j -> p ∈ fl i -> q ∈ fl j -> p < q -> p + 2 ^ i <= q;
  bi_merged i p : orders i -> i < 14 -> p ∈ fl i -> Z.lxor p (2 ^ i) ∉ fl i;
  bi_nr i : orders i -> nr_free s !! i = Some (u32 (Z.of_nat (length (fl i))));
  bi_held p k : held = Some (p, k) -> loose s fl p k;
}.

(** The pages of the free blocks. *)
Definition free_in (fl : Z -> list Z) (q : Z) : Prop := exists i p, orders i /\ p ∈ fl i /\ p <= q < p + 2 ^ i.

Lemma elem_upd fl k l i p : p ∈ upd fl k l i -> (i = k /\ p ∈ l) \/ (i <> k /\ p ∈ fl i).
Proof. unfold upd. case_decide; auto. Qed.

Lemma upd_sub fl k l1 p l2 i q : fl k = l1 ++ p :: l2 -> q ∈ upd fl k (l1 ++ l2) i -> q ∈ fl i.
Proof. intros E [[-> Hq]|[_ Hq]]%elem_upd; [|done]. rewrite E. set_solver +Hq. Qed.

Lemma free_in_add fl k p q :
  orders k -> free_in (upd fl k (p :: fl k)) q <-> free_in fl q \/ p <= q < p + 2 ^ k.
Proof.
  intros Hk. split.
  - intros (i&b&Hi&Hb&Hq). apply elem_upd in Hb as [[-> Hb]|[_ Hb]]; [|left; by exists i, b].
    apply elem_of_cons in Hb as [->|Hb]; [by right|left; by exists k, b].
  - intros [(i&b&Hi&Hb&Hq)|Hq].
    + exists i, b. split; [done|]. split; [|done]. unfold upd. case_decide; [subst; by apply elem_of_cons; right|done].
    + exists k, p. split; [done|]. split; [|done]. unfold upd. rewrite decide_True by done. apply elem_of_cons. by left.
Qed.

Lemma free_in_del fl k l1 p l2 q :
  orders k -> fl k = l1 ++ p :: l2 -> free_in fl q <-> free_in (upd fl k (l1 ++ l2)) q \/ p <= q < p + 2 ^ k.
Proof.
  intros Hk E. split.
  - intros (i&b&Hi&Hb&Hq). destruct (decide (i = k)) as [->|Hne].
    + rewrite E in Hb. apply elem_of_app in Hb as [Hb|[->|Hb]%elem_of_cons]; [|by right|];
        left; exists k, b; (split; [done|]); (split; [|done]); unfold upd; rewrite decide_True by done; apply elem_of_app; auto.
    + left. exists i, b. split; [done|]. split; [|done]. unfold upd. by rewrite decide_False.
  - intros [(i&b&Hi&Hb&Hq)|Hq].
    + exists i, b. split; [done|]. split; [|done]. by eapply upd_sub.
    + exists k, p. split; [done|]. split; [|done]. rewrite E. apply in_mid.
Qed.

Lemma wp_bpage_at p x s (Q : page -> bstate -> Prop) : pages s !! p = Some x -> Q x s -> wp (page_at p) Q s.
Proof. intros E H. unfold wp, page_at, unwrap. by rewrite E. Qed.

Lemma wp_bpage_upd p f x s (Q : () -> bstate -> Prop) :
  pages s !! p = Some x -> Q () (set_pages (<[p := f x]> (pages s)) s) -> wp (page_upd p f) Q s.
Proof. intros E H. unfold page_upd. kstep. eapply wp_bpage_at; [done|]. by apply wp_modify. Qed.

Lemma wp_nr_upd i d n s (Q : () -> bstate -> Prop) :
  nr_free s !! i = Some (u32 n) -> Q () (set_nr_free (<[i := u32 (n + d)]> (nr_free s)) s) -> wp (nr_upd i d) Q s.
Proof.
  intros E H. unfold nr_upd, nr_at. kstep. unfold wp, unwrap. rewrite E. cbn -[uwrap].
  rewrite uwrap_add_l. exact H.
Qed.

(** A change of one descriptor that is not the head of a free block. *)
Lemma inv_set_page s fl held d q x x' :
  buddy_inv s fl held d -> pages s !! q = Some x -> (forall i, orders i -> q ∉ fl i) ->
  (free_in fl q \/ held <> None -> reserved x = false -> ref x = 0 -> reserved x' = false /\ ref x' = 0) ->
  (prop_flag x' = true -> prop_flag x = true) ->
  buddy_inv (set_pages (<[q := x']> (pages s)) s) fl held d.
Proof.
  intros H Hx Hni Hr Hf.
  assert (Hu : forall r, free_in fl r \/ held <> None -> usable s r -> usable (set_pages (<[q := x']> (pages s)) s) r).
  { intros r Hfr (y&Hy&Hyr&Hyf). unfold usable. cbn. destruct (decide (r = q)) as [->|].
    - exists x'. rewrite lookup_insert_eq. split; [done|]. simplify_eq. auto.
    - exists y. by rewrite lookup_insert_ne. }
  assert (Hs : forall r, is_Some (<[q := x']> (pages s) !! r) <-> is_Some (pages s !! r)).
  { intros r. destruct (decide (r = q)) as [->|]; [|by rewrite lookup_insert_ne].
    rewrite lookup_insert_eq, Hx. split; eauto. }
  split; cbn; try apply H.
  - intros p Hp. apply (bi_cells _ _ _ _ H). by apply Hs.
  - intros r r' Hrr E. apply Hs. apply Hs in Hrr. by eapply (bi_super _ _ _ _ H).
  - intros i p Hi Hp. destruct (bi_block _ _ _ _ H i p Hi Hp) as (?&y&Hy&?). split; [done|]. exists y.
    rewrite lookup_insert_ne; [done|]. intros ->. by apply (Hni i).
  - intros i p r Hi Hp Hq. apply Hu; [left; by exists i, p|]. by apply (bi_pages _ _ _ _ H i p).
  - intros r y Hy Hfl. destruct (decide (r = q)) as [->|].
    + rewrite lookup_insert_eq in Hy. injection Hy as <-. eapply (bi_flag _ _ _ _ H); [exact Hx|auto].
    + rewrite lookup_insert_ne in Hy by done. by eapply (bi_flag _ _ _ _ H).
  - intros p k Hh. destruct (bi_held _ _ _ _ H p k Hh). split; [done|done| |done].
    intros r Hrr. apply Hu; [right; by rewrite Hh|auto].
Qed.

(** A block taken off its list is in hand. *)
Lemma inv_take s fl k l1 p l2 h n :
  buddy_inv s fl None false -> orders k -> fl k = l1 ++ p :: l2 -> same_cells (links s) h ->
  rings h (upd fl k (l1 ++ l2)) -> n = u32 (Z.of_nat (length (fl k)) + - 1) ->
  buddy_inv (set_nr_free (<[k := n]> (nr_free s)) (set_links h s)) (upd fl k (l1 ++ l2)) (Some (p, k)) true.
Proof.
  intros H Hk E Hs Hr Hn.
  assert (Hin : p ∈ fl k) by (rewrite E; apply in_mid).
  pose proof (fun i q => upd_sub fl k l1 p l2 i q E) as Hsub.
  assert (Hnd : p ∉ l1 ++ l2).
  { destruct (rg_list _ _ (bi_rings _ _ _ _ H) k Hk) as [Hnd _]. apply NoDup_cons in Hnd as [_ Hnd].
    rewrite E in Hnd. apply NoDup_app in Hnd as (_&Hd&[Hp _]%NoDup_cons).
    intros [Hq|Hq]%elem_of_app; [|done]. apply (Hd _ Hq). set_solver+. }
  assert (Hpi : forall i, orders i -> p ∉ upd fl k (l1 ++ l2) i).
  { intros i Hi [[-> Hq]|[Hne Hq]]%elem_upd; [done|].
    by apply Hne, (rg_one _ _ (bi_rings _ _ _ _ H) i k p). }
  split; cbn; try apply H; try done.
  - intros q Hq. destruct (bi_cells _ _ _ _ H q Hq). split; [done|]. by apply Hs.
  - intros i q Hi Hq. apply (bi_block _ _ _ _ H); auto.
  - intros i q r Hi Hq Hqr. eapply (bi_pages _ _ _ _ H); eauto.
  - intros q x Hx Hf. destruct (bi_flag _ _ _ _ H q x Hx Hf) as [(i&Hi&Hq)|[? _]]; [|done].
    destruct (decide (q = p)) as [->|Hne]; [right; eauto|]. left. exists i. split; [done|].
    unfold upd. case_decide; [|done]. subst i. rewrite E in Hq. set_solver +Hq Hne.
  - intros i j q r Hi Hj Hq Hr'. apply (bi_apart _ _ _ _ H i j); auto.
  - intros i q Hi Hl Hq Hb. apply (bi_merged _ _ _ _ H i q Hi Hl); auto.
  - intros i Hi. unfold upd. destruct (decide (i = k)) as [->|].
    + rewrite lookup_insert_eq, Hn, E, !length_app. cbn [length]. do 2 f_equal. lia.
    + rewrite lookup_insert_ne by done. by apply H.
  - intros q j [= <- <-]. split; [done|by apply (bi_block _ _ _ _ H)| |].
    + intros r Hrr. by eapply (bi_pages _ _ _ _ H).
    + intros i b Hi Hb. pose proof (pow_pos i (proj1 Hi)).
      destruct (Z.lt_trichotomy b p) as [Hlt|[->|Hgt]]; [left|by apply Hpi in Hb|right].
      * apply (bi_apart _ _ _ _ H i k); auto.
      * apply (bi_apart _ _ _ _ H k i); auto.
Qed.

(** A loose block put on the list of its order. *)
Lemma inv_put s fl held d q k held' x h n :
  buddy_inv s fl held d -> loose s fl q k -> (k < 14 -> Z.lxor q (2 ^ k) ∉ fl k) -> pages s !! q = Some x ->
  (forall r j, held = Some (r, j) -> d = true -> r = q \/ exists j', held' = Some (r, j')) ->
  (forall r j, held' = Some (r, j) -> loose s fl r j /\ (q + 2 ^ k <= r \/ r + 2 ^ j <= q)) ->
  same_cells (links s) h -> rings h (upd fl k (q :: fl k)) -> n = u32 (Z.of_nat (length (fl k)) + 1) ->
  buddy_inv (set_nr_free (<[k := n]> (nr_free s)) (set_links h (set_pages (<[q := mk_page (ref x) (reserved x) true (2 ^ k)]> (pages s)) s)))
    (upd fl k (q :: fl k)) held' d.
Proof.
  intros H [Hk Ha Hp Hap] Hm Hx Hd Hh' Hs Hr Hn. set (x' := mk_page _ _ _ _). pose proof (pow_pos k (proj1 Hk)) as Hpos.
  assert (Hu : forall r, usable s r -> usable (set_nr_free (<[k := n]> (nr_free s)) (set_links h (set_pages (<[q := x']> (pages s)) s))) r).
  { intros r (y&Hy&Hyr). unfold usable. cbn. destruct (decide (r = q)) as [->|].
    - exists x'. rewrite lookup_insert_eq. split; [done|]. simplify_eq. done.
    - exists y. by rewrite lookup_insert_ne. }
  assert (Hss : forall r, is_Some (<[q := x']> (pages s) !! r) <-> is_Some (pages s !! r)).
  { intros r. destruct (decide (r = q)) as [->|]; [|by rewrite lookup_insert_ne].
    rewrite lookup_insert_eq, Hx. split; eauto. }
  assert (Hin : forall i r, r ∈ upd fl k (q :: fl k) i -> (i = k /\ r = q) \/ r ∈ fl i).
  { intros i r [[-> [->|Hb]%elem_of_cons]|[_ Hb]]%elem_upd; auto. }
  split; cbn; try done.
  - intros p Hpp. apply Hss in Hpp. destruct (bi_cells _ _ _ _ H p Hpp). split; [done|]. by apply Hs.
  - intros r r' Hrr E. apply Hss. apply Hss in Hrr. by eapply (bi_super _ _ _ _ H).
  - intros i p Hi Hpp. apply Hin in Hpp as [[-> ->]|Hpp].
    + split; [done|]. exists x'. by rewrite lookup_insert_eq.
    + destruct (bi_block _ _ _ _ H i p Hi Hpp) as (?&y&Hy&?). split; [done|]. exists y.
      rewrite lookup_insert_ne; [done|]. intros <-. pose proof (pow_pos i (proj1 Hi)). destruct (Hap i q Hi Hpp); lia.
  - intros i p r Hi Hpp Hq. apply Hu. apply Hin in Hpp as [[-> ->]|Hpp]; [by apply Hp|]. eapply (bi_pages _ _ _ _ H); eauto.
  - intros r y Hy Hfl. destruct (decide (r = q)) as [->|].
    + left. exists k. split; [done|]. unfold upd. rewrite decide_True by done. apply elem_of_cons. by left.
    + rewrite lookup_insert_ne in Hy by done. destruct (bi_flag _ _ _ _ H r y Hy Hfl) as [(i&Hi&Hri)|(->&j&Hj)].
      * left. exists i. split; [done|]. unfold upd. case_decide; [subst; by apply elem_of_cons; right|done].
      * right. split; [done|]. by destruct (Hd r j Hj eq_refl).
  - intros i j p r Hi Hj Hpp Hrr Hlt. apply Hin in Hpp as [[-> ->]|Hpp], Hrr as [[-> ->]|Hrr].
    + lia.
    + pose proof (pow_pos j (proj1 Hj)). destruct (Hap j r Hj Hrr); lia.
    + pose proof (pow_pos i (proj1 Hi)). destruct (Hap i p Hi Hpp); lia.
    + by eapply (bi_apart _ _ _ _ H).
  - intros i p Hi Hl Hpp Hb.
    assert (Hxx : forall a : Z, Z.lxor (Z.lxor a (2 ^ i)) (2 ^ i) = a)
      by (intros a; by rewrite Z.lxor_assoc, Z.lxor_nilpotent, Z.lxor_0_r).
    apply Hin in Hpp as [[-> ->]|Hpp], Hb as [[E1 E2]|Hb].
    + pose proof (Z.lxor_nilpotent q) as E. rewrite <-E2 in E at 2. rewrite <-Z.lxor_assoc, Z.lxor_nilpotent, Z.lxor_0_l in E. lia.
    + by apply Hm.
    + subst i. rewrite <-(Hxx p), E2 in Hpp. by apply Hm.
    + by apply (bi_merged _ _ _ _ H i p).
  - intros i Hi. unfold upd. destruct (decide (i = k)) as [->|].
    + rewrite lookup_insert_eq, Hn. cbn [length]. do 2 f_equal. lia.
    + rewrite lookup_insert_ne by done. by apply H.
  - intros r j E. destruct (Hh' r j E) as [[Hj Hja Hjp Hjap] Hqr]. split; [done|done|auto|].
    intros i b Hi Hb. apply Hin in Hb as [[-> ->]|Hb]; [done|by apply Hjap].
Qed.

(** ** The operations *)
Lemma bset_links_id s : set_links (links s) s = s.
Proof. by destruct s. Qed.

Lemma loose_notin s fl q k i : loose s fl q k -> orders i -> q ∉ fl i.
Proof.
  intros [Hk _ _ Ha] Hi Hq. pose proof (pow_pos i (proj1 Hi)). pose proof (pow_pos k (proj1 Hk)).
  destruct (Ha i q Hi Hq); lia.
Qed.

Lemma loose_not_free s fl p k q : loose s fl p k -> free_in fl q -> ~ p <= q < p + 2 ^ k.
Proof. intros Hl (i&b&Hi&Hb&Hq). destruct (lo_apart _ _ _ _ Hl i b Hi Hb); lia. Qed.

Lemma wp_put_block s fl held d q k held' (Q : () -> bstate -> Prop) :
  buddy_inv s fl held d -> loose s fl q k -> (k < 14 -> Z.lxor q (2 ^ k) ∉ fl k) ->
  (forall r j, held = Some (r, j) -> d = true -> r = q \/ exists j', held' = Some (r, j')) ->
  (forall r j, held' = Some (r, j) -> loose s fl r j /\ (q + 2 ^ k <= r \/ r + 2 ^ j <= q)) ->
  (forall s', buddy_inv s' (upd fl k (q :: fl k)) held' d -> Q () s') ->
  wp (put_block q k) Q s.
Proof.
  intros H Hl Hm Hd Hh HQ. pose proof (lo_order _ _ _ _ Hl) as Hk. unfold orders in Hk.
  pose proof (pow_pos k ltac:(lia)) as Hpos.
  destruct (lo_pages _ _ _ _ Hl q ltac:(lia)) as (x&Hx&Hxr). unfold put_block. kstep.
  eapply wp_bpage_upd; [exact Hx|]. kstep.
  eapply wp_bpage_upd; [cbn; apply lookup_insert_eq|]. kstep. cbn [set_pages pages links nr_free].
  rewrite insert_insert_eq. unfold on_links. kstep.
  destruct (bi_cells _ _ _ _ H q ltac:(eauto)) as [Hq0 Hqc].
  eapply wp_rings_add; [apply H|done|done|done|intros i Hi; by eapply loose_notin|].
  intros h Hs Hr. eapply wp_nr_upd; [cbn; by apply H|]. apply HQ. cbn [set_links set_pages pages links nr_free].
  assert (E : u32 (Z.shiftl 1 k) = 2 ^ k).
  { rewrite shiftl_1 by lia. apply uwrap_small. pose proof (Z.pow_le_mono_r 2 k 14). lia. }
  unfold set_property, SetPageProperty. cbn [ref reserved property prop_flag]. rewrite E.
  eapply (inv_put s fl held d q k held'); done.
Qed.

(** Halving leaves the front part of the block in hand and the rest free. *)
Lemma wp_split n s fl page cur (Q : () -> bstate -> Prop) :
  buddy_inv s fl (Some (page, cur)) true -> Z.of_nat n <= cur ->
  (forall j, orders j -> j < cur -> fl j = [] \/ j < cur - Z.of_nat n) ->
  (forall s' fl', buddy_inv s' fl' (Some (page, cur - Z.of_nat n)) true ->
     (forall q, free_in fl' q \/ page <= q < page + 2 ^ (cur - Z.of_nat n) <-> free_in fl q \/ page <= q < page + 2 ^ cur) ->
     Q () s') ->
  wp (split n page cur) Q s.
Proof.
  revert s fl cur. induction n as [|n IH]; intros s fl cur H Hn He HQ; cbn [split].
  - apply wp_ret. eapply HQ; replace (cur - Z.of_nat 0) with cur by lia; [exact H|done].
  - set (c := cur - 1). pose proof (bi_held _ _ _ _ H _ _ eq_refl) as [Hk Ha Hp Hap]. unfold orders in Hk.
    assert (Ec : 2 ^ cur = 2 ^ c + 2 ^ c).
    { replace cur with (c + 1) by lia. rewrite Z.pow_add_r by lia. lia. }
    pose proof (pow_pos c ltac:(lia)) as Hpos. rewrite shiftl_1 by lia.
    assert (Hal : page mod 2 ^ c = 0).
    { apply Z.mod_divide in Ha; [|lia]. apply Z.mod_divide; [lia|]. etrans; [|exact Ha].
      exists 2. lia. }
    assert (Hal' : (page + 2 ^ c) mod 2 ^ c = 0).
    { rewrite <-(Z.mul_1_l (2 ^ c)) at 1. rewrite Z_mod_plus_full. done. }
    assert (Hlo : forall r, r = page \/ r = page + 2 ^ c -> loose s fl r c).
    { intros r Hr. split; [unfold orders; lia|by destruct Hr as [->| ->]| |].
      - intros q Hq. apply Hp. lia.
      - intros i b Hi Hb. destruct (Hap i b Hi Hb); lia. }
    assert (Hb : Z.lxor (page + 2 ^ c) (2 ^ c) ∉ fl c).
    { destruct (buddy_cases (page + 2 ^ c) c ltac:(lia) Hal') as [[E E']|[E _]]; rewrite E.
      - intros Hin. pose proof (Hap c _ ltac:(unfold orders; lia) Hin) as Hcon.
        destruct (He c ltac:(unfold orders; lia) ltac:(lia)) as [E0|]; [|lia]. rewrite E0 in Hin. by apply not_elem_of_nil in Hin.
      - replace (page + 2 ^ c - 2 ^ c) with page by lia. apply (loose_notin s fl page c c); [by apply Hlo; left|unfold orders; lia]. }
    kstep. eapply (wp_put_block s fl _ _ _ c (Some (page, c))); [exact H|by apply Hlo; right|done| | |].
    + intros r j [= -> ->] _. right. eauto.
    + intros r j [= <- <-]. split; [by apply Hlo; left|lia].
    + intros s' H'. apply (IH s' (upd fl c (page + 2 ^ c :: fl c)) c); [exact H'|lia| |].
      * intros j Hj Hjc. unfold upd. rewrite decide_False by lia. destruct (He j Hj ltac:(lia)); [by left|right; lia].
      * intros s'' fl'' H'' Hf. replace (c - Z.of_nat n) with (cur - Z.of_nat (S n)) in * by lia.
        apply (HQ s'' fl''); [done|]. intros q. rewrite Hf, free_in_add by (unfold orders; lia).
        assert (page <= q < page + 2 ^ cur <-> page <= q < page + 2 ^ c \/ page + 2 ^ c <= q < page + 2 ^ c + 2 ^ c) by lia.
        tauto.
Qed.

(** What a successful allocation has done. *)
Definition granted (s : bstate) (fl : Z -> list Z) (page k : Z) (s' : bstate) (fl' : Z -> list Z) : Prop :=
  buddy_inv s' fl' None false /\ loose s' fl' page k /\
  forall q, free_in fl q <-> free_in fl' q \/ page <= q < page + 2 ^ k.

Lemma wp_alloc_from fuel s fl k cur (Q : option Z -> bstate -> Prop) :
  buddy_inv s fl None false -> 0 <= k -> k <= cur -> 14 < cur + Z.of_nat fuel ->
  (forall j, orders j -> k <= j < cur -> fl j = []) ->
  ((forall j, orders j -> k <= j -> fl j = []) -> Q None s) ->
  (forall j page l s' fl', orders j -> k <= j -> fl j = page :: l -> (forall i, k <= i < j -> fl i = []) ->
     granted s fl page k s' fl' -> Q (Some page) s') ->
  wp (alloc_from fuel k cur) Q s.
Proof.
  intros H Hk. revert cur. induction fuel as [|fuel IH]; intros cur Hc Hf He HN HS; cbn [alloc_from];
    unfold MAX_ORDER; destruct (Z.leb_spec cur 14); try lia.
  { apply wp_ret, HN. intros j Hj Hkj. apply He; [done|]. unfold orders in Hj. lia. }
  2:{ apply wp_ret, HN. intros j Hj Hkj. apply He; [done|]. unfold orders in Hj. lia. }
  assert (Ho : orders cur) by (unfold orders; lia).
  pose proof (bi_rings _ _ _ _ H) as HR. pose proof (rg_list _ _ HR cur Ho) as Hd.
  pose proof (dlist_nxt _ _ [] (fl cur) Hd) as Hn. cbn [List.last] in Hn.
  kstep. unfold on_links. kstep. eapply wp_list_empty; [exact Hn|]. rewrite bset_links_id.
  destruct (fl cur) as [|page l] eqn:E; cbn [hd] in *.
  - rewrite bool_decide_true by done. cbn [negb]. apply IH; [lia|lia| |done|done].
    intros j Hj Hkj. destruct (decide (j = cur)) as [->|]; [done|apply He; [done|lia]].
  - assert (Hin : page ∈ fl cur) by (rewrite E; apply elem_of_cons; by left).
    pose proof (rg_pos _ _ HR _ _ Ho Hin). rewrite bool_decide_false by (unfold HEAD; lia). cbn [negb].
    kstep. kstep. eapply wp_list_next; [exact Hn|]. rewrite bset_links_id. kstep. kstep.
    eapply (wp_rings_del _ _ cur [] page l); [done|done|done|]. intros h Hs Hr. cbn [app] in Hr. kstep.
    eapply wp_nr_upd; [cbn; by apply H|]. kstep.
    eapply (wp_split _ _ (upd fl cur l) page cur).
    + eapply (inv_take s fl cur [] page l h); [done|done|done|done|done|reflexivity].
    + lia.
    + intros j Hj Hjc. rewrite Z2Nat.id by lia. unfold upd. rewrite decide_False by lia.
      destruct (decide (j < k)); [right; lia|left; apply He; [done|lia]].
    + rewrite Z2Nat.id by lia. replace (cur - (cur - k)) with k by lia. intros s' fl' H' Hq.
      pose proof (bi_held _ _ _ _ H' _ _ eq_refl) as Hl. destruct (lo_pages _ _ _ _ Hl page) as (x&Hx&Hxr).
      { pose proof (pow_pos k Hk). lia. }
      kstep. eapply wp_bpage_upd; [exact Hx|]. apply wp_ret.
      assert (H2 : buddy_inv (set_pages (<[page := ClearPageProperty x]> (pages s')) s') fl' (Some (page, k)) true).
      { eapply inv_set_page; [done|done|intros i Hi; by eapply loose_notin|done|done]. }
      pose proof (bi_held _ _ _ _ H2 _ _ eq_refl) as Hl2.
      apply (HS cur page l _ fl'); [done|done|done|intros i Hi; apply He; [unfold orders; lia|done]|].
      split_and!; [|exact Hl2|].
      * split; try apply H2; [|done]. intros q y Hy Hyf. left.
        destruct (bi_flag _ _ _ _ H2 q y Hy Hyf) as [?|(_&j&[= <- <-])]; [done|].
        cbn in Hy. rewrite lookup_insert_eq in Hy. by injection Hy as <-.
      * intros q. rewrite Hq, (free_in_del fl cur [] page l) by done. done.
Qed.

(** Two pages of an aligned block lie in one block of the highest order. *)
Lemma same_super c j q r : 0 <= j <= 14 -> c mod 2 ^ j = 0 ->
  c <= q < c + 2 ^ j -> c <= r < c + 2 ^ j -> q / 2 ^ 14 = r / 2 ^ 14.
Proof.
  intros Hj Hc Hq Hr. pose proof (pow_pos j ltac:(lia)) as Hpos. pose proof (pow_pos (14 - j) ltac:(lia)).
  assert (E : 2 ^ 14 = 2 ^ j * 2 ^ (14 - j)) by (rewrite <-Z.pow_add_r by lia; f_equal; lia).
  rewrite E, <-!Z.div_div by lia. f_equal. pose proof (Z.div_mod c (2 ^ j) ltac:(lia)) as Ed.
  assert (Hd : forall t, c <= t < c + 2 ^ j -> t / 2 ^ j = c / 2 ^ j).
  { intros t Ht. symmetry. apply (Z.div_unique _ _ _ (t - c)); lia. }
  by rewrite (Hd q Hq), (Hd r Hr).
Qed.

(** One step of merging: the buddy leaves its list and joins the block. *)
Lemma inv_merge s fl p k l1 b l2 h x n :
  buddy_inv s fl (Some (p, k)) false -> k < 14 -> b = Z.lxor p (2 ^ k) -> fl k = l1 ++ b :: l2 ->
  same_cells (links s) h -> rings h (upd fl k (l1 ++ l2)) -> n = u32 (Z.of_nat (length (fl k)) + - 1) ->
  pages s !! b = Some x ->
  buddy_inv (set_pages (<[b := ClearPageProperty x]> (pages s)) (set_nr_free (<[k := n]> (nr_free s)) (set_links h s)))
    (upd fl k (l1 ++ l2)) (Some (if b <? p then b else p, k + 1)) false /\
  forall q, free_in (upd fl k (l1 ++ l2)) q \/ (if b <? p then b else p) <= q < (if b <? p then b else p) + 2 ^ (k + 1)
            <-> free_in fl q \/ p <= q < p + 2 ^ k.
Proof.
  intros H Hk Eb E Hs Hr Hn Hx. pose proof (bi_held _ _ _ _ H _ _ eq_refl) as [Ho Ha Hp Hap].
  pose proof (pow_pos k (proj1 Ho)) as Hpos. unfold orders in Ho.
  assert (E2 : 2 ^ (k + 1) = 2 ^ k + 2 ^ k) by (rewrite Z.pow_add_r by lia; lia).
  assert (Hin : b ∈ fl k) by (rewrite E; apply in_mid).
  pose proof (buddy_cases p k ltac:(lia) Ha) as Hbc. rewrite <-Eb in Hbc. set (m := if b <? p then b else p).
  assert (Hm : m mod 2 ^ (k + 1) = 0 /\
    forall q, m <= q < m + 2 ^ (k + 1) <-> p <= q < p + 2 ^ k \/ b <= q < b + 2 ^ k).
  { unfold m. destruct (Z.ltb_spec b p); rewrite E2; destruct Hbc as [[Ebc Hmod]|[Ebc Hmod]]; try lia; rewrite <-E2;
      (split; [congruence|intros q; lia]). }
  destruct Hm as [Hma Hmq].
  split.
  2:{ intros q. rewrite (free_in_del fl k l1 b l2) by (unfold orders; try lia; done). rewrite Hmq. tauto. }
  assert (H0 : buddy_inv s fl None false).
  { split; try apply H; [|done]. intros q y Hy Hf. left. by destruct (bi_flag _ _ _ _ H q y Hy Hf) as [?|[? _]]. }
  pose proof (inv_take s fl k l1 b l2 h n H0 ltac:(done) E Hs Hr Hn) as Ht.
  pose proof (bi_held _ _ _ _ Ht _ _ eq_refl) as Hlb.
  eapply (inv_set_page _ _ _ _ b x (ClearPageProperty x)) in Ht;
    [|exact Hx|intros i Hi; by eapply loose_notin|done|done].
  set (s' := set_pages _ _) in *. change (set_pages _ _) with s' in Ht.
  pose proof (bi_held _ _ _ _ Ht _ _ eq_refl) as Hlb'.
  split; try apply Ht.
  - intros q y Hy Hf. left. destruct (bi_flag _ _ _ _ Ht q y Hy Hf) as [?|(_&j&[= <- <-])]; [done|].
    unfold s' in Hy. cbn in Hy. rewrite lookup_insert_eq in Hy. by injection Hy as <-.
  - intros q j [= <- <-]. split; [unfold orders; lia|done| |].
    + intros q Hq. apply Hmq in Hq as [Hq|Hq]; [|by apply Hlb'].
      destruct (Hp q Hq) as (y&Hy&Hyr). exists y. split; [|done]. unfold s'. cbn.
      rewrite lookup_insert_ne; [done|]. intros <-. destruct (Hap k b ltac:(done) Hin); lia.
    + intros i c Hi Hc. pose proof (lo_apart _ _ _ _ Hlb' i c Hi Hc) as Hcb.
      pose proof (Hap i c Hi (upd_sub _ _ _ _ _ _ _ E Hc)) as Hcp. pose proof (pow_pos i (proj1 Hi)) as Hpi.
      destruct (decide (c + 2 ^ i <= m)); [by left|]. destruct (decide (m + 2 ^ (k + 1) <= c)); [by right|].
      exfalso. pose proof (Hmq (Z.max c m)) as Hx'. lia.
Qed.

Lemma wp_merge fuel s fl p k (Q : Z * Z -> bstate -> Prop) :
  buddy_inv s fl (Some (p, k)) false -> 14 < k + Z.of_nat fuel ->
  (forall s' fl' p' k', buddy_inv s' fl' (Some (p', k')) false -> (k' < 14 -> Z.lxor p' (2 ^ k') ∉ fl' k') ->
     (forall q, free_in fl' q \/ p' <= q < p' + 2 ^ k' <-> free_in fl q \/ p <= q < p + 2 ^ k) -> Q (p', k') s') ->
  wp (merge fuel p k) Q s.
Proof.
  revert s fl p k. induction fuel as [|fuel IH]; intros s fl p k H Hf HQ; cbn [merge]; unfold MAX_ORDER;
    pose proof (lo_order _ _ _ _ (bi_held _ _ _ _ H _ _ eq_refl)) as Ho; unfold orders in Ho;
    destruct (Z.ltb_spec k 14); try lia.
  2:{ apply wp_ret. apply (HQ s fl p k); [done|lia|done]. }
  rewrite shiftl_1 by lia. set (b := Z.lxor p (2 ^ k)).
  pose proof (bi_held _ _ _ _ H _ _ eq_refl) as [_ Ha Hp _]. pose proof (pow_pos k ltac:(lia)) as Hpos.
  assert (E2 : 2 ^ (k + 1) = 2 ^ k + 2 ^ k) by (rewrite Z.pow_add_r by lia; lia).
  assert (Hb : is_Some (pages s !! b)).
  { destruct (Hp p ltac:(lia)) as (y&Hy&_). apply (bi_super _ _ _ _ H p); [eauto|].
    destruct (buddy_cases p k ltac:(lia) Ha) as [[E Hm]|[E Hm]]; fold b in E;
      (eapply (same_super _ (k + 1)); [lia|exact Hm|lia|lia]). }
  destruct Hb as [x Hx]. kstep. eapply wp_bpage_at; [exact Hx|].
  destruct (negb (reserved x) && prop_flag x && bool_decide (property x = 2 ^ k)) eqn:Et.
  - apply andb_true_iff in Et as [[_ Hfl]%andb_true_iff Hpr%bool_decide_eq_true].
    destruct (bi_flag _ _ _ _ H b x Hx Hfl) as [(i&Hi&Hbi)|[? _]]; [|done].
    assert (i = k) as ->.
    { destruct (bi_block _ _ _ _ H i b Hi Hbi) as (_&y&Hy&_&Hy2). rewrite Hx in Hy. injection Hy as <-.
      unfold orders in Hi. apply (Z.pow_inj_r 2); lia. }
    apply list_elem_of_split in Hbi as (l1&l2&E). kstep. unfold on_links. kstep.
    eapply wp_rings_del; [apply H|done|exact E|]. intros h Hs Hr. kstep.
    eapply wp_nr_upd; [cbn; by apply H|]. kstep. eapply wp_bpage_upd; [exact Hx|].
    destruct (inv_merge s fl p k l1 b l2 h x _ H ltac:(lia) eq_refl E Hs Hr eq_refl Hx) as [H' Hq].
    eapply IH; [exact H'|lia|]. intros s' fl' p' k' H2 Hm Hq'. apply (HQ s' fl' p' k'); [done|done|].
    intros q. by rewrite Hq', Hq.
  - apply wp_ret. apply (HQ s fl p k); [done| |done]. intros _ Hin. fold b in Hin.
    destruct (bi_block _ _ _ _ H k b Ho Hin) as (_&y&Hy&Hyf&Hyp). rewrite Hx in Hy. injection Hy as <-.
    destruct (bi_pages _ _ _ _ H k b b Ho Hin ltac:(lia)) as (y&Hy&Hyr&_). rewrite Hx in Hy. injection Hy as <-.
    rewrite Hyr, Hyf, bool_decide_true in Et by done. done.
Qed.

(** A run that can be given back: it exists, is aligned, and no page of it is free. *)
Definition returnable (s : bstate) (fl : Z -> list Z) (base n : Z) : Prop :=
  0 < n <= 2 ^ 14 /\ base mod 2 ^ get_order n = 0 /\
  forall q, base <= q < base + 2 ^ get_order n -> is_Some (pages s !! q) /\ ~ free_in fl q.

Lemma head_free fl i p : orders i -> p ∈ fl i -> free_in fl p.
Proof. intros Hi Hp. exists i, p. pose proof (pow_pos i (proj1 Hi)). split_and!; [done|done|lia|lia]. Qed.

Lemma wp_clear_pages n s fl p (Q : () -> bstate -> Prop) :
  buddy_inv s fl None false ->
  (forall q, p <= q < p + Z.of_nat n -> is_Some (pages s !! q) /\ ~ free_in fl q) ->
  (forall s', buddy_inv s' fl None false -> (forall q, usable s q \/ p <= q < p + Z.of_nat n -> usable s' q) -> Q () s') ->
  wp (clear_pages n p) Q s.
Proof.
  revert s p. induction n as [|n IH]; intros s p H Hp HQ; cbn [clear_pages].
  - apply wp_ret, HQ; [done|]. intros q [?|]; [done|lia].
  - destruct (Hp p ltac:(lia)) as [[x Hx] Hnf]. kstep. eapply wp_bpage_upd; [exact Hx|].
    assert (Hs : forall q, is_Some (pages s !! q) -> is_Some (<[p := clear_flags x]> (pages s) !! q)).
    { intros q Hq. destruct (decide (q = p)) as [->|]; [rewrite lookup_insert_eq; eauto|by rewrite lookup_insert_ne]. }
    apply IH.
    + eapply inv_set_page; [done|exact Hx|intros i Hi Hin; by apply Hnf, (head_free _ i)|done|done].
    + intros q Hq. destruct (Hp q ltac:(lia)). split; [by apply Hs|done].
    + intros s' H' Hu. apply HQ; [done|]. intros q Hq. apply Hu.
      destruct (decide (q = p)) as [->|Hne].
      * left. exists (clear_flags x). split; [apply lookup_insert_eq|done].
      * destruct Hq as [(y&Hy&Hyr)|Hq]; [|right; lia]. left. exists y. split; [|done]. cbn. by rewrite lookup_insert_ne.
Qed.

Lemma wp_buddy_free s fl base n (Q : () -> bstate -> Prop) :
  buddy_inv s fl None false -> returnable s fl base n ->
  (forall s' fl', buddy_inv s' fl' None false ->
     (forall q, free_in fl' q <-> free_in fl q \/ base <= q < base + 2 ^ get_order n) -> Q () s') ->
  wp (buddy_free_pages base n) Q s.
Proof.
  intros H (Hn&Ha&Hp) HQ. unfold buddy_free_pages. kstep. kstep; [apply Z.ltb_lt; lia|]. kstep.
  destruct (get_order_spec n ltac:(lia)) as (Hk0&Hk14&_&_). set (k := get_order n) in *. clearbody k.
  pose proof (pow_pos k Hk0) as Hpos. rewrite shiftl_1 by lia.
  eapply wp_clear_pages; [done|rewrite Z2Nat.id by lia; exact Hp|]. rewrite Z2Nat.id by lia. intros s1 H1 Hu.
  assert (H2 : buddy_inv s1 fl (Some (base, k)) false).
  { split; try apply H1.
    - intros q y Hy Hf. left. by destruct (bi_flag _ _ _ _ H1 q y Hy Hf) as [?|[? _]].
    - intros q j [= <- <-]. split; [unfold orders; lia|done|intros q Hq; apply Hu; by right|].
      intros i b Hi Hb. pose proof (pow_pos i (proj1 Hi)).
      destruct (decide (b + 2 ^ i <= base)); [by left|]. destruct (decide (base + 2 ^ k <= b)); [by right|].
      exfalso. destruct (Hp (Z.max b base) ltac:(lia)) as [_ Hnf]. apply Hnf. exists i, b. split_and!; [done|done|lia|lia]. }
  kstep. eapply wp_merge; [exact H2|lia|]. intros s2 fl2 p2 k2 H3 Hm Hq.
  pose proof (bi_held _ _ _ _ H3 _ _ eq_refl) as Hl.
  eapply (wp_put_block s2 fl2 _ _ _ _ None); [exact H3|exact Hl|exact Hm|done|done|].
  intros s3 H4. apply (HQ s3 _ H4). intros q. rewrite free_in_add by apply Hl. apply Hq.
Qed.

(** ** Reference counts *)

#[export] Instance bstate_store : PageStore bstate := {| ps_pages := pages; ps_set := set_pages; ps_pages_set _ _ := eq_refl |}.

Definition same_refs (s0 s : bstate) : Prop := forall q, ref_of s q = ref_of s0 q.

Lemma ref_of_insert (s : bstate) p x q :
  is_Some (pages s !! p) ->
  ref_of (set_pages (<[p := x]> (pages s)) s) q = if decide (q = p) then Some (ref x) else ref_of s q.
Proof.
  intros _. unfold ref_of. cbn. case_decide as E; [subst; by rewrite lookup_insert_eq|by rewrite lookup_insert_ne].
Qed.

Section same_refs.
Context (s0 : bstate).

Lemma keeps_links {A} (m : K store A) : keeps (same_refs s0) (on_links m).
Proof. by apply keeps_zoom. Qed.

Lemma keeps_upd p f : (forall x, ref (f x) = ref x) -> keeps (same_refs s0) (page_upd p f).
Proof.
  intros Hf s a s' (x&s1&E&[= _ <-])%bind_Done Hs q. unfold page_at, unwrap in E.
  destruct (pages s !! p) as [y|] eqn:Ey; [|done]. injection E as <- <-.
  rewrite ref_of_insert by eauto. case_decide as Eq; [|apply Hs]. subst q. rewrite <-Hs. unfold ref_of. cbn.
  by rewrite Ey, Hf.
Qed.

Lemma keeps_page_at p : keeps (same_refs s0) (page_at p).
Proof. intros s a s'. unfold page_at, unwrap. destruct (pages s !! p); [|done]. by intros [= _ <-]. Qed.

Lemma keeps_nr_upd i d : keeps (same_refs s0) (nr_upd i d).
Proof.
  intros s a s' (n&s1&E&[= _ <-])%bind_Done Hs. unfold nr_at, unwrap in E.
  destruct (nr_free s !! i); [|done]. by injection E as _ <-.
Qed.

Hint Resolve keeps_links keeps_page_at keeps_nr_upd : kernel.
Hint Extern 1 (keeps _ (page_upd _ _)) => apply keeps_upd; reflexivity : kernel.

Lemma keeps_put_block p k : keeps (same_refs s0) (put_block p k).
Proof. unfold put_block. kkeeps. Qed.
Hint Resolve keeps_put_block : kernel.

Lemma keeps_split n page cur : keeps (same_refs s0) (split n page cur).
Proof. revert cur. induction n; intros cur; cbn [split]; kkeeps. Qed.
Hint Resolve keeps_split : kernel.

Lemma keeps_buddy_alloc n : keeps (same_refs s0) (buddy_alloc_pages n).
Proof.
  unfold buddy_alloc_pages. apply keeps_bind; [kkeeps|intros _]. cbv zeta. case_match; [kkeeps|].
  generalize (get_order n) at 2. generalize 15%nat. intros fuel.
  induction fuel as [|fuel IH]; intros cur; cbn [alloc_from]; kkeeps.
Qed.

Lemma keeps_merge fuel p k : keeps (same_refs s0) (merge fuel p k).
Proof. revert p k. induction fuel; intros p k; cbn [merge]; kkeeps. Qed.
End same_refs.

Lemma wp_clear_refs n s p (Q : () -> bstate -> Prop) :
  wp (clear_pages n p) Q s ->
  wp (clear_pages n p) (fun a s' => Q a s' /\
    forall q, ref_of s' q = if decide (p <= q < p + Z.of_nat n) then Some 0 else ref_of s q) s.
Proof.
  revert s p. induction n as [|n IH]; intros s p; cbn [clear_pages].
  - intros H. apply wp_ret. split; [exact H|]. intros q. rewrite decide_False by lia. done.
  - unfold page_upd. intros H. unfold wp, mbind, K_bind, page_at, unwrap, modify in H |- *.
    destruct (pages s !! p) as [x|] eqn:Ex; [|done]. fold (wp (clear_pages n (p + 1)) Q (set_pages (<[p:=clear_flags x]> (pages s)) s)) in H.
    apply IH in H. eapply wp_mono; [exact H|]. intros a s' [HQ Hr]. split; [done|]. intros q. rewrite Hr.
    rewrite ref_of_insert by eauto. repeat case_decide; try lia; done.
Qed.

(** ** Properties *)

(** The buddy allocator serves a request of [n] pages from the
    lowest order that has a block at all, and returns an aligned block of the
    least power of two that is at least [n]; the rest of the block it has split
    stays free, and no two free blocks are buddies of each other.  It fails, and
    changes nothing, exactly when no block is large enough. *)
Theorem buddy_alloc_pages_spec s fl n :
  buddy_inv s fl None false -> 0 < n ->
  wp (buddy_alloc_pages n) (fun o s' =>
    match o with
    | None => s' = s /\ forall j p, orders j -> p ∈ fl j -> 2 ^ j < n
    | Some page => exists k fl', 0 <= k <= 14 /\ n <= 2 ^ k /\ (k = 0 \/ 2 ^ (k - 1) < n) /\
        (exists j, k <= j /\ hd_error (fl j) = Some page /\ forall i, k <= i < j -> fl i = []) /\
        granted s fl page k s' fl'
    end) s.
Proof.
  intros H Hn. unfold buddy_alloc_pages. kstep. kstep; [by apply Z.ltb_lt|].
  destruct (get_order_spec n Hn) as (Hk0&Hk14&Hkn&Hkm). set (k := get_order n) in *. clearbody k. unfold MAX_ORDER.
  cbv zeta. destruct (Z.gtb_spec k 14) as [Hgt|Hle].
  - apply wp_ret. split; [done|]. intros j p Hj _. unfold orders in Hj. apply Hkm; lia.
  - eapply wp_alloc_from; [done|done|lia|lia|lia| |].
    + intros He. split; [done|]. intros j p Hj Hin. destruct (decide (k <= j)) as [Hkj|].
      * rewrite (He j Hj Hkj) in Hin. by apply not_elem_of_nil in Hin.
      * unfold orders in Hj. apply Hkm; lia.
    + intros j page l s' fl' Hj Hkj E He Hg. exists k, fl'. split_and!; [lia|lia|auto| | |done].
      * destruct (decide (k = 0)); [by left|right; apply Hkm; lia].
      * exists j. rewrite E. done.
Qed.

(** Property C25. Giving back an aligned run of pages that are not free makes
    exactly its block (the power of two the allocator granted) free again, merged
    as far as it goes: afterwards, too, no two free blocks are buddies. *)
Theorem buddy_free_pages_spec s fl base n :
  buddy_inv s fl None false -> returnable s fl base n ->
  wp (buddy_free_pages base n) (fun _ s' => exists fl', buddy_inv s' fl' None false /\
    (forall q, free_in fl' q <-> free_in fl q \/ base <= q < base + 2 ^ get_order n) /\
    (forall i p, orders i -> i < 14 -> p ∈ fl' i -> Z.lxor p (2 ^ i) ∉ fl' i)) s.
Proof.
  intros H Hr. eapply wp_buddy_free; [eassumption|eassumption|]. intros s' fl' H' Hq. exists fl'.
  split_and!; [done|done|]. intros i p ? ? ?. by apply (bi_merged _ _ _ _ H').
Qed.

(** ** The contracts *)

(** The free pages, read off the descriptors. *)
Definition page_free (s : bstate) (q : Z) : Prop :=
  exists p x, pages s !! p = Some x /\ prop_flag x = true /\ p <= q < p + property x.

Lemma page_free_in s fl q : buddy_inv s fl None false -> page_free s q <-> free_in fl q.
Proof.
  intros H. split.
  - intros (p&x&Hx&Hf&Hq). destruct (bi_flag _ _ _ _ H p x Hx Hf) as [(i&Hi&Hp)|[? _]]; [|done].
    destruct (bi_block _ _ _ _ H i p Hi Hp) as (_&y&Hy&_&Hpr). rewrite Hx in Hy. injection Hy as <-.
    exists i, p. by rewrite <-Hpr.
  - intros (i&p&Hi&Hp&Hq). destruct (bi_block _ _ _ _ H i p Hi Hp) as (_&x&Hx&Hf&Hpr). exists p, x. by rewrite Hpr.
Qed.

Definition granted_size (n : Z) : Z := if get_order n <=? 14 then 2 ^ get_order n else n.

Lemma granted_size_eq n : n <= 2 ^ 14 -> 0 < n -> granted_size n = 2 ^ get_order n.
Proof. intros H Hn. unfold granted_size. destruct (get_order_spec n Hn) as (_&[_ E]&_). rewrite (proj2 (Z.leb_le _ _)) by auto. done. Qed.

Lemma wp_buddy_alloc s fl n (Q : option Z -> bstate -> Prop) :
  buddy_inv s fl None false -> 0 < n -> Q None s ->
  (forall page s' fl', n <= 2 ^ 14 -> granted s fl page (get_order n) s' fl' -> Q (Some page) s') ->
  wp (buddy_alloc_pages n) Q s.
Proof.
  intros H Hn HN HS. unfold buddy_alloc_pages. kstep. kstep; [by apply Z.ltb_lt|]. cbv zeta. unfold MAX_ORDER.
  destruct (get_order_spec n Hn) as (Hk0&Hk14&_&_). destruct (Z.gtb_spec (get_order n) 14).
  - by apply wp_ret.
  - eapply wp_alloc_from; [exact H|done|lia|lia|lia|done|]. intros j page l s' fl' _ _ _ _ Hg.
    apply (HS page s' fl'); [by apply Hk14|done].
Qed.

#[export] Program Instance buddy_PhysAlloc : PhysAlloc buddy_pmm_manager := {|
  pa_inv s := exists fl, buddy_inv s fl None false;
  pa_free := page_free;
  pa_size := granted_size;
  pa_freeable s base n := exists fl, buddy_inv s fl None false /\ returnable s fl base n;
|}.
Next Obligation.
  intros n Hn. cbn. unfold granted_size. destruct (get_order_spec n Hn) as (_&_&H&_).
  destruct (Z.leb_spec (get_order n) 14); [auto|lia].
Qed.
Next Obligation.
  intros s n [fl H] Hn. cbn. apply (wp_buddy_alloc s fl); [done|done|split; [by exists fl|done]|].
  intros page s' fl' Hn' (H'&Hl&Hq). split; [by exists fl'|]. rewrite granted_size_eq by done. unfold run_of.
  split; intros q; rewrite !(page_free_in _ _ q H), ?(page_free_in _ _ q H'), Hq; [tauto|].
  pose proof (fun Hf => loose_not_free _ _ _ _ q Hl Hf). tauto.
Qed.
Next Obligation.
  intros s base n _ (fl&H&Hr). cbn. eapply wp_buddy_free; [done|done|]. intros s' fl' H' Hq. split; [by exists fl'|].
  intros q. destruct Hr as (Hn&_). rewrite (page_free_in _ _ q H), (page_free_in _ _ q H'), Hq, granted_size_eq by lia.
  done.
Qed.

#[export] Instance buddy_PiecewiseAlloc : PiecewiseAlloc buddy_pmm_manager.
Proof.
  split; [done|]. intros s n [fl H] Hn. cbn. apply (wp_buddy_alloc s fl); [done|done|done|]. intros page s' fl' _ (H'&Hl&_) p [= <-].
  exists fl'. split; [done|]. split_and!; [lia|lia|apply Z.mod_1_r|]. intros q Hq. change (2 ^ get_order 1) with 1 in Hq.
  assert (q = page) as -> by lia. destruct (get_order_spec n Hn) as (Hk&_). pose proof (pow_pos _ Hk).
  split; [destruct (lo_pages _ _ _ _ Hl page ltac:(lia)) as (x&Hx&_); by exists x|].
  intros Hf. by eapply (loose_not_free _ _ _ _ page Hl Hf); lia.
Qed.

Lemma wp_free_refs s base n (Q : () -> bstate -> Prop) :
  wp (buddy_free_pages base n) Q s ->
  wp (buddy_free_pages base n) (fun a s' => Q a s' /\
    forall q, ref_of s' q = if decide (base <= q < base + Z.of_nat (Z.to_nat (Z.shiftl 1 (get_order n)))) then Some 0 else ref_of s q) s.
Proof.
  unfold buddy_free_pages. intros H%wp_bind_inv. kstep. unfold assert in *. destruct (0 <? n); [|done]. unfold wp at 1 in H.
  unfold wp at 1. cbv zeta in *. apply wp_bind_inv in H. apply wp_bind. apply wp_clear_refs in H.
  eapply wp_mono; [exact H|]. intros [] s1 [H1 Hr]. eapply wp_mono.
  - eapply (keeps_wp (same_refs s1)); [|done|exact H1]. apply keeps_bind; [apply keeps_merge|].
    intros [p k]. apply keeps_put_block.
  - intros a s' [HQ Hs]. split; [done|]. intros q. by rewrite Hs, Hr.
Qed.

#[export] Program Instance buddy_PageAlloc : PageAlloc buddy_pmm_manager := {|
  pg_inv s := exists fl, buddy_inv s fl None false;
  pg_free := page_free;
|}.
Next Obligation. intros s p [fl H] Hp. apply (bi_cells _ _ _ _ H). unfold ref_of in Hp. by apply fmap_is_Some in Hp. Qed.
Next Obligation.
  intros s p [fl H] Hp. apply (page_free_in _ _ _ H) in Hp as (i&b&Hi&Hb&Hp).
  destruct (bi_pages _ _ _ _ H i b p Hi Hb Hp) as (x&Hx&_&Hr). unfold ref_of. cbn. by rewrite Hx, <-Hr.
Qed.
Next Obligation.
  intros s [fl H]. cbn. eapply wp_mono.
  - eapply (keeps_wp (same_refs s)); [apply keeps_buddy_alloc|done|].
    apply (wp_buddy_alloc s fl 1 (fun o s' => (exists fl, buddy_inv s' fl None false) /\
      match o with
      | None => forall q, page_free s' q <-> page_free s q
      | Some p => page_free s p /\ forall q, page_free s' q <-> page_free s q /\ q <> p
      end)); [done|done|split; [by exists fl|done]|].
    intros page s' fl' _ (H'&Hl&Hq). split; [by exists fl'|]. change (get_order 1) with 0 in *. change (2 ^ 0) with 1 in *.
    rewrite (page_free_in _ _ page H), Hq. split; [right; lia|]. intros q.
    rewrite (page_free_in _ _ q H), (page_free_in _ _ q H'), Hq.
    pose proof (fun Hf => loose_not_free _ _ _ _ q Hl Hf) as Hn. change (2 ^ 0) with 1 in Hn.
    assert (page <= q < page + 1 <-> q = page) by lia. tauto.
  - intros o s' [[Hi Ho] Hr]. split_and!; done.
Qed.
Next Obligation.
  intros s p [fl H] Hp Hnf. cbn. eapply wp_mono.
  - apply wp_free_refs. apply (wp_buddy_free s fl p 1 (fun _ s' => exists fl', buddy_inv s' fl' None false /\
       forall q, free_in fl' q <-> free_in fl q \/ p <= q < p + 2 ^ get_order 1)); [done| |eauto].
    split; [lia|]. split; [apply Z.mod_1_r|]. intros q Hq. change (2 ^ get_order 1) with 1 in Hq. replace q with p by lia.
    rewrite <-(page_free_in _ _ p H). split; [|done]. unfold ref_of in Hp. by apply fmap_is_Some in Hp.
  - intros [] s' [(fl'&H'&Hq) Hr]. split; [by exists fl'|]. change (Z.of_nat (Z.to_nat (Z.shiftl 1 (get_order 1)))) with 1 in Hr.
    split; intros q; [rewrite Hr; repeat case_decide; try lia; done|].
    rewrite (page_free_in _ _ q H), (page_free_in _ _ q H'), Hq. change (2 ^ get_order 1) with 1.
    assert (p <= q < p + 1 <-> q = p) by lia. tauto.
Qed.
Next Obligation.
  intros s p v [fl H] Hp Hnf. unfold ref_of in Hp. apply fmap_is_Some in Hp as [x Hx]. cbn in Hx.
  unfold set_page_ref. kstep. kstep. kstep. kstep; [exact Hx|]. kstep. cbn [ps_set ps_pages bstate_store].
  rewrite (page_free_in _ _ _ H) in Hnf.
  assert (H' : buddy_inv (set_pages (<[p := set_ref v x]> (pages s)) s) fl None false).
  { eapply inv_set_page; [done|done| |tauto|done]. intros i Hi Hin. by apply Hnf, (head_free _ i). }
  split; [by exists fl|]. split; intros q; [apply ref_of_insert; eauto|].
  by rewrite (page_free_in _ _ q H), (page_free_in _ _ q H').
Qed.

(** ** Witnesses: 16384 pages, of which the upper half is one free block. *)

Definition ex_lists (i : Z) : list Z := if decide (i = 13) then [8192] else [].
Definition ex_desc (flag : bool) (k : Z) : page := mk_page 0 false flag k.
Definition ex_state : bstate := mk_bstate
  (<[8192 := ex_desc true 8192]> (gset_to_gmap (ex_desc false 0) (list_to_set (seqZ 0 16384))))
  (<[8192 := mk_entry (-14) (-14)]> (<[-14 := mk_entry 8192 8192]>
     (set_to_map (fun q => (q, mk_entry q q)) (list_to_set (seqZ (-15) 16399) : gset Z))))
  (<[13 := 1]> (gset_to_gmap 0 (list_to_set (seqZ 0 15)))).

Lemma ex_pages_lookup q x :
  pages ex_state !! q = Some x <-> 0 <= q < 16384 /\ x = if decide (q = 8192) then ex_desc true 8192 else ex_desc false 0.
Proof.
  unfold ex_state. cbn [pages]. case_decide as E.
  - subst. rewrite lookup_insert_eq. split; [intros [= <-]; split; [lia|done]|intros [_ ->]; done].
  - rewrite lookup_insert_ne, lookup_gset_to_gmap_Some, elem_of_list_to_set, elem_of_seqZ by done. naive_solver lia.
Qed.

Lemma ex_links_lookup q : - 15 <= q < 16384 -> links ex_state !! q =
  Some (if decide (q = 8192) then mk_entry (-14) (-14) else if decide (q = -14) then mk_entry 8192 8192 else mk_entry q q).
Proof.
  intros Hq. unfold ex_state. cbn [links]. case_decide as E; [subst; by rewrite lookup_insert_eq|].
  rewrite lookup_insert_ne by done. case_decide as E'; [subst; by rewrite lookup_insert_eq|].
  rewrite lookup_insert_ne by done. apply (lookup_set_to_map (M := gmap Z)); [by intros ????|].
  exists q. split; [|done]. rewrite elem_of_list_to_set, elem_of_seqZ. lia.
Qed.

Lemma ex_in_lists i p : p ∈ ex_lists i <-> i = 13 /\ p = 8192.
Proof. unfold ex_lists. case_decide; [rewrite list_elem_of_singleton; naive_solver|rewrite elem_of_nil; naive_solver]. Qed.

Lemma ex_inv : buddy_inv ex_state ex_lists None false.
Proof.
  split.
  - split.
    + intros i Hi. unfold orders in Hi. split.
      * unfold ex_lists. case_decide; [|apply NoDup_singleton].
        apply NoDup_cons. split; [rewrite list_elem_of_singleton; unfold HEAD; lia|apply NoDup_singleton].
      * unfold ex_lists, linked, nxt, prv. case_decide; [subst i; change (HEAD 13) with (-14); by rewrite !ex_links_lookup by lia|].
        assert (- 15 <= HEAD i <= -1 /\ HEAD i <> -14) as [? ?] by (unfold HEAD; lia).
        rewrite !ex_links_lookup by lia. rewrite !decide_False by lia. done.
    + intros i p _ [_ ->]%ex_in_lists. lia.
    + intros i j p _ _ [-> _]%ex_in_lists [-> _]%ex_in_lists. done.
  - intros p [x [Hp _]%ex_pages_lookup]. split; [lia|]. rewrite ex_links_lookup by lia. eauto.
  - intros q r [x [Hp _]%ex_pages_lookup] E. eexists. apply ex_pages_lookup. split; [|reflexivity].
    change (2 ^ 14) with 16384 in E. rewrite (Z.div_small q) in E by lia. symmetry in E. apply Z.div_small_iff in E; lia.
  - intros i p _ [-> ->]%ex_in_lists. split; [done|]. exists (ex_desc true 8192). split; [|done]. by apply ex_pages_lookup.
  - intros i p q _ [-> ->]%ex_in_lists Hq. change (2 ^ 13) with 8192 in Hq.
    eexists. split; [apply ex_pages_lookup; split; [lia|reflexivity]|]. by case_decide.
  - intros q x [Hq ->]%ex_pages_lookup. case_decide; [|done]. intros _. left. exists 13.
    split; [unfold orders; lia|by apply ex_in_lists].
  - intros i j p q _ _ [-> ->]%ex_in_lists [-> ->]%ex_in_lists. lia.
  - intros i p _ _ [-> ->]%ex_in_lists. rewrite ex_in_lists. intros [_ E]. vm_compute in E. done.
  - intros i Hi. unfold ex_state. cbn [nr_free]. unfold ex_lists, orders in *. case_decide; [subst; by rewrite lookup_insert_eq|].
    rewrite lookup_insert_ne by done. apply lookup_gset_to_gmap_Some. split; [|done].
    rewrite elem_of_list_to_set, elem_of_seqZ. lia.
  - done.
Qed.

Lemma ex_returnable : returnable ex_state ex_lists 4 3.
Proof.
  split; [lia|]. split; [done|]. change (2 ^ get_order 3) with 4. intros q Hq. split.
  - eexists. apply ex_pages_lookup. split; [lia|reflexivity].
  - intros (i&p&_&[-> ->]%ex_in_lists&Hp). lia.
Qed.

Lemma buddy_alloc_pages_spec_witness :
  wp (buddy_alloc_pages 3) (fun o s' =>
    match o with
    | None => s' = ex_state /\ forall j p, orders j -> p ∈ ex_lists j -> 2 ^ j < 3
    | Some page => exists k fl', 0 <= k <= 14 /\ 3 <= 2 ^ k /\ (k = 0 \/ 2 ^ (k - 1) < 3) /\
        (exists j, k <= j /\ hd_error (ex_lists j) = Some page /\ forall i, k <= i < j -> ex_lists i = []) /\
        granted ex_state ex_lists page k s' fl'
    end) ex_state.
Proof. refine (buddy_alloc_pages_spec ex_state ex_lists 3 ex_inv _). lia. Defined.

Lemma buddy_free_pages_spec_witness :
  wp (buddy_free_pages 4 3) (fun _ s' => exists fl', buddy_inv s' fl' None false /\
    (forall q, free_in fl' q <-> free_in ex_lists q \/ 4 <= q < 4 + 2 ^ get_order 3) /\
    (forall i p, orders i -> i < 14 -> p ∈ fl' i -> Z.lxor p (2 ^ i) ∉ fl' i)) ex_state.
Proof. exact (buddy_free_pages_spec ex_state ex_lists 4 3 ex_inv ex_returnable). Defined.
