(* ===== verification/Slub.v ===== *)
(** kern/mm/slub.c: the allocator of small objects behind [kmalloc].  A cache
    cuts pages into objects of one size; the free objects of a page are chained
    through their first words, and a chain of the cache itself (the cpu freelist)
    serves allocation and release.  Pages come from any page allocator.

    A [kmem_cache] is kept apart from the page descriptors, although C stores it
    in the memory of a descriptor and of the first word of the next one (see the
    findings).  The invariant is in [SlubHeap]. *)
From S2P Require Import Prelude PmmManager.
#[local] Abbreviation length := Datatypes.length.

(** ** slub.h, memlayout.h *)

Definition PGSIZE := 4096.
Definition KERNBASE := 0xFFFFFFFFC0200000.
Definition va_pa_offset := 0xFFFFFFFF40000000.
Definition nbase := 0x80000.
Definition SLUB_SIZE_COUNT := 8.
Definition SLUB_CPU_BATCH : nat := 8.
Definition SLUB_CPU_LIMIT := 32.
Definition size_table : list Z := [16; 32; 64; 128; 256; 512; 1024; 2048].

(** The part of a page descriptor that belongs to a slab; [on_partial] says that
    [page_link.next] is not NULL.  A page has such a part when [PG_slab] is set. *)
Record slab := mk_slab {
  on_partial : bool;
  freelist : Z;
  s_mem : Z;
  inuse : Z;
  objects : Z;
  slab_cache : Z;
}.
Definition set_on_partial (v : bool) (x : slab) := mk_slab v (freelist x) (s_mem x) (inuse x) (objects x) (slab_cache x).
Definition set_freelist (v : Z) (x : slab) := mk_slab (on_partial x) v (s_mem x) (inuse x) (objects x) (slab_cache x).
Definition set_inuse (v : Z) (x : slab) := mk_slab (on_partial x) (freelist x) (s_mem x) v (objects x) (slab_cache x).

(** The list [node.partial] is a list of pages (see [Dlist]). *)
Record kmem_cache := mk_cache {
  c_size : Z;
  c_align : Z;
  objects_per_slab : Z;
  cpu_freelist : Z;
  cpu_page : option Z;
  freelist_count : Z;
  partial : list Z;
  nr_partial : Z;
  alloc_count : Z;
  free_count : Z;
  active_slabs : Z;
}.
Definition set_cpu (fl n : Z) (c : kmem_cache) := mk_cache (c_size c) (c_align c) (objects_per_slab c) fl (cpu_page c) n (partial c) (nr_partial c) (alloc_count c) (free_count c) (active_slabs c).
Definition set_cpu_page (p : option Z) (c : kmem_cache) := mk_cache (c_size c) (c_align c) (objects_per_slab c) (cpu_freelist c) p (freelist_count c) (partial c) (nr_partial c) (alloc_count c) (free_count c) (active_slabs c).
Definition set_partial (l : list Z) (n : Z) (c : kmem_cache) := mk_cache (c_size c) (c_align c) (objects_per_slab c) (cpu_freelist c) (cpu_page c) (freelist_count c) l n (alloc_count c) (free_count c) (active_slabs c).
Definition set_counts (a f k : Z) (c : kmem_cache) := mk_cache (c_size c) (c_align c) (objects_per_slab c) (cpu_freelist c) (cpu_page c) (freelist_count c) (partial c) (nr_partial c) a f k.

Section slub.
Context {St : Type} (pm : pmm_manager St).

(** [caches] maps the pointer returned for a cache to the cache; [heap] holds the
    words that link free objects. *)
Record slub := mk_slub {
  pmm : St;
  slabs : gmap Z slab;
  caches : gmap Z kmem_cache;
  slub_caches : list Z;
  slub_initialized : bool;
  heap : gmap Z Z;
}.
Definition set_pmm (v : St) (s : slub) := mk_slub v (slabs s) (caches s) (slub_caches s) (slub_initialized s) (heap s).
Definition set_slabs (v : gmap Z slab) (s : slub) := mk_slub (pmm s) v (caches s) (slub_caches s) (slub_initialized s) (heap s).
Definition set_caches (v : gmap Z kmem_cache) (s : slub) := mk_slub (pmm s) (slabs s) v (slub_caches s) (slub_initialized s) (heap s).
Definition set_slub_caches (v : list Z) (b : bool) (s : slub) := mk_slub (pmm s) (slabs s) (caches s) v b (heap s).
Definition set_heap (v : gmap Z Z) (s : slub) := mk_slub (pmm s) (slabs s) (caches s) (slub_caches s) (slub_initialized s) v.

Definition on_pmm {A} (m : K St A) : K slub A := zoom pmm set_pmm m.
Definition slab_at (p : Z) : K slub slab := fun s => unwrap (slabs s !! p) s.
Definition slab_upd (p : Z) (f : slab -> slab) : K slub () := x ← slab_at p; modify (fun s => set_slabs (<[p := f x]> (slabs s)) s).
Definition cache_at (k : Z) : K slub kmem_cache := fun s => unwrap (caches s !! k) s.
Definition cache_upd (k : Z) (f : kmem_cache -> kmem_cache) : K slub () :=
  x ← cache_at k; modify (fun s => set_caches (<[k := f x]> (caches s)) s).

(** A word of the kernel's memory. *)
Definition load (a : Z) : K slub Z := assert (KERNBASE <=? a);; s ← get; mret (default 0 (heap s !! a)).
Definition store (a v : Z) : K slub () := assert (KERNBASE <=? a);; modify (fun s => set_heap (<[a := v]> (heap s)) s).

(** ** Addresses *)

Definition page_to_virt (page : Z) : Z := u64 (Z.shiftl (page + nbase) 12 + va_pa_offset).

(** [PADDR] panics below the kernel's addresses.  For NULL the code returns
    NULL, which every caller dereferences: both are a panic here.  [page2kva]
    gives the address of [page_to_virt]; its check of the page number always
    passes for a page of the array. *)
Definition virt_to_page (addr : Z) : K slub Z :=
  assert (KERNBASE <=? addr);; mret (Z.shiftr (u64 (addr - va_pa_offset)) 12 - nbase).

(** ** The lists *)

Definition add_partial (k page : Z) : K slub () :=
  x ← slab_at page;
  if on_partial x then mret ()
  else
    slab_upd page (set_on_partial true);;
    cache_upd k (fun c => set_partial (page :: partial c) (u64 (nr_partial c + 1)) c).

Definition remove_partial (k page : Z) : K slub () :=
  x ← slab_at page;
  if negb (on_partial x) then mret ()
  else
    slab_upd page (set_on_partial false);;
    cache_upd k (fun c => set_partial (filter (fun q => q <> page) (partial c)) (u64 (nr_partial c - 1)) c).

Definition cpu_push (k object : Z) : K slub () :=
  c ← cache_at k;
  store object (cpu_freelist c);;
  cache_upd k (fun c => set_cpu object (u32 (freelist_count c + 1)) c).

Definition cpu_pop (k : Z) : K slub Z :=
  c ← cache_at k;
  let object := cpu_freelist c in
  next ← load object;
  cache_upd k (fun c => set_cpu next (u32 (freelist_count c - 1)) c);;
  mret object.

(** The body of the loops of [flush_cpu_freelist] and [drain_cpu_freelist]. *)
Definition spill (k : Z) : K slub () :=
  object ← cpu_pop k;
  page ← virt_to_page object;
  x ← slab_at page;
  store object (freelist x);;
  slab_upd page (set_freelist object);;
  c ← cache_at k;
  when (bool_decide (Some page <> cpu_page c) && (inuse x <? objects x)) (add_partial k page).

Fixpoint spill_while (fuel : nat) (limit : option Z) (k : Z) : K slub () :=
  c ← cache_at k;
  if bool_decide (cpu_freelist c <> 0) && match limit with Some n => n <? freelist_count c | None => true end then
    match fuel with
    | O => timeout
    | S fuel => spill k;; spill_while fuel limit k
    end
  else mret ().

Definition flush_cpu_freelist (k : Z) : K slub () :=
  c ← cache_at k; spill_while (S (Z.to_nat (freelist_count c))) (Some SLUB_CPU_LIMIT) k.
Definition drain_cpu_freelist (k : Z) : K slub () :=
  c ← cache_at k; spill_while (S (Z.to_nat (freelist_count c))) None k.

(** ** Slabs *)

(** The loop of [init_slab_freelist]. *)
Fixpoint link_objects (n : nat) (current size : Z) : K slub Z :=
  match n with
  | O => mret current
  | S n => store current (u64 (current + size));; link_objects n (u64 (current + size)) size
  end.

Definition init_slab_freelist (k page : Z) : K slub () :=
  c ← cache_at k;
  let addr := page_to_virt page in
  slab_upd page (fun x => mk_slab (on_partial x) (freelist x) addr 0 (objects_per_slab c) k);;
  last ← link_objects (Z.to_nat (u32 (objects_per_slab c - 1))) addr (c_size c);
  store last 0;;
  slab_upd page (set_freelist addr).

Definition allocate_slab (k : Z) : K slub (option Z) :=
  o ← on_pmm (alloc_pages pm 1);
  match o with
  | None => mret None
  | Some page =>
      modify (fun s => set_slabs (<[page := mk_slab false 0 0 0 0 0]> (slabs s)) s);;
      init_slab_freelist k page;;
      cache_upd k (fun c => set_counts (alloc_count c) (free_count c) (u64 (active_slabs c + 1)) c);;
      mret (Some page)
  end.

Definition free_slab (k page : Z) : K slub () :=
  x ← slab_at page;
  assert (inuse x =? 0);;
  modify (fun s => set_slabs (delete page (slabs s)) s);;
  on_pmm (free_pages pm page 1);;
  cache_upd k (fun c => set_counts (alloc_count c) (free_count c) (u64 (active_slabs c - 1)) c).

Definition acquire_slab (k : Z) : K slub (option Z) :=
  c ← cache_at k;
  x ← match cpu_page c with Some p => x ← slab_at p; mret (Some x) | None => mret None end;
  if match x with Some x => bool_decide (freelist x <> 0) | None => false end then mret (cpu_page c)
  else
    when (match x with
          | Some x => bool_decide (freelist x = 0) && bool_decide (cpu_freelist c = 0) && (inuse x =? objects x)
          | None => false
          end) (cache_upd k (set_cpu_page None));;
    match partial c with
    | page :: _ => remove_partial k page;; cache_upd k (set_cpu_page (Some page));; mret (Some page)
    | [] =>
        o ← allocate_slab k;
        match o with
        | Some page => cache_upd k (set_cpu_page (Some page));; mret o
        | None => mret None
        end
    end.

Fixpoint refill_loop (batch : nat) (k page : Z) : K slub () :=
  match batch with
  | O => mret ()
  | S batch =>
      x ← slab_at page;
      if bool_decide (freelist x <> 0) then
        next ← load (freelist x);
        slab_upd page (set_freelist next);;
        cpu_push k (freelist x);;
        refill_loop batch k page
      else mret ()
  end.

Definition refill_cpu_freelist (k : Z) : K slub bool :=
  o ← acquire_slab k;
  match o with
  | None => mret false
  | Some page =>
      refill_loop SLUB_CPU_BATCH k page;;
      c ← cache_at k;
      mret (bool_decide (cpu_freelist c <> 0))
  end.

(** ** Objects *)

(** NULL is [None]. *)
Definition kmem_cache_alloc (cache : option Z) : K slub (option Z) :=
  match cache with
  | None => mret None
  | Some k =>
      cache_upd k (fun c => set_counts (u64 (alloc_count c + 1)) (free_count c) (active_slabs c) c);;
      c ← cache_at k;
      ok ← (if bool_decide (cpu_freelist c = 0) then refill_cpu_freelist k else mret true);
      if negb ok then mret None
      else
        object ← cpu_pop k;
        page ← virt_to_page object;
        slab_upd page (fun x => set_inuse (u32 (inuse x + 1)) x);;
        mret (Some object)
  end.

Definition kmem_cache_free (cache : option Z) (obj : Z) : K slub () :=
  match cache with
  | None => mret ()
  | Some k =>
      if bool_decide (obj = 0) then mret ()
      else
        cache_upd k (fun c => set_counts (alloc_count c) (u64 (free_count c + 1)) (active_slabs c) c);;
        page ← virt_to_page obj;
        x ← slab_at page;
        assert (bool_decide (slab_cache x = k));;
        cpu_push k obj;;
        slab_upd page (fun x => set_inuse (u32 (inuse x - 1)) x);;
        c ← cache_at k;
        when (SLUB_CPU_LIMIT <? freelist_count c) (flush_cpu_freelist k)
  end.

(** ** Caches; the counters of a new cache are not set by [slub_init]. *)

Definition kmem_cache_create (size align : Z) : K slub (option Z) :=
  assert (negb (size =? 0));;
  o ← on_pmm (alloc_pages pm 1);
  match o with
  | None => mret None
  | Some k =>
      let n := (PGSIZE - 96) / size in
      let c := mk_cache size align (if n =? 0 then 1 else n) 0 None 0 [] 0 0 0 0 in
      modify (fun s => set_caches (<[k := c]> (caches s)) s);;
      mret (Some k)
  end.

Fixpoint init_caches (stale : Z) (sizes : list Z) : K slub () :=
  match sizes with
  | [] => mret ()
  | size :: sizes =>
      o ← on_pmm (alloc_pages pm 1);
      k ← unwrap o;
      modify (fun s => set_caches (<[k := mk_cache size 8 (PGSIZE / size) 0 None 0 [] 0 stale stale stale]> (caches s)) s);;
      modify (fun s => set_slub_caches (slub_caches s ++ [k]) (slub_initialized s) s);;
      init_caches stale sizes
  end.

Definition slub_init (stale : Z) : K slub () :=
  init_caches stale size_table;;
  modify (fun s => set_slub_caches (slub_caches s) true s).

Fixpoint cache_for (sizes cs : list Z) (size : Z) : option Z :=
  match sizes, cs with
  | n :: sizes, k :: cs => if size <=? n then Some k else cache_for sizes cs size
  | _, _ => None
  end.
Definition get_cache_for_size (size : Z) : K slub (option Z) := s ← get; mret (cache_for size_table (slub_caches s) size).

(** [while ((1 << order) * PGSIZE < size) order++], an [int] compared with a [size_t]. *)
Fixpoint order_loop (fuel : nat) (order size : Z) : K slub Z :=
  match fuel with
  | O => timeout
  | S fuel => if u64 (s32 (s32 (Z.shiftl 1 order) * PGSIZE)) <? size then order_loop fuel (order + 1) size else mret order
  end.

Definition kmalloc (size : Z) : K slub (option Z) :=
  s ← get;
  if negb (slub_initialized s) then mret None
  else
    o ← get_cache_for_size size;
    match o with
    | None =>
        order ← order_loop 32 0 size;
        r ← on_pmm (alloc_pages pm (s32 (Z.shiftl 1 order)));
        mret (page_to_virt <$> r)
    | Some k => kmem_cache_alloc (Some k)
    end.

Definition kfree (obj : Z) : K slub () :=
  s ← get;
  if bool_decide (obj = 0) || negb (slub_initialized s) then mret ()
  else
    page ← virt_to_page obj;
    match slabs s !! page with
    | Some x => kmem_cache_free (Some (slab_cache x)) obj
    | None => on_pmm (free_pages pm page 1)
    end.

Definition kallocated : K slub Z :=
  s ← get;
  mret (foldl (fun total k => match caches s !! k with
    | Some c => u64 (total + (alloc_count c - free_count c) * c_size c)
    | None => total
    end) 0 (slub_caches s)).
End slub.
Arguments slub St : clear implicits.
