(* ===== verification/SlubHeap.v ===== *)
(** The invariant of the allocator in [Slub].  Every object of every slab is in
    one place ([place]): handed out, in the chain of its cache, or in the chain
    of its page; [inv_move] moves an object from one place to another, and the
    steps of the allocator are instances of it. *)
From S2P Require Import Prelude PmmManager Slub.
#[local] Abbreviation length := Datatypes.length.

Inductive place := Used | OnCpu | OnPage.
#[export] Instance place_eq_dec : EqDecision place.
Proof. solve_decision. Defined.

(** ** Addresses *)

(** The pages whose addresses [virt_to_page] accepts. *)
Definition good_page (p : Z) : Prop := 512 <= p < 2 ^ 18.
Definition page_addr (p : Z) : Z := 0xFFFFFFFFC0000000 + 4096 * p.
Definition page_of (x : Z) : Z := (x - 0xFFFFFFFFC0000000) / 4096.
Definition obj_at (size p i : Z) : Z := page_addr p + i * size.

Lemma page_to_virt_addr p : good_page p -> page_to_virt p = page_addr p.
Proof.
  unfold good_page, page_to_virt, page_addr. intros. rewrite Z.shiftl_mul_pow2 by lia. unfold nbase, va_pa_offset.
  rewrite uwrap_small; lia.
Qed.

Lemma page_of_range p r : 0 <= r < 4096 -> page_of (page_addr p + r) = p.
Proof. intros. unfold page_of, page_addr. replace (_ - _) with (r + p * 4096) by lia. rewrite Z.div_add by lia. rewrite Z.div_small; lia. Qed.

Lemma page_addr_pos p r : good_page p -> 0 <= r -> KERNBASE <= page_addr p + r.
Proof. unfold good_page, page_addr, KERNBASE. lia. Qed.

Section inv.
Context {St : Type} (pm : pmm_manager St) `{!PhysAlloc pm}.
Implicit Types (s : slub St) (loc : gmap Z place) (C P : Z -> list Z).

Lemma wp_virt_to_page p r s (Q : Z -> slub St -> Prop) :
  good_page p -> 0 <= r < 4096 -> Q p s -> wp (virt_to_page (page_addr p + r)) Q s.
Proof.
  intros Hp Hr HQ. unfold virt_to_page. kstep. kstep; [apply Z.leb_le, page_addr_pos; (done || lia)|].
  assert (E : Z.shiftr (u64 (page_addr p + r - va_pa_offset)) 12 - nbase = p); [|rewrite E; by apply wp_ret].
  unfold good_page, page_addr, va_pa_offset, nbase in *. rewrite uwrap_small by lia. rewrite Z.shiftr_div_pow2 by lia.
  change (2 ^ 12) with 4096. zlia.
Qed.

(** ** Chains *)

Fixpoint chain (h : gmap Z Z) (a : Z) (l : list Z) : Prop :=
  match l with
  | [] => a = 0
  | x :: l => a = x /\ KERNBASE <= x /\ chain h (default 0 (h !! x)) l
  end.

Lemma chain_frame h h' a l : (forall x, x ∈ l -> h' !! x = h !! x) -> chain h a l -> chain h' a l.
Proof.
  revert a. induction l as [|x l IH]; intros a Hh; [done|]. intros (->&Hx&Hc). split_and!; [done|done|].
  rewrite Hh by apply list_elem_of_here. apply IH; [|done]. intros y Hy. apply Hh, elem_of_cons. by right.
Qed.

Lemma chain_zero h a l : chain h a l -> (a = 0 <-> l = []).
Proof. destruct l as [|x l]; cbn; [naive_solver|]. unfold KERNBASE. intros (->&?&_). split; [lia|done]. Qed.

Lemma chain_head h a l : chain h a l -> a <> 0 -> exists l', l = a :: l' /\ KERNBASE <= a /\ chain h (default 0 (h !! a)) l'.
Proof. destruct l as [|x l]; cbn; [done|]. intros (->&?&?) _. by exists l. Qed.

Lemma chain_push h a l x : chain h a l -> x ∉ l -> KERNBASE <= x -> chain (<[x := a]> h) x (x :: l).
Proof.
  intros Hc Hx Hk. cbn. split_and!; [done|done|]. rewrite lookup_insert_eq. cbn. eapply chain_frame; [|exact Hc].
  intros y Hy. apply lookup_insert_ne. by intros ->.
Qed.

(** ** The invariant *)

(** [x] is an object of the slab [p]. *)
Definition object s (x p : Z) : Prop := exists sl c i,
  slabs s !! p = Some sl /\ caches s !! slab_cache sl = Some c /\ 0 <= i < objects sl /\ x = obj_at (c_size c) p i.

Definition cache_of s (x : Z) : option Z := slab_cache <$> slabs s !! page_of x.
Definition used loc (x : Z) : bool := bool_decide (loc !! x = Some Used).
Definition objs (size p n : Z) : list Z := (fun i => obj_at size p i) <$> seqZ 0 n.

Record cache_wf s C (k : Z) (c : kmem_cache) : Prop := {
  cw_size : 8 <= c_size c;
  cw_objs : 0 < objects_per_slab c;
  cw_fits : objects_per_slab c * c_size c <= 4096;
  cw_chain : chain (heap s) (cpu_freelist c) (C k);
  cw_nodup : NoDup (C k);
  cw_count : freelist_count c = Z.of_nat (length (C k));
  cw_partial q : q ∈ partial c <-> exists sl, slabs s !! q = Some sl /\ slab_cache sl = k /\ on_partial sl = true;
  cw_pnodup : NoDup (partial c);
  cw_nr : nr_partial c = Z.of_nat (length (partial c));
  cw_page p : cpu_page c = Some p -> exists sl, slabs s !! p = Some sl /\ slab_cache sl = k /\ on_partial sl = false;
}.

Record slab_wf s loc P (p : Z) (sl : slab) : Prop := {
  sw_good : good_page p;
  sw_taken : ~ pa_free (pmm s) p;
  sw_chain : chain (heap s) (freelist sl) (P p);
  sw_nodup : NoDup (P p);
  sw_cache : exists c, caches s !! slab_cache sl = Some c /\ objects sl = objects_per_slab c /\
    inuse sl = count (used loc) (objs (c_size c) p (objects sl)) /\
    (P p <> [] -> cpu_page c = Some p \/ on_partial sl = true);
  sw_partial : on_partial sl = true -> P p <> [];
}.

Record inv s loc C P : Prop := {
  i_pmm : pa_inv (pmm s);
  i_free p : pa_free (pmm s) p -> good_page p;
  i_obj x : is_Some (loc !! x) <-> object s x (page_of x);
  i_C k x : x ∈ C k <-> loc !! x = Some OnCpu /\ cache_of s x = Some k;
  i_P p x : x ∈ P p <-> loc !! x = Some OnPage /\ page_of x = p;
  i_cache k c : caches s !! k = Some c -> cache_wf s C k c;
  i_slab p sl : slabs s !! p = Some sl -> slab_wf s loc P p sl;
}.

(** ** Objects *)
Lemma objs_elem size p n x : x ∈ objs size p n <-> exists i, 0 <= i < n /\ x = obj_at size p i.
Proof. unfold objs. rewrite list_elem_of_fmap. split; intros (i&?&?); exists i; rewrite elem_of_seqZ in *; (split; [lia|done]) || (split; [done|lia]). Qed.

Lemma objs_nodup size p n : 0 < size -> NoDup (objs size p n).
Proof. intros Hs. apply NoDup_fmap_2_strong; [|apply NoDup_seqZ]. intros i j _ _. unfold obj_at. nia. Qed.

Lemma obj_page size p i n : 8 <= size -> n * size <= 4096 -> 0 <= i < n -> page_of (obj_at size p i) = p.
Proof. intros. apply page_of_range. nia. Qed.

Section facts.
Context {s : slub St} {loc : gmap Z place} {C P : Z -> list Z} (H : inv s loc C P).

Lemma object_at p sl c i :
  slabs s !! p = Some sl -> caches s !! slab_cache sl = Some c -> 0 <= i < objects sl ->
  page_of (obj_at (c_size c) p i) = p /\ is_Some (loc !! obj_at (c_size c) p i).
Proof.
  intros Hp Hc Hi. destruct (sw_cache _ _ _ _ _ (i_slab _ _ _ _ H p sl Hp)) as (c'&Hc'&Eo&_&_). simplify_eq.
  destruct (i_cache _ _ _ _ H _ c Hc) as [Hsz _ Hfit _ _ _ _ _ _ _]. rewrite Eo in Hi.
  assert (E : page_of (obj_at (c_size c) p i) = p) by (by eapply obj_page).
  split; [done|]. apply (i_obj _ _ _ _ H). rewrite E. exists sl, c, i. rewrite Eo. done.
Qed.

Lemma object_slab x pl : loc !! x = Some pl -> exists sl c,
  slabs s !! page_of x = Some sl /\ caches s !! slab_cache sl = Some c /\ good_page (page_of x) /\
  cache_of s x = Some (slab_cache sl) /\ x ∈ objs (c_size c) (page_of x) (objects sl) /\
  exists r, 0 <= r /\ r + c_size c <= 4096 /\ x = page_addr (page_of x) + r.
Proof.
  intros Hx. destruct (proj1 (i_obj _ _ _ _ H x) (mk_is_Some _ _ Hx)) as (sl&c&i&Hs&Hc&Hi&Ex).
  pose proof (i_slab _ _ _ _ H _ _ Hs) as Hw. destruct (sw_cache _ _ _ _ _ Hw) as (c'&Hc'&Eo&_&_). simplify_eq.
  exists sl, c. split_and!; [done|done|apply Hw|unfold cache_of; by rewrite Hs|apply objs_elem; by exists i|].
  destruct (i_cache _ _ _ _ H _ c Hc) as [Hsz _ Hfit _ _ _ _ _ _ _].
  exists (i * c_size c). split_and!; [nia|nia|done].
Qed.
End facts.

(** ** Moving an object *)

(** Which page is cut into which objects. *)
Definition same_shape s s' : Prop :=
  (forall q, (fun t => (slab_cache t, objects t)) <$> slabs s' !! q = (fun t => (slab_cache t, objects t)) <$> slabs s !! q) /\
  (forall k, (fun c => (c_size c, objects_per_slab c)) <$> caches s' !! k = (fun c => (c_size c, objects_per_slab c)) <$> caches s !! k).

Lemma same_shape_sym s s' : same_shape s s' -> same_shape s' s.
Proof. by intros []. Qed.

Lemma shape_object1 s s' x p : same_shape s s' -> object s x p -> object s' x p.
Proof.
  intros [H1 H2] (sl&c&i&Hs&Hc&Hi&Ex). specialize (H1 p). rewrite Hs in H1. destruct (slabs s' !! p) as [t|] eqn:Et; [|done].
  injection H1 as E1 E2. specialize (H2 (slab_cache sl)). rewrite Hc in H2.
  destruct (caches s' !! slab_cache sl) as [d|] eqn:Ed; [|done]. injection H2 as E3 E4.
  exists t, d, i. rewrite E1, E2, E3. done.
Qed.

Lemma shape_object s s' x p : same_shape s s' -> object s' x p <-> object s x p.
Proof. intros H. split; apply shape_object1; [by apply same_shape_sym|done]. Qed.

Lemma shape_cache_of s s' x : same_shape s s' -> cache_of s' x = cache_of s x.
Proof.
  intros [H _]. unfold cache_of. specialize (H (page_of x)).
  destruct (slabs s' !! page_of x), (slabs s !! page_of x); cbn in *; congruence.
Qed.

(** What a step on an object [x] of slab [p] and cache [k] leaves alone. *)
Record step_on s s' (x p k : Z) (sl sl' : slab) (c c' : kmem_cache) C C' P P' : Prop := {
  so_slab : slabs s !! p = Some sl;
  so_of : slab_cache sl = k;
  so_cache : caches s !! k = Some c;
  so_pmm : pmm s' = pmm s;
  so_slabs : slabs s' = <[p := sl']> (slabs s);
  so_caches : caches s' = <[k := c']> (caches s);
  so_heap y : y <> x -> heap s' !! y = heap s !! y;
  so_scache : slab_cache sl' = slab_cache sl;
  so_objects : objects sl' = objects sl;
  so_size : c_size c' = c_size c;
  so_per : objects_per_slab c' = objects_per_slab c;
  so_page : cpu_page c' = cpu_page c;
  so_C k' : k' <> k -> C' k' = C k';
  so_P p' : p' <> p -> P' p' = P p';
}.

Section move.
Context {s s' : slub St} {x p k : Z} {sl sl' : slab} {c c' : kmem_cache} {C C' P P' : Z -> list Z}.
Context {loc : gmap Z place} {pl pl' : place}.
Hypotheses (H : inv s loc C P) (Hst : step_on s s' x p k sl sl' c c' C C' P P') (Hx : loc !! x = Some pl) (Hp : page_of x = p).

Lemma step_shape : same_shape s s'.
Proof.
  destruct Hst. split; intros q.
  - rewrite so_slabs0, lookup_insert. case_decide as E; [|done]. subst q. rewrite so_slab0. cbn. congruence.
  - rewrite so_caches0, lookup_insert. case_decide as E; [|done]. subst q. rewrite so_cache0. cbn. congruence.
Qed.

Lemma step_cache_of : cache_of s x = Some k.
Proof. unfold cache_of. rewrite Hp, (so_slab _ _ _ _ _ _ _ _ _ _ _ _ _ Hst). cbn. f_equal. apply Hst. Qed.

Lemma step_not_C k' : k' <> k -> x ∉ C k'.
Proof. intros Hk Hin. apply (i_C _ _ _ _ H) in Hin as [_ E]. rewrite step_cache_of in E. congruence. Qed.

Lemma step_not_P q : q <> p -> x ∉ P q.
Proof. intros Hq Hin. apply (i_P _ _ _ _ H) in Hin as [_ E]. congruence. Qed.

Lemma step_other_cache k' d : k' <> k -> caches s' !! k' = Some d -> cache_wf s' C' k' d.
Proof.
  intros Hk Hd. rewrite (so_caches _ _ _ _ _ _ _ _ _ _ _ _ _ Hst), lookup_insert_ne in Hd by done.
  destruct (i_cache _ _ _ _ H k' d Hd) as [A1 A2 A3 A4 A5 A6 A7 A8 A9 A10]. rewrite <-(so_C _ _ _ _ _ _ _ _ _ _ _ _ _ Hst k' Hk) in *.
  assert (Hq : forall q t, slab_cache t = k' -> slabs s' !! q = Some t <-> slabs s !! q = Some t).
  { intros q t Et. rewrite (so_slabs _ _ _ _ _ _ _ _ _ _ _ _ _ Hst), lookup_insert. case_decide as E; [|done]. subst q.
    rewrite (so_slab _ _ _ _ _ _ _ _ _ _ _ _ _ Hst). pose proof (so_of _ _ _ _ _ _ _ _ _ _ _ _ _ Hst).
    pose proof (so_scache _ _ _ _ _ _ _ _ _ _ _ _ _ Hst). split; intros [= ->]; congruence. }
  split; try done.
  - eapply chain_frame; [|done]. intros y Hy. apply (so_heap _ _ _ _ _ _ _ _ _ _ _ _ _ Hst). intros ->.
    rewrite (so_C _ _ _ _ _ _ _ _ _ _ _ _ _ Hst k' Hk) in Hy. by apply (step_not_C k').
  - intros q. rewrite A7. split; intros (t&Ht&Ec&Eo); exists t; (split; [by apply Hq|done]).
  - intros q Eq. destruct (A10 q Eq) as (t&Ht&Ec&Eo). exists t. split; [by apply Hq|done].
Qed.

Lemma step_other_slab q t : q <> p -> slabs s' !! q = Some t -> slab_wf s' (<[x := pl']> loc) P' q t.
Proof.
  intros Hq Ht. rewrite (so_slabs _ _ _ _ _ _ _ _ _ _ _ _ _ Hst), lookup_insert_ne in Ht by done.
  destruct (i_slab _ _ _ _ H q t Ht) as [A1 A2 A3 A4 (d&Hd&Eo&Ei&Hl) A6].
  rewrite <-(so_P _ _ _ _ _ _ _ _ _ _ _ _ _ Hst q Hq) in *.
  destruct (step_shape) as [_ Hsh]. specialize (Hsh (slab_cache t)). rewrite Hd in Hsh.
  destruct (caches s' !! slab_cache t) as [d'|] eqn:Ed'; [|done]. injection Hsh as Esz Eper.
  split; try done.
  - by rewrite (so_pmm _ _ _ _ _ _ _ _ _ _ _ _ _ Hst).
  - eapply chain_frame; [|done]. intros y Hy. apply (so_heap _ _ _ _ _ _ _ _ _ _ _ _ _ Hst). intros ->.
    rewrite (so_P _ _ _ _ _ _ _ _ _ _ _ _ _ Hst q Hq) in Hy. by apply (step_not_P q).
  - exists d'. rewrite Esz, Eper. split_and!; [done|done| |].
    + rewrite Ei. apply count_ext. intros y Hy. apply objs_elem in Hy as (i&Hi&->). unfold used.
      destruct (object_at H q t d i Ht Hd Hi) as [Epg _]. rewrite lookup_insert_ne; [done|]. intros ->. congruence.
    + intros Hne. rewrite (so_caches _ _ _ _ _ _ _ _ _ _ _ _ _ Hst), lookup_insert in Ed'. case_decide as E; simplify_eq; [|by apply Hl].
      rewrite (so_page _ _ _ _ _ _ _ _ _ _ _ _ _ Hst). pose proof (so_cache _ _ _ _ _ _ _ _ _ _ _ _ _ Hst). simplify_eq. by apply Hl.
Qed.
End move.

Definition is_used (pl : place) : Z := match pl with Used => 1 | _ => 0 end.

Lemma used_value pl : (if bool_decide (Some pl = Some Used) then 1 else 0) = is_used pl.
Proof. by destruct pl. Qed.

Lemma inv_move s loc C P s' C' P' x pl pl' p k sl sl' c c' :
  inv s loc C P -> step_on s s' x p k sl sl' c c' C C' P P' -> loc !! x = Some pl -> page_of x = p ->
  chain (heap s') (cpu_freelist c') (C' k) -> NoDup (C' k) -> freelist_count c' = Z.of_nat (length (C' k)) ->
  (forall y, y ∈ C' k <-> if decide (y = x) then pl' = OnCpu else y ∈ C k) ->
  chain (heap s') (freelist sl') (P' p) -> NoDup (P' p) ->
  (forall y, y ∈ P' p <-> if decide (y = x) then pl' = OnPage else y ∈ P p) ->
  inuse sl' = inuse sl - is_used pl + is_used pl' ->
  (forall q, q ∈ partial c' <-> if decide (q = p) then on_partial sl' = true else q ∈ partial c) ->
  NoDup (partial c') -> nr_partial c' = Z.of_nat (length (partial c')) ->
  (P' p <> [] -> cpu_page c = Some p \/ on_partial sl' = true) ->
  (on_partial sl' = true -> P' p <> [] /\ cpu_page c <> Some p) ->
  inv s' (<[x := pl']> loc) C' P'.
Proof.
  intros H Hst Hx Hp HCc HCn HCl HCe HPc HPn HPe Hin Hpa Hpn Hnr Hlost Hon.
  pose proof (step_shape Hst) as Hsh. pose proof (step_cache_of Hst Hp) as Hcx.
  pose proof (i_cache _ _ _ _ H k c ltac:(apply Hst)) as [B1 B2 B3 _ _ _ B7 _ _ B10].
  pose proof (i_slab _ _ _ _ H p sl ltac:(apply Hst)) as [D1 D2 _ _ (d&Hd&Do&Di&_) _].
  pose proof Hst as [S1 S2 S3 S4 S5 S6 _ S8 S9 S10 S11 S12 S13 S14].
  assert (d = c) as -> by congruence.
  split.
  - rewrite S4. apply H.
  - intros q. rewrite S4. apply H.
  - intros y. rewrite (shape_object s s') by done. destruct (decide (y = x)) as [->|Hy].
    + rewrite lookup_insert_eq. rewrite <-(i_obj _ _ _ _ H x), Hx. split; by eexists.
    + rewrite lookup_insert_ne by done. apply H.
  - intros k' y. rewrite (shape_cache_of s s') by done. destruct (decide (k' = k)) as [->|Hk].
    + rewrite HCe. destruct (decide (y = x)) as [->|Hy].
      * rewrite lookup_insert_eq, Hcx. naive_solver.
      * rewrite lookup_insert_ne by done. apply H.
    + rewrite S13 by done. rewrite (i_C _ _ _ _ H k' y). destruct (decide (y = x)) as [->|Hy]; [|by rewrite lookup_insert_ne by done].
      rewrite lookup_insert_eq, Hcx. split; intros [_ ?]; congruence.
  - intros q y. destruct (decide (q = p)) as [->|Hq].
    + rewrite HPe. destruct (decide (y = x)) as [->|Hy].
      * rewrite lookup_insert_eq, Hp. naive_solver.
      * rewrite lookup_insert_ne by done. apply H.
    + rewrite S14 by done. rewrite (i_P _ _ _ _ H q y). destruct (decide (y = x)) as [->|Hy]; [|by rewrite lookup_insert_ne by done].
      rewrite lookup_insert_eq. split; intros [_ ?]; congruence.
  - intros k' e He. destruct (decide (k' = k)) as [->|Hk]; [|by eapply (step_other_cache H Hst)].
    rewrite S6, lookup_insert_eq in He. injection He as <-. split; try congruence; try done.
    + intros q. rewrite Hpa, S5, lookup_insert. destruct (decide (q = p)) as [->|Hq].
      * rewrite !decide_True by done. split; [intros Ht; exists sl'; split; [done|split; [congruence|done]]|intros (t&[= <-]&_&?); done].
      * rewrite !decide_False by congruence. apply B7.
    + intros q Eq. rewrite S12 in Eq. rewrite S5. destruct (decide (q = p)) as [->|Hq]; [|rewrite lookup_insert_ne by done; by apply B10].
      rewrite lookup_insert_eq. exists sl'. split; [done|]. split; [congruence|]. destruct (on_partial sl'); [|done]. by destruct Hon.
  - intros q t Ht. destruct (decide (q = p)) as [->|Hq]; [|by eapply (step_other_slab H Hst)].
    rewrite S5, lookup_insert_eq in Ht. injection Ht as <-. split; try done.
    + by rewrite S4.
    + exists c'. rewrite S8, S2, S6, lookup_insert_eq, S9, S10, S11, S12. split_and!; [done|congruence| |done].
      rewrite Hin, Di. destruct (object_slab H x pl Hx) as (t&e&Ht&He&_&_&Hel&_). rewrite Hp in Ht, Hel. simplify_eq.
      rewrite (count_change (used loc) (used (<[x := pl']> loc)) _ x); [| |done|].
      * change (used loc x) with (bool_decide (loc !! x = Some Used)).
        change (used (<[x := pl']> loc) x) with (bool_decide (<[x := pl']> loc !! x = Some Used)).
        rewrite Hx, lookup_insert_eq, !used_value. lia.
      * apply objs_nodup. lia.
      * intros y _ Hy. unfold used. by rewrite lookup_insert_ne.
    + intros E. by destruct (Hon E).
Qed.

(** ** Changing a cache and the flags of its slabs *)

(** The objects stay where they are; [k] may get another current page and
    another list of partial slabs. *)
Lemma inv_relink s loc C P s' k c c' :
  inv s loc C P -> caches s !! k = Some c ->
  pmm s' = pmm s -> heap s' = heap s -> caches s' = <[k := c']> (caches s) ->
  (forall q t, slabs s !! q = Some t -> exists b, slabs s' !! q = Some (set_on_partial b t) /\ (slab_cache t <> k -> b = on_partial t)) ->
  (forall q, slabs s !! q = None -> slabs s' !! q = None) ->
  c_size c' = c_size c -> objects_per_slab c' = objects_per_slab c -> cpu_freelist c' = cpu_freelist c -> freelist_count c' = freelist_count c ->
  (forall q, q ∈ partial c' <-> exists t, slabs s' !! q = Some t /\ slab_cache t = k /\ on_partial t = true) ->
  NoDup (partial c') -> nr_partial c' = Z.of_nat (length (partial c')) ->
  (forall q, cpu_page c' = Some q -> exists t, slabs s' !! q = Some t /\ slab_cache t = k /\ on_partial t = false) ->
  (forall q t, slabs s' !! q = Some t -> slab_cache t = k ->
     (P q <> [] -> cpu_page c' = Some q \/ on_partial t = true) /\ (on_partial t = true -> P q <> [])) ->
  inv s' loc C P.
Proof.
  intros H Hc E1 E2 E3 Hsl Hnone Esz Eper Efl Ecnt Hpa Hpn Hnr Hpage Hall.
  assert (Hback : forall q t', slabs s' !! q = Some t' -> exists t b, slabs s !! q = Some t /\ t' = set_on_partial b t /\ (slab_cache t <> k -> b = on_partial t)).
  { intros q t' Ht'. destruct (slabs s !! q) as [t|] eqn:Et; [|by rewrite (Hnone q Et) in Ht'].
    destruct (Hsl q t Et) as (b&Hb&?). exists t, b. split_and!; [done|congruence|done]. }
  assert (Hsh : same_shape s s').
  { split; intros q.
    - destruct (slabs s !! q) as [t|] eqn:Et; [destruct (Hsl q t Et) as (b&Hb&_); by rewrite Hb|by rewrite (Hnone q Et)].
    - rewrite E3. destruct (decide (q = k)) as [->|Hq]; [rewrite lookup_insert_eq, Hc; cbn; congruence|by rewrite lookup_insert_ne]. }
  split.
  - rewrite E1. apply H.
  - rewrite E1. apply H.
  - intros y. rewrite (shape_object s s') by done. apply H.
  - intros k' y. rewrite (shape_cache_of s s') by done. apply H.
  - apply H.
  - intros k' d Hd. rewrite E3 in Hd. destruct (decide (k' = k)) as [->|Hk].
    + rewrite lookup_insert_eq in Hd. injection Hd as <-. destruct (i_cache _ _ _ _ H k c Hc). split; try congruence; done.
    + rewrite lookup_insert_ne in Hd by done. destruct (i_cache _ _ _ _ H k' d Hd) as [A1 A2 A3 A4 A5 A6 A7 A8 A9 A10].
      assert (Hq : forall q t, slab_cache t = k' -> slabs s' !! q = Some t <-> slabs s !! q = Some t).
      { assert (Hid : forall t, set_on_partial (on_partial t) t = t) by (by intros []).
        intros q t <-. split.
        - intros Ht. destruct (Hback q t Ht) as (t0&b&Ht0&->&Hb). cbn in Hk. by rewrite (Hb Hk), Hid.
        - intros Ht. destruct (Hsl q t Ht) as (b&Ht0&Hb). by rewrite (Hb Hk), Hid in Ht0. }
      split; try done; [by rewrite E2| |].
      * intros q. rewrite A7. split; intros (t&Ht&Ec&Eo); exists t; (split; [by apply Hq|done]).
      * intros q Eq. destruct (A10 q Eq) as (t&Ht&Ec&Eo). exists t. split; [by apply Hq|done].
  - intros q t' Ht'. destruct (Hback q t' Ht') as (t&b&Ht&->&Hb).
    destruct (i_slab _ _ _ _ H q t Ht) as [D1 D2 D3 D4 (d&Hd&Do&Di&Hl) D6].
    destruct (decide (slab_cache t = k)) as [Ek|Ek].
    + destruct (Hall q _ Ht' Ek) as [Hl' Hp']. split; try done; [by rewrite E1|by rewrite E2|].
      rewrite Ek in Hd. simplify_eq. exists c'. cbn. rewrite E3, lookup_insert_eq, Esz, Eper. done.
    + rewrite (Hb Ek) in *. split; try done; [by rewrite E1|by rewrite E2|]. exists d. cbn. rewrite E3, lookup_insert_ne by congruence. done.
Qed.

(** ** How long the lists can be *)
Lemma count_lt {A} (f : A -> bool) l x : x ∈ l -> f x = false -> count f l < Z.of_nat (length l).
Proof.
  induction l as [|y l IH]; intros Hx Hf; [by apply not_elem_of_nil in Hx|]. cbn [count length]. pose proof (count_bounds f l).
  apply elem_of_cons in Hx as [->|Hx]; [rewrite Hf; lia|]. specialize (IH Hx Hf). destruct (f y); lia.
Qed.

Lemma short_list (l : list Z) a n : NoDup l -> (forall x, x ∈ l -> a <= x < a + n) -> Z.of_nat (length l) <= Z.max 0 n.
Proof.
  intros Hnd Hr. rewrite <-Z2Nat.id by lia. apply inj_le. assert (E : Z.to_nat (Z.max 0 n) = length (seqZ a n)) by (rewrite length_seqZ; lia).
  rewrite E. apply submseteq_length, NoDup_submseteq; [done|]. intros x Hx. apply elem_of_seqZ. by apply Hr.
Qed.

Lemma cpu_list_short s loc C P k : inv s loc C P -> NoDup (C k) -> Z.of_nat (length (C k)) <= 2 ^ 30.
Proof.
  intros H Hnd. rewrite (short_list (C k) 0xFFFFFFFFC0000000 (2 ^ 30)); [lia|done|]. intros x Hx.
  apply (i_C _ _ _ _ H) in Hx as [Hx _]. destruct (object_slab H x _ Hx) as (sl&c&_&Hc&Hg&_&_&r&Hr&Hrs&Ex).
  pose proof (cw_size _ _ _ _ (i_cache _ _ _ _ H _ c Hc)). unfold good_page, page_addr in *. lia.
Qed.

Lemma partial_short s loc C P k c : inv s loc C P -> caches s !! k = Some c -> Z.of_nat (length (partial c)) <= 2 ^ 18.
Proof.
  intros H Hc. pose proof (i_cache _ _ _ _ H k c Hc) as Hw.
  rewrite (short_list (partial c) 0 (2 ^ 18)); [lia|apply Hw|]. intros q Hq. apply (cw_partial _ _ _ _ Hw) in Hq as (sl&Hs&_).
  pose proof (sw_good _ _ _ _ _ (i_slab _ _ _ _ H q sl Hs)) as Hg. unfold good_page in Hg. lia.
Qed.

Lemma slab_bounds s loc C P p sl : inv s loc C P -> slabs s !! p = Some sl -> 0 < objects sl <= 512 /\ 0 <= inuse sl <= objects sl.
Proof.
  intros H Hs. destruct (sw_cache _ _ _ _ _ (i_slab _ _ _ _ H p sl Hs)) as (c&Hc&Eo&Ei&_).
  destruct (i_cache _ _ _ _ H _ c Hc) as [Hsz Hn Hfit _ _ _ _ _ _ _]. split; [rewrite Eo; nia|].
  rewrite Ei. pose proof (count_bounds (used loc) (objs (c_size c) p (objects sl))) as Hb.
  assert (E : length (objs (c_size c) p (objects sl)) = Z.to_nat (objects sl)) by (unfold objs; by rewrite length_fmap, length_seqZ).
  rewrite E in Hb. nia.
Qed.
End inv.
