(* ===== verification/SlubSpec.v ===== *)
(** What the allocator of [Slub] promises, on the invariant of [SlubHeap]: blocks
    that are handed out do not overlap, are as large as asked for, and every
    object that is not handed out can be handed out again. *)
From S2P Require Import Prelude PmmManager Slub SlubHeap.
#[local] Abbreviation length := Datatypes.length.

Section spec.
Context {St : Type} (pm : pmm_manager St) `{!PhysAlloc pm}.
Implicit Types (s : slub St) (loc : gmap Z place) (C P : Z -> list Z).
Abbreviation inv := (inv pm).

(** ** Primitives *)
Lemma wp_slab_at p x s (Q : slab -> slub St -> Prop) : slabs s !! p = Some x -> Q x s -> wp (slab_at p) Q s.
Proof. intros E HQ. unfold wp, slab_at, unwrap. by rewrite E. Qed.

Lemma wp_slab_upd p f x s (Q : () -> slub St -> Prop) :
  slabs s !! p = Some x -> Q () (set_slabs (<[p := f x]> (slabs s)) s) -> wp (slab_upd p f) Q s.
Proof. intros E HQ. unfold slab_upd. kstep. eapply wp_slab_at; [done|]. by kstep. Qed.

Lemma wp_cache_at k x s (Q : kmem_cache -> slub St -> Prop) : caches s !! k = Some x -> Q x s -> wp (cache_at k) Q s.
Proof. intros E HQ. unfold wp, cache_at, unwrap. by rewrite E. Qed.

Lemma wp_cache_upd k f x s (Q : () -> slub St -> Prop) :
  caches s !! k = Some x -> Q () (set_caches (<[k := f x]> (caches s)) s) -> wp (cache_upd k f) Q s.
Proof. intros E HQ. unfold cache_upd. kstep. eapply wp_cache_at; [done|]. by kstep. Qed.

Lemma wp_load_word a s (Q : Z -> slub St -> Prop) : KERNBASE <= a -> Q (default 0 (heap s !! a)) s -> wp (load a) Q s.
Proof. intros Ha HQ. unfold load. kstep. kstep; [by apply Z.leb_le|]. kstep. kstep. by kstep. Qed.

Lemma wp_store a v s (Q : () -> slub St -> Prop) : KERNBASE <= a -> Q () (set_heap (<[a := v]> (heap s)) s) -> wp (store a v) Q s.
Proof. intros Ha HQ. unfold store. kstep. kstep; [by apply Z.leb_le|]. by kstep. Qed.

Lemma wp_page_of loc C P s0 s x pl (Q : Z -> slub St -> Prop) :
  inv s0 loc C P -> loc !! x = Some pl -> Q (page_of x) s -> wp (virt_to_page x) Q s.
Proof.
  intros H Hx HQ. destruct (object_slab pm H x pl Hx) as (sl&c&_&Hc&Hg&_&_&r&Hr&Hrs&Ex).
  pose proof (cw_size _ _ _ _ (i_cache _ _ _ _ _ H _ c Hc)). rewrite Ex at 1. apply wp_virt_to_page; (done || lia).
Qed.

Definition fset (C : Z -> list Z) (k : Z) (l : list Z) : Z -> list Z := fun k' => if decide (k' = k) then l else C k'.

Lemma fset_eq C k l : fset C k l k = l.
Proof. unfold fset. by rewrite decide_True. Qed.
Lemma fset_ne C k l k' : k' <> k -> fset C k l k' = C k'.
Proof. intros. unfold fset. by rewrite decide_False. Qed.

(** ** One object *)

(** What no step on objects changes. *)
Record calm s s' : Prop := {
  ca_shape : same_shape s s';
  ca_pmm : pmm s' = pmm s;
  ca_list : slub_caches s' = slub_caches s;
  ca_init : slub_initialized s' = slub_initialized s;
  ca_page k : cpu_page <$> caches s' !! k = cpu_page <$> caches s !! k;
}.

Lemma calm_trans s s1 s2 : calm s s1 -> calm s1 s2 -> calm s s2.
Proof. intros [[A1 A2] B1 C1 D1 E1] [[A3 A4] B2 C2 D2 E2]. split; [split; intros; congruence|congruence..|intros; congruence]. Qed.

Lemma calm_refl s : calm s s.
Proof. done. Qed.

(** The object at the head of a cache's chain. *)
Lemma head_on_cpu loc C P s k c x l :
  inv s loc C P -> caches s !! k = Some c -> C k = x :: l ->
  loc !! x = Some OnCpu /\ cpu_freelist c = x /\ chain (heap s) (default 0 (heap s !! x)) l /\ x ∉ l /\ NoDup l /\ KERNBASE <= x /\
  u32 (freelist_count c - 1) = Z.of_nat (length l) /\
  exists sl, slabs s !! page_of x = Some sl /\ slab_cache sl = k.
Proof.
  intros H Hc E. pose proof (i_cache _ _ _ _ _ H k c Hc) as [_ _ _ B4 B5 B6 _ _ _ _].
  pose proof (cpu_list_short pm s loc C P k H B5) as Hsh.
  assert (Hin : x ∈ C k) by (rewrite E; apply list_elem_of_here). apply (i_C _ _ _ _ _ H) in Hin as [Hx Hco].
  rewrite E in *. cbn in B4. destruct B4 as (Efl&Hk&Hch). apply NoDup_cons in B5 as [Hni Hnd].
  cbn [length] in *. split_and!; try done.
  - rewrite B6. rewrite uwrap_small by lia. lia.
  - unfold cache_of in Hco. destruct (slabs s !! page_of x) as [sl|]; [|done]. injection Hco as <-. by exists sl.
Qed.

Lemma wp_cpu_pop loc C P s k c x l (Q : Z -> slub St -> Prop) :
  inv s loc C P -> caches s !! k = Some c -> C k = x :: l ->
  Q x (set_caches (<[k := set_cpu (default 0 (heap s !! x)) (Z.of_nat (length l)) c]> (caches s)) s) ->
  wp (cpu_pop k) Q s.
Proof.
  intros H Hc E HQ. destruct (head_on_cpu loc C P s k c x l H Hc E) as (_&Efl&_&_&_&Hk&Hcnt&_).
  unfold cpu_pop. kstep. eapply wp_cache_at; [done|]. kstep. rewrite Efl. apply wp_load_word; [done|]. kstep.
  eapply wp_cache_upd; [done|]. rewrite Hcnt. by kstep.
Qed.

Lemma wp_take loc C P s k c x l (Q : option Z -> slub St -> Prop) :
  inv s loc C P -> caches s !! k = Some c -> C k = x :: l ->
  (forall s', inv s' (<[x := Used]> loc) (fset C k l) P -> calm s s' -> Q (Some x) s') ->
  wp (object ← cpu_pop k; page ← virt_to_page object; slab_upd page (fun x => set_inuse (u32 (inuse x + 1)) x);; mret (Some object)) Q s.
Proof.
  intros H Hc E HQ. destruct (head_on_cpu loc C P s k c x l H Hc E) as (Hx&Efl&Hch&Hni&Hnd&Hk&Hcnt&sl&Hs&Ek).
  pose proof (i_cache _ _ _ _ _ H k c Hc) as Bw. pose proof (i_slab _ _ _ _ _ H _ sl Hs) as Sw.
  pose proof (slab_bounds pm s loc C P _ sl H Hs) as [Hob Hiu].
  kstep. eapply wp_cpu_pop; [done..|]. kstep. eapply wp_page_of; [done..|]. kstep.
  eapply wp_slab_upd; [exact Hs|]. kstep. set (s' := set_slabs _ _).
  set (sl' := set_inuse (u32 (inuse sl + 1)) sl). set (c' := set_cpu (default 0 (heap s !! x)) (Z.of_nat (length l)) c).
  assert (Hst : step_on s s' x (page_of x) k sl sl' c c' C (fset C k l) P P).
  { split; try done. intros k' Hk'. by apply fset_ne. }
  apply HQ.
  - eapply (inv_move pm s loc C P s' (fset C k l) P x OnCpu Used); try done; rewrite ?fset_eq; try done.
    + intros y. case_decide; [subst; naive_solver|]. rewrite E, elem_of_cons. naive_solver.
    + exact (sw_chain _ _ _ _ _ _ Sw).
    + exact (sw_nodup _ _ _ _ _ _ Sw).
    + intros y. case_decide; [subst|done]. split; [|done]. intros Hy. apply (i_P _ _ _ _ _ H) in Hy as [Hy _]. congruence.
    + cbn. rewrite uwrap_small; lia.
    + intros q. cbn. case_decide; [subst|done]. rewrite (cw_partial _ _ _ _ Bw). split; [intros (t&Ht&_&?); congruence|by exists sl].
    + apply Bw.
    + apply Bw.
    + cbn. destruct (sw_cache _ _ _ _ _ _ Sw) as (d&Hd&_&_&Hl). rewrite Ek in Hd. simplify_eq. exact Hl.
    + cbn. intros Hon. split; [by apply (sw_partial _ _ _ _ _ _ Sw)|]. intros Hcp. destruct (cw_page _ _ _ _ Bw _ Hcp) as (t&Ht&_&?). congruence.
  - split; [exact (step_shape Hst)|done..|]. intros q. cbn. destruct (decide (q = k)) as [->|]; [by rewrite lookup_insert_eq, Hc|by rewrite lookup_insert_ne].
Qed.

(** [k]'s chain gets [x] in front. *)
Lemma wp_cpu_push s k c x (Q : () -> slub St -> Prop) :
  caches s !! k = Some c -> KERNBASE <= x ->
  Q () (set_caches (<[k := set_cpu x (u32 (freelist_count c + 1)) c]> (caches s)) (set_heap (<[x := cpu_freelist c]> (heap s)) s)) ->
  wp (cpu_push k x) Q s.
Proof.
  intros Hc Hk HQ. unfold cpu_push. kstep. eapply wp_cache_at; [done|]. kstep. apply wp_store; [done|].
  by eapply wp_cache_upd.
Qed.

Lemma object_addr loc C P s x pl : inv s loc C P -> loc !! x = Some pl -> KERNBASE <= x.
Proof.
  intros H Hx. destruct (object_slab pm H x pl Hx) as (sl&c&_&_&Hg&_&_&r&Hr&_&Ex). rewrite Ex. apply page_addr_pos; (done || lia).
Qed.

(** What is true of [k]'s chain once [x] is in front of it. *)
Lemma pushed loc C P s k c x pl :
  inv s loc C P -> caches s !! k = Some c -> loc !! x = Some pl -> pl <> OnCpu ->
  chain (<[x := cpu_freelist c]> (heap s)) x (x :: C k) /\ NoDup (x :: C k) /\
  u32 (freelist_count c + 1) = Z.of_nat (length (x :: C k)) /\
  forall y, y ∈ x :: C k <-> if decide (y = x) then OnCpu = OnCpu else y ∈ C k.
Proof.
  intros H Hc Hx Hpl. pose proof (i_cache _ _ _ _ _ H k c Hc) as [_ _ _ B4 B5 B6 _ _ _ _].
  pose proof (cpu_list_short pm s loc C P k H B5) as Hsh.
  assert (Hni : x ∉ C k) by (intros Hin; apply (i_C _ _ _ _ _ H) in Hin as [? _]; congruence). split_and!.
  - apply chain_push; [done|done|by eapply object_addr].
  - by apply NoDup_cons.
  - cbn [length]. rewrite B6. rewrite uwrap_small; lia.
  - intros y. rewrite elem_of_cons. case_decide; naive_solver.
Qed.

Lemma calm_step s s' x p k sl sl' c c' C C' P P' :
  step_on s s' x p k sl sl' c c' C C' P P' -> slub_caches s' = slub_caches s -> slub_initialized s' = slub_initialized s -> calm s s'.
Proof.
  intros Hst E1 E2. split; [exact (step_shape Hst)|by destruct Hst|done|done|]. intros q. destruct Hst. rewrite so_caches.
  destruct (decide (q = k)) as [->|]; [rewrite lookup_insert_eq, so_cache; cbn; congruence|by rewrite lookup_insert_ne].
Qed.

Lemma wp_give_back loc C P s x sl c (Q : () -> slub St -> Prop) :
  inv s loc C P -> loc !! x = Some Used -> slabs s !! page_of x = Some sl -> caches s !! slab_cache sl = Some c ->
  (forall s', inv s' (<[x := OnCpu]> loc) (fset C (slab_cache sl) (x :: C (slab_cache sl))) P -> calm s s' -> Q () s') ->
  wp (cpu_push (slab_cache sl) x;; slab_upd (page_of x) (fun x => set_inuse (u32 (inuse x - 1)) x)) Q s.
Proof.
  intros H Hx Hs Hc HQ. set (k := slab_cache sl) in *. destruct (pushed loc C P s k c x Used H Hc Hx) as (P1&P2&P3&P4); [done|].
  pose proof (i_cache _ _ _ _ _ H k c Hc) as Bw. pose proof (i_slab _ _ _ _ _ H _ sl Hs) as Sw.
  pose proof (slab_bounds pm s loc C P _ sl H Hs) as [Hob Hiu].
  assert (Hpos : 0 < inuse sl).
  { destruct (sw_cache _ _ _ _ _ _ Sw) as (d&Hd&_&Ei&_). fold k in Hd. rewrite Ei.
    destruct (object_slab pm H x _ Hx) as (t&e&Ht&He&_&_&Hel&_). assert (t = sl) as -> by congruence. fold k in He.
    assert (e = d) as -> by congruence. apply (count_pos _ _ x); [done|].
    unfold used. by apply bool_decide_eq_true. }
  kstep. eapply wp_cpu_push; [done|by eapply object_addr|]. eapply wp_slab_upd; [exact Hs|]. set (s' := set_slabs _ _).
  set (sl' := set_inuse (u32 (inuse sl - 1)) sl). set (c' := set_cpu x (u32 (freelist_count c + 1)) c).
  assert (Hst : step_on s s' x (page_of x) k sl sl' c c' C (fset C k (x :: C k)) P P).
  { split; try done; [intros y Hy; apply lookup_insert_ne; congruence|]. intros k' Hk'. by apply fset_ne. }
  apply HQ; [|by eapply calm_step].
  eapply (inv_move pm s loc C P s' (fset C k (x :: C k)) P x Used OnCpu); try done; rewrite ?fset_eq; try done.
  - eapply chain_frame; [|exact (sw_chain _ _ _ _ _ _ Sw)]. intros y Hy. apply lookup_insert_ne. intros ->.
    apply (i_P _ _ _ _ _ H) in Hy as [? _]. congruence.
  - exact (sw_nodup _ _ _ _ _ _ Sw).
  - intros y. case_decide; [subst|done]. split; [|done]. intros Hy. apply (i_P _ _ _ _ _ H) in Hy as [Hy _]. congruence.
  - cbn. rewrite uwrap_small; lia.
  - intros q. cbn. case_decide; [subst|done]. rewrite (cw_partial _ _ _ _ Bw). split; [intros (t&Ht&_&?); congruence|by exists sl].
  - apply Bw.
  - apply Bw.
  - cbn. destruct (sw_cache _ _ _ _ _ _ Sw) as (d&Hd&_&_&Hl). fold k in Hd. simplify_eq. exact Hl.
  - cbn. intros Hon. split; [by apply (sw_partial _ _ _ _ _ _ Sw)|]. intros Hcp. destruct (cw_page _ _ _ _ Bw _ Hcp) as (t&Ht&_&?). congruence.
Qed.

Lemma wp_refill_one loc C P s p sl c x l (m : K (slub St) ()) (Q : () -> slub St -> Prop) :
  inv s loc C P -> slabs s !! p = Some sl -> caches s !! slab_cache sl = Some c -> cpu_page c = Some p -> P p = x :: l ->
  (forall s', inv s' (<[x := OnCpu]> loc) (fset C (slab_cache sl) (x :: C (slab_cache sl))) (fset P p l) -> calm s s' -> wp m Q s') ->
  freelist sl = x /\
  wp (next ← load x; slab_upd p (set_freelist next);; cpu_push (slab_cache sl) x;; m) Q s.
Proof.
  intros H Hs Hc Hpage E HQ. set (k := slab_cache sl) in *.
  pose proof (i_cache _ _ _ _ _ H k c Hc) as Bw. pose proof (i_slab _ _ _ _ _ H _ sl Hs) as Sw.
  pose proof (sw_chain _ _ _ _ _ _ Sw) as Hch. pose proof (sw_nodup _ _ _ _ _ _ Sw) as Hnd. rewrite E in Hch, Hnd.
  destruct Hch as (Efl&Hk&Hch). apply NoDup_cons in Hnd as [Hni Hnd]. split; [done|].
  assert (Hin : x ∈ P p) by (rewrite E; apply list_elem_of_here). apply (i_P _ _ _ _ _ H) in Hin as [Hx Hp].
  destruct (pushed loc C P s k c x OnPage H Hc Hx) as (P1&P2&P3&P4); [done|].
  destruct (cw_page _ _ _ _ Bw p Hpage) as (t&Ht&_&Hoff). assert (t = sl) as -> by congruence.
  kstep. apply wp_load_word; [done|]. kstep. eapply wp_slab_upd; [exact Hs|]. kstep. eapply wp_cpu_push; [done|done|]. set (s' := set_caches _ _).
  set (sl' := set_freelist (default 0 (heap s !! x)) sl). set (c' := set_cpu x (u32 (freelist_count c + 1)) c).
  assert (Hst : step_on s s' x p k sl sl' c c' C (fset C k (x :: C k)) P (fset P p l)).
  { split; try done; [intros y Hy; apply lookup_insert_ne; congruence|..]; intros q Hq; by apply fset_ne. }
  apply HQ; [|by eapply calm_step].
  eapply (inv_move pm s loc C P s' (fset C k (x :: C k)) (fset P p l) x OnPage OnCpu); try done; rewrite ?fset_eq; try done.
  - eapply chain_frame; [|exact Hch]. intros y Hy. apply lookup_insert_ne. by intros ->.
  - intros y. case_decide; [subst; naive_solver|]. rewrite E, elem_of_cons. naive_solver.
  - cbn. lia.
  - intros q. cbn. case_decide; [subst|done]. rewrite (cw_partial _ _ _ _ Bw). split; [intros (t&Ht'&_&?); congruence|congruence].
  - apply Bw.
  - apply Bw.
  - intros _. by left.
  - cbn. congruence.
Qed.

Lemma not_full loc C P s x sl : inv s loc C P -> slabs s !! page_of x = Some sl -> is_Some (loc !! x) -> loc !! x <> Some Used -> inuse sl < objects sl.
Proof.
  intros H Hs [pl Hx] Hnu. destruct (sw_cache _ _ _ _ _ _ (i_slab _ _ _ _ _ H _ sl Hs)) as (c&Hc&_&Ei&_).
  destruct (object_slab pm H x pl Hx) as (t&e&Ht&He&_&_&Hel&_). assert (t = sl) as -> by congruence. assert (e = c) as -> by congruence.
  pose proof (slab_bounds pm s loc C P _ sl H Hs) as [Hob _]. rewrite Ei.
  assert (E : length (objs (c_size c) (page_of x) (objects sl)) = Z.to_nat (objects sl)) by (unfold objs; by rewrite length_fmap, length_seqZ).
  enough (count (used loc) (objs (c_size c) (page_of x) (objects sl)) < Z.of_nat (length (objs (c_size c) (page_of x) (objects sl)))) by lia.
  apply count_lt with x; [done|]. unfold used. by apply bool_decide_eq_false.
Qed.

(** The flag of the page and the list of partial pages once [p] has a free object. *)
Lemma inv_spilled loc C P s s' k c x l sl b :
  inv s loc C P -> caches s !! k = Some c -> C k = x :: l -> slabs s !! page_of x = Some sl -> slab_cache sl = k ->
  heap s' = <[x := freelist sl]> (heap s) -> pmm s' = pmm s -> slub_caches s' = slub_caches s -> slub_initialized s' = slub_initialized s ->
  slabs s' = <[page_of x := set_on_partial b (set_freelist x sl)]> (slabs s) ->
  caches s' = <[k := (if decide (b = on_partial sl) then id else set_partial (page_of x :: partial c) (u64 (nr_partial c + 1)))
                       (set_cpu (default 0 (heap s !! x)) (Z.of_nat (length l)) c)]> (caches s) ->
  b = negb (bool_decide (cpu_page c = Some (page_of x))) ->
  inv s' (<[x := OnPage]> loc) (fset C k l) (fset P (page_of x) (x :: P (page_of x))) /\ calm s s'.
Proof.
  intros H Hc E Hs Ek Eh Epm El Ein Esl Eca Eb.
  destruct (head_on_cpu loc C P s k c x l H Hc E) as (Hx&Efl&Hch&Hni&Hnd&Hk&Hcnt&_).
  pose proof (i_cache _ _ _ _ _ H k c Hc) as Bw. pose proof (i_slab _ _ _ _ _ H _ sl Hs) as Sw. set (p := page_of x) in *.
  assert (HxP : x ∉ P p) by (intros Hin; apply (i_P _ _ _ _ _ H) in Hin as [? _]; congruence).
  assert (Hold : on_partial sl = true -> b = true).
  { intros Hon. rewrite Eb. apply negb_true_iff, bool_decide_eq_false. intros Hcp. destruct (cw_page _ _ _ _ Bw _ Hcp) as (t&Ht&_&?). congruence. }
  set (sl' := set_on_partial b (set_freelist x sl)) in *. set (c' := (if decide _ then _ else _) _) in *.
  assert (Hst : step_on s s' x p k sl sl' c c' C (fset C k l) P (fset P p (x :: P p))).
  { split; try done; [intros y Hy; rewrite Eh; apply lookup_insert_ne; congruence|unfold c'; destruct (decide (b = on_partial sl)); reflexivity..| |];
      intros q Hq; by apply fset_ne. }
  assert (Hpart : (forall q, q ∈ partial c' <-> if decide (q = p) then b = true else q ∈ partial c) /\ NoDup (partial c') /\
    nr_partial c' = Z.of_nat (length (partial c'))).
  { pose proof (partial_short pm s loc C P k c H Hc) as Hps. pose proof (cw_nr _ _ _ _ Bw) as Hnr. pose proof (cw_pnodup _ _ _ _ Bw) as Hpn.
    assert (Hp : p ∈ partial c <-> on_partial sl = true).
    { rewrite (cw_partial _ _ _ _ Bw). split; [intros (t&Ht&_&?); congruence|by exists sl]. }
    unfold c'. destruct (decide (b = on_partial sl)) as [Eo|Eo]; cbn.
    - split_and!; [|done|done]. intros q. destruct (decide (q = p)) as [->|]; [|done]. by rewrite Hp, Eo.
    - assert (Hbt : b = true /\ on_partial sl = false) by (destruct b, (on_partial sl); naive_solver). destruct Hbt as [-> Hoff].
      assert (Hnp : p ∉ partial c) by (rewrite Hp; congruence). split_and!; [|by apply NoDup_cons|rewrite uwrap_small; lia].
      intros q. rewrite elem_of_cons. destruct (decide (q = p)); naive_solver. }
  destruct Hpart as (Q1&Q2&Q3).
  split; [|by eapply calm_step].
  eapply (inv_move pm s loc C P s' (fset C k l) (fset P p (x :: P p)) x OnCpu OnPage); try done; rewrite ?fset_eq; try done.
  - rewrite Eh. unfold c'. destruct (decide (b = on_partial sl)); cbn; (eapply chain_frame; [|exact Hch]); intros y Hy; apply lookup_insert_ne; by intros ->.
  - unfold c'. by destruct (decide (b = on_partial sl)).
  - intros y. destruct (decide (y = x)); [subst; naive_solver|]. rewrite E, elem_of_cons. naive_solver.
  - rewrite Eh. apply chain_push; [exact (sw_chain _ _ _ _ _ _ Sw)|done|done].
  - apply NoDup_cons. split; [done|exact (sw_nodup _ _ _ _ _ _ Sw)].
  - intros y. rewrite elem_of_cons. destruct (decide (y = x)); naive_solver.
  - cbn. lia.
  - intros _. cbn. destruct (decide (cpu_page c = Some p)); [by left|right]. rewrite Eb. by apply negb_true_iff, bool_decide_eq_false.
  - cbn. rewrite Eb. intros Hn%negb_true_iff%bool_decide_eq_false. done.
Qed.

Lemma set_on_partial_id b t : b = on_partial t -> set_on_partial b t = t.
Proof. intros ->. by destruct t. Qed.

Lemma wp_spill loc C P s k c x l (Q : () -> slub St -> Prop) :
  inv s loc C P -> caches s !! k = Some c -> C k = x :: l ->
  (forall s' P', inv s' (<[x := OnPage]> loc) (fset C k l) P' -> calm s s' -> Q () s') ->
  wp (spill k) Q s.
Proof.
  intros H Hc E HQ. destruct (head_on_cpu loc C P s k c x l H Hc E) as (Hx&Efl&_&_&_&Hk&_&sl&Hs&Ek).
  pose proof (i_cache _ _ _ _ _ H k c Hc) as Bw.
  assert (Hnf : inuse sl < objects sl) by (eapply not_full; [done|done|by eexists|congruence]).
  unfold spill. kstep. eapply wp_cpu_pop; [done..|]. kstep. eapply wp_page_of; [done..|]. kstep.
  eapply wp_slab_at; [exact Hs|]. kstep. apply wp_store; [done|]. kstep. eapply wp_slab_upd; [exact Hs|]. kstep.
  eapply wp_cache_at; [cbn; apply lookup_insert_eq|]. cbn [cpu_page set_cpu].
  rewrite (proj2 (Z.ltb_lt _ _) Hnf), andb_true_r.
  assert (Hold : on_partial sl = true -> cpu_page c <> Some (page_of x)).
  { intros Hon Hcp. destruct (cw_page _ _ _ _ Bw _ Hcp) as (t&Ht&_&?). congruence. }
  destruct (decide (cpu_page c = Some (page_of x))) as [Ecp|Ecp].
  - rewrite (bool_decide_false (Some (page_of x) <> cpu_page c)) by congruence. apply wp_ret.
    assert (Eoff : on_partial sl = false) by (destruct (on_partial sl); [by destruct Hold|done]).
    match goal with |- Q () ?s1 => destruct (inv_spilled loc C P s s1 k c x l sl false H Hc E Hs Ek) as [Hi Hca] end; try done;
      [| |by rewrite bool_decide_true|by eapply HQ].
    + cbn. by rewrite set_on_partial_id.
    + cbn. by rewrite decide_True.
  - rewrite (bool_decide_true (Some (page_of x) <> cpu_page c)) by congruence. unfold when, add_partial. kstep.
    eapply wp_slab_at; [cbn; apply lookup_insert_eq|]. cbn [on_partial set_freelist]. destruct (on_partial sl) eqn:Eon.
    + apply wp_ret. match goal with |- Q () ?s1 => destruct (inv_spilled loc C P s s1 k c x l sl true H Hc E Hs Ek) as [Hi Hca] end; try done;
        [| |by rewrite bool_decide_false|by eapply HQ].
      * cbn. by rewrite set_on_partial_id.
      * cbn. by rewrite decide_True.
    + kstep. eapply wp_slab_upd; [cbn; apply lookup_insert_eq|]. eapply wp_cache_upd; [cbn; apply lookup_insert_eq|].
      match goal with |- Q () ?s1 => destruct (inv_spilled loc C P s s1 k c x l sl true H Hc E Hs Ek) as [Hi Hca] end; try done;
        [| |by rewrite bool_decide_false|by eapply HQ].
      * cbn. by rewrite insert_insert_eq.
      * cbn. rewrite insert_insert_eq, decide_False by congruence. done.
Qed.

Lemma calm_cache s s' k c : calm s s' -> caches s !! k = Some c -> exists c', caches s' !! k = Some c' /\ c_size c' = c_size c /\ cpu_page c' = cpu_page c.
Proof.
  intros [[_ Hsh] _ _ _ Hpg] Hc. specialize (Hsh k). specialize (Hpg k). rewrite Hc in Hsh, Hpg.
  destruct (caches s' !! k) as [c'|]; [|done]. exists c'. cbn in *. split; [done|]. split; congruence.
Qed.

(** Who has an object in hand is not changed by moving free objects about. *)
Definition same_used loc loc' : Prop := forall x, loc' !! x = Some Used <-> loc !! x = Some Used.

Lemma same_used_insert loc x pl pl' : loc !! x = Some pl -> pl <> Used -> pl' <> Used -> same_used loc (<[x := pl']> loc).
Proof.
  intros Hx H1 H2 y. destruct (decide (y = x)) as [->|Hy]; [rewrite lookup_insert_eq; naive_solver|by rewrite lookup_insert_ne].
Qed.

Lemma wp_spill_while fuel limit k loc C P s c (Q : () -> slub St -> Prop) :
  inv s loc C P -> caches s !! k = Some c -> (length (C k) <= fuel)%nat ->
  (forall s' loc' C' P', inv s' loc' C' P' -> same_used loc loc' -> calm s s' -> Q () s') ->
  wp (spill_while fuel limit k) Q s.
Proof.
  revert loc C P s c. induction fuel as [|fuel IH]; intros loc C P s c H Hc Hl HQ; cbn [spill_while]; kstep; (eapply wp_cache_at; [done|]).
  all: assert (Hdone : Q () s) by (by eapply HQ).
  all: pose proof (chain_zero _ _ _ (cw_chain _ _ _ _ (i_cache _ _ _ _ _ H k c Hc))) as Hz.
  - rewrite bool_decide_false by (rewrite Hz; destruct (C k); [tauto|cbn in Hl; lia]). by apply wp_ret.
  - destruct (C k) as [|x l] eqn:E.
    { rewrite bool_decide_false by tauto. by apply wp_ret. }
    destruct (bool_decide _ && _); [|by apply wp_ret]. kstep. eapply wp_spill; [done..|]. intros s1 P1 H1 Hca.
    destruct (calm_cache s s1 k c Hca Hc) as (c1&Hc1&_&_).
    destruct (head_on_cpu loc C P s k c x l H Hc E) as (Hx&_).
    eapply (IH _ _ _ _ c1 H1 Hc1); [rewrite fset_eq; cbn in Hl; lia|]. intros s2 loc2 C2 P2 H2 Hu Hca2.
    eapply HQ; [exact H2| |by eapply calm_trans]. intros y. rewrite (Hu y). eapply same_used_insert; [exact Hx|done|done].
Qed.

Lemma wp_refill_loop n loc C P s k p c sl (Q : () -> slub St -> Prop) :
  inv s loc C P -> slabs s !! p = Some sl -> slab_cache sl = k -> caches s !! k = Some c -> cpu_page c = Some p ->
  (n = O -> C k <> []) -> (C k <> [] \/ P p <> []) ->
  (forall s' loc' C' P', inv s' loc' C' P' -> C' k <> [] -> same_used loc loc' -> calm s s' -> Q () s') ->
  wp (refill_loop n k p) Q s.
Proof.
  revert loc C P s sl c. induction n as [|n IH]; intros loc C P s sl c H Hs Ek Hc Hp Hn Hne HQ; cbn [refill_loop].
  { apply wp_ret. eapply HQ; [done|by apply Hn|done|done]. }
  pose proof (chain_zero _ _ _ (sw_chain _ _ _ _ _ _ (i_slab _ _ _ _ _ H p sl Hs))) as Hz.
  kstep. eapply wp_slab_at; [done|]. destruct (P p) as [|x l] eqn:E.
  - rewrite bool_decide_false by tauto. apply wp_ret. eapply HQ; [done|naive_solver|done|done].
  - subst k. rewrite bool_decide_true by (rewrite Hz; done).
    assert (Hin : x ∈ P p) by (rewrite E; apply list_elem_of_here). apply (i_P _ _ _ _ _ H) in Hin as [Hx _].
    destruct (wp_refill_one loc C P s p sl c x l (refill_loop n (slab_cache sl) p) Q H Hs Hc Hp E) as [Efl Hwp].
    + intros s1 H1 Hca. destruct (calm_cache s s1 _ c Hca Hc) as (c1&Hc1&_&Hp1).
      destruct (ca_shape _ _ Hca) as [Hsh _]. specialize (Hsh p). rewrite Hs in Hsh.
      destruct (slabs s1 !! p) as [sl1|] eqn:Hs1; [|done]. injection Hsh as Esc _.
      eapply (IH _ _ _ s1 sl1 c1); [exact H1|done|done|done|congruence|by rewrite fset_eq|left; by rewrite fset_eq|].
      intros s2 loc2 C2 P2 H2 Hne2 Hu Hca2. eapply HQ; [exact H2|done| |by eapply calm_trans].
      intros y. rewrite (Hu y). eapply same_used_insert; [exact Hx|done|done].
    + by rewrite Efl.
Qed.

(** ** The current page of a cache *)
Lemma same_slabs s s' (k : Z) : slabs s' = slabs s ->
  forall q t, slabs s !! q = Some t -> exists b, slabs s' !! q = Some (set_on_partial b t) /\ (slab_cache t <> k -> b = on_partial t).
Proof. intros E q t Ht. exists (on_partial t). rewrite E, set_on_partial_id; done. Qed.

(** What the slabs of a cache ask of its current page. *)
Lemma slab_asks loc C P s k c q t :
  inv s loc C P -> caches s !! k = Some c -> slabs s !! q = Some t -> slab_cache t = k ->
  (P q <> [] -> cpu_page c = Some q \/ on_partial t = true) /\ (on_partial t = true -> P q <> []).
Proof.
  intros H Hc Ht Ek. pose proof (i_slab _ _ _ _ _ H q t Ht) as Sw. destruct (sw_cache _ _ _ _ _ _ Sw) as (d&Hd&_&_&Hl).
  split; [|exact (sw_partial _ _ _ _ _ _ Sw)]. by simplify_eq.
Qed.

Lemma inv_counts loc C P s k c a f n :
  inv s loc C P -> caches s !! k = Some c ->
  let s' := set_caches (<[k := set_counts a f n c]> (caches s)) s in inv s' loc C P /\ calm s s'.
Proof.
  intros H Hc s'. pose proof (i_cache _ _ _ _ _ H k c Hc) as Bw. assert (Hi : inv s' loc C P).
  { eapply (inv_relink pm s loc C P s' k c); try done; try (by apply same_slabs); try apply Bw.
    intros q t Ht Ek. by eapply (slab_asks loc C P s k c). }
  split; [done|]. split; [|done..|].
  - split; [done|]. intros q. unfold s'. cbn. destruct (decide (q = k)) as [->|]; [by rewrite lookup_insert_eq, Hc|by rewrite lookup_insert_ne].
  - intros q. unfold s'. cbn. destruct (decide (q = k)) as [->|]; [by rewrite lookup_insert_eq, Hc|by rewrite lookup_insert_ne].
Qed.

Lemma inv_no_page loc C P s k c :
  inv s loc C P -> caches s !! k = Some c -> (forall q, cpu_page c = Some q -> P q = []) ->
  inv (set_caches (<[k := set_cpu_page None c]> (caches s)) s) loc C P.
Proof.
  intros H Hc Hq. set (s' := set_caches _ s). pose proof (i_cache _ _ _ _ _ H k c Hc) as Bw.
  eapply (inv_relink pm s loc C P s' k c); try done; try (by apply same_slabs); try apply Bw.
  intros q t Ht Ek. destruct (slab_asks loc C P s k c q t H Hc Ht Ek) as [Hl Hp]. split; [|done].
  intros Hne. destruct (Hl Hne) as [Hcp|]; [by destruct Hne; apply Hq|by right].
Qed.

(** The first partial page becomes the current one. *)
Lemma inv_take_partial loc C P s k c p rest sl :
  inv s loc C P -> caches s !! k = Some c -> partial c = p :: rest -> slabs s !! p = Some sl -> slab_cache sl = k ->
  (forall q, cpu_page c = Some q -> P q = []) ->
  inv (set_slabs (<[p := set_on_partial false sl]> (slabs s))
        (set_caches (<[k := set_cpu_page (Some p) (set_partial rest (Z.of_nat (length rest)) c)]> (caches s)) s)) loc C P.
Proof.
  intros H Hc Ep Hs Ek Hq. set (s' := set_slabs _ _). pose proof (i_cache _ _ _ _ _ H k c Hc) as Bw.
  pose proof (cw_pnodup _ _ _ _ Bw) as Hnd. rewrite Ep in Hnd. apply NoDup_cons in Hnd as [Hni Hnd].
  eapply (inv_relink pm s loc C P s' k c); try done; try apply Bw.
  - intros q t Ht. unfold s'. cbn. destruct (decide (q = p)) as [->|Hne].
    + exists false. rewrite lookup_insert_eq. assert (t = sl) as -> by congruence. by split.
    + exists (on_partial t). rewrite lookup_insert_ne, set_on_partial_id by done. done.
  - intros q Hn. unfold s'. cbn. rewrite lookup_insert_ne by congruence. done.
  - intros q. unfold s'. cbn. destruct (decide (q = p)) as [->|Hne].
    + rewrite lookup_insert_eq. split; [done|]. intros (t&[= <-]&_&?). done.
    + rewrite lookup_insert_ne by done. rewrite <-(cw_partial _ _ _ _ Bw q), Ep, elem_of_cons. naive_solver.
  - intros q [= <-]. unfold s'. cbn. rewrite lookup_insert_eq. by exists (set_on_partial false sl).
  - intros q t. unfold s'. cbn. destruct (decide (q = p)) as [->|Hne].
    + rewrite lookup_insert_eq. intros [= <-] _. split; [by left|done].
    + rewrite lookup_insert_ne by done. intros Ht Ekt. destruct (slab_asks loc C P s k c q t H Hc Ht Ekt) as [Hl Hp]. split; [|done].
      intros Hn. destruct (Hl Hn) as [Hcp|]; [by destruct Hn; apply Hq|by right].
Qed.

(** Nothing but the page allocator has changed. *)
Lemma inv_set_pmm loc C P s m :
  inv s loc C P -> pa_inv m -> (forall q, pa_free m q -> pa_free (pmm s) q) -> inv (set_pmm m s) loc C P.
Proof.
  intros [A1 A2 A3 A4 A5 A6 A7] Hm Hf. split; try done.
  - intros p Hp. apply A2. by apply Hf.
  - intros k c Hc. by destruct (A6 k c Hc).
  - intros p sl Hs. destruct (A7 p sl Hs) as [B1 B2 B3 B4 B5 B6]. split; try done. intros Hp. by apply B2, Hf.
Qed.

(** ** A new slab *)
Lemma wp_link_objects n a size s (Q : Z -> slub St -> Prop) :
  KERNBASE <= a -> 0 < size -> a + Z.of_nat n * size < 2 ^ 64 ->
  (forall h, (forall i, 0 <= i < Z.of_nat n -> h !! (a + i * size) = Some (a + (i + 1) * size)) ->
     (forall y, (forall i, 0 <= i < Z.of_nat n -> y <> a + i * size) -> h !! y = heap s !! y) -> Q (a + Z.of_nat n * size) (set_heap h s)) ->
  wp (link_objects n a size) Q s.
Proof.
  revert a s. induction n as [|n IH]; intros a s Ha Hsz Hend HQ; cbn [link_objects].
  { apply wp_ret. specialize (HQ (heap s) ltac:(lia) ltac:(done)). rewrite Z.add_0_r in HQ. by destruct s. }
  unfold KERNBASE in *. rewrite uwrap_small by nia. kstep. apply wp_store; [done|]. apply IH; [nia|done|nia|].
  intros h Hl Ho. cbn [heap set_heap] in Ho. replace (a + size + Z.of_nat n * size) with (a + Z.of_nat (S n) * size) by nia.
  apply (HQ h).
  - intros i Hi. destruct (decide (i = 0)) as [->|Hi0].
    + rewrite Ho by (intros j Hj; nia). rewrite Z.add_0_r, lookup_insert_eq. f_equal. lia.
    + replace (a + i * size) with (a + size + (i - 1) * size) by lia. rewrite Hl by lia. f_equal. lia.
  - intros y Hy. rewrite Ho.
    + apply lookup_insert_ne. intros ->. apply (Hy 0); lia.
    + intros j Hj ->. apply (Hy (j + 1)); lia.
Qed.

Lemma chain_objs h size p n : good_page p -> 8 <= size -> 0 < n ->
  (forall i, 0 <= i < n - 1 -> h !! obj_at size p i = Some (obj_at size p (i + 1))) ->
  h !! obj_at size p (n - 1) = Some 0 -> chain h (page_addr p) (objs size p n).
Proof.
  intros Hg Hsz Hn Hl Hlast.
  assert (Hk : forall k j, j = n - Z.of_nat k -> 0 <= j < n -> chain h (obj_at size p j) ((fun i => obj_at size p i) <$> seqZ j (n - j))).
  { induction k as [|k IH]; intros j Ej Hj; [lia|]. rewrite seqZ_cons by lia. cbn [fmap list_fmap chain].
    split; [done|]. split; [apply page_addr_pos; [done|nia]|]. destruct (decide (j = n - 1)) as [->|].
    - rewrite Hlast. replace (Z.pred (n - (n - 1))) with 0 by lia. done.
    - rewrite Hl by lia. cbn [default]. replace (Z.pred (n - j)) with (n - (j + 1)) by lia. apply IH; lia. }
  specialize (Hk (Z.to_nat n) 0 ltac:(lia) ltac:(lia)). rewrite Z.sub_0_r in Hk. unfold obj_at at 1 in Hk. by rewrite Z.add_0_r in Hk.
Qed.

Section new_slab.
Context {loc : gmap Z place} {C P : Z -> list Z} {s s' : slub St} {k p : Z} {c c' : kmem_cache}.
Hypotheses (H : inv s loc C P) (Hc : caches s !! k = Some c) (Hfree : pa_free (pmm s) p).
Let os := objs (c_size c) p (objects_per_slab c).
Let t := mk_slab false (page_addr p) (page_addr p) 0 (objects_per_slab c) k.
Hypotheses (Hpage : forall q, cpu_page c = Some q -> P q = []).
Hypotheses (Hpm : pa_inv (pmm s')) (Hpf : forall q, pa_free (pmm s') q -> pa_free (pmm s) q) (Hpt : ~ pa_free (pmm s') p).
Hypotheses (Es : slabs s' = <[p := t]> (slabs s)) (Ec : caches s' = <[k := c']> (caches s)).
Hypotheses (Hch : chain (heap s') (page_addr p) os) (Hh : forall y, y ∉ os -> heap s' !! y = heap s !! y).
Hypotheses (Ec' : c' = set_cpu_page (Some p) (set_counts (alloc_count c) (free_count c) (u64 (active_slabs c + 1)) c)).

Lemma ns_none : slabs s !! p = None.
Proof. destruct (slabs s !! p) as [x|] eqn:E; [|done]. by destruct (sw_taken _ _ _ _ _ _ (i_slab _ _ _ _ _ H p x E)). Qed.

Lemma ns_os x : x ∈ os -> page_of x = p /\ loc !! x = None.
Proof.
  intros Hx. apply objs_elem in Hx as (i&Hi&Ex). pose proof (i_cache _ _ _ _ _ H k c Hc) as [B1 B2 B3 _ _ _ _ _ _ _].
  assert (E : page_of x = p) by (subst x; by eapply obj_page). split; [done|].
  destruct (loc !! x) as [pl|] eqn:El; [|done]. destruct (object_slab pm H x pl El) as (y&_&Hy&_). rewrite E, ns_none in Hy. done.
Qed.

Definition placed : gmap Z place := gset_to_gmap OnPage (list_to_set os) ∪ loc.

Lemma placed_in x : x ∈ os -> placed !! x = Some OnPage.
Proof. intros Hx. apply lookup_union_Some_l, lookup_gset_to_gmap_Some. by rewrite elem_of_list_to_set. Qed.

Lemma placed_out x : x ∉ os -> placed !! x = loc !! x.
Proof. intros Hx. apply lookup_union_r, lookup_gset_to_gmap_None. by rewrite elem_of_list_to_set. Qed.

Lemma placed_used : same_used loc placed.
Proof.
  intros x. destruct (decide (x ∈ os)) as [Hx|Hx]; [|by rewrite placed_out].
  rewrite placed_in by done. destruct (ns_os x Hx) as [_ ->]. done.
Qed.

Lemma ns_object x q : object s' x q <-> object s x q \/ q = p /\ x ∈ os.
Proof.
  assert (Hsz : forall j, c_size <$> caches s' !! j = c_size <$> caches s !! j).
  { intros j. rewrite Ec. destruct (decide (j = k)) as [->|]; [rewrite lookup_insert_eq, Hc, Ec'; done|by rewrite lookup_insert_ne]. }
  split.
  - intros (x1&d&i&Hx1&Hd&Hi&Ex). rewrite Es in Hx1. destruct (decide (q = p)) as [->|Hq].
    + rewrite lookup_insert_eq in Hx1. injection Hx1 as <-. right. split; [done|]. apply objs_elem. exists i. split; [done|].
      cbn in Hd. rewrite Ec, lookup_insert_eq in Hd. injection Hd as <-. by rewrite Ec' in Ex.
    + rewrite lookup_insert_ne in Hx1 by done. left. specialize (Hsz (slab_cache x1)). rewrite Hd in Hsz.
      destruct (caches s !! slab_cache x1) as [e|] eqn:Ee; [|done]. injection Hsz as Hsz. exists x1, e, i. by rewrite <-Hsz.
  - intros [(x1&d&i&Hx1&Hd&Hi&Ex)|[-> Hx]].
    + assert (q <> p) by (intros ->; by rewrite ns_none in Hx1). specialize (Hsz (slab_cache x1)). rewrite Hd in Hsz.
      destruct (caches s' !! slab_cache x1) as [e|] eqn:Ee; [|done]. injection Hsz as Hsz.
      exists x1, e, i. rewrite Es, lookup_insert_ne, Hsz by done. done.
    + apply objs_elem in Hx as (i&Hi&Ex). exists t, c', i. rewrite Es, lookup_insert_eq, Ec. cbn [slab_cache objects t].
      rewrite lookup_insert_eq, Ec'. done.
Qed.

Lemma ns_cache_of x : x ∉ os -> loc !! x <> None -> cache_of s' x = cache_of s x.
Proof.
  intros Hx Hl. unfold cache_of. rewrite Es. destruct (decide (page_of x = p)) as [E|]; [|by rewrite lookup_insert_ne].
  destruct (loc !! x) as [pl|] eqn:El; [|done]. destruct (object_slab pm H x pl El) as (y&_&Hy&_). by rewrite E, ns_none in Hy.
Qed.

Lemma ns_chain a l : chain (heap s) a l -> (forall x, x ∈ l -> loc !! x <> None) -> chain (heap s') a l.
Proof.
  intros Hch0 Hl. eapply chain_frame; [|exact Hch0]. intros x Hx. apply Hh. intros Hos. by apply (Hl x Hx), ns_os.
Qed.

Lemma ns_cache_wf q d : caches s' !! q = Some d -> cache_wf s' C q d.
Proof.
  intros Hd. assert (Hold : exists e, caches s !! q = Some e /\ c_size d = c_size e /\ objects_per_slab d = objects_per_slab e /\
    cpu_freelist d = cpu_freelist e /\ freelist_count d = freelist_count e /\ partial d = partial e /\ nr_partial d = nr_partial e /\
    (cpu_page d = cpu_page e \/ q = k /\ cpu_page d = Some p)).
  { rewrite Ec in Hd. destruct (decide (q = k)) as [->|]; [rewrite lookup_insert_eq in Hd; injection Hd as <-; exists c; rewrite Ec'; naive_solver|].
    rewrite lookup_insert_ne in Hd by done. exists d. naive_solver. }
  destruct Hold as (e&He&E1&E2&E3&E4&E5&E6&E7). destruct (i_cache _ _ _ _ _ H q e He) as [B1 B2 B3 B4 B5 B6 B7 B8 B9 B10].
  assert (Hne : forall r y, slabs s !! r = Some y -> slabs s' !! r = Some y).
  { intros r y Hy. rewrite Es, lookup_insert_ne; [done|]. intros <-. by rewrite ns_none in Hy. }
  split; rewrite ?E1, ?E2, ?E3, ?E4, ?E5, ?E6; try done.
  - apply ns_chain; [done|]. intros x Hx. apply (i_C _ _ _ _ _ H) in Hx as [Hx _]. congruence.
  - intros r. rewrite B7. split; intros (y&Hy&Ey&Eo); exists y; (split; [|done]); [by apply Hne|].
    rewrite Es in Hy. destruct (decide (r = p)) as [->|]; [rewrite lookup_insert_eq in Hy; by injection Hy as <-|by rewrite lookup_insert_ne in Hy].
  - intros r Hr. destruct E7 as [E7|[-> E7]].
    + rewrite E7 in Hr. destruct (B10 r Hr) as (y&Hy&?). exists y. split; [by apply Hne|done].
    + assert (r = p) as -> by congruence. exists t. rewrite Es, lookup_insert_eq. done.
Qed.

Lemma ns_slab_wf q y : slabs s' !! q = Some y -> slab_wf pm s' placed (fset P p os) q y.
Proof.
  intros Hy. pose proof (i_cache _ _ _ _ _ H k c Hc) as [B1 B2 B3 _ _ _ _ _ _ _]. pose proof (i_free _ _ _ _ _ H p Hfree) as Hg.
  rewrite Es in Hy. destruct (decide (q = p)) as [->|Hq].
  - rewrite lookup_insert_eq in Hy. injection Hy as <-. split; rewrite ?fset_eq; try done; [apply objs_nodup; lia|].
    exists c'. cbn [slab_cache objects inuse on_partial t]. rewrite Ec, lookup_insert_eq, Ec'. split_and!; [done|done| |by left].
    cbn [c_size set_cpu_page set_counts]. symmetry. apply count_zero. intros x Hx. unfold used. apply bool_decide_eq_false.
    rewrite placed_in by done. done.
  - rewrite lookup_insert_ne in Hy by done. destruct (i_slab _ _ _ _ _ H q y Hy) as [D1 D2 D3 D4 (d&Hd&Do&Di&Hl) D6].
    split; rewrite ?fset_ne by done; try done.
    + intros Hf. by apply D2, Hpf.
    + apply ns_chain; [done|]. intros x Hx. apply (i_P _ _ _ _ _ H) in Hx as [Hx _]. congruence.
    + assert (Hcnt : inuse y = count (used placed) (objs (c_size d) q (objects y))).
      { rewrite Di. apply count_ext. intros x Hx. apply objs_elem in Hx as (i&Hi&->).
        destruct (object_at pm H q y d i Hy Hd Hi) as [Epg [pl Hpl]]. unfold used. rewrite placed_out; [done|].
        intros Hos. destruct (ns_os _ Hos) as [_ ?]. congruence. }
      rewrite Ec. destruct (decide (slab_cache y = k)) as [Ek|Ek].
      * exists c'. rewrite Ek, lookup_insert_eq, Ec'. assert (d = c) as -> by congruence. split_and!; [done|done|done|].
        intros Hn. destruct (Hl Hn) as [Hcp|]; [by destruct Hn; apply Hpage|by right].
      * exists d. rewrite lookup_insert_ne by congruence. done.
Qed.

Lemma inv_new_slab : inv s' placed C (fset P p os).
Proof.
  split; [exact Hpm| | | | |exact ns_cache_wf|exact ns_slab_wf].
  - intros q Hq. apply (i_free _ _ _ _ _ H). by apply Hpf.
  - intros x. rewrite ns_object. destruct (decide (x ∈ os)) as [Hx|Hx].
    + rewrite placed_in by done. destruct (ns_os x Hx) as [-> _]. split; [intros _; by right|intros _; by eexists].
    + rewrite placed_out by done. rewrite (i_obj _ _ _ _ _ H x). tauto.
  - intros q x. rewrite (i_C _ _ _ _ _ H q x). destruct (decide (x ∈ os)) as [Hx|Hx].
    + rewrite placed_in by done. destruct (ns_os x Hx) as [_ ->]. split; intros [? _]; done.
    + rewrite placed_out by done. split; intros [E1 E2]; (split; [done|]); [rewrite ns_cache_of; congruence|rewrite <-ns_cache_of; congruence].
  - intros q x. destruct (decide (q = p)) as [->|Hq].
    + rewrite fset_eq. split; [intros Hx; split; [by apply placed_in|by apply ns_os]|]. intros [E1 E2].
      destruct (decide (x ∈ os)) as [|Hx]; [done|]. rewrite placed_out in E1 by done.
      destruct (object_slab pm H x _ E1) as (y&_&Hy&_). by rewrite E2, ns_none in Hy.
    + rewrite fset_ne by done. rewrite (i_P _ _ _ _ _ H q x). destruct (decide (x ∈ os)) as [Hx|Hx].
      * rewrite placed_in by done. destruct (ns_os x Hx) as [-> ->]. split; intros [? ?]; congruence.
      * by rewrite placed_out.
Qed.
End new_slab.

(** ** Getting a page *)

(** Pages may be added; what is there stays. *)
Record grows s s' : Prop := {
  gr_slab p t : slabs s !! p = Some t -> exists t', slabs s' !! p = Some t' /\ slab_cache t' = slab_cache t /\ objects t' = objects t;
  gr_cache k : c_size <$> caches s' !! k = c_size <$> caches s !! k;
  gr_list : slub_caches s' = slub_caches s;
  gr_init : slub_initialized s' = slub_initialized s;
  gr_free q : pa_free (pmm s') q -> pa_free (pmm s) q;
}.

Lemma slub_grows_refl s : grows s s.
Proof. split; eauto. Qed.

Lemma slub_grows_trans s s1 s2 : grows s s1 -> grows s1 s2 -> grows s s2.
Proof.
  intros [A1 A2 A3 A4 A5] [B1 B2 B3 B4 B5]. split; [| |congruence|congruence|auto].
  2:{ intros k. by rewrite B2, A2. }
  intros p t Ht. destruct (A1 p t Ht) as (t1&Ht1&?&?). destruct (B1 p t1 Ht1) as (t2&Ht2&?&?). exists t2. split_and!; congruence.
Qed.

Lemma calm_grows s s' : calm s s' -> grows s s'.
Proof.
  intros [[A1 A2] Ep El Ei _]. split; try done; [..|intros q; by rewrite Ep].
  - intros p t Ht. specialize (A1 p). rewrite Ht in A1. destruct (slabs s' !! p) as [t'|]; [|done]. injection A1 as ? ?. by exists t'.
  - intros k. specialize (A2 k). destruct (caches s' !! k), (caches s !! k); cbn in *; congruence.
Qed.

(** The new slab, from the moment the page is there. *)
Lemma wp_cut_page loc C P s k c p m (Q : option Z -> slub St -> Prop) :
  inv s loc C P -> caches s !! k = Some c -> (forall q, cpu_page c = Some q -> P q = []) ->
  pa_inv m -> pa_free (pmm s) p -> (forall q, pa_free m q -> pa_free (pmm s) q) -> ~ pa_free m p ->
  (forall s', let os := objs (c_size c) p (objects_per_slab c) in
     inv s' (placed (loc := loc) (p := p) (c := c)) C (fset P p os) -> os <> [] -> grows s s' ->
     (exists sl, slabs s' !! p = Some sl /\ slab_cache sl = k) ->
     caches s' !! k = Some (set_cpu_page (Some p) (set_counts (alloc_count c) (free_count c) (u64 (active_slabs c + 1)) c)) -> Q (Some p) s') ->
  wp (modify (fun s => set_slabs (<[p := mk_slab false 0 0 0 0 0]> (slabs s)) s);;
      init_slab_freelist k p;;
      cache_upd k (fun c => set_counts (alloc_count c) (free_count c) (u64 (active_slabs c + 1)) c);;
      mret (Some p))
    (fun o s => wp (match o with Some page => cache_upd k (set_cpu_page (Some page));; mret o | None => mret None end) Q s) (set_pmm m s).
Proof.
  intros H Hc Hpage Hm Hfree Hpf Hpt HQ. pose proof (i_cache _ _ _ _ _ H k c Hc) as [B1 B2 B3 _ _ _ _ _ _ _].
  pose proof (i_free _ _ _ _ _ H p Hfree) as Hg. set (n := objects_per_slab c) in *.
  assert (Hn : n <= 512) by nia. assert (Hpa : KERNBASE <= page_addr p /\ page_addr p + 4096 <= 2 ^ 64).
  { split; [rewrite <-(Z.add_0_r (page_addr p)); by apply page_addr_pos|]. unfold good_page, page_addr in *. lia. }
  kstep. kstep. kstep. unfold init_slab_freelist. kstep. eapply wp_cache_at; [done|]. rewrite (page_to_virt_addr p Hg). kstep.
  eapply wp_slab_upd; [cbn; apply lookup_insert_eq|]. kstep. cbn [set_slabs set_pmm slabs]. fold n. rewrite uwrap_small by lia.
  apply wp_link_objects; [tauto|lia|rewrite Z2Nat.id by lia; nia|]. rewrite Z2Nat.id by lia. intros h Hl Ho.
  kstep. apply wp_store; [nia|]. eapply wp_slab_upd; [cbn; apply lookup_insert_eq|]. kstep. eapply wp_cache_upd; [exact Hc|]. kstep. kstep.
  eapply wp_cache_upd; [cbn; apply lookup_insert_eq|]. kstep. cbn [slabs caches heap set_slabs set_caches set_heap set_pmm on_partial] in *.
  rewrite !insert_insert_eq. set (s' := set_caches _ _). set (os := objs (c_size c) p n).
  assert (Eo : forall i, obj_at (c_size c) p i = page_addr p + i * c_size c) by done.
  assert (Hos : os <> []).
  { intros E. assert (Hi : obj_at (c_size c) p 0 ∈ os) by (apply objs_elem; exists 0; split; [lia|done]). rewrite E in Hi. by apply not_elem_of_nil in Hi. }
  apply (HQ s'); [|done| | |cbn; apply lookup_insert_eq].
  - eapply (inv_new_slab (s := s) (s' := s') (k := k) (p := p)); try done.
    + apply chain_objs; [done|done|lia|..].
      * intros i Hi. cbn. rewrite lookup_insert_ne by (rewrite Eo; nia). rewrite !Eo. apply Hl. lia.
      * cbn. rewrite Eo. by rewrite lookup_insert_eq.
    + intros y Hy. cbn. rewrite lookup_insert_ne.
      * apply Ho. intros i Hi ->. apply Hy, objs_elem. exists i. split; [lia|done].
      * intros <-. apply Hy, objs_elem. exists (n - 1). split; [lia|done].
  - split; try done; intros q; cbn.
    + intros y Hy. assert (q <> p) by (intros ->; by destruct (sw_taken _ _ _ _ _ _ (i_slab _ _ _ _ _ H p y Hy))).
      exists y. cbn. by rewrite lookup_insert_ne.
    + destruct (decide (q = k)) as [->|]; [by rewrite lookup_insert_eq, Hc|by rewrite lookup_insert_ne].
  - cbn. rewrite lookup_insert_eq. by eexists.
Qed.

(** [k] has a page with free objects. *)
Definition has_page P s (k p : Z) : Prop :=
  P p <> [] /\ (exists sl, slabs s !! p = Some sl /\ slab_cache sl = k) /\ exists c, caches s !! k = Some c /\ cpu_page c = Some p.

(** Every object of [k] is handed out. *)
Definition exhausted loc s (k : Z) : Prop := forall x, is_Some (loc !! x) -> cache_of s x = Some k -> loc !! x = Some Used.

Lemma all_used loc C P s k c : inv s loc C P -> caches s !! k = Some c -> C k = [] ->
  (forall q, cpu_page c = Some q -> P q = []) -> partial c = [] -> exhausted loc s k.
Proof.
  intros H Hc HC Hcp Hpa x [pl Hx] Hk. rewrite Hx. destruct pl; [done|..]; exfalso.
  - assert (x ∈ C k) by (by apply (i_C _ _ _ _ _ H)). rewrite HC in *. by eapply not_elem_of_nil.
  - assert (Hin : x ∈ P (page_of x)) by (by apply (i_P _ _ _ _ _ H)).
    unfold cache_of in Hk. destruct (slabs s !! page_of x) as [sl|] eqn:Hs; [|done]. injection Hk as Hk.
    destruct (slab_asks loc C P s k c _ sl H Hc Hs Hk) as [Hl _].
    assert (Hne : P (page_of x) <> []) by (intros E; rewrite E in Hin; by apply not_elem_of_nil in Hin).
    destruct (Hl Hne) as [E|Hon]; [by rewrite (Hcp _ E) in Hne|].
    assert (Hp : page_of x ∈ partial c) by (apply (cw_partial _ _ _ _ (i_cache _ _ _ _ _ H k c Hc)); by exists sl).
    rewrite Hpa in Hp. by apply not_elem_of_nil in Hp.
Qed.

Lemma filter_first (p : Z) l : p ∉ l -> filter (fun q => q <> p) (p :: l) = l.
Proof.
  intros Hp. rewrite filter_cons_False by tauto. apply list_filter_all_1 || idtac.
  induction l as [|q l IH]; [done|]. apply not_elem_of_cons in Hp as [Hq Hl]. rewrite filter_cons_True by done. by rewrite IH.
Qed.

Lemma wp_next_page loc C P s k c (Q : option Z -> slub St -> Prop) :
  inv s loc C P -> caches s !! k = Some c -> C k = [] -> (forall q, cpu_page c = Some q -> P q = []) ->
  (forall s' loc' P' p, inv s' loc' C P' -> same_used loc loc' -> grows s s' -> has_page P' s' k p -> Q (Some p) s') ->
  (forall s', inv s' loc C P -> grows s s' -> exhausted loc s' k -> Q None s') ->
  wp (match partial c with
      | page :: _ => remove_partial k page;; cache_upd k (set_cpu_page (Some page));; mret (Some page)
      | [] => o ← allocate_slab pm k;
          match o with Some page => cache_upd k (set_cpu_page (Some page));; mret o | None => mret None end
      end) Q s.
Proof.
  intros H Hc HC Hcp HQ HN. pose proof (i_cache _ _ _ _ _ H k c Hc) as Bw. destruct (partial c) as [|p rest] eqn:Ep.
  - unfold allocate_slab, on_pmm. kstep. kstep. apply wp_zoom. eapply wp_mono; [apply pa_alloc; [apply H|lia]|].
    intros o m [Hm Ho]. destruct o as [p|].
    + destruct Ho as [Hin Hout]. pose proof (pa_size_ge 1 ltac:(lia)) as H1.
      assert (Hp : run_of p (pa_size 1) p) by (unfold run_of; lia).
      eapply (wp_cut_page loc C P s k c p m); try done; [by apply Hin|intros q Hq; by apply Hout|intros Hq; by apply Hout in Hq as [_ []]|].
      intros s' os Hi Hos Hg Hsl Hc'. eapply HQ; [exact Hi|eapply (placed_used (s := s) (k := k) (C := C) (P := P)); try done; by apply Hin|done|].
      split; [by rewrite fset_eq|]. split; [done|]. by eexists.
    + kstep. kstep. apply HN; [apply inv_set_pmm; [done|done|intros q Hq; by apply Ho]| |].
      * split; try done; [by eauto|]. intros q Hq. by apply Ho.
      * by eapply (all_used loc C P s k c).
  - assert (Hin : p ∈ partial c) by (rewrite Ep; apply list_elem_of_here).
    apply (cw_partial _ _ _ _ Bw) in Hin as (sl&Hs&Ek&Hon).
    pose proof (cw_pnodup _ _ _ _ Bw) as Hnd. rewrite Ep in Hnd. apply NoDup_cons in Hnd as [Hni Hnd].
    pose proof (partial_short pm s loc C P k c H Hc) as Hsh. pose proof (cw_nr _ _ _ _ Bw) as Hnr. rewrite Ep in Hsh, Hnr. cbn [length] in *.
    unfold remove_partial. kstep. kstep. eapply wp_slab_at; [done|]. rewrite Hon. cbn [negb]. kstep. eapply wp_slab_upd; [done|].
    eapply wp_cache_upd; [exact Hc|]. kstep. eapply wp_cache_upd; [cbn; apply lookup_insert_eq|]. kstep.
    pose proof (inv_take_partial loc C P s k c p rest sl H Hc Ep Hs Ek Hcp) as Hi.
    assert (Hw : u64 (nr_partial c - 1) = Z.of_nat (length rest)) by (rewrite Hnr, uwrap_small; lia).
    match goal with |- Q _ ?s1 => set (s' := s1) end.
    assert (Es : s' = set_slabs (<[p := set_on_partial false sl]> (slabs s))
        (set_caches (<[k := set_cpu_page (Some p) (set_partial rest (Z.of_nat (length rest)) c)]> (caches s)) s)).
    { unfold s'. cbn. rewrite insert_insert_eq, Ep, filter_first, Hw by done. done. }
    rewrite <-Es in Hi. eapply HQ; [exact Hi|done| |].
    + rewrite Es. split; try done; [intros q t Ht; cbn|intros q; cbn].
      * destruct (decide (q = p)) as [->|]; [rewrite lookup_insert_eq|rewrite lookup_insert_ne by done; by exists t].
        exists (set_on_partial false sl). by simplify_eq.
      * destruct (decide (q = k)) as [->|]; [by rewrite lookup_insert_eq, Hc|by rewrite lookup_insert_ne].
    + rewrite Es. split; [exact (sw_partial _ _ _ _ _ _ (i_slab _ _ _ _ _ H p sl Hs) Hon)|]. cbn. rewrite !lookup_insert_eq.
      split; eexists; split; try done.
Qed.

Lemma wp_acquire loc C P s k c (Q : option Z -> slub St -> Prop) :
  inv s loc C P -> caches s !! k = Some c -> C k = [] ->
  (forall s' loc' P' p, inv s' loc' C P' -> same_used loc loc' -> grows s s' -> has_page P' s' k p -> Q (Some p) s') ->
  (forall s', inv s' loc C P -> grows s s' -> exhausted loc s' k -> Q None s') ->
  wp (acquire_slab pm k) Q s.
Proof.
  intros H Hc HC HQ HN. pose proof (i_cache _ _ _ _ _ H k c Hc) as Bw. unfold acquire_slab. kstep. eapply wp_cache_at; [done|].
  destruct (cpu_page c) as [p|] eqn:Ep.
  - destruct (cw_page _ _ _ _ Bw p Ep) as (sl&Hs&Ek&Hoff). pose proof (i_slab _ _ _ _ _ H p sl Hs) as Sw.
    pose proof (chain_zero _ _ _ (sw_chain _ _ _ _ _ _ Sw)) as Hz.
    kstep. kstep. eapply wp_slab_at; [done|]. kstep. destruct (decide (freelist sl = 0)) as [E0|E0].
    + rewrite (bool_decide_false (freelist sl <> 0)) by tauto. rewrite (bool_decide_true (freelist sl = 0)) by done.
      assert (Hcp : forall q, cpu_page c = Some q -> P q = []) by (intros q; rewrite Ep; intros [= <-]; by apply Hz).
      kstep. destruct (_ && _); cbn [when].
      * eapply wp_cache_upd; [done|].
        assert (Hg : grows s (set_caches (<[k := set_cpu_page None c]> (caches s)) s)).
        { split; try done; [by eauto|]. intros q. cbn. destruct (decide (q = k)) as [->|]; [by rewrite lookup_insert_eq, Hc|by rewrite lookup_insert_ne]. }
        eapply (wp_next_page loc C P _ k (set_cpu_page None c)); [by apply inv_no_page|cbn; apply lookup_insert_eq|done|done| |].
        -- intros s' loc' P' p' Hi Hu Hg' Hp. eapply HQ; [exact Hi|done|by eapply slub_grows_trans|done].
        -- intros s' Hi Hg' He. apply HN; [exact Hi|by eapply slub_grows_trans|done].
      * apply wp_ret. by eapply (wp_next_page loc C P).
    + rewrite bool_decide_true by done. apply wp_ret. eapply HQ; [exact H|done|apply slub_grows_refl|].
      split; [by rewrite Hz in E0|]. split; [by exists sl|by exists c].
  - kstep. kstep. kstep. by eapply (wp_next_page loc C P); [..|congruence| |].
Qed.

Lemma wp_refill loc C P s k c (Q : bool -> slub St -> Prop) :
  inv s loc C P -> caches s !! k = Some c -> C k = [] ->
  (forall s' loc' C' P', inv s' loc' C' P' -> C' k <> [] -> same_used loc loc' -> grows s s' -> Q true s') ->
  (forall s', inv s' loc C P -> grows s s' -> exhausted loc s' k -> Q false s') ->
  wp (refill_cpu_freelist pm k) Q s.
Proof.
  intros H Hc HC HQ HN. unfold refill_cpu_freelist. kstep. eapply wp_acquire; [done..| |].
  - intros s1 loc1 P1 p H1 Hu Hg (Hne&(sl&Hs&Ek)&c1&Hc1&Hp). kstep.
    eapply (wp_refill_loop SLUB_CPU_BATCH loc1 C P1 s1 k p c1 sl); try done; [by right|].
    intros s2 loc2 C2 P2 H2 Hne2 Hu2 Hca. destruct (calm_cache s1 s2 k c1 Hca Hc1) as (c2&Hc2&_).
    kstep. eapply wp_cache_at; [done|]. apply wp_ret.
    pose proof (chain_zero _ _ _ (cw_chain _ _ _ _ (i_cache _ _ _ _ _ H2 k c2 Hc2))) as Hz. rewrite bool_decide_true by (by rewrite Hz).
    eapply HQ; [exact H2|done|intros x; by rewrite (Hu2 x)|eapply slub_grows_trans; [done|by apply calm_grows]].
  - intros s1 H1 Hg He. apply wp_ret. by apply HN.
Qed.

(** ** Objects *)
Lemma grows_cache s s' k c : grows s s' -> caches s !! k = Some c -> exists c', caches s' !! k = Some c' /\ c_size c' = c_size c.
Proof.
  intros Hg Hc. pose proof (gr_cache _ _ Hg k) as E. rewrite Hc in E. destruct (caches s' !! k) as [c'|]; [|done].
  injection E as E. by exists c'.
Qed.

Lemma wp_alloc loc C P s k c (Q : option Z -> slub St -> Prop) :
  inv s loc C P -> caches s !! k = Some c ->
  (forall s' loc' C' P' x, inv s' (<[x := Used]> loc') C' P' -> same_used loc loc' -> loc' !! x = Some OnCpu ->
     cache_of s' x = Some k -> grows s s' -> Q (Some x) s') ->
  (forall s', inv s' loc C P -> grows s s' -> exhausted loc s' k -> Q None s') ->
  wp (kmem_cache_alloc pm (Some k)) Q s.
Proof.
  intros H Hc HQ HN. unfold kmem_cache_alloc. kstep. eapply wp_cache_upd; [exact Hc|].
  destruct (inv_counts loc C P s k c (u64 (alloc_count c + 1)) (free_count c) (active_slabs c) H Hc) as [H1 Hca].
  set (s1 := set_caches _ s) in *. set (c1 := set_counts _ _ _ c) in *.
  assert (Hc1 : caches s1 !! k = Some c1) by apply lookup_insert_eq. apply calm_grows in Hca.
  kstep. eapply wp_cache_at; [done|]. kstep.
  assert (Hend : forall s2 loc2 C2 P2, inv s2 loc2 C2 P2 -> C2 k <> [] -> same_used loc loc2 -> grows s1 s2 ->
    wp (object ← cpu_pop k; page ← virt_to_page object; slab_upd page (fun x => set_inuse (u32 (inuse x + 1)) x);; mret (Some object)) Q s2).
  { intros s2 loc2 C2 P2 H2 Hne Hu Hg. destruct (grows_cache s1 s2 k c1 Hg Hc1) as (c2&Hc2&_).
    destruct (C2 k) as [|x l] eqn:E; [done|]. assert (Hin : x ∈ C2 k) by (rewrite E; apply list_elem_of_here).
    apply (i_C _ _ _ _ _ H2) in Hin as [Hx Hk]. eapply wp_take; [done..|]. intros s3 H3 Hca3.
    eapply HQ; [exact H3|done|done| |].
    - rewrite <-Hk. apply shape_cache_of, Hca3.
    - eapply slub_grows_trans; [exact Hca|]. eapply slub_grows_trans; [exact Hg|by apply calm_grows]. }
  pose proof (chain_zero _ _ _ (cw_chain _ _ _ _ (i_cache _ _ _ _ _ H1 k c1 Hc1))) as Hz.
  destruct (decide (cpu_freelist c1 = 0)) as [E0|E0].
  - rewrite bool_decide_true by done. eapply wp_refill; [done|exact Hc1|by apply Hz| |].
    + intros s2 loc2 C2 P2 H2 Hne Hu Hg. cbn [negb]. by eapply Hend.
    + intros s2 H2 Hg He. apply wp_ret. apply HN; [exact H2|by eapply slub_grows_trans|done].
  - rewrite bool_decide_false by done. apply wp_ret. cbn [negb]. eapply Hend; [exact H1|by rewrite <-Hz|done|apply slub_grows_refl].
Qed.

Lemma wp_free loc C P s k c x (Q : () -> slub St -> Prop) :
  inv s loc C P -> caches s !! k = Some c -> loc !! x = Some Used -> cache_of s x = Some k ->
  (forall s' loc' C' P', inv s' loc' C' P' -> (forall y, loc' !! y = Some Used <-> loc !! y = Some Used /\ y <> x) -> calm s s' -> Q () s') ->
  wp (kmem_cache_free (Some k) x) Q s.
Proof.
  intros H Hc Hx Hk HQ. pose proof (object_addr loc C P s x _ H Hx) as Hk0. unfold KERNBASE in Hk0. unfold kmem_cache_free. rewrite bool_decide_false by lia.
  kstep. eapply wp_cache_upd; [exact Hc|].
  destruct (inv_counts loc C P s k c (alloc_count c) (u64 (free_count c + 1)) (active_slabs c) H Hc) as [H1 Hca1].
  set (s1 := set_caches _ s) in *. assert (Hc1 : caches s1 !! k = Some (set_counts (alloc_count c) (u64 (free_count c + 1)) (active_slabs c) c)) by apply lookup_insert_eq.
  unfold cache_of in Hk. destruct (slabs s !! page_of x) as [sl|] eqn:Hs; [|done]. injection Hk as Hk. rewrite <-Hk in Hc1 |- *.
  kstep. eapply wp_page_of; [exact H1|exact Hx|]. kstep. eapply wp_slab_at; [exact Hs|]. kstep. kstep; [by apply bool_decide_eq_true|].
  assert (Hdel : forall loc', same_used (<[x := OnCpu]> loc) loc' -> forall y, loc' !! y = Some Used <-> loc !! y = Some Used /\ y <> x).
  { intros loc' Hu y. rewrite (Hu y). destruct (decide (y = x)) as [->|Hy]; [rewrite lookup_insert_eq; naive_solver|rewrite lookup_insert_ne by done; tauto]. }
  rewrite Hk in *. apply wp_assoc. rewrite <-Hk. eapply wp_give_back; [exact H1|exact Hx|exact Hs|by rewrite Hk|].
  rewrite Hk. intros s2 H2 Hca2. destruct (calm_cache s1 s2 k _ Hca2 Hc1) as (c2&Hc2&_).
  kstep. eapply wp_cache_at; [done|]. assert (Hg2 : calm s s2) by (by eapply calm_trans).
  destruct (SLUB_CPU_LIMIT <? freelist_count c2); [|apply wp_ret; eapply HQ; [exact H2|by apply Hdel|done]].
  unfold when, flush_cpu_freelist. kstep. eapply wp_cache_at; [done|].
  eapply (wp_spill_while _ _ k _ _ P s2 c2 _ H2 Hc2).
  - pose proof (cw_count _ _ _ _ (i_cache _ _ _ _ _ H2 k c2 Hc2)). lia.
  - intros s3 loc3 C3 P3 H3 Hu3 Hca3. eapply HQ; [exact H3|by apply Hdel|by eapply calm_trans].
Qed.
End spec.
