(* ===== verification/Kmalloc.v ===== *)
(** [kmalloc] and [kfree] (kern/mm/slub.c) against the set of blocks that are
    handed out; the theorems hold for any page allocator, the witnesses run on
    [Buddy]. *)
From S2P Require Import Prelude Dlist PmmManager Buddy Slub SlubHeap SlubSpec.
#[local] Abbreviation length := Datatypes.length.

Section kmalloc.
Context {St : Type} (pm : pmm_manager St) `{!PhysAlloc pm}.
Implicit Types (s : slub St) (loc : gmap Z place) (C P : Z -> list Z) (A : gset Z).
Abbreviation inv := (inv pm).

(** ** The abstract state *)

(** The number of bytes of the object at [x]. *)
Definition usable s (x : Z) : Z :=
  default 0 (sl ← slabs s !! page_of x; c_size <$> caches s !! slab_cache sl).

(** The caches are those of [size_table]. *)
Definition sized s : Prop :=
  slub_initialized s = true /\ Forall2 (fun size k => c_size <$> caches s !! k = Some size) size_table (slub_caches s).

(** [A]: the objects that are handed out. *)
Definition rep s A : Prop := sized s /\ exists loc C P, inv s loc C P /\ forall x, x ∈ A <-> loc !! x = Some Used.

Definition disjoint_blocks (x n y m : Z) : Prop := x + n <= y \/ y + m <= x.

(** The blocks of [A] keep their sizes, and no page is taken from them. *)
Definition keeps_blocks s s' A : Prop :=
  (forall y, y ∈ A -> usable s' y = usable s y) /\ forall q, pa_free (pmm s') q -> pa_free (pmm s) q.

Lemma grows_sized s s' : grows pm s s' -> sized s -> sized s'.
Proof.
  intros Hg [Hi Hf]. split; [by rewrite (gr_init _ _ _ Hg)|]. rewrite (gr_list _ _ _ Hg).
  eapply Forall2_impl; [exact Hf|]. cbn. intros size k E. by rewrite (gr_cache _ _ _ Hg).
Qed.

Lemma usable_object loc C P s x pl : inv s loc C P -> loc !! x = Some pl ->
  exists sl c, slabs s !! page_of x = Some sl /\ caches s !! slab_cache sl = Some c /\ usable s x = c_size c.
Proof.
  intros H Hx. destruct (object_slab pm H x pl Hx) as (sl&c&Hs&Hc&_). exists sl, c. unfold usable. rewrite Hs. cbn. by rewrite Hc.
Qed.

Lemma grows_usable loc C P s s' x pl : inv s loc C P -> grows pm s s' -> loc !! x = Some pl -> usable s' x = usable s x.
Proof.
  intros H Hg Hx. destruct (usable_object loc C P s x pl H Hx) as (sl&c&Hs&Hc&->).
  destruct (gr_slab _ _ _ Hg _ _ Hs) as (sl'&Hs'&E&_). destruct (grows_cache pm s s' _ c Hg Hc) as (c'&Hc'&Ec).
  unfold usable. rewrite Hs'. cbn. by rewrite E, Hc'.
Qed.

Lemma objects_disjoint loc C P s x y pl pl' :
  inv s loc C P -> loc !! x = Some pl -> loc !! y = Some pl' -> x <> y -> disjoint_blocks x (usable s x) y (usable s y).
Proof.
  intros H Hx Hy Hne. destruct (object_slab pm H x pl Hx) as (sl&c&Hs&Hc&Hg&_&Hel&r&Hr&Hrs&Ex).
  destruct (object_slab pm H y pl' Hy) as (sl'&c'&Hs'&Hc'&Hg'&_&Hel'&r'&Hr'&Hrs'&Ey).
  assert (Eu : usable s x = c_size c) by (unfold usable; rewrite Hs; cbn; by rewrite Hc).
  assert (Eu' : usable s y = c_size c') by (unfold usable; rewrite Hs'; cbn; by rewrite Hc').
  rewrite Eu, Eu'. unfold disjoint_blocks. destruct (decide (page_of x = page_of y)) as [Ep|Ep].
  - pose proof (cw_size _ _ _ _ (i_cache _ _ _ _ _ H _ c Hc)). rewrite Ep in *. simplify_eq. apply objs_elem in Hel as (i&Hi&E1). apply objs_elem in Hel' as (j&Hj&E2).
    unfold obj_at in *. assert (i <> j) by (intros ->; lia).
    destruct (decide (i < j)); [left|right]; nia.
  - unfold page_addr in *. lia.
Qed.

(** Every object of cache [k] is handed out. *)
Definition full s A (k : Z) : Prop := forall x, object s x (page_of x) -> cache_of s x = Some k -> x ∈ A.

(** What is granted: a block of at least [size] bytes, inside a page that is
    not free and apart from every other block. *)
Record grant A s' (x size : Z) : Prop := {
  g_rep : rep s' (A ∪ {[x]});
  g_new : x ∉ A;
  g_size : size <= usable s' x;
  g_page : ~ pa_free (pmm s') (page_of x) /\ page_addr (page_of x) <= x /\ x + usable s' x <= page_addr (page_of x) + 4096;
  g_apart y : y ∈ A -> disjoint_blocks x (usable s' x) y (usable s' y);
}.

Lemma cache_for_spec sizes cs size :
  StronglySorted Z.lt sizes -> length sizes = length cs ->
  match cache_for sizes cs size with
  | Some k => exists i n, sizes !! i = Some n /\ cs !! i = Some k /\ size <= n /\ forall m, m ∈ sizes -> size <= m -> n <= m
  | None => Forall (fun n => n < size) sizes
  end.
Proof.
  revert cs. induction sizes as [|n sizes IH]; intros [|k cs] Hs Hl; cbn in *; try done.
  apply StronglySorted_inv in Hs as [Hs Hn]. destruct (Z.leb_spec size n).
  - exists O, n. split_and!; [done|done|done|]. intros m Hm _. apply elem_of_cons in Hm as [->|Hm]; [done|].
    rewrite Forall_forall in Hn. apply Z.lt_le_incl. by apply Hn.
  - specialize (IH cs Hs ltac:(lia)). destruct (cache_for sizes cs size) as [k'|].
    + destruct IH as (i&m&E1&E2&Hm&Hj). exists (S i), m. split_and!; [done|done|done|]. intros m' Hm'.
      apply elem_of_cons in Hm' as [->|Hm']; [lia|by apply Hj].
    + constructor; [lia|done].
Qed.

Lemma rep_take s A k c size (Q : option Z -> slub St -> Prop) :
  rep s A -> caches s !! k = Some c -> size <= c_size c ->
  (forall x s', grant A s' x size -> usable s' x = c_size c -> keeps_blocks s s' A -> Q (Some x) s') ->
  (forall s', rep s' A -> keeps_blocks s s' A -> full s A k -> Q None s') ->
  wp (kmem_cache_alloc pm (Some k)) Q s.
Proof.
  intros (Hsz&loc&C&P&H&HA) Hc Hle HQ HN. eapply wp_alloc; [exact H|exact Hc| |].
  - intros s' loc' C' P' x H' Hu Hx Hk Hg.
    assert (Hkeep : forall y, y ∈ A -> usable s' y = usable s y) by (intros y Hy; apply HA in Hy; by eapply grows_usable).
    assert (Hx' : <[x := Used]> loc' !! x = Some Used) by apply lookup_insert_eq.
    assert (HxA : x ∉ A) by (rewrite HA, <-(Hu x); congruence).
    destruct (object_slab pm H' x _ Hx') as (sl&c'&Hs&Hc'&_&Eco&_&r&Hr&Hrs&Ex).
    assert (Ek : slab_cache sl = k) by congruence. rewrite Ek in Hc'.
    destruct (grows_cache pm s s' k c Hg Hc) as (c2&Hc2&Esz). assert (c2 = c') as -> by congruence.
    assert (Eu : usable s' x = c_size c) by (unfold usable; rewrite Hs; cbn; by rewrite Ek, Hc').
    apply HQ; [|exact Eu|split; [done|apply Hg]]. split.
    + split; [by eapply grows_sized|]. exists (<[x := Used]> loc'), C', P'. split; [done|]. intros y. rewrite elem_of_union, elem_of_singleton, HA.
      destruct (decide (y = x)) as [->|Hy]; [rewrite lookup_insert_eq; naive_solver|rewrite lookup_insert_ne, (Hu y) by done; naive_solver].
    + done.
    + by rewrite Eu.
    + split; [exact (sw_taken _ _ _ _ _ _ (i_slab _ _ _ _ _ H' _ _ Hs))|]. rewrite Eu, <-Esz. lia.
    + intros y Hy. assert (y <> x) by (by intros ->). apply HA, Hu in Hy. eapply objects_disjoint; [exact H'|exact Hx'| |done].
      by rewrite lookup_insert_ne.
  - intros s' H' Hg He. apply HN.
    + split; [by eapply grows_sized|]. by exists loc, C, P.
    + split; [|apply Hg]. intros y Hy. apply HA in Hy. by eapply grows_usable.
    + intros x Hx Hk. apply HA, He; [by apply (i_obj _ _ _ _ _ H)|]. unfold cache_of in *.
      destruct (slabs s !! page_of x) as [sl|] eqn:Hs; [|done]. destruct (gr_slab _ _ _ Hg _ _ Hs) as (sl'&->&E&_). cbn in *. congruence.
Qed.

Lemma rep_free s A k x (Q : () -> slub St -> Prop) :
  rep s A -> x ∈ A -> cache_of s x = Some k ->
  (forall s', rep s' (A ∖ {[x]}) -> keeps_blocks s s' A -> same_shape s s' -> slub_caches s' = slub_caches s -> Q () s') ->
  wp (kmem_cache_free (Some k) x) Q s.
Proof.
  intros (Hsz&loc&C&P&H&HA) Hx Hk HQ. apply HA in Hx. destruct (object_slab pm H x _ Hx) as (sl&c&Hs&Hc&_&Eco&_).
  assert (Ek : slab_cache sl = k) by congruence. rewrite Ek in Hc. eapply wp_free; [exact H|exact Hc|exact Hx|exact Hk|].
  intros s' loc' C' P' H' Hu Hca. pose proof (calm_grows pm _ _ Hca) as Hg. apply HQ; [| |apply Hca|apply Hca].
  - split; [by eapply grows_sized|]. exists loc', C', P'. split; [done|]. intros y.
    rewrite elem_of_difference, elem_of_singleton, HA. by rewrite (Hu y).
  - split; [|apply Hg]. intros y Hy. apply HA in Hy. by eapply grows_usable.
Qed.

(** ** Requests of any size *)
Lemma order_loop_spec fuel order size s (Q : Z -> slub St -> Prop) :
  0 <= order <= 19 -> order + Z.of_nat fuel = 32 -> 0 < size <= 2 ^ 31 -> (order = 0 \/ 4096 * 2 ^ (order - 1) < size) ->
  (forall r, 0 <= r <= 19 -> size <= 4096 * 2 ^ r -> (r = 0 \/ 4096 * 2 ^ (r - 1) < size) -> Q r s) ->
  wp (order_loop fuel order size) Q s.
Proof.
  revert order. induction fuel as [|fuel IH]; intros order Ho Hf Hs Hmin HQ; [lia|]. cbn [order_loop].
  rewrite Z.shiftl_mul_pow2, Z.mul_1_l by lia. change PGSIZE with 4096.
  assert (Hp : 2 ^ order <= 2 ^ 19) by (apply Z.pow_le_mono_r; lia). pose proof (Z.pow_pos_nonneg 2 order ltac:(lia) ltac:(lia)).
  rewrite (swrap_small 32 (2 ^ order)) by lia. destruct (decide (order = 19)) as [->|Hne].
  - change (u64 (s32 (2 ^ 19 * 4096))) with (2 ^ 64 - 2 ^ 31). destruct (Z.ltb_spec (2 ^ 64 - 2 ^ 31) size); [lia|].
    apply wp_ret. apply HQ; [lia|lia|done].
  - assert (2 ^ order <= 2 ^ 18) by (apply Z.pow_le_mono_r; lia). rewrite swrap_small, uwrap_small by lia.
    destruct (Z.ltb_spec (2 ^ order * 4096) size).
    + apply IH; [lia|lia|done| |done]. right. rewrite Z.add_simpl_r. lia.
    + apply wp_ret. apply HQ; [done|lia|done].
Qed.

Lemma inv_rep_pmm s A m : rep s A -> pa_inv m -> (forall q, pa_free m q -> pa_free (pmm s) q) -> rep (set_pmm m s) A.
Proof. intros (Hsz&loc&C&P&H&HA) Hm Hf. split; [done|]. exists loc, C, P. split; [|done]. by apply inv_set_pmm. Qed.

(** Pages of their own for [size] bytes, from [p] on. *)
Definition page_grant s s' (p size : Z) : Prop := exists order,
  good_page p /\ 0 <= order /\ size <= 4096 * 2 ^ order /\ (order = 0 \/ 4096 * 2 ^ (order - 1) < size) /\
  forall q, run_of p (2 ^ order) q -> pa_free (pmm s) q /\ ~ pa_free (pmm s') q.

Lemma wp_large s A size (E : option Z -> St -> Prop) (Q : option Z -> slub St -> Prop) :
  rep s A -> 0 < size <= 2 ^ 31 -> (forall n, 0 < n -> wp (pm_alloc_pages pm n) E (pmm s)) ->
  (forall o m, let s' := set_pmm m s in
     rep s' A -> keeps_blocks s s' A -> E o m -> (forall p, o = Some p -> page_grant s s' p size) -> Q (page_to_virt <$> o) s') ->
  wp (order ← order_loop 32 0 size; r ← on_pmm (alloc_pages pm (s32 (Z.shiftl 1 order))); mret (page_to_virt <$> r)) Q s.
Proof.
  intros HR Hs HE HQ. pose proof HR as (_&loc&C&P&H&_). kstep. apply order_loop_spec; [lia|done|done|by left|]. intros r Hr Hle Hmin.
  assert (Hp : 2 ^ r <= 2 ^ 19) by (apply Z.pow_le_mono_r; lia). pose proof (Z.pow_pos_nonneg 2 r ltac:(lia) ltac:(lia)).
  rewrite Z.shiftl_mul_pow2, Z.mul_1_l, swrap_small by lia. unfold on_pmm. kstep. apply wp_zoom.
  eapply wp_mono; [apply wp_and; [apply pa_alloc; [apply H|done]|by apply HE]|]. intros o m [[Hm Ho] Hoe]. kstep.
  assert (Hf : forall q, pa_free m q -> pa_free (pmm s) q) by (intros q Hq; destruct o; by apply Ho).
  apply HQ; [by apply inv_rep_pmm|by split|done|]. intros p ->.
  destruct Ho as [Hin Hout]. pose proof (pa_size_ge (2 ^ r) ltac:(lia)) as Hge.
  assert (Hg : good_page p) by (apply (i_free _ _ _ _ _ H), Hin; unfold run_of; lia).
  exists r. split_and!; [done|lia|done|done|]. intros q Hq.
  assert (Hq' : run_of p (pa_size (2 ^ r)) q) by (unfold run_of in *; lia). split; [by apply Hin|]. cbn. rewrite Hout. tauto.
Qed.

(** Up to 2048 bytes come from the first cache that is large enough. *)
Lemma cache_for_rep s A size : rep s A ->
  match cache_for size_table (slub_caches s) size with
  | Some k => size <= 2048 /\ exists c, caches s !! k = Some c /\ size <= c_size c /\ c_size c ∈ size_table /\
                forall m, m ∈ size_table -> size <= m -> c_size c <= m
  | None => 2048 < size
  end.
Proof.
  intros [[_ Hf] _]. assert (Hst : StronglySorted Z.lt size_table) by (repeat constructor).
  assert (Hb : Forall (fun n => n <= 2048) size_table) by (repeat constructor; lia).
  pose proof (cache_for_spec size_table (slub_caches s) size Hst (Forall2_length _ _ _ Hf)) as Hc.
  destruct (cache_for _ _ _) as [k|].
  - destruct Hc as (i&n&Hi&Hk&Hle&Hmin). pose proof (Forall2_lookup_lr _ _ _ _ _ _ Hf Hi Hk) as E. cbn in E.
    destruct (caches s !! k) as [c|]; [|done]. injection E as E. assert (Hin : n ∈ size_table) by (by eapply list_elem_of_lookup_2).
    rewrite Forall_forall in Hb. specialize (Hb n Hin). split; [lia|]. exists c. by rewrite E.
  - rewrite Forall_forall in Hc. apply Hc. unfold size_table. rewrite !elem_of_cons. tauto.
Qed.

(** ** Properties *)
Lemma wp_kmalloc_small s A size (Q : option Z -> slub St -> Prop) :
  rep s A -> size <= 2048 ->
  (forall x s', grant A s' x size -> usable s' x ∈ size_table -> (forall m, m ∈ size_table -> size <= m -> usable s' x <= m) ->
     keeps_blocks s s' A -> Q (Some x) s') ->
  (forall k s', cache_for size_table (slub_caches s) size = Some k -> full s A k -> rep s' A -> keeps_blocks s s' A -> Q None s') ->
  wp (kmalloc pm size) Q s.
Proof.
  intros HR Hsz HQ HN. pose proof (cache_for_rep s A size HR) as Hc. unfold kmalloc, get_cache_for_size.
  kstep. kstep. rewrite (proj1 (proj1 HR)). cbn [negb]. kstep. kstep. kstep. kstep.
  destruct (cache_for size_table (slub_caches s) size) as [k|] eqn:Ek; [|lia]. destruct Hc as [_ (c&Hk&Hs&Hin&Hmin)].
  eapply rep_take; [exact HR|exact Hk|exact Hs| |].
  - intros x s' Hg Eu Hkeep. apply HQ; [done|by rewrite Eu|by rewrite Eu|done].
  - intros s' HR' Hkeep Hfull. by apply (HN k).
Qed.

Lemma rep_pmm s A : rep s A -> pa_inv (pmm s).
Proof. intros (_&loc&C&P&H&_). apply H. Qed.

Lemma wp_kmalloc_large s A size (E : option Z -> St -> Prop) (Q : option Z -> slub St -> Prop) :
  rep s A -> 2048 < size <= 2 ^ 31 -> (forall n, 0 < n -> wp (pm_alloc_pages pm n) E (pmm s)) ->
  (forall o m, let s' := set_pmm m s in
     rep s' A -> keeps_blocks s s' A -> E o m -> (forall p, o = Some p -> page_grant s s' p size) -> Q (page_to_virt <$> o) s') ->
  wp (kmalloc pm size) Q s.
Proof.
  intros HR Hsz HE HQ. pose proof (cache_for_rep s A size HR) as Hc. unfold kmalloc, get_cache_for_size.
  kstep. kstep. rewrite (proj1 (proj1 HR)). cbn [negb]. kstep. kstep. kstep. kstep.
  destruct (cache_for size_table (slub_caches s) size) as [k|]; [lia|]. eapply wp_large; [exact HR|lia|exact HE|exact HQ].
Qed.

(** A block of pages is given back as one page. *)
Lemma wp_kfree_page s A p (Q : () -> slub St -> Prop) :
  rep s A -> good_page p -> slabs s !! p = None -> pa_freeable (pmm s) p 1 ->
  (forall m, (forall q, pa_free m q <-> pa_free (pmm s) q \/ run_of p (pa_size 1) q) -> Q () (set_pmm m s)) ->
  wp (kfree pm (page_addr p)) Q s.
Proof.
  intros HR Hg Hs Hf HQ. pose proof (page_addr_pos p 0 Hg ltac:(lia)) as H0. rewrite Z.add_0_r in H0. unfold KERNBASE in H0.
  unfold kfree. kstep. kstep. rewrite (proj1 (proj1 HR)), (bool_decide_false (page_addr p = 0)) by lia. cbn [negb orb]. kstep.
  rewrite <-(Z.add_0_r (page_addr p)). apply wp_virt_to_page; [done|lia|]. rewrite Hs. unfold on_pmm. apply wp_zoom.
  eapply wp_mono; [apply pa_release; [by eapply rep_pmm|done]|]. intros [] m [_ Hm]. by apply HQ.
Qed.

Lemma wp_kfree s A x (Q : () -> slub St -> Prop) :
  rep s A -> x ∈ A ->
  (forall s', rep s' (A ∖ {[x]}) -> keeps_blocks s s' A -> same_shape s s' -> slub_caches s' = slub_caches s -> Q () s') ->
  wp (kfree pm x) Q s.
Proof.
  intros HR Hx HQ. pose proof HR as ([Hi _]&loc&C&P&H&HA). pose proof (proj1 (HA x) Hx) as Hl.
  destruct (object_slab pm H x _ Hl) as (sl&c&Hs&Hc&_&Eco&_). pose proof (object_addr pm loc C P s x _ H Hl) as Hk0. unfold KERNBASE in Hk0.
  unfold kfree. kstep. kstep. rewrite Hi, (bool_decide_false (x = 0)) by lia. cbn [negb orb]. kstep. eapply wp_page_of; [exact H|exact Hl|].
  rewrite Hs. by eapply rep_free.
Qed.

(** ** Properties *)

(** Property C13. [kmalloc] of at most 2048 bytes grants a block of the smallest class that fits,
    inside one page that no longer counts as free, apart from every block that is
    handed out; larger requests get pages of their own, in the smallest power of
    two.  The blocks handed out before are left alone.  NULL is returned for a
    small request only when every object of the class is in use. *)
Theorem kmalloc_spec s A size : rep s A -> 0 <= size <= 2 ^ 31 ->
  wp (kmalloc pm size) (fun o s' => keeps_blocks s s' A /\
    match o with
    | None => rep s' A /\ (size <= 2048 -> exists k, cache_for size_table (slub_caches s) size = Some k /\ full s A k)
    | Some x =>
        if decide (size <= 2048)
        then grant A s' x size /\ usable s' x ∈ size_table /\ forall m, m ∈ size_table -> size <= m -> usable s' x <= m
        else rep s' A /\ exists p, x = page_addr p /\ page_grant s s' p size
    end) s.
Proof.
  intros HR Hsz. destruct (decide (size <= 2048)) as [Hle|Hgt].
  - eapply wp_kmalloc_small; [exact HR|exact Hle| |]; [done|]. intros k s' Hk Hfull HR' Hkeep. split; [done|]. split; [done|]. by exists k.
  - eapply wp_kmalloc_large; [exact HR|lia|intros n Hn; eapply wp_mono; [apply pa_alloc; [by eapply rep_pmm|done]|by intros; exact I]|].
    intros o m s' HR' Hkeep _ Hgrant. split; [exact Hkeep|]. destruct o as [p|]; cbn [fmap option_fmap option_map]; [|split; [done|lia]].
    specialize (Hgrant p eq_refl). pose proof Hgrant as (?&Hg&_). split; [done|]. exists p. by rewrite page_to_virt_addr.
Qed.

(** [kfree] of a block takes exactly that block back; every other block keeps its
    place and size. *)
Theorem kfree_spec s A x : rep s A -> x ∈ A ->
  wp (kfree pm x) (fun _ s' => rep s' (A ∖ {[x]}) /\ keeps_blocks s s' A) s.
Proof. intros HR Hx. by eapply wp_kfree. Qed.

(** Property C29. Memory that has been given back is there for the next request: after [kfree]
    of a block of the class of [size], [kmalloc] of [size] bytes succeeds, even
    when no page is left. *)
Theorem kfree_kmalloc s A x size :
  rep s A -> x ∈ A -> size <= 2048 -> cache_of s x = cache_for size_table (slub_caches s) size ->
  wp (kfree pm x;; kmalloc pm size) (fun o s' => exists y, o = Some y /\ grant (A ∖ {[x]}) s' y size) s.
Proof.
  intros HR Hx Hsz Hco. kstep. eapply wp_kfree; [exact HR|exact Hx|]. intros s1 HR1 [Hu _] Hsh El.
  eapply wp_kmalloc_small; [exact HR1|exact Hsz|by eauto|]. intros k s2 Hk Hfull HR2 _. exfalso.
  pose proof HR as (_&loc&C&P&H&HA). pose proof (proj1 (HA x) Hx) as Hl.
  assert (Hin : x ∈ A ∖ {[x]}); [|set_solver]. apply Hfull.
  - apply (shape_object s s1); [done|]. apply (i_obj _ _ _ _ _ H). by eexists.
  - rewrite (shape_cache_of s s1), Hco by done. by rewrite <-El.
Qed.

(** Property C39. What [kmalloc] grants by the page is not given back whole: of a
    block of more than one page [kfree] returns only the first.  The other pages
    were free before the block was granted and are not free after it has been
    given back. *)
Theorem kfree_pages_refuted `{!PiecewiseAlloc pm} s A size : rep s A -> 4096 < size <= 2 ^ 31 ->
  wp (o ← kmalloc pm size; match o with Some x => kfree pm x | None => mret () end;; mret o) (fun o s' =>
    forall x, o = Some x -> exists p k, x = page_addr p /\ 1 <= k /\ size <= 4096 * 2 ^ k /\
      forall q, run_of p (2 ^ k) q -> pa_free (pmm s) q /\ (pa_free (pmm s') q <-> q = p)) s.
Proof.
  intros HR Hsz. pose proof HR as (_&loc&C&P&H&_). kstep.
  eapply wp_kmalloc_large; [exact HR|lia|intros n Hn; apply pw_alloc; [by eapply rep_pmm|done]|].
  intros [p|] m s' HR' _ Hone Hgrant; cbn [fmap option_fmap option_map]; [|by kstep; apply wp_ret, wp_ret].
  destruct (Hgrant p eq_refl) as (k&Hg&Hk0&Hk&_&Hrun). rewrite page_to_virt_addr by done. pose proof (Z.pow_pos_nonneg 2 k ltac:(lia) Hk0).
  assert (k <> 0) by (intros ->; lia). kstep. eapply wp_kfree_page; [exact HR'|exact Hg| |by apply Hone|].
  - destruct (slabs s !! p) as [sl|] eqn:E; [|exact E]. destruct (sw_taken _ _ _ _ _ _ (i_slab _ _ _ _ _ H p sl E)). apply Hrun. unfold run_of. lia.
  - intros m' Hm'. apply wp_ret. intros x [= <-]. exists p, k. split_and!; [done|lia|done|]. intros q Hq.
    destruct (Hrun q Hq) as [Hq1 Hq2]. split; [done|]. cbn in Hq2 |- *. rewrite Hm', pw_size. unfold run_of. split; [intros [|]; [done|lia]|right; lia].
Qed.

(** ** Booting *)

(** Between two rounds of the loop of [slub_init]. *)
Record booting s (sizes : list Z) : Prop := {
  bo_pmm : pa_inv (pmm s);
  bo_free p : pa_free (pmm s) p -> good_page p;
  bo_slabs : slabs s = ∅;
  bo_cache k c : caches s !! k = Some c -> ~ pa_free (pmm s) k /\ cache_wf s (fun _ => []) k c;
  bo_sizes : Forall2 (fun size k => c_size <$> caches s !! k = Some size) sizes (slub_caches s);
}.

Lemma wlp_init_caches stale sizes done_sizes s (Q : () -> slub St -> Prop) :
  booting s done_sizes -> Forall (fun n => 8 <= n <= 4096) sizes ->
  (forall s', booting s' (done_sizes ++ sizes) -> Q () s') -> wlp (init_caches pm stale sizes) Q s.
Proof.
  revert done_sizes s. induction sizes as [|n sizes IH]; intros ds s Hb Hs HQ; cbn [init_caches].
  { apply wlp_ret. rewrite app_nil_r in HQ. by apply HQ. }
  apply Forall_cons in Hs as [Hn Hs]. destruct Hb as [B1 B2 B3 B4 B5].
  apply wlp_bind_wp. unfold on_pmm. apply wp_zoom. eapply wp_mono; [by apply pa_alloc|]. intros o m [Hm Ho].
  apply wlp_bind, wlp_unwrap. intros k ->. destruct Ho as [Hin Hout]. pose proof (pa_size_ge 1 ltac:(lia)) as H1.
  assert (Hk : run_of k (pa_size 1) k) by (unfold run_of; lia).
  assert (Hnew : caches s !! k = None). { destruct (caches s !! k) as [c|] eqn:E; [|done]. destruct (B4 k c E) as [[] _]. by apply Hin. }
  apply wlp_bind_wp, wp_modify. apply wlp_bind_wp, wp_modify. cbn [set_caches set_slub_caches set_pmm pmm slabs caches slub_caches heap slub_initialized].
  apply (IH (ds ++ [n])); [|done|by rewrite <-app_assoc]. split; cbn; [done| |done| |].
  - intros p Hp. apply B2. by apply Hout.
  - intros q c Hq. destruct (decide (q = k)) as [->|Hne].
    + rewrite lookup_insert_eq in Hq. injection Hq as <-. split; [intros Hf; by apply Hout in Hf as [_ []]|].
      split; cbn; try done; [lia|unfold PGSIZE; zlia|unfold PGSIZE; zlia|constructor| |constructor].
      intros q. rewrite B3. split; [by intros ?%not_elem_of_nil|intros (sl&E&_); done].
    + rewrite lookup_insert_ne in Hq by done. destruct (B4 q c Hq) as [Hnf [A1 A2 A3 A4 A5 A6 A7 A8 A9 A10]].
      split; [intros Hf; by apply Hout in Hf as [? _]|by split].
  - apply Forall2_app; [|constructor; [by rewrite lookup_insert_eq|constructor]].
    eapply Forall2_impl; [exact B5|]. cbn. intros size q E. rewrite lookup_insert_ne; [done|]. intros <-. by rewrite Hnew in E.
Qed.

(** The allocator before [slub_init]. *)
Definition unbooted (m : St) : slub St := mk_slub m ∅ ∅ [] false ∅.

Lemma wlp_slub_init stale m : pa_inv m -> (forall p, pa_free m p -> good_page p) ->
  wlp (slub_init pm stale) (fun _ s => rep s ∅) (unbooted m).
Proof.
  intros Hm Hf. unfold slub_init. apply wlp_bind. apply (wlp_init_caches stale size_table []).
  - by split.
  - unfold size_table. repeat constructor; lia.
  - intros s [B1 B2 B3 B4 B5]. apply wp_wlp, wp_modify. split; [by split|]. exists ∅, (fun _ => []), (fun _ => []). split.
    + split; cbn; try done; [..|intros p sl; by rewrite B3].
      * intros x. rewrite lookup_empty. split; [by intros []|]. intros (sl&c&i&Hs&_). cbn in Hs. by rewrite B3 in Hs.
      * intros k x. rewrite lookup_empty. split; [by intros ?%not_elem_of_nil|by intros []].
      * intros k x. rewrite lookup_empty. split; [by intros ?%not_elem_of_nil|by intros []].
      * intros k c Hc. destruct (B4 k c Hc) as [_ []]. by split.
    + intros x. rewrite lookup_empty. split; [by intros ?%elem_of_empty|done].
Qed.
End kmalloc.

(** ** On the buddy allocator *)

(** [ex_state] of [Buddy], built in a way that evaluates quickly. *)
Fixpoint upfrom (n : nat) (a : Z) : list Z := match n with O => [] | S n => a :: upfrom n (a + 1) end.
Definition table {A} (f : Z -> A) (a n : Z) : gmap Z A := list_to_map ((fun q => (q, f q)) <$> upfrom (Z.to_nat n) a).

Lemma upfrom_seqZ a n : 0 <= n -> upfrom (Z.to_nat n) a = seqZ a n.
Proof.
  intros Hn. rewrite <-(Z2Nat.id n) at 2 by done. generalize (Z.to_nat n) as m. intros m. revert a.
  induction m as [|m IH]; intros a; [done|]. rewrite seqZ_cons by lia. cbn. f_equal. rewrite IH. f_equal; lia.
Qed.

Lemma table_lookup {A} (f : Z -> A) a n q x : 0 <= n -> table f a n !! q = Some x <-> a <= q < a + n /\ x = f q.
Proof.
  intros Hn. unfold table. rewrite upfrom_seqZ by done. rewrite <-elem_of_list_to_map.
  - rewrite list_elem_of_fmap. setoid_rewrite elem_of_seqZ. naive_solver.
  - rewrite <-list_fmap_compose. unfold compose; cbn. rewrite list_fmap_id. apply NoDup_seqZ.
Qed.

Lemma table_gset {A} (v : A) a n : 0 <= n -> gset_to_gmap v (list_to_set (seqZ a n) : gset Z) = table (fun _ => v) a n.
Proof.
  intros Hl. apply map_eq. intros q. apply option_eq. intros x. rewrite table_lookup by done.
  rewrite lookup_gset_to_gmap_Some, elem_of_list_to_set, elem_of_seqZ. naive_solver.
Qed.

Lemma table_set_to_map {A} (f : Z -> A) a n : 0 <= n -> set_to_map (fun q => (q, f q)) (list_to_set (seqZ a n) : gset Z) = table f a n.
Proof.
  intros Hl. apply map_eq. intros q. apply option_eq. intros x. rewrite table_lookup by done.
  rewrite lookup_set_to_map by (by intros ????). setoid_rewrite elem_of_list_to_set. setoid_rewrite elem_of_seqZ. naive_solver.
Qed.

Definition ex_fast : bstate := mk_bstate
  (<[8192 := ex_desc true 8192]> (table (fun _ => ex_desc false 0) 0 16384))
  (<[8192 := mk_entry (-14) (-14)]> (<[-14 := mk_entry 8192 8192]> (table (fun q => mk_entry q q) (-15) 16399)))
  (<[13 := 1]> (table (fun _ => 0) 0 15)).

Lemma ex_fast_eq : ex_fast = ex_state.
Proof. unfold ex_fast, ex_state. by rewrite !table_gset, table_set_to_map. Qed.

Lemma ex_good p : pa_free ex_fast p -> good_page p.
Proof.
  rewrite ex_fast_eq. intros H. apply (page_free_in _ _ p ex_inv) in H as (i&q&_&[-> ->]%ex_in_lists&Hq).
  change (2 ^ 13) with 8192 in Hq. unfold good_page. lia.
Qed.

(** The state a run ends in. *)
Definition after {S A} (m : K S A) (s : S) : option (A * S) :=
  match m s with Done r => Some r | _ => None end.

Lemma wp_after {S A} (m : K S A) (Q : A -> S -> Prop) s r : after m s = Some r -> wlp m Q s -> Q r.1 r.2.
Proof. unfold after, wlp. destruct (m s) as [[a s']| |]; [|done..]. by intros [= <-]. Qed.

Definition ex_boot : slub bstate :=
  default (unbooted ex_fast) (snd <$> after (slub_init buddy_pmm_manager 0) (unbooted ex_fast)).

Lemma ex_boot_rep : rep buddy_pmm_manager ex_boot ∅.
Proof.
  assert (Hi : pa_inv ex_fast) by (exists ex_lists; rewrite ex_fast_eq; exact ex_inv).
  pose proof (wlp_slub_init buddy_pmm_manager 0 ex_fast Hi ex_good) as H.
  assert (Hs : match after (slub_init buddy_pmm_manager 0) (unbooted ex_fast) with Some _ => true | None => false end = true) by (vm_compute; reflexivity).
  unfold ex_boot. destruct (after _ _) as [r|] eqn:E; [|discriminate Hs]. exact (wp_after _ _ _ r E H).
Qed.

Lemma kmalloc_spec_witness :
  wp (kmalloc buddy_pmm_manager 100) (fun o s' => keeps_blocks buddy_pmm_manager ex_boot s' ∅ /\
    match o with
    | None => rep buddy_pmm_manager s' ∅ /\ (100 <= 2048 -> exists k, cache_for size_table (slub_caches ex_boot) 100 = Some k /\ full ex_boot ∅ k)
    | Some x =>
        if decide (100 <= 2048)
        then grant buddy_pmm_manager ∅ s' x 100 /\ usable s' x ∈ size_table /\ forall m, m ∈ size_table -> 100 <= m -> usable s' x <= m
        else rep buddy_pmm_manager s' ∅ /\ exists p, x = page_addr p /\ page_grant buddy_pmm_manager ex_boot s' p 100
    end) ex_boot.
Proof. exact (kmalloc_spec buddy_pmm_manager ex_boot ∅ 100 ex_boot_rep ltac:(split; discriminate)). Defined.

(** One block of 128 bytes is handed out. *)
Definition ex_used : slub bstate := default ex_boot (snd <$> after (kmalloc buddy_pmm_manager 100) ex_boot).
Definition ex_block : Z := obj_at 128 8200 7.

Lemma ex_used_rep : rep buddy_pmm_manager ex_used {[ex_block]} /\ cache_of ex_used ex_block = cache_for size_table (slub_caches ex_used) 100.
Proof.
  assert (Hs : fst <$> after (kmalloc buddy_pmm_manager 100) ex_boot = Some (Some ex_block)) by (vm_compute; reflexivity).
  split; [|vm_compute; reflexivity].
  assert (H : wp (kmalloc buddy_pmm_manager 100) (fun o s' => forall x, o = Some x -> rep buddy_pmm_manager s' {[x]}) ex_boot).
  { eapply wp_kmalloc_small; [exact ex_boot_rep|lia| |discriminate]. intros x s' Hg _ _ _ y [= <-].
    pose proof (g_rep _ _ _ _ _ Hg) as HR. by rewrite union_empty_l_L in HR. }
  unfold ex_used. destruct (after _ _) as [[o s]|] eqn:E; [|discriminate Hs]. cbn [fmap option_fmap option_map fst snd default] in *.
  injection Hs as ->. exact (wp_after _ _ _ _ E (wp_wlp _ _ _ H) ex_block eq_refl).
Qed.

Lemma kfree_spec_witness :
  wp (kfree buddy_pmm_manager ex_block) (fun _ s' =>
    rep buddy_pmm_manager s' ({[ex_block]} ∖ {[ex_block]}) /\ keeps_blocks buddy_pmm_manager ex_used s' {[ex_block]}) ex_used.
Proof. exact (kfree_spec buddy_pmm_manager ex_used {[ex_block]} ex_block (proj1 ex_used_rep) (proj2 (elem_of_singleton _ _) eq_refl)). Defined.

Lemma kfree_kmalloc_witness :
  wp (kfree buddy_pmm_manager ex_block;; kmalloc buddy_pmm_manager 100) (fun o s' =>
    exists y, o = Some y /\ grant buddy_pmm_manager ({[ex_block]} ∖ {[ex_block]}) s' y 100) ex_used.
Proof.
  exact (kfree_kmalloc buddy_pmm_manager ex_used {[ex_block]} ex_block 100 (proj1 ex_used_rep)
    (proj2 (elem_of_singleton _ _) eq_refl) ltac:(discriminate) (proj2 ex_used_rep)).
Defined.

(** The second page of 8192 bytes is lost. *)
Lemma kfree_pages_refuted_witness :
  wp (o ← kmalloc buddy_pmm_manager 8192; match o with Some x => kfree buddy_pmm_manager x | None => mret () end;; mret o) (fun o s' =>
    forall x, o = Some x -> exists p k, x = page_addr p /\ 1 <= k /\ 8192 <= 4096 * 2 ^ k /\
      forall q, run_of p (2 ^ k) q -> pa_free (pmm ex_boot) q /\ (pa_free (pmm s') q <-> q = p)) ex_boot /\
  match after (kmalloc buddy_pmm_manager 8192) ex_boot with Some (o, _) => bool_decide (is_Some o) | None => false end = true.
Proof.
  split; [exact (kfree_pages_refuted buddy_pmm_manager ex_boot ∅ 8192 ex_boot_rep ltac:(split; [reflexivity|discriminate]))|vm_compute; reflexivity].
Defined.
