(* ===== verification/PageTable.v ===== *)
(** kern/mm/mmu.h, pmm.h and pmm.c: the three-level Sv39 page tables.  Physical
    memory is a function from word numbers to 64-bit words, a page a number of a
    frame, and the pointer to a table entry the number of its word; the kernel's
    linear map makes this exact.  [node] follows a path of indices from a root;
    [pt_inv] says that the tables reachable from the page directories [R] form
    disjoint trees of allocated pages, and that the reference count of every
    other page is the number of entries that map it.  Addresses are those of
    user space: the kernel's half of a directory is shared and never walked. *)
From S2P Require Import Prelude PmmManager.

(** ** mmu.h and memlayout.h *)

Definition PGSIZE := 4096.
Definition PTSIZE := PGSIZE * 512.
Definition PDSIZE := PTSIZE * 512.
Definition NPTEENTRY := 512.
Definition USERBASE := 0x00200000.
Definition USERTOP := 0x80000000.
Definition KERNBASE := 0xFFFFFFFFC0200000.
Definition KERNTOP := KERNBASE + 0x7E00000.

Definition USER_ACCESS (start end_ : Z) : bool := (USERBASE <=? start) && (start <? end_) && (end_ <=? USERTOP).
Definition KERN_ACCESS (start end_ : Z) : bool := (KERNBASE <=? start) && (start <? end_) && (end_ <=? KERNTOP).

Definition PTE_V := 0x001.
Definition PTE_R := 0x002.
Definition PTE_W := 0x004.
Definition PTE_X := 0x008.
Definition PTE_U := 0x010.
Definition PTE_A := 0x040.
Definition PTE_D := 0x080.
Definition PTE_USER := Z.lor PTE_R (Z.lor PTE_W (Z.lor PTE_X (Z.lor PTE_U PTE_V))).

Definition PDX1 (la : Z) : Z := Z.land (Z.shiftr la 30) 0x1FF.
Definition PDX0 (la : Z) : Z := Z.land (Z.shiftr la 21) 0x1FF.
Definition PTX (la : Z) : Z := Z.land (Z.shiftr la 12) 0x1FF.
Definition PPN (la : Z) : Z := Z.shiftr la 12.
Definition PTE_ADDR (pte : Z) : Z := u64 (Z.shiftl (Z.land pte (Z.lnot 0x3FF)) 2).
Definition PDE_ADDR (pde : Z) : Z := PTE_ADDR pde.

(** [x & flag] as a condition. *)
Definition has (x flag : Z) : bool := bool_decide (Z.land x flag <> 0).

(** [DRAM_BASE / PGSIZE] *)
Definition nbase := 0x80000.

Definition page2ppn (page : Z) : Z := page + nbase.
Definition pte_create (ppn type : Z) : Z := Z.lor (Z.lor (u64 (Z.shiftl ppn 10)) PTE_V) type.

(** ** State *)

Section model.
Context {St : Type} `{!PageStore St} (pm : pmm_manager St).

(** The number of page frames, a variable of the kernel set at boot. *)
Context (npage : Z).

Record pt_state := mk_pt { phys : St; mem : Z -> Z }.

Definition on_pmm {A} (m : K St A) : K pt_state A := zoom phys (fun p s => mk_pt p (mem s)) m.
Definition alloc_page : K pt_state (option Z) := on_pmm (alloc_pages pm 1).
Definition free_page (page : Z) : K pt_state () := on_pmm (free_pages pm page 1).

(** Memory outside the frames of the machine cannot be reached. *)
Definition frame (ppn : Z) : bool := (nbase <=? ppn) && (ppn <? npage).

Definition rd (w : Z) : K pt_state Z := assert (frame (w / 512));; gets (fun s => mem s w).
Definition wr (w v : Z) : K pt_state () :=
  assert (frame (w / 512));; modify (fun s => mk_pt (phys s) (fun a => if a =? w then v else mem s a)).

(** [KADDR], as the number of the frame. *)
Definition KADDR (pa : Z) : K pt_state Z := assert (PPN pa <? npage);; mret (PPN pa).
Definition pa2page (pa : Z) : K pt_state Z := assert (PPN pa <? npage);; mret (PPN pa - nbase).
Definition page2kva (page : Z) : K pt_state Z := KADDR (Z.shiftl (page2ppn page) 12).
Definition pte2page (pte : Z) : K pt_state Z := assert (has pte PTE_V);; pa2page (PTE_ADDR pte).
Definition pde2page (pde : Z) : K pt_state Z := pa2page (PDE_ADDR pde).

(** [memset(KADDR(pa), 0, PGSIZE)] and [memcpy(dst, src, PGSIZE)] on frames. *)
Definition clear_frame (p : Z) : K pt_state () :=
  assert (frame p);; modify (fun s => mk_pt (phys s) (fun a => if a / 512 =? p then 0 else mem s a)).
Definition copy_frame (dst src : Z) : K pt_state () :=
  assert (frame dst && frame src);;
  modify (fun s => mk_pt (phys s) (fun a => if a / 512 =? dst then mem s (src * 512 + a mod 512) else mem s a)).

(** ** Operations *)

(** One level of [get_pte]: make sure the entry points to a table. *)
Definition get_table (pdep : Z) (create : bool) : K pt_state bool :=
  e ← rd pdep;
  if has e PTE_V then mret true
  else if negb create then mret false
  else
    o ← alloc_page;
    match o with
    | None => mret false
    | Some page =>
        on_pmm (set_page_ref page 1);;
        p ← KADDR (Z.shiftl (page2ppn page) 12);
        clear_frame p;;
        wr pdep (pte_create (page2ppn page) (Z.lor PTE_U PTE_V));;
        mret true
    end.

Definition get_pte (pgdir la : Z) (create : bool) : K pt_state (option Z) :=
  let pdep1 := pgdir * 512 + PDX1 la in
  ok ← get_table pdep1 create;
  if negb ok then mret None
  else
    e1 ← rd pdep1;
    pd0 ← KADDR (PDE_ADDR e1);
    let pdep0 := pd0 * 512 + PDX0 la in
    ok ← get_table pdep0 create;
    if negb ok then mret None
    else
      e0 ← rd pdep0;
      pt ← KADDR (PDE_ADDR e0);
      mret (Some (pt * 512 + PTX la)).

(** The page and what is stored through [ptep_store]. *)
Definition get_page (pgdir la : Z) : K pt_state (option Z * option Z) :=
  ptep ← get_pte pgdir la false;
  match ptep with
  | None => mret (None, ptep)
  | Some w =>
      pte ← rd w;
      if has pte PTE_V then page ← pte2page pte; mret (Some page, ptep) else mret (None, ptep)
  end.

(** The TLB caches translations only; it has no place in the state. *)
Definition tlb_invalidate (pgdir la : Z) : K pt_state () := mret ().

Definition page_remove_pte (pgdir la ptep : Z) : K pt_state () :=
  pte ← rd ptep;
  when (has pte PTE_V)
    (page ← pte2page pte;
     r ← on_pmm (page_ref_dec page);
     when (bool_decide (r = 0)) (free_page page);;
     wr ptep 0;;
     tlb_invalidate pgdir la).

Definition page_remove (pgdir la : Z) : K pt_state () :=
  ptep ← get_pte pgdir la false;
  match ptep with None => mret () | Some w => page_remove_pte pgdir la w end.

Definition page_insert (pgdir page la perm : Z) : K pt_state Z :=
  ptep ← get_pte pgdir la true;
  match ptep with
  | None => mret (- E_NO_MEM)
  | Some w =>
      on_pmm (page_ref_inc page);;
      pte ← rd w;
      when (has pte PTE_V)
        (p ← pte2page pte;
         if bool_decide (p = page) then _ ← on_pmm (page_ref_dec page); mret ()
         else page_remove_pte pgdir la w);;
      wr w (pte_create (page2ppn page) (Z.lor PTE_V perm));;
      tlb_invalidate pgdir la;;
      mret 0
  end.

Definition pgdir_alloc_page (pgdir la perm : Z) : K pt_state (option Z) :=
  o ← alloc_page;
  match o with
  | None => mret None
  | Some page =>
      r ← page_insert pgdir page la perm;
      if bool_decide (r <> 0) then free_page page;; mret None
      else
        c ← on_pmm (page_ref page);
        assert (bool_decide (c = 1));;
        mret (Some page)
  end.

Definition aligned (a : Z) : bool := bool_decide (a mod PGSIZE = 0).

(** The loops over a range end when [start] reaches [end] or wraps to 0. *)
Definition more (start end_ : Z) : bool := bool_decide (start <> 0) && (start <? end_).

Fixpoint unmap_loop (fuel : nat) (pgdir start end_ : Z) : K pt_state () :=
  match fuel with
  | O => timeout
  | S fuel =>
      ptep ← get_pte pgdir start false;
      start ← match ptep with
              | None => mret (ROUNDDOWN (u64 (start + PTSIZE)) PTSIZE)
              | Some w =>
                  pte ← rd w;
                  when (bool_decide (pte <> 0)) (page_remove_pte pgdir start w);;
                  mret (u64 (start + PGSIZE))
              end;
      if more start end_ then unmap_loop fuel pgdir start end_ else mret ()
  end.

(** One step of fuel per page of user space, and one more. *)
Definition user_pages : nat := Z.to_nat (USERTOP / PGSIZE + 1).

Definition unmap_range (pgdir start end_ : Z) : K pt_state () :=
  assert (aligned start && aligned end_);;
  assert (USER_ACCESS start end_);;
  unmap_loop user_pages pgdir start end_.

(** One page: [w] is the entry of the parent, [start] the address. *)
Definition copy_page (to start w : Z) : K pt_state () :=
  pte ← rd w;
  page ← pte2page pte;
  o ← alloc_page;
  npage ← unwrap o;
  src ← page2kva page;
  dst ← page2kva npage;
  copy_frame dst src;;
  ret ← page_insert to npage start (Z.land pte PTE_USER);
  assert (bool_decide (ret = 0)).

Fixpoint copy_loop (fuel : nat) (to from start end_ : Z) : K pt_state Z :=
  match fuel with
  | O => timeout
  | S fuel =>
      let continue start := if more start end_ then copy_loop fuel to from start end_ else mret 0 in
      ptep ← get_pte from start false;
      match ptep with
      | None => continue (ROUNDDOWN (u64 (start + PTSIZE)) PTSIZE)
      | Some w =>
          pte ← rd w;
          if has pte PTE_V then
            nptep ← get_pte to start true;
            match nptep with
            | None => mret (- E_NO_MEM)
            | Some _ => copy_page to start w;; continue (u64 (start + PGSIZE))
            end
          else continue (u64 (start + PGSIZE))
      end
  end.

Definition copy_range (to from start end_ : Z) (share : bool) : K pt_state Z :=
  assert (aligned start && aligned end_);;
  assert (USER_ACCESS start end_);;
  copy_loop user_pages to from start end_.

(** Whether no entry of the table at [pt] from [i] on is valid. *)
Fixpoint table_unused (n : nat) (pt i : Z) : K pt_state bool :=
  match n with
  | O => mret true
  | S n => e ← rd (pt * 512 + i); if has e PTE_V then mret false else table_unused n pt (i + 1)
  end.

(** The inner loop: the tables under one directory; the result is [free_pd0]. *)
Fixpoint exit_tables (fuel : nat) (pd0 d0start limit end_ : Z) (free_pd0 : bool) : K pt_state bool :=
  match fuel with
  | O => timeout
  | S fuel =>
      let w := pd0 * 512 + PDX0 d0start in
      pde0 ← rd w;
      free_pd0 ← (if has pde0 PTE_V then
          page ← pde2page pde0;
          pt ← page2kva page;
          unused ← table_unused (Z.to_nat NPTEENTRY) pt 0;
          when unused (free_page page;; wr w 0);;
          mret free_pd0
        else mret false);
      let d0start := u64 (d0start + PTSIZE) in
      if more d0start end_ && (d0start <? limit) then exit_tables fuel pd0 d0start limit end_ free_pd0
      else mret free_pd0
  end.

Fixpoint exit_loop (fuel : nat) (pgdir d1start d0start end_ : Z) : K pt_state () :=
  match fuel with
  | O => timeout
  | S fuel =>
      let w := pgdir * 512 + PDX1 d1start in
      pde1 ← rd w;
      when (has pde1 PTE_V)
        (page ← pde2page pde1;
         pd0 ← page2kva page;
         free_pd0 ← exit_tables 513 pd0 d0start (u64 (d1start + PDSIZE)) end_ true;
         when free_pd0 (free_page page;; wr w 0));;
      let d1start := u64 (d1start + PDSIZE) in
      if more d1start end_ then exit_loop fuel pgdir d1start d1start end_ else mret ()
  end.

Definition exit_range (pgdir start end_ : Z) : K pt_state () :=
  assert (aligned start && aligned end_);;
  assert (USER_ACCESS start end_);;
  exit_loop 3 pgdir (ROUNDDOWN start PDSIZE) (ROUNDDOWN start PTSIZE) end_.

Fixpoint map_pages (n : nat) (pgdir la pa perm : Z) : K pt_state () :=
  match n with
  | O => mret ()
  | S n =>
      ptep ← get_pte pgdir la true;
      w ← unwrap ptep;
      wr w (pte_create (PPN pa) (Z.lor PTE_V perm));;
      map_pages n pgdir (u64 (la + PGSIZE)) (u64 (pa + PGSIZE)) perm
  end.

Definition PGOFF (la : Z) : Z := Z.land la 0xFFF.

Definition boot_map_segment (pgdir la size pa perm : Z) : K pt_state () :=
  assert (bool_decide (PGOFF la = PGOFF pa));;
  let n := ROUNDUP (u64 (size + PGOFF la)) PGSIZE / PGSIZE in
  map_pages (Z.to_nat n) pgdir (ROUNDDOWN la PGSIZE) (ROUNDDOWN pa PGSIZE) perm.

Definition boot_alloc_page : K pt_state Z := o ← alloc_page; page ← unwrap o; page2kva page.
End model.
Arguments pt_state St : clear implicits.
