(* ===== verification/PageTree.v ===== *)
(** The page tables of [PageTable] as trees.  [node m r path] is the frame a path
    of indices leads to from the root [r]; a path of length three leads to a
    mapped page.  [pt_inv] is the invariant of all page directories together;
    the theorems say that inserting, unmapping and copying keep it, change the
    translation of exactly the addresses concerned, and touch no other page. *)
From S2P Require Import Prelude Buddy PmmManager PageTable.

(** ** Addresses and entries *)
Lemma land_1FF x : Z.land x 0x1FF = x mod 512.
Proof. change 0x1FF with (Z.ones 9). by rewrite Z.land_ones by lia. Qed.

(** The user page [v] and the path to its entry. *)
Definition vpage (v : Z) : Prop := 0 <= v < 2 ^ 19.
Definition vpath (v : Z) : list Z := [v / 2 ^ 18; v / 2 ^ 9 mod 512; v mod 512].

Lemma path_of_la la : 0 <= la < USERTOP ->
  vpage (la / PGSIZE) /\ [PDX1 la; PDX0 la; PTX la] = vpath (la / PGSIZE).
Proof.
  unfold USERTOP, PGSIZE, vpage. intros H. split; [zlia|]. unfold vpath, PDX1, PDX0, PTX.
  rewrite !land_1FF, !Z.shiftr_div_pow2, !Z.div_div by lia.
  change (4096 * 2 ^ 18) with (2 ^ 30). change (4096 * 2 ^ 9) with (2 ^ 21). change (2 ^ 12) with 4096.
  rewrite (Z.mod_small (la / 2 ^ 30)) by zlia. done.
Qed.

Lemma vpath_inj v v' : vpath v = vpath v' -> v = v'.
Proof.
  unfold vpath. intros [= H1 H2 H3]. zlia.
Qed.

Definition ppn_of (pte : Z) : Z := PPN (PTE_ADDR pte).

Lemma ppn_of_nonneg e : 0 <= ppn_of e.
Proof. unfold ppn_of, PPN. apply Z.shiftr_nonneg. apply uwrap_range. lia. Qed.

Lemma shiftr_small t : 0 <= t < 1024 -> Z.shiftr t 10 = 0.
Proof. intros. rewrite Z.shiftr_div_pow2 by lia. apply Z.div_small. done. Qed.

Lemma pte_create_ppn p t : 0 <= p < 2 ^ 44 -> 0 <= t < 1024 -> ppn_of (pte_create p t) = p.
Proof.
  intros Hp Ht. unfold ppn_of, PPN, PTE_ADDR, pte_create. rewrite (Z.shiftl_mul_pow2 p) by lia.
  rewrite (uwrap_small 64 (p * 2 ^ 10)) by lia. change (Z.lnot 0x3FF) with (Z.lnot (Z.ones 10)).
  rewrite <-Z.ldiff_land, Z.ldiff_ones_r by lia.
  rewrite !Z.shiftr_lor, (shiftr_small t), (shiftr_small PTE_V) by (unfold PTE_V; lia). rewrite !Z.lor_0_r.
  rewrite (Z.shiftr_div_pow2 (p * 2 ^ 10)), Z.div_mul by lia.
  rewrite !Z.shiftl_mul_pow2, uwrap_small, Z.shiftr_div_pow2 by lia.
  replace (p * 2 ^ 10 * 2 ^ 2) with (p * 2 ^ 12) by lia. apply Z.div_mul. lia.
Qed.

Lemma lor_V_valid x t : has (Z.lor (Z.lor x PTE_V) t) PTE_V = true.
Proof.
  unfold has. apply bool_decide_eq_true. intros H. apply (f_equal (fun z => Z.testbit z 0)) in H.
  rewrite Z.land_spec, !Z.lor_spec in H. unfold PTE_V in H. cbn in H.
  rewrite !orb_true_r in H. cbn in H. done.
Qed.

Lemma pte_create_valid p t : has (pte_create p t) PTE_V = true.
Proof. apply lor_V_valid. Qed.

Lemma has_0 f : has 0 f = false.
Proof. unfold has. by rewrite Z.land_0_l. Qed.

Lemma lor_flags a b : 0 <= a < 1024 -> 0 <= b < 1024 -> 0 <= Z.lor a b < 1024.
Proof.
  intros Ha Hb. assert (Hn : 0 <= Z.lor a b) by (apply Z.lor_nonneg; lia). split; [done|].
  destruct (decide (Z.lor a b = 0)) as [->|]; [lia|]. change 1024 with (2 ^ 10). apply Z.log2_lt_pow2; [lia|].
  rewrite Z.log2_lor by lia. apply Z.max_lub_lt.
  - destruct (decide (a = 0)) as [->|]; [cbn; lia|apply Z.log2_lt_pow2; lia].
  - destruct (decide (b = 0)) as [->|]; [cbn; lia|apply Z.log2_lt_pow2; lia].
Qed.

(** ** Paths *)

Definition idx (i : Z) : Prop := 0 <= i < 512.

(** User addresses use the first two entries of a directory only. *)
Definition ok_path (path : list Z) : Prop :=
  match path with [] => True | i :: l => 0 <= i < 2 /\ Forall idx l end.

Fixpoint node (m : Z -> Z) (p : Z) (path : list Z) : option Z :=
  match path with
  | [] => Some p
  | i :: path => let e := m (p * 512 + i) in if has e PTE_V then node m (ppn_of e) path else None
  end.

Lemma node_app m p l1 l2 : node m p (l1 ++ l2) = node m p l1 ≫= fun q => node m q l2.
Proof. revert p. induction l1 as [|i l1 IH]; intros p; [done|]. cbn. case_match; [apply IH|done]. Qed.

Lemma node_snoc m p l i :
  node m p (l ++ [i]) = q ← node m p l; let e := m (q * 512 + i) in if has e PTE_V then Some (ppn_of e) else None.
Proof. rewrite node_app. by destruct (node m p l). Qed.

Lemma node_ext m m' : (forall a, m' a = m a) -> forall path p, node m' p path = node m p path.
Proof. intros H path. induction path as [|i path IH]; intros p; [done|]. cbn. rewrite H. by case_match. Qed.

Lemma ok_path_app l1 l2 : ok_path (l1 ++ l2) -> ok_path l1.
Proof. destruct l1 as [|i l1]; [done|]. cbn. intros [? [? ?]%Forall_app]. done. Qed.

Lemma ok_path_last l i : ok_path (l ++ [i]) -> idx i.
Proof.
  destruct l as [|j l]; cbn; [unfold idx; lia|]. intros [_ [_ H]%Forall_app]. by apply (proj1 (Forall_singleton _ _)) in H.
Qed.

Lemma vpath_ok v : vpage v -> ok_path (vpath v).
Proof.
  intros H. unfold vpage, vpath, ok_path, idx in *. split; [zlia|].
  repeat constructor; try apply Z.mod_pos_bound; lia.
Qed.

Lemma vpath_surj path : ok_path path -> length path = 3%nat -> exists v, vpage v /\ vpath v = path.
Proof.
  destruct path as [|i [|j [|l [|]]]]; intros H E; try done. cbn in H. destruct H as (Hi&H).
  apply Forall_cons in H as [Hj H]. apply Forall_cons in H as [Hl _]. unfold idx in *.
  exists (i * 2 ^ 18 + j * 512 + l). unfold vpage, vpath. split; [lia|].
  f_equal; [|f_equal; [|f_equal]].
  - symmetry. apply (Z.div_unique _ _ _ (j * 512 + l)); lia.
  - change (2 ^ 9) with 512. assert (E1 : (i * 2 ^ 18 + j * 512 + l) / 512 = i * 512 + j)
      by (symmetry; apply (Z.div_unique _ _ _ l); lia).
    rewrite E1. symmetry. apply (Z.mod_unique _ _ i); lia.
  - symmetry. apply (Z.mod_unique _ _ (i * 512 + j)); lia.
Qed.

(** The word of an entry determines its table and its index. *)
Lemma word_inj p i q j : idx i -> idx j -> p * 512 + i = q * 512 + j -> p = q /\ i = j.
Proof. unfold idx. lia. Qed.

(** Words outside the tables do not matter. *)
Lemma node_frame (R : list Z) m m' :
  (forall r path p i, r ∈ R -> ok_path (path ++ [i]) -> (length path <= 2)%nat -> node m r path = Some p ->
     m' (p * 512 + i) = m (p * 512 + i)) ->
  forall r path, r ∈ R -> ok_path path -> (length path <= 3)%nat -> node m' r path = node m r path.
Proof.
  intros H r path Hr. induction path as [|i path IH] using rev_ind; intros Ho Hl; [done|].
  rewrite length_app in Hl. cbn in Hl. rewrite !node_snoc, IH by (try apply (ok_path_app _ _ Ho); lia).
  destruct (node m r path) as [p|] eqn:E; [|done]. cbn. by rewrite (H r path p i) by (done || lia).
Qed.

(** No table occurs twice. *)
Definition apart (R : list Z) (m : Z -> Z) : Prop :=
  forall r path r' path' p, r ∈ R -> r' ∈ R -> ok_path path -> ok_path path' ->
    (length path <= 2)%nat -> (length path' <= 3)%nat ->
    node m r path = Some p -> node m r' path' = Some p -> r = r' /\ path = path'.

(** A write to one entry moves only what lies below it. *)
Lemma node_write R m r path p i e :
  apart R m -> r ∈ R -> ok_path (path ++ [i]) -> (length path <= 2)%nat -> node m r path = Some p ->
  let m' := fun a => if a =? p * 512 + i then e else m a in
  (forall r' path', r' ∈ R -> ok_path path' -> (length path' <= 3)%nat ->
     ~ (r' = r /\ (path ++ [i]) `prefix_of` path') -> node m' r' path' = node m r' path') /\
  node m' r (path ++ [i]) = if has e PTE_V then Some (ppn_of e) else None.
Proof.
  intros Ha Hr Ho Hl Hp m'. pose proof (ok_path_app _ _ Ho) as Hop. pose proof (ok_path_last _ _ Ho) as Hi.
  assert (H : forall r' path', r' ∈ R -> ok_path path' -> (length path' <= 3)%nat ->
     ~ (r' = r /\ (path ++ [i]) `prefix_of` path') -> node m' r' path' = node m r' path').
  { intros r' path' Hr'. induction path' as [|j path' IH] using rev_ind; intros Ho' Hl' Hn; [done|].
    rewrite length_app in Hl'. cbn in Hl'. rewrite !node_snoc. pose proof (ok_path_last _ _ Ho') as Hj.
    rewrite IH; [|by eapply ok_path_app|lia|].
    2:{ intros [-> Hpre]. apply Hn. split; [done|]. by apply prefix_app_r. }
    destruct (node m r' path') as [q|] eqn:E; [|done]. cbn. unfold m'.
    destruct (Z.eqb_spec (q * 512 + j) (p * 512 + i)) as [Ew|]; [|done].
    apply word_inj in Ew as [-> ->]; [|done..].
    destruct (Ha r path r' path' p) as [-> ->]; [done|done|done|by eapply ok_path_app|lia|lia|done|done|].
    exfalso. by apply Hn. }
  split; [exact H|]. rewrite node_snoc, (H r path), Hp; [|done|done|lia|].
  - cbn. unfold m'. by rewrite Z.eqb_refl.
  - intros [_ Hpre]. apply prefix_length in Hpre. rewrite length_app in Hpre. cbn in Hpre. lia.
Qed.

(** ** The invariant *)

Section inv.
Context {St : Type} `{!PageStore St} (pm : pmm_manager St) `{!PageAlloc pm} (npage : Z).
Implicit Types (s : pt_state St) (r p q v : Z).

(** The page directories of the processes. *)
Context (R : list Z).

Definition table s p : Prop :=
  exists r path, r ∈ R /\ ok_path path /\ (length path <= 2)%nat /\ node (mem s) r path = Some p.

(** The entry of user page [v]; 0 where there is no table. *)
Definition pte_of s r v : Z :=
  match node (mem s) r [v / 2 ^ 18; v / 2 ^ 9 mod 512] with Some p => mem s (p * 512 + v mod 512) | None => 0 end.

Definition user_slots : list (Z * Z) := list_prod R (seqZ 0 (2 ^ 19)).

Definition maps s p (x : Z * Z) : bool := has (pte_of s x.1 x.2) PTE_V && bool_decide (ppn_of (pte_of s x.1 x.2) = p).

(** How many entries of user space map frame [p]. *)
Definition mapcount s p : Z := count (maps s p) user_slots.

Record pt_inv s : Prop := {
  pi_pmm : pg_inv (phys s);
  pi_frames q : is_Some (ref_of (phys s) q) -> q + nbase < npage;
  pi_phys : npage <= 2 ^ 44;
  pi_roots : NoDup R /\ Z.of_nat (length R) < 4096;
  pi_node r path p : r ∈ R -> ok_path path -> (length path <= 3)%nat -> node (mem s) r path = Some p ->
    is_Some (ref_of (phys s) (p - nbase)) /\ ~ pg_free (phys s) (p - nbase);
  pi_apart : apart R (mem s);
  pi_count q n : ref_of (phys s) q = Some n -> ~ table s (q + nbase) -> n = mapcount s (q + nbase);
}.

(** An allocated page that is not a table; mapped pages are such pages. *)
Definition data s q : Prop := is_Some (ref_of (phys s) q) /\ ~ pg_free (phys s) q /\ ~ table s (q + nbase).

(** What growing the tables leaves alone. *)
Record grows s s' : Prop := {
  gr_pte r v : r ∈ R -> vpage v -> pte_of s' r v = pte_of s r v;
  gr_node r path p : r ∈ R -> ok_path path -> (length path <= 2)%nat ->
    node (mem s) r path = Some p -> node (mem s') r path = Some p;
  gr_cells q : is_Some (ref_of (phys s') q) <-> is_Some (ref_of (phys s) q);
  gr_keep q : is_Some (ref_of (phys s) q) -> ~ pg_free (phys s) q ->
    ref_of (phys s') q = ref_of (phys s) q /\ ~ pg_free (phys s') q;
  gr_data q i : data s q -> data s' q /\ (idx i -> mem s' ((q + nbase) * 512 + i) = mem s ((q + nbase) * 512 + i));
}.

Lemma grows_refl s : grows s s.
Proof. by split. Qed.

Lemma grows_trans s1 s2 s3 : grows s1 s2 -> grows s2 s3 -> grows s1 s3.
Proof.
  intros H1 H2. split.
  - intros r v Hr Hv. by rewrite (gr_pte _ _ H2), (gr_pte _ _ H1).
  - intros r path p ????. by apply (gr_node _ _ H2), (gr_node _ _ H1).
  - intros q. by rewrite (gr_cells _ _ H2), (gr_cells _ _ H1).
  - intros q Hq Hf. destruct (gr_keep _ _ H1 q Hq Hf) as [E Hf']. rewrite <-E in Hq |- *.
    by apply (gr_keep _ _ H2).
  - intros q i Hd. destruct (gr_data _ _ H1 q i Hd) as [Hd' E1]. destruct (gr_data _ _ H2 q i Hd') as [Hd'' E2].
    split; [done|]. intros Hi. by rewrite E2, E1.
Qed.

Lemma vpath_split v : vpath v = [v / 2 ^ 18; v / 2 ^ 9 mod 512] ++ [v mod 512].
Proof. done. Qed.

Lemma node_pte s r v : node (mem s) r (vpath v) = if has (pte_of s r v) PTE_V then Some (ppn_of (pte_of s r v)) else None.
Proof.
  rewrite (vpath_split v), node_snoc. unfold pte_of.
  destruct (node _ _ _) as [p|]; [done|]. cbn. by rewrite has_0.
Qed.

Lemma vpath_prefix v : vpage v -> ok_path [v / 2 ^ 18; v / 2 ^ 9 mod 512].
Proof. intros H. apply (ok_path_app _ [v mod 512]), (vpath_ok v H). Qed.

Lemma user_slots_in r v : (r, v) ∈ user_slots <-> r ∈ R /\ vpage v.
Proof.
  unfold user_slots. rewrite list_elem_of_In, in_prod_iff, <-!list_elem_of_In, elem_of_seqZ. unfold vpage. done.
Qed.

Lemma mapcount_ext s s' p :
  (forall r v, r ∈ R -> vpage v -> pte_of s' r v = pte_of s r v) -> mapcount s' p = mapcount s p.
Proof.
  intros H. apply count_ext. intros [r v] [Hr Hv]%user_slots_in. unfold maps. cbn. by rewrite H.
Qed.

Lemma user_slots_NoDup s : pt_inv s -> NoDup user_slots.
Proof. intros H. apply NoDup_pairs; [apply H|apply NoDup_seqZ]. Qed.

Lemma mapcount_bounds s p : pt_inv s -> 0 <= mapcount s p < 2 ^ 31 - 1.
Proof.
  intros H. destruct (pi_roots _ H) as [_ Hl]. pose proof (count_bounds (maps s p) user_slots) as Hb.
  assert (E : Z.of_nat (length user_slots) = Z.of_nat (length R) * 2 ^ 19).
  { unfold user_slots. by rewrite length_prod, length_seqZ, Nat2Z.inj_mul, Z2Nat.id by lia. }
  unfold mapcount. lia.
Qed.

(** ** Frames and words *)
Lemma word_frame p i : idx i -> (p * 512 + i) / 512 = p.
Proof. unfold idx. intros. zlia. Qed.

Lemma frame_true p : nbase <= p < npage -> frame npage p = true.
Proof. intros. unfold frame. rewrite (proj2 (Z.leb_le _ _)), (proj2 (Z.ltb_lt _ _)) by lia. done. Qed.

Lemma page_frame s q : pt_inv s -> is_Some (ref_of (phys s) q) -> nbase <= q + nbase < npage.
Proof. intros H Hq. pose proof (pg_nonneg _ _ (pi_pmm _ H) Hq). pose proof (pi_frames _ H q Hq). lia. Qed.

Lemma node_bound s r path p : pt_inv s -> r ∈ R -> ok_path path -> (length path <= 3)%nat ->
  node (mem s) r path = Some p -> nbase <= p < npage.
Proof.
  intros H Hr Ho Hl E. destruct (pi_node _ H _ _ _ Hr Ho Hl E) as [Hq _]. apply (page_frame s _ H) in Hq. lia.
Qed.

Lemma wp_rd_word p i s (Q : Z -> pt_state St -> Prop) :
  nbase <= p < npage -> idx i -> Q (mem s (p * 512 + i)) s -> wp (rd npage (p * 512 + i)) Q s.
Proof. intros Hp Hi HQ. unfold rd. kstep. kstep; [rewrite word_frame by done; by apply frame_true|]. by kstep. Qed.

Lemma wp_wr_word p i v s (Q : () -> pt_state St -> Prop) :
  nbase <= p < npage -> idx i -> Q () (mk_pt (phys s) (fun a => if a =? p * 512 + i then v else mem s a)) ->
  wp (wr npage (p * 512 + i) v) Q s.
Proof. intros Hp Hi HQ. unfold wr. kstep. kstep; [rewrite word_frame by done; by apply frame_true|]. by kstep. Qed.

Lemma wp_KADDR pa s (Q : Z -> pt_state St -> Prop) : PPN pa < npage -> Q (PPN pa) s -> wp (KADDR npage pa) Q s.
Proof. intros H HQ. unfold KADDR. kstep. kstep; [by apply Z.ltb_lt|]. by kstep. Qed.

Lemma PPN_shift p : PPN (Z.shiftl p 12) = p.
Proof. unfold PPN. by rewrite Z.shiftr_shiftl_l, Z.shiftl_0_r by lia. Qed.

Lemma PDX_idx la : idx (PDX1 la) /\ idx (PDX0 la) /\ idx (PTX la).
Proof. unfold PDX1, PDX0, PTX. rewrite !land_1FF. unfold idx. repeat split; apply Z.mod_pos_bound; lia. Qed.

(** ** A new table *)

Definition installed (m : Z -> Z) w p : Z -> Z :=
  fun a => if a =? w then pte_create p (Z.lor PTE_U PTE_V) else if a / 512 =? p then 0 else m a.

Lemma node_installed s r path pp i page :
  pt_inv s -> r ∈ R -> ok_path (path ++ [i]) -> (length path <= 1)%nat -> node (mem s) r path = Some pp ->
  node (mem s) r (path ++ [i]) = None -> pg_free (phys s) page ->
  forall r' path', r' ∈ R -> ok_path path' -> (length path' <= 3)%nat ->
    node (installed (mem s) (pp * 512 + i) (page + nbase)) r' path' =
    if decide (r' = r /\ path' = path ++ [i]) then Some (page + nbase) else node (mem s) r' path'.
Proof.
  intros H Hr Ho Hl Hp Hnone Hfree. set (m1 := fun a => if a / 512 =? page + nbase then 0 else mem s a).
  pose proof (ok_path_last _ _ Ho) as Hi. pose proof (ok_path_app _ _ Ho) as Hop.
  assert (Hno : forall r' path', r' ∈ R -> ok_path path' -> (length path' <= 3)%nat -> node (mem s) r' path' <> Some (page + nbase)).
  { intros r' path' Hr' Ho' Hl' E. destruct (pi_node _ H _ _ _ Hr' Ho' Hl' E) as [_ Hf]. apply Hf.
    by replace (page + nbase - nbase) with page by lia. }
  assert (Hpage : is_Some (ref_of (phys s) page)) by (rewrite (pg_free_ref _ _ (pi_pmm _ H) Hfree); eauto).
  apply (page_frame s page H) in Hpage.
  assert (H1 : forall r' path', r' ∈ R -> ok_path path' -> (length path' <= 3)%nat -> node m1 r' path' = node (mem s) r' path').
  { apply node_frame. intros r' path' p j Hr' Ho' Hl' E. unfold m1. rewrite word_frame by (by eapply ok_path_last).
    destruct (Z.eqb_spec p (page + nbase)) as [->|]; [|done]. exfalso. eapply (Hno r' path'); eauto.
    by eapply ok_path_app. }
  assert (Ha : apart R m1).
  { intros r1 p1 r2 p2 p Hr1 Hr2 Ho1 Ho2 Hl1 Hl2. rewrite !H1 by (done || lia). by apply (pi_apart _ H). }
  destruct (node_write R m1 r path pp i (pte_create (page + nbase) (Z.lor PTE_U PTE_V)) Ha Hr Ho) as [Hw Hn];
    [lia|rewrite H1 by (done || lia); exact Hp|].
  rewrite pte_create_valid, pte_create_ppn in Hn; [|pose proof (pi_phys _ H); unfold nbase in *; lia|by vm_compute].
  intros r' path' Hr' Ho' Hl'. change (fun a => _) with (installed (mem s) (pp * 512 + i) (page + nbase)) in Hw, Hn.
  case_decide as E; [destruct E as [-> ->]; exact Hn|].
  destruct (decide (r' = r /\ (path ++ [i]) `prefix_of` path')) as [[-> [rest ->]]|Hnp].
  2:{ rewrite Hw by done. by apply H1. }
  destruct rest as [|j rest]; [exfalso; apply E; by rewrite app_nil_r|].
  rewrite !(node_app _ _ (path ++ [i])), Hnone, Hn. cbn [mbind option_bind node]. cbv zeta.
  assert (Hj : idx j).
  { apply (ok_path_last (path ++ [i])). apply (ok_path_app _ rest). by rewrite <-app_assoc. }
  unfold installed. destruct (Z.eqb_spec ((page + nbase) * 512 + j) (pp * 512 + i)) as [Ew|].
  - apply word_inj in Ew as [Ew _]; [|done..]. exfalso. apply (Hno r path); [done|done|lia|]. by rewrite Hp, Ew.
  - by rewrite word_frame, Z.eqb_refl, has_0 by done.
Qed.

Lemma inv_install s r path pp i page ph :
  pt_inv s -> r ∈ R -> ok_path (path ++ [i]) -> (length path <= 1)%nat -> node (mem s) r path = Some pp ->
  node (mem s) r (path ++ [i]) = None -> pg_free (phys s) page -> pg_inv ph ->
  (forall q, ref_of ph q = if decide (q = page) then Some 1 else ref_of (phys s) q) ->
  (forall q, pg_free ph q <-> pg_free (phys s) q /\ q <> page) ->
  let s' := mk_pt ph (installed (mem s) (pp * 512 + i) (page + nbase)) in
  pt_inv s' /\ grows s s' /\ node (mem s') r (path ++ [i]) = Some (page + nbase).
Proof.
  intros H Hr Ho Hl Hp Hnone Hfree Hph Hrefs Hfr s'.
  pose proof (node_installed s r path pp i page H Hr Ho Hl Hp Hnone Hfree) as Hn.
  change (installed _ _ _) with (mem s') in Hn. pose proof (ok_path_last _ _ Ho) as Hi. pose proof (ok_path_app _ _ Ho) as Hop.
  assert (Hno : forall r' path', r' ∈ R -> ok_path path' -> (length path' <= 3)%nat -> node (mem s) r' path' <> Some (page + nbase)).
  { intros r' path' Hr' Ho' Hl' E. destruct (pi_node _ H _ _ _ Hr' Ho' Hl' E) as [_ Hf]. apply Hf.
    by replace (page + nbase - nbase) with page by lia. }
  assert (Hold : forall r' path' p, r' ∈ R -> ok_path path' -> (length path' <= 3)%nat ->
    node (mem s) r' path' = Some p -> node (mem s') r' path' = Some p).
  { intros r' path' p Hr' Ho' Hl' E. rewrite Hn by done. rewrite decide_False; [done|]. intros [-> ->]. congruence. }
  assert (Hcell : forall q, is_Some (ref_of ph q) <-> is_Some (ref_of (phys s) q)).
  { intros q. rewrite Hrefs. case_decide as E; [|done]. subst. rewrite (pg_free_ref _ _ (pi_pmm _ H) Hfree). split; eauto. }
  assert (Hlen : length (path ++ [i]) = S (length path)) by (rewrite length_app; cbn; lia).
  assert (Hpte : forall r' v, r' ∈ R -> vpage v -> pte_of s' r' v = pte_of s r' v).
  { intros r' v Hr' Hv. unfold pte_of. rewrite Hn by first [done|by apply vpath_prefix|cbn; lia].
    assert (idx (v mod 512)) by (apply Z.mod_pos_bound; lia). case_decide as E.
    - destruct E as [-> E]. rewrite E, Hnone. cbn. unfold installed.
      destruct (Z.eqb_spec ((page + nbase) * 512 + v mod 512) (pp * 512 + i)) as [Ew|]; [|by rewrite word_frame, Z.eqb_refl by done].
      apply word_inj in Ew as [Ew _]; [|done..]. exfalso. apply (Hno r path); [done|done|lia|]. by rewrite Hp, Ew.
    - destruct (node (mem s) r' _) as [p|] eqn:Ep; [|done]. cbn. unfold installed.
      destruct (Z.eqb_spec (p * 512 + v mod 512) (pp * 512 + i)) as [Ew|].
      + apply word_inj in Ew as [-> _]; [|done..].
        destruct (pi_apart _ H r path r' [v / 2 ^ 18; v / 2 ^ 9 mod 512] pp) as [_ ->]; cbn in Hl; try done; try lia; [by apply vpath_prefix|cbn; lia].
      + rewrite word_frame by done. destruct (Z.eqb_spec p (page + nbase)) as [->|]; [|done].
        exfalso. apply (Hno r' [v / 2 ^ 18; v / 2 ^ 9 mod 512]); [done|by apply vpath_prefix|cbn; lia|done]. }
  assert (Htab : forall q, table s' (q + nbase) -> table s (q + nbase) \/ q = page).
  { intros q (r'&path'&Hr'&Ho'&Hl'&E). rewrite Hn in E by (done || lia). case_decide.
    - injection E as E. right. lia.
    - left. by exists r', path'. }
  split_and!; [| |by rewrite Hn, decide_True by (done || lia)].
  - split; [done| |apply H|apply H| | |].
    + intros q Hq. apply (pi_frames _ H). by apply Hcell.
    + intros r' path' p Hr' Ho' Hl' E. rewrite Hn in E by done. cbn [phys s']. rewrite Hcell, Hfr. case_decide.
      * injection E as <-. replace (page + nbase - nbase) with page by lia.
        rewrite (pg_free_ref _ _ (pi_pmm _ H) Hfree). split; [eauto|tauto].
      * destruct (pi_node _ H _ _ _ Hr' Ho' Hl' E). split; [done|tauto].
    + intros r1 p1 r2 p2 p Hr1 Hr2 Ho1 Ho2 Hl1 Hl2. rewrite !Hn by (done || lia).
      repeat case_decide; intros E1 E2.
      * naive_solver.
      * injection E1 as <-. exfalso. by eapply (Hno r2 p2).
      * injection E2 as <-. exfalso. eapply (Hno r1 p1); [done|done|lia|done].
      * by eapply (pi_apart _ H).
    + intros q n Hq Hnt. cbn [phys s'] in Hq. rewrite Hrefs in Hq. rewrite (mapcount_ext s s' _ Hpte). case_decide as E.
      * subst q. exfalso. apply Hnt. exists r, (path ++ [i]). split_and!; [done|done|lia|].
        by rewrite Hn, decide_True by (done || lia).
      * apply (pi_count _ H); [done|]. intros (r'&path'&Hr'&Ho'&Hl'&E'). apply Hnt. exists r', path'.
        split_and!; [done|done|done|]. apply Hold; [done|done|lia|done].
  - split; [done| |done| |].
    + intros r' path' p Hr' Ho' Hl' E. apply Hold; [done|done|lia|done].
    + intros q Hq Hnf. cbn [phys s']. rewrite Hrefs, Hfr. rewrite decide_False by (by intros ->). split; [done|tauto].
    + intros q j (Hq&Hnf&Hnt). assert (q <> page) by (by intros ->). cbn [phys s']. split.
      * split_and!; [by apply Hcell|cbn; rewrite Hfr; tauto|intros [?|?]%Htab; done].
      * intros Hj. cbn. unfold installed. rewrite word_frame by done.
        destruct (Z.eqb_spec ((q + nbase) * 512 + j) (pp * 512 + i)) as [Ew|].
        -- apply word_inj in Ew as [Ew _]; [|done..]. exfalso. apply Hnt. exists r, path. rewrite Ew. split_and!; [done|done|lia|done].
        -- destruct (Z.eqb_spec (q + nbase) (page + nbase)); [lia|done].
Qed.

(** ** get_pte *)
Lemma wp_on_pmm {A} (m : K St A) s (Q : A -> pt_state St -> Prop) :
  wp m (fun a ph => Q a (mk_pt ph (mem s))) (phys s) -> wp (on_pmm m) Q s.
Proof. intros H. unfold on_pmm. by kstep. Qed.

Lemma wp_alloc_page s (Q : option Z -> pt_state St -> Prop) :
  pg_inv (phys s) ->
  (forall ph, pg_inv ph -> (forall q, ref_of ph q = ref_of (phys s) q) ->
     (forall q, pg_free ph q <-> pg_free (phys s) q) -> Q None (mk_pt ph (mem s))) ->
  (forall page ph, pg_inv ph -> (forall q, ref_of ph q = ref_of (phys s) q) -> pg_free (phys s) page ->
     (forall q, pg_free ph q <-> pg_free (phys s) q /\ q <> page) -> Q (Some page) (mk_pt ph (mem s))) ->
  wp (alloc_page pm) Q s.
Proof.
  intros H HN HS. unfold alloc_page, alloc_pages. apply wp_on_pmm. eapply wp_mono; [by apply pg_alloc|].
  intros [page|] ph (Hi&Hr&Hf); [destruct Hf; by apply HS|by apply HN].
Qed.

(** The allocator alone has changed, and only what it gives away. *)
Lemma inv_phys s ph :
  pt_inv s -> pg_inv ph -> (forall q, ref_of ph q = ref_of (phys s) q) ->
  (forall q, pg_free ph q <-> pg_free (phys s) q) -> pt_inv (mk_pt ph (mem s)) /\ grows s (mk_pt ph (mem s)).
Proof.
  intros H Hph Hr Hf. split; (split; cbn; try done; try apply H).
  - intros q. rewrite Hr. apply H.
  - intros r path p Hr' Ho Hl E. rewrite Hr, Hf. by apply (pi_node _ H r path).
  - intros q n. rewrite Hr. apply (pi_count _ H).
  - intros q. by rewrite Hr.
  - intros q Hq. by rewrite Hr, Hf.
  - intros q i (Hq&Hnf&Hnt). split; [|done]. split_and!; cbn; [by rewrite Hr|by rewrite Hf|done].
Qed.

Lemma wp_get_table s r path pp i create (Q : bool -> pt_state St -> Prop) :
  pt_inv s -> r ∈ R -> ok_path (path ++ [i]) -> (length path <= 1)%nat -> node (mem s) r path = Some pp ->
  (forall s' p, pt_inv s' -> grows s s' -> (create = false -> s' = s) ->
     node (mem s') r (path ++ [i]) = Some p -> Q true s') ->
  (forall s', pt_inv s' -> grows s s' -> (create = false -> s' = s) -> node (mem s) r (path ++ [i]) = None -> Q false s') ->
  wp (get_table pm npage (pp * 512 + i) create) Q s.
Proof.
  intros H Hr Ho Hl Hp HT HF. pose proof (ok_path_last _ _ Ho) as Hi. pose proof (ok_path_app _ _ Ho) as Hop.
  pose proof (node_bound s r path pp H Hr Hop ltac:(lia) Hp) as Hb.
  assert (En : node (mem s) r (path ++ [i]) = if has (mem s (pp * 512 + i)) PTE_V then Some (ppn_of (mem s (pp * 512 + i))) else None)
    by (rewrite node_snoc, Hp; done).
  unfold get_table. kstep. apply wp_rd_word; [done|done|]. destruct (has (mem s (pp * 512 + i)) PTE_V).
  { apply wp_ret. eapply HT; [done|apply grows_refl|done|exact En]. }
  destruct create; cbn [negb].
  2:{ apply wp_ret. apply HF; [done|apply grows_refl|done|exact En]. }
  kstep. apply wp_alloc_page; [apply H| |].
  { intros ph Hph Hrf Hfr. apply wp_ret. destruct (inv_phys s ph H Hph Hrf Hfr). by apply HF. }
  intros page ph Hph Hrf Hfree Hfr.
  assert (Hpage : is_Some (ref_of (phys s) page)) by (rewrite (pg_free_ref _ _ (pi_pmm _ H) Hfree); eauto).
  pose proof (page_frame s page H Hpage) as Hpb.
  kstep. apply wp_on_pmm. cbn [phys mem]. eapply wp_mono.
  { apply pg_set_ref; [done|by rewrite Hrf|rewrite Hfr; tauto]. }
  intros _ ph2 (Hph2&Hrf2&Hfr2). kstep. apply wp_KADDR; [rewrite PPN_shift; unfold page2ppn; lia|].
  rewrite PPN_shift. unfold page2ppn. kstep. unfold clear_frame. kstep. kstep; [by apply frame_true|]. kstep.
  kstep. apply wp_wr_word; [done|done|]. apply wp_ret. cbn [phys mem].
  destruct (inv_install s r path pp i page ph2 H Hr Ho Hl Hp En Hfree Hph2) as (H'&Hg&Hn).
  - intros q. rewrite Hrf2. case_decide; [done|apply Hrf].
  - intros q. by rewrite Hfr2, Hfr.
  - eapply HT; [exact H'|exact Hg|done|exact Hn].
Qed.

Lemma wp_table_entry {A} s r path pp i p (f : Z -> K (pt_state St) A) (Q : A -> pt_state St -> Prop) :
  pt_inv s -> r ∈ R -> ok_path (path ++ [i]) -> (length path <= 2)%nat -> node (mem s) r path = Some pp ->
  node (mem s) r (path ++ [i]) = Some p -> wp (f p) Q s ->
  wp (e ← rd npage (pp * 512 + i); q ← KADDR npage (PDE_ADDR e); f q) Q s.
Proof.
  intros H Hr Ho Hl Hp Hn HQ. pose proof (ok_path_app _ _ Ho) as Hop.
  pose proof (node_bound s r path pp H Hr Hop ltac:(lia) Hp).
  assert (Hlen : length (path ++ [i]) = S (length path)) by (rewrite length_app; cbn; lia).
  pose proof (node_bound s r _ p H Hr Ho ltac:(lia) Hn) as Hb. rewrite node_snoc, Hp in Hn. cbn in Hn.
  kstep. apply wp_rd_word; [done|by eapply ok_path_last|]. case_match; [|done]. injection Hn as Hn.
  kstep. apply wp_KADDR; change (PPN (PDE_ADDR (mem s (pp * 512 + i)))) with (ppn_of (mem s (pp * 512 + i))); rewrite Hn; [lia|done].
Qed.

(** The word of the entry of user page [v], once its table exists. *)
Definition leaf s r v w : Prop :=
  exists p, node (mem s) r [v / 2 ^ 18; v / 2 ^ 9 mod 512] = Some p /\ w = p * 512 + v mod 512.

Lemma wp_get_pte s r la create (Q : option Z -> pt_state St -> Prop) :
  pt_inv s -> r ∈ R -> 0 <= la < USERTOP ->
  (forall s' w, pt_inv s' -> grows s s' -> (create = false -> s' = s) -> leaf s' r (la / PGSIZE) w -> Q (Some w) s') ->
  (forall s', pt_inv s' -> grows s s' -> (create = false -> s' = s) -> node (mem s) r [PDX1 la; PDX0 la] = None -> Q None s') ->
  wp (get_pte pm npage r la create) Q s.
Proof.
  intros H Hr Hla HS HN. destruct (path_of_la la Hla) as [Hv Hpath].
  pose proof (vpath_ok _ Hv) as Ho. rewrite <-Hpath in Ho. unfold vpath in Hpath. injection Hpath as E1 E0 EX.
  assert (Ho1 : ok_path ([] ++ [PDX1 la])) by apply (ok_path_app [PDX1 la] _ Ho).
  assert (Ho0 : ok_path ([PDX1 la] ++ [PDX0 la])) by apply (ok_path_app [PDX1 la; PDX0 la] _ Ho).
  unfold get_pte. kstep. apply (wp_get_table s r [] r); [done|done|exact Ho1|cbn; lia|done| |].
  2:{ intros s1 H1 Hg1 Hc Hn. apply wp_ret. apply HN; [done|done|done|]. cbn [app] in Hn. change [PDX1 la; PDX0 la] with ([PDX1 la] ++ [PDX0 la]). by rewrite node_app, Hn. }
  intros s1 p1 H1 Hg1 Hc1 Hn1. cbn [negb].
  apply (wp_table_entry s1 r [] r (PDX1 la) p1); [done|done|done|cbn; lia|done|done|].
  kstep. apply (wp_get_table s1 r [PDX1 la] p1); [done|done|exact Ho0|cbn; lia|done| |].
  2:{ intros s2 H2 Hg2 Hc Hn. apply wp_ret. apply HN; [done|by eapply grows_trans| |].
      - intros Ec. rewrite (Hc Ec). by apply Hc1.
      - destruct (node (mem s) r [PDX1 la; PDX0 la]) as [p|] eqn:Ep; [|done].
        apply (gr_node _ _ Hg1) in Ep; [|done|exact Ho0|cbn; lia]. cbn [app] in Hn. congruence. }
  intros s2 p2 H2 Hg2 Hc2 Hn2. cbn [negb].
  assert (Hn1' : node (mem s2) r [PDX1 la] = Some p1).
  { apply (gr_node _ _ Hg2); [done|exact Ho1|cbn; lia|done]. }
  apply (wp_table_entry s2 r [PDX1 la] p1 (PDX0 la) p2); [done|done|exact Ho0|cbn; lia|done|done|].
  apply wp_ret. apply HS; [done|by eapply grows_trans| |].
  - intros Ec. rewrite (Hc2 Ec). by apply Hc1.
  - exists p2. rewrite <-E1, <-E0, <-EX. done.
Qed.

(** ** One entry changes *)

Definition maps_to (e p : Z) : bool := has e PTE_V && bool_decide (ppn_of e = p).
Definition b2z (b : bool) : Z := if b then 1 else 0.

Record set_slot s s' r v e : Prop := {
  ss_pte r' v' : r' ∈ R -> vpage v' -> pte_of s' r' v' = if decide (r' = r /\ v' = v) then e else pte_of s r' v';
  ss_node r' path : r' ∈ R -> ok_path path -> (length path <= 2)%nat -> node (mem s') r' path = node (mem s) r' path;
  ss_cells q : is_Some (ref_of (phys s') q) <-> is_Some (ref_of (phys s) q);
  ss_mem q i : ~ table s (q + nbase) -> idx i -> mem s' ((q + nbase) * 512 + i) = mem s ((q + nbase) * 512 + i);
}.

Lemma maps_to_true e p : maps_to e p = true <-> has e PTE_V = true /\ ppn_of e = p.
Proof. unfold maps_to. rewrite andb_true_iff, bool_decide_eq_true. done. Qed.

Lemma set_slot_table s s' r v e p : set_slot s s' r v e -> table s' p <-> table s p.
Proof.
  intros H. split; intros (r'&path&Hr&Ho&Hl&E); exists r', path; (split_and!; [done..|]);
    [rewrite <-(ss_node _ _ _ _ _ H) by done|rewrite (ss_node _ _ _ _ _ H) by done]; done.
Qed.

Lemma set_slot_count s s' r v e p : pt_inv s -> r ∈ R -> vpage v -> set_slot s s' r v e ->
  mapcount s' p = mapcount s p - b2z (maps_to (pte_of s r v) p) + b2z (maps_to e p).
Proof.
  intros H Hr Hv Hs. unfold mapcount.
  rewrite (count_change (maps s p) (maps s' p) user_slots (r, v)); [|by eapply user_slots_NoDup|by apply user_slots_in|].
  - unfold maps at 2 3. cbn [fst snd]. rewrite (ss_pte _ _ _ _ _ Hs) by done. by rewrite decide_True by done.
  - intros [r' v'] [Hr' Hv']%user_slots_in Hne. unfold maps. cbn [fst snd]. rewrite (ss_pte _ _ _ _ _ Hs) by done.
    rewrite decide_False; [done|]. intros [-> ->]. done.
Qed.

Lemma leaf_table s r v w : r ∈ R -> vpage v -> leaf s r v w ->
  exists p, table s p /\ w = p * 512 + v mod 512 /\ idx (v mod 512) /\ mem s w = pte_of s r v /\
    node (mem s) r [v / 2 ^ 18; v / 2 ^ 9 mod 512] = Some p.
Proof.
  intros Hr Hv (p&Hp&->). exists p. split_and!; [|done|apply Z.mod_pos_bound; lia|unfold pte_of; by rewrite Hp|done].
  exists r, [v / 2 ^ 18; v / 2 ^ 9 mod 512]. split_and!; [done|by apply vpath_prefix|cbn; lia|done].
Qed.

Lemma slot_written s s' r v w e :
  pt_inv s -> r ∈ R -> vpage v -> leaf s r v w ->
  (forall q, is_Some (ref_of (phys s') q) <-> is_Some (ref_of (phys s) q)) ->
  (forall a, mem s' a = if a =? w then e else mem s a) ->
  set_slot s s' r v e.
Proof.
  intros H Hr Hv Hw Hc Hm. destruct (leaf_table s r v w Hr Hv Hw) as (p&Ht&->&Hi&_&Hp).
  destruct (node_write R (mem s) r [v / 2 ^ 18; v / 2 ^ 9 mod 512] p (v mod 512) e (pi_apart _ H) Hr) as [Hn _];
    [apply (vpath_ok v Hv)|cbn; lia|done|]. cbv zeta in Hn. rewrite <-vpath_split in Hn.
  assert (Hn2 : forall r' path, r' ∈ R -> ok_path path -> (length path <= 2)%nat ->
    node (mem s') r' path = node (mem s) r' path).
  { intros r' path Hr' Ho Hl. rewrite (node_ext _ _ Hm). apply Hn; [done|done|lia|].
    intros [_ Hpre%prefix_length]. cbn in Hpre. lia. }
  split; [|exact Hn2|exact Hc|].
  - intros r' v' Hr' Hv'. unfold pte_of. rewrite Hn2 by (first [done|by apply vpath_prefix|cbn; lia]).
    destruct (node (mem s) r' [v' / 2 ^ 18; v' / 2 ^ 9 mod 512]) as [p'|] eqn:Ep.
    + assert (idx (v' mod 512)) by (apply Z.mod_pos_bound; lia). rewrite Hm.
      destruct (Z.eqb_spec (p' * 512 + v' mod 512) (p * 512 + v mod 512)) as [Ew|Hne].
      * apply word_inj in Ew as [-> Em]; [|done..].
        destruct (pi_apart _ H r [v / 2 ^ 18; v / 2 ^ 9 mod 512] r' [v' / 2 ^ 18; v' / 2 ^ 9 mod 512] p) as [-> E];
          try done; try (by apply vpath_prefix); try (cbn; lia).
        rewrite decide_True; [done|]. split; [done|]. apply vpath_inj. rewrite !vpath_split, E, Em. done.
      * rewrite decide_False; [done|]. intros [-> ->]. apply Hne. congruence.
    + rewrite decide_False; [done|]. intros [-> ->]. congruence.
  - intros q i Hnt Hq. rewrite Hm. destruct (Z.eqb_spec ((q + nbase) * 512 + i) (p * 512 + v mod 512)) as [Ew|]; [|done].
    apply (word_inj (q + nbase) i p (v mod 512) Hq Hi) in Ew as [<- _]. done.
Qed.

Lemma node3_pte s r path p : r ∈ R -> ok_path path -> length path = 3%nat -> node (mem s) r path = Some p ->
  exists v, vpage v /\ path = vpath v /\ maps_to (pte_of s r v) p = true.
Proof.
  intros Hr Ho Hl E. destruct (vpath_surj path Ho Hl) as (v&Hv&<-). exists v. split_and!; [done|done|].
  rewrite node_pte in E. apply maps_to_true. case_match; [|done]. by injection E.
Qed.

Lemma mapcount_pos s r v p : r ∈ R -> vpage v -> maps_to (pte_of s r v) p = true -> 0 < mapcount s p.
Proof. intros Hr Hv Hm. eapply (count_pos _ _ (r, v)); [by apply user_slots_in|exact Hm]. Qed.

Lemma mapped_data s r v p : pt_inv s -> r ∈ R -> vpage v -> maps_to (pte_of s r v) p = true ->
  data s (p - nbase) /\ nbase <= p < npage.
Proof.
  intros H Hr Hv Hm. assert (E : node (mem s) r (vpath v) = Some p).
  { rewrite node_pte. apply maps_to_true in Hm as [-> ->]. done. }
  pose proof (vpath_ok v Hv) as Ho. split; [|by eapply (node_bound s r (vpath v)); [..|exact E]; [done|done|done|cbn; lia]].
  destruct (pi_node _ H r (vpath v) p Hr Ho ltac:(cbn; lia) E) as [Hq Hf]. split_and!; [done|done|].
  replace (p - nbase + nbase) with p by lia. intros (r'&path&Hr'&Ho'&Hl'&E').
  destruct (pi_apart _ H r' path r (vpath v) p) as [_ ->]; try done; cbn in *; lia.
Qed.

Lemma inv_set_slot s s' r v e :
  pt_inv s -> r ∈ R -> vpage v -> set_slot s s' r v e -> pg_inv (phys s') ->
  (forall p, table s p -> ~ pg_free (phys s') (p - nbase)) ->
  (has e PTE_V = true -> is_Some (ref_of (phys s) (ppn_of e - nbase)) /\ ~ table s (ppn_of e)) ->
  (forall q n, ref_of (phys s') q = Some n -> ~ table s (q + nbase) ->
     n = mapcount s (q + nbase) - b2z (maps_to (pte_of s r v) (q + nbase)) + b2z (maps_to e (q + nbase))) ->
  pt_inv s'.
Proof.
  intros H Hr Hv Hs Hph Htab He Hcount.
  assert (Hcnt : forall q n, ref_of (phys s') q = Some n -> ~ table s' (q + nbase) -> n = mapcount s' (q + nbase)).
  { intros q n Hq Hnt. rewrite (set_slot_table _ _ _ _ _ _ Hs) in Hnt. erewrite set_slot_count by done. by apply Hcount. }
  assert (Hmap : forall r' v' p, r' ∈ R -> vpage v' -> maps_to (pte_of s' r' v') p = true ->
    is_Some (ref_of (phys s) (p - nbase)) /\ ~ table s p).
  { intros r' v' p Hr' Hv'. rewrite (ss_pte _ _ _ _ _ Hs) by done. case_decide.
    - intros [Ev <-]%maps_to_true. by apply He.
    - intros Hm. destruct (mapped_data s r' v' p H Hr' Hv' Hm) as [(?&_&Hnt) _]. split; [done|].
      by replace (p - nbase + nbase) with p in Hnt by lia. }
  split; [done| |apply H|apply H| | |exact Hcnt].
  - intros q Hq. apply (pi_frames _ H). by apply (ss_cells _ _ _ _ _ Hs).
  - intros r' path p Hr' Ho Hl E. destruct (decide (length path = 3%nat)) as [E3|Hne].
    + destruct (node3_pte s' r' path p Hr' Ho E3 E) as (v'&Hv'&_&Hm). destruct (Hmap r' v' p Hr' Hv' Hm) as [Hq Hnt].
      apply (ss_cells _ _ _ _ _ Hs) in Hq. split; [done|]. intros Hf. pose proof (pg_free_ref _ _ Hph Hf) as Hz.
      apply Hcnt in Hz; [|rewrite (set_slot_table _ _ _ _ _ _ Hs); by replace (p - nbase + nbase) with p by lia].
      replace (p - nbase + nbase) with p in Hz by lia. pose proof (mapcount_pos s' r' v' p Hr' Hv' Hm). lia.
    + rewrite (ss_node _ _ _ _ _ Hs) in E by (done || lia). split.
      * apply (ss_cells _ _ _ _ _ Hs). by apply (pi_node _ H r' path).
      * apply Htab. exists r', path. split_and!; [done|done|lia|done].
  - intros r1 p1 r2 p2 p Hr1 Hr2 Ho1 Ho2 Hl1 Hl2 E1 E2. rewrite (ss_node _ _ _ _ _ Hs) in E1 by done.
    destruct (decide (length p2 = 3%nat)) as [E3|Hne].
    + destruct (node3_pte s' r2 p2 p Hr2 Ho2 E3 E2) as (v'&Hv'&_&Hm). destruct (Hmap r2 v' p Hr2 Hv' Hm) as [_ Hnt].
      exfalso. apply Hnt. by exists r1, p1.
    + rewrite (ss_node _ _ _ _ _ Hs) in E2 by (done || lia). by eapply (pi_apart _ H).
Qed.

(** ** Reference counts of the operations *)
Lemma wp_ref_add p d n (ph : St) (m : K St Z) (Q : Z -> St -> Prop) :
  m = (r ← page_ref p; set_page_ref p (s32 (r + d));; page_ref p) ->
  pg_inv ph -> ref_of ph p = Some n -> ~ pg_free ph p -> - 2 ^ 31 <= n + d < 2 ^ 31 ->
  (forall ph', pg_inv ph' -> (forall q, ref_of ph' q = if decide (q = p) then Some (n + d) else ref_of ph q) ->
     (forall q, pg_free ph' q <-> pg_free ph q) -> Q (n + d) ph') -> wp m Q ph.
Proof.
  intros -> Hph Hn Hf Hb HQ. kstep. unfold page_ref at 1. unfold wp, unwrap. rewrite Hn.
  match goal with |- match ?m ph with _ => _ end => fold (wp m Q ph) end.
  kstep. eapply wp_mono; [apply pg_set_ref; eauto|]. intros _ ph' (Hi&Hr&Hf').
  rewrite swrap_small in Hr by (change (2 ^ (32 - 1)) with (2 ^ 31); lia).
  unfold page_ref, wp, unwrap. rewrite Hr, decide_True by done. by apply HQ.
Qed.

Lemma wp_ref_inc p n ph (Q : Z -> St -> Prop) :
  pg_inv ph -> ref_of ph p = Some n -> ~ pg_free ph p -> 0 <= n < 2 ^ 31 - 1 ->
  (forall ph', pg_inv ph' -> (forall q, ref_of ph' q = if decide (q = p) then Some (n + 1) else ref_of ph q) ->
     (forall q, pg_free ph' q <-> pg_free ph q) -> Q (n + 1) ph') -> wp (page_ref_inc p) Q ph.
Proof. intros ??? Hb. apply wp_ref_add; [reflexivity|done|done|done|lia]. Qed.

Lemma wp_ref_dec p n ph (Q : Z -> St -> Prop) :
  pg_inv ph -> ref_of ph p = Some n -> ~ pg_free ph p -> 0 <= n < 2 ^ 31 ->
  (forall ph', pg_inv ph' -> (forall q, ref_of ph' q = if decide (q = p) then Some (n - 1) else ref_of ph q) ->
     (forall q, pg_free ph' q <-> pg_free ph q) -> Q (n - 1) ph') -> wp (page_ref_dec p) Q ph.
Proof. intros ??? Hb. apply (wp_ref_add p (-1)); [reflexivity|done|done|done|lia]. Qed.

Lemma wp_pte2page e s (Q : Z -> pt_state St -> Prop) :
  has e PTE_V = true -> ppn_of e < npage -> Q (ppn_of e - nbase) s -> wp (pte2page npage e) Q s.
Proof.
  intros He Hp HQ. unfold pte2page, pa2page. kstep. kstep; [done|]. kstep. kstep; [by apply Z.ltb_lt|]. by kstep.
Qed.

(** Removing a valid entry, whatever the counts of other pages. *)
Lemma wp_page_remove_pte s r la p i n (Q : () -> pt_state St -> Prop) :
  let w := p * 512 + i in let e := mem s w in let q := ppn_of e - nbase in
  nbase <= p < npage -> idx i -> pg_inv (phys s) -> has e PTE_V = true -> ppn_of e < npage ->
  ref_of (phys s) q = Some n -> ~ pg_free (phys s) q -> 0 < n < 2 ^ 31 ->
  (forall ph, pg_inv ph -> (forall q', ref_of ph q' = if decide (q' = q) then Some (n - 1) else ref_of (phys s) q') ->
     (forall q', pg_free ph q' <-> pg_free (phys s) q' \/ (q' = q /\ n = 1)) ->
     Q () (mk_pt ph (fun a => if a =? w then 0 else mem s a))) ->
  wp (page_remove_pte pm npage r la w) Q s.
Proof.
  intros w e q Hp Hi Hph He Hb Hn Hf Hn1 HQ. unfold page_remove_pte. kstep. apply wp_rd_word; [done|done|].
  fold w. fold e. rewrite He. cbn [when]. kstep. apply wp_pte2page; [done|done|]. fold q.
  kstep. apply wp_on_pmm. eapply wp_ref_dec; [done|exact Hn|done|lia|]. intros ph1 H1 Hr1 Hf1.
  kstep. apply wp_when_dec.
  - intros En. unfold free_page, free_pages. apply wp_on_pmm. cbn [phys mem]. eapply wp_mono.
    { apply pg_release; [done|rewrite Hr1, decide_True by done; eauto|by rewrite Hf1]. }
    intros _ ph2 (H2&Hr2&Hf2). kstep. apply wp_wr_word; [done|done|]. apply wp_ret. cbn [phys mem]. apply HQ; [done| |].
    + intros q'. rewrite Hr2, Hr1. case_decide; [|done]. f_equal. lia.
    + intros q'. rewrite Hf2, Hf1. assert (n = 1) by lia. naive_solver.
  - intros En. kstep. apply wp_wr_word; [done|done|]. apply wp_ret. cbn [phys mem]. apply HQ; [done|done|].
    intros q'. rewrite Hf1. naive_solver lia.
Qed.

Definition freed_unmapped s s' : Prop := forall q,
  pg_free (phys s') q <-> pg_free (phys s) q \/ (0 < mapcount s (q + nbase) /\ mapcount s' (q + nbase) = 0).

(** An entry has been rewritten and the counts follow. *)
Lemma slot_done s s' r v w e :
  pt_inv s -> r ∈ R -> vpage v -> leaf s r v w -> pg_inv (phys s') ->
  (has e PTE_V = true -> data s (ppn_of e - nbase)) ->
  (forall a, mem s' a = if a =? w then e else mem s a) ->
  (forall q, ref_of (phys s') q =
     (fun k => k - b2z (maps_to (pte_of s r v) (q + nbase)) + b2z (maps_to e (q + nbase))) <$> ref_of (phys s) q) ->
  (forall q, pg_free (phys s') q <-> pg_free (phys s) q \/
     (ref_of (phys s) q = Some 1 /\ maps_to (pte_of s r v) (q + nbase) = true /\ maps_to e (q + nbase) = false)) ->
  pt_inv s' /\ set_slot s s' r v e /\ freed_unmapped s s'.
Proof.
  intros H Hr Hv Hw Hph He Hm Hrefs Hfree. set (old := pte_of s r v) in *.
  assert (Hs : set_slot s s' r v e).
  { apply (slot_written s s' r v w e H Hr Hv Hw); [|exact Hm]. intros q. rewrite Hrefs. by rewrite fmap_is_Some. }
  assert (Hold : forall q, maps_to old (q + nbase) = true -> data s q).
  { intros q Hq. destruct (mapped_data s r v _ H Hr Hv Hq) as [Hd _]. by replace (q + nbase - nbase) with q in Hd by lia. }
  assert (Hcnt : forall q, mapcount s' (q + nbase) =
    mapcount s (q + nbase) - b2z (maps_to old (q + nbase)) + b2z (maps_to e (q + nbase))).
  { intros q. by apply (set_slot_count s s' r v e). }
  split_and!; [|done|].
  - apply (inv_set_slot s s' r v e H Hr Hv Hs Hph).
    + intros p (r'&path&Hr'&Ho&Hl&Ep). destruct (pi_node _ H r' path p Hr' Ho ltac:(lia) Ep) as [_ Hnf].
      rewrite Hfree. intros [?|(_&Hmo&_)]; [done|]. destruct (Hold _ Hmo) as (_&_&Hnt). apply Hnt.
      replace (p - nbase + nbase) with p by lia. by exists r', path.
    + intros Hev. destruct (He Hev) as (?&_&Hnt). split; [done|]. by replace (ppn_of e - nbase + nbase) with (ppn_of e) in Hnt by lia.
    + intros q n Hn Hnt. rewrite Hrefs in Hn. apply fmap_Some in Hn as (k&Hk&->). by rewrite (pi_count _ H q k Hk Hnt).
  - intros q. rewrite Hfree, Hcnt. destruct (maps_to old (q + nbase)) eqn:Eo.
    + pose proof (mapcount_pos s r v _ Hr Hv Eo). destruct (Hold q Eo) as ([k Hk]&_&Hnt).
      pose proof (pi_count _ H q k Hk Hnt) as Ek. rewrite Hk.
      split; [intros [?|([= ->]&_&Ee)]; [by left|right; rewrite Ee; cbn; lia]|].
      intros [?|[_ E]]; [by left|]. right. destruct (maps_to e (q + nbase)); cbn in E; [lia|].
      split_and!; [f_equal; lia|done|done].
    + cbn [b2z]. split; [intros [?|(_&?&_)]; [by left|done]|]. intros [?|[? E]]; [by left|].
      destruct (maps_to e (q + nbase)); cbn in E; lia.
Qed.

Lemma maps_to_0 p : maps_to 0 p = false.
Proof. unfold maps_to. by rewrite has_0. Qed.

Lemma maps_to_eq e q : has e PTE_V = true -> maps_to e (q + nbase) = bool_decide (q = ppn_of e - nbase).
Proof. intros H. unfold maps_to. rewrite H. cbn. apply bool_decide_ext. lia. Qed.

Lemma wp_unmap_entry s r la v w (Q : () -> pt_state St -> Prop) :
  pt_inv s -> r ∈ R -> vpage v -> leaf s r v w -> has (pte_of s r v) PTE_V = true ->
  (forall s', pt_inv s' -> set_slot s s' r v 0 -> freed_unmapped s s' -> Q () s') ->
  wp (page_remove_pte pm npage r la w) Q s.
Proof.
  intros H Hr Hv Hw He HQ. destruct (leaf_table s r v w Hr Hv Hw) as (p&(r'&path&Hr'&Ho&Hl&Ep)&->&Hi&Em&_).
  pose proof (node_bound s r' path p H Hr' Ho ltac:(lia) Ep) as Hp.
  assert (Hmt : maps_to (pte_of s r v) (ppn_of (pte_of s r v)) = true) by by apply maps_to_true.
  destruct (mapped_data s r v _ H Hr Hv Hmt) as [([n Hn]&Hnf&Hnt) Hb].
  pose proof (pi_count _ H _ n Hn Hnt) as En. replace (ppn_of _ - nbase + nbase) with (ppn_of (pte_of s r v)) in En by lia.
  pose proof (mapcount_pos s r v _ Hr Hv Hmt). pose proof (mapcount_bounds s (ppn_of (pte_of s r v)) H).
  apply (wp_page_remove_pte s r la p (v mod 512) n); rewrite ?Em; try done; try apply H; try lia.
  intros ph Hph Hrf Hfr. destruct (slot_done s (mk_pt ph (fun a => if a =? p * 512 + v mod 512 then 0 else mem s a)) r v
    (p * 512 + v mod 512) 0 H Hr Hv Hw Hph) as (H'&Hs&Hfu); [by rewrite has_0|done| | |by apply HQ].
  - intros q. cbn. rewrite Hrf, maps_to_0, maps_to_eq by done. case_decide as E.
    + subst q. rewrite Hn, bool_decide_true by done. cbn. f_equal. lia.
    + rewrite bool_decide_false by done. cbn. destruct (ref_of (phys s) q); [|done]. cbn. f_equal. lia.
  - intros q. cbn. rewrite Hfr, maps_to_0, maps_to_eq by done. rewrite bool_decide_eq_true.
    split; (intros [?|Hc]; [by left|right]).
    + destruct Hc as [-> ->]. done.
    + destruct Hc as (Hq&->&_). rewrite Hn in Hq. by injection Hq as ->.
Qed.

Lemma data_grows s s' q : grows s s' -> data s q -> data s' q.
Proof. intros Hg Hd. by apply (gr_data _ _ Hg q 0). Qed.

Lemma wp_page_insert s r page la perm (Q : Z -> pt_state St -> Prop) :
  let v := la / PGSIZE in let e := pte_create (page2ppn page) (Z.lor PTE_V perm) in
  pt_inv s -> r ∈ R -> 0 <= la < USERTOP -> data s page -> 0 <= perm < 1024 ->
  (forall s', pt_inv s' -> grows s s' -> (forall w, ~ leaf s r v w) -> Q (- E_NO_MEM) s') ->
  (forall s1 s', grows s s1 -> pt_inv s1 -> pt_inv s' -> set_slot s1 s' r v e -> freed_unmapped s1 s' -> Q 0 s') ->
  wp (page_insert pm npage r page la perm) Q s.
Proof.
  intros v e H Hr Hla Hd Hperm HN HS. destruct (path_of_la la Hla) as [Hv _]. fold v in Hv.
  unfold page_insert. kstep. apply (wp_get_pte s r la true); [done|done|done| |].
  2:{ intros s1 H1 Hg1 _ Hno. apply wp_ret. apply HN; [done|done|]. intros w (p&Hp&_).
      destruct (path_of_la la Hla) as [_ Hpath]. unfold vpath in Hpath. injection Hpath as E1 E0 _. subst v. congruence. }
  intros s1 w H1 Hg1 _ Hw. fold v in Hw. pose proof (data_grows _ _ _ Hg1 Hd) as ([n Hn]&Hnf&Hnt).
  pose proof (page_frame s1 page H1 ltac:(eauto)) as Hpb. pose proof (pi_phys _ H1) as Hnp.
  destruct (leaf_table s1 r v w Hr Hv Hw) as (p&(r'&path&Hr'&Ho&Hl&Ep)&->&Hi&Em&_).
  pose proof (node_bound s1 r' path p H1 Hr' Ho ltac:(lia) Ep) as Hp.
  assert (Hev : has e PTE_V = true) by apply pte_create_valid.
  assert (Hep : ppn_of e - nbase = page).
  { unfold e, page2ppn. rewrite pte_create_ppn; [lia|unfold nbase in *; lia|]. apply lor_flags; [done|lia]. }
  pose proof (pi_count _ H1 page n Hn Hnt) as En. pose proof (mapcount_bounds s1 (page + nbase) H1). fold e. clearbody e v.
  kstep. apply wp_on_pmm. apply (wp_ref_inc page n); [apply H1|done|done|lia|]. intros ph1 Hph1 Hr1 Hf1.
  kstep. apply wp_rd_word; [done|done|]. cbn [mem phys]. rewrite Em. remember (pte_of s1 r v) as old eqn:Eold.
  assert (Hdone : forall ph m, pg_inv ph -> (forall a, m a = if a =? p * 512 + v mod 512 then e else mem s1 a) ->
    (forall q, ref_of ph q = (fun k => k - b2z (maps_to old (q + nbase)) + b2z (bool_decide (q = page))) <$> ref_of (phys s1) q) ->
    (forall q, pg_free ph q <-> pg_free (phys s1) q \/ (ref_of (phys s1) q = Some 1 /\ maps_to old (q + nbase) = true /\ q <> page)) ->
    Q 0 (mk_pt ph m)).
  { intros ph m Hph Hm Hrf Hfr. destruct (slot_done s1 (mk_pt ph m) r v (p * 512 + v mod 512) e H1 Hr Hv Hw Hph) as (H'&Hs&Hfu).
    - rewrite Hep. intros _. split_and!; [eauto|done|done].
    - exact Hm.
    - intros q. cbn [phys]. rewrite Hrf. rewrite <-?Eold. by rewrite (maps_to_eq e), Hep by done.
    - intros q. cbn [phys]. rewrite Hfr. rewrite <-?Eold. by rewrite (maps_to_eq e), Hep, bool_decide_eq_false by done.
    - by apply (HS s1). }
  destruct (has old PTE_V) eqn:Eo; cbn [when].
  - assert (Hmt : maps_to old (ppn_of old) = true) by by apply maps_to_true.
    pose proof Hmt as Hmt'. rewrite Eold in Hmt' at 1.
    destruct (mapped_data s1 r v _ H1 Hr Hv Hmt') as [([k Hk]&Hkf&Hkt) Hb].
    kstep. kstep. apply wp_pte2page; [done|lia|]. case_bool_decide as Epg.
    + kstep. apply wp_on_pmm. cbn [phys mem]. apply (wp_ref_dec page (n + 1)); [done|by rewrite Hr1, decide_True|by rewrite Hf1|lia|].
      intros ph2 Hph2 Hr2 Hf2. apply wp_ret. kstep. apply wp_wr_word; [done|done|]. kstep. apply wp_ret. apply wp_ret. cbn [phys mem].
      apply Hdone; [done|done| |].
      * intros q. rewrite Hr2, Hr1, (maps_to_eq old), Epg by done. destruct (decide (q = page)) as [->|Hq].
        -- rewrite Hn, bool_decide_true by done. cbn. f_equal. lia.
        -- rewrite bool_decide_false by done. cbn. destruct (ref_of (phys s1) q); [|done]. cbn. f_equal. lia.
      * intros q. rewrite Hf2, Hf1, (maps_to_eq old), Epg, bool_decide_eq_true by done. clear. tauto.
    + pose proof (pi_count _ H1 _ k Hk Hkt) as Ek. replace (ppn_of old - nbase + nbase) with (ppn_of old) in Ek by lia.
      pose proof (mapcount_pos s1 r v _ Hr Hv Hmt'). pose proof (mapcount_bounds s1 (ppn_of old) H1).
      apply (wp_page_remove_pte _ r la p (v mod 512) k); cbn [phys mem]; rewrite ?Em, <-?Eold; try done; try lia.
      * by rewrite Hr1, decide_False.
      * by rewrite Hf1.
      * intros ph2 Hph2 Hr2 Hf2. kstep. apply wp_wr_word; [done|done|]. kstep. apply wp_ret. apply wp_ret. cbn [phys mem].
        apply Hdone; [done| | |].
        -- intros a. by destruct (a =? p * 512 + v mod 512).
        -- intros q. rewrite Hr2, Hr1, (maps_to_eq old) by done.
           destruct (decide (q = ppn_of old - nbase)) as [->|Hq]; [|destruct (decide (q = page)) as [->|Hq']].
           ++ rewrite Hk, bool_decide_true, bool_decide_false by done. cbn. f_equal. lia.
           ++ rewrite Hn, bool_decide_false, bool_decide_true by done. cbn. f_equal. lia.
           ++ rewrite !bool_decide_false by done. cbn. destruct (ref_of (phys s1) q); [|done]. cbn. f_equal. lia.
        -- intros q. rewrite Hf2, Hf1, (maps_to_eq old), bool_decide_eq_true by done.
           split; (intros [?|Hc]; [by left|right]); [by destruct Hc as [-> ->]|].
           destruct Hc as (Hq&->&_). rewrite Hk in Hq. by injection Hq as ->.
  - kstep. apply wp_ret. kstep. apply wp_wr_word; [done|done|]. kstep. apply wp_ret. apply wp_ret. cbn [phys mem].
    apply Hdone; [done|done| |].
    + intros q. rewrite Hr1. unfold maps_to. rewrite Eo. cbn. destruct (decide (q = page)) as [->|Hq].
      * rewrite Hn, bool_decide_true by done. cbn. f_equal. lia.
      * rewrite bool_decide_false by done. cbn. destruct (ref_of (phys s1) q); [|done]. cbn. f_equal. lia.
    + intros q. rewrite Hf1. unfold maps_to. rewrite Eo. clear. naive_solver.
Qed.

(** ** unmap_range *)

Record unmapped s s' r lo hi : Prop := {
  un_pte r' v : r' ∈ R -> vpage v -> pte_of s' r' v =
    if decide (r' = r /\ lo <= v < hi /\ has (pte_of s r v) PTE_V = true) then 0 else pte_of s r' v;
  un_node r' path : r' ∈ R -> ok_path path -> (length path <= 2)%nat -> node (mem s') r' path = node (mem s) r' path;
  un_mem q i : ~ table s (q + nbase) -> idx i -> mem s' ((q + nbase) * 512 + i) = mem s ((q + nbase) * 512 + i);
  un_le p : mapcount s' p <= mapcount s p;
  un_freed : freed_unmapped s s';
}.

(** Nothing valid between [lo] and [mid]. *)
Lemma unmapped_skip s s' r lo mid hi :
  unmapped s s' r mid hi -> lo <= mid ->
  (forall v, vpage v -> lo <= v < mid -> v < hi -> has (pte_of s r v) PTE_V = false) -> unmapped s s' r lo hi.
Proof.
  intros H Hl Hz. split; try apply H. intros r' v Hr Hv. rewrite (un_pte _ _ _ _ _ H) by done.
  destruct (decide (r' = r /\ mid <= v < hi /\ has (pte_of s r v) PTE_V = true)) as [(?&?&?)|Hn].
  - rewrite decide_True by (split_and!; [done|lia|lia|done]). done.
  - rewrite decide_False; [done|]. intros (->&Hv'&He). apply Hn. split_and!; [done| |lia|done].
    destruct (decide (v < mid)); [|lia]. rewrite (Hz v) in He by (done || lia). done.
Qed.

Lemma unmapped_none s r lo hi : hi <= lo -> pt_inv s -> unmapped s s r lo hi.
Proof.
  intros Hl H. split; try done.
  - intros r' v _ _. rewrite decide_False by lia. done.
  - intros q. split; [by left|]. intros [?|?]; [done|lia].
Qed.

Lemma unmapped_slot s s1 s' r v hi :
  pt_inv s -> pt_inv s1 -> pt_inv s' -> r ∈ R -> vpage v -> v < hi -> has (pte_of s r v) PTE_V = true ->
  set_slot s s1 r v 0 -> freed_unmapped s s1 -> unmapped s1 s' r (v + 1) hi -> unmapped s s' r v hi.
Proof.
  intros H H1 H' Hr Hv Hlt He Hs Hf Hu.
  assert (Hle : forall p, mapcount s1 p <= mapcount s p).
  { intros p. rewrite (set_slot_count s s1 r v 0 p H Hr Hv Hs), maps_to_0. cbn. destruct (maps_to _ _); cbn; lia. }
  split.
  - intros r' v' Hr' Hv'. rewrite (un_pte _ _ _ _ _ Hu), !(ss_pte _ _ _ _ _ Hs) by done.
    destruct (decide (r' = r /\ v' = v)) as [[-> ->]|Hn].
    + case_decide; [by rewrite decide_True|]. rewrite decide_True; [done|]. split_and!; [done|lia|lia|done].
    + destruct (decide (r = r /\ v' = v)) as [[_ ->]|Hn2].
      * rewrite has_0. rewrite !decide_False; [done|intros (->&_); by apply Hn|by intros (_&_&?)].
      * destruct (decide (r' = r /\ v + 1 <= v' < hi /\ has (pte_of s r v') PTE_V = true)) as [(?&?&?)|Hn3].
        -- rewrite decide_True by (split_and!; [done|lia|lia|done]). done.
        -- rewrite decide_False; [done|]. intros (->&Hb&Hh). apply Hn3. split_and!; [done| |lia|done].
           assert (v' <> v) by (intros ->; by apply Hn). lia.
  - intros r' path ???. by rewrite (un_node _ _ _ _ _ Hu), (ss_node _ _ _ _ _ Hs).
  - intros q i Hq Hi. rewrite (un_mem _ _ _ _ _ Hu), (ss_mem _ _ _ _ _ Hs); [done|done|done| |done].
    by rewrite (set_slot_table _ _ _ _ _ _ Hs).
  - intros p. pose proof (un_le _ _ _ _ _ Hu p). specialize (Hle p). lia.
  - intros q. pose proof (un_freed _ _ _ _ _ Hu q) as Hfu. specialize (Hf q). specialize (Hle (q + nbase)).
    pose proof (un_le _ _ _ _ _ Hu (q + nbase)). pose proof (mapcount_bounds s' (q + nbase) H').
    rewrite Hfu, Hf. split; [intros [[?|?]|?]|intros [?|?]]; [by left|right; lia|right; lia|by left; left|].
    destruct (decide (mapcount s1 (q + nbase) = 0)); [left; right; lia|right; lia].
Qed.

(** Pages of one table. *)
Lemma no_table s r la v : 0 <= la < USERTOP -> node (mem s) r [PDX1 la; PDX0 la] = None -> v / 512 = la / PGSIZE / 512 ->
  pte_of s r v = 0.
Proof.
  intros Hla Hn E. destruct (path_of_la la Hla) as [_ Hp]. unfold vpath in Hp. injection Hp as E1 E0 _.
  unfold pte_of. assert (v / 2 ^ 18 = PDX1 la) as ->.
  { rewrite E1. change (2 ^ 18) with (512 * 512). rewrite <-!(Z.div_div _ 512 512) by lia. by rewrite E. }
  change (2 ^ 9) with 512 in *. rewrite E, <-E0. by rewrite Hn.
Qed.

Lemma more_true a b : more a b = true <-> a <> 0 /\ a < b.
Proof. unfold more. rewrite andb_true_iff, bool_decide_eq_true, Z.ltb_lt. done. Qed.

(** The first page of the next table. *)
Lemma next_table v : vpage v -> ROUNDDOWN (u64 (v * PGSIZE + PTSIZE)) PTSIZE = (v / 512 + 1) * 512 * PGSIZE.
Proof.
  unfold vpage. intros Hv. rewrite uwrap_small by (unfold PTSIZE, PGSIZE; lia). rewrite ROUNDDOWN_mul by (unfold PTSIZE, PGSIZE; lia).
  replace (v * PGSIZE + PTSIZE) with ((v + 512) * PGSIZE) by (unfold PTSIZE, PGSIZE; lia).
  unfold PTSIZE, PGSIZE. rewrite (Z.mul_comm (4096 * 512)), (Z.mul_comm 4096 512), Z.div_mul_cancel_r by lia. zlia.
Qed.

Lemma wp_unmap_loop fuel s r v hi (Q : () -> pt_state St -> Prop) :
  pt_inv s -> r ∈ R -> vpage v -> v < hi <= 2 ^ 19 -> hi - v < Z.of_nat fuel ->
  (forall s', pt_inv s' -> unmapped s s' r v hi -> Q () s') ->
  wp (unmap_loop pm npage fuel r (v * PGSIZE) (hi * PGSIZE)) Q s.
Proof.
  revert s v Q. induction fuel as [|fuel IH]; intros s v Q H Hr Hv Hhi Hf HQ; [lia|]. cbn [unmap_loop].
  unfold vpage in Hv. assert (Hla : 0 <= v * PGSIZE < USERTOP) by (unfold PGSIZE, USERTOP; lia).
  assert (Ev : v * PGSIZE / PGSIZE = v) by (unfold PGSIZE; apply Z.div_mul; lia).
  assert (Hnext : forall n, v < n <= 2 ^ 19 + 512 -> more (n * PGSIZE) (hi * PGSIZE) = true -> n < hi).
  { intros n _ [_ ?]%more_true. unfold PGSIZE in *. lia. }
  assert (Hstop : forall n, v < n <= 2 ^ 19 + 512 -> more (n * PGSIZE) (hi * PGSIZE) = false -> hi <= n).
  { intros n Hn Hm. apply not_true_iff_false in Hm. rewrite more_true in Hm. unfold PGSIZE in *. lia. }
  kstep. apply (wp_get_pte s r (v * PGSIZE) false); [done|done|done| |].
  - intros s0 w _ _ Hs0 Hw. rewrite (Hs0 eq_refl) in *. clear Hs0. rewrite Ev in Hw.
    destruct (leaf_table s r v w Hr Hv Hw) as (p&(r'&path&Hr'&Ho&Hl&Ep)&->&Hi&Em&_).
    pose proof (node_bound s r' path p H Hr' Ho ltac:(lia) Ep) as Hp.
    assert (En : u64 (v * PGSIZE + PGSIZE) = (v + 1) * PGSIZE) by (rewrite uwrap_small; unfold PGSIZE; lia).
    assert (Hcont : forall s1, pt_inv s1 -> (forall s', pt_inv s' -> unmapped s1 s' r (v + 1) hi -> unmapped s s' r v hi) ->
      wp (if more ((v + 1) * PGSIZE) (hi * PGSIZE) then unmap_loop pm npage fuel r ((v + 1) * PGSIZE) (hi * PGSIZE) else mret ()) Q s1).
    { intros s1 H1 Hu. destruct (more _ _) eqn:Em1.
      - apply Hnext in Em1; [|lia]. apply IH; [done|done|unfold vpage; lia|lia|lia|]. intros s' H' Hu'. apply HQ; [done|by apply Hu].
      - apply Hstop in Em1; [|lia]. apply wp_ret, HQ; [done|]. apply Hu; [done|]. by apply unmapped_none. }
    kstep. kstep. apply wp_rd_word; [done|done|]. rewrite Em. kstep. apply wp_when_dec.
    + intros Hnz. destruct (has (pte_of s r v) PTE_V) eqn:Eh.
      * apply (wp_unmap_entry s r _ v); [done|done|done|done|done|]. intros s1 H1 Hs1 Hf1. apply wp_ret. rewrite En.
        apply Hcont; [done|]. intros s' H' Hu'. apply (unmapped_slot s s1 s' r v hi); try done. lia.
      * unfold page_remove_pte. kstep. apply wp_rd_word; [done|done|]. rewrite Em, Eh. apply wp_ret, wp_ret. rewrite En.
        apply Hcont; [done|]. intros s' H' Hu'. apply (unmapped_skip _ _ _ _ (v + 1)); [done|lia|]. intros v' _ ? _. by replace v' with v by lia.
    + intros Hz. apply wp_ret. rewrite En. apply Hcont; [done|]. intros s' H' Hu'.
      apply (unmapped_skip _ _ _ _ (v + 1)); [done|lia|]. intros v' _ ? _. replace v' with v by lia.
      assert (pte_of s r v = 0) as -> by (destruct (decide (pte_of s r v = 0)); [done|by exfalso; apply Hz]). apply has_0.
  - intros s0 _ _ Hs0 Hn. rewrite (Hs0 eq_refl) in *. clear Hs0. kstep. apply wp_ret.
    set (n := (v / 512 + 1) * 512).
    assert (Hn512 : v < n <= v + 512) by (unfold n; zlia).
    assert (En : ROUNDDOWN (u64 (v * PGSIZE + PTSIZE)) PTSIZE = n * PGSIZE) by by apply next_table.
    rewrite En.
    assert (Hz : forall s', unmapped s s' r n hi -> unmapped s s' r v hi).
    { intros s' Hu. apply (unmapped_skip _ _ _ _ n); [done|lia|]. intros v' _ Hv' _.
      rewrite (no_table s r (v * PGSIZE) v'); [apply has_0|done|done|]. rewrite Ev. unfold n in Hv'. zlia. }
    destruct (more _ _) eqn:Em1.
    + apply Hnext in Em1; [|lia]. apply IH; [done|done|unfold vpage; lia|lia|lia|]. intros s' H' Hu'. apply HQ; [done|by apply Hz].
    + apply Hstop in Em1; [|lia]. apply wp_ret, HQ; [done|]. by apply Hz, unmapped_none.
Qed.

(** ** copy_range *)

(** A page fresh from the allocator. *)
Lemma inv_alloc s page ph :
  pt_inv s -> pg_inv ph -> (forall q, ref_of ph q = ref_of (phys s) q) -> pg_free (phys s) page ->
  (forall q, pg_free ph q <-> pg_free (phys s) q /\ q <> page) ->
  let s' := mk_pt ph (mem s) in pt_inv s' /\ grows s s' /\ data s' page /\ mapcount s' (page + nbase) = 0.
Proof.
  intros H Hph Hr Hf Hfr s'. pose proof (pg_free_ref _ _ (pi_pmm _ H) Hf) as H0.
  assert (Hnt : ~ table s (page + nbase)).
  { intros (r&path&Hr'&Ho&Hl&E). destruct (pi_node _ H r path _ Hr' Ho ltac:(lia) E) as [_ Hnf]. apply Hnf.
    by replace (page + nbase - nbase) with page by lia. }
  assert (H' : pt_inv s').
  { split; cbn; try done; try apply H.
    - intros q. rewrite Hr. apply H.
    - intros r path p Hr' Ho Hl E. rewrite Hr, Hfr. destruct (pi_node _ H r path p Hr' Ho Hl E). split; [done|tauto].
    - intros q n. rewrite Hr. apply (pi_count _ H). }
  split_and!; [done| |split_and!; [cbn; rewrite Hr, H0; eauto|cbn; rewrite Hfr; tauto|done]|].
  - split; cbn; try done.
    + intros q. by rewrite Hr.
    + intros q Hq Hnf. rewrite Hr, Hfr. split; [done|tauto].
    + intros q i (Hq&Hnf&Ht). split; [|done]. split_and!; cbn; [by rewrite Hr|rewrite Hfr; tauto|done].
  - symmetry. apply (pi_count _ H page 0); done.
Qed.

(** The contents of a page that is not a table do not matter. *)
Lemma inv_mem_node s m q :
  data s q -> (forall a, a / 512 <> q + nbase -> m a = mem s a) ->
  forall r path, r ∈ R -> ok_path path -> (length path <= 3)%nat -> node m r path = node (mem s) r path.
Proof.
  intros (_&_&Hnt) Hm. apply node_frame. intros r path p i Hr Ho Hl E. apply Hm. rewrite word_frame by by eapply ok_path_last.
  intros ->. apply Hnt. exists r, path. split_and!; [done|by eapply ok_path_app|done|done].
Qed.

Lemma inv_mem s m q :
  pt_inv s -> data s q -> (forall a, a / 512 <> q + nbase -> m a = mem s a) ->
  let s' := mk_pt (phys s) m in
  pt_inv s' /\ (forall r v, r ∈ R -> vpage v -> pte_of s' r v = pte_of s r v) /\ (forall p, table s' p <-> table s p).
Proof.
  intros H (Hq&Hnf&Hnt) Hm s'.
  assert (Ht : forall p i, table s p -> idx i -> m (p * 512 + i) = mem s (p * 512 + i)).
  { intros p i Hp Hi. apply Hm. rewrite word_frame by done. by intros ->. }
  assert (Hn : forall r path, r ∈ R -> ok_path path -> (length path <= 3)%nat -> node m r path = node (mem s) r path)
    by by apply (inv_mem_node s m q).
  assert (Hp : forall r v, r ∈ R -> vpage v -> pte_of s' r v = pte_of s r v).
  { intros r v Hr Hv. unfold pte_of. cbn [mem s']. rewrite Hn by (first [done|by apply vpath_prefix|cbn; lia]).
    destruct (node (mem s) r _) as [p|] eqn:E; [|done]. apply Ht; [|apply Z.mod_pos_bound; lia].
    exists r, [v / 2 ^ 18; v / 2 ^ 9 mod 512]. split_and!; [done|by apply vpath_prefix|cbn; lia|done]. }
  assert (Htt : forall p, table s' p <-> table s p).
  { intros p. split; intros (r&path&Hr&Ho&Hl&E); exists r, path; (split_and!; [done..|]); cbn [mem s'] in *;
      [rewrite <-Hn by (done || lia)|rewrite Hn by (done || lia)]; done. }
  split_and!; [|done|done]. split; try apply H.
  - intros r path p Hr Ho Hl E. cbn [mem s'] in E. rewrite Hn in E by done. by apply (pi_node _ H r path).
  - intros r1 p1 r2 p2 p Hr1 Hr2 Ho1 Ho2 Hl1 Hl2. cbn [mem s']. rewrite !Hn by (done || lia). by apply (pi_apart _ H).
  - intros q' n Hn' Hnt'. rewrite Htt in Hnt'. rewrite (mapcount_ext s s' _ Hp). by apply (pi_count _ H).
Qed.

(** The child's page [v] is a private copy of the parent's. *)
Definition copy_of s s' to from v : Prop :=
  let e := pte_of s from v in
  if has e PTE_V then
    exists q, pte_of s' to v = pte_create (page2ppn q) (Z.lor PTE_V (Z.land e PTE_USER)) /\
      data s' q /\ mapcount s' (q + nbase) = 1 /\ q + nbase <> ppn_of e /\
      forall i, idx i -> mem s' ((q + nbase) * 512 + i) = mem s (ppn_of e * 512 + i)
  else pte_of s' to v = pte_of s to v.

Definition undisturbed s s' : Prop := forall q, data s q ->
  data s' q /\ mapcount s' (q + nbase) = mapcount s (q + nbase) /\
  forall i, idx i -> mem s' ((q + nbase) * 512 + i) = mem s ((q + nbase) * 512 + i).

Record copied s s' to from lo hi : Prop := {
  cp_pte r v : r ∈ R -> vpage v -> ~ (r = to /\ lo <= v < hi) -> pte_of s' r v = pte_of s r v;
  cp_new v : vpage v -> lo <= v < hi -> copy_of s s' to from v;
  cp_data : undisturbed s s';
}.

Lemma grows_undisturbed s s' : grows s s' -> undisturbed s s'.
Proof.
  intros Hg q Hd. split_and!; [by eapply data_grows|apply mapcount_ext, Hg|]. intros i. by apply (gr_data _ _ Hg q i).
Qed.

Lemma copied_none s s' to from lo hi : to ∈ R -> grows s s' ->
  (forall v, vpage v -> lo <= v < hi -> has (pte_of s from v) PTE_V = false) -> copied s s' to from lo hi.
Proof.
  intros Ht Hg Hz. split; [intros; by apply Hg| |by apply grows_undisturbed].
  intros v Hv Hr. unfold copy_of. rewrite Hz by done. by apply Hg.
Qed.

Lemma word_of p i : p * 512 + i = (p - nbase + nbase) * 512 + i.
Proof. lia. Qed.

Lemma copied_trans s s1 s' to from lo mid hi :
  pt_inv s -> pt_inv s1 -> to ∈ R -> from ∈ R -> to <> from -> lo <= mid <= hi ->
  copied s s1 to from lo mid -> copied s1 s' to from mid hi -> copied s s' to from lo hi.
Proof.
  intros H H1 Ht Hf Hne Hb C1 C2. split.
  - intros r v Hr Hv Hn. rewrite (cp_pte _ _ _ _ _ _ C2), (cp_pte _ _ _ _ _ _ C1); try done; intros [??]; apply Hn; split; try done; lia.
  - intros v Hv Hr. destruct (decide (v < mid)).
    + assert (Et : pte_of s' to v = pte_of s1 to v) by (apply (cp_pte _ _ _ _ _ _ C2); [done|done|lia]).
      pose proof (cp_new _ _ _ _ _ _ C1 v Hv ltac:(lia)) as Hc. unfold copy_of in *.
      destruct (has (pte_of s from v) PTE_V); [|congruence]. destruct Hc as (q&E&Hd&Hm&Hqn&Hmem). exists q.
      destruct (cp_data _ _ _ _ _ _ C2 q Hd) as (Hd'&Hm'&Hmem'). split_and!; [congruence|done|congruence|done|].
      intros i Hi. by rewrite Hmem', Hmem.
    + assert (Ef : pte_of s1 from v = pte_of s from v) by (apply (cp_pte _ _ _ _ _ _ C1); [done|done|naive_solver]).
      assert (Et : pte_of s1 to v = pte_of s to v) by (apply (cp_pte _ _ _ _ _ _ C1); [done|done|lia]).
      pose proof (cp_new _ _ _ _ _ _ C2 v Hv ltac:(lia)) as Hc. unfold copy_of in *. rewrite Ef, Et in Hc.
      destruct (has (pte_of s from v) PTE_V) eqn:Eh; [|done]. destruct Hc as (q&E&Hd&Hm&Hqn&Hmem). exists q.
      split_and!; [done..|]. intros i Hi. rewrite Hmem by done. rewrite (word_of (ppn_of _)).
      apply (cp_data _ _ _ _ _ _ C1); [|done].
      apply (mapped_data s from v _ H Hf Hv). by apply maps_to_true.
  - intros q Hd. destruct (cp_data _ _ _ _ _ _ C1 q Hd) as (Hd1&Hm1&He1).
    destruct (cp_data _ _ _ _ _ _ C2 q Hd1) as (Hd2&Hm2&He2). split_and!; [done|congruence|].
    intros i Hi. by rewrite He2, He1.
Qed.

(** The entry of [v] now maps [np], a fresh page with the contents of [src]. *)
Record remapped s s' r v np src e : Prop := {
  rm_inv : pt_inv s';
  rm_pte r' v' : r' ∈ R -> vpage v' -> pte_of s' r' v' = if decide (r' = r /\ v' = v) then e else pte_of s r' v';
  rm_count p : mapcount s' p = mapcount s p - b2z (maps_to (pte_of s r v) p) + b2z (bool_decide (p = np + nbase));
  rm_free q : data s q -> pg_free (phys s') q <-> 0 < mapcount s (q + nbase) /\ mapcount s' (q + nbase) = 0;
  rm_data q : data s q -> ~ pg_free (phys s') q -> data s' q;
  rm_mem q i : data s q -> idx i -> mem s' ((q + nbase) * 512 + i) = mem s ((q + nbase) * 512 + i);
  rm_new : data s' np /\ ~ data s np /\ mapcount s (np + nbase) = 0;
  rm_copy i : idx i -> mem s' ((np + nbase) * 512 + i) = mem s ((src + nbase) * 512 + i);
}.

Lemma wp_copy_into s r la w np ph src perm (Q : Z -> pt_state St -> Prop) :
  let v := la / PGSIZE in let e := pte_create (page2ppn np) (Z.lor PTE_V perm) in
  pt_inv s -> r ∈ R -> 0 <= la < USERTOP -> leaf s r v w -> data s src -> 0 <= perm < 1024 ->
  pg_inv ph -> (forall q, ref_of ph q = ref_of (phys s) q) -> pg_free (phys s) np ->
  (forall q, pg_free ph q <-> pg_free (phys s) q /\ q <> np) ->
  (forall s', remapped s s' r v np src e -> Q 0 s') ->
  wp (a ← page2kva npage src; b ← page2kva npage np; copy_frame npage b a;; page_insert pm npage r np la perm) Q
    (mk_pt ph (mem s)).
Proof.
  intros v e H Hr Hla Hw Hd Hperm Hph Hrf Hfree Hfr HQ. destruct (path_of_la la Hla) as [Hv _]. fold v in Hv.
  destruct (inv_alloc s np ph H Hph Hrf Hfree Hfr) as (H1&Hg1&Hd1&Hm1). set (s1 := mk_pt ph (mem s)) in *.
  pose proof (page_frame s1 np H1 ltac:(apply Hd1)) as Hnb. pose proof (page_frame s src H ltac:(apply Hd)) as Hsb.
  assert (Hnd : ~ data s np) by (intros (_&Hnf&_); done).
  kstep. unfold page2kva, page2ppn. apply wp_KADDR; rewrite PPN_shift; [lia|].
  kstep. apply wp_KADDR; rewrite PPN_shift; [lia|].
  set (m := fun a => if a / 512 =? np + nbase then mem s ((src + nbase) * 512 + a mod 512) else mem s a).
  destruct (inv_mem s1 m np H1 Hd1) as (H2&Hpte2&Htab2).
  { intros a Ha. unfold m. destruct (Z.eqb_spec (a / 512) (np + nbase)); done. }
  set (s2 := mk_pt (phys s1) m) in *.
  assert (Hdata2 : forall q, data s2 q <-> data s1 q) by (intros q; unfold data; by rewrite Htab2).
  kstep. unfold copy_frame. kstep. kstep; [by rewrite !frame_true|]. kstep. change (mk_pt _ _) with s2.
  apply (wp_page_insert s2 r np la perm); [done|done|done|by apply Hdata2|done| |].
  { intros s3 _ _ Hno. destruct Hw as (p&Hp&_). exfalso. eapply Hno. exists p. split; [|reflexivity].
    assert (Hp1 : node (mem s1) r [v / 2 ^ 18; v / 2 ^ 9 mod 512] = Some p) by exact Hp. rewrite <-Hp1.
    destruct (Htab2 p) as [_ Ht]. apply (inv_mem_node s1 m np Hd1); [|done|by apply vpath_prefix|cbn; lia].
    intros a Ha. unfold m. destruct (Z.eqb_spec (a / 512) (np + nbase)); done. }
  fold v e. intros s3 s4 Hg3 H3 H4 Hs4 Hfu. apply HQ.
  assert (Hold : forall r0 v0, r0 ∈ R -> vpage v0 -> pte_of s3 r0 v0 = pte_of s r0 v0).
  { intros r0 v0 Hr0 Hv0. by rewrite (gr_pte _ _ Hg3), Hpte2, (gr_pte _ _ Hg1). }
  assert (Hmc3 : forall p, mapcount s3 p = mapcount s p) by (intros; by apply mapcount_ext).
  assert (He' : forall p, maps_to e p = bool_decide (p = np + nbase)).
  { intros p. unfold maps_to, e, page2ppn. rewrite pte_create_valid, pte_create_ppn;
      [|pose proof (pi_phys _ H); unfold nbase in *; lia|by apply lor_flags]. cbn. apply bool_decide_ext. lia. }
  assert (Hmc : forall p, mapcount s4 p = mapcount s p - b2z (maps_to (pte_of s r v) p) + b2z (bool_decide (p = np + nbase))).
  { intros p. by rewrite (set_slot_count s3 s4 r v e p H3 Hr Hv Hs4), Hmc3, He', Hold. }
  assert (Hup : forall q, data s q -> data s3 q).
  { intros q Hq. apply (data_grows s2); [done|]. apply Hdata2. by apply (data_grows s). }
  assert (Hnp3 : data s3 np) by (apply (data_grows s2); [done|by apply Hdata2]).
  assert (Hkeep : forall q, data s3 q -> ~ pg_free (phys s4) q -> data s4 q).
  { intros q (Hq&_&Hnt) Hnf. split_and!; [by apply (ss_cells _ _ _ _ _ Hs4)|done|by rewrite (set_slot_table _ _ _ _ _ _ Hs4)]. }
  assert (Hm0 : mapcount s (np + nbase) = 0) by (rewrite <-Hm1; symmetry; apply mapcount_ext, Hg1).
  split; [done| |done| | | | |].
  - intros r0 v0 Hr0 Hv0. rewrite (ss_pte _ _ _ _ _ Hs4) by done. case_decide; [done|by apply Hold].
  - intros q Hq. destruct (Hup q Hq) as (_&Hnf&_). rewrite (Hfu q), Hmc3. tauto.
  - intros q Hq. apply Hkeep. by apply Hup.
  - intros q i Hq Hi. pose proof (data_grows _ _ _ Hg1 Hq) as Hq1. assert (Hq2 : data s2 q) by by apply Hdata2.
    destruct (gr_data _ _ Hg3 q i Hq2) as [(_&_&Hnt) E3]. rewrite (ss_mem _ _ _ _ _ Hs4), E3 by done. cbn [mem s2]. unfold m.
    rewrite word_frame by done. destruct (Z.eqb_spec (q + nbase) (np + nbase)) as [E|]; [|done].
    assert (q = np) as -> by lia. done.
  - split; [|done]. apply Hkeep; [done|]. rewrite (Hfu np). destruct Hnp3 as (_&Hnf&_). intros [?|[_ Hz]]; [done|].
    rewrite Hmc, bool_decide_true in Hz by done. rewrite Hm0 in Hz. cbn in Hz.
    assert (Hmt : maps_to (pte_of s r v) (np + nbase) = false).
    { destruct (maps_to _ _) eqn:Em; [|done]. pose proof (mapcount_pos s r v _ Hr Hv Em). lia. }
    rewrite Hmt in Hz. cbn in Hz. lia.
  - intros i Hi. destruct Hnp3 as (_&_&Hnt). rewrite (ss_mem _ _ _ _ _ Hs4) by done.
    destruct (gr_data _ _ Hg3 np i (proj2 (Hdata2 np) Hd1)) as [_ E3]. rewrite (E3 Hi). cbn [mem s2]. unfold m.
    rewrite word_frame, Z.eqb_refl by done. f_equal. unfold idx in Hi. zlia.
Qed.

Lemma wlp_assert_last {A} (m : K (pt_state St) A) (f : A -> bool) (Q : () -> pt_state St -> Prop) s :
  wp m (fun a s' => f a = true -> Q () s') s -> wlp (a ← m; assert (f a)) Q s.
Proof. intros H. apply wlp_bind_wp. eapply wp_mono; [exact H|]. intros a s' Ha. by apply wlp_assert. Qed.

Lemma PTE_USER_flags e : 0 <= Z.land e PTE_USER < 1024.
Proof. change PTE_USER with (Z.ones 5). rewrite Z.land_ones by lia. pose proof (Z.mod_pos_bound e (2 ^ 5)). lia. Qed.

(** One page of [copy_range]. *)
Lemma wlp_copy_page s to from v w w' (Q : () -> pt_state St -> Prop) :
  let e := pte_of s from v in let la := v * PGSIZE in
  pt_inv s -> to ∈ R -> from ∈ R -> to <> from -> vpage v -> has e PTE_V = true -> has (pte_of s to v) PTE_V = false ->
  leaf s from v w -> leaf s to v w' ->
  (forall s', pt_inv s' -> copied s s' to from v (v + 1) -> Q () s') ->
  wlp (copy_page pm npage to la w) Q s.
Proof.
  intros e la H Ht Hf Hne Hv He Hto Hw Hw' HQ. unfold copy_page.
  destruct (leaf_table s from v w Hf Hv Hw) as (p&(r'&path&Hr'&Ho&Hl&Ep)&->&Hi&Em&_). fold e in Em.
  pose proof (node_bound s r' path p H Hr' Ho ltac:(lia) Ep) as Hp.
  assert (Hla : 0 <= la < USERTOP) by (unfold la, PGSIZE, USERTOP, vpage in *; lia).
  assert (Ev : la / PGSIZE = v) by (unfold la, PGSIZE; apply Z.div_mul; lia).
  destruct (mapped_data s from v (ppn_of e) H Hf Hv) as [Hd Hb]; [by apply maps_to_true|].
  apply wlp_bind_wp, wp_rd_word; [done|done|]. rewrite Em.
  apply wlp_bind_wp, wp_pte2page; [done|lia|].
  apply wlp_bind_wp. apply wp_alloc_page; [exact (pi_pmm _ H)|intros; apply wlp_bind; exact I|].
  intros np ph Hph Hrf Hfree Hfr. apply wlp_bind, wlp_unwrap. intros ? [= <-].
  pose proof (wp_copy_into s to la w' np ph (ppn_of e - nbase) (Z.land e PTE_USER)
    (fun ret s' => bool_decide (ret = 0) = true -> Q () s')) as Hc. cbv zeta in Hc. rewrite Ev in Hc.
  specialize (Hc H Ht Hla Hw' Hd (PTE_USER_flags e) Hph Hrf Hfree Hfr).
  assert (Hok : forall s', remapped s s' to v np (ppn_of e - nbase) (pte_create (page2ppn np) (Z.lor PTE_V (Z.land e PTE_USER))) ->
    bool_decide (0 = 0) = true -> Q () s'); [|specialize (Hc Hok)].
  - intros s' Hrm _. apply HQ; [apply Hrm|]. pose proof (rm_new _ _ _ _ _ _ _ Hrm) as (Hnew&Hnd&Hm0).
    assert (Hmt : forall q, maps_to (pte_of s to v) q = false) by (intros q; unfold maps_to; by rewrite Hto).
    assert (Hne' : forall q, data s q -> q + nbase <> np + nbase) by (intros q Hq E; apply Hnd; by replace np with q by lia).
    split.
    + intros r0 v0 Hr0 Hv0 Hn. rewrite (rm_pte _ _ _ _ _ _ _ Hrm) by done. rewrite decide_False; [done|].
      intros [-> ->]. apply Hn. split; [done|lia].
    + intros v0 Hv0 Hr0. assert (v0 = v) as -> by lia. unfold copy_of. fold e. rewrite He. exists np.
      split_and!; [rewrite (rm_pte _ _ _ _ _ _ _ Hrm), decide_True by (assumption || split; reflexivity); reflexivity|exact Hnew| | |].
      * rewrite (rm_count _ _ _ _ _ _ _ Hrm), Hmt, Hm0, bool_decide_true by reflexivity. reflexivity.
      * intros E. apply (Hne' _ Hd). lia.
      * intros i Hi'. rewrite (rm_copy _ _ _ _ _ _ _ Hrm) by assumption. do 2 f_equal. lia.
    + intros q Hq. assert (Hcq : mapcount s' (q + nbase) = mapcount s (q + nbase)).
      { rewrite (rm_count _ _ _ _ _ _ _ Hrm), Hmt, bool_decide_false by by apply Hne'. cbn. lia. }
      split_and!; [|done|intros i; by apply (rm_mem _ _ _ _ _ _ _ Hrm)].
      apply (rm_data _ _ _ _ _ _ _ Hrm); [done|]. rewrite (rm_free _ _ _ _ _ _ _ Hrm) by done. lia.
  - apply wp_bind_inv in Hc. apply wlp_bind_wp. eapply wp_mono; [exact Hc|]. intros a sa Ha.
    apply wp_bind_inv in Ha. apply wlp_bind_wp. eapply wp_mono; [exact Ha|]. intros b sb Hb'.
    apply wp_bind_inv in Hb'. apply wlp_bind_wp. eapply wp_mono; [exact Hb'|]. intros [] sc Hc'.
    by apply wlp_assert_last.
Qed.

Lemma leaf_grows s s' r v w : r ∈ R -> vpage v -> grows s s' -> leaf s r v w -> leaf s' r v w.
Proof.
  intros Hr Hv Hg (p&Hp&->). exists p. split; [|done].
  apply (gr_node _ _ Hg); [done|by apply vpath_prefix|cbn; lia|done].
Qed.

Lemma undisturbed_refl s : undisturbed s s.
Proof. by intros q Hq. Qed.

Lemma wlp_copy_loop fuel s to from v hi (Q : Z -> pt_state St -> Prop) :
  pt_inv s -> to ∈ R -> from ∈ R -> to <> from -> vpage v -> v < hi <= 2 ^ 19 -> hi - v < Z.of_nat fuel ->
  (forall v', vpage v' -> v <= v' < hi -> has (pte_of s to v') PTE_V = false) ->
  (forall ret s' mid, pt_inv s' -> v <= mid <= hi -> copied s s' to from v mid ->
     (ret = 0 /\ mid = hi) \/ ret = - E_NO_MEM -> Q ret s') ->
  wlp (copy_loop pm npage fuel to from (v * PGSIZE) (hi * PGSIZE)) Q s.
Proof.
  revert s v Q. induction fuel as [|fuel IH]; intros s v Q H Ht Hf Hne Hv Hhi Hfuel He HQ; [lia|]. cbn [copy_loop]. cbv zeta.
  assert (Hla : 0 <= v * PGSIZE < USERTOP) by (unfold PGSIZE, USERTOP, vpage in *; lia).
  assert (Ev : v * PGSIZE / PGSIZE = v) by (unfold PGSIZE; apply Z.div_mul; lia).
  assert (Hcont : forall s1 n, pt_inv s1 -> v < n <= v + 512 -> copied s s1 to from v (Z.min n hi) ->
    wlp (if more (n * PGSIZE) (hi * PGSIZE) then copy_loop pm npage fuel to from (n * PGSIZE) (hi * PGSIZE) else mret 0) Q s1).
  { intros s1 n H1 Hn Hc. unfold vpage in *. destruct (more _ _) eqn:Em.
    - apply more_true in Em as [_ Em]. assert (n < hi) by (unfold PGSIZE in *; lia). rewrite Z.min_l in Hc by lia.
      apply IH; [done|done|done|done|unfold vpage; lia|lia|lia| |].
      + intros v' Hv' Hr. rewrite (cp_pte _ _ _ _ _ _ Hc) by (done || lia). apply He; [done|lia].
      + intros ret s' mid H' Hmid Hc' Hret. apply (HQ ret s' mid); [done|lia| |done]. apply (copied_trans s s1 s' to from v n mid); try done; lia.
    - assert (hi <= n). { apply not_true_iff_false in Em. rewrite more_true in Em. unfold PGSIZE in *. lia. }
      rewrite Z.min_r in Hc by lia. apply wlp_ret. apply (HQ 0 s1 hi); [done|lia|done|by left]. }
  apply wlp_bind_wp, (wp_get_pte s from (v * PGSIZE) false); [done|done|done| |].
  - intros s0 w _ _ Hs0 Hw. rewrite (Hs0 eq_refl) in *. clear Hs0. rewrite Ev in Hw.
    destruct (leaf_table s from v w Hf Hv Hw) as (p&(r'&path&Hr'&Ho&Hl&Ep)&Ew&Hi&Em&_).
    pose proof (node_bound s r' path p H Hr' Ho ltac:(lia) Ep) as Hp.
    assert (En : u64 (v * PGSIZE + PGSIZE) = (v + 1) * PGSIZE) by (rewrite uwrap_small; unfold PGSIZE, vpage in *; lia).
    rewrite En. apply wlp_bind_wp. rewrite Ew. apply wp_rd_word; [done|done|]. rewrite <-Ew, Em.
    destruct (has (pte_of s from v) PTE_V) eqn:Eh.
    + apply wlp_bind_wp, (wp_get_pte s to (v * PGSIZE) true); [done|done|done| |].
      2:{ intros s1 H1 Hg1 _ _. apply wlp_ret. apply (HQ _ s1 v); [done|lia| |by right]. apply copied_none; [done|done|lia]. }
      intros s1 w1 H1 Hg1 _ Hw1. rewrite Ev in Hw1. assert (Ep1 : forall r0, r0 ∈ R -> pte_of s1 r0 v = pte_of s r0 v) by (intros; by apply Hg1).
      apply wlp_bind, (wlp_copy_page s1 to from v w w1); rewrite ?Ep1 by done; try done.
      * apply He; [done|lia].
      * by eapply leaf_grows.
      * intros s2 H2 Hc2. apply Hcont; [done|lia|]. replace (Z.min (v + 1) hi) with (v + 1) by lia.
        apply (copied_trans s s1 s2 to from v v (v + 1)); try done; [lia|]. apply copied_none; [done|done|lia].
    + apply Hcont; [done|lia|]. apply copied_none; [done|apply grows_refl|]. intros v' _ Hr. by replace v' with v by lia.
  - intros s0 _ _ Hs0 Hn. rewrite (Hs0 eq_refl) in *. clear Hs0. set (n := (v / 512 + 1) * 512).
    assert (En : ROUNDDOWN (u64 (v * PGSIZE + PTSIZE)) PTSIZE = n * PGSIZE) by by apply next_table.
    rewrite En. apply Hcont; [done|unfold n; zlia|]. apply copied_none; [done|apply grows_refl|].
    intros v' _ Hv'. rewrite (no_table s from (v * PGSIZE) v'); [apply has_0|done|done|]. rewrite Ev. unfold n in Hv'. zlia.
Qed.

(** ** Properties *)

(** A page that was in use: it is free now exactly if its last mapping has gone,
    and its contents are what they were. *)
Definition outlives s s' q : Prop :=
  (pg_free (phys s') q <-> 0 < mapcount s (q + nbase) /\ mapcount s' (q + nbase) = 0) /\
  forall i, idx i -> mem s' ((q + nbase) * 512 + i) = mem s ((q + nbase) * 512 + i).

Lemma grows_slot_outlives s s1 s' r v e q :
  grows s s1 -> set_slot s1 s' r v e -> freed_unmapped s1 s' -> data s q -> outlives s s' q.
Proof.
  intros Hg Hs Hf Hd. destruct (data_grows _ _ _ Hg Hd) as (_&Hnf&Hnt). split.
  - rewrite (Hf q), (mapcount_ext s s1) by apply Hg. tauto.
  - intros i Hi. rewrite (ss_mem _ _ _ _ _ Hs) by done. by apply (gr_data _ _ Hg q i).
Qed.

(** Property C18. [page_insert] maps the page at the page of [la] and nowhere
    else, with the permissions asked for; every other translation of every
    address space is as before.  It keeps the invariant: a page's reference count
    is the number of entries that map it, also when an old mapping is replaced
    or the same page mapped again, and a page is given back exactly when its last
    mapping goes.  When no memory is left for a table it changes no translation
    and reports so. *)
Theorem page_insert_spec s r page la perm :
  pt_inv s -> r ∈ R -> 0 <= la < USERTOP -> data s page -> 0 <= perm < 1024 ->
  wp (page_insert pm npage r page la perm) (fun ret s' =>
    pt_inv s' /\ (forall q, data s q -> outlives s s' q) /\
    ((ret = 0 /\ forall r' v, r' ∈ R -> vpage v -> pte_of s' r' v =
        if decide (r' = r /\ v = la / PGSIZE) then pte_create (page2ppn page) (Z.lor PTE_V perm) else pte_of s r' v) \/
     (ret = - E_NO_MEM /\ forall r' v, r' ∈ R -> vpage v -> pte_of s' r' v = pte_of s r' v))) s.
Proof.
  intros H Hr Hla Hd Hp. apply wp_page_insert; [assumption..| |].
  - intros s' H' Hg _. split_and!; [done| |right; split; [done|apply Hg]]. intros q Hq. split.
    + destruct (data_grows _ _ _ Hg Hq) as (_&Hnf&_). rewrite (mapcount_ext s s') by apply Hg. split; [done|lia].
    + intros i. by apply (gr_data _ _ Hg q i).
  - intros s1 s' Hg _ H' Hs Hf. split_and!; [done|intros q; by eapply grows_slot_outlives|left; split; [done|]].
    intros r' v Hr' Hv. rewrite (ss_pte _ _ _ _ _ Hs) by done. case_decide; [done|by apply Hg].
Qed.

Lemma user_pages_eq : Z.of_nat user_pages = 2 ^ 19 + 1.
Proof. unfold user_pages. rewrite Z2Nat.id by done. reflexivity. Qed.

Lemma user_range start end_ :
  start mod PGSIZE = 0 -> end_ mod PGSIZE = 0 -> USER_ACCESS start end_ = true ->
  vpage (start / PGSIZE) /\ start / PGSIZE < end_ / PGSIZE <= 2 ^ 19 /\
  start = start / PGSIZE * PGSIZE /\ end_ = end_ / PGSIZE * PGSIZE.
Proof.
  unfold USER_ACCESS, USERBASE, USERTOP, PGSIZE, vpage. rewrite !andb_true_iff, !Z.leb_le, Z.ltb_lt. intros. zlia.
Qed.

(** [unmap_range] ends and removes exactly the valid entries of the
    range from the address space it is given; no other translation changes, and
    the pages given back are those whose last mapping was in the range. *)
Theorem unmap_range_spec s r start end_ :
  pt_inv s -> r ∈ R -> start mod PGSIZE = 0 -> end_ mod PGSIZE = 0 -> USER_ACCESS start end_ = true ->
  wp (unmap_range pm npage r start end_) (fun _ s' =>
    pt_inv s' /\ (forall q, data s q -> outlives s s' q) /\
    forall r' v, r' ∈ R -> vpage v -> pte_of s' r' v =
      if decide (r' = r /\ start <= v * PGSIZE < end_ /\ has (pte_of s r v) PTE_V = true) then 0 else pte_of s r' v) s.
Proof.
  intros H Hr Hs He Hu. destruct (user_range start end_ Hs He Hu) as (Hv&Hb&Es&Ee).
  unfold unmap_range, aligned. kstep. kstep; [by rewrite !bool_decide_true|]. kstep. kstep; [done|]. rewrite Es, Ee at 1.
  apply wp_unmap_loop; [done|done|done|lia| |].
  { rewrite user_pages_eq. unfold vpage in *. lia. }
  intros s' H' Hun. split_and!; [done| |].
  - intros q (_&Hnf&Hnt). split; [|intros; by apply Hun]. rewrite (un_freed _ _ _ _ _ Hun q). tauto.
  - intros r' v Hr' Hv'. rewrite (un_pte _ _ _ _ _ Hun) by done. apply decide_ext.
    assert (start / PGSIZE <= v < end_ / PGSIZE <-> start <= v * PGSIZE < end_) by (unfold PGSIZE in *; lia). tauto.
Qed.

(** Property C12. [copy_range] into an address space that maps nothing in the
    range yet gives the child a private copy of every page the parent maps there:
    same contents, the parent's user permissions, a page mapped once.  Neither
    the parent's translations nor any other page in use change.  When memory for
    a table runs out a part of the range has been copied; when it runs out for a
    page the kernel panics. *)
Theorem copy_range_spec s to from start end_ :
  pt_inv s -> to ∈ R -> from ∈ R -> to <> from ->
  start mod PGSIZE = 0 -> end_ mod PGSIZE = 0 -> USER_ACCESS start end_ = true ->
  (forall v, vpage v -> start <= v * PGSIZE < end_ -> has (pte_of s to v) PTE_V = false) ->
  wlp (copy_range pm npage to from start end_ false) (fun ret s' =>
    pt_inv s' /\ exists mid, start / PGSIZE <= mid <= end_ / PGSIZE /\
      copied s s' to from (start / PGSIZE) mid /\ ((ret = 0 /\ mid = end_ / PGSIZE) \/ ret = - E_NO_MEM)) s.
Proof.
  intros H Ht Hf Hne Hs He Hu Hz. destruct (user_range start end_ Hs He Hu) as (Hv&Hb&Es&Ee).
  unfold copy_range, aligned. apply wlp_bind, wlp_assert. intros _. apply wlp_bind, wlp_assert. intros _. rewrite Es, Ee at 1.
  apply wlp_copy_loop; [done..|lia| | |].
  - rewrite user_pages_eq. unfold vpage in *. lia.
  - intros v' Hv' Hr. apply Hz; [done|]. unfold PGSIZE in *. lia.
  - intros ret s' mid H' Hmid Hc Hret. split; [done|]. by exists mid.
Qed.
End inv.

(** ** Witnesses: the buddy allocator, two empty page directories in the first
    two pages, and a third page in use. *)

Definition ex_roots : list Z := [nbase; nbase + 1].
Definition ex_npage : Z := nbase + 16384.
Definition ex_pt : pt_state bstate := mk_pt ex_state (fun _ => 0).

Opaque ex_state.

Lemma ex_ref q : is_Some (ref_of ex_state q) -> 0 <= q < 16384 /\ ref_of ex_state q = Some 0.
Proof.
  unfold ref_of. change (ps_pages ex_state) with (pages ex_state). intros [n Hn]. apply fmap_Some in Hn as (x&Hx&->).
  rewrite Hx. apply ex_pages_lookup in Hx as [Hq ->]. split; [exact Hq|]. cbn [fmap option_fmap option_map]. by case_decide.
Qed.

Lemma ex_is_ref q : 0 <= q < 16384 -> is_Some (ref_of ex_state q).
Proof.
  intros Hq. unfold ref_of. change (ps_pages ex_state) with (pages ex_state). apply fmap_is_Some.
  eexists. apply ex_pages_lookup. split; [exact Hq|reflexivity].
Qed.

Lemma ex_not_free q : q < 8192 -> ~ pg_free ex_state q.
Proof.
  intros Hq Hf. apply (page_free_in _ _ _ ex_inv) in Hf as (i&p&_&[-> ->]%ex_in_lists&?). lia.
Qed.

Lemma ex_node r path p : node (fun _ => 0) r path = Some p -> path = [] /\ p = r.
Proof. destruct path as [|i path]; cbn; [by intros [= <-]|]. by rewrite has_0. Qed.

Lemma ex_pte r v : pte_of ex_pt r v = 0.
Proof. unfold pte_of. by destruct (node _ _ _). Qed.

Lemma ex_in_roots r : r ∈ ex_roots -> r = nbase \/ r = nbase + 1.
Proof. unfold ex_roots. rewrite !elem_of_cons. intros [?|[?|H%not_elem_of_nil]]; [by left|by right|done]. Qed.

Lemma ex_pt_inv : pt_inv buddy_pmm_manager ex_npage ex_roots ex_pt.
Proof.
  split; cbn [ex_pt phys mem].
  - exists ex_lists. exact ex_inv.
  - intros q [Hq _]%ex_ref. unfold ex_npage. lia.
  - unfold ex_npage, nbase. lia.
  - split; [|cbn; lia]. apply (bool_decide_unpack _). vm_compute. exact I.
  - intros r path p Hr%ex_in_roots _ _ [-> ->]%ex_node. split; [apply ex_is_ref; lia|apply ex_not_free; lia].
  - intros r path r' path' p _ _ _ _ _ _ [-> ->]%ex_node [-> ->]%ex_node. done.
  - intros q n Hn _. destruct (ex_ref q ltac:(eauto)) as [_ E]. rewrite E in Hn. injection Hn as <-. symmetry.
    apply count_zero. intros x _. unfold maps. by rewrite ex_pte, has_0.
Qed.

Lemma ex_data : data buddy_pmm_manager ex_roots ex_pt 2.
Proof.
  split_and!; [apply ex_is_ref; lia|apply ex_not_free; lia|].
  intros (r&path&Hr%ex_in_roots&_&_&E). apply ex_node in E as [_ E]. unfold nbase in *. lia.
Qed.

Lemma page_insert_spec_witness :
  wp (page_insert buddy_pmm_manager ex_npage nbase 2 0x800000 0x17) (fun ret s' =>
    pt_inv buddy_pmm_manager ex_npage ex_roots s' /\
    (forall q, data buddy_pmm_manager ex_roots ex_pt q -> outlives buddy_pmm_manager ex_roots ex_pt s' q) /\
    ((ret = 0 /\ forall r' v, r' ∈ ex_roots -> vpage v -> pte_of s' r' v =
        if decide (r' = nbase /\ v = 0x800000 / PGSIZE) then pte_create (page2ppn 2) (Z.lor PTE_V 0x17) else pte_of ex_pt r' v) \/
     (ret = - E_NO_MEM /\ forall r' v, r' ∈ ex_roots -> vpage v -> pte_of s' r' v = pte_of ex_pt r' v))) ex_pt.
Proof.
  refine (page_insert_spec buddy_pmm_manager ex_npage ex_roots ex_pt nbase 2 0x800000 0x17 ex_pt_inv _ _ ex_data _).
  - apply elem_of_cons. by left.
  - unfold USERTOP. lia.
  - lia.
Defined.

Lemma unmap_range_spec_witness :
  wp (unmap_range buddy_pmm_manager ex_npage nbase 0x800000 0x900000) (fun _ s' =>
    pt_inv buddy_pmm_manager ex_npage ex_roots s' /\
    (forall q, data buddy_pmm_manager ex_roots ex_pt q -> outlives buddy_pmm_manager ex_roots ex_pt s' q) /\
    forall r' v, r' ∈ ex_roots -> vpage v -> pte_of s' r' v =
      if decide (r' = nbase /\ 0x800000 <= v * PGSIZE < 0x900000 /\ has (pte_of ex_pt nbase v) PTE_V = true) then 0
      else pte_of ex_pt r' v) ex_pt.
Proof.
  refine (unmap_range_spec buddy_pmm_manager ex_npage ex_roots ex_pt nbase 0x800000 0x900000 ex_pt_inv _ _ _ _).
  - apply elem_of_cons. by left.
  - reflexivity.
  - reflexivity.
  - reflexivity.
Defined.

Lemma copy_range_spec_witness :
  wlp (copy_range buddy_pmm_manager ex_npage (nbase + 1) nbase 0x800000 0x900000 false) (fun ret s' =>
    pt_inv buddy_pmm_manager ex_npage ex_roots s' /\ exists mid, 0x800 <= mid <= 0x900 /\
      copied buddy_pmm_manager ex_roots ex_pt s' (nbase + 1) nbase 0x800 mid /\
      ((ret = 0 /\ mid = 0x900) \/ ret = - E_NO_MEM)) ex_pt.
Proof.
  refine (copy_range_spec buddy_pmm_manager ex_npage ex_roots ex_pt (nbase + 1) nbase 0x800000 0x900000 ex_pt_inv _ _ _ _ _ _ _).
  - apply elem_of_cons. right. apply elem_of_cons. by left.
  - apply elem_of_cons. by left.
  - done.
  - reflexivity.
  - reflexivity.
  - reflexivity.
  - intros v _ _. rewrite ex_pte. apply has_0.
Defined.
