(* ===== verification/Vma.v ===== *)
(** kern/mm/vmm.h and vmm.c, the areas of an address space: the ordered list of
    [vma_struct]s with its cache, lookup, insertion, mapping, and the check of a
    user pointer.  A computation works on one [struct mm_struct *], which may be
    NULL.  An area never changes once it is in the list, so the list and the
    cache hold areas, not pointers to them.  [mm_inv] says that the areas are
    ordered and disjoint and that the cache is one of them; [covers] is the
    reference the lookup and the pointer check are compared with. *)
From S2P Require Import Prelude PmmManager PageTable.

(** ** Data *)

Record vma := mk_vma { vm_start : Z; vm_end : Z; vm_flags : Z }.

#[export] Instance vma_eq_dec : EqDecision vma.
Proof. solve_decision. Defined.

Definition VM_READ := 0x1.
Definition VM_WRITE := 0x2.
Definition VM_EXEC := 0x4.
Definition VM_STACK := 0x8.

Record mm := mk_mm {
  mmap_list : list vma; mmap_cache : option vma; pgdir : Z;
  map_count : Z; mm_count : Z; mm_sem : Z; locked_by : Z
}.

Definition set_list (l : list vma) (c : Z) (m : mm) : mm :=
  mk_mm l (mmap_cache m) (pgdir m) c (mm_count m) (mm_sem m) (locked_by m).
Definition set_cache (v : option vma) (m : mm) : mm :=
  mk_mm (mmap_list m) v (pgdir m) (map_count m) (mm_count m) (mm_sem m) (locked_by m).
Definition set_sem (v l : Z) (m : mm) : mm :=
  mk_mm (mmap_list m) (mmap_cache m) (pgdir m) (map_count m) (mm_count m) v l.
Definition set_count (n : Z) (m : mm) : mm :=
  mk_mm (mmap_list m) (mmap_cache m) (pgdir m) (map_count m) n (mm_sem m) (locked_by m).

(** [mm->...]: a NULL pointer faults. *)
Definition deref : K (option mm) mm := fun s => unwrap s s.

(** ** Operations *)

(** [kmalloc]: whether the call of kmalloc succeeds. *)
Definition mm_create (kmalloc : bool) : option mm :=
  if kmalloc then Some (mk_mm [] None 0 0 0 1 0) else None.

Definition vma_create (kmalloc : bool) (start end_ flags : Z) : option vma :=
  if kmalloc then Some (mk_vma start end_ flags) else None.

Definition in_vma (addr : Z) (v : vma) : bool := (vm_start v <=? addr) && (addr <? vm_end v).

(** The walk of [find_vma] along the list. *)
Fixpoint search (l : list vma) (addr : Z) : option vma :=
  match l with
  | [] => None
  | v :: l => if in_vma addr v then Some v else search l addr
  end.

Definition find_vma (addr : Z) : K (option mm) (option vma) :=
  s ← get;
  match s with
  | None => mret None
  | Some m =>
      let v := match mmap_cache m with
               | Some v => if in_vma addr v then Some v else search (mmap_list m) addr
               | None => search (mmap_list m) addr
               end in
      match v with
      | None => mret None
      | Some _ => put (Some (set_cache v m));; mret v
      end
  end.

Definition check_vma_overlap {S} (prev next : vma) : K S () :=
  assert (vm_start prev <? vm_end prev);;
  assert (vm_end prev <=? vm_start next);;
  assert (vm_start next <? vm_end next).

(** The walk of [insert_vma_struct]: the areas up to [le_prev] and the rest. *)
Fixpoint split_at (l : list vma) (start : Z) : list vma * list vma :=
  match l with
  | [] => ([], [])
  | v :: l' =>
      if vm_start v >? start then ([], l) else let '(a, b) := split_at l' start in (v :: a, b)
  end.

Definition insert_vma_struct (v : vma) : K (option mm) () :=
  assert (vm_start v <? vm_end v);;
  m ← deref;
  let '(before, after) := split_at (mmap_list m) (vm_start v) in
  match last before with Some p => check_vma_overlap p v | None => mret () end;;
  match after with n :: _ => check_vma_overlap v n | [] => mret () end;;
  put (Some (set_list (before ++ v :: after) (s32 (map_count m + 1)) m)).

(** The areas and the structure itself are given back. *)
Definition mm_destroy : K (option mm) () :=
  m ← deref;
  assert (bool_decide (mm_count m = 0));;
  put None.

(** The result and, on success, what is stored through [vma_store]. *)
Definition mm_map (kmalloc : bool) (addr len flags : Z) : K (option mm) (Z * option vma) :=
  let start := ROUNDDOWN addr PGSIZE in
  let end_ := ROUNDUP (u64 (addr + len)) PGSIZE in
  if negb (USER_ACCESS start end_) then mret (- E_INVAL, None)
  else
    s ← get;
    assert (bool_decide (is_Some s));;
    o ← find_vma start;
    if match o with Some v => end_ >? vm_start v | None => false end then mret (- E_INVAL, None)
    else
      match vma_create kmalloc start end_ flags with
      | None => mret (- E_NO_MEM, None)
      | Some v => insert_vma_struct v;; mret (0, Some v)
      end.

(** The loop of [user_mem_check]; every turn leaves one area behind. *)
Fixpoint check_areas (fuel : nat) (start end_ : Z) (write : bool) : K (option mm) bool :=
  if start <? end_ then
    match fuel with
    | O => timeout
    | S fuel =>
        o ← find_vma start;
        match o with
        | None => mret false
        | Some v =>
            if start <? vm_start v then mret false
            else if negb (has (vm_flags v) (if write then VM_WRITE else VM_READ)) then mret false
            else if write && has (vm_flags v) VM_STACK && (start <? u64 (vm_start v + PGSIZE)) then mret false
            else check_areas fuel (vm_end v) end_ write
        end
    end
  else mret true.

Definition areas (s : option mm) : nat := match s with Some m => length (mmap_list m) | None => 0 end.

Definition user_mem_check (addr len : Z) (write : bool) : K (option mm) bool :=
  s ← get;
  match s with
  | Some m =>
      if negb (USER_ACCESS addr (u64 (addr + len))) then mret false
      else check_areas (S (areas s)) addr (u64 (addr + len)) write
  | None => mret (KERN_ACCESS addr (u64 (addr + len)))
  end.

(** vmm.h.  A [down] on a semaphore that is not free does not return. *)
Definition mm_count_inc : K (option mm) Z :=
  m ← deref; put (Some (set_count (s32 (mm_count m + 1)) m));; mret (s32 (mm_count m + 1)).
Definition mm_count_dec : K (option mm) Z :=
  m ← deref; put (Some (set_count (s32 (mm_count m - 1)) m));; mret (s32 (mm_count m - 1)).
Definition set_mm_count (val : Z) : K (option mm) () := m ← deref; put (Some (set_count val m)).

Definition down_mm : K (option mm) () :=
  m ← deref; if 0 <? mm_sem m then put (Some (set_sem (mm_sem m - 1) (locked_by m) m)) else timeout.
Definition up_mm : K (option mm) () := m ← deref; put (Some (set_sem (mm_sem m + 1) (locked_by m) m)).

(** [current]: the pid of the current process, if there is one. *)
Definition lock_mm (current : option Z) : K (option mm) () :=
  s ← get;
  match s with
  | None => mret ()
  | Some _ =>
      down_mm;;
      match current with Some pid => m ← deref; put (Some (set_sem (mm_sem m) pid m)) | None => mret () end
  end.
Definition unlock_mm : K (option mm) () :=
  s ← get;
  match s with
  | None => mret ()
  | Some _ => up_mm;; m ← deref; put (Some (set_sem (mm_sem m) 0 m))
  end.

(** ** The self-test run at boot *)

Fixpoint insert_down (n : nat) (i : Z) : K (option mm) () :=
  match n with
  | O => mret ()
  | S n =>
      v ← unwrap (vma_create true (i * 5) (i * 5 + 2) 0);
      insert_vma_struct v;; insert_down n (i - 1)
  end.
Fixpoint insert_up (n : nat) (i : Z) : K (option mm) () :=
  match n with
  | O => mret ()
  | S n =>
      v ← unwrap (vma_create true (i * 5) (i * 5 + 2) 0);
      insert_vma_struct v;; insert_up n (i + 1)
  end.
Fixpoint check_order (l : list vma) (n : nat) (i : Z) : K (option mm) () :=
  match n with
  | O => mret ()
  | S n =>
      v ← unwrap (head l);
      assert (bool_decide (vm_start v = i * 5 /\ vm_end v = i * 5 + 2));;
      check_order (tail l) n (i + 1)
  end.
Fixpoint check_find (n : nat) (i : Z) : K (option mm) () :=
  match n with
  | O => mret ()
  | S n =>
      o1 ← find_vma i; vma1 ← unwrap o1;
      o2 ← find_vma (i + 1); vma2 ← unwrap o2;
      o3 ← find_vma (i + 2); assert (bool_decide (o3 = None));;
      o4 ← find_vma (i + 3); assert (bool_decide (o4 = None));;
      o5 ← find_vma (i + 4); assert (bool_decide (o5 = None));;
      assert (bool_decide (vm_start vma1 = i /\ vm_end vma1 = i + 2));;
      assert (bool_decide (vm_start vma2 = i /\ vm_end vma2 = i + 2));;
      check_find n (i + 5)
  end.
Fixpoint check_below (n : nat) (i : Z) : K (option mm) () :=
  match n with
  | O => mret ()
  | S n => o ← find_vma i; assert (bool_decide (o = None));; check_below n (i - 1)
  end.

Definition check_vma_struct : K (option mm) () :=
  put (mm_create true);;
  let step1 := 10 in let step2 := step1 * 10 in
  insert_down (Z.to_nat step1) step1;;
  insert_up (Z.to_nat (step2 - step1)) (step1 + 1);;
  m ← deref;
  check_order (mmap_list m) (Z.to_nat step2) 1;;
  check_find (Z.to_nat step2) 5;;
  check_below 5 4;;
  mm_destroy.

Example check_vma_struct_passes : check_vma_struct None = Done ((), None).
Proof. vm_compute. reflexivity. Qed.

(** ** The order of the areas *)

Fixpoint ordered (lo : Z) (l : list vma) : Prop :=
  match l with [] => True | v :: l => lo <= vm_start v < vm_end v /\ vm_end v <= USERTOP /\ ordered (vm_end v) l end.

Record mm_inv (m : mm) : Prop := {
  mi_ordered : ordered 0 (mmap_list m);
  mi_cache v : mmap_cache m = Some v -> v ∈ mmap_list m;
  mi_count : map_count m = s32 (Z.of_nat (length (mmap_list m)));
}.

(** The area [v] of the list contains the address [a]. *)
Definition covers (l : list vma) (a : Z) (v : vma) : Prop := v ∈ l /\ vm_start v <= a < vm_end v.

Lemma ordered_in lo l v : ordered lo l -> v ∈ l -> lo <= vm_start v < vm_end v /\ vm_end v <= USERTOP.
Proof.
  revert lo. induction l as [|u l IH]; intros lo H Hv; [by apply not_elem_of_nil in Hv|]. cbn in H.
  destruct H as (?&?&H). apply elem_of_cons in Hv as [->|Hv]; [lia|]. specialize (IH _ H Hv). lia.
Qed.

Lemma ordered_mono lo lo' l : lo' <= lo -> ordered lo l -> ordered lo' l.
Proof. destruct l; cbn; [done|]. intros ? (?&?&?). split_and!; [lia|lia|done|done]. Qed.

Lemma ordered_app lo l1 l2 :
  ordered lo (l1 ++ l2) <-> ordered lo l1 /\ ordered (match last l1 with Some p => vm_end p | None => lo end) l2.
Proof.
  revert lo. induction l1 as [|v l1 IH]; intros lo; [cbn; tauto|].
  change ((v :: l1) ++ l2) with (v :: (l1 ++ l2)). cbn [ordered]. rewrite IH, last_cons.
  destruct (last l1); tauto.
Qed.

Lemma ordered_before lo l1 p l2 u : ordered lo (l1 ++ p :: l2) -> u ∈ l1 -> vm_end u <= vm_start p.
Proof.
  revert lo. induction l1 as [|w l1 IH]; intros lo H Hu; [by apply not_elem_of_nil in Hu|]. cbn in H.
  destruct H as (?&?&H). apply elem_of_cons in Hu as [->|Hu]; [|by eapply IH].
  apply (ordered_in _ _ p H). apply elem_of_app. right. apply elem_of_cons. by left.
Qed.

(** Two areas that meet are one. *)
Lemma ordered_apart lo l u v : ordered lo l -> u ∈ l -> v ∈ l -> u = v \/ vm_end u <= vm_start v \/ vm_end v <= vm_start u.
Proof.
  revert lo. induction l as [|w l IH]; intros lo H Hu Hv; [by apply not_elem_of_nil in Hu|]. cbn in H.
  destruct H as (?&?&H). apply elem_of_cons in Hu as [->|Hu], Hv as [->|Hv].
  - by left.
  - pose proof (ordered_in _ _ _ H Hv). right. left. lia.
  - pose proof (ordered_in _ _ _ H Hu). right. right. lia.
  - by eapply IH.
Qed.

Lemma covers_fun lo l a u v : ordered lo l -> covers l a u -> covers l a v -> u = v.
Proof. intros H [Hu ?] [Hv ?]. destruct (ordered_apart _ _ _ _ H Hu Hv) as [?|[?|?]]; [done|lia|lia]. Qed.

Lemma in_vma_true a v : in_vma a v = true <-> vm_start v <= a < vm_end v.
Proof. unfold in_vma. rewrite andb_true_iff, Z.leb_le, Z.ltb_lt. done. Qed.

Lemma search_Some l a v : search l a = Some v -> covers l a v.
Proof.
  induction l as [|u l IH]; cbn; [done|]. destruct (in_vma a u) eqn:E.
  - intros [= <-]. apply in_vma_true in E. split; [apply elem_of_cons; by left|done].
  - intros H. destruct (IH H). split; [apply elem_of_cons; by right|done].
Qed.

Lemma search_None l a v : search l a = None -> ~ covers l a v.
Proof.
  induction l as [|u l IH]; cbn; [intros _ [H _]; by apply not_elem_of_nil in H|]. destruct (in_vma a u) eqn:E; [done|].
  intros H [[->|Hv]%elem_of_cons Ha]; [|by apply (IH H)]. apply in_vma_true in Ha. congruence.
Qed.

Lemma search_covers lo l a v : ordered lo l -> search l a = Some v <-> covers l a v.
Proof.
  intros H. split; [apply search_Some|]. intros Hc. destruct (search l a) as [u|] eqn:E.
  - f_equal. eapply covers_fun; [exact H|by apply search_Some|done].
  - by apply (search_None _ _ v) in E.
Qed.

(** The cache only saves the walk. *)
Lemma wp_find_vma m a (Q : option vma -> option mm -> Prop) :
  mm_inv m ->
  (forall c, mm_inv (set_cache c m) -> Q (search (mmap_list m) a) (Some (set_cache c m))) -> wp (find_vma a) Q (Some m).
Proof.
  intros H HQ. unfold find_vma. kstep. kstep. cbv zeta.
  assert (Hinv : forall c, (forall v, c = Some v -> v ∈ mmap_list m) -> mm_inv (set_cache c m)).
  { intros c Hc. split; cbn; [apply H|exact Hc|apply H]. }
  set (o := match mmap_cache m with Some v => _ | None => _ end).
  assert (Ho : o = search (mmap_list m) a).
  { unfold o. destruct (mmap_cache m) as [v|] eqn:E; [|done]. destruct (in_vma a v) eqn:Ev; [|done].
    symmetry. eapply search_covers; [apply H|]. apply in_vma_true in Ev. split; [by apply H|done]. }
  rewrite Ho. destruct (search (mmap_list m) a) as [v|] eqn:E.
  - kstep. kstep. apply wp_ret, HQ, Hinv. intros ? [= <-]. by apply search_Some in E as [? _].
  - apply wp_ret. specialize (HQ (mmap_cache m)). destruct m. apply HQ, Hinv. apply H.
Qed.

Lemma split_at_spec l start b c : split_at l start = (b, c) ->
  l = b ++ c /\ Forall (fun v => vm_start v <= start) b /\ match c with [] => True | n :: _ => start < vm_start n end.
Proof.
  revert b c. induction l as [|v l IH]; intros b c; cbn; [intros [= <- <-]; done|].
  destruct (Z.gtb_spec (vm_start v) start); [intros [= <- <-]; split_and!; [done|constructor|lia]|].
  destruct (split_at l start) as [b' c'] eqn:E. intros [= <- <-]. destruct (IH b' c' eq_refl) as (->&?&?).
  split_and!; [done|by constructor|done].
Qed.

(** Two ranges meet. *)
Definition overlap (u v : vma) : Prop := vm_start u < vm_end v /\ vm_start v < vm_end u.

Lemma insert_place l b c v lo :
  ordered lo l -> split_at l (vm_start v) = (b, c) -> vm_start v < vm_end v -> lo <= vm_start v ->
  (Forall (fun u => ~ overlap u v) l <->
   match last b with Some p => vm_end p <= vm_start v | None => True end /\
   match c with n :: _ => vm_end v <= vm_start n | [] => True end).
Proof.
  intros H E Hv Hlo. apply split_at_spec in E as (->&Hb&Hc). rewrite Forall_app.
  apply ordered_app in H as [H1 H2]. split.
  - intros [F1 F2]. split.
    + destruct (last b) as [p|] eqn:El; [|done]. apply last_Some_elem_of in El.
      rewrite Forall_forall in F1, Hb. specialize (F1 p El). specialize (Hb p El).
      pose proof (ordered_in _ _ _ H1 El). unfold overlap in F1. lia.
    + destruct c as [|n c]; [done|]. apply Forall_cons in F2 as [F2 _]. cbn in H2. unfold overlap in F2. lia.
  - intros [Hp Hn]. split; apply Forall_forall; intros u Hu; unfold overlap.
    + destruct (last b) as [p|] eqn:El; [|apply last_None in El; subst; by apply not_elem_of_nil in Hu].
      apply last_Some_elem_of in El as Hpin. assert (vm_end u <= vm_end p); [|lia].
      apply last_Some in El as [b' ->]. apply ordered_app in H1 as [H1 H3]. cbn in H3.
      apply elem_of_app in Hu as [Hu|Hu]; [|by apply list_elem_of_singleton in Hu as ->].
      pose proof (ordered_before lo b' p [] u ltac:(by apply ordered_app) Hu). lia.
    + destruct c as [|n c]; [by apply not_elem_of_nil in Hu|]. cbn in H2. destruct H2 as (?&?&H2).
      apply elem_of_cons in Hu as [->|Hu]; [lia|]. pose proof (ordered_in _ _ _ H2 Hu). lia.
Qed.

(** What a successful insertion does to the structure. *)
Definition inserted (m m' : mm) (v : vma) : Prop :=
  mm_inv m' /\ (forall u, u ∈ mmap_list m' <-> u = v \/ u ∈ mmap_list m) /\
  length (mmap_list m') = S (length (mmap_list m)) /\ mmap_cache m' = mmap_cache m /\ pgdir m' = pgdir m /\
  mm_count m' = mm_count m.

Lemma s32_succ_lt n : s32 (s32 n + 1) = s32 (n + 1).
Proof. unfold swrap. change (2 ^ 32) with 4294967296. change (2 ^ (32 - 1)) with 2147483648. zlia. Qed.

Lemma insert_cases m v :
  mm_inv m -> 0 <= vm_start v < vm_end v -> vm_end v <= USERTOP ->
  (Forall (fun u => ~ overlap u v) (mmap_list m) -> exists m', insert_vma_struct v (Some m) = Done ((), Some m') /\ inserted m m' v) /\
  (~ Forall (fun u => ~ overlap u v) (mmap_list m) -> insert_vma_struct v (Some m) = Panic).
Proof.
  intros H Hv Ht. destruct (split_at (mmap_list m) (vm_start v)) as [b c] eqn:E.
  pose proof (insert_place _ b c v 0 (mi_ordered _ H) E ltac:(lia) ltac:(lia)) as Hp. rewrite Hp.
  pose proof (split_at_spec _ _ _ _ E) as (El&Hb&Hc). pose proof (mi_ordered _ H) as Ho. rewrite El in Ho.
  pose proof Ho as [Ho1 Ho2]%ordered_app.
  unfold insert_vma_struct, check_vma_overlap, deref, mbind, K_bind, assert, unwrap, put, mret, K_ret.
  rewrite (proj2 (Z.ltb_lt (vm_start v) (vm_end v))) by lia. cbv beta iota. rewrite E. cbv beta iota.
  assert (Hlast : match last b with Some p => (vm_start p <? vm_end p) = true | None => True end).
  { destruct (last b) as [p|] eqn:Eb; [|done]. apply last_Some_elem_of in Eb. apply Z.ltb_lt.
    pose proof (ordered_in _ _ _ Ho1 Eb). lia. }
  assert (Hhead : match c with n :: _ => (vm_start n <? vm_end n) = true | [] => True end).
  { destruct c as [|n c]; [done|]. cbn in Ho2. apply Z.ltb_lt. lia. }
  split.
  - intros [H1 H2]. eexists. split.
    + destruct (last b) as [p|] eqn:Eb, c as [|n c]; rewrite ?Hlast, ?Hhead;
        repeat match goal with
               | |- context [?x <=? ?y] => rewrite (proj2 (Z.leb_le x y)) by lia
               | |- context [?x <? ?y] => rewrite (proj2 (Z.ltb_lt x y)) by lia
               end; reflexivity.
    + split_and!; cbn [set_list mmap_list mmap_cache pgdir mm_count]; [| | |done..].
      * split; cbn [set_list mmap_list mmap_cache map_count].
        -- apply ordered_app. split; [done|]. cbn. split_and!; [|lia|done|].
           ++ destruct (last b); [by apply H1|lia].
           ++ destruct c as [|n c]; [done|]. cbn in *. split_and!; [lia|lia|lia|tauto].
        -- intros u Hu. apply (mi_cache _ H) in Hu. rewrite El in Hu. set_solver +Hu.
        -- rewrite (mi_count _ H), s32_succ_lt, El, !length_app. cbn [length]. f_equal. lia.
      * intros u. rewrite El. set_solver+.
      * rewrite El, !length_app. cbn. lia.
  - intros Hn. destruct (last b) as [p|] eqn:Eb, c as [|n c]; rewrite ?Hlast, ?Hhead.
    + destruct (Z.leb_spec (vm_end p) (vm_start v)); [lia|done].
    + destruct (Z.leb_spec (vm_end p) (vm_start v)); [|done].
      destruct (Z.leb_spec (vm_end v) (vm_start n)); [lia|done].
    + lia.
    + destruct (Z.leb_spec (vm_end v) (vm_start n)); [lia|done].
Qed.

(** ** Pointer checks *)

(** What a byte of a user buffer that starts at [addr] must satisfy: an area
    with the permission contains it, and a write to a stack stays clear of the
    area's lowest page. *)
Definition accessible (l : list vma) (addr : Z) (write : bool) (a : Z) : Prop :=
  exists v, covers l a v /\ has (vm_flags v) (if write then VM_WRITE else VM_READ) = true /\
    (write = true -> has (vm_flags v) VM_STACK = true -> vm_start v + PGSIZE <= addr).

(** How many areas end above [start]. *)
Definition ahead (l : list vma) (start : Z) : nat := length (List.filter (fun v => start <? vm_end v) l).

Lemma ahead_le l start start' : start <= start' -> (ahead l start' <= ahead l start)%nat.
Proof.
  intros H. unfold ahead. induction l as [|v l IH]; cbn; [lia|].
  destruct (Z.ltb_spec start (vm_end v)), (Z.ltb_spec start' (vm_end v)); cbn; lia.
Qed.

Lemma ahead_lt l start v : v ∈ l -> start < vm_end v -> (ahead l (vm_end v) < ahead l start)%nat.
Proof.
  intros Hv Hs. unfold ahead. induction l as [|u l IH]; [by apply not_elem_of_nil in Hv|]. cbn.
  apply elem_of_cons in Hv as [->|Hv].
  - rewrite Z.ltb_irrefl, (proj2 (Z.ltb_lt _ _)) by lia. cbn. pose proof (ahead_le l start (vm_end u)). unfold ahead in *. lia.
  - specialize (IH Hv). destruct (Z.ltb_spec start (vm_end u)), (Z.ltb_spec (vm_end v) (vm_end u)); cbn; lia.
Qed.

Lemma ahead_bound l start : (ahead l start <= length l)%nat.
Proof. unfold ahead. induction l as [|v l IH]; cbn; [lia|]. destruct (start <? vm_end v); cbn; lia. Qed.

Lemma wp_check_areas fuel m addr start end_ write (Q : bool -> option mm -> Prop) :
  mm_inv m -> (ahead (mmap_list m) start < fuel)%nat -> 0 <= addr <= start -> end_ <= USERTOP ->
  (start = addr \/ exists u, u ∈ mmap_list m /\ start = vm_end u) ->
  (forall b c, mm_inv (set_cache c m) ->
     b = true <-> (forall a, start <= a < end_ -> accessible (mmap_list m) addr write a) -> Q b (Some (set_cache c m))) ->
  wp (check_areas fuel start end_ write) Q (Some m).
Proof.
  revert m start. induction fuel as [|fuel IH]; intros m start H Hf Ha He Hst HQ; [lia|]. cbn [check_areas].
  destruct (Z.ltb_spec start end_) as [Hlt|Hge].
  2:{ apply wp_ret. specialize (HQ true (mmap_cache m)). destruct m. apply HQ; [exact H|]. split; [intros _ a ?; lia|done]. }
  kstep. apply wp_find_vma; [done|]. intros c Hc. pose proof (mi_ordered _ H) as Ho.
  destruct (search (mmap_list m) start) as [v|] eqn:E.
  2:{ apply wp_ret, HQ; [done|]. split; [done|]. intros Hall. destruct (Hall start ltac:(lia)) as (v&Hv&_).
      by apply (search_None _ _ v) in E. }
  apply (search_covers 0) in E; [|done]. pose proof E as [Hin Hr]. pose proof (ordered_in _ _ _ Ho Hin) as Hvb.
  rewrite (proj2 (Z.ltb_ge start (vm_start v))) by lia.
  assert (Hw : accessible (mmap_list m) addr write start <->
    has (vm_flags v) (if write then VM_WRITE else VM_READ) = true /\
    (write = true -> has (vm_flags v) VM_STACK = true -> vm_start v + PGSIZE <= addr)).
  { split; [|by exists v]. intros (u&Hu&Hp). by rewrite (covers_fun _ _ _ _ _ Ho E Hu). }
  destruct (has (vm_flags v) (if write then VM_WRITE else VM_READ)) eqn:Ef; cbn [negb].
  2:{ apply wp_ret, HQ; [done|]. split; [done|]. intros Hall. apply Hw in Hall as [? _]; [done|lia]. }
  rewrite uwrap_small by (unfold USERTOP, PGSIZE in *; lia).
  assert (Hpos : start = addr \/ start = vm_start v).
  { destruct Hst as [?|(u&Hu&Eu)]; [by left|right]. destruct (ordered_apart _ _ u v Ho Hu Hin) as [->|[?|?]]; [lia|lia|].
    pose proof (ordered_in _ _ _ Ho Hu). lia. }
  destruct (write && has (vm_flags v) VM_STACK && (start <? vm_start v + PGSIZE)) eqn:Es.
  { apply wp_ret, HQ; [done|]. split; [done|]. intros Hall. specialize (Hall start ltac:(lia)). apply Hw in Hall as [_ Hg].
    apply andb_true_iff in Es as [[-> Es]%andb_true_iff Hlt']. apply Z.ltb_lt in Hlt'. specialize (Hg eq_refl Es). lia. }
  assert (Hg : write = true -> has (vm_flags v) VM_STACK = true -> vm_start v + PGSIZE <= addr).
  { intros -> Hs. rewrite Hs in Es. cbn in Es. apply Z.ltb_ge in Es. unfold PGSIZE in *. lia. }
  apply IH; [done| |lia|done|right; by exists v|].
  - cbn [set_cache mmap_list]. pose proof (ahead_lt (mmap_list m) start v Hin ltac:(lia)). lia.
  - intros b c' Hc' Hb. apply HQ; [done|]. rewrite Hb. cbn [set_cache mmap_list]. split; intros Hall a Har.
    + destruct (decide (a < vm_end v)) as [Hav|]; [|apply Hall; lia]. exists v. split_and!; [split; [done|lia]|done|done].
    + apply Hall. lia.
Qed.

(** ** Properties *)

(** [find_vma] returns the area that contains the address, and
    nothing exactly when no area does, whatever the cache holds; it changes only
    the cache, which stays one of the areas. *)
Theorem find_vma_spec m a :
  mm_inv m ->
  wp (find_vma a) (fun o s' => (forall v, o = Some v <-> covers (mmap_list m) a v) /\
    exists c, s' = Some (set_cache c m) /\ mm_inv (set_cache c m)) (Some m).
Proof.
  intros H. apply wp_find_vma; [done|]. intros c Hc. split; [|by exists c].
  intros v. eapply search_covers, H.
Qed.

(** [insert_vma_struct] keeps the areas ordered and disjoint: a
    range of user space that meets no area is added, one that meets some area
    is refused with a panic. *)
Theorem insert_vma_struct_spec m v :
  mm_inv m -> 0 <= vm_start v < vm_end v -> vm_end v <= USERTOP ->
  (Forall (fun u => ~ overlap u v) (mmap_list m) -> exists m', insert_vma_struct v (Some m) = Done ((), Some m') /\ inserted m m' v) /\
  (~ Forall (fun u => ~ overlap u v) (mmap_list m) -> insert_vma_struct v (Some m) = Panic).
Proof. apply insert_cases. Qed.

(** Property C27. [user_mem_check] accepts a buffer exactly if it is a non-empty
    range of user space (with the end computed modulo 2^64) of which every single
    byte is accessible; its walk over the areas always ends. *)
Theorem user_mem_check_spec m addr len write :
  mm_inv m ->
  wp (user_mem_check addr len write) (fun b _ =>
    b = true <-> USER_ACCESS addr (u64 (addr + len)) = true /\
      forall a, addr <= a < u64 (addr + len) -> accessible (mmap_list m) addr write a) (Some m).
Proof.
  intros H. unfold user_mem_check. kstep. kstep.
  destruct (USER_ACCESS addr (u64 (addr + len))) eqn:E; cbn [negb]; [|apply wp_ret; split; [done|by intros [? _]]].
  unfold USER_ACCESS in E. rewrite !andb_true_iff, !Z.leb_le, Z.ltb_lt in E. destruct E as [[Eb _] Et].
  eapply (wp_check_areas _ m addr); [done| |unfold USERBASE in Eb; lia|exact Et|by left|].
  - cbn [areas]. pose proof (ahead_bound (mmap_list m) addr). lia.
  - intros b c _ ->. tauto.
Qed.

Definition requested (addr len flags : Z) : vma :=
  mk_vma (ROUNDDOWN addr PGSIZE) (ROUNDUP (u64 (addr + len)) PGSIZE) flags.

Lemma find_then {B} m a (f : option vma -> K (option mm) B) :
  mm_inv m -> exists c, mm_inv (set_cache c m) /\ (find_vma a ≫= f) (Some m) = f (search (mmap_list m) a) (Some (set_cache c m)).
Proof.
  intros H. assert (Hw : wp (find_vma a) (fun o s => exists c, mm_inv (set_cache c m) /\ o = search (mmap_list m) a /\
    s = Some (set_cache c m)) (Some m)) by (apply wp_find_vma; [done|]; intros c Hc; by exists c).
  apply wp_Done in Hw as (o&s&E&c&Hc&->&->). exists c. split; [done|]. unfold mbind, K_bind. by rewrite E.
Qed.

(** [mm_map] reserves the pages the request touches when none of
    them belongs to an area; it refuses a range outside user space, one whose
    first page is taken, and gives up when memory is short, leaving the areas
    alone.  A request whose first page is free but that runs into a later area
    is not refused: the overlap check of the insertion stops the kernel. *)
Theorem mm_map_spec m kmalloc addr len flags :
  mm_inv m -> 0 <= addr ->
  let v := requested addr len flags in
  let run := mm_map kmalloc addr len flags (Some m) in
  (USER_ACCESS (vm_start v) (vm_end v) = false -> run = Done ((- E_INVAL, None), Some m)) /\
  (USER_ACCESS (vm_start v) (vm_end v) = true ->
     ((exists u, covers (mmap_list m) (vm_start v) u) -> exists c, run = Done ((- E_INVAL, None), Some (set_cache c m))) /\
     (~ (exists u, covers (mmap_list m) (vm_start v) u) ->
        (kmalloc = false -> exists c, run = Done ((- E_NO_MEM, None), Some (set_cache c m))) /\
        (kmalloc = true -> Forall (fun u => ~ overlap u v) (mmap_list m) ->
           exists c m', run = Done ((0, Some v), Some m') /\ inserted (set_cache c m) m' v) /\
        (kmalloc = true -> ~ Forall (fun u => ~ overlap u v) (mmap_list m) -> run = Panic))).
Proof.
  intros H Ha v run. unfold run, mm_map. change (ROUNDDOWN addr PGSIZE) with (vm_start v).
  change (ROUNDUP (u64 (addr + len)) PGSIZE) with (vm_end v). split; intros E; rewrite E; cbn [negb]; [done|].
  assert (Hv : 0 <= vm_start v < vm_end v /\ vm_end v <= USERTOP).
  { unfold USER_ACCESS, USERBASE in E. rewrite !andb_true_iff, !Z.leb_le, Z.ltb_lt in E. lia. }
  destruct (find_then m (vm_start v) (fun o =>
    if match o with Some u => vm_end v >? vm_start u | None => false end then mret (- E_INVAL, None)
    else match vma_create kmalloc (vm_start v) (vm_end v) flags with
         | None => mret (- E_NO_MEM, None)
         | Some v => insert_vma_struct v;; mret (0, Some v)
         end) H) as (c&Hc&Ef).
  unfold mbind, K_bind, get, assert in *. rewrite bool_decide_true by eauto. rewrite Ef. clear Ef.
  split.
  - intros (u&Hu). apply (search_covers 0) in Hu as Es; [|apply H]. rewrite Es. exists c.
    destruct Hu as [Hin ?]. rewrite Z.gtb_ltb, (proj2 (Z.ltb_lt _ _)) by lia. done.
  - intros Hn. assert (search (mmap_list m) (vm_start v) = None) as ->.
    { destruct (search _ _) as [u|] eqn:Es; [|done]. exfalso. apply Hn. exists u. by apply search_Some. }
    destruct (insert_cases (set_cache c m) v Hc ltac:(lia) ltac:(lia)) as [Hok Hbad]. split_and!.
    + intros ->. by exists c.
    + intros -> Hf. destruct (Hok Hf) as (m'&Ei&Hi). exists c, m'. cbn [vma_create]. change (mk_vma _ _ _) with v.
      by rewrite Ei.
    + intros -> Hf. cbn [vma_create]. change (mk_vma _ _ _) with v. by rewrite (Hbad Hf).
Qed.

(** ** Witnesses: a program, its data and its stack. *)

Definition ex_areas : list vma :=
  [mk_vma 0x800000 0x802000 (VM_READ + VM_EXEC); mk_vma 0x803000 0x805000 (VM_READ + VM_WRITE);
   mk_vma 0x7ff00000 0x80000000 (VM_READ + VM_WRITE + VM_STACK)].
Definition ex_mm : mm := mk_mm ex_areas (Some (mk_vma 0x803000 0x805000 (VM_READ + VM_WRITE))) 0 3 1 1 0.

Lemma ex_mm_inv : mm_inv ex_mm.
Proof.
  split; cbn [ex_mm mmap_list mmap_cache map_count].
  - unfold ex_areas. cbn. unfold USERTOP. lia.
  - intros v [= <-]. unfold ex_areas. rewrite !elem_of_cons. by right; left.
  - reflexivity.
Qed.

Lemma find_vma_spec_witness :
  wp (find_vma 0x801fff) (fun o s' => (forall v, o = Some v <-> covers ex_areas 0x801fff v) /\
    exists c, s' = Some (set_cache c ex_mm) /\ mm_inv (set_cache c ex_mm)) (Some ex_mm).
Proof. exact (find_vma_spec ex_mm 0x801fff ex_mm_inv). Defined.

Lemma insert_vma_struct_spec_witness :
  let v := mk_vma 0x802000 0x803000 VM_READ in
  (Forall (fun u => ~ overlap u v) ex_areas -> exists m', insert_vma_struct v (Some ex_mm) = Done ((), Some m') /\ inserted ex_mm m' v) /\
  (~ Forall (fun u => ~ overlap u v) ex_areas -> insert_vma_struct v (Some ex_mm) = Panic).
Proof.
  refine (insert_vma_struct_spec ex_mm (mk_vma 0x802000 0x803000 VM_READ) ex_mm_inv _ _).
  - cbn. lia.
  - cbn. unfold USERTOP. lia.
Defined.

Lemma user_mem_check_spec_witness :
  wp (user_mem_check 0x803010 0x1000 true) (fun b _ =>
    b = true <-> USER_ACCESS 0x803010 (u64 (0x803010 + 0x1000)) = true /\
      forall a, 0x803010 <= a < u64 (0x803010 + 0x1000) -> accessible ex_areas 0x803010 true a) (Some ex_mm).
Proof. exact (user_mem_check_spec ex_mm 0x803010 0x1000 true ex_mm_inv). Defined.

Lemma mm_map_spec_witness :
  let v := requested 0x802800 0x1000 VM_READ in
  let run := mm_map true 0x802800 0x1000 VM_READ (Some ex_mm) in
  (USER_ACCESS (vm_start v) (vm_end v) = false -> run = Done ((- E_INVAL, None), Some ex_mm)) /\
  (USER_ACCESS (vm_start v) (vm_end v) = true ->
     ((exists u, covers ex_areas (vm_start v) u) -> exists c, run = Done ((- E_INVAL, None), Some (set_cache c ex_mm))) /\
     (~ (exists u, covers ex_areas (vm_start v) u) ->
        (true = false -> exists c, run = Done ((- E_NO_MEM, None), Some (set_cache c ex_mm))) /\
        (true = true -> Forall (fun u => ~ overlap u v) ex_areas ->
           exists c m', run = Done ((0, Some v), Some m') /\ inserted (set_cache c ex_mm) m' v) /\
        (true = true -> ~ Forall (fun u => ~ overlap u v) ex_areas -> run = Panic))).
Proof. refine (mm_map_spec ex_mm true 0x802800 0x1000 VM_READ ex_mm_inv _). lia. Defined.
