(* ===== verification/Cow.v ===== *)
(** kern/mm/vmm.c, cow.h and cow.c: page faults, copy on write, and the
    duplication and release of an address space.  The state joins the page
    tables of [PageTable] with the areas of [Vma] of one process; a pointer to a
    page table entry is the number of its word.  [do_pgfault] is the handler the
    kernel uses; [check_and_do_cow] and [handle_cow_fault] are the variants of
    cow.c, which no code calls. *)
From S2P Require Import Prelude Buddy PmmManager PageTable PageTree Vma.

Definition CAUSE_STORE_PAGE_FAULT := 0xf.

(** The bit of an entry that marks a page to be copied on a write. *)
Definition PTE_COW := 0x100.

Definition is_cow_page (pte : Z) : bool := has pte PTE_V && negb (has pte PTE_W) && has pte PTE_COW.
Definition set_cow_pte (pte : Z) : Z := Z.lor (Z.land pte (Z.lnot PTE_W)) PTE_COW.
Definition clear_cow_pte (pte : Z) : Z := Z.lor (Z.land pte (Z.lnot PTE_COW)) PTE_W.

Record cow_stats := mk_stats { cow_faults : Z; cow_copies : Z; cow_upgrades : Z; pages_saved : Z }.

Definition cow_stats_init : cow_stats := mk_stats 0 0 0 0.

Section model.
Context {St : Type} `{!PageStore St} (pm : pmm_manager St) (npage : Z).

(** The page tables of all processes, the [mm] of the process at work, and the
    two global counters. *)
Record vm := mk_vm { pt : pt_state St; mmv : option mm; pgfault_num : Z; stats : cow_stats }.

Definition on_pt {A} (m : K (pt_state St) A) : K vm A :=
  zoom pt (fun t s => mk_vm t (mmv s) (pgfault_num s) (stats s)) m.
Definition on_mm {A} (m : K (option mm) A) : K vm A :=
  zoom mmv (fun t s => mk_vm (pt s) t (pgfault_num s) (stats s)) m.
Definition count_stat (f : cow_stats -> cow_stats) : K vm () :=
  modify (fun s => mk_vm (pt s) (mmv s) (pgfault_num s) (f (stats s))).
Definition count_fault : K vm () :=
  modify (fun s => mk_vm (pt s) (mmv s) (u32 (pgfault_num s + 1)) (stats s)).

Definition add_fault (c : cow_stats) : cow_stats :=
  mk_stats (u64 (cow_faults c + 1)) (cow_copies c) (cow_upgrades c) (pages_saved c).
Definition add_copy (c : cow_stats) : cow_stats :=
  mk_stats (cow_faults c) (u64 (cow_copies c + 1)) (cow_upgrades c) (pages_saved c).
Definition add_upgrade (c : cow_stats) : cow_stats :=
  mk_stats (cow_faults c) (cow_copies c) (u64 (cow_upgrades c + 1)) (pages_saved c).

(** [memcpy(page2kva(npage), page2kva(page), PGSIZE)] *)
Definition copy_contents (page np : Z) : K (pt_state St) () :=
  src ← page2kva npage page; dst ← page2kva npage np; copy_frame npage dst src.

(** The permissions an area gives to its pages. *)
Definition perm_of (flags : Z) : Z :=
  let perm := PTE_U in
  let perm := if has flags VM_WRITE then Z.lor perm (Z.lor PTE_R PTE_W) else perm in
  let perm := if has flags VM_READ then Z.lor perm PTE_R else perm in
  let perm := if has flags VM_EXEC then Z.lor perm PTE_X else perm in
  let perm := Z.lor perm PTE_A in
  if has perm PTE_W then Z.lor perm PTE_D else perm.

(** The part of [do_pgfault] between [down] and [up] once the access is allowed. *)
Definition fault_in (pgdir addr perm : Z) (write : bool) : K (pt_state St) Z :=
  ptep ← get_pte pm npage pgdir addr true;
  match ptep with
  | None => mret (- E_NO_MEM)
  | Some w =>
      pte ← rd npage w;
      if bool_decide (pte = 0) then
        o ← pgdir_alloc_page pm npage pgdir addr perm;
        match o with None => mret (- E_NO_MEM) | Some _ => mret 0 end
      else if write && has pte PTE_V && negb (has pte PTE_W) then
        if negb (has pte PTE_COW) then mret (- E_NO_MEM)
        else
          page ← pte2page npage pte;
          c ← on_pmm (page_ref page);
          if 1 <? c then
            o ← alloc_page pm;
            match o with
            | None => mret (- E_NO_MEM)
            | Some np =>
                src ← page2kva npage page;
                dst ← page2kva npage np;
                copy_frame npage dst src;;
                ret ← page_insert pm npage pgdir np addr perm;
                if bool_decide (ret <> 0) then free_page pm np;; mret (- E_NO_MEM) else mret 0
            end
          else
            _ ← page_insert pm npage pgdir page addr perm;
            mret 0
      else mret 0
  end.

Definition do_pgfault (error_code addr : Z) : K vm Z :=
  vma ← on_mm (find_vma addr);
  count_fault;;
  match vma with
  | None => mret (- E_INVAL)
  | Some v =>
      if vm_start v >? addr then mret (- E_INVAL)
      else
        let write := bool_decide (error_code = CAUSE_STORE_PAGE_FAULT) in
        on_mm down_mm;;
        if write && negb (has (vm_flags v) VM_WRITE) then on_mm up_mm;; mret (- E_INVAL)
        else
          m ← on_mm deref;
          ret ← on_pt (fault_in (pgdir m) (ROUNDDOWN addr PGSIZE) (perm_of (vm_flags v)) write);
          on_mm up_mm;;
          mret ret
  end.

(** cow.c.  [ptep] is the word of the entry, or NULL. *)
Definition handle_cow_fault (addr : Z) (ptep : option Z) : K vm Z :=
  m ← on_mm deref;
  w ← unwrap ptep;
  count_stat add_fault;;
  pte ← on_pt (rd npage w);
  if negb (has pte PTE_V) then mret (- E_INVAL)
  else
    page ← on_pt (pte2page npage pte);
    ref_count ← on_pt (on_pmm (page_ref page));
    let la := ROUNDDOWN addr PGSIZE in
    if ref_count >? 1 then
      o ← on_pt (alloc_page pm);
      match o with
      | None => mret (- E_NO_MEM)
      | Some new_page =>
          on_pt (copy_contents page new_page);;
          pte ← on_pt (rd npage w);
          let perm := Z.lor (Z.land pte PTE_USER) PTE_W in
          ret ← on_pt (page_insert pm npage (pgdir m) new_page la perm);
          if bool_decide (ret <> 0) then on_pt (free_page pm new_page);; mret ret
          else count_stat add_copy;; mret 0
      end
    else if bool_decide (ref_count = 1) then
      let perm := Z.lor (Z.land pte PTE_USER) PTE_W in
      ret ← on_pt (page_insert pm npage (pgdir m) page la perm);
      if bool_decide (ret <> 0) then mret ret else count_stat add_upgrade;; mret 0
    else mret (- E_INVAL).

Definition make_page_cow (pgdir la : Z) : K (pt_state St) Z :=
  ptep ← get_pte pm npage pgdir la false;
  match ptep with
  | None => mret (- E_INVAL)
  | Some w =>
      pte ← rd npage w;
      if negb (has pte PTE_V) then mret (- E_INVAL)
      else wr npage w (set_cow_pte pte);; tlb_invalidate pgdir la;; mret 0
  end.

Definition check_and_do_cow (addr : Z) (write : bool) : K vm Z :=
  if negb write then mret 0
  else
    m ← on_mm deref;
    ptep ← on_pt (get_pte pm npage (pgdir m) addr false);
    match ptep with
    | None => mret (- E_INVAL)
    | Some w =>
        pte ← on_pt (rd npage w);
        if is_cow_page pte then handle_cow_fault addr ptep
        else if negb (has pte PTE_W) && has pte PTE_V then handle_cow_fault addr ptep
        else mret 0
    end.

Definition validate_cow_security (addr : Z) (v : vma) : K vm bool :=
  m ← on_mm deref;
  if negb (has (vm_flags v) VM_WRITE) then mret false
  else if (addr <? vm_start v) || (addr >=? vm_end v) then mret false
  else
    ptep ← on_pt (get_pte pm npage (pgdir m) addr false);
    match ptep with
    | None => mret false
    | Some w => pte ← on_pt (rd npage w); mret (has pte PTE_V)
    end.

(** [verify_cow_invariants]: the pages of one area, then all areas. *)
Fixpoint verify_pages (fuel : nat) (pgdir addr end_ : Z) (valid : bool) : K (pt_state St) bool :=
  if addr <? end_ then
    match fuel with
    | O => timeout
    | S fuel =>
        ptep ← get_pte pm npage pgdir addr false;
        match ptep with
        | None => verify_pages fuel pgdir (u64 (addr + PGSIZE)) end_ valid
        | Some w =>
            pte ← rd npage w;
            if negb (has pte PTE_V) then verify_pages fuel pgdir (u64 (addr + PGSIZE)) end_ valid
            else
              page ← pte2page npage pte;
              ref ← on_pmm (page_ref page);
              let bad := (ref <=? 0) || (ref >? 1) && has pte PTE_W
                         || is_cow_page pte && (negb (has pte PTE_V) || has pte PTE_W) in
              verify_pages fuel pgdir (u64 (addr + PGSIZE)) end_ (valid && negb bad)
        end
    end
  else mret valid.

Fixpoint verify_areas (pgdir : Z) (l : list vma) (valid : bool) : K (pt_state St) bool :=
  match l with
  | [] => mret valid
  | v :: l =>
      valid ← verify_pages user_pages pgdir (vm_start v) (vm_end v) valid;
      verify_areas pgdir l valid
  end.

Definition verify_cow_invariants : K vm bool :=
  m ← on_mm deref;
  on_pt (verify_areas (pgdir m) (mmap_list m) true).

(** [dup_mmap]: [mmv] is the child's [mm]; the parent's is an argument and only
    read.  The walk runs from the last area to the first.  [kmalloc i]: whether
    the [i]-th call of kmalloc succeeds. *)
Fixpoint dup_areas (kmalloc : nat -> bool) (i : nat) (l : list vma) (from_pgdir : Z) : K vm Z :=
  match l with
  | [] => mret 0
  | v :: l =>
      match vma_create (kmalloc i) (vm_start v) (vm_end v) (vm_flags v) with
      | None => mret (- E_NO_MEM)
      | Some nvma =>
          on_mm (insert_vma_struct nvma);;
          to ← on_mm deref;
          ret ← on_pt (copy_range pm npage (pgdir to) from_pgdir (vm_start v) (vm_end v) false);
          if bool_decide (ret <> 0) then mret (- E_NO_MEM)
          else dup_areas kmalloc (S i) l from_pgdir
      end
  end.

Definition dup_mmap (kmalloc : nat -> bool) (from : option mm) : K vm Z :=
  _ ← on_mm deref;
  f ← unwrap from;
  dup_areas kmalloc 0 (rev (mmap_list f)) (pgdir f).

Fixpoint unmap_areas (pgdir : Z) (l : list vma) : K (pt_state St) () :=
  match l with
  | [] => mret ()
  | v :: l => unmap_range pm npage pgdir (vm_start v) (vm_end v);; unmap_areas pgdir l
  end.

Fixpoint exit_areas (pgdir : Z) (l : list vma) : K (pt_state St) () :=
  match l with
  | [] => mret ()
  | v :: l => exit_range pm npage pgdir (vm_start v) (vm_end v);; exit_areas pgdir l
  end.

Definition exit_mmap : K vm () :=
  m ← on_mm deref;
  assert (bool_decide (mm_count m = 0));;
  on_pt (unmap_areas (pgdir m) (mmap_list m));;
  on_pt (exit_areas (pgdir m) (mmap_list m)).
End model.
Arguments vm St : clear implicits.

(** ** One page ends up mapped once *)

Section proofs.
Context {St : Type} `{!PageStore St} (pm : pmm_manager St) `{!PageAlloc pm} (npage : Z) (R : list Z).
Implicit Types (t : pt_state St) (s : vm St) (r p q v : Z).

Abbreviation pt_inv := (PageTree.pt_inv pm npage R).
Abbreviation data := (PageTree.data pm R).
Abbreviation grows := (PageTree.grows pm R).
Abbreviation mapcount := (PageTree.mapcount R).
Abbreviation outlives := (PageTree.outlives pm R).

(** The entry of [v] in [r] is now [e], which maps [q] and is the only one to do
    so; every other entry, and the contents of every page, are as before. *)
Record alone t t' r v q e : Prop := {
  al_inv : pt_inv t';
  al_pte r' v' : r' ∈ R -> vpage v' -> pte_of t' r' v' = if decide (r' = r /\ v' = v) then e else pte_of t r' v';
  al_maps : maps_to e (q + nbase) = true;
  al_page : data t' q /\ mapcount t' (q + nbase) = 1;
  al_old q' : data t q' -> outlives t t' q';
}.

Lemma entry_of np perm : 0 <= np + nbase < npage -> npage <= 2 ^ 44 -> 0 <= perm < 1024 ->
  let e := pte_create (page2ppn np) (Z.lor PTE_V perm) in has e PTE_V = true /\ ppn_of e = np + nbase.
Proof.
  intros Hn Hb Hp e. split; [apply pte_create_valid|]. unfold e, page2ppn. apply pte_create_ppn; [lia|].
  by apply lor_flags.
Qed.

Lemma remapped_alone t t' r v np src perm :
  let e := pte_create (page2ppn np) (Z.lor PTE_V perm) in
  pt_inv t -> r ∈ R -> vpage v -> 0 <= perm < 1024 -> remapped pm npage R t t' r v np src e -> alone t t' r v np e.
Proof.
  intros e H Hr Hv Hp Hrm. pose proof (rm_new _ _ _ _ _ _ _ _ _ _ Hrm) as (Hd&Hnd&Hm0).
  pose proof (page_frame pm npage R t' np (rm_inv _ _ _ _ _ _ _ _ _ _ Hrm) ltac:(apply Hd)) as Hb.
  destruct (entry_of np perm) as [Hev Hep]; [unfold nbase in *; lia|apply H|done|]. fold e in Hev, Hep.
  split; [apply Hrm|apply Hrm|by apply maps_to_true|split; [done|]|].
  - rewrite (rm_count _ _ _ _ _ _ _ _ _ _ Hrm), Hm0, bool_decide_true by done.
    destruct (maps_to (pte_of t r v) (np + nbase)) eqn:E; [|done]. pose proof (mapcount_pos R t r v _ Hr Hv E). lia.
  - intros q Hq. split; [by apply Hrm|]. intros i. by apply Hrm.
Qed.

Lemma slot_alone t t1 t' r v q e :
  r ∈ R -> vpage v -> grows t t1 -> pt_inv t1 -> pt_inv t' -> set_slot R t1 t' r v e -> freed_unmapped pm R t1 t' ->
  data t1 q -> maps_to e (q + nbase) = true -> mapcount t1 (q + nbase) = b2z (maps_to (pte_of t r v) (q + nbase)) ->
  alone t t' r v q e.
Proof.
  intros Hr Hv Hg H1 H' Hs Hf Hd He Hm.
  assert (Hm' : mapcount t' (q + nbase) = 1).
  { rewrite (set_slot_count pm npage R t1 t' r v e) by done. rewrite (gr_pte _ _ _ _ Hg) by done. rewrite Hm, He. cbn. lia. }
  split; [done| |done|split; [|done]|].
  - intros r' v' Hr' Hv'. rewrite (ss_pte _ _ _ _ _ _ Hs) by done. case_decide; [done|by apply Hg].
  - destruct Hd as (Hq&Hnf&Hnt). split_and!.
    + by apply (ss_cells _ _ _ _ _ _ Hs).
    + rewrite (Hf q), Hm'. intros [?|[_ ?]]; [done|lia].
    + by rewrite (set_slot_table _ _ _ _ _ _ _ Hs).
  - intros q' Hq'. by eapply grows_slot_outlives.
Qed.

Lemma wp_page_ref t q (Q : Z -> pt_state St -> Prop) :
  pt_inv t -> data t q -> Q (mapcount t (q + nbase)) t -> wp (on_pmm (page_ref q)) Q t.
Proof.
  intros H ([n Hn]&_&Hnt) HQ. apply wp_on_pmm. unfold page_ref, wp, unwrap. rewrite Hn, (pi_count _ _ _ _ H q n Hn Hnt).
  by destruct t.
Qed.

(** ** The page fault handler *)
Lemma wp_alloc_insert t r la w perm (Q : option Z -> pt_state St -> Prop) :
  let v := la / PGSIZE in
  pt_inv t -> r ∈ R -> 0 <= la < USERTOP -> leaf t r v w -> pte_of t r v = 0 -> 0 <= perm < 1024 ->
  (forall t', pt_inv t' -> grows t t' -> Q None t') ->
  (forall t' q, alone t t' r v q (pte_create (page2ppn q) (Z.lor PTE_V perm)) -> Q (Some q) t') ->
  wp (pgdir_alloc_page pm npage r la perm) Q t.
Proof.
  intros v H Hr Hla Hw He Hp HN HS. destruct (path_of_la la Hla) as [Hv _]. fold v in Hv.
  unfold pgdir_alloc_page. kstep. apply (wp_alloc_page pm); [exact (pi_pmm _ _ _ _ H)| |].
  { intros ph Hph Hrf Hfr. apply wp_ret. destruct (inv_phys pm npage R t ph H Hph Hrf Hfr). by apply HN. }
  intros np ph Hph Hrf Hfree Hfr.
  destruct (inv_alloc pm npage R t np ph H Hph Hrf Hfree Hfr) as (H1&Hg1&Hd1&Hm1). set (t1 := mk_pt ph (mem t)) in *.
  pose proof (page_frame pm npage R t1 np H1 ltac:(apply Hd1)) as Hb.
  destruct (entry_of np perm) as [Hev Hep]; [unfold nbase in *; lia|apply H|done|].
  kstep. apply (wp_page_insert pm npage R t1 r np la perm); [done|done|done|done|done| |]; fold v.
  { intros t2 H2 Hg2 Hno. exfalso. apply (Hno w). by apply (leaf_grows pm R t t1). }
  intros t2 t3 Hg2 H2 H3 Hs Hf. rewrite bool_decide_false by (intros E; by apply E).
  assert (Hd2 : data t2 np) by by apply (data_grows pm R t1).
  assert (Ha : alone t t3 r v np (pte_create (page2ppn np) (Z.lor PTE_V perm))).
  { apply (slot_alone t t2); [done|done|by eapply grows_trans|done|done|done|done|done|by apply maps_to_true|].
    rewrite (mapcount_ext R t1 t2), Hm1 by apply Hg2. rewrite He. by rewrite maps_to_0. }
  destruct (al_page _ _ _ _ _ _ Ha) as [Hd3 Hm3].
  kstep. apply wp_page_ref; [done|done|]. rewrite Hm3. kstep. kstep; [done|]. apply wp_ret. by apply HS.
Qed.

(** How [fault_in] may end. *)
Lemma wp_fault_in t r la perm write (Q : Z -> pt_state St -> Prop) :
  let v := la / PGSIZE in let e := pte_of t r v in
  pt_inv t -> r ∈ R -> 0 <= la < USERTOP -> 0 <= perm < 1024 ->
  (forall t', pt_inv t' -> grows t t' -> Q (- E_NO_MEM) t') ->
  (forall t', pt_inv t' -> grows t t' -> e <> 0 -> write && has e PTE_V && negb (has e PTE_W) = false -> Q 0 t') ->
  (forall t' q, alone t t' r v q (pte_create (page2ppn q) (Z.lor PTE_V perm)) ->
     (e <> 0 -> write = true /\ has e PTE_W = false /\ has e PTE_COW = true /\
        forall i, idx i -> mem t' ((q + nbase) * 512 + i) = mem t (ppn_of e * 512 + i)) -> Q 0 t') ->
  wp (fault_in pm npage r la perm write) Q t.
Proof.
  intros v e H Hr Hla Hp HN H0 HS. destruct (path_of_la la Hla) as [Hv _]. fold v in Hv.
  unfold fault_in. kstep. apply (wp_get_pte pm npage R t r la true); [done|done|done| |].
  2:{ intros t1 H1 Hg1 _ _. apply wp_ret. by apply HN. }
  intros t1 w H1 Hg1 _ Hw. fold v in Hw.
  destruct (leaf_table R t1 r v w Hr Hv Hw) as (p&(r'&path&Hr'&Ho&Hl&Ep)&Ew&Hi&Em&_).
  pose proof (node_bound pm npage R t1 r' path p H1 Hr' Ho ltac:(lia) Ep) as Hpb.
  assert (Ee : pte_of t1 r v = e) by by apply Hg1.
  assert (Hup : forall t2 q e', alone t1 t2 r v q e' -> alone t t2 r v q e').
  { intros t2 q e' Ha. split; try apply Ha.
    - intros r2 v2 Hr2 Hv2. rewrite (al_pte _ _ _ _ _ _ Ha) by done. case_decide; [done|by apply Hg1].
    - intros q' Hq'. destruct (al_old _ _ _ _ _ _ Ha q' (data_grows pm R _ _ _ Hg1 Hq')) as [E1 E2].
      rewrite (mapcount_ext R t t1) in E1 by apply Hg1. split; [exact E1|]. intros i Hii. rewrite E2 by done.
      by apply (gr_data _ _ _ _ Hg1 q' i). }
  kstep. rewrite Ew at 1. apply wp_rd_word; [done|done|]. rewrite <-Ew, Em, Ee. case_bool_decide as Ez.
  { kstep. apply (wp_alloc_insert t1 r la w perm); [done|done|done|done|by fold v; rewrite Ee|done| |].
    - intros t2 H2 Hg2. apply wp_ret, HN; [done|by eapply grows_trans].
    - intros t2 q Ha. apply wp_ret. apply (HS t2 q); [by apply Hup|]. by intros ?. }
  destruct (write && has e PTE_V && negb (has e PTE_W)) eqn:Ec; [|apply wp_ret; by apply H0].
  apply andb_true_iff in Ec as [[Hwr Hev]%andb_true_iff Hnw%negb_true_iff].
  destruct (has e PTE_COW) eqn:Ecow; cbn [negb]; [|apply wp_ret; by apply HN].
  assert (Hmt : maps_to (pte_of t1 r v) (ppn_of e) = true) by (rewrite Ee; by apply maps_to_true).
  destruct (mapped_data pm npage R t1 r v _ H1 Hr Hv Hmt) as [Hd Hb]. set (src := ppn_of e - nbase) in *.
  replace (ppn_of e) with (src + nbase) in Hmt by lia.
  pose proof (mapcount_pos R t1 r v _ Hr Hv Hmt) as Hmp.
  assert (Hc0 : forall i, idx i -> mem t1 ((src + nbase) * 512 + i) = mem t (ppn_of e * 512 + i)).
  { intros i Hii. replace (ppn_of e * 512 + i) with ((src + nbase) * 512 + i) by lia. apply (gr_data _ _ _ _ Hg1 src i); [|done].
    apply (mapped_data pm npage R t r v (ppn_of e) H Hr Hv). by apply maps_to_true. }
  kstep. apply wp_pte2page; [done|lia|]. fold src. kstep. apply wp_page_ref; [done|done|].
  destruct (Z.ltb_spec 1 (mapcount t1 (src + nbase))) as [Hgt|Hle].
  - kstep. apply (wp_alloc_page pm); [exact (pi_pmm _ _ _ _ H1)| |].
    { intros ph Hph Hrf Hfr. apply wp_ret. destruct (inv_phys pm npage R t1 ph H1 Hph Hrf Hfr).
      apply HN; [done|by eapply grows_trans]. }
    intros np ph Hph Hrf Hfree Hfr.
    pose proof (wp_copy_into pm npage R t1 r la w np ph src perm) as Hc. cbv zeta in Hc. fold v in Hc.
    specialize (Hc (fun ret t' => wp (if bool_decide (ret <> 0) then free_page pm np;; mret (- E_NO_MEM) else mret 0) Q t')
      H1 Hr Hla Hw Hd Hp Hph Hrf Hfree Hfr).
    assert (Hok : forall t2, remapped pm npage R t1 t2 r v np src (pte_create (page2ppn np) (Z.lor PTE_V perm)) ->
      wp (if bool_decide (0 <> 0) then free_page pm np;; mret (- E_NO_MEM) else mret 0) Q t2); [|specialize (Hc Hok)].
    + intros t2 Hrm. rewrite bool_decide_false by (intros E; by apply E). apply wp_ret. apply (HS t2 np).
      * apply Hup. by apply (remapped_alone t1 t2 r v np src).
      * intros _. split_and!; [done|done|done|]. intros i Hii. rewrite (rm_copy _ _ _ _ _ _ _ _ _ _ Hrm) by done. by apply Hc0.
    + apply wp_bind_inv in Hc. kstep. eapply wp_mono; [exact Hc|]. intros a ta Ha.
      apply wp_bind_inv in Ha. kstep. eapply wp_mono; [exact Ha|]. intros b tb Hb'.
      apply wp_bind_inv in Hb'. kstep. eapply wp_mono; [exact Hb'|]. intros [] tc Hc'. by kstep.
  - destruct (entry_of src perm) as [Hev' Hep]; [unfold nbase in *; lia|apply H|done|].
    kstep. apply (wp_page_insert pm npage R t1 r src la perm); [done|done|done|done|done| |]; fold v.
    { intros t2 H2 Hg2 Hno. exfalso. by apply (Hno w). }
    intros t2 t3 Hg2 H2 H3 Hs Hf. apply wp_ret.
    assert (Hd2 : data t2 src) by by apply (data_grows pm R t1).
    assert (Ha : alone t1 t3 r v src (pte_create (page2ppn src) (Z.lor PTE_V perm))).
    { apply (slot_alone t1 t2); [done|done|done|done|done|done|done|done|by apply maps_to_true|].
      rewrite (mapcount_ext R t1 t2), Hmt by apply Hg2. cbn. lia. }
    apply (HS t3 src); [by apply Hup|]. intros _. split_and!; [done|done|done|]. intros i Hii.
    destruct (al_old _ _ _ _ _ _ Ha src Hd) as [_ ->]; [|done]. by apply Hc0.
Qed.

Lemma perm_of_flags f : 0 <= perm_of f < 1024.
Proof.
  unfold perm_of. destruct (has f VM_WRITE), (has f VM_READ), (has f VM_EXEC); vm_compute; split; intros [=] || easy.
Qed.

Definition denied (m : mm) (addr code : Z) : Prop :=
  (forall x, ~ covers (mmap_list m) addr x) \/
  code = CAUSE_STORE_PAGE_FAULT /\ exists x, covers (mmap_list m) addr x /\ has (vm_flags x) VM_WRITE = false.

(** [s] with other page tables, one fault more, and the area cache moved. *)
Definition faulted s m t' s' : Prop :=
  exists c, mm_inv (set_cache c m) /\ s' = mk_vm t' (Some (set_cache c m)) (u32 (pgfault_num s + 1)) (stats s).

Lemma wp_deref m (Q : mm -> option mm -> Prop) : Q m (Some m) -> wp deref Q (Some m).
Proof. done. Qed.

Lemma wp_do_pgfault s m code addr (Q : Z -> vm St -> Prop) :
  mmv s = Some m -> mm_inv m -> 0 < mm_sem m ->
  (forall s', denied m addr code -> faulted s m (pt s) s' -> Q (- E_INVAL) s') ->
  (forall x, ~ denied m addr code -> covers (mmap_list m) addr x ->
     wp (fault_in pm npage (pgdir m) (ROUNDDOWN addr PGSIZE) (perm_of (vm_flags x)) (bool_decide (code = CAUSE_STORE_PAGE_FAULT)))
       (fun ret t' => forall s', faulted s m t' s' -> Q ret s') (pt s)) ->
  wp (do_pgfault pm npage code addr) Q s.
Proof.
  intros Hm Hi Hsem HD HF. unfold do_pgfault, on_mm. kstep. kstep. rewrite Hm. apply wp_find_vma; [done|]. intros c Hc.
  unfold count_fault. kstep. kstep. cbn [pt mmv pgfault_num stats].
  destruct (search (mmap_list m) addr) as [v|] eqn:E.
  2:{ apply wp_ret. apply HD; [|by exists c]. left. intros v Hv. by apply (search_covers 0) in Hv as Ev; [congruence|apply Hi]. }
  apply (search_covers 0) in E; [|apply Hi]. pose proof E as [_ Hr].
  rewrite Z.gtb_ltb, (proj2 (Z.ltb_ge _ _)) by lia. cbv zeta.
  assert (Hback : set_sem (mm_sem m - 1 + 1) (locked_by m) (set_cache c m) = set_cache c m).
  { destruct m. unfold set_sem, set_cache. cbn. f_equal. lia. }
  kstep. kstep. unfold down_mm. kstep. apply wp_deref.
  cbn [set_cache mm_sem]. rewrite (proj2 (Z.ltb_lt _ _)) by done. kstep. cbn [pt mmv pgfault_num stats].
  destruct (bool_decide (code = CAUSE_STORE_PAGE_FAULT) && negb (has (vm_flags v) VM_WRITE)) eqn:Ed.
  - apply andb_true_iff in Ed as [Ew%bool_decide_eq_true Ef%negb_true_iff].
    kstep. kstep. unfold up_mm. kstep. apply wp_deref. kstep. apply wp_ret.
    cbn [pt mmv pgfault_num stats set_sem set_cache mm_sem locked_by]. apply HD; [right; split; [done|by exists v]|].
    exists c. split; [done|]. f_equal. f_equal. exact Hback.
  - kstep. kstep. apply wp_deref. cbn [pt mmv pgfault_num stats].
    kstep. unfold on_pt. kstep. eapply wp_mono; [apply (HF v); [|done]|].
    + intros [Hn|(->&u&Hu&Ef)]; [by apply (Hn v)|]. rewrite (covers_fun _ _ _ _ _ (mi_ordered _ Hi) Hu E) in Ef.
      by rewrite Ef in Ed.
    + intros ret t' HQ. cbn [pt mmv pgfault_num stats]. kstep. kstep. unfold up_mm. kstep. apply wp_deref.
      kstep. apply wp_ret. apply HQ. exists c. split; [done|]. f_equal. f_equal. exact Hback.
Qed.

Lemma covers_user m addr (v : vma) : mm_inv m -> covers (mmap_list m) addr v ->
  0 <= ROUNDDOWN addr PGSIZE < USERTOP /\ ROUNDDOWN addr PGSIZE / PGSIZE = addr / PGSIZE.
Proof.
  intros H [Hv Hr]. pose proof (ordered_in _ _ _ (mi_ordered _ H) Hv). pose proof (ROUNDDOWN_bounds addr PGSIZE ltac:(done)).
  rewrite ROUNDDOWN_mul by done. unfold PGSIZE in *. rewrite Z.mul_comm, Z.div_mul by lia. split; [|done].
  unfold USERTOP in *. zlia.
Qed.

(** ** Properties *)

(** Property C11. A page fault never gives a process more than its areas allow,
    and never disturbs another process: it fails with E_INVAL, changing nothing,
    exactly when no area contains the address or a write hits an area that is
    not writable; otherwise every entry of every address space is as before,
    except that the entry of the faulting page may now map a page that nothing
    else maps, with the permissions of the area. *)
Theorem do_pgfault_access s m code addr :
  pt_inv (pt s) -> mmv s = Some m -> mm_inv m -> 0 < mm_sem m -> pgdir m ∈ R ->
  wp (do_pgfault pm npage code addr) (fun ret s' =>
    pt_inv (pt s') /\ faulted s m (pt s') s' /\
    (ret = - E_INVAL <-> denied m addr code) /\ (denied m addr code -> pt s' = pt s) /\
    ((forall r v, r ∈ R -> vpage v -> pte_of (pt s') r v = pte_of (pt s) r v) \/
     exists a q, covers (mmap_list m) addr a /\
       alone (pt s) (pt s') (pgdir m) (addr / PGSIZE) q (pte_create (page2ppn q) (Z.lor PTE_V (perm_of (vm_flags a)))))) s.
Proof.
  intros H Hm Hi Hsem Hr. apply (wp_do_pgfault s m); [done..| |].
  - intros s' Hd Hf. assert (E : pt s' = pt s) by (destruct Hf as (c&_&->); done). rewrite E.
    split_and!; [done|done|done|done|by left].
  - intros v Hd Hv. destruct (covers_user m addr v Hi Hv) as [Hla Ev].
    apply (wp_fault_in (pt s) (pgdir m)); [done|done|done|apply perm_of_flags|..]; rewrite ?Ev.
    + intros t' H' Hg s' Hf. assert (pt s' = t') as -> by (destruct Hf as (c&_&->); done).
      split_and!; [done|done|done|done|left; apply Hg].
    + intros t' H' Hg _ _ s' Hf. assert (pt s' = t') as -> by (destruct Hf as (c&_&->); done).
      split_and!; [done|done|done|done|left; apply Hg].
    + intros t' q Ha _ s' Hf. assert (pt s' = t') as -> by (destruct Hf as (c&_&->); done).
      split_and!; [apply Ha|done|done|done|right; by exists v, q].
Qed.

(** Property C10. A write to a page shared by copy on write gives the process a
    page of its own with the same contents, which nothing else maps, writable;
    the page it shared so far keeps its contents and every other mapping, and is
    given back only if this was the last one.  The only other outcome is that
    memory is short, and then no translation has changed. *)
Theorem do_pgfault_cow_spec s m addr a :
  let r := pgdir m in let v := addr / PGSIZE in let e := pte_of (pt s) r v in
  pt_inv (pt s) -> mmv s = Some m -> mm_inv m -> 0 < mm_sem m -> r ∈ R ->
  covers (mmap_list m) addr a -> has (vm_flags a) VM_WRITE = true -> is_cow_page e = true ->
  wp (do_pgfault pm npage CAUSE_STORE_PAGE_FAULT addr) (fun ret s' => faulted s m (pt s') s' /\
    ((ret = 0 /\ exists q, let e' := pte_create (page2ppn q) (Z.lor PTE_V (perm_of (vm_flags a))) in
        has e' PTE_W = true /\ alone (pt s) (pt s') r v q e' /\
        forall i, idx i -> mem (pt s') ((q + nbase) * 512 + i) = mem (pt s) (ppn_of e * 512 + i)) \/
     (ret = - E_NO_MEM /\ grows (pt s) (pt s') /\ pt_inv (pt s')))) s.
Proof.
  intros r v e H Hm Hi Hsem Hr Ha Hw Hcow. unfold is_cow_page in Hcow.
  apply andb_true_iff in Hcow as [[Hev Hnw%negb_true_iff]%andb_true_iff _].
  apply (wp_do_pgfault s m); [done..| |].
  - intros s' Hd _. exfalso. destruct Hd as [Hn|(_&u&Hu&Ef)]; [by apply (Hn a)|].
    rewrite (covers_fun _ _ _ _ _ (mi_ordered _ Hi) Hu Ha) in Ef. congruence.
  - intros u _ Hu. rewrite (covers_fun _ _ _ _ _ (mi_ordered _ Hi) Hu Ha). destruct (covers_user m addr a Hi Ha) as [Hla Ev].
    apply (wp_fault_in (pt s) (pgdir m)); [done|done|done|apply perm_of_flags|..]; rewrite ?Ev; fold r v e.
    + intros t' H' Hg s' Hf. assert (pt s' = t') as -> by (destruct Hf as (c&_&->); done). split; [done|by right].
    + intros t' _ _ _. by rewrite Hev, Hnw.
    + intros t' q Hal Hc s' Hf. assert (pt s' = t') as -> by (destruct Hf as (c&_&->); done). split; [done|]. left.
      split; [done|]. exists q. destruct Hc as (_&_&_&Hmem); [intros Ez; by rewrite Ez, has_0 in Hev|].
      split_and!; [|done|done]. unfold has, pte_create. apply bool_decide_eq_true. intros E.
      apply (f_equal (fun z => Z.testbit z 2)) in E. rewrite Z.land_spec, !Z.lor_spec in E.
      unfold perm_of in E. rewrite Hw in E. destruct (has (vm_flags a) VM_READ), (has (vm_flags a) VM_EXEC); cbn in E;
        rewrite ?orb_true_r in E; done.
Qed.

Lemma leaf_of_valid t r v : r ∈ R -> vpage v -> has (pte_of t r v) PTE_V = true -> exists w, leaf t r v w.
Proof.
  intros Hr Hv He. unfold pte_of in He. unfold leaf. destruct (node _ _ _) as [p|]; [by eauto|].
  by rewrite has_0 in He.
Qed.

Lemma wp_ROUND_insert t r q addr w perm (Q : Z -> pt_state St -> Prop) :
  pt_inv t -> r ∈ R -> 0 <= addr < USERTOP -> leaf t r (addr / PGSIZE) w -> data t q -> 0 <= perm < 1024 ->
  (forall t', pt_inv t' -> pte_of t' r (addr / PGSIZE) = pte_create (page2ppn q) (Z.lor PTE_V perm) -> Q 0 t') ->
  wp (page_insert pm npage r q (ROUNDDOWN addr PGSIZE) perm) Q t.
Proof.
  intros H Hr Ha Hw Hq Hp HQ. pose proof (ROUNDDOWN_bounds addr PGSIZE ltac:(done)).
  assert (Ev : ROUNDDOWN addr PGSIZE / PGSIZE = addr / PGSIZE) by (rewrite ROUNDDOWN_mul by done; unfold PGSIZE; zlia).
  assert (Hla : 0 <= ROUNDDOWN addr PGSIZE < USERTOP) by (unfold ROUNDDOWN, PGSIZE, USERTOP in *; zlia).
  destruct (path_of_la addr Ha) as [Hv _].
  apply (wp_page_insert pm npage R t r q _ perm); rewrite ?Ev; [done..| |].
  - intros t' _ _ Hno. exfalso. by apply (Hno w).
  - intros t1 t' _ _ H' Hs _. apply HQ; [done|]. by rewrite (ss_pte _ _ _ _ _ _ Hs), decide_True.
Qed.

(** [check_and_do_cow] looks at no area: a write to a page that is
    mapped once, read-only and not marked for copy on write makes this very page
    writable, also where no area allows it.  The page fault handler refuses the
    access that the areas deny. *)
Theorem check_and_do_cow_overrides s m addr :
  let r := pgdir m in let v := addr / PGSIZE in let e := pte_of (pt s) r v in
  pt_inv (pt s) -> mmv s = Some m -> r ∈ R -> 0 <= addr < USERTOP ->
  has e PTE_V = true -> has e PTE_W = false -> is_cow_page e = false -> mapcount (pt s) (ppn_of e) = 1 ->
  mm_inv m -> 0 < mm_sem m -> denied m addr CAUSE_STORE_PAGE_FAULT ->
  wp (check_and_do_cow pm npage addr true) (fun ret s' => ret = 0 /\ mmv s' = Some m /\
    let e' := pte_of (pt s') r v in has e' PTE_W = true /\ ppn_of e' = ppn_of e) s /\
  wp (do_pgfault pm npage CAUSE_STORE_PAGE_FAULT addr) (fun ret s' => ret = - E_INVAL /\ pt s' = pt s) s.
Proof.
  intros r v e H Hm Hr Ha Hev Hnw Hcow Hmc Hi Hsem Hden. split.
  2:{ apply (wp_do_pgfault s m); [done..| |by intros ? []]. by intros s' _ (c&_&->). }
  destruct (path_of_la addr Ha) as [Hv _]. fold v in Hv.
  assert (Hmt : maps_to e (ppn_of e) = true) by by apply maps_to_true.
  destruct (mapped_data pm npage R (pt s) r v _ H Hr Hv Hmt) as [Hd Hb].
  assert (Hperm : 0 <= Z.lor (Z.land e PTE_USER) PTE_W < 1024) by (apply lor_flags; [apply PTE_USER_flags|done]).
  unfold check_and_do_cow. cbn [negb]. unfold on_mm. kstep. kstep. rewrite Hm. apply wp_deref. unfold on_pt. kstep. kstep.
  apply (wp_get_pte pm npage R (pt s) r addr false); [done..| |].
  2:{ intros t' _ _ _ Hn. exfalso. destruct (path_of_la addr Ha) as [_ Hp]. unfold vpath in Hp.
      injection Hp as E1 E0 _. unfold e, pte_of in Hev. fold v in E1, E0. rewrite <-E1, <-E0, Hn, has_0 in Hev. done. }
  intros t' w _ _ E Hw. rewrite (E eq_refl) in *. clear t' E. fold v in Hw. cbn [pt mmv pgfault_num stats].
  destruct (leaf_table R (pt s) r v w Hr Hv Hw) as (p&(r'&path&Hr'&Ho&Hl&Ep)&Ew&Hix&Em&_). fold e in Em.
  pose proof (node_bound pm npage R (pt s) r' path p H Hr' Ho ltac:(lia) Ep) as Hpb.
  assert (Hrd : forall Q : Z -> pt_state St -> Prop, Q e (pt s) -> wp (rd npage w) Q (pt s)).
  { intros Q HQ. rewrite Ew. apply wp_rd_word; [done|done|]. by rewrite <-Ew, Em. }
  kstep. kstep. apply Hrd. cbn [pt mmv pgfault_num stats]. rewrite Hcow, Hnw, Hev. cbn [negb andb].
  unfold handle_cow_fault, on_mm, on_pt, count_stat. kstep. kstep. apply wp_deref. kstep. kstep; [reflexivity|].
  kstep. kstep. kstep. kstep. cbn [pt mmv pgfault_num stats]. apply Hrd. rewrite Hev. cbn [negb].
  kstep. kstep. apply wp_pte2page; [done|apply Hb|]. kstep. kstep. cbn [pt mmv pgfault_num stats].
  apply wp_page_ref; [done|done|]. replace (ppn_of e - nbase + nbase) with (ppn_of e) by lia. rewrite Hmc.
  cbv zeta. rewrite bool_decide_true by done. cbn [Z.gtb Z.compare Pos.compare Pos.compare_cont pt mmv pgfault_num stats].
  kstep. kstep. cbn [pt mmv pgfault_num stats]. apply (wp_ROUND_insert (pt s) r _ addr w); [done..|].
  intros t' H' Et. rewrite bool_decide_false by (intros E; by apply E). kstep. kstep. apply wp_ret.
  cbn [pt mmv pgfault_num stats]. fold v in Et |- *. rewrite Et. split_and!; [done|done| |].
  - unfold has, pte_create. apply bool_decide_eq_true. intros Z0. apply (f_equal (fun z => Z.testbit z 2)) in Z0.
    rewrite Z.land_spec, !Z.lor_spec in Z0. cbn in Z0. rewrite !orb_true_r in Z0. done.
  - unfold page2ppn. rewrite pte_create_ppn; [lia|pose proof (pi_phys _ _ _ _ H); unfold nbase in *; lia|by apply lor_flags].
Qed.
End proofs.

(** ** Witnesses: the first directory maps one page, at 0x800000, through two
    tables; the allocator is the buddy system. *)

Opaque ex_state.

Definition ex_phys : bstate := match set_page_ref 2 1 ex_state with Done (_, ph) => ph | _ => ex_state end.

Lemma ex_phys_spec : pg_inv ex_phys /\
  (forall q, ref_of ex_phys q = if decide (q = 2) then Some 1 else ref_of ex_state q) /\
  (forall q, pg_free ex_phys q <-> pg_free ex_state q).
Proof.
  assert (H : wp (set_page_ref 2 1) (fun _ ph => pg_inv ph /\
    (forall q, ref_of ph q = if decide (q = 2) then Some 1 else ref_of ex_state q) /\
    forall q, pg_free ph q <-> pg_free ex_state q) ex_state).
  { apply pg_set_ref; [exists ex_lists; exact ex_inv|apply ex_is_ref; lia|apply ex_not_free; lia]. }
  apply (proj1 (wp_Done _ _ _)) in H as ([]&ph&E&H). unfold ex_phys. rewrite E. exact H.
Qed.

Opaque ex_phys.

Section one_page.
(** The flags of the one entry. *)
Context (fl : Z) (Hfl : 0 <= fl < 1024).

Definition ex_entry : Z := pte_create (page2ppn 2) (Z.lor PTE_V fl).
Definition ex_mem (a : Z) : Z :=
  if a =? nbase * 512 then pte_create (nbase + 3) PTE_V
  else if a =? (nbase + 3) * 512 + 4 then pte_create (nbase + 4) PTE_V
  else if a =? (nbase + 4) * 512 then ex_entry
  else 0.
Definition ex_one : pt_state bstate := mk_pt ex_phys ex_mem.

Lemma ex_entry_spec : has ex_entry PTE_V = true /\ ppn_of ex_entry = nbase + 2.
Proof.
  split; [apply pte_create_valid|]. unfold ex_entry, page2ppn. rewrite pte_create_ppn; [done|done|]. by apply lor_flags.
Qed.

Lemma ex_step q i l p : idx i -> node ex_mem q (i :: l) = Some p ->
  q = nbase /\ i = 0 /\ node ex_mem (nbase + 3) l = Some p \/
  q = nbase + 3 /\ i = 4 /\ node ex_mem (nbase + 4) l = Some p \/
  q = nbase + 4 /\ i = 0 /\ node ex_mem (nbase + 2) l = Some p.
Proof.
  destruct ex_entry_spec as [Hv Hp]. intros Hi. cbn [node].
  assert (E1 : ppn_of (pte_create (nbase + 3) PTE_V) = nbase + 3) by done.
  assert (E2 : ppn_of (pte_create (nbase + 4) PTE_V) = nbase + 4) by done.
  unfold ex_mem at 1 3. unfold idx in Hi.
  destruct (Z.eqb_spec (q * 512 + i) (nbase * 512)); [rewrite pte_create_valid, E1; intros H; left; split_and!; [lia|lia|exact H]|].
  destruct (Z.eqb_spec (q * 512 + i) ((nbase + 3) * 512 + 4));
    [rewrite pte_create_valid, E2; intros H; right; left; split_and!; [lia|lia|exact H]|].
  destruct (Z.eqb_spec (q * 512 + i) ((nbase + 4) * 512)); [rewrite Hv, Hp; intros H; right; right; split_and!; [lia|lia|exact H]|].
  by rewrite has_0.
Qed.

Lemma ex_one_node r path p :
  r ∈ ex_roots -> ok_path path -> (length path <= 3)%nat -> node ex_mem r path = Some p ->
  path = [] /\ p = r \/ r = nbase /\
    (path = [0] /\ p = nbase + 3 \/ path = [0; 4] /\ p = nbase + 4 \/ path = [0; 4; 0] /\ p = nbase + 2).
Proof.
  intros Hr%ex_in_roots Ho Hl E.
  assert (Hix : Forall idx path).
  { destruct path; [constructor|]. destruct Ho as [? ?]. constructor; [unfold idx; lia|done]. }
  destruct path as [|i path]; [injection E as <-; by left|]. right.
  apply Forall_cons in Hix as [Hi Hix]. apply ex_step in E as [(->&->&E)|[(E0&_)|(E0&_)]]; [|lia|lia|done]. split; [done|].
  destruct path as [|j path]; [injection E as <-; by left|]. right.
  apply Forall_cons in Hix as [Hj Hix]. apply ex_step in E as [(E0&_)|[(_&->&E)|(E0&_)]]; [lia| |lia|done].
  destruct path as [|k path]; [injection E as <-; by left|]. right.
  apply Forall_cons in Hix as [Hk Hix]. apply ex_step in E as [(E0&_)|[(E0&_)|(_&->&E)]]; [lia|lia| |done].
  destruct path; [injection E as <-; done|]. cbn in Hl. lia.
Qed.

Lemma ex_dir : node ex_mem nbase [0x800 / 2 ^ 18; 0x800 / 2 ^ 9 mod 512] = Some (nbase + 4).
Proof. vm_compute. reflexivity. Qed.

Lemma ex_one_pte r v : r ∈ ex_roots -> vpage v -> pte_of ex_one r v = if decide (r = nbase /\ v = 0x800) then ex_entry else 0.
Proof.
  intros Hr Hv. pose proof (vpath_prefix v Hv) as Ho. unfold pte_of, ex_one. cbn [mem].
  destruct (node ex_mem r [v / 2 ^ 18; v / 2 ^ 9 mod 512]) as [p|] eqn:E.
  - apply ex_one_node in E as [[? _]|(->&[[? _]|[[Ep ->]|[? _]]])]; [done|done| |done|done|done|cbn; lia].
    injection Ep as E1 E2. unfold ex_mem, vpage in *.
    destruct (Z.eqb_spec ((nbase + 4) * 512 + v mod 512) (nbase * 512)); [zlia|].
    destruct (Z.eqb_spec ((nbase + 4) * 512 + v mod 512) ((nbase + 3) * 512 + 4)); [zlia|].
    destruct (Z.eqb_spec ((nbase + 4) * 512 + v mod 512) ((nbase + 4) * 512)) as [E3|E3].
    + rewrite decide_True; [done|]. split; [done|]. zlia.
    + rewrite decide_False; [done|]. intros [_ ->]. by apply E3.
  - rewrite decide_False; [done|]. intros [-> ->]. by rewrite ex_dir in E.
Qed.

Lemma ex_root : nbase ∈ ex_roots.
Proof. unfold ex_roots. apply elem_of_cons. by left. Qed.
Lemma ex_v : vpage 0x800.
Proof. unfold vpage. lia. Qed.

Lemma ex_one_count p : mapcount ex_roots ex_one p = if decide (p = nbase + 2) then 1 else 0.
Proof.
  destruct ex_entry_spec as [Hv Hp]. unfold mapcount.
  assert (Hin : (nbase, 0x800) ∈ user_slots ex_roots) by exact (proj2 (user_slots_in ex_roots nbase 0x800) (conj ex_root ex_v)).
  assert (Hnd : NoDup (user_slots ex_roots)) by (eapply user_slots_NoDup, ex_pt_inv).
  rewrite (count_change (fun _ => false) (maps ex_one p) _ (nbase, 0x800) Hnd Hin).
  - rewrite count_zero by done. unfold maps. cbn [fst snd].
    rewrite (ex_one_pte _ _ ex_root ex_v), decide_True, Hv, Hp by (split; reflexivity). cbn [andb].
    repeat case_decide; case_bool_decide; lia.
  - intros [r v] [Hr Hv']%user_slots_in Hne. unfold maps. cbn [fst snd].
    rewrite (ex_one_pte _ _ Hr Hv'), decide_False, has_0; [reflexivity|]. intros [-> ->]. by apply Hne.
Qed.

Lemma ex_one_inv : pt_inv buddy_pmm_manager ex_npage ex_roots ex_one.
Proof.
  destruct ex_phys_spec as (Hi&Hr&Hf).
  assert (Hc : forall q, 0 <= q < 16384 -> is_Some (ref_of ex_phys q)).
  { intros q Hq. rewrite Hr. case_decide; [eauto|]. by apply ex_is_ref. }
  split; cbn [ex_one phys mem].
  - exact Hi.
  - intros q. rewrite Hr. unfold ex_npage. case_decide; [intros _; lia|]. intros [Hq _]%ex_ref. lia.
  - unfold ex_npage, nbase. lia.
  - apply ex_pt_inv.
  - intros r path p Hr' Ho Hl E. apply ex_in_roots in Hr' as Hr2. rewrite Hf.
    assert (0 <= p - nbase < 8192) by
      (apply ex_one_node in E as [[_ ->]|(_&[[_ ->]|[[_ ->]|[_ ->]]])]; [lia..|exact Hr'|exact Ho|exact Hl]).
    split; [apply Hc; lia|apply ex_not_free; lia].
  - intros r1 p1 r2 p2 p Hr1 Hr2 Ho1 Ho2 Hl1 Hl2 E1 E2. apply ex_in_roots in Hr1 as Hr1', Hr2 as Hr2'.
    apply ex_one_node in E1; [|done|done|lia]. apply ex_one_node in E2; [|done..].
    destruct E1 as [[-> ->]|(->&[[-> ->]|[[-> ->]|[-> ->]]])], E2 as [[-> ?]|(->&[[-> ?]|[[-> ?]|[-> ?]]])];
      try done; try lia; try (cbn in Hl1; lia).
  - intros q n Hn _. rewrite ex_one_count, Hr in *. case_decide; [subst; injection Hn as <-; done|].
    rewrite decide_False by lia. destruct (ex_ref q ltac:(eauto)) as [_ E]. congruence.
Qed.
End one_page.

(** A process with one area, and the state around its one page. *)
Definition ex_owner (flags : Z) : mm := mk_mm [mk_vma 0x800000 0x802000 flags] None nbase 1 1 1 0.
Definition ex_vm (flags fl : Z) : vm bstate := mk_vm (ex_one fl) (Some (ex_owner flags)) 7 cow_stats_init.

Lemma ex_owner_inv flags : mm_inv (ex_owner flags).
Proof. split; cbn; [unfold USERTOP; lia|done|done]. Qed.

Lemma ex_owner_covers flags : covers (mmap_list (ex_owner flags)) 0x800123 (mk_vma 0x800000 0x802000 flags).
Proof. split; [apply elem_of_cons; by left|cbn; lia]. Qed.

Lemma ex_vm_pte flags fl : 0 <= fl < 1024 -> pte_of (pt (ex_vm flags fl)) nbase (0x800123 / PGSIZE) = ex_entry fl.
Proof. intros H. exact (ex_one_pte fl H nbase 0x800 ex_root ex_v). Qed.

Lemma ex_vm_count flags fl : 0 <= fl < 1024 ->
  mapcount ex_roots (pt (ex_vm flags fl)) (ppn_of (pte_of (pt (ex_vm flags fl)) nbase (0x800123 / PGSIZE))) = 1.
Proof.
  intros H. pose proof (ex_one_count fl H) as Hc. pose proof (ex_vm_pte flags fl H) as He.
  remember (pte_of (pt (ex_vm flags fl)) nbase (0x800123 / PGSIZE)) as e eqn:Ee. clear Ee.
  rewrite He, (proj2 (ex_entry_spec fl H)). change (pt (ex_vm flags fl)) with (ex_one fl). rewrite Hc. reflexivity.
Qed.

(** The flags of a shared page: user, readable, to be copied; and of a
    read-only page. *)
Definition shared : Z := 0x112.
Definition constant : Z := 0x12.

Lemma do_pgfault_cow_spec_witness :
  let s := ex_vm (VM_READ + VM_WRITE) shared in
  let m := ex_owner (VM_READ + VM_WRITE) in
  let e := pte_of (pt s) nbase (0x800123 / PGSIZE) in
  wp (do_pgfault buddy_pmm_manager ex_npage CAUSE_STORE_PAGE_FAULT 0x800123) (fun ret s' => faulted s m (pt s') s' /\
    ((ret = 0 /\ exists q, let e' := pte_create (page2ppn q) (Z.lor PTE_V (perm_of (VM_READ + VM_WRITE))) in
        has e' PTE_W = true /\ alone buddy_pmm_manager ex_npage ex_roots (pt s) (pt s') nbase (0x800123 / PGSIZE) q e' /\
        forall i, idx i -> mem (pt s') ((q + nbase) * 512 + i) = mem (pt s) (ppn_of e * 512 + i)) \/
     (ret = - E_NO_MEM /\ grows buddy_pmm_manager ex_roots (pt s) (pt s') /\
      pt_inv buddy_pmm_manager ex_npage ex_roots (pt s')))) s.
Proof.
  assert (Hfl : 0 <= shared < 1024) by (unfold shared; lia).
  refine (do_pgfault_cow_spec buddy_pmm_manager ex_npage ex_roots (ex_vm (VM_READ + VM_WRITE) shared)
    (ex_owner (VM_READ + VM_WRITE)) 0x800123 _ (ex_one_inv _ Hfl) eq_refl (ex_owner_inv _) _ ex_root (ex_owner_covers _) _ _).
  - reflexivity.
  - reflexivity.
  - change (pgdir (ex_owner (VM_READ + VM_WRITE))) with nbase. rewrite (ex_vm_pte _ _ Hfl). reflexivity.
Defined.

Lemma do_pgfault_access_witness :
  let s := ex_vm VM_READ constant in
  let m := ex_owner VM_READ in
  wp (do_pgfault buddy_pmm_manager ex_npage CAUSE_STORE_PAGE_FAULT 0x800123) (fun ret s' =>
    pt_inv buddy_pmm_manager ex_npage ex_roots (pt s') /\ faulted s m (pt s') s' /\
    (ret = - E_INVAL <-> denied m 0x800123 CAUSE_STORE_PAGE_FAULT) /\
    (denied m 0x800123 CAUSE_STORE_PAGE_FAULT -> pt s' = pt s) /\
    ((forall r v, r ∈ ex_roots -> vpage v -> pte_of (pt s') r v = pte_of (pt s) r v) \/
     exists a q, covers (mmap_list m) 0x800123 a /\
       alone buddy_pmm_manager ex_npage ex_roots (pt s) (pt s') nbase (0x800123 / PGSIZE) q
         (pte_create (page2ppn q) (Z.lor PTE_V (perm_of (vm_flags a)))))) s.
Proof.
  assert (Hfl : 0 <= constant < 1024) by (unfold constant; lia).
  exact (do_pgfault_access buddy_pmm_manager ex_npage ex_roots (ex_vm VM_READ constant) (ex_owner VM_READ)
    CAUSE_STORE_PAGE_FAULT 0x800123 (ex_one_inv _ Hfl) eq_refl (ex_owner_inv _) eq_refl ex_root).
Defined.

Lemma check_and_do_cow_overrides_witness :
  let s := ex_vm VM_READ constant in
  let e := pte_of (pt s) nbase (0x800123 / PGSIZE) in
  wp (check_and_do_cow buddy_pmm_manager ex_npage 0x800123 true) (fun ret s' => ret = 0 /\ mmv s' = Some (ex_owner VM_READ) /\
    let e' := pte_of (pt s') nbase (0x800123 / PGSIZE) in has e' PTE_W = true /\ ppn_of e' = ppn_of e) s /\
  wp (do_pgfault buddy_pmm_manager ex_npage CAUSE_STORE_PAGE_FAULT 0x800123)
    (fun ret s' => ret = - E_INVAL /\ pt s' = pt s) s.
Proof.
  assert (Hfl : 0 <= constant < 1024) by (unfold constant; lia).
  refine (check_and_do_cow_overrides buddy_pmm_manager ex_npage ex_roots (ex_vm VM_READ constant) (ex_owner VM_READ)
    0x800123 (ex_one_inv _ Hfl) eq_refl ex_root _ _ _ _ _ (ex_owner_inv _) _ _).
  - unfold USERTOP. lia.
  - change (pgdir (ex_owner VM_READ)) with nbase. rewrite (ex_vm_pte _ _ Hfl). reflexivity.
  - change (pgdir (ex_owner VM_READ)) with nbase. rewrite (ex_vm_pte _ _ Hfl). reflexivity.
  - change (pgdir (ex_owner VM_READ)) with nbase. rewrite (ex_vm_pte _ _ Hfl). reflexivity.
  - exact (ex_vm_count VM_READ constant Hfl).
  - reflexivity.
  - right. split; [reflexivity|]. exists (mk_vma 0x800000 0x802000 VM_READ). split; [apply ex_owner_covers|reflexivity].
Defined.
