(* ===== verification/Wait.v ===== *)
(** kern/sync/wait.c, wait.h, sem.c and sem.h: wait queues and semaphores on the
    scheduler of [Sched].  A queue is kept as the list of its entries (Dlist
    relates such lists to the pointers of C); an entry knows whether its link is
    in a list.  [__down] gives the processor away half-way, so it is two
    definitions: up to the call of [schedule], and from its return on.
    [sem_refines] relates semaphores to the abstract ones of [sem_up] and
    [sem_down], which the file Philosophers runs threads against. *)
From S2P Require Import Prelude Sched RoundRobin.

(** ** Data *)

(** [linked]: [wait_link] is in a list, that is [list_empty(&wait->wait_link)] is false. *)
Record wait_t := mk_wait { wproc : pptr; wakeup_flags : Z; wait_queue : Z; linked : bool }.

(** The kernel with the entries on the stacks of the waiting processes, the
    queues by their address, and the values of the semaphores; the queue of a
    semaphore is at the semaphore's address. *)
Record wst := mk_wst { ker : kstate; waits : gmap Z wait_t; heads : gmap Z (list Z); values : gmap Z Z }.

Definition in_ker {A} (m : K kstate A) : K wst A := zoom ker (fun k s => mk_wst k (waits s) (heads s) (values s)) m.
Definition wait_at (w : Z) : K wst wait_t := fun s => unwrap (waits s !! w) s.
Definition put_wait (w : Z) (x : wait_t) : K wst () :=
  modify (fun s => mk_wst (ker s) (<[w := x]> (waits s)) (heads s) (values s)).
Definition queue_at (q : Z) : K wst (list Z) := fun s => unwrap (heads s !! q) s.
Definition put_queue (q : Z) (l : list Z) : K wst () :=
  modify (fun s => mk_wst (ker s) (waits s) (<[q := l]> (heads s)) (values s)).
Definition value_at (sem : Z) : K wst Z := fun s => unwrap (values s !! sem) s.
Definition put_value (sem v : Z) : K wst () :=
  modify (fun s => mk_wst (ker s) (waits s) (heads s) (<[sem := v]> (values s))).

Section model.
Context (sc : sched_class).

(** ** wait.c *)

Definition wait_init (w proc : Z) : K wst () :=
  s ← get; put_wait w (mk_wait proc WT_INTERRUPTED (default 0 (wait_queue <$> waits s !! w)) false).

Definition wait_queue_init (q : Z) : K wst () := put_queue q [].

Definition wait_queue_add (q w : Z) : K wst () :=
  x ← wait_at w;
  assert (negb (linked x) && bool_decide (wproc x <> 0));;
  l ← queue_at q;
  put_wait w (mk_wait (wproc x) (wakeup_flags x) q true);;
  put_queue q (l ++ [w]).

Definition wait_queue_del (q w : Z) : K wst () :=
  x ← wait_at w;
  assert (linked x && bool_decide (wait_queue x = q));;
  l ← queue_at q;
  put_queue q (List.filter (fun a => negb (a =? w)) l);;
  put_wait w (mk_wait (wproc x) (wakeup_flags x) (wait_queue x) false).

(** The entry after [w]. *)
Fixpoint after (w : Z) (l : list Z) : option Z :=
  match l with [] => None | a :: l => if a =? w then hd_error l else after w l end.

Definition wait_queue_next (q w : Z) : K wst (option Z) :=
  x ← wait_at w;
  assert (linked x && bool_decide (wait_queue x = q));;
  l ← queue_at q;
  mret (after w l).
Definition wait_queue_prev (q w : Z) : K wst (option Z) :=
  x ← wait_at w;
  assert (linked x && bool_decide (wait_queue x = q));;
  l ← queue_at q;
  mret (after w (rev l)).
Definition wait_queue_first (q : Z) : K wst (option Z) := l ← queue_at q; mret (hd_error l).
Definition wait_queue_last (q : Z) : K wst (option Z) := l ← queue_at q; mret (hd_error (rev l)).
Definition wait_queue_empty (q : Z) : K wst bool := l ← queue_at q; mret (bool_decide (l = [])).
Definition wait_in_queue (w : Z) : K wst bool := x ← wait_at w; mret (linked x).

Definition wakeup_wait (q w flags : Z) (del : bool) : K wst () :=
  when del (wait_queue_del q w);;
  x ← wait_at w;
  put_wait w (mk_wait (wproc x) flags (wait_queue x) (linked x));;
  in_ker (wakeup_proc sc (wproc x)).

Definition wakeup_first (q flags : Z) (del : bool) : K wst () :=
  o ← wait_queue_first q;
  match o with None => mret () | Some w => wakeup_wait q w flags del end.

(** The two loops of [wakeup_queue]; one step of fuel per entry. *)
Fixpoint wakeup_del (fuel : nat) (q w flags : Z) : K wst () :=
  match fuel with
  | O => timeout
  | S fuel =>
      wakeup_wait q w flags true;;
      o ← wait_queue_first q;
      match o with None => mret () | Some w => wakeup_del fuel q w flags end
  end.
Fixpoint wakeup_keep (fuel : nat) (q w flags : Z) : K wst () :=
  match fuel with
  | O => timeout
  | S fuel =>
      wakeup_wait q w flags false;;
      o ← wait_queue_next q w;
      match o with None => mret () | Some w => wakeup_keep fuel q w flags end
  end.
Definition wakeup_queue (q flags : Z) (del : bool) : K wst () :=
  l ← queue_at q;
  o ← wait_queue_first q;
  match o with
  | None => mret ()
  | Some w => if del then wakeup_del (length l) q w flags else wakeup_keep (length l) q w flags
  end.

Definition wait_current_set (q w ws : Z) : K wst () :=
  s ← get;
  wait_init w (current (ker s));;
  in_ker (in_sch (proc_upd (current (ker s)) (set_state PROC_SLEEPING ws)));;
  wait_queue_add q w.

Definition wait_current_del (q w : Z) : K wst () := b ← wait_in_queue w; when b (wait_queue_del q w).

(** ** sem.c; interrupts are off except around [schedule] *)

Definition sem_init (sem value : Z) : K wst () := put_value sem value;; wait_queue_init sem.

Definition __up (sem ws : Z) : K wst () :=
  o ← wait_queue_first sem;
  match o with
  | None => v ← value_at sem; put_value sem (s32 (v + 1))
  | Some w =>
      x ← wait_at w;
      p ← in_ker (in_sch (proc_at (wproc x)));
      assert (bool_decide (wait_state p = ws));;
      wakeup_wait sem w ws true
  end.

(** [__down] up to [schedule]; [Some 0] if it returns without waiting.  [w] is
    the address of the local [__wait]. *)
Definition __down_enter (sem w ws : Z) : K wst (option Z) :=
  v ← value_at sem;
  if 0 <? v then put_value sem (v - 1);; mret (Some 0)
  else wait_current_set sem w ws;; in_ker (schedule sc);; mret None.

(** The rest of [__down], when the process runs again. *)
Definition __down_leave (sem w ws : Z) : K wst Z :=
  wait_current_del sem w;;
  x ← wait_at w;
  if bool_decide (wakeup_flags x <> ws) then mret (wakeup_flags x) else mret 0.

Definition up (sem : Z) : K wst () := __up sem WT_KSEM.
Definition down_enter (sem w : Z) : K wst bool :=
  o ← __down_enter sem w WT_KSEM;
  match o with Some flags => assert (bool_decide (flags = 0));; mret true | None => mret false end.
Definition down_leave (sem w : Z) : K wst () :=
  flags ← __down_leave sem w WT_KSEM; assert (bool_decide (flags = 0)).

Definition try_down (sem : Z) : K wst bool :=
  v ← value_at sem; if 0 <? v then put_value sem (v - 1);; mret true else mret false.
End model.

(** ** The abstract semaphore: a value and the processes that wait. *)

Definition sem : Type := Z * list Z.
Definition sem_up (x : sem) : sem := match x with (v, []) => (v + 1, []) | (v, _ :: l) => (v, l) end.
Definition sem_down (p : Z) (x : sem) : sem := if 0 <? x.1 then (x.1 - 1, x.2) else (x.1, x.2 ++ [p]).

(** ** Invariant and representation *)

Section refinement.
Context (sc : sched_class) `{!SchedPolicy sc}.
Implicit Types (s : wst) (w q p a v : Z).

Definition life_of s p : option (proc_state * Z) := life (sch (ker s)) p.

(** The entry [w] is linked and belongs to [q]. *)
Definition waits_in s w q : Prop := exists x, waits s !! w = Some x /\ linked x = true /\ wait_queue x = q.

(** Queues and entries agree, and a process waits at most once, asleep. *)
Record wait_inv s : Prop := {
  wi_sched : sched_inv sc (ker s);
  wi_link w q l : heads s !! q = Some l -> w ∈ l <-> waits_in s w q;
  wi_nodup q l : heads s !! q = Some l -> NoDup l;
  wi_asleep w x : waits s !! w = Some x -> linked x = true ->
    wproc x <> current (ker s) /\ wproc x <> idleproc (ker s) /\ exists ws, life_of s (wproc x) = Some (PROC_SLEEPING, ws);
  wi_once w w' x x' : waits s !! w = Some x -> waits s !! w' = Some x' -> linked x = true -> linked x' = true ->
    wproc x = wproc x' -> w = w';
}.

(** The semaphore at [a] stands for the abstract one. *)
Definition sem_rep s a (x : sem) : Prop :=
  values s !! a = Some x.1 /\ exists ws, heads s !! a = Some ws /\
    Forall2 (fun w p => wproc <$> waits s !! w = Some p /\ life_of s p = Some (PROC_SLEEPING, WT_KSEM)) ws x.2.

(** Steps that leave the other semaphores alone. *)
Definition others_kept s s' a : Prop := forall b x, b <> a -> sem_rep s b x -> sem_rep s' b x.

Lemma wp_in_ker {A} (m : K kstate A) s (Q : A -> wst -> Prop) :
  wp m (fun r k => Q r (mk_wst k (waits s) (heads s) (values s))) (ker s) -> wp (in_ker m) Q s.
Proof. intros H. unfold in_ker. by kstep. Qed.

Lemma filter_head w l : NoDup (w :: l) -> List.filter (fun a => negb (a =? w)) (w :: l) = l.
Proof.
  intros [Hw _]%NoDup_cons. cbn. rewrite Z.eqb_refl. cbn [negb]. induction l as [|b l IH]; [done|]. cbn.
  rewrite not_elem_of_cons in Hw. destruct Hw as [Hb Hw]. rewrite (proj2 (Z.eqb_neq b w)) by congruence. cbn.
  f_equal. by apply IH.
Qed.

Lemma wp_lookup {A} (f : wst -> gmap Z A) k x s (Q : A -> wst -> Prop) :
  f s !! k = Some x -> Q x s -> wp (fun s => unwrap (f s !! k) s) Q s.
Proof. intros E H. unfold wp, unwrap. by rewrite E. Qed.

(** Taking the first entry out of the queue at [a] and waking its process. *)
Lemma wp_wake_first s a w l x ws (Q : () -> wst -> Prop) :
  wait_inv s -> heads s !! a = Some (w :: l) -> waits s !! w = Some x -> life_of s (wproc x) = Some (PROC_SLEEPING, ws) ->
  (forall r, let s' := mk_wst (set_sch r (ker s)) (<[w := mk_wait (wproc x) WT_KSEM a false]> (waits s)) (<[a := l]> (heads s)) (values s) in
     wait_inv s' -> (forall p, life_of s' p = if decide (p = wproc x) then Some (PROC_RUNNABLE, 0) else life_of s p) -> Q () s') ->
  wp (wakeup_wait sc a w WT_KSEM true) Q s.
Proof.
  intros H Ha Hw Hl HQ. pose proof (wi_nodup _ H _ _ Ha) as Hnd.
  destruct (proj1 (wi_link _ H w a _ Ha)) as (y&Hy&Hlk&Hq); [apply elem_of_cons; by left|].
  rewrite Hw in Hy. injection Hy as <-.
  unfold wakeup_wait. cbn [when]. unfold wait_queue_del, wait_at, queue_at, put_queue, put_wait. kstep. kstep.
  apply (wp_lookup waits w x); [exact Hw|]. kstep. kstep; [by rewrite Hlk, bool_decide_true|].
  kstep. apply (wp_lookup heads a (w :: l)); [exact Ha|]. kstep. kstep. kstep.
  cbn [ker waits heads values]. kstep. eapply (wp_lookup waits); [apply lookup_insert_eq|]. kstep. kstep. cbn [ker waits heads values wproc wait_queue linked].
  rewrite filter_head, insert_insert_eq, Hq by done. apply wp_in_ker. cbn [ker waits heads values].
  apply (wp_wakeup_proc sc _ _ PROC_SLEEPING ws); [apply H|done|done|]. intros r Hr Hlr. apply HQ.
  - split; cbn [ker waits heads values] in *.
    + done.
    + intros w' q l'. rewrite lookup_insert. unfold waits_in. cbn [waits]. setoid_rewrite lookup_insert.
      destruct (decide (a = q)) as [E|E]; [subst q; intros [= <-]|intros Hq'].
      * apply NoDup_cons in Hnd as [Hn _]. pose proof (wi_link _ H w' a _ Ha) as Hk. rewrite elem_of_cons in Hk.
        destruct (decide (w = w')) as [E|E]; [subst w'|]; [|unfold waits_in in Hk; naive_solver]. split; [done|]. by intros (?&[= <-]&?&_).
      * rewrite (wi_link _ H w' q l' Hq'). unfold waits_in. destruct (decide (w = w')) as [E'|E']; [subst w'|done].
        split; intros (z&Hz&Hz1&Hz2); [|by injection Hz as <-]. rewrite Hw in Hz. injection Hz as <-. congruence.
    + intros q l'. rewrite lookup_insert. destruct (decide (a = q)); [|apply (wi_nodup _ H)].
      intros [= <-]. by apply NoDup_cons in Hnd as [_ ?].
    + intros w' x'. rewrite lookup_insert. destruct (decide (w = w')) as [E|E]; [by intros [= <-]|]. intros Hx' Hk'.
      destruct (wi_asleep _ H w' x' Hx' Hk') as (?&?&ws'&Hws). split_and!; [done|done|]. exists ws'. unfold life_of.
      cbn [ker set_sch sch]. rewrite Hlr, decide_False; [done|]. intros Ep. apply E. symmetry. by eapply (wi_once _ H w' w).
    + intros w1 w2 x1 x2. rewrite !lookup_insert. destruct (decide (w = w1)); [by intros [= <-]|].
      destruct (decide (w = w2)); [by intros ? [= <-]|]. apply (wi_once _ H).
  - intros p. unfold life_of. cbn [ker set_sch sch]. rewrite Hlr. done.
Qed.

Lemma sem_rep_same s s' b x : sem_rep s b x -> values s' !! b = values s !! b -> heads s' !! b = heads s !! b ->
  (forall w l, heads s !! b = Some l -> w ∈ l -> waits s' !! w = waits s !! w) ->
  (forall w l y, heads s !! b = Some l -> w ∈ l -> waits s !! w = Some y -> life_of s' (wproc y) = life_of s (wproc y)) ->
  sem_rep s' b x.
Proof.
  intros (Hv&ws&Hh&Hf) Ev Eh Ew El. split; [congruence|]. exists ws. split; [congruence|].
  apply (Forall2_in_impl _ _ _ _ Hf). intros w p Hw [Hp Hl]. rewrite (Ew w ws Hh Hw). split; [done|].
  apply fmap_Some in Hp as (y&Hy&->). by rewrite (El w ws y Hh Hw Hy).
Qed.

(** A process that waits in one queue waits in no other. *)
Lemma other_queue s a b w w' l l' x x' :
  wait_inv s -> a <> b -> heads s !! a = Some l -> heads s !! b = Some l' -> w ∈ l -> w' ∈ l' ->
  waits s !! w = Some x -> waits s !! w' = Some x' -> w <> w' /\ wproc x <> wproc x'.
Proof.
  intros H Hab Ha Hb Hw Hw' Hx Hx'. apply (wi_link _ H _ _ _ Ha) in Hw as (y&Hy&Hk&Hq).
  apply (wi_link _ H _ _ _ Hb) in Hw' as (y'&Hy'&Hk'&Hq'). rewrite Hx in Hy. rewrite Hx' in Hy'.
  injection Hy as <-. injection Hy' as <-. assert (Hne : w <> w') by (intros ->; congruence). split; [done|].
  intros Ep. apply Hne. by eapply (wi_once _ H).
Qed.

Lemma wp_up s a x (Q : () -> wst -> Prop) :
  wait_inv s -> sem_rep s a x -> - 2 ^ 31 <= x.1 < 2 ^ 31 - 1 ->
  (forall s', wait_inv s' -> sem_rep s' a (sem_up x) -> others_kept s s' a ->
     current (ker s') = current (ker s) ->
     (forall p, life_of s' p = if decide (hd_error x.2 = Some p) then Some (PROC_RUNNABLE, 0) else life_of s p) ->
     (forall w l, heads s !! a = Some (w :: l) -> exists p, waits s' !! w = Some (mk_wait p WT_KSEM a false)) -> Q () s') ->
  wp (up sc a) Q s.
Proof.
  intros H [Hv (ws&Hh&Hf)] Hb HQ. destruct x as [v l]. cbn [fst snd] in *.
  unfold up, __up, wait_queue_first, queue_at. do 2 kstep. apply (wp_lookup heads a ws); [exact Hh|]. kstep.
  destruct Hf as [|w p ws l [Hp Hl] Hf]; cbn [hd_error].
  - unfold value_at, put_value. kstep. apply (wp_lookup values a v); [exact Hv|]. kstep. rewrite swrap_small by lia. apply HQ; cbn [sem_up]; [|..].
    + split; apply H.
    + split; [apply lookup_insert_eq|]. by exists [].
    + intros b y Hne Hy. apply (sem_rep_same s); [exact Hy|by apply lookup_insert_ne|done|done|done].
    + done.
    + intros p. done.
    + intros w l Hwl. congruence.
  - apply fmap_Some in Hp as (x&Hx&->). unfold wait_at at 1. kstep. apply (wp_lookup waits w x); [exact Hx|].
    pose proof Hl as Hl'. unfold life_of in Hl'. apply fmap_Some in Hl' as (px&Hpx&[= Es Ew]).
    kstep. apply wp_in_ker. unfold in_sch. kstep. eapply wp_proc_at; [exact Hpx|].
    replace (set_sch (sch (ker s)) (ker s)) with (ker s) by by destruct (ker s).
    replace (mk_wst (ker s) (waits s) (heads s) (values s)) with s by by destruct s.
    kstep. kstep; [by rewrite <-Ew, bool_decide_true|].
    apply (wp_wake_first s a w ws x WT_KSEM); [done..|]. intros r s' H' Hlife. cbn [sem_up].
    pose proof (wi_nodup _ H _ _ Hh) as Hnd.
    assert (Hkeep : forall w' y, w' <> w -> (exists q m, heads s !! q = Some m /\ w' ∈ m) -> waits s !! w' = Some y ->
      waits s' !! w' = waits s !! w' /\ life_of s' (wproc y) = life_of s (wproc y)).
    { intros w' y Hne (q&m&Hm&Hin) Hy. split; [by apply lookup_insert_ne|]. rewrite Hlife, decide_False; [done|].
      intros Ep. apply Hne. apply (wi_link _ H _ _ _ Hm) in Hin as (y'&Hy'&Hk'&_). rewrite Hy in Hy'. injection Hy' as <-.
      destruct (proj1 (wi_link _ H w a _ Hh)) as (z&Hz&Hk&_); [apply elem_of_cons; by left|]. rewrite Hx in Hz. injection Hz as <-.
      by eapply (wi_once _ H). }
    apply HQ; [done| | |done| |].
    + split; [done|]. exists ws. split; [apply lookup_insert_eq|].
      apply NoDup_cons in Hnd as [Hn _].
      assert (Hall : forall w', w' ∈ ws -> w' <> w /\ exists q m, heads s !! q = Some m /\ w' ∈ m).
      { intros w' Hw'. split; [by intros ->|]. exists a, (w :: ws). split; [done|apply elem_of_cons; by right]. }
      apply (Forall2_in_impl _ _ _ _ Hf). intros w1 p1 Hw1 [Hp1 Hl1]. destruct (Hall w1 Hw1) as [Hne Hq].
      apply fmap_Some in Hp1 as (y&Hy&->). destruct (Hkeep w1 y Hne Hq Hy) as [-> ->]. rewrite Hy. done.
    + intros b y Hne Hy. apply (sem_rep_same s); [exact Hy|done|by apply lookup_insert_ne| |].
      * intros w' m Hm Hw'. apply lookup_insert_ne. destruct (proj1 (wi_link _ H w' b m Hm) Hw') as (y'&Hy'&_).
        eapply (other_queue s a b w w'); [done|done|exact Hh|exact Hm|apply elem_of_cons; by left|done|exact Hx|exact Hy'].
      * intros w' m y' Hm Hw' Hy'. rewrite Hlife, decide_False; [done|]. apply not_eq_sym.
        eapply (other_queue s a b w w'); [done|done|exact Hh|exact Hm|apply elem_of_cons; by left|done|exact Hx|exact Hy'].
    + intros q. rewrite Hlife. cbn [hd_error]. repeat case_decide; congruence.
    + intros w' m Hm. rewrite Hh in Hm. injection Hm as <- <-. exists (wproc x). apply lookup_insert_eq.
Qed.

Lemma wp_down_enter s a w x (Q : bool -> wst -> Prop) :
  wait_inv s -> sem_rep s a x -> current (ker s) <> idleproc (ker s) ->
  (forall y, waits s !! w = Some y -> linked y = false) ->
  (forall s', wait_inv s' -> sem_rep s' a (sem_down (current (ker s)) x) -> others_kept s s' a ->
     (forall p, p <> current (ker s) -> life_of s' p = life_of s p) ->
     (0 < x.1 -> ker s' = ker s) ->
     (~ 0 < x.1 -> current (ker s') <> current (ker s) /\ life_of s' (current (ker s)) = Some (PROC_SLEEPING, WT_KSEM)) ->
     Q (0 <? x.1) s') ->
  wp (down_enter sc a w) Q s.
Proof.
  intros H [Hv (ws&Hh&Hf)] Hidle Hw HQ. destruct x as [v l]. cbn [fst snd] in *.
  unfold down_enter, __down_enter, value_at. kstep. kstep. apply (wp_lookup values a v); [exact Hv|].
  destruct (Z.ltb_spec 0 v) as [Hpos|Hneg].
  { unfold put_value. kstep. kstep. apply wp_ret. kstep. kstep; [done|]. apply wp_ret. apply HQ; try done; cbn [fst snd].
    - split; apply H.
    - unfold sem_down. cbn [fst snd]. rewrite (proj2 (Z.ltb_lt _ _)) by done.
      split; [apply lookup_insert_eq|]. by exists ws.
    - intros b y Hne Hy. apply (sem_rep_same s); [exact Hy|by apply lookup_insert_ne|done|done|done]. }
  set (cur := current (ker s)) in *. assert (Hcur0 : cur <> 0) by (eapply not_null; apply H).
  unfold wait_current_set. kstep. kstep. kstep. unfold wait_init. kstep. kstep. unfold put_wait. kstep. fold cur.
  kstep. kstep. apply wp_in_ker. cbn [ker waits heads values]. apply (wp_halt_current sc); [apply H|done|]. intros r Hr Hlr. fold cur in Hlr.
  unfold wait_queue_add, wait_at, queue_at, put_wait, put_queue. kstep. eapply (wp_lookup waits); [apply lookup_insert_eq|].
  kstep. cbn [linked wproc wakeup_flags]. kstep; [by rewrite bool_decide_true|].
  kstep. apply (wp_lookup heads a ws); [exact Hh|]. kstep. kstep. kstep. cbn [ker waits heads values].
  rewrite insert_insert_eq. kstep. apply wp_in_ker. cbn [ker waits heads values].
  apply (wp_schedule sc); [done|]. intros r' n Hn Hl' Hor. cbn [sch set_sch idleproc] in Hl', Hor. kstep. apply wp_ret. apply wp_ret.
  set (x := mk_wait cur WT_INTERRUPTED a true). set (s' := mk_wst _ _ _ _).
  assert (Hlife : forall p, life_of s' p = if decide (p = cur) then Some (PROC_SLEEPING, WT_KSEM) else life_of s p).
  { intros p. unfold life_of. cbn [ker s' set_current set_sch sch]. by rewrite Hl', Hlr. }
  assert (Hnn : forall p st, life_of s' p = Some (PROC_SLEEPING, st) -> p <> idleproc (ker s) -> p <> n).
  { intros p st Hp Hpi ->. destruct Hor as [[-> _]|[_ [ws' Hws]]]; [done|]. unfold runnable in Hws. cbn [sch set_sch] in Hws.
    unfold life_of in Hp. cbn [ker s' set_current set_sch sch] in Hp. rewrite Hl' in Hp. congruence. }
  assert (Hnew : forall w' y, waits s !! w' = Some y -> linked y = true -> w' <> w /\ wproc y <> cur).
  { intros w' y Hy Hk. split; [intros ->; specialize (Hw y Hy); congruence|]. by apply (wi_asleep _ H w' y). }
  apply HQ.
  - split; cbn [s' ker waits heads values].
    + done.
    + intros w' q l'. rewrite lookup_insert. unfold waits_in. cbn [waits s'].
      setoid_rewrite lookup_insert. destruct (decide (a = q)) as [E|E]; [subst q; intros [= <-]|intros Hq].
      * rewrite elem_of_app, list_elem_of_singleton, (wi_link _ H w' a ws Hh). unfold waits_in.
        destruct (decide (w = w')) as [<-|E]; [|naive_solver]. split; [intros _; by exists x|by right].
      * rewrite (wi_link _ H w' q l' Hq). unfold waits_in.
        destruct (decide (w = w')) as [<-|E']; [|done].
        split; [intros (y&Hy&Hk&_); specialize (Hw y Hy); congruence|]. intros (y&[= <-]&_&Hq'). by destruct E.
    + intros q l'. rewrite lookup_insert. destruct (decide (a = q)) as [E|E]; [|apply (wi_nodup _ H)].
      intros [= <-]. apply NoDup_app. split_and!; [by eapply wi_nodup| |apply NoDup_singleton].
      intros w' Hin Hw'%list_elem_of_singleton. subst w'. apply (wi_link _ H w a ws Hh) in Hin as (y&Hy&Hk&_).
      specialize (Hw y Hy). congruence.
    + intros w' y. rewrite lookup_insert. cbn [ker current set_current idleproc set_sch].
      destruct (decide (w = w')) as [E|E].
      * intros [= <-] _. cbn [wproc x]. assert (life_of s' cur = Some (PROC_SLEEPING, WT_KSEM)) as E' by by rewrite Hlife, decide_True.
        split_and!; [by eapply Hnn|done|eauto].
      * intros Hy Hk. destruct (wi_asleep _ H w' y Hy Hk) as (?&?&ws'&Hws). destruct (Hnew w' y Hy Hk) as [_ Hc].
        assert (life_of s' (wproc y) = Some (PROC_SLEEPING, ws')) as E' by by rewrite Hlife, decide_False.
        split_and!; [by eapply Hnn|done|eauto].
    + intros w1 w2 x1 x2. rewrite !lookup_insert.
      destruct (decide (w = w1)) as [<-|E1], (decide (w = w2)) as [<-|E2]; [done| | |apply (wi_once _ H)].
      * intros [= <-] H2 _ Hk2 Ep. by destruct (Hnew w2 x2 H2 Hk2).
      * intros H1 [= <-] Hk1 _ Ep. by destruct (Hnew w1 x1 H1 Hk1).
  - unfold sem_down. cbn [fst snd]. rewrite (proj2 (Z.ltb_ge _ _)) by lia. split; [done|].
    exists (ws ++ [w]). split; [apply lookup_insert_eq|]. cbn [snd]. apply Forall2_app.
    + apply (Forall2_in_impl _ _ _ _ Hf). intros w1 p1 Hw1 [Hp1 Hl1]. apply fmap_Some in Hp1 as (y&Hy&->).
      apply (wi_link _ H _ _ _ Hh) in Hw1 as (y'&Hy'&Hk&_). rewrite Hy in Hy'. injection Hy' as <-.
      destruct (Hnew w1 y Hy Hk) as [Hne Hc]. cbn [s' waits]. rewrite lookup_insert_ne, Hy by done.
      split; [done|]. by rewrite Hlife, decide_False.
    + constructor; [|constructor]. cbn [s' waits]. rewrite lookup_insert_eq. split; [done|]. by rewrite Hlife, decide_True.
  - intros b y Hne Hy. apply (sem_rep_same s); [exact Hy|done|by apply lookup_insert_ne| |].
    + intros w' m Hm Hw'. apply lookup_insert_ne. apply (wi_link _ H _ _ _ Hm) in Hw' as (z&Hz&Hk&_).
      apply not_eq_sym. by eapply Hnew.
    + intros w' m z Hm Hw' Hz. apply (wi_link _ H _ _ _ Hm) in Hw' as (z'&Hz'&Hk&_). rewrite Hz in Hz'. injection Hz' as <-.
      rewrite Hlife, decide_False; [done|]. by eapply Hnew.
  - intros p Hp. by rewrite Hlife, decide_False.
  - lia.
  - intros _. assert (E : life_of s' cur = Some (PROC_SLEEPING, WT_KSEM)) by by rewrite Hlife, decide_True.
    split; [|done]. apply not_eq_sym. by eapply Hnn.
Qed.
End refinement.

(** ** Property *)

(** Property C24. The semaphores of the kernel implement the abstract ones: [up]
    raises the value, or, when processes wait, wakes exactly the one that has
    waited longest and hands the unit over to it; [down] takes a unit at once,
    or, when there is none, puts the running process to sleep behind the others
    and runs another one.  Both leave every other semaphore and process alone,
    and a process that [up] has woken leaves [down] without the assertion
    failing. *)
Theorem sem_refines sc `{!SchedPolicy sc} s a w x :
  wait_inv sc s -> sem_rep s a x -> - 2 ^ 31 <= x.1 < 2 ^ 31 - 1 ->
  current (ker s) <> idleproc (ker s) -> (forall y, waits s !! w = Some y -> linked y = false) ->
  wp (up sc a) (fun _ s' => wait_inv sc s' /\ sem_rep s' a (sem_up x) /\ others_kept s s' a /\
    (forall p, life_of s' p = if decide (hd_error x.2 = Some p) then Some (PROC_RUNNABLE, 0) else life_of s p) /\
    (forall w' l, heads s !! a = Some (w' :: l) -> wp (down_leave a w') (fun _ s'' => s'' = s') s')) s /\
  wp (down_enter sc a w) (fun b s' => b = (0 <? x.1) /\
    wait_inv sc s' /\ sem_rep s' a (sem_down (current (ker s)) x) /\ others_kept s s' a /\
    (forall p, p <> current (ker s) -> life_of s' p = life_of s p) /\
    if b then ker s' = ker s
    else current (ker s') <> current (ker s) /\ life_of s' (current (ker s)) = Some (PROC_SLEEPING, WT_KSEM)) s.
Proof.
  intros H Hx Hb Hid Hw. split.
  - eapply wp_up; [done..|]. intros s' H1 H2 H3 _ H5 H6. split_and!; [done..|]. intros w' l Hl.
    destruct (H6 w' l Hl) as [p Hp].
    unfold down_leave, __down_leave, wait_current_del, wait_in_queue, wait_at. do 4 kstep.
    apply (wp_lookup waits w' _ _ _ Hp). apply wp_ret. cbn [linked when]. apply wp_ret. kstep.
    apply (wp_lookup waits w' _ _ _ Hp). cbn [wakeup_flags]. rewrite bool_decide_false by (intros E; by apply E).
    apply wp_ret. by kstep.
  - eapply wp_down_enter; [done..|]. intros s' H1 H2 H3 H4 H5 H6. split_and!; [done..|].
    destruct (Z.ltb_spec 0 x.1); [by apply H5|by apply H6; lia].
Qed.

(** ** Witness: the machine of [RoundRobin], whose sleeper waits for the
    semaphore at 100 with the entry at 200. *)

Definition ex_rqs' : rqs := set_procs (<[5 := ex_proc PROC_SLEEPING WT_KSEM false 0]> (procs ex_rqs)) ex_rqs.
Definition ex_wst : wst :=
  mk_wst (set_sch ex_rqs' ex_state) {[200 := mk_wait 5 WT_INTERRUPTED 100 true]} {[100 := [200]]} {[100 := 0]}.

Lemma ex_life p : life ex_rqs' p = if decide (p = 5) then Some (PROC_SLEEPING, WT_KSEM) else life ex_rqs p.
Proof.
  unfold life, ex_rqs'. cbn [procs set_procs]. rewrite lookup_insert.
  destruct (decide (5 = p)) as [<-|]; [by rewrite decide_True|by rewrite decide_False].
Qed.

Lemma ex_sched_inv' : sched_inv default_sched_class (set_sch ex_rqs' ex_state).
Proof.
  pose proof ex_sched_inv as H.
  destruct (neutral_law ex_rqs 5 (set_state PROC_SLEEPING WT_KSEM) (ex_proc PROC_SLEEPING WT_TIMER false 0)
    (si_policy _ _ H) eq_refl ltac:(done)) as [Hp Hq].
  split; [exact Hp|apply H| |by eexists|by eexists|done].
  intros p. cbn [sch set_sch]. change (queued ex_rqs') with (queued (sch ex_state)). rewrite (si_queued _ _ H). unfold runnable.
  cbn [sch set_sch]. rewrite ex_life. destruct (decide (p = 5)) as [->|]; [|done]. cbn. naive_solver.
Qed.

Lemma ex_wait_inv : wait_inv default_sched_class ex_wst.
Proof.
  assert (Hw : forall w x, waits ex_wst !! w = Some x -> w = 200 /\ x = mk_wait 5 WT_INTERRUPTED 100 true).
  { intros w x. cbn [waits ex_wst]. rewrite lookup_singleton. case_decide; [|done]. intros [= <-]. done. }
  split.
  - exact ex_sched_inv'.
  - intros w q l. cbn [heads ex_wst]. rewrite lookup_singleton. case_decide as E; [|done]. intros [= <-].
    rewrite list_elem_of_singleton. split.
    + intros ->. by eexists.
    + by intros (x&[-> ->]%Hw&_).
  - intros q l. cbn [heads ex_wst]. rewrite lookup_singleton. case_decide; [|done]. intros [= <-]. apply NoDup_singleton.
  - intros w x [-> ->]%Hw _. split_and!; [done|done|by eexists].
  - intros w w' x x' [-> _]%Hw [-> _]%Hw. done.
Qed.

Lemma sem_refines_witness :
  let x := (0, [5]) in
  wp (up default_sched_class 100) (fun _ s' =>
    wait_inv default_sched_class s' /\ sem_rep s' 100 (sem_up x) /\ others_kept ex_wst s' 100 /\
    (forall p, life_of s' p = if decide (hd_error x.2 = Some p) then Some (PROC_RUNNABLE, 0) else life_of ex_wst p) /\
    (forall w' l, heads ex_wst !! 100 = Some (w' :: l) -> wp (down_leave 100 w') (fun _ s'' => s'' = s') s')) ex_wst /\
  wp (down_enter default_sched_class 100 300) (fun b s' => b = (0 <? x.1) /\
    wait_inv default_sched_class s' /\ sem_rep s' 100 (sem_down 2 x) /\ others_kept ex_wst s' 100 /\
    (forall p, p <> 2 -> life_of s' p = life_of ex_wst p) /\
    if b then ker s' = ker ex_wst
    else current (ker s') <> 2 /\ life_of s' 2 = Some (PROC_SLEEPING, WT_KSEM)) ex_wst.
Proof.
  refine (sem_refines default_sched_class ex_wst 100 300 (0, [5]) ex_wait_inv _ _ _ _).
  - split; [reflexivity|]. exists [200]. split; [reflexivity|]. constructor; [|constructor]. split; reflexivity.
  - cbn. lia.
  - discriminate.
  - intros y Hy. discriminate.
Defined.
