(* ===== verification/Philosophers.v ===== *)
(** kern/sync/monitor.c and check_sync.c: monitors with condition variables, and
    the dining philosophers with semaphores and with a monitor.  A kernel thread
    is the tree of its accesses to shared variables and of its semaphore
    operations; [step] runs one access of one thread, so runs interleave in every
    way.  The semaphores are the abstract ones of [Wait], which the kernel's
    implement ([sem_refines]).  The properties are about the semaphore version:
    no two neighbours eat at the same time, and every run ends, with everybody
    done. *)
From stdpp Require Import functions relations.
From S2P Require Import Prelude Wait.

(** ** Threads *)

Inductive sem_id := mutex | s_ (i : Z) | mt_mutex | mt_next | cv_sem (i : Z).
Inductive var := state_sema (i : Z) | state_condvar (i : Z) | next_count | cv_count (i : Z).

#[export] Instance sem_id_eq_dec : EqDecision sem_id.
Proof. solve_decision. Defined.
#[export] Instance var_eq_dec : EqDecision var.
Proof. solve_decision. Defined.

Inductive thread (A : Type) : Type :=
  | Ret (a : A)
  | Read (x : var) (k : Z -> thread A)
  | Write (x : var) (v : Z) (k : thread A)
  | Up (m : sem_id) (k : thread A)
  | Down (m : sem_id) (k : thread A)
  | Sleep (n : Z) (k : thread A).
Arguments Ret {A}.
Arguments Read {A}.
Arguments Write {A}.
Arguments Up {A}.
Arguments Down {A}.
Arguments Sleep {A}.

#[export] Instance thread_ret : MRet thread := @Ret.
#[export] Instance thread_bind : MBind thread := fun A B f =>
  fix bind t := match t with
  | Ret a => f a
  | Read x k => Read x (fun v => bind (k v))
  | Write x v k => Write x v (bind k)
  | Up m k => Up m (bind k)
  | Down m k => Down m (bind k)
  | Sleep n k => Sleep n (bind k)
  end.

Definition read (x : var) : thread Z := Read x Ret.
Definition write (x : var) (v : Z) : thread () := Write x v (Ret ()).
Definition up (m : sem_id) : thread () := Up m (Ret ()).
Definition down (m : sem_id) : thread () := Down m (Ret ()).
Definition do_sleep (n : Z) : thread () := Sleep n (Ret ()).
Definition incr (x : var) (d : Z) : thread () := v ← read x; write x (s32 (v + d)).

(** ** monitor.c, for the monitor [mt] of check_sync.c *)

Definition cond_signal (i : Z) : thread () :=
  c ← read (cv_count i);
  if 0 <? c then
    incr next_count 1;;
    up (cv_sem i);;
    down mt_next;;
    incr next_count (-1)
  else mret ().

Definition cond_wait (i : Z) : thread () :=
  incr (cv_count i) 1;;
  n ← read next_count;
  (if 0 <? n then up mt_next else up mt_mutex);;
  down (cv_sem i);;
  incr (cv_count i) (-1).

(** ** check_sync.c *)

Definition N := 5.
Definition LEFT (i : Z) : Z := (i - 1 + N) mod N.
Definition RIGHT (i : Z) : Z := (i + 1) mod N.
Definition THINKING := 0.
Definition HUNGRY := 1.
Definition EATING := 2.
Definition TIMES : nat := 4.
Definition SLEEP_TIME := 10.

Definition phi_test_sema (i : Z) : thread () :=
  a ← read (state_sema i);
  if bool_decide (a = HUNGRY) then
    l ← read (state_sema (LEFT i));
    if bool_decide (l <> EATING) then
      r ← read (state_sema (RIGHT i));
      if bool_decide (r <> EATING) then
        write (state_sema i) EATING;;
        up (s_ i)
      else mret ()
    else mret ()
  else mret ().

Definition phi_take_forks_sema (i : Z) : thread () :=
  down mutex;;
  write (state_sema i) HUNGRY;;
  phi_test_sema i;;
  up mutex;;
  down (s_ i).

Definition phi_put_forks_sema (i : Z) : thread () :=
  down mutex;;
  write (state_sema i) THINKING;;
  phi_test_sema (LEFT i);;
  phi_test_sema (RIGHT i);;
  up mutex.

(** [n] turns of the loop are left. *)
Fixpoint dine_sema (n : nat) (i : Z) : thread () :=
  match n with
  | O => mret ()
  | S n =>
      do_sleep SLEEP_TIME;;
      phi_take_forks_sema i;;
      do_sleep SLEEP_TIME;;
      phi_put_forks_sema i;;
      dine_sema n i
  end.
Definition philosopher_using_semaphore (i : Z) : thread () := dine_sema TIMES i.

Definition phi_test_condvar (i : Z) : thread () :=
  a ← read (state_condvar i);
  if bool_decide (a = HUNGRY) then
    l ← read (state_condvar (LEFT i));
    if bool_decide (l <> EATING) then
      r ← read (state_condvar (RIGHT i));
      if bool_decide (r <> EATING) then
        write (state_condvar i) EATING;;
        cond_signal i
      else mret ()
    else mret ()
  else mret ().

(** The last lines of both monitor procedures. *)
Definition leave_monitor : thread () :=
  n ← read next_count; if 0 <? n then up mt_next else up mt_mutex.

Definition phi_take_forks_condvar (i : Z) : thread () :=
  down mt_mutex;;
  write (state_condvar i) HUNGRY;;
  phi_test_condvar i;;
  a ← read (state_condvar i);
  (if bool_decide (a <> EATING) then cond_wait i else mret ());;
  leave_monitor.

Definition phi_put_forks_condvar (i : Z) : thread () :=
  down mt_mutex;;
  write (state_condvar i) THINKING;;
  phi_test_condvar (LEFT i);;
  phi_test_condvar (RIGHT i);;
  leave_monitor.

Fixpoint dine_condvar (n : nat) (i : Z) : thread () :=
  match n with
  | O => mret ()
  | S n =>
      do_sleep SLEEP_TIME;;
      phi_take_forks_condvar i;;
      do_sleep SLEEP_TIME;;
      phi_put_forks_condvar i;;
      dine_condvar n i
  end.
Definition philosopher_using_condvar (i : Z) : thread () := dine_condvar TIMES i.

(** ** Interleaved runs *)

(** [Waiting m t]: asleep in the queue of [m]; [t] is what follows the [down]. *)
Inductive status := Running (t : thread ()) | Waiting (m : sem_id) (t : thread ()).

Record conf := mk_conf { thr : Z -> status; sems : sem_id -> sem; vars : var -> Z }.

Definition resume (x : status) : status := match x with Waiting _ t => Running t | _ => x end.

(** One access of thread [p]; [None] if it has ended or waits. *)
Definition run (p : Z) (c : conf) : option conf :=
  match thr c p with
  | Running (Read x k) => Some (mk_conf (<[p := Running (k (vars c x))]> (thr c)) (sems c) (vars c))
  | Running (Write x v k) => Some (mk_conf (<[p := Running k]> (thr c)) (sems c) (<[x := v]> (vars c)))
  | Running (Up m k) =>
      let thr' := <[p := Running k]> (thr c) in
      let woken := match (sems c m).2 with [] => thr' | q :: _ => <[q := resume (thr' q)]> thr' end in
      Some (mk_conf woken (<[m := sem_up (sems c m)]> (sems c)) (vars c))
  | Running (Down m k) =>
      let st := if 0 <? (sems c m).1 then Running k else Waiting m k in
      Some (mk_conf (<[p := st]> (thr c)) (<[m := sem_down p (sems c m)]> (sems c)) (vars c))
  | Running (Sleep n k) => Some (mk_conf (<[p := Running k]> (thr c)) (sems c) (vars c))
  | _ => None
  end.

Definition philosopher (i : Z) : Prop := 0 <= i < N.

Definition step (c c' : conf) : Prop := exists p, philosopher p /\ run p c = Some c'.

(** [check_sync], the semaphore part: the threads have been created. *)
Definition init_sema : conf := mk_conf
  (fun i => Running (philosopher_using_semaphore i))
  (fun m => if decide (m = mutex) then (1, []) else (0, []))
  (fun _ => 0).

(** [check_sync], the monitor part, after [monitor_init]. *)
Definition init_condvar : conf := mk_conf
  (fun i => Running (philosopher_using_condvar i))
  (fun m => if decide (m = mt_mutex) then (1, []) else (0, []))
  (fun _ => 0).

(** A fair schedule, to run the model: thread after thread, [n] rounds. *)
Fixpoint round (l : list Z) (c : conf) : conf :=
  match l with [] => c | p :: l => round l (default c (run p c)) end.
Fixpoint rounds (n : nat) (c : conf) : conf :=
  match n with O => c | S n => rounds n (round [0; 1; 2; 3; 4] c) end.
Definition ended (c : conf) : bool :=
  forallb (fun p => match thr c p with Running (Ret _) => true | _ => false end) [0; 1; 2; 3; 4].

(** ** The ring *)
Lemma phil_L i : philosopher i -> philosopher (LEFT i).
Proof. unfold philosopher, LEFT, N. intros. zlia. Qed.
Lemma phil_R i : philosopher i -> philosopher (RIGHT i).
Proof. unfold philosopher, RIGHT, N. intros. zlia. Qed.
Lemma L_R i : philosopher i -> LEFT (RIGHT i) = i.
Proof. unfold philosopher, LEFT, RIGHT, N. intros. zlia. Qed.
Lemma R_L i : philosopher i -> RIGHT (LEFT i) = i.
Proof. unfold philosopher, LEFT, RIGHT, N. intros. zlia. Qed.
Lemma L_ne i : philosopher i -> LEFT i <> i.
Proof. unfold philosopher, LEFT, N. intros. zlia. Qed.
Lemma R_ne i : philosopher i -> RIGHT i <> i.
Proof. unfold philosopher, RIGHT, N. intros. zlia. Qed.
Lemma L_ne_R i : philosopher i -> LEFT i <> RIGHT i.
Proof. unfold philosopher, LEFT, RIGHT, N. intros. zlia. Qed.

(** ** Where a philosopher is *)

(** Whom a call of [phi_test_sema] is about, seen from the caller. *)
Inductive whom := Own | Lft | Rgt.
Definition target (w : whom) (h : Z) : Z := match w with Own => h | Lft => LEFT h | Rgt => RIGHT h end.

(** Before the first read of [phi_test_sema], its second, its third, the
    write, the [up]. *)
Inductive stage := T0 | T1 | T2 | T3 | T4.

Inductive pc :=
  | Think (n : nat) | Lock (n : nat) | WLock (n : nat) | Want (n : nat)
  | Test (w : whom) (t : stage) (n : nat)
  | Unlock (n : nat) | Get (n : nat) | WGet (n : nat)
  | Eat (n : nat) | Lock2 (n : nat) | WLock2 (n : nat) | Quit (n : nat) | Unlock2 (n : nat)
  | Fin.

Definition test_from (t : stage) (j : Z) : thread () :=
  match t with
  | T0 => phi_test_sema j
  | T1 =>
      l ← read (state_sema (LEFT j));
      if bool_decide (l <> EATING) then
        r ← read (state_sema (RIGHT j));
        if bool_decide (r <> EATING) then write (state_sema j) EATING;; up (s_ j) else mret ()
      else mret ()
  | T2 =>
      r ← read (state_sema (RIGHT j));
      if bool_decide (r <> EATING) then write (state_sema j) EATING;; up (s_ j) else mret ()
  | T3 => write (state_sema j) EATING;; up (s_ j)
  | T4 => up (s_ j)
  end.

(** What follows the test of each caller. *)
Definition eat (n : nat) (i : Z) : thread () := do_sleep SLEEP_TIME;; phi_put_forks_sema i;; dine_sema n i.
Definition closing (w : whom) (i : Z) : thread () :=
  match w with
  | Own => up mutex;; down (s_ i)
  | Lft => phi_test_sema (RIGHT i);; up mutex
  | Rgt => up mutex
  end.
Definition afterwards (w : whom) (n : nat) (i : Z) : thread () := match w with Own => eat n i | _ => dine_sema n i end.
Definition finish (w : whom) (n : nat) (i : Z) (t : thread ()) : thread () :=
  (t;; closing w i);; afterwards w n i.

Definition code (i : Z) (p : pc) : status :=
  match p with
  | Think n => Running (dine_sema (S n) i)
  | Lock n => Running (phi_take_forks_sema i;; eat n i)
  | WLock n => Waiting mutex (Write (state_sema i) HUNGRY (finish Own n i (phi_test_sema i)))
  | Want n => Running (Write (state_sema i) HUNGRY (finish Own n i (phi_test_sema i)))
  | Test w t n => Running (finish w n i (test_from t (target w i)))
  | Unlock n => Running (up mutex;; down (s_ i);; eat n i)
  | Get n => Running (down (s_ i);; eat n i)
  | WGet n => Waiting (s_ i) (eat n i)
  | Eat n => Running (eat n i)
  | Lock2 n => Running (phi_put_forks_sema i;; dine_sema n i)
  | WLock2 n => Waiting mutex (Write (state_sema i) THINKING (finish Lft n i (phi_test_sema (LEFT i))))
  | Quit n => Running (Write (state_sema i) THINKING (finish Lft n i (phi_test_sema (LEFT i))))
  | Unlock2 n => Running (up mutex;; dine_sema n i)
  | Fin => Running (Ret ())
  end.

(** Where a turn ends. *)
Definition next_turn (n : nat) : pc := match n with O => Fin | S n => Think n end.
Definition after_whom (w : whom) (n : nat) : pc :=
  match w with Own => Unlock n | Lft => Test Rgt T0 n | Rgt => Unlock2 n end.

(** The bound on the steps a philosopher has left. *)
Definition stage_left (t : stage) : nat := match t with T0 => 5 | T1 => 4 | T2 => 3 | T3 => 2 | T4 => 1 end.
Definition left_in (p : pc) : nat :=
  match p with
  | Think n => 40 * S n
  | Lock n => 39 + 40 * n
  | WLock n => 38 + 40 * n
  | Want n => 37 + 40 * n
  | Test Own t n => 30 + stage_left t + 40 * n
  | Unlock n => 29 + 40 * n
  | Get n => 28 + 40 * n
  | WGet n => 27 + 40 * n
  | Eat n => 26 + 40 * n
  | Lock2 n => 25 + 40 * n
  | WLock2 n => 24 + 40 * n
  | Quit n => 23 + 40 * n
  | Test Lft t n => 10 + stage_left t + 40 * n
  | Test Rgt t n => 2 + stage_left t + 40 * n
  | Unlock2 n => 1 + 40 * n
  | Fin => 0
  end.

(** ** The invariant *)

Definition in_cs (p : pc) : bool :=
  match p with Want _ | Test _ _ _ | Unlock _ | Quit _ | Unlock2 _ => true | _ => false end.
Definition waits_mutex (p : pc) : bool := match p with WLock _ | WLock2 _ => true | _ => false end.

(** The values [state_sema] may have for a philosopher at [p]. *)
Definition state_ok (p : pc) (x : Z) : Prop :=
  match p with
  | Think _ | Lock _ | WLock _ | Want _ | Test Lft _ _ | Test Rgt _ _ | Unlock2 _ | Fin => x = THINKING
  | Test Own _ _ | Unlock _ | Get _ | WGet _ => x = HUNGRY \/ x = EATING
  | Eat _ | Lock2 _ | WLock2 _ | Quit _ => x = EATING
  end.

(** Between the wish to eat and the [down] on one's own semaphore. *)
Definition before_get (p : pc) : bool := match p with Test Own _ _ | Unlock _ | Get _ | WGet _ => true | _ => false end.

(** What the semaphore of [i], at [p], must be. *)
Definition sem_for (x : sem) (p : pc) (i : Z) (granted : Prop) : Prop :=
  match p with
  | WGet _ => x = (0, [i]) /\ ~ granted
  | _ => (granted /\ x = (1, [])) \/ (~ granted /\ x = (0, []))
  end.

Definition is_WGet (p : pc) : bool := match p with WGet _ => true | _ => false end.

Lemma sem_for_shape x p p' i g g' : is_WGet p' = is_WGet p -> (g <-> g') -> sem_for x p i g -> sem_for x p' i g'.
Proof. intros Hw E. destruct p, p'; try discriminate Hw; cbn; rewrite E; done. Qed.

#[export] Instance sem_for_proper x p i : Proper (iff ==> iff) (sem_for x p i).
Proof. intros g g' E. destruct p; cbn; rewrite E; done. Qed.

Section invariant.
Context (c : conf) (P : Z -> pc).

Definition st (i : Z) : Z := vars c (state_sema i).

(** [h] has written EATING for [j] and has its [up] still to do. *)
Definition upping (h j : Z) : Prop := exists w n, P h = Test w T4 n /\ target w h = j.

(** [h] is bound to test [j] before it leaves the critical section. *)
Definition pending (h j : Z) : Prop :=
  match P h with
  | Test Own t _ => j = h /\ t <> T4
  | Test Lft t _ => (j = LEFT h /\ t <> T4) \/ j = RIGHT h
  | Test Rgt t _ => j = RIGHT h /\ t <> T4
  | _ => False
  end.

(** What the caller of [phi_test_sema] knows about its target. *)
Definition known (t : stage) (j : Z) : Prop :=
  match t with
  | T0 => True
  | T1 => st j = HUNGRY
  | T2 => st j = HUNGRY /\ st (LEFT j) <> EATING
  | T3 => st j = HUNGRY /\ st (LEFT j) <> EATING /\ st (RIGHT j) <> EATING
  | T4 => st j = EATING
  end.

Definition mutex_ok : Prop :=
  (sems c mutex = (1, []) /\ forall i, philosopher i -> in_cs (P i) = false /\ waits_mutex (P i) = false) \/
  (exists h ws, philosopher h /\ sems c mutex = (0, ws) /\ in_cs (P h) = true /\
     (forall i, philosopher i -> in_cs (P i) = true -> i = h) /\
     NoDup ws /\ forall i, i ∈ ws <-> philosopher i /\ waits_mutex (P i) = true).

(** The semaphore of [i] holds a unit exactly when [i] may eat and has been told so. *)
Definition own_sem_ok (i : Z) : Prop :=
  sem_for (sems c (s_ i)) (P i) i (before_get (P i) = true /\ st i = EATING /\ ~ exists h, philosopher h /\ upping h i).

Record inv : Prop := {
  in_thr i : philosopher i -> thr c i = code i (P i);
  in_mutex : mutex_ok;
  in_state i : philosopher i -> state_ok (P i) (st i);
  in_apart i : philosopher i -> ~ (st i = EATING /\ st (RIGHT i) = EATING);
  in_sem i : philosopher i -> own_sem_ok i;
  in_known h w t n : philosopher h -> P h = Test w t n -> known t (target w h);
  in_upping h i : philosopher h -> philosopher i -> upping h i -> before_get (P i) = true;
  in_hungry i : philosopher i -> st i = HUNGRY ->
    (exists h, philosopher h /\ pending h i) \/ st (LEFT i) = EATING \/ st (RIGHT i) = EATING;
}.
End invariant.

Section steps.
Implicit Types (c : conf) (P : Z -> pc) (h i j : Z) (n : nat).

(** ** Moves that write no state and touch no philosopher's own semaphore *)

Definition is_T4 (p : pc) : bool := match p with Test _ T4 _ => true | _ => false end.

Record quiet (c : conf) (P P' : Z -> pc) (i : Z) : Prop := {
  qu_state : state_ok (P' i) (st c i);
  qu_get : before_get (P' i) = before_get (P i);
  qu_own : is_WGet (P i) = false /\ is_WGet (P' i) = false;
  qu_T4 : is_T4 (P i) = false /\ is_T4 (P' i) = false;
  qu_known w t n : P' i = Test w t n -> known c t (target w i);
  qu_pending j : philosopher j -> st c j = HUNGRY -> pending P i j ->
    pending P' i j \/ st c (LEFT j) = EATING \/ st c (RIGHT j) = EATING;
}.

Lemma known_ext c c' t j : (forall i, st c' i = st c i) -> known c t j -> known c' t j.
Proof. intros E. destruct t; cbn; rewrite ?E; done. Qed.

Lemma upping_T4 P h j : upping P h j -> is_T4 (P h) = true.
Proof. intros (w&n&->&_). done. Qed.

Lemma inv_quiet c c' P P' :
  inv c P -> (forall i, st c' i = st c i) -> (forall i, sems c' (s_ i) = sems c (s_ i)) ->
  (forall i, philosopher i -> thr c' i = code i (P' i)) -> mutex_ok c' P' ->
  (forall i, philosopher i -> P' i = P i \/ quiet c P P' i) -> inv c' P'.
Proof.
  intros H Ev Es Ht Hm Hq.
  assert (Hup : forall h j, philosopher h -> upping P' h j <-> upping P h j).
  { intros h j Hh. destruct (Hq h Hh) as [E|Q]; [unfold upping; by rewrite E|].
    destruct (qu_T4 _ _ _ _ Q) as [E1 E2]. split; intros Hu%upping_T4; congruence. }
  assert (Hex : forall j, (exists h, philosopher h /\ upping P' h j) <-> (exists h, philosopher h /\ upping P h j)).
  { intros j. split; intros (h&Hh&Hu); exists h; (split; [done|]); by apply Hup. }
  assert (Hbg : forall i, philosopher i -> before_get (P' i) = before_get (P i)).
  { intros i Hi. destruct (Hq i Hi) as [->|Q]; [done|apply Q]. }
  split.
  - exact Ht.
  - exact Hm.
  - intros i Hi. rewrite Ev. destruct (Hq i Hi) as [->|Q]; [by apply H|apply Q].
  - intros i Hi. rewrite !Ev. by apply H.
  - intros i Hi. pose proof (in_sem _ _ H i Hi) as Ho. unfold own_sem_ok in *. rewrite Ev, Es, Hbg by done.
    assert (Eg : (before_get (P i) = true /\ st c i = EATING /\ ~ (exists h, philosopher h /\ upping P' h i)) <->
      (before_get (P i) = true /\ st c i = EATING /\ ~ (exists h, philosopher h /\ upping P h i))) by (rewrite (Hex i); done).
    rewrite Eg. destruct (Hq i Hi) as [->|Q]; [exact Ho|]. destruct (qu_own _ _ _ _ Q) as [E1 E2].
    clear - Ho E1 E2. destruct (P i), (P' i); try discriminate; exact Ho.
  - intros h w t n Hh E. apply (known_ext c c'); [done|]. destruct (Hq h Hh) as [E'|Q].
    + rewrite E' in E. by apply (in_known _ _ H h w t n).
    + by apply (qu_known _ _ _ _ Q w t n).
  - intros h i Hh Hi Hu%Hup; [|done]. rewrite Hbg by done. by apply (in_upping _ _ H h i).
  - intros i Hi Hs. rewrite Ev in Hs. rewrite !Ev. destruct (in_hungry _ _ H i Hi Hs) as [(h&Hh&Hp)|Hn]; [|by right].
    destruct (Hq h Hh) as [E|Q]; [left; exists h; split; [done|]; unfold pending in *; by rewrite E|].
    destruct (qu_pending _ _ _ _ Q i Hi Hs Hp) as [Hp'|Hn]; [left; by exists h|by right].
Qed.

(** One philosopher moves, nothing else changes. *)
Lemma inv_local c P h p' :
  inv c P -> philosopher h -> in_cs p' = in_cs (P h) -> waits_mutex p' = waits_mutex (P h) ->
  quiet c P (<[h := p']> P) h ->
  inv (mk_conf (<[h := code h p']> (thr c)) (sems c) (vars c)) (<[h := p']> P).
Proof.
  intros H Hh Hcs Hwm Hq.
  assert (E1 : forall i, in_cs ((<[h := p']> P : Z -> pc) i) = in_cs (P i)).
  { intros i. destruct (decide (h = i)) as [<-|]; [by rewrite fn_lookup_insert|by rewrite fn_lookup_insert_ne]. }
  assert (E2 : forall i, waits_mutex ((<[h := p']> P : Z -> pc) i) = waits_mutex (P i)).
  { intros i. destruct (decide (h = i)) as [<-|]; [by rewrite fn_lookup_insert|by rewrite fn_lookup_insert_ne]. }
  apply (inv_quiet c _ P); [done|done|done| | |].
  - intros i Hi. cbn [thr]. destruct (decide (h = i)) as [<-|]; [by rewrite !fn_lookup_insert|].
    rewrite !fn_lookup_insert_ne by done. by apply H.
  - pose proof (in_mutex _ _ H) as Hm. unfold mutex_ok in *. cbn [sems]. setoid_rewrite E1. setoid_rewrite E2. exact Hm.
  - intros i Hi. destruct (decide (h = i)) as [<-|]; [by right|left; by apply fn_lookup_insert_ne].
Qed.

(** ** The mutex *)

Definition wake (p : pc) : pc := match p with WLock n => Want n | WLock2 n => Quit n | WGet n => Eat n | _ => p end.

Lemma resume_code i p : code i (wake p) = resume (code i p).
Proof. by destruct p. Qed.

Lemma inv_down c P h k p_go p_wait :
  inv c P -> philosopher h -> code h p_go = Running k -> code h p_wait = Waiting mutex k ->
  in_cs (P h) = false -> waits_mutex (P h) = false ->
  in_cs p_go = true -> in_cs p_wait = false -> waits_mutex p_wait = true -> waits_mutex p_go = false ->
  quiet c P (<[h := p_go]> P) h -> quiet c P (<[h := p_wait]> P) h ->
  let st := if 0 <? (sems c mutex).1 then Running k else Waiting mutex k in
  exists p', (p' = p_go \/ p' = p_wait) /\
    inv (mk_conf (<[h := st]> (thr c)) (<[mutex := sem_down h (sems c mutex)]> (sems c)) (vars c)) (<[h := p']> P).
Proof.
  intros H Hh Ego Ewait Hc0 Hw0 Hgo Hcw Hww Hwg Qgo Qwait st'.
  assert (Hgen : forall p', (p' = p_go \/ p' = p_wait) -> code h p' = st' ->
    mutex_ok (mk_conf (<[h := st']> (thr c)) (<[mutex := sem_down h (sems c mutex)]> (sems c)) (vars c)) (<[h := p']> P) ->
    inv (mk_conf (<[h := st']> (thr c)) (<[mutex := sem_down h (sems c mutex)]> (sems c)) (vars c)) (<[h := p']> P)).
  { intros p' Hor Ep Hm. apply (inv_quiet c _ P); [done|done| | |done|].
    - intros i. cbn [sems]. by rewrite fn_lookup_insert_ne.
    - intros i Hi. cbn [thr]. destruct (decide (h = i)) as [<-|]; [by rewrite !fn_lookup_insert|].
      rewrite !fn_lookup_insert_ne by done. by apply H.
    - intros i Hi. destruct (decide (h = i)) as [<-|]; [right; by destruct Hor as [-> | ->]|left; by apply fn_lookup_insert_ne]. }
  destruct (in_mutex _ _ H) as [[E Hno]|(h0&ws&Hh0&E&Hcs&Hun&Hnd&Hws)].
  - exists p_go. split; [by left|]. unfold st' in *. rewrite E in *. cbn in *. apply Hgen; [by left|done|]. right.
    exists h, []. cbn [sems]. rewrite fn_lookup_insert. split_and!; [done|done|by rewrite fn_lookup_insert| |constructor|].
    + intros i Hi Hci. destruct (decide (h = i)) as [<-|]; [done|]. rewrite fn_lookup_insert_ne in Hci by done.
      destruct (Hno i Hi). congruence.
    + intros i. split; [by intros ?%not_elem_of_nil|]. intros [Hi Hwi]. exfalso.
      destruct (decide (h = i)) as [<-|]; [rewrite fn_lookup_insert in Hwi; congruence|].
      rewrite fn_lookup_insert_ne in Hwi by done. destruct (Hno i Hi). congruence.
  - exists p_wait. split; [by right|]. unfold st' in *. rewrite E in *. cbn in *. apply Hgen; [by right|done|]. right.
    assert (Hne : h <> h0) by (intros ->; congruence).
    exists h0, (ws ++ [h]). cbn [sems]. rewrite fn_lookup_insert. split_and!; [done|done|by rewrite fn_lookup_insert_ne| | |].
    + intros i Hi Hci. apply Hun; [done|]. destruct (decide (h = i)) as [<-|]; [rewrite fn_lookup_insert in Hci; congruence|].
      by rewrite fn_lookup_insert_ne in Hci.
    + apply NoDup_app. split_and!; [done| |apply NoDup_singleton]. intros i [Hi Hwi]%Hws ->%list_elem_of_singleton. congruence.
    + intros i. rewrite elem_of_app, list_elem_of_singleton, Hws. destruct (decide (h = i)) as [<-|].
      * rewrite fn_lookup_insert. naive_solver.
      * rewrite fn_lookup_insert_ne by done. naive_solver.
Qed.

Lemma inv_up c P h k p' :
  inv c P -> philosopher h -> code h p' = Running k -> in_cs (P h) = true -> in_cs p' = false -> waits_mutex p' = false ->
  quiet c P (<[h := p']> P) h ->
  let thr' := <[h := Running k]> (thr c) in
  let woken := match (sems c mutex).2 with [] => thr' | q :: _ => <[q := resume (thr' q)]> thr' end in
  exists P', (forall i, P' i = P i \/ (i = h /\ P' i = p') \/ (waits_mutex (P i) = true /\ P' i = wake (P i))) /\ P' h = p' /\
    inv (mk_conf woken (<[mutex := sem_up (sems c mutex)]> (sems c)) (vars c)) P'.
Proof.
  intros H Hh Ep Hc0 Hc' Hw' Hq thr' woken.
  destruct (in_mutex _ _ H) as [[_ Hno]|(h0&ws&Hh0&E&Hcs&Hun&Hnd&Hws)]; [destruct (Hno h Hh); congruence|].
  assert (h0 = h) as -> by (symmetry; by apply Hun).
  assert (Hquiet : forall P', (forall i, P' i = P i \/ (i = h /\ P' i = p') \/ (waits_mutex (P i) = true /\ P' i = wake (P i))) ->
    forall i, philosopher i -> P' i = P i \/ quiet c P P' i).
  { intros P' Hor i Hi. destruct (Hor i) as [?|[[-> E']|[Hwi E']]]; [by left| |].
    - right. destruct Hq as [q1 q2 q3 q4 q5 q6]. rewrite fn_lookup_insert in *. split; rewrite ?E'; try done.
      intros j Hj Hs Hp. destruct (q6 j Hj Hs Hp) as [Hp'|]; [left|by right]. unfold pending in *. rewrite E'.
      by rewrite fn_lookup_insert in Hp'.
    - right. pose proof (in_state _ _ H i Hi) as Hst. destruct (P i) eqn:EP; try discriminate Hwi; cbn [wake] in E';
        (split; rewrite ?E', ?EP; try done; intros j _ _ Hp; unfold pending in Hp; rewrite EP in Hp; done). }
  unfold woken, thr'. rewrite E. cbn [snd sem_up]. destruct ws as [|w ws].
  - exists (<[h := p']> P). split_and!.
    + intros i. destruct (decide (h = i)) as [<-|]; [right; left; by rewrite fn_lookup_insert|left; by apply fn_lookup_insert_ne].
    + apply fn_lookup_insert.
    + apply (inv_quiet c _ P); [done|done| | | |].
      * intros i. cbn [sems]. by rewrite fn_lookup_insert_ne.
      * intros i Hi. cbn [thr]. destruct (decide (h = i)) as [<-|]; [by rewrite !fn_lookup_insert|].
        rewrite !fn_lookup_insert_ne by done. by apply H.
      * left. cbn [sems]. rewrite fn_lookup_insert. split; [done|]. intros i Hi.
        destruct (decide (h = i)) as [<-|Hne]; [by rewrite fn_lookup_insert|]. rewrite fn_lookup_insert_ne by done. split.
        -- destruct (in_cs (P i)) eqn:Ei; [|done]. apply Hun in Ei; [congruence|done].
        -- destruct (waits_mutex (P i)) eqn:Ei; [|done]. assert (i ∈ []) as []%not_elem_of_nil by by apply Hws.
      * apply Hquiet. intros i. destruct (decide (h = i)) as [<-|]; [right; left; by rewrite fn_lookup_insert|left; by apply fn_lookup_insert_ne].
  - assert (Hw : philosopher w /\ waits_mutex (P w) = true) by (apply Hws, elem_of_cons; by left). destruct Hw as [Hpw Hww].
    assert (Hne : h <> w) by (intros <-; destruct (P h); discriminate).
    assert (Hlook : forall i, (<[w := wake (P w)]> (<[h := p']> P) : Z -> pc) i = P i \/
      (i = h /\ (<[w := wake (P w)]> (<[h := p']> P) : Z -> pc) i = p') \/
      (waits_mutex (P i) = true /\ (<[w := wake (P w)]> (<[h := p']> P) : Z -> pc) i = wake (P i))).
    { intros i. destruct (decide (w = i)) as [<-|]; [right; right; by rewrite fn_lookup_insert|]. rewrite fn_lookup_insert_ne by done.
      destruct (decide (h = i)) as [<-|]; [right; left; by rewrite fn_lookup_insert|left; by apply fn_lookup_insert_ne]. }
    exists (<[w := wake (P w)]> (<[h := p']> P)). split_and!; [exact Hlook|rewrite fn_lookup_insert_ne by done; apply fn_lookup_insert|].
    apply NoDup_cons in Hnd as [Hnw Hnd].
    assert (Hwake : in_cs (wake (P w)) = true /\ waits_mutex (wake (P w)) = false) by (destruct (P w); done).
    apply (inv_quiet c _ P); [done|done| | | |by apply Hquiet].
    + intros i. cbn [sems]. by rewrite fn_lookup_insert_ne.
    + intros i Hi. cbn [thr]. destruct (decide (w = i)) as [<-|].
      * rewrite !fn_lookup_insert, resume_code, fn_lookup_insert_ne by done. f_equal. by apply H.
      * rewrite !(fn_lookup_insert_ne _ w) by done. destruct (decide (h = i)) as [<-|]; [by rewrite !fn_lookup_insert|].
        rewrite !fn_lookup_insert_ne by done. by apply H.
    + right. exists w, ws. cbn [sems]. rewrite !fn_lookup_insert. split_and!; [done|done|by apply Hwake| |done|].
      * intros i Hi Hci. destruct (decide (w = i)) as [|]; [done|]. rewrite fn_lookup_insert_ne in Hci by done.
        destruct (decide (h = i)) as [<-|]; [rewrite fn_lookup_insert in Hci; congruence|].
        rewrite fn_lookup_insert_ne in Hci by done. by apply Hun in Hci.
      * intros i. pose proof (Hws i) as Hi. rewrite elem_of_cons in Hi. destruct (decide (w = i)) as [<-|].
        -- rewrite fn_lookup_insert. destruct Hwake as [_ ->]. split; [done|by intros [_ ?]].
        -- rewrite fn_lookup_insert_ne by done. destruct (decide (h = i)) as [<-|].
           ++ rewrite fn_lookup_insert, Hw'. split; [|by intros [_ ?]]. intros Hin. destruct Hi as [Hi _].
              destruct Hi as [_ Hx]; [by right|]. destruct (P h); discriminate.
           ++ rewrite fn_lookup_insert_ne by done. rewrite <-Hi. split; [by right|]. intros [E'|?]; [by destruct n|done].
Qed.

(** ** Steps inside the critical section *)
Lemma only_holder c P h i : inv c P -> philosopher h -> philosopher i -> in_cs (P h) = true -> in_cs (P i) = true -> i = h.
Proof.
  intros H Hh Hi Ch Ci. destruct (in_mutex _ _ H) as [[_ Hno]|(h0&ws&_&_&_&Hun&_)]; [destruct (Hno h Hh); congruence|].
  rewrite (Hun i), (Hun h); done.
Qed.

Lemma cs_of P h : (exists w t n, P h = Test w t n) -> in_cs (P h) = true.
Proof. by intros (?&?&?&->). Qed.

Lemma upping_cs P h j : upping P h j -> in_cs (P h) = true.
Proof. intros (w&n&E&_). apply cs_of. eauto. Qed.

Lemma pending_cs P h j : pending P h j -> in_cs (P h) = true.
Proof. unfold pending. by destruct (P h). Qed.

(** The holder moves on and may write one state or release one semaphore. *)
Lemma inv_holder c c' P P' h :
  inv c P -> philosopher h -> in_cs (P h) = true -> in_cs (P' h) = true ->
  (forall i, philosopher i -> i <> h -> in_cs (P' i) = in_cs (P i) /\ waits_mutex (P' i) = waits_mutex (P i)) ->
  (forall i, philosopher i -> thr c' i = code i (P' i)) -> sems c' mutex = sems c mutex ->
  (forall i, philosopher i -> state_ok (P' i) (st c' i)) ->
  (forall i, philosopher i -> ~ (st c' i = EATING /\ st c' (RIGHT i) = EATING)) ->
  (forall i, philosopher i ->
     sem_for (sems c' (s_ i)) (P' i) i (before_get (P' i) = true /\ st c' i = EATING /\ ~ upping P' h i)) ->
  (forall w t n, P' h = Test w t n -> known c' t (target w h)) ->
  (forall i, philosopher i -> upping P' h i -> before_get (P' i) = true) ->
  (forall i, philosopher i -> st c' i = HUNGRY -> pending P' h i \/ st c' (LEFT i) = EATING \/ st c' (RIGHT i) = EATING) ->
  inv c' P'.
Proof.
  intros H Hh Ch Ch' Hoth Ht Hm Hst Hap Hsem Hkn Hup Hhu.
  assert (Hun : forall i, philosopher i -> in_cs (P' i) = true -> i = h).
  { intros i Hi Ci. destruct (decide (i = h)) as [|Hne]; [done|]. destruct (Hoth i Hi Hne) as [E _]. rewrite E in Ci.
    by apply (only_holder c P h i). }
  split; try done.
  - destruct (in_mutex _ _ H) as [[_ Hno]|(h0&ws&Hh0&E&Hcs&Hun0&Hnd&Hws)]; [destruct (Hno h Hh); congruence|].
    right. exists h, ws. split_and!; [done|congruence|done|exact Hun|done|]. intros i. rewrite Hws.
    destruct (decide (i = h)) as [->|Hne].
    + assert (waits_mutex (P h) = false /\ waits_mutex (P' h) = false) as [-> ->]; [|done].
      split; [destruct (P h)|destruct (P' h)]; done.
    + split; (intros [Hi Hw]; split; [done|]); destruct (Hoth i Hi Hne); congruence.
  - intros i Hi. unfold own_sem_ok. specialize (Hsem i Hi).
    assert (Eu : (exists h0, philosopher h0 /\ upping P' h0 i) <-> upping P' h i).
    { split; [|by eauto]. intros (h0&Hh0&Hu). by rewrite <-(Hun h0 Hh0 (upping_cs _ _ _ Hu)). }
    rewrite Eu. exact Hsem.
  - intros h0 w t n Hh0 E. assert (h0 = h) as -> by (apply Hun; [done|]; apply cs_of; eauto). by apply (Hkn w t n).
  - intros h0 i Hh0 Hi Hu. assert (h0 = h) as -> by (apply Hun; [done|]; by eapply upping_cs). by apply Hup.
  - intros i Hi Hs. destruct (Hhu i Hi Hs) as [Hp|?]; [left; by exists h|by right].
Qed.

Lemma granted_holder c P h i :
  inv c P -> philosopher h -> in_cs (P h) = true -> philosopher i ->
  sem_for (sems c (s_ i)) (P i) i (before_get (P i) = true /\ st c i = EATING /\ ~ upping P h i).
Proof.
  intros H Hh Ch Hi. pose proof (in_sem _ _ H i Hi) as Ho. unfold own_sem_ok in Ho.
  assert (Eu : (exists h0, philosopher h0 /\ upping P h0 i) <-> upping P h i).
  { split; [|by eauto]. intros (h0&Hh0&Hu). by rewrite <-(only_holder c P h h0 H Hh Hh0 Ch (upping_cs _ _ _ Hu)). }
  rewrite Eu in Ho. exact Ho.
Qed.

Lemma hungry_holder c P h i : inv c P -> philosopher h -> in_cs (P h) = true -> philosopher i -> st c i = HUNGRY ->
  pending P h i \/ st c (LEFT i) = EATING \/ st c (RIGHT i) = EATING.
Proof.
  intros H Hh Ch Hi Hs. destruct (in_hungry _ _ H i Hi Hs) as [(h0&Hh0&Hp)|?]; [|by right]. left.
  by rewrite <-(only_holder c P h h0 H Hh Hh0 Ch (pending_cs _ _ _ Hp)).
Qed.

(** [h] writes the state of [j], a philosopher. *)
Definition wrote (c : conf) (h j x : Z) (p' : pc) : conf :=
  mk_conf (<[h := code h p']> (thr c)) (sems c) (<[state_sema j := x]> (vars c)).

Lemma st_wrote c h j x p' i : st (wrote c h j x p') i = if decide (j = i) then x else st c i.
Proof.
  unfold st, wrote. cbn [vars]. destruct (decide (j = i)) as [->|Hne]; [by rewrite fn_lookup_insert|].
  rewrite fn_lookup_insert_ne; [done|]. intros [= ?]. done.
Qed.

Lemma thr_moved c P h p' i : inv c P -> philosopher i ->
  (<[h := code h p']> (thr c) : Z -> status) i = code i ((<[h := p']> P : Z -> pc) i).
Proof.
  intros H Hi. destruct (decide (h = i)) as [<-|]; [by rewrite !fn_lookup_insert|].
  rewrite !fn_lookup_insert_ne by done. by apply H.
Qed.

Lemma inv_want c P h n : inv c P -> philosopher h -> P h = Want n ->
  inv (wrote c h h HUNGRY (Test Own T0 n)) (<[h := Test Own T0 n]> P).
Proof.
  intros H Hh EP. assert (Ch : in_cs (P h) = true) by by rewrite EP.
  pose proof (in_state _ _ H h Hh) as Hs. rewrite EP in Hs. cbn in Hs.
  apply (inv_holder c _ P _ h); rewrite ?fn_lookup_insert; try done.
  - intros i Hi Hne. by rewrite !fn_lookup_insert_ne.
  - intros i Hi. by apply thr_moved.
  - intros i Hi. rewrite st_wrote. destruct (decide (h = i)) as [<-|]; [rewrite fn_lookup_insert; by left|].
    rewrite fn_lookup_insert_ne by done. by apply H.
  - intros i Hi. rewrite !st_wrote. intros [E1 E2]. destruct (decide (h = i)); [done|]. destruct (decide (h = RIGHT i)); [done|].
    by apply (in_apart _ _ H i Hi).
  - intros i Hi. pose proof (granted_holder c P h i H Hh Ch Hi) as Hg. rewrite st_wrote.
    assert (Hnu : ~ upping P h i) by (intros Hu%upping_T4; by rewrite EP in Hu).
    assert (Hnu' : ~ upping (<[h := Test Own T0 n]> P) h i) by (intros Hu%upping_T4; by rewrite fn_lookup_insert in Hu).
    destruct (decide (h = i)) as [<-|].
    + rewrite fn_lookup_insert. rewrite EP in Hg. right. split; [by intros (?&?&_)|]. by destruct Hg as [[(?&_) _]|[_ ?]].
    + rewrite fn_lookup_insert_ne by done. revert Hg. apply sem_for_proper. tauto.
  - intros w t m [= <- <- _]. done.
  - intros i Hi (w&m&E&_). by rewrite fn_lookup_insert in E.
  - intros i Hi. rewrite !st_wrote. destruct (decide (h = i)) as [<-|Hne].
    + intros _. left. unfold pending. by rewrite fn_lookup_insert.
    + intros Hsi. right. destruct (hungry_holder c P h i H Hh Ch Hi Hsi) as [Hp|Hn].
      * unfold pending in Hp. by rewrite EP in Hp.
      * destruct (decide (h = LEFT i)) as [E|]; [|destruct (decide (h = RIGHT i)) as [E|]; [|done]].
        -- rewrite <-E, Hs in Hn. destruct Hn as [?|Hn]; [done|]. rewrite decide_False; [by right|].
           rewrite E. by apply L_ne_R.
        -- rewrite <-E, Hs in Hn. destruct Hn as [Hn|?]; [by left|done].
Qed.

Lemma inv_quit c P h n : inv c P -> philosopher h -> P h = Quit n ->
  inv (wrote c h h THINKING (Test Lft T0 n)) (<[h := Test Lft T0 n]> P).
Proof.
  intros H Hh EP. assert (Ch : in_cs (P h) = true) by by rewrite EP.
  apply (inv_holder c _ P _ h); rewrite ?fn_lookup_insert; try done.
  - intros i Hi Hne. by rewrite !fn_lookup_insert_ne.
  - intros i Hi. by apply thr_moved.
  - intros i Hi. rewrite st_wrote. destruct (decide (h = i)) as [<-|]; [by rewrite fn_lookup_insert|].
    rewrite fn_lookup_insert_ne by done. by apply H.
  - intros i Hi. rewrite !st_wrote. intros [E1 E2]. destruct (decide (h = i)); [done|]. destruct (decide (h = RIGHT i)); [done|].
    by apply (in_apart _ _ H i Hi).
  - intros i Hi. pose proof (granted_holder c P h i H Hh Ch Hi) as Hg. rewrite st_wrote.
    assert (Hnu : ~ upping P h i) by (intros Hu%upping_T4; by rewrite EP in Hu).
    assert (Hnu' : ~ upping (<[h := Test Lft T0 n]> P) h i) by (intros Hu%upping_T4; by rewrite fn_lookup_insert in Hu).
    destruct (decide (h = i)) as [<-|].
    + rewrite fn_lookup_insert. rewrite EP in Hg. right. split; [by intros (?&?&_)|]. by destruct Hg as [[(?&_) _]|[_ ?]].
    + rewrite fn_lookup_insert_ne by done. revert Hg. apply sem_for_proper. tauto.
  - intros w t m [= <- <- _]. done.
  - intros i Hi (w&m&E&_). by rewrite fn_lookup_insert in E.
  - intros i Hi. rewrite !st_wrote. destruct (decide (h = i)) as [<-|Hne]; [done|]. intros Hsi.
    unfold pending. rewrite fn_lookup_insert. destruct (hungry_holder c P h i H Hh Ch Hi Hsi) as [Hp|Hn].
    { unfold pending in Hp. by rewrite EP in Hp. }
    destruct (decide (h = LEFT i)) as [->|]; [left; right; by rewrite R_L|].
    destruct (decide (h = RIGHT i)) as [->|]; [left; left; by rewrite L_R|]. by right.
Qed.

Lemma phil_target w h : philosopher h -> philosopher (target w h).
Proof. destruct w; [done|apply phil_L|apply phil_R]. Qed.

(** A hungry philosopher has said so and does not have the forks yet. *)
Lemma hungry_before c P j : inv c P -> philosopher j -> st c j = HUNGRY -> before_get (P j) = true.
Proof.
  intros H Hj E. pose proof (in_state _ _ H j Hj) as Hs. rewrite E in Hs. destruct (P j) as [| | | |[]| | | | | | | | |]; done.
Qed.

Lemma inv_grant c P h w n : inv c P -> philosopher h -> P h = Test w T3 n ->
  inv (wrote c h (target w h) EATING (Test w T4 n)) (<[h := Test w T4 n]> P).
Proof.
  intros H Hh EP. assert (Ch : in_cs (P h) = true) by by rewrite EP.
  pose proof (phil_target w h Hh) as Hj. pose proof (in_known _ _ H h w T3 n Hh EP) as (Ej&El&Er).
  pose proof (hungry_before c P _ H Hj Ej) as Hb. set (j := target w h) in *.
  assert (Hup : forall i, upping (<[h := Test w T4 n]> P) h i <-> i = j).
  { intros i. unfold upping. rewrite fn_lookup_insert. split; [by intros (w'&m&[= -> ->]&<-)|]. intros ->. eauto. }
  assert (Hb' : before_get ((<[h := Test w T4 n]> P : Z -> pc) j) = true).
  { destruct (decide (h = j)) as [E|Hne]; [|by rewrite fn_lookup_insert_ne].
    rewrite <-E, fn_lookup_insert. rewrite <-E, EP in Hb. exact Hb. }
  apply (inv_holder c _ P _ h); rewrite ?fn_lookup_insert; try done.
  - intros i Hi Hne. by rewrite !fn_lookup_insert_ne.
  - intros i Hi. by apply thr_moved.
  - intros i Hi. rewrite st_wrote. destruct (decide (j = i)) as [<-|].
    + destruct ((<[h := Test w T4 n]> P : Z -> pc) j) as [| | | |[]| | | | | | | | |]; try done; by right.
    + destruct (decide (h = i)) as [<-|]; [|rewrite fn_lookup_insert_ne by done; by apply H].
      rewrite fn_lookup_insert. pose proof (in_state _ _ H h Hh) as Hs. by rewrite EP in Hs.
  - intros i Hi. rewrite !st_wrote. intros [E1 E2]. destruct (decide (j = i)) as [E|]; destruct (decide (j = RIGHT i)) as [E'|].
    + apply (R_ne i Hi). congruence.
    + subst i. by apply Er.
    + apply El. by rewrite E', L_R.
    + by apply (in_apart _ _ H i Hi).
  - intros i Hi. pose proof (granted_holder c P h i H Hh Ch Hi) as Hg. rewrite st_wrote, Hup.
    assert (Hnu : ~ upping P h i) by (intros Hu%upping_T4; by rewrite EP in Hu).
    assert (is_WGet ((<[h := Test w T4 n]> P : Z -> pc) i) = is_WGet (P i) /\
      before_get ((<[h := Test w T4 n]> P : Z -> pc) i) = before_get (P i)) as [Hsh ->].
    { destruct (decide (h = i)) as [<-|]; [by rewrite fn_lookup_insert, EP|by rewrite fn_lookup_insert_ne]. }
    revert Hg. apply sem_for_shape; [exact Hsh|]. destruct (decide (j = i)) as [<-|Hji].
    + rewrite Ej. split; [by intros (_&?&_)|tauto].
    + split; (intros (?&?&_); split_and!; [done|done|]); congruence.
  - intros w' t m [= <- <- _]. unfold known. rewrite st_wrote. by rewrite decide_True.
  - by intros i Hi ->%Hup.
  - intros i Hi. rewrite !st_wrote. destruct (decide (j = i)) as [E|Hji]; [done|]. intros Hsi.
    destruct (hungry_holder c P h i H Hh Ch Hi Hsi) as [Hp|Hn]; [|right; repeat case_decide; tauto]. left.
    unfold pending in *. rewrite fn_lookup_insert. rewrite EP in Hp. unfold j, target in Hji.
    destruct w; [naive_solver|destruct Hp as [[-> _]|?]; [done|by right]|naive_solver].
Qed.

(** The [up] after the test; the target may have been waiting for it. *)
Lemma inv_granted c P h w n : inv c P -> philosopher h -> P h = Test w T4 n ->
  let j := target w h in
  let thr' := <[h := code h (after_whom w n)]> (thr c) in
  let woken := match (sems c (s_ j)).2 with [] => thr' | q :: _ => <[q := resume (thr' q)]> thr' end in
  exists P', (forall i, i <> h -> P' i = P i \/ (is_WGet (P i) = true /\ P' i = wake (P i))) /\ P' h = after_whom w n /\
    inv (mk_conf woken (<[s_ j := sem_up (sems c (s_ j))]> (sems c)) (vars c)) P'.
Proof.
  intros H Hh EP j thr' woken. assert (Ch : in_cs (P h) = true) by by rewrite EP.
  pose proof (phil_target w h Hh) as Hj. pose proof (in_known _ _ H h w T4 n Hh EP) as Ej. fold j in Hj, Ej. cbn in Ej.
  assert (Hu : upping P h j) by (exists w, n; done). pose proof (in_upping _ _ H h j Hh Hj Hu) as Hb.
  assert (Hup : forall i, upping P h i <-> i = j).
  { intros i. unfold upping. rewrite EP. split; [by intros (w'&m&[= -> ->]&<-)|]. intros ->. eauto. }
  assert (Hsem : sems c (s_ j) = if is_WGet (P j) then (0, [j]) else (0, [])).
  { pose proof (granted_holder c P h j H Hh Ch Hj) as Hg. cbv zeta in Hg. destruct (P j); cbn [is_WGet]; naive_solver. }
  set (P1 := <[h := after_whom w n]> P).
  set (P' := if is_WGet (P j) then <[j := wake (P j)]> P1 else P1).
  assert (Hjh : is_WGet (P j) = true -> j <> h) by (intros E E'; by rewrite E', EP in E).
  assert (Hoth : forall i, i <> h -> P' i = P i \/ (i = j /\ is_WGet (P i) = true /\ P' i = wake (P i))).
  { intros i Hi. unfold P'. destruct (is_WGet (P j)) eqn:Ew; [|left; by apply fn_lookup_insert_ne].
    destruct (decide (j = i)) as [<-|]; [right; by rewrite fn_lookup_insert|left].
    rewrite fn_lookup_insert_ne by done. by apply fn_lookup_insert_ne. }
  assert (EP' : P' h = after_whom w n).
  { unfold P'. destruct (is_WGet (P j)) eqn:Ew; [rewrite fn_lookup_insert_ne by by apply Hjh|]; apply fn_lookup_insert. }
  assert (Hnu : forall i, ~ upping P' h i) by (intros i (w'&m&E&_); rewrite EP' in E; destruct w; discriminate).
  exists P'. split_and!; [intros i Hi; destruct (Hoth i Hi) as [?|(_&?&?)]; [by left|by right]|done|].
  apply (inv_holder c _ P _ h); rewrite ?EP'; try done.
  - by destruct w.
  - intros i Hi Hne. destruct (Hoth i Hne) as [->|(->&Ew&->)]; [done|]. by destruct (P j).
  - intros i Hi. cbn [thr]. unfold woken, P'. rewrite Hsem. destruct (is_WGet (P j)) eqn:Ew; cbn [snd]; [|by apply thr_moved].
    destruct (decide (j = i)) as [<-|]; [|rewrite !(fn_lookup_insert_ne _ j) by done; by apply thr_moved].
    rewrite !fn_lookup_insert, resume_code. f_equal. unfold thr'. rewrite thr_moved with (P := P) by done. f_equal.
    apply fn_lookup_insert_ne. apply not_eq_sym. by apply Hjh.
  - intros i Hi. destruct (decide (i = h)) as [->|Hne].
    + rewrite EP'. pose proof (in_state _ _ H h Hh) as Hs. rewrite EP in Hs. destruct w; done.
    + destruct (Hoth i Hne) as [->|(->&Ew&->)]; [by apply H|]. destruct (P j); done.
  - apply H.
  - intros i Hi. pose proof (granted_holder c P h i H Hh Ch Hi) as Hgi. rewrite Hup in Hgi. specialize (Hnu i).
    change (st (mk_conf _ _ (vars c)) i) with (st c i). cbn [sems]. destruct (decide (j = i)) as [<-|Hji].
    + rewrite fn_lookup_insert, Hsem. destruct (decide (is_WGet (P j) = true)) as [Ew|Ew].
      * rewrite Ew. assert (P' j = wake (P j)) as ->.
        { unfold P'. rewrite Ew. apply fn_lookup_insert. }
        destruct (P j); try discriminate Ew. right. by split; [intros [? _]|].
      * apply not_true_is_false in Ew. rewrite Ew.
        assert (Eb : before_get (P' j) = true /\ is_WGet (P' j) = false).
        { destruct (decide (j = h)) as [E|Hne]; [|destruct (Hoth j Hne) as [->|(_&Ew'&_)]; [done|congruence]].
          rewrite E, EP'. rewrite E, EP in Hb. destruct w; try discriminate Hb. done. }
        destruct Eb as [Eb Eg]. cbn [sem_up]. destruct (P' j); try discriminate Eg; left; done.
    + rewrite fn_lookup_insert_ne by congruence.
      assert (Hsh : is_WGet (P' i) = is_WGet (P i) /\ before_get (P' i) = before_get (P i)).
      { destruct (decide (i = h)) as [->|Hne]; [rewrite EP', EP; by destruct w|].
        destruct (Hoth i Hne) as [->|(->&_)]; done. }
      destruct Hsh as [Hsh ->]. revert Hgi. apply sem_for_shape; [exact Hsh|].
      split; intros (?&?&_); (split; [done|split; [done|]]); [done|congruence].
  - intros w' t m E. destruct w; try discriminate E. injection E as <- <- _. done.
  - intros i _ Hx. by apply Hnu in Hx.
  - intros i Hi Hsi. change (st (mk_conf _ _ (vars c)) i) with (st c i) in Hsi.
    destruct (hungry_holder c P h i H Hh Ch Hi Hsi) as [Hp|Hn]; [|by right]. left.
    unfold pending in *. rewrite EP'. rewrite EP in Hp. destruct w; cbn [after_whom]; naive_solver.
Qed.

Lemma inv_get c P h n k : inv c P -> philosopher h -> P h = Get n -> code h (Eat n) = Running k ->
  let st := if 0 <? (sems c (s_ h)).1 then Running k else Waiting (s_ h) k in
  exists p', (p' = Eat n \/ p' = WGet n) /\
    inv (mk_conf (<[h := st]> (thr c)) (<[s_ h := sem_down h (sems c (s_ h))]> (sems c)) (vars c)) (<[h := p']> P).
Proof.
  intros H Hh EP Ek st'. pose proof (in_sem _ _ H h Hh) as Ho. unfold own_sem_ok in Ho. rewrite EP in Ho. cbn [before_get] in Ho.
  pose proof (in_state _ _ H h Hh) as Hs. rewrite EP in Hs. cbn in Hs.
  set (granted := true = true /\ _) in Ho.
  set (p' := if 0 <? (sems c (s_ h)).1 then Eat n else WGet n).
  assert (Ep : code h p' = st').
  { unfold p', st'. destruct (0 <? _); [done|]. injection Ek as <-. done. }
  exists p'. split; [unfold p'; destruct (0 <? _); [by left|by right]|].
  assert (Hlook : forall i, i <> h -> (<[h := p']> P : Z -> pc) i = P i) by (intros; by apply fn_lookup_insert_ne).
  assert (Hcs : forall i, in_cs ((<[h := p']> P : Z -> pc) i) = in_cs (P i)).
  { intros i. destruct (decide (i = h)) as [->|]; [|by rewrite Hlook]. rewrite fn_lookup_insert, EP. unfold p'. by destruct (0 <? _). }
  assert (Hwm : forall i, waits_mutex ((<[h := p']> P : Z -> pc) i) = waits_mutex (P i)).
  { intros i. destruct (decide (i = h)) as [->|]; [|by rewrite Hlook]. rewrite fn_lookup_insert, EP. unfold p'. by destruct (0 <? _). }
  assert (Hup : forall h0 i, upping (<[h := p']> P) h0 i <-> upping P h0 i).
  { intros h0 i. unfold upping. destruct (decide (h0 = h)) as [->|]; [|by rewrite Hlook]. rewrite fn_lookup_insert, EP.
    unfold p'. destruct (0 <? _); split; intros (?&?&?&_); discriminate. }
  assert (Hpe : forall h0 i, pending (<[h := p']> P) h0 i <-> pending P h0 i).
  { intros h0 i. unfold pending. destruct (decide (h0 = h)) as [->|]; [|by rewrite Hlook]. rewrite fn_lookup_insert, EP.
    unfold p'. by destruct (0 <? _). }
  split.
  - intros i Hi. cbn [thr]. rewrite <-Ep. by apply thr_moved.
  - pose proof (in_mutex _ _ H) as Hm. unfold mutex_ok in *. cbn [sems]. rewrite fn_lookup_insert_ne by done.
    setoid_rewrite Hcs. setoid_rewrite Hwm. exact Hm.
  - intros i Hi. change (st (mk_conf _ _ (vars c)) i) with (st c i). destruct (decide (i = h)) as [->|]; [|rewrite Hlook by done; by apply H].
    rewrite fn_lookup_insert. unfold p'. destruct (Z.ltb_spec 0 (sems c (s_ h)).1) as [Hpos|]; [|done].
    destruct Ho as [[(_&E&_) _]|[_ E]]; [done|]. rewrite E in Hpos. done.
  - apply H.
  - intros i Hi. unfold own_sem_ok. change (st (mk_conf _ _ (vars c)) i) with (st c i). cbn [sems]. setoid_rewrite Hup.
    destruct (decide (i = h)) as [->|Hne].
    + rewrite !fn_lookup_insert. destruct Ho as [[Hg E]|[Hg E]]; unfold p'; rewrite E; cbn.
      * right. split; [by intros [? _]|done].
      * split; [done|exact Hg].
    + rewrite Hlook, fn_lookup_insert_ne by congruence. exact (in_sem _ _ H i Hi).
  - intros h0 w t m Hh0 E. destruct (decide (h0 = h)) as [->|].
    + rewrite fn_lookup_insert in E. unfold p' in E. destruct (0 <? _); discriminate.
    + rewrite Hlook in E by done. apply (known_ext c); [done|]. by apply (in_known _ _ H h0 w t m).
  - intros h0 i Hh0 Hi Hu%Hup. destruct (decide (i = h)) as [->|]; [|rewrite Hlook by done; by apply (in_upping _ _ H h0 i)].
    rewrite fn_lookup_insert. unfold p'. destruct (Z.ltb_spec 0 (sems c (s_ h)).1) as [Hpos|]; [|done].
    destruct Ho as [[(_&_&Hn) _]|[_ E]]; [exfalso; apply Hn; by exists h0|]. rewrite E in Hpos. done.
  - intros i Hi Hsi. setoid_rewrite Hpe. by apply (in_hungry _ _ H i Hi).
Qed.

Lemma code_after w n h : code h (after_whom w n) = Running (finish w n h (Ret ())).
Proof. by destruct w. Qed.

Lemma known_local c P h w n t p' :
  inv c P -> philosopher h -> P h = Test w t n -> is_T4 (P h) = false ->
  (p' = after_whom w n /\ (st c (target w h) = HUNGRY ->
     st c (LEFT (target w h)) = EATING \/ st c (RIGHT (target w h)) = EATING)) \/
  (exists t', p' = Test w t' n /\ t' <> T4 /\ known c t' (target w h)) ->
  inv (mk_conf (<[h := code h p']> (thr c)) (sems c) (vars c)) (<[h := p']> P).
Proof.
  intros H Hh EP E4 Hor. pose proof (in_state _ _ H h Hh) as Hs. rewrite EP in Hs, E4.
  apply inv_local; [done|done|..]; rewrite ?EP.
  - destruct Hor as [[-> _]|(t'&->&_)]; [by destruct w|done].
  - destruct Hor as [[-> _]|(t'&->&_)]; [by destruct w|done].
  - split; rewrite ?fn_lookup_insert, ?EP.
    + destruct Hor as [[-> _]|(t'&->&_)]; destruct w; done.
    + destruct Hor as [[-> _]|(t'&->&_)]; destruct w; done.
    + destruct Hor as [[-> _]|(t'&->&_)]; destruct w; done.
    + split; [done|]. destruct Hor as [[-> _]|(t'&->&Ht&_)]; [by destruct w|by destruct t'].
    + intros w' t1 m E1. destruct Hor as [[-> _]|(t'&->&_&Hk)].
      * destruct w; try discriminate E1. by injection E1 as <- <- _.
      * by injection E1 as <- <- _.
    + intros j Hj Hsj Hp. unfold pending in *. rewrite fn_lookup_insert. rewrite EP in Hp.
      destruct Hor as [[-> Hn]|(t'&->&Ht&_)].
      * destruct w; cbn [after_whom target] in *.
        -- destruct Hp as [-> _]. right. by apply Hn.
        -- destruct Hp as [[-> _] | ->]; [right; by apply Hn|left; done].
        -- destruct Hp as [-> _]. right. by apply Hn.
      * left. destruct w; naive_solver.
Qed.

Lemma step_inv c P h c' :
  inv c P -> philosopher h -> run h c = Some c' ->
  exists P', inv c' P' /\ (forall i, left_in (P' i) <= left_in (P i))%nat /\ (left_in (P' h) < left_in (P h))%nat.
Proof.
  intros H Hh E. pose proof (in_thr _ _ H h Hh) as Et. unfold run in E. rewrite Et in E. clear Et.
  assert (Hone : forall p', (left_in p' < left_in (P h))%nat -> inv c' (<[h := p']> P) ->
    exists P', inv c' P' /\ (forall i, left_in (P' i) <= left_in (P i))%nat /\ (left_in (P' h) < left_in (P h))%nat).
  { intros p' Hl Hi. exists (<[h := p']> P). split_and!; [done| |by rewrite fn_lookup_insert]. intros i.
    destruct (decide (h = i)) as [<-|]; [rewrite fn_lookup_insert; lia|by rewrite fn_lookup_insert_ne]. }
  pose proof (in_state _ _ H h Hh) as Hs.
  assert (Hwake : forall i, (left_in (wake (P i)) <= left_in (P i))%nat) by (intros i; destruct (P i); cbn; lia).
  destruct (P h) as [n|n|n|n|w t n|n|n|n|n|n|n|n|n|] eqn:EP.
  - injection E as <-. apply (Hone (Lock n)); [cbn; lia|]. apply (inv_local c P h (Lock n)); rewrite ?EP; try done.
    split; rewrite ?fn_lookup_insert, ?EP; try done. intros j _ _ Hp. unfold pending in Hp. by rewrite EP in Hp.
  - injection E as <-.
    destruct (inv_down c P h (Write (state_sema h) HUNGRY (finish Own n h (phi_test_sema h))) (Want n) (WLock n))
      as (p'&Hor&Hi); rewrite ?EP; try done.
    1,2: split; rewrite ?fn_lookup_insert, ?EP; try done; intros j _ _ Hp; unfold pending in Hp; by rewrite EP in Hp.
    apply (Hone p'); [destruct Hor as [-> | ->]; cbn; lia|exact Hi].
  - discriminate E.
  - injection E as <-. apply (Hone (Test Own T0 n)); [cbn; lia|]. by apply inv_want.
  - destruct t.
    + injection E as <-. destruct (decide (st c (target w h) = HUNGRY)) as [E|E]; unfold st in E.
      * apply (Hone (Test w T1 n)); [destruct w; cbn; lia|]. cbn. rewrite bool_decide_true by done.
        apply (known_local c P h w n T0 (Test w T1 n)); [done|done|done|by rewrite EP|]. right. exists T1. done.
      * apply (Hone (after_whom w n)); [destruct w; cbn; lia|]. cbn. rewrite bool_decide_false by done.
        pose proof (known_local c P h w n T0 (after_whom w n)) as Hk. rewrite code_after in Hk.
        apply Hk; [done|done|done|by rewrite EP|]. left. done.
    + pose proof (in_known _ _ H h w T1 n Hh EP) as Hkn. cbn in Hkn.
      injection E as <-. destruct (decide (st c (LEFT (target w h)) = EATING)) as [E|E]; unfold st in E.
      * apply (Hone (after_whom w n)); [destruct w; cbn; lia|]. cbn. rewrite bool_decide_false by (intros Hx; by apply Hx).
        pose proof (known_local c P h w n T1 (after_whom w n)) as Hk. rewrite code_after in Hk.
        apply Hk; [done|done|done|by rewrite EP|]. left. split; [done|]. intros _. by left.
      * apply (Hone (Test w T2 n)); [destruct w; cbn; lia|]. cbn. rewrite bool_decide_true by done.
        apply (known_local c P h w n T1 (Test w T2 n)); [done|done|done|by rewrite EP|]. right. exists T2. done.
    + pose proof (in_known _ _ H h w T2 n Hh EP) as Hkn. cbn in Hkn.
      injection E as <-. destruct (decide (st c (RIGHT (target w h)) = EATING)) as [E|E]; unfold st in E.
      * apply (Hone (after_whom w n)); [destruct w; cbn; lia|]. cbn. rewrite bool_decide_false by (intros Hx; by apply Hx).
        pose proof (known_local c P h w n T2 (after_whom w n)) as Hk. rewrite code_after in Hk.
        apply Hk; [done|done|done|by rewrite EP|]. left. split; [done|]. intros _. by right.
      * apply (Hone (Test w T3 n)); [destruct w; cbn; lia|]. cbn. rewrite bool_decide_true by done.
        apply (known_local c P h w n T2 (Test w T3 n)); [done|done|done|by rewrite EP|]. right. exists T3. split_and!; [done|done|]. destruct Hkn. by split_and!.
    + injection E as <-. apply (Hone (Test w T4 n)); [destruct w; cbn; lia|]. by apply inv_grant.
    + destruct (inv_granted c P h w n H Hh EP) as (P'&Hoth&EP'&Hi). rewrite code_after in Hi. injection E as <-.
      exists P'. split_and!; [exact Hi| |rewrite EP', ?EP; destruct w; cbn; lia]. intros i.
      destruct (decide (i = h)) as [->|Hne]; [rewrite EP', ?EP; destruct w; cbn; lia|].
      destruct (Hoth i Hne) as [-> | [_ ->]]; [done|apply Hwake].
  - injection E as <-.
    destruct (inv_up c P h (down (s_ h);; eat n h) (Get n)) as (P'&Hoth&EP'&Hi); rewrite ?EP; try done.
    { split; rewrite ?fn_lookup_insert, ?EP; try done. intros j _ _ Hp. unfold pending in Hp. by rewrite EP in Hp. }
    exists P'. split_and!; [exact Hi| |rewrite EP'; cbn; lia]. intros i.
    destruct (Hoth i) as [-> | [[-> ->] | [_ ->]]]; [done|rewrite EP; cbn; lia|apply Hwake].
  - injection E as <-. destruct (inv_get c P h n (eat n h)) as (p'&Hor&Hi); [done..|].
    apply (Hone p'); [destruct Hor as [-> | ->]; cbn; lia|exact Hi].
  - discriminate E.
  - injection E as <-. apply (Hone (Lock2 n)); [cbn; lia|]. apply (inv_local c P h (Lock2 n)); rewrite ?EP; try done.
    split; rewrite ?fn_lookup_insert, ?EP; try done. intros j _ _ Hp. unfold pending in Hp. by rewrite EP in Hp.
  - injection E as <-.
    destruct (inv_down c P h (Write (state_sema h) THINKING (finish Lft n h (phi_test_sema (LEFT h)))) (Quit n) (WLock2 n))
      as (p'&Hor&Hi); rewrite ?EP; try done.
    1,2: split; rewrite ?fn_lookup_insert, ?EP; try done; intros j _ _ Hp; unfold pending in Hp; by rewrite EP in Hp.
    apply (Hone p'); [destruct Hor as [-> | ->]; cbn; lia|exact Hi].
  - discriminate E.
  - injection E as <-. apply (Hone (Test Lft T0 n)); [cbn; lia|]. by apply inv_quit.
  - injection E as <-.
    destruct (inv_up c P h (dine_sema n h) (next_turn n)) as (P'&Hoth&EP'&Hi); rewrite ?EP; try done; try by destruct n.
    { split; rewrite ?fn_lookup_insert, ?EP; try (by destruct n).
      intros j _ _ Hp. unfold pending in Hp. by rewrite EP in Hp. }
    exists P'. split_and!; [exact Hi| |rewrite EP'; destruct n; cbn; lia]. intros i.
    destruct (Hoth i) as [-> | [[-> ->] | [_ ->]]]; [done|rewrite EP; destruct n; cbn; lia|apply Hwake].
  - discriminate E.
Qed.
End steps.

(** ** The whole system *)
Lemma inv_init : inv init_sema (fun _ => Think 3).
Proof.
  assert (Hs : forall i, st init_sema i = THINKING) by done.
  split.
  - done.
  - left. done.
  - intros i _. apply Hs.
  - intros i _ [E _]. by rewrite Hs in E.
  - intros i _. right. split; [by intros [? _]|done].
  - done.
  - intros h i _ _ (w&n&E&_). discriminate E.
  - intros i _ E. by rewrite Hs in E.
Qed.

Definition total (P : Z -> pc) : nat := sum_list_with (fun i => left_in (P i)) [0; 1; 2; 3; 4].

Lemma total_less (P P' : Z -> pc) h : philosopher h ->
  (forall i, (left_in (P' i) <= left_in (P i))%nat) -> (left_in (P' h) < left_in (P h))%nat -> (total P' < total P)%nat.
Proof.
  intros Hh Hle Hlt. unfold total. cbn. pose proof (Hle 0). pose proof (Hle 1). pose proof (Hle 2). pose proof (Hle 3). pose proof (Hle 4).
  assert (h = 0 \/ h = 1 \/ h = 2 \/ h = 3 \/ h = 4) as Hc by (unfold philosopher, N in Hh; lia).
  destruct Hc as [-> | [-> | [-> | [-> | ->]]]]; lia.
Qed.

Lemma inv_step c c' P : inv c P -> step c c' -> exists P', inv c' P' /\ (total P' < total P)%nat.
Proof.
  intros H (h&Hh&E). destruct (step_inv c P h c' H Hh E) as (P'&H'&Hle&Hlt). exists P'. split; [done|].
  by apply (total_less P P' h).
Qed.

Lemma inv_nsteps k c c' P : inv c P -> nsteps step k c c' -> exists P', inv c' P' /\ (k + total P' <= total P)%nat.
Proof.
  intros H Hs. revert P H. induction Hs as [c|k c1 c2 c3 H12 _ IH]; intros P H; [by exists P|].
  destruct (inv_step c1 c2 P H H12) as (P2&H2&Hlt). destruct (IH P2 H2) as (P3&H3&Hle). exists P3. split; [done|lia].
Qed.

Lemma inv_reachable c : rtc step init_sema c -> exists P, inv c P.
Proof. intros [k Hk]%rtc_nsteps. destruct (inv_nsteps k _ c _ inv_init Hk) as (P&HP&_). by exists P. Qed.

(** A philosopher eats from the [down] on its semaphore until it writes THINKING:
    the next thing it writes is THINKING. *)
Definition dining (x : status) : bool :=
  match x with
  | Running (Sleep _ (Down mutex (Write (state_sema _) v _)))
  | Running (Down mutex (Write (state_sema _) v _))
  | Running (Write (state_sema _) v _)
  | Waiting mutex (Write (state_sema _) v _) => v =? THINKING
  | _ => false
  end.

Lemma dining_state c P i : inv c P -> philosopher i -> dining (thr c i) = true -> st c i = EATING.
Proof.
  intros H Hi. rewrite (in_thr _ _ H i Hi). pose proof (in_state _ _ H i Hi) as Hs. destruct (P i) as [| | | |w t n|n|n|n| | | | |n|]; cbn;
    try done.
  - by destruct t.
Qed.

Lemma inv_stuck c P : inv c P -> (forall c', ~ step c c') -> forall i, philosopher i -> P i = Fin.
Proof.
  intros H Hno.
  assert (Hstop : forall i, philosopher i -> in_cs (P i) = false /\
    (waits_mutex (P i) = true \/ is_WGet (P i) = true \/ P i = Fin)).
  { intros i Hi. assert (E : run i c = None) by (destruct (run i c) as [c'|] eqn:E; [exfalso; apply (Hno c'); by exists i|done]).
    unfold run in E. rewrite (in_thr _ _ H i Hi) in E.
    destruct (P i) as [| | | |w t n| | | | | | | |n|]; try discriminate E; cbn; auto. by destruct t. }
  assert (Hfree : forall i, philosopher i -> is_WGet (P i) = true \/ P i = Fin).
  { destruct (in_mutex _ _ H) as [[_ Hn]|(h&ws&Hh&_&Hc&_)]; [|destruct (Hstop h Hh); congruence].
    intros i Hi. destruct (Hstop i Hi) as [_ [Hw|?]]; [destruct (Hn i Hi); congruence|done]. }
  assert (Hnup : forall h j, philosopher h -> ~ upping P h j).
  { intros h j Hh Hu%upping_cs. destruct (Hstop h Hh). congruence. }
  assert (Hne : forall i, philosopher i -> st c i <> EATING).
  { intros i Hi E. pose proof (in_sem _ _ H i Hi) as Ho. pose proof (in_state _ _ H i Hi) as Hs. unfold own_sem_ok in Ho.
    destruct (Hfree i Hi) as [Hw|Hf]; [|rewrite Hf in Hs; rewrite E in Hs; done].
    destruct (P i); try discriminate Hw. destruct Ho as [_ Hg]. apply Hg. split_and!; [done|done|].
    intros (h&Hh&Hu). by apply (Hnup h i). }
  intros i Hi. destruct (Hfree i Hi) as [Hw|]; [|done]. exfalso.
  assert (Hh : st c i = HUNGRY).
  { pose proof (in_state _ _ H i Hi) as Hs. destruct (P i); try discriminate Hw. destruct Hs as [|E]; [done|by apply Hne in E]. }
  destruct (in_hungry _ _ H i Hi Hh) as [(h&Hhp&Hp%pending_cs)|[E|E]].
  - destruct (Hstop h Hhp). congruence.
  - by apply (Hne _ (phil_L i Hi)).
  - by apply (Hne _ (phil_R i Hi)).
Qed.

(** ** Properties *)

(** Property C4. With the semaphores no two neighbours eat at the same time,
    however the five threads interleave: in no reachable configuration are two
    adjacent philosophers both between their [down] and the end of their meal. *)
Theorem philosophers_exclude c i :
  rtc step init_sema c -> philosopher i -> ~ (dining (thr c i) = true /\ dining (thr c (RIGHT i)) = true).
Proof.
  intros [P H]%inv_reachable Hi [E1 E2]. apply (in_apart _ _ H i Hi).
  split; [by apply (dining_state c P)|apply (dining_state c P); [done|by apply phil_R|done]].
Qed.

(** Property C5. Every run of the five philosophers ends, after at most 800
    steps, and there is no deadlock: a configuration in which no thread can move
    is one in which every philosopher has come to the end of his last turn. *)
Theorem philosophers_finish c k :
  nsteps step k init_sema c ->
  (k <= 800)%nat /\ ((forall c', ~ step c c') -> forall i, philosopher i -> thr c i = Running (Ret ())).
Proof.
  intros Hk. destruct (inv_nsteps k _ c _ inv_init Hk) as (P&H&Hle). split.
  - change (total (fun _ => Think 3)) with 800%nat in Hle. lia.
  - intros Hno i Hi. by rewrite (in_thr _ _ H i Hi), (inv_stuck c P H Hno i Hi).
Qed.

(** ** Witnesses *)

Definition ex_runs (n : nat) : conf := Nat.iter n (fun c => default c (run 0 c)) init_sema.

Lemma ex_steps : nsteps step 3 init_sema (ex_runs 3).
Proof. do 3 (econstructor; [exists 0; split; [unfold philosopher, N; lia|reflexivity]|]). constructor. Qed.

Lemma philosophers_exclude_witness : ~ (dining (thr (ex_runs 3) 0) = true /\ dining (thr (ex_runs 3) (RIGHT 0)) = true).
Proof. refine (philosophers_exclude (ex_runs 3) 0 _ _); [apply rtc_nsteps; exists 3%nat; exact ex_steps|unfold philosopher, N; lia]. Defined.

Lemma philosophers_finish_witness :
  (3 <= 800)%nat /\ ((forall c', ~ step (ex_runs 3) c') -> forall i, philosopher i -> thr (ex_runs 3) i = Running (Ret ())).
Proof. exact (philosophers_finish (ex_runs 3) 3 ex_steps). Defined.
