(* ===== verification/Process.v ===== *)
(** kern/process/proc.c: the process table and the life of a process, from
    [do_fork] to the parent's [do_wait].  The tree of processes is kept as in C,
    by four pointers of each descriptor.  [proc_list] and the hash chains are Rocq
    lists (Dlist relates them to pointers).  Descriptors, stacks, address spaces
    and open files are behind the record [resources].  [do_wait] gives the
    processor away, so it is split at [schedule].  The proofs are in [ProcTree]
    and [Lifecycle]. *)
From stdpp Require Import functions.
From S2P Require Import Prelude Printfmt SkewHeap Sched.
#[local] Abbreviation length := Datatypes.length.

(** ** Data *)

Definition MAX_PROCESS := 4096.
Definition MAX_PID := MAX_PROCESS * 2.
Definition HASH_SHIFT := 10.
Definition pid_hashfn (x : Z) : Z := hash32 x HASH_SHIFT.
Definition PF_EXITING := 1.
Definition CLONE_VM := 0x00000100.

(** The fields of [struct proc_struct] this file is about; the others are in
    [Sched.proc] or belong to the resources. *)
Record task := mk_task {
  pid : Z;
  parent : pptr;
  cptr : pptr;
  yptr : pptr;
  optr : pptr;
  flags : Z;
  exit_code : Z;
}.

Definition set_pid (v : Z) (t : task) := mk_task v (parent t) (cptr t) (yptr t) (optr t) (flags t) (exit_code t).
Definition set_parent (v : pptr) (t : task) := mk_task (pid t) v (cptr t) (yptr t) (optr t) (flags t) (exit_code t).
Definition set_cptr (v : pptr) (t : task) := mk_task (pid t) (parent t) v (yptr t) (optr t) (flags t) (exit_code t).
Definition set_yptr (v : pptr) (t : task) := mk_task (pid t) (parent t) (cptr t) v (optr t) (flags t) (exit_code t).
Definition set_optr (v : pptr) (t : task) := mk_task (pid t) (parent t) (cptr t) (yptr t) v (flags t) (exit_code t).
Definition set_flags (v : Z) (t : task) := mk_task (pid t) (parent t) (cptr t) (yptr t) (optr t) v (exit_code t).
Definition set_exit_code (v : Z) (t : task) := mk_task (pid t) (parent t) (cptr t) (yptr t) (optr t) (flags t) v.

(** What a process owns outside its descriptor.  [put_mm] is the release of an
    address space as [do_exit] and the error path of [do_fork] spell it out;
    [check_store] is [user_mem_check] for the integer [do_wait] stores. *)
Record resources (E : Type) := mk_resources {
  kmalloc : K E (option pptr);
  raw_exit_code : E -> pptr -> Z;
  kfree : pptr -> K E ();
  setup_kstack : pptr -> K E Z;
  put_kstack : pptr -> K E ();
  copy_mm : Z -> pptr -> pptr -> K E Z;
  put_mm : pptr -> K E ();
  copy_files : Z -> pptr -> pptr -> K E Z;
  put_files : pptr -> K E ();
  create_files : pptr -> K E bool;
  copy_thread : pptr -> Z -> Z -> K E ();
  check_store : pptr -> Z -> K E bool;
  store_int : pptr -> Z -> Z -> K E ();
}.
Arguments kmalloc {E}. Arguments raw_exit_code {E}. Arguments kfree {E}. Arguments setup_kstack {E}.
Arguments put_kstack {E}. Arguments copy_mm {E}. Arguments put_mm {E}. Arguments copy_files {E}.
Arguments put_files {E}. Arguments create_files {E}. Arguments copy_thread {E}. Arguments check_store {E}. Arguments store_int {E}.

Section model.
Context (sc : sched_class) {E : Type} (R : resources E).

Record pst := mk_pst {
  krn : kstate;
  tasks : gmap pptr task;
  proc_list : list pptr;
  hash_list : Z -> list pptr;
  nr_process : Z;
  next_safe : Z;
  last_pid : Z;
  initproc : pptr;
  env : E;
}.

Definition set_krn (k : kstate) (s : pst) : pst :=
  mk_pst k (tasks s) (proc_list s) (hash_list s) (nr_process s) (next_safe s) (last_pid s) (initproc s) (env s).
Definition set_tasks (m : gmap pptr task) (s : pst) : pst :=
  mk_pst (krn s) m (proc_list s) (hash_list s) (nr_process s) (next_safe s) (last_pid s) (initproc s) (env s).
Definition set_proc_list (l : list pptr) (s : pst) : pst :=
  mk_pst (krn s) (tasks s) l (hash_list s) (nr_process s) (next_safe s) (last_pid s) (initproc s) (env s).
Definition set_hash_list (h : Z -> list pptr) (s : pst) : pst :=
  mk_pst (krn s) (tasks s) (proc_list s) h (nr_process s) (next_safe s) (last_pid s) (initproc s) (env s).
Definition set_nr_process (n : Z) (s : pst) : pst :=
  mk_pst (krn s) (tasks s) (proc_list s) (hash_list s) n (next_safe s) (last_pid s) (initproc s) (env s).
Definition set_pids (next last : Z) (s : pst) : pst :=
  mk_pst (krn s) (tasks s) (proc_list s) (hash_list s) (nr_process s) next last (initproc s) (env s).
Definition set_initproc (p : pptr) (s : pst) : pst :=
  mk_pst (krn s) (tasks s) (proc_list s) (hash_list s) (nr_process s) (next_safe s) (last_pid s) p (env s).
Definition set_env (e : E) (s : pst) : pst :=
  mk_pst (krn s) (tasks s) (proc_list s) (hash_list s) (nr_process s) (next_safe s) (last_pid s) (initproc s) e.

Definition in_krn {A} (m : K kstate A) : K pst A := zoom krn set_krn m.
Definition in_env {A} (m : K E A) : K pst A := zoom env set_env m.
Definition task_at (p : pptr) : K pst task := fun s => unwrap (tasks s !! p) s.
Definition task_upd (p : pptr) (f : task -> task) : K pst () :=
  t ← task_at p; modify (fun s => set_tasks (<[p := f t]> (tasks s)) s).
Definition sched_at (p : pptr) : K pst proc := in_krn (in_sch (proc_at p)).
Definition sched_upd (p : pptr) (f : proc -> proc) : K pst () := in_krn (in_sch (proc_upd p f)).
Definition cur : K pst pptr := gets (fun s => current (krn s)).

(** ** Descriptors *)

Definition new_proc : proc := mk_proc PROC_UNINIT 0 false 0 false 0 0 1.
Definition new_task (code : Z) : task := mk_task (-1) 0 0 0 0 0 code.

Definition alloc_proc : K pst (option pptr) :=
  o ← in_env (kmalloc R);
  match o with
  | None => mret None
  | Some p =>
      s ← get;
      in_krn (modify (fun k => set_sch (adopt p new_proc (mk_she NULL NULL NULL) (sch k)) k));;
      modify (fun s => set_tasks (<[p := new_task (raw_exit_code R (env s) p)]> (tasks s)) s);;
      mret (Some p)
  end.

Definition free_proc (p : pptr) : K pst () :=
  in_env (kfree R p);;
  in_krn (modify (fun k => set_sch (release p (sch k)) k));;
  modify (fun s => set_tasks (delete p (tasks s)) s).

(** ** The tree, the list and the hash table *)

Definition set_links (p : pptr) : K pst () :=
  modify (fun s => set_proc_list (p :: proc_list s) s);;
  task_upd p (set_yptr NULL);;
  t ← task_at p;
  par ← task_at (parent t);
  task_upd p (set_optr (cptr par));;
  when (bool_decide (cptr par <> NULL)) (task_upd (cptr par) (set_yptr p));;
  task_upd (parent t) (set_cptr p);;
  modify (fun s => set_nr_process (s32 (nr_process s + 1)) s).

Definition remove_links (p : pptr) : K pst () :=
  modify (fun s => set_proc_list (List.filter (fun q => negb (q =? p)) (proc_list s)) s);;
  t ← task_at p;
  when (bool_decide (optr t <> NULL)) (task_upd (optr t) (set_yptr (yptr t)));;
  (if bool_decide (yptr t <> NULL) then task_upd (yptr t) (set_optr (optr t))
   else task_upd (parent t) (set_cptr (optr t)));;
  modify (fun s => set_nr_process (s32 (nr_process s - 1)) s).

(** [get_pid]: one pass over the processes; [true] is the jump to [repeat]. *)
Fixpoint pid_scan (l : list pptr) (last next : Z) : K pst (bool * Z * Z) :=
  match l with
  | [] => mret (false, last, next)
  | p :: l =>
      t ← task_at p;
      if pid t =? last then
        let last := last + 1 in
        if last >=? next then mret (true, (if last >=? MAX_PID then 1 else last), MAX_PID)
        else pid_scan l last next
      else if (pid t >? last) && (next >? pid t) then pid_scan l last (pid t)
      else pid_scan l last next
  end.

Fixpoint pid_repeat (fuel : nat) (last next : Z) : K pst (Z * Z) :=
  match fuel with
  | O => timeout
  | S fuel =>
      s ← get;
      '(again, last, next) ← pid_scan (proc_list s) last next;
      if again : bool then pid_repeat fuel last next else mret (last, next)
  end.

Definition pid_fuel : nat := 2 * Z.to_nat MAX_PID.

Definition get_pid : K pst Z :=
  s ← get;
  let last := last_pid s + 1 in
  '(last, next) ←
    (if last >=? MAX_PID then pid_repeat pid_fuel 1 MAX_PID
     else if last >=? next_safe s then pid_repeat pid_fuel last MAX_PID
     else mret (last, next_safe s));
  modify (set_pids next last);;
  mret last.

Definition hash_proc (p : pptr) : K pst () :=
  t ← task_at p;
  modify (fun s => let b := pid_hashfn (pid t) in set_hash_list (<[b := p :: hash_list s b]> (hash_list s)) s).

(** The chain an entry is in is that of its pid, which never changes. *)
Definition unhash_proc (p : pptr) : K pst () :=
  t ← task_at p;
  modify (fun s => let b := pid_hashfn (pid t) in
    set_hash_list (<[b := List.filter (fun q => negb (q =? p)) (hash_list s b)]> (hash_list s)) s).

Fixpoint find_in (l : list pptr) (n : Z) : K pst (option pptr) :=
  match l with
  | [] => mret None
  | p :: l => t ← task_at p; if pid t =? n then mret (Some p) else find_in l n
  end.

Definition find_proc (n : Z) : K pst (option pptr) :=
  if (0 <? n) && (n <? MAX_PID) then s ← get; find_in (hash_list s (pid_hashfn n)) n
  else mret None.

(** ** fork, exit, wait, kill *)

Definition do_fork (clone_flags stack tf : Z) : K pst Z :=
  s ← get;
  if nr_process s >=? MAX_PROCESS then mret (- E_NO_FREE_PROC)
  else
    o ← alloc_proc;
    match o with
    | None => mret (- E_NO_MEM)
    | Some p =>
        c ← cur;
        task_upd p (set_parent c);;
        x ← sched_at c;
        assert (bool_decide (wait_state x = 0));;
        r ← in_env (setup_kstack R p);
        if bool_decide (r <> 0) then free_proc p;; mret (- E_NO_MEM)
        else
          r ← in_env (copy_mm R clone_flags c p);
          if bool_decide (r <> 0) then in_env (put_kstack R p);; free_proc p;; mret (- E_NO_MEM)
          else
            r ← in_env (copy_files R clone_flags c p);
            if bool_decide (r <> 0) then
              in_env (put_files R p);; in_env (put_mm R p);;
              in_env (put_kstack R p);; free_proc p;; mret (- E_NO_MEM)
            else
              in_env (copy_thread R p stack tf);;
              n ← get_pid;
              task_upd p (set_pid n);;
              hash_proc p;;
              set_links p;;
              in_krn (wakeup_proc sc p);;
              t ← task_at p;
              mret (pid t)
    end.

(** One round of the loop of [do_exit]: the first child of [c] becomes the
    youngest of [initproc].  [t] is the descriptor of [c]. *)
Definition hand_over (c init : pptr) (t : task) : K pst () :=
  let p := cptr t in
  x ← task_at p;
  task_upd c (set_cptr (optr x));;
  task_upd p (set_yptr NULL);;
  i ← task_at init;
  task_upd p (set_optr (cptr i));;
  when (bool_decide (cptr i <> NULL)) (task_upd (cptr i) (set_yptr p));;
  task_upd p (set_parent init);;
  task_upd init (set_cptr p).

Fixpoint reparent (fuel : nat) (c init : pptr) : K pst () :=
  match fuel with
  | O => timeout
  | S fuel =>
      t ← task_at c;
      if bool_decide (cptr t = NULL) then mret ()
      else
        hand_over c init t;;
        y ← sched_at (cptr t);
        (if bool_decide (state y = PROC_ZOMBIE) then
           z ← sched_at init;
           when (bool_decide (wait_state z = WT_CHILD)) (in_krn (wakeup_proc sc init))
         else mret ());;
        reparent fuel c init
  end.

Definition do_exit (error_code : Z) : K pst () :=
  s ← get;
  let c := current (krn s) in
  assert (bool_decide (c <> idleproc (krn s)));;
  assert (bool_decide (c <> initproc s));;
  in_env (put_mm R c);;
  in_env (put_files R c);;
  x ← sched_at c;
  sched_upd c (set_state PROC_ZOMBIE (wait_state x));;
  task_upd c (set_exit_code error_code);;
  t ← task_at c;
  y ← sched_at (parent t);
  when (bool_decide (wait_state y = WT_CHILD)) (in_krn (wakeup_proc sc (parent t)));;
  s ← get;
  reparent (S (size (tasks s))) c (initproc s);;
  in_krn (schedule sc).

Definition do_yield : K pst Z := c ← cur; sched_upd c (set_need_resched true);; mret 0.

(** The walk over the children; the first zombie, and whether there is a child. *)
Fixpoint find_zombie (fuel : nat) (p : pptr) (haskid : bool) : K pst (option pptr * bool) :=
  if bool_decide (p = NULL) then mret (None, haskid)
  else
    match fuel with
    | O => timeout
    | S fuel =>
        x ← sched_at p;
        if bool_decide (state x = PROC_ZOMBIE) then mret (Some p, true)
        else t ← task_at p; find_zombie fuel (optr t) true
    end.

Definition find_child (c : pptr) (n : Z) : K pst (option pptr * bool) :=
  if bool_decide (n <> 0) then
    o ← find_proc n;
    match o with
    | None => mret (None, false)
    | Some p =>
        t ← task_at p;
        if bool_decide (parent t = c) then
          x ← sched_at p;
          mret (if bool_decide (state x = PROC_ZOMBIE) then Some p else None, true)
        else mret (None, false)
    end
  else
    s ← get;
    t ← task_at c;
    find_zombie (size (tasks s)) (cptr t) false.

(** [do_wait] from [found] on. *)
Definition reap (c p : pptr) (code_store : Z) : K pst () :=
  s ← get;
  assert (bool_decide (p <> idleproc (krn s) /\ p <> initproc s));;
  t ← task_at p;
  when (bool_decide (code_store <> NULL)) (in_env (store_int R c code_store (exit_code t)));;
  unhash_proc p;;
  remove_links p;;
  in_env (put_kstack R p);;
  free_proc p.

(** [do_wait] from [repeat] to its return, or to [schedule] ([None]). *)
Definition wait_once (n code_store : Z) : K pst (option Z) :=
  c ← cur;
  '(o, haskid) ← find_child c n;
  match o with
  | Some p => reap c p code_store;; mret (Some 0)
  | None =>
      if haskid : bool then
        sched_upd c (set_state PROC_SLEEPING WT_CHILD);; in_krn (schedule sc);; mret None
      else mret (Some (- E_BAD_PROC))
  end.

Definition do_wait_enter (n code_store : Z) : K pst (option Z) :=
  c ← cur;
  ok ← (if bool_decide (code_store <> NULL) then in_env (check_store R c code_store) else mret true);
  if ok : bool then wait_once n code_store else mret (Some (- E_INVAL)).

(** The process runs again after [schedule]. *)
Definition do_wait_resume (n code_store : Z) : K pst (option Z) :=
  c ← cur;
  t ← task_at c;
  if negb (Z.land (flags t) PF_EXITING =? 0) then do_exit (- E_KILLED);; mret None
  else wait_once n code_store.

Definition do_kill (n : Z) : K pst Z :=
  o ← find_proc n;
  match o with
  | None => mret (- E_INVAL)
  | Some p =>
      t ← task_at p;
      if Z.land (flags t) PF_EXITING =? 0 then
        task_upd p (set_flags (Z.lor (flags t) PF_EXITING));;
        x ← sched_at p;
        when (negb (Z.land (wait_state x) WT_INTERRUPTED =? 0)) (in_krn (wakeup_proc sc p));;
        mret 0
      else mret (- E_KILLED)
  end.

Definition set_lab6_priority (v : Z) (p : proc) : proc :=
  mk_proc (state p) (wait_state p) (need_resched p) (runs p) (on_rq p) (time_slice p) (lab6_stride p) v.
Definition lab6_set_priority (priority : Z) : K pst () :=
  c ← cur; sched_upd c (set_lab6_priority (if priority =? 0 then 1 else priority)).

(** The body of the loop of [cpu_idle]. *)
Definition cpu_idle_once : K pst () :=
  c ← cur; x ← sched_at c; when (need_resched x) (in_krn (schedule sc)).

(** [kernel_thread]: the trap frame is made by the caller of the model. *)
Definition kernel_thread (clone_flags tf : Z) : K pst Z := do_fork (Z.lor clone_flags CLONE_VM) 0 tf.

Definition proc_init (tf : Z) : K pst () :=
  modify (set_proc_list []);;
  modify (set_hash_list (fun _ => []));;
  o ← alloc_proc;
  idle ← unwrap o;
  ok ← in_env (create_files R idle);
  assert ok;;
  in_krn (modify (fun k => mk_kst (sch k) (current k) idle (timers k) (timer_list k)));;
  task_upd idle (set_pid 0);;
  sched_upd idle (set_state PROC_RUNNABLE 0);;
  sched_upd idle (set_need_resched true);;
  modify (fun s => set_nr_process (s32 (nr_process s + 1)) s);;
  in_krn (modify (set_current idle));;
  n ← kernel_thread 0 tf;
  assert (0 <? n);;
  o ← find_proc n;
  modify (set_initproc (default NULL o));;
  t ← task_at idle;
  assert (bool_decide (pid t = 0));;
  s ← get;
  assert (bool_decide (initproc s <> NULL));;
  i ← task_at (initproc s);
  assert (bool_decide (pid i = 1)).
End model.
Arguments pst E : clear implicits.
