(* ===== verification/ProcTree.v ===== *)
(** The process tree and the process numbers of [Process].  [tree_rep m kids] says
    that the pointers of the descriptors [m] spell the lists of children [kids],
    youngest first; linking and unlinking a process are insertion at the head
    and removal.  [get_pid] ends, with a number no listed process has. *)
From stdpp Require Import functions.
From S2P Require Import Prelude Printfmt SkewHeap Sched Process.
#[local] Abbreviation length := Datatypes.length.

(** ** Sibling lists *)

(** The processes [l] are children of [par] and linked in order; [y] is the
    younger sibling of the first, [z] the older one of the last. *)
Fixpoint sibs (m : gmap pptr task) (par y : pptr) (l : list pptr) (z : pptr) : Prop :=
  match l with
  | [] => True
  | c :: l =>
      (exists t, m !! c = Some t /\ parent t = par /\ yptr t = y /\ optr t = List.hd z l) /\ sibs m par c l z
  end.

(** The last of [y :: l]. *)
Fixpoint last_of (y : pptr) (l : list pptr) : pptr :=
  match l with [] => y | c :: l => last_of c l end.

Definition sib_of (m : gmap pptr task) (c : pptr) : option (pptr * pptr * pptr) :=
  (fun t => (parent t, yptr t, optr t)) <$> m !! c.
Definition first_of (m : gmap pptr task) (p : pptr) : option pptr := cptr <$> m !! p.

Lemma sibs_sib m par y c l z : sibs m par y (c :: l) z <-> sib_of m c = Some (par, y, List.hd z l) /\ sibs m par c l z.
Proof.
  cbn. unfold sib_of. split.
  - intros [(t&->&<-&<-&<-) H]. done.
  - intros [(t&->&[= -> -> ->])%fmap_Some H]. split; [|done]. by exists t.
Qed.

Lemma sibs_ext m m' par y l z : (forall c, c ∈ l -> sib_of m' c = sib_of m c) -> sibs m par y l z -> sibs m' par y l z.
Proof.
  revert y. induction l as [|c l IH]; intros y H; [done|]. rewrite !sibs_sib. intros [H1 H2]. split.
  - by rewrite H by (apply elem_of_cons; by left).
  - apply IH; [|done]. intros d Hd. apply H, elem_of_cons. by right.
Qed.

Lemma sibs_in m par y l z c : sibs m par y l z -> c ∈ l -> exists t, m !! c = Some t /\ parent t = par.
Proof.
  revert y. induction l as [|d l IH]; intros y H Hc; [by apply not_elem_of_nil in Hc|].
  destruct H as [(t&Ht&Hp&_) H]. apply elem_of_cons in Hc as [->|Hc]; [by exists t|by eapply IH].
Qed.

Lemma sibs_app m par y l1 l2 z :
  sibs m par y (l1 ++ l2) z <-> sibs m par y l1 (List.hd z l2) /\ sibs m par (last_of y l1) l2 z.
Proof.
  revert y. induction l1 as [|c l1 IH]; intros y; [cbn; tauto|].
  rewrite <-app_comm_cons, !sibs_sib, IH. cbn [last_of]. destruct l1; cbn; tauto.
Qed.

Lemma last_of_in y l : l <> [] -> last_of y l ∈ l.
Proof.
  revert y. induction l as [|c l IH]; intros y H; [done|]. cbn. destruct l as [|d l]; [cbn; set_solver +|].
  apply elem_of_cons. right. by apply IH.
Qed.

(** Only the first entry knows [y]. *)
Lemma sibs_first m m' par y y' c l z :
  sibs m par y (c :: l) z -> c ∉ l -> (forall d, d ∈ l -> sib_of m' d = sib_of m d) ->
  sib_of m' c = Some (par, y', List.hd z l) -> sibs m' par y' (c :: l) z.
Proof.
  rewrite !sibs_sib. intros [H1 H2] Hc He H. split; [done|]. by eapply sibs_ext.
Qed.

(** Only the last entry knows [z]. *)
Lemma sibs_last m m' par y l c z z' y' :
  sibs m par y (l ++ [c]) z -> NoDup (l ++ [c]) -> (forall d, d ∈ l -> sib_of m' d = sib_of m d) ->
  sib_of m c = Some (par, y', z) -> sib_of m' c = Some (par, y', z') -> sibs m' par y (l ++ [c]) z'.
Proof.
  rewrite !sibs_app, !sibs_sib. intros (H1&[H2 _]) Hnd He Hm H. split_and!; [by eapply sibs_ext| |done].
  cbn [List.hd] in *. rewrite Hm in H2. injection H2 as ->. by rewrite H.
Qed.

(** [ys p] is what the first child of [p] has as its younger sibling: [NULL],
    except in the middle of [do_exit]. *)
Record tree (m : gmap pptr task) (kids : pptr -> list pptr) (ys : pptr -> pptr) : Prop := {
  tr_null : m !! NULL = None;
  tr_sibs p : sibs m p (ys p) (kids p) NULL;
  tr_first p : is_Some (m !! p) -> first_of m p = Some (List.hd NULL (kids p));
  tr_nodup p : NoDup (kids p);
  tr_none p : m !! p = None -> kids p = [];
}.
Definition tree_rep m kids := tree m kids (fun _ => NULL).

Lemma tree_kid m kids ys p c : tree m kids ys -> c ∈ kids p -> exists t, m !! c = Some t /\ parent t = p.
Proof. intros H Hc. eapply sibs_in; [apply (tr_sibs _ _ _ H)|done]. Qed.

Lemma tree_kid_unique m kids ys p q c : tree m kids ys -> c ∈ kids p -> c ∈ kids q -> p = q.
Proof.
  intros H Hp Hq. destruct (tree_kid _ _ _ _ _ H Hp) as (t&Ht&<-), (tree_kid _ _ _ _ _ H Hq) as (t'&Ht'&<-). congruence.
Qed.

Lemma tree_kid_alloc m kids ys p c : tree m kids ys -> c ∈ kids p -> is_Some (m !! c) /\ is_Some (m !! p) /\ c <> NULL.
Proof.
  intros H Hc. destruct (tree_kid _ _ _ _ _ H Hc) as (t&Ht&Hp). split_and!; [eauto| |].
  - destruct (m !! p) eqn:E; [eauto|]. rewrite (tr_none _ _ _ H _ E) in Hc. by apply not_elem_of_nil in Hc.
  - intros ->. rewrite (tr_null _ _ _ H) in Ht. done.
Qed.

(** The fields the tree operations do not write. *)
Definition info (m : gmap pptr task) (p : pptr) : option (Z * Z * Z) :=
  (fun t => (pid t, flags t, exit_code t)) <$> m !! p.

Lemma sib_insert m p t q : sib_of (<[p := t]> m) q = if decide (q = p) then Some (parent t, yptr t, optr t) else sib_of m q.
Proof. unfold sib_of. rewrite lookup_insert. destruct (decide (p = q)) as [->|]; [by rewrite decide_True|by rewrite decide_False]. Qed.
Lemma first_insert m p t q : first_of (<[p := t]> m) q = if decide (q = p) then Some (cptr t) else first_of m q.
Proof. unfold first_of. rewrite lookup_insert. destruct (decide (p = q)) as [->|]; [by rewrite decide_True|by rewrite decide_False]. Qed.
Lemma info_insert m p t q : info (<[p := t]> m) q = if decide (q = p) then Some (pid t, flags t, exit_code t) else info m q.
Proof. unfold info. rewrite lookup_insert. destruct (decide (p = q)) as [->|]; [by rewrite decide_True|by rewrite decide_False]. Qed.

Lemma info_alloc m m' q : info m' q = info m q -> is_Some (m' !! q) <-> is_Some (m !! q).
Proof.
  unfold info. intros H. rewrite <-!(fmap_is_Some (fun t => (pid t, flags t, exit_code t))). by rewrite H.
Qed.

(** ** Linking and unlinking *)

Definition set_younger (p : pptr) (o : option (pptr * pptr * pptr)) : option (pptr * pptr * pptr) :=
  (fun x => (x.1.1, p, x.2)) <$> o.
Definition set_older (p : pptr) (o : option (pptr * pptr * pptr)) : option (pptr * pptr * pptr) :=
  (fun x => (x.1.1, x.1.2, p)) <$> o.

(** [m'] is [m] with [p] linked in as the youngest child of [par]. *)
Record linked_in (m m' : gmap pptr task) (kids : pptr -> list pptr) (par p : pptr) : Prop := {
  ln_sib q : sib_of m' q = if decide (q = p) then Some (par, NULL, List.hd NULL (kids par))
                           else if decide (q = List.hd NULL (kids par)) then set_younger p (sib_of m q) else sib_of m q;
  ln_first q : first_of m' q = if decide (q = par) then Some p else first_of m q;
  ln_info q : info m' q = info m q;
}.

Lemma linked_tree m m' kids ys par p :
  tree m kids ys -> linked_in m m' kids par p -> is_Some (m !! p) -> is_Some (m !! par) -> ys par = NULL ->
  (forall q, p ∉ kids q) -> tree m' (<[par := p :: kids par]> kids) ys.
Proof.
  intros H L Hp Hpar Hy Hn.
  assert (Hsib : forall q c, q <> par -> c ∈ kids q -> sib_of m' c = sib_of m c).
  { intros q c Hq Hc. rewrite (ln_sib _ _ _ _ _ L), decide_False by (intros ->; by apply (Hn q)).
    destruct (decide (c = List.hd NULL (kids par))) as [E|]; [|done]. exfalso.
    destruct (kids par) as [|d l] eqn:Ek; cbn in E.
    - destruct (tree_kid_alloc _ _ _ _ _ H Hc) as (_&_&?). done.
    - subst d. apply Hq. eapply tree_kid_unique; [done|done|]. rewrite Ek. set_solver +. }
  split.
  - apply (eq_None_not_Some). rewrite (info_alloc m m') by apply (ln_info _ _ _ _ _ L).
    rewrite (tr_null _ _ _ H). by intros [? ?].
  - intros q. destruct (decide (par = q)) as [<-|Hq].
    + rewrite fn_lookup_insert, Hy. apply sibs_sib. split; [by rewrite (ln_sib _ _ _ _ _ L), decide_True|].
      pose proof (tr_sibs _ _ _ H par) as Hs. pose proof (tr_nodup _ _ _ H par) as Hnd. pose proof (Hn par) as Hnp.
      rewrite Hy in Hs.
      assert (Hne : forall c, c ∈ kids par -> c <> p) by (intros c Hc ->; by apply Hnp).
      assert (Hl : forall c, c ∈ kids par -> sib_of m' c = if decide (c = List.hd NULL (kids par)) then set_younger p (sib_of m c) else sib_of m c).
      { intros c Hc. by rewrite (ln_sib _ _ _ _ _ L), decide_False by by apply Hne. }
      destruct (kids par) as [|c l]; [done|]. cbn [List.hd] in *. apply NoDup_cons in Hnd as [Hc Hnd].
      eapply sibs_first; [exact Hs|done| |].
      * intros d Hd. rewrite Hl by (apply elem_of_cons; by right). by rewrite decide_False by by intros ->.
      * rewrite Hl by (apply elem_of_cons; by left). rewrite decide_True by done.
        apply sibs_sib in Hs as [-> _]. done.
    + rewrite fn_lookup_insert_ne by done. eapply sibs_ext; [|apply H]. intros c Hc. by apply (Hsib q).
  - intros q Hq. rewrite (info_alloc m m') in Hq by apply (ln_info _ _ _ _ _ L).
    rewrite (ln_first _ _ _ _ _ L). destruct (decide (par = q)) as [<-|Hne].
    + by rewrite decide_True, fn_lookup_insert.
    + rewrite decide_False, fn_lookup_insert_ne by done. by apply (tr_first _ _ _ H).
  - intros q. destruct (decide (par = q)) as [<-|Hq]; [rewrite fn_lookup_insert|by rewrite fn_lookup_insert_ne; [apply H|]].
    constructor; [apply Hn|apply H].
  - intros q Hq. assert (m !! q = None) as Hq'.
    { apply eq_None_not_Some. rewrite <-(info_alloc m m') by apply (ln_info _ _ _ _ _ L). rewrite Hq. by intros [? ?]. }
    destruct (decide (par = q)) as [<-|Hne]; [|rewrite fn_lookup_insert_ne by done; by apply (tr_none _ _ _ H)].
    rewrite Hq' in Hpar. by destruct Hpar.
Qed.

(** [m'] is [m] with [p] taken out of the children [l1 ++ p :: l2] of [par]. *)
Record taken_out (m m' : gmap pptr task) (par p : pptr) (l1 l2 : list pptr) : Prop := {
  tk_sib q : q <> p -> sib_of m' q = if decide (q = List.hd NULL l2) then set_younger (last_of NULL l1) (sib_of m q)
                                     else if decide (q = last_of NULL l1) then set_older (List.hd NULL l2) (sib_of m q)
                                     else sib_of m q;
  tk_first q : first_of m' q = if decide (q = par /\ l1 = []) then Some (List.hd NULL l2) else first_of m q;
  tk_info q : info m' q = info m q;
}.

Lemma last_of_snoc y l c : last_of y (l ++ [c]) = c.
Proof. revert y. induction l as [|d l IH]; intros y; [done|]. cbn. apply IH. Qed.

Lemma sibs_take_out m m' par p l1 l2 :
  sibs m par NULL (l1 ++ p :: l2) NULL -> NoDup (l1 ++ p :: l2) -> NULL ∉ l1 ++ p :: l2 ->
  taken_out m m' par p l1 l2 -> sibs m' par NULL (l1 ++ l2) NULL.
Proof.
  intros Hs Hnd Hn T. apply NoDup_app in Hnd as (Hnd1&Hd&Hnd2). apply NoDup_cons in Hnd2 as [Hp2 Hnd2].
  assert (Hp1 : p ∉ l1) by (intros Hc; apply (Hd p Hc); apply elem_of_cons; by left).
  assert (Hd2 : forall c, c ∈ l1 -> c ∉ l2) by (intros c Hc Hc2; apply (Hd c Hc), elem_of_cons; by right).
  rewrite elem_of_app, elem_of_cons in Hn.
  rewrite sibs_app, sibs_sib in Hs. destruct Hs as (Hs1&Hsp&Hs2). cbn [List.hd] in Hs1.
  apply sibs_app. split.
  - destruct l1 as [|c l1] using rev_ind; [done|]. clear IHl1. rewrite last_of_snoc in *.
    pose proof Hs1 as Hc. apply sibs_app in Hc as [_ Hc]. apply sibs_sib in Hc as [Hc _]. cbn [List.hd] in Hc.
    assert (Hin : forall d, d ∈ l1 ++ [c] -> d <> p /\ d <> List.hd NULL l2).
    { intros d Hd'. split; [by intros ->|]. intros ->. destruct l2 as [|e l2]; cbn in *; [tauto|].
      apply (Hd2 e Hd'), elem_of_cons. by left. }
    apply NoDup_app in Hnd1 as Hnd1'. destruct Hnd1' as (_&Hdc&_).
    eapply sibs_last; [exact Hs1|done| |exact Hc|].
    + intros d Hd'. destruct (Hin d) as [? ?]; [apply elem_of_app; by left|].
      rewrite (tk_sib _ _ _ _ _ _ T), decide_False, last_of_snoc, decide_False; [done| |done|done].
      intros ->. apply (Hdc c Hd'). by apply list_elem_of_singleton.
    + destruct (Hin c) as [? ?]; [apply elem_of_app; right; by apply list_elem_of_singleton|].
      by rewrite (tk_sib _ _ _ _ _ _ T), decide_False, last_of_snoc, decide_True, Hc by done.
  - destruct l2 as [|c l2]; [done|]. cbn [List.hd] in *. apply NoDup_cons in Hnd2 as [Hc2 Hnd2].
    assert (Hl1 : forall d, d ∈ c :: l2 -> d <> last_of NULL l1).
    { intros d Hd' ->. destruct l1 as [|e l1]; [tauto|]. apply (Hd2 (last_of NULL (e :: l1))); [by apply last_of_in|done]. }
    eapply sibs_first; [exact Hs2|done| |].
    + intros d Hd'. rewrite (tk_sib _ _ _ _ _ _ T).
      * rewrite decide_False by (cbn; by intros ->). rewrite decide_False; [done|]. apply Hl1, elem_of_cons. by right.
      * intros ->. apply Hp2, elem_of_cons. by right.
    + rewrite (tk_sib _ _ _ _ _ _ T), decide_True; [|done|].
      * apply sibs_sib in Hs2 as [-> _]. done.
      * intros ->. apply Hp2, elem_of_cons. by left.
Qed.

Lemma taken_tree m m' kids par p l1 l2 :
  tree_rep m kids -> kids par = l1 ++ p :: l2 -> taken_out m m' par p l1 l2 -> tree_rep m' (<[par := l1 ++ l2]> kids).
Proof.
  intros H Hk T. pose proof (tr_nodup _ _ _ H par) as Hnd.
  assert (Hpin : p ∈ kids par) by (rewrite Hk; set_solver +).
  assert (Hlast : last_of NULL l1 = NULL \/ last_of NULL l1 ∈ kids par).
  { destruct l1 as [|c l1]; [by left|right]. rewrite Hk, elem_of_app. left. by apply last_of_in. }
  assert (Hhd : List.hd NULL l2 = NULL \/ List.hd NULL l2 ∈ kids par).
  { destruct l2 as [|c l2]; [by left|right]. rewrite Hk. cbn. set_solver +. }
  split.
  - apply eq_None_not_Some. rewrite (info_alloc m m') by apply (tk_info _ _ _ _ _ _ T).
    rewrite (tr_null _ _ _ H). by intros [? ?].
  - intros q. destruct (decide (par = q)) as [<-|Hq].
    + rewrite fn_lookup_insert. eapply (sibs_take_out m); [rewrite <-Hk; apply H|by rewrite <-Hk| |done].
      rewrite <-Hk. intros Hc. by destruct (tree_kid_alloc _ _ _ _ _ H Hc) as (_&_&?).
    + rewrite fn_lookup_insert_ne by done. eapply sibs_ext; [|apply H]. intros c Hc.
      assert (Hne : forall d, d = NULL \/ d ∈ kids par -> c <> d).
      { intros d [->|Hd]; [by destruct (tree_kid_alloc _ _ _ _ _ H Hc) as (_&_&?)|]. intros ->. apply Hq.
        by eapply tree_kid_unique. }
      rewrite (tk_sib _ _ _ _ _ _ T) by (apply Hne; by right).
      by rewrite !decide_False by by apply Hne.
  - intros q Hq. rewrite (info_alloc m m') in Hq by apply (tk_info _ _ _ _ _ _ T).
    rewrite (tk_first _ _ _ _ _ _ T), (tr_first _ _ _ H q Hq). destruct (decide (par = q)) as [<-|Hne].
    + rewrite fn_lookup_insert, Hk. destruct l1; [by rewrite decide_True|]. rewrite decide_False; [done|]. by intros [_ ?].
    + by rewrite fn_lookup_insert_ne, decide_False by naive_solver.
  - intros q. destruct (decide (par = q)) as [<-|Hq]; [rewrite fn_lookup_insert|by rewrite fn_lookup_insert_ne; [apply H|]].
    rewrite Hk in Hnd. eapply sublist_NoDup; [exact Hnd|]. apply sublist_app; [done|]. by apply sublist_cons.
  - intros q Hq. assert (m !! q = None) as Hq'.
    { apply eq_None_not_Some. rewrite <-(info_alloc m m') by apply (tk_info _ _ _ _ _ _ T). rewrite Hq. by intros [? ?]. }
    destruct (decide (par = q)) as [<-|Hne]; [|rewrite fn_lookup_insert_ne by done; by apply (tr_none _ _ _ H)].
    rewrite (tr_none _ _ _ H _ Hq') in Hk. by destruct l1.
Qed.

(** The first child of [c] is forgotten; the next keeps it as younger sibling. *)
Lemma behead_tree m kids ys c p l t :
  tree m kids ys -> kids c = p :: l -> m !! c = Some t ->
  tree (<[c := set_cptr (List.hd NULL l) t]> m) (<[c := l]> kids) (<[c := p]> ys).
Proof.
  intros H Hk Ht. pose proof (tr_nodup _ _ _ H c) as Hnd. rewrite Hk in Hnd. apply NoDup_cons in Hnd as [Hp Hnd].
  assert (Hs : forall q, sib_of (<[c := set_cptr (List.hd NULL l) t]> m) q = sib_of m q).
  { intros q. rewrite sib_insert. destruct (decide (q = c)) as [->|]; [|done]. unfold sib_of. by rewrite Ht. }
  split.
  - rewrite lookup_insert_ne; [apply H|]. intros ->. by rewrite (tr_null _ _ _ H) in Ht.
  - intros q. eapply sibs_ext; [intros d _; apply Hs|]. destruct (decide (c = q)) as [<-|Hq].
    + rewrite !fn_lookup_insert. pose proof (tr_sibs _ _ _ H c) as Hc. rewrite Hk in Hc. apply Hc.
    + rewrite !fn_lookup_insert_ne by done. apply H.
  - intros q Hq. rewrite first_insert. destruct (decide (q = c)) as [->|Hne]; [by rewrite fn_lookup_insert|].
    rewrite fn_lookup_insert_ne by done. apply (tr_first _ _ _ H). by rewrite lookup_insert_ne in Hq.
  - intros q. destruct (decide (c = q)) as [<-|Hq]; [by rewrite fn_lookup_insert|].
    rewrite fn_lookup_insert_ne by done. apply H.
  - intros q [Hq Hne]%lookup_insert_None. rewrite fn_lookup_insert_ne by done. by apply (tr_none _ _ _ H).
Qed.

Lemma tree_settled m kids kids' ys ys' :
  tree m kids ys -> (forall q, kids' q = kids q) -> (forall q, kids q <> [] -> ys' q = ys q) -> tree m kids' ys'.
Proof.
  intros H Ek Hy. split; try (intros q; rewrite Ek); try apply H. pose proof (tr_sibs _ _ _ H q) as Hs.
  destruct (kids q) as [|c l] eqn:E; [done|]. by rewrite Hy by by rewrite E.
Qed.

(** A descriptor that is in no list comes or goes, or changes fields outside the tree. *)
Lemma tree_add m kids p t :
  tree_rep m kids -> m !! p = None -> p <> NULL -> cptr t = NULL -> tree_rep (<[p := t]> m) kids.
Proof.
  intros H Hp Hn Hc. assert (Hk : forall q, p ∉ kids q).
  { intros q Hq. destruct (tree_kid_alloc _ _ _ _ _ H Hq) as ([? ?]&_). congruence. }
  split.
  - rewrite lookup_insert_ne by done. apply H.
  - intros q. eapply sibs_ext; [|apply H]. intros c Hcq. rewrite sib_insert, decide_False; [done|]. intros ->. by apply (Hk q).
  - intros q Hq. rewrite first_insert. destruct (decide (q = p)) as [->|Hne].
    + by rewrite (tr_none _ _ _ H _ Hp), Hc.
    + apply (tr_first _ _ _ H). by rewrite lookup_insert_ne in Hq.
  - apply H.
  - intros q [Hq _]%lookup_insert_None. by apply (tr_none _ _ _ H).
Qed.

Lemma tree_delete m kids p :
  tree_rep m kids -> kids p = [] -> (forall q, p ∉ kids q) -> tree_rep (delete p m) kids.
Proof.
  intros H Hp Hk. split.
  - rewrite lookup_delete. case_decide; [done|apply H].
  - intros q. eapply sibs_ext; [|apply H]. intros c Hc. unfold sib_of. rewrite lookup_delete_ne; [done|].
    intros ->. by apply (Hk q).
  - intros q. unfold first_of. rewrite lookup_delete. case_decide; [by intros [? ?]|]. apply (tr_first _ _ _ H).
  - apply H.
  - intros q. rewrite lookup_delete. case_decide; [by subst|]. apply (tr_none _ _ _ H).
Qed.

Lemma tree_update m kids ys p t t' :
  tree m kids ys -> m !! p = Some t -> parent t' = parent t -> cptr t' = cptr t -> yptr t' = yptr t -> optr t' = optr t ->
  tree (<[p := t']> m) kids ys.
Proof.
  intros H Ht E1 E2 E3 E4. split.
  - rewrite lookup_insert_ne; [apply H|]. intros ->. by rewrite (tr_null _ _ _ H) in Ht.
  - intros q. eapply sibs_ext; [|apply H]. intros c _. rewrite sib_insert. destruct (decide (c = p)) as [->|]; [|done].
    unfold sib_of. rewrite Ht. cbn. by rewrite E1, E3, E4.
  - intros q Hq. rewrite first_insert. destruct (decide (q = p)) as [->|Hne].
    + rewrite E2, <-(tr_first _ _ _ H p) by eauto. unfold first_of. by rewrite Ht.
    + apply (tr_first _ _ _ H). by rewrite lookup_insert_ne in Hq.
  - apply H.
  - intros q [Hq _]%lookup_insert_None. by apply (tr_none _ _ _ H).
Qed.

(** The fields by which a process is known. *)
Definition ident (m : gmap pptr task) (p : pptr) : option (Z * Z * Z * pptr) :=
  (fun t => (pid t, flags t, exit_code t, parent t)) <$> m !! p.

Lemma ident_split m m' p q :
  info m' p = info m q -> fst <$> (fst <$> sib_of m' p) = fst <$> (fst <$> sib_of m q) -> ident m' p = ident m q.
Proof. unfold info, sib_of, ident. destruct (m' !! p), (m !! q); cbn; congruence. Qed.

Lemma ident_lookup m m' p t' : ident m' p = ident m p -> m' !! p = Some t' ->
  exists t, m !! p = Some t /\ pid t = pid t' /\ flags t = flags t' /\ exit_code t = exit_code t' /\ parent t = parent t'.
Proof. unfold ident. intros H Ht. rewrite Ht in H. destruct (m !! p) as [t|]; [|done]. injection H. intros. by exists t. Qed.

Lemma ident_pid m q : pid <$> m !! q = (fun x => x.1.1.1) <$> ident m q.
Proof. unfold ident. by destruct (m !! q). Qed.

Lemma ident_insert m p t q : ident (<[p := t]> m) q = if decide (q = p) then Some (pid t, flags t, exit_code t, parent t) else ident m q.
Proof. unfold ident. rewrite lookup_insert. destruct (decide (p = q)) as [->|]; [by rewrite decide_True|by rewrite decide_False]. Qed.

Lemma linked_ident m m' kids par p t q :
  linked_in m m' kids par p -> m !! p = Some t -> parent t = par -> ident m' q = ident m q.
Proof.
  intros L Ht Hp. apply ident_split; [apply L|]. rewrite (ln_sib _ _ _ _ _ L).
  destruct (decide (q = p)) as [->|]; [unfold sib_of; rewrite Ht; cbn; by rewrite Hp|].
  destruct (decide (q = _)); [|done]. unfold set_younger. by destruct (sib_of m q).
Qed.

Lemma taken_ident m m' par p l1 l2 q : taken_out m m' par p l1 l2 -> q <> p -> ident m' q = ident m q.
Proof.
  intros T Hq. apply ident_split; [apply T|]. rewrite (tk_sib _ _ _ _ _ _ T) by done.
  destruct (decide _); [unfold set_younger; by destruct (sib_of m q)|].
  destruct (decide _); [unfold set_older; by destruct (sib_of m q)|done].
Qed.

(** The links of a process that is in no list do not matter. *)
Lemma tree_free m kids ys p t t' :
  tree m kids ys -> (forall q, p ∉ kids q) -> m !! p = Some t -> cptr t' = cptr t -> tree (<[p := t']> m) kids ys.
Proof.
  intros H Hk Ht Hc. split; [| | |apply H|].
  - rewrite lookup_insert_ne; [apply H|]. intros ->. by rewrite (tr_null _ _ _ H) in Ht.
  - intros q. eapply sibs_ext; [|apply H]. intros d Hd. rewrite sib_insert, decide_False; [done|]. intros ->. by apply (Hk q).
  - intros q Hq. rewrite first_insert. destruct (decide (q = p)) as [->|].
    + rewrite <-(tr_first _ _ _ H) by eauto. unfold first_of. rewrite Ht. cbn. by rewrite Hc.
    + apply (tr_first _ _ _ H). by rewrite lookup_insert_ne in Hq.
  - intros q [Hq _]%lookup_insert_None. by apply (tr_none _ _ _ H).
Qed.

(** ** The operations *)

Section ops.
Context {E : Type}.
Implicit Types (s : pst E) (p q par : pptr).

Lemma wp_task_at p t s (Q : task -> pst E -> Prop) : tasks s !! p = Some t -> Q t s -> wp (task_at p) Q s.
Proof. intros Ht H. unfold wp, task_at, unwrap. by rewrite Ht. Qed.

Lemma wp_task_upd p f t s (Q : () -> pst E -> Prop) :
  tasks s !! p = Some t -> Q () (set_tasks (<[p := f t]> (tasks s)) s) -> wp (task_upd p f) Q s.
Proof. intros Ht H. unfold task_upd. kstep. eapply wp_task_at; [done|]. by kstep. Qed.

(** The last writes of linking [p] under [par], shared by [set_links] and [do_exit]. *)
Lemma linked_writes m kids ys par p tp ti :
  tree m kids ys -> m !! p = Some tp -> m !! par = Some ti -> p <> par -> p ∉ kids par -> par ∉ kids par ->
  parent tp = par -> yptr tp = NULL -> optr tp = List.hd NULL (kids par) ->
  forall m', (m' = <[par := set_cptr p ti]> m /\ kids par = [] \/
     exists c l tc, kids par = c :: l /\ m !! c = Some tc /\ m' = <[par := set_cptr p ti]> (<[c := set_yptr p tc]> m)) ->
  linked_in m m' kids par p.
Proof.
  intros H Hp Hi Hne Hk Hself E1 E2 E3 m' [[-> Ek]|(c&l&tc&Ek&Hc&->)]; rewrite Ek in *; cbn [List.hd] in *.
  - split.
    + intros q. rewrite sib_insert, Ek. cbn [List.hd]. destruct (decide (q = par)) as [->|Hq].
      * rewrite !decide_False; [unfold sib_of; by rewrite Hi| |congruence].
        intros ->. by rewrite (tr_null _ _ _ H) in Hi.
      * destruct (decide (q = p)) as [->|]; [unfold sib_of; rewrite Hp; cbn; by rewrite E1, E2, E3|].
        destruct (decide (q = NULL)) as [->|]; [|done]. unfold sib_of. by rewrite (tr_null _ _ _ H).
    + intros q. rewrite first_insert. done.
    + intros q. rewrite info_insert. destruct (decide (q = par)) as [->|]; [|done]. unfold info. by rewrite Hi.
  - assert (c <> p) by (intros ->; apply Hk; set_solver +).
    assert (c <> par) by (intros ->; apply Hself; set_solver +).
    split.
    + intros q. rewrite !sib_insert, Ek. cbn [List.hd]. destruct (decide (q = par)) as [->|Hq].
      * rewrite !decide_False by congruence. unfold sib_of. by rewrite Hi.
      * destruct (decide (q = p)) as [->|]; [rewrite decide_False by congruence; unfold sib_of; rewrite Hp; cbn; by rewrite E1, E2, E3|].
        destruct (decide (q = c)) as [->|]; [|done]. unfold sib_of. by rewrite Hc.
    + intros q. rewrite !first_insert. destruct (decide (q = par)); [done|].
      destruct (decide (q = c)) as [->|]; [|done]. unfold first_of. by rewrite Hc.
    + intros q. rewrite !info_insert. destruct (decide (q = par)) as [->|]; [unfold info; by rewrite Hi|].
      destruct (decide (q = c)) as [->|]; [|done]. unfold info. by rewrite Hc.
Qed.

(** A record that only changed the links of [p] before it was linked in. *)
Lemma linked_before m m1 m' kids par p t t1 :
  m !! p = Some t -> m1 = <[p := t1]> m -> p <> par -> cptr t1 = cptr t -> pid t1 = pid t -> flags t1 = flags t ->
  exit_code t1 = exit_code t -> p <> List.hd NULL (kids par) ->
  linked_in m1 m' kids par p -> linked_in m m' kids par p.
Proof.
  intros Ht -> Hne E1 E2 E3 E4 Hh [L1 L2 L3]. split.
  - intros q. rewrite L1, sib_insert. by repeat case_decide.
  - intros q. rewrite L2, first_insert. destruct (decide (q = p)) as [->|]; [|done].
    unfold first_of. rewrite Ht. cbn. by rewrite E1.
  - intros q. rewrite L3, info_insert. destruct (decide (q = p)) as [->|]; [|done].
    unfold info. rewrite Ht. cbn. by rewrite E2, E3, E4.
Qed.

Definition links_upd (l : list pptr) (m : gmap pptr task) (n : Z) s : pst E :=
  set_nr_process n (set_tasks m (set_proc_list l s)).

Lemma wp_set_links s kids p t (Q : () -> pst E -> Prop) :
  tree_rep (tasks s) kids -> tasks s !! p = Some t -> (forall q, p ∉ kids q) ->
  is_Some (tasks s !! parent t) -> parent t <> p -> parent t ∉ kids (parent t) ->
  (forall m', linked_in (tasks s) m' kids (parent t) p ->
     Q () (links_upd (p :: proc_list s) m' (s32 (nr_process s + 1)) s)) ->
  wp (set_links p) Q s.
Proof.
  intros H Ht Hk [ti Hi] Hne Hself HQ. set (par := parent t) in *.
  unfold set_links. ksteps. eapply wp_task_upd; [exact Ht|]. cbn [tasks set_tasks set_proc_list].
  ksteps. eapply wp_task_at; [apply lookup_insert_eq|]. ksteps. change (parent (set_yptr NULL t)) with par.
  eapply wp_task_at; [cbn; rewrite lookup_insert_ne by done; exact Hi|].
  ksteps. eapply wp_task_upd; [apply lookup_insert_eq|]. cbn [tasks set_tasks]. rewrite insert_insert_eq. kstep.
  set (t1 := set_optr (cptr ti) (set_yptr NULL t)). set (m1 := <[p := t1]> (tasks s)).
  assert (Hc : cptr ti = List.hd NULL (kids par)).
  { pose proof (tr_first _ _ _ H par ltac:(eauto)) as Hf. unfold first_of in Hf. rewrite Hi in Hf. by injection Hf. }
  assert (Hhp : p <> List.hd NULL (kids par) \/ kids par = []).
  { destruct (kids par) as [|c l] eqn:Ek; [by right|left]. cbn. intros <-. apply (Hk par). rewrite Ek. set_solver +. }
  assert (Hpn : p <> NULL) by (intros ->; by rewrite (tr_null _ _ _ H) in Ht).
  assert (Hhp' : p <> List.hd NULL (kids par)) by (destruct Hhp as [|Ek]; [done|by rewrite Ek]).
  assert (H1 : tree_rep m1 kids) by (by eapply tree_free).
  assert (Hm1p : m1 !! p = Some t1) by apply lookup_insert_eq.
  assert (Hm1i : m1 !! par = Some ti) by (unfold m1; by rewrite lookup_insert_ne by done).
  assert (Hfin : forall m', (m' = <[par := set_cptr p ti]> m1 /\ kids par = [] \/
     exists c l tc, kids par = c :: l /\ m1 !! c = Some tc /\ m' = <[par := set_cptr p ti]> (<[c := set_yptr p tc]> m1)) ->
     linked_in (tasks s) m' kids par p).
  { intros m' Hm'. eapply (linked_before _ m1 _ _ _ _ t t1); [done|done|done|done|done|done|done|done|].
    by eapply (linked_writes m1 kids (fun _ => NULL) par p t1 ti). }
  apply wp_when_dec; intros Ecp; [|apply dec_stable in Ecp].
  - destruct (kids par) as [|c l] eqn:Ek; [by rewrite Hc in Ecp|]. cbn [List.hd] in Hc.
    destruct (tree_kid_alloc _ _ _ par c H) as ([tc Htc]&_&_); [rewrite Ek; set_solver +|].
    assert (c <> p) by (intros ->; by apply Hhp').
    assert (c <> par) by (intros ->; apply Hself; set_solver +).
    rewrite Hc. eapply wp_task_upd; [cbn; unfold m1; rewrite lookup_insert_ne by done; exact Htc|]. ksteps.
    eapply wp_task_upd; [cbn; rewrite lookup_insert_ne by done; exact Hm1i|]. ksteps. apply HQ, Hfin.
    right. exists c, l, tc. split_and!; [done|by unfold m1; rewrite lookup_insert_ne by done|done].
  - ksteps. eapply wp_task_upd; [exact Hm1i|]. ksteps. apply HQ, Hfin. left. split; [done|].
    destruct (kids par) as [|c l] eqn:Ek; [done|]. exfalso. cbn in Hc.
    destruct (tree_kid_alloc _ _ _ par c H) as (_&_&?); [rewrite Ek; set_solver +|congruence].
Qed.

Lemma filter_notin p l : p ∉ l -> List.filter (fun q => negb (q =? p)) l = l.
Proof.
  induction l as [|q l IH]; intros H; [done|]. rewrite not_elem_of_cons in H. destruct H as [Hq H]. cbn.
  rewrite (proj2 (Z.eqb_neq q p)) by congruence. cbn. by rewrite IH.
Qed.

Lemma elem_of_remove p q l : q ∈ List.filter (fun a => negb (a =? p)) l <-> q ∈ l /\ q <> p.
Proof. rewrite !list_elem_of_In, filter_In. destruct (Z.eqb_spec q p); cbn; naive_solver. Qed.

(** The neighbours of [p] among the children of its parent. *)
Lemma sibs_mid m kids ys par p l1 l2 t :
  tree m kids ys -> kids par = l1 ++ p :: l2 -> m !! p = Some t ->
  yptr t = last_of (ys par) l1 /\ optr t = List.hd NULL l2 /\ parent t = par.
Proof.
  intros H Ek Ht. pose proof (tr_sibs _ _ _ H par) as Hs. rewrite Ek, sibs_app, sibs_sib in Hs.
  destruct Hs as (_&Hs&_). unfold sib_of in Hs. rewrite Ht in Hs. by injection Hs as -> -> ->.
Qed.

Lemma wp_remove_links s kids par p l1 l2 (Q : () -> pst E -> Prop) :
  tree_rep (tasks s) kids -> kids par = l1 ++ p :: l2 -> p ∉ l1 ++ l2 -> is_Some (tasks s !! p) -> p <> par -> par ∉ kids par ->
  (forall m', taken_out (tasks s) m' par p l1 l2 ->
     Q () (links_upd (List.filter (fun q => negb (q =? p)) (proc_list s)) m' (s32 (nr_process s - 1)) s)) ->
  wp (remove_links p) Q s.
Proof.
  intros H Ek Hp [t Ht] Hne Hself HQ. destruct (sibs_mid _ _ _ _ _ _ _ _ H Ek Ht) as (Ey&Eo&Ep).
  assert (Hin : p ∈ kids par) by (rewrite Ek; set_solver +).
  destruct (tree_kid_alloc _ _ _ _ _ H Hin) as (_&[ti Hi]&Hpn).
  assert (Ho : forall q, q ∈ l1 ++ l2 -> is_Some (tasks s !! q) /\ q <> NULL /\ q <> p /\ q <> par).
  { intros q Hq. assert (q ∈ kids par) as Hqk by (rewrite Ek; set_solver +Hq).
    destruct (tree_kid_alloc _ _ _ _ _ H Hqk) as (?&_&?). split_and!; [done|done|by intros ->|by intros ->]. }
  assert (Hhd : List.hd NULL l2 = NULL \/ List.hd NULL l2 ∈ l1 ++ l2) by (destruct l2; [by left|right; cbn; set_solver +]).
  assert (Hla : last_of NULL l1 = NULL \/ last_of NULL l1 ∈ l1 ++ l2).
  { destruct l1; [by left|right]. apply elem_of_app. left. by apply last_of_in. }
  assert (Hl1 : last_of NULL l1 = NULL <-> l1 = []).
  { split; [|by intros ->]. intros E0. destruct l1 as [|c l1]; [done|].
    destruct Hla as [_|Hla]; [|by destruct (Ho _ Hla) as (_&?&_)].
    destruct (Ho (last_of NULL (c :: l1))) as (_&?&_); [|done]. apply elem_of_app. left. by apply last_of_in. }
  unfold remove_links. ksteps. eapply wp_task_at; [exact Ht|]. ksteps. rewrite Ey, Eo, Ep.
  (* the older sibling *)
  eapply (wp_mono _ (fun _ s1 => exists m1, s1 = set_tasks m1 (set_proc_list (List.filter (fun q => negb (q =? p)) (proc_list s)) s) /\
    (forall q, sib_of m1 q = if decide (q = List.hd NULL l2) then set_younger (last_of NULL l1) (sib_of (tasks s) q) else sib_of (tasks s) q) /\
    (forall q, first_of m1 q = first_of (tasks s) q) /\ (forall q, info m1 q = info (tasks s) q))).
  { apply wp_when_dec; intros E0.
    - destruct Hhd as [|Hhd]; [done|]. destruct (Ho _ Hhd) as ([tc Htc]&_).
      eapply wp_task_upd; [exact Htc|]. cbn [tasks set_tasks set_proc_list]. eexists. split; [done|]. split_and!; intros q.
      + rewrite sib_insert. destruct (decide (q = List.hd NULL l2)) as [->|]; [|done]. unfold sib_of. by rewrite Htc.
      + rewrite first_insert. destruct (decide (q = List.hd NULL l2)) as [->|]; [|done]. unfold first_of. by rewrite Htc.
      + rewrite info_insert. destruct (decide (q = List.hd NULL l2)) as [->|]; [|done]. unfold info. by rewrite Htc.
    - apply dec_stable in E0. exists (tasks s). split; [by destruct s|]. split_and!; [|done|done].
      intros q. destruct (decide (q = List.hd NULL l2)) as [->|]; [|done]. unfold sib_of. by rewrite E0, (tr_null _ _ _ H). }
  intros [] s1 (m1&->&S1&F1&I1).
  assert (Halloc : forall q, is_Some (tasks s !! q) -> is_Some (m1 !! q)) by (intros q; by apply (info_alloc (tasks s) m1)).
  kstep. eapply (wp_mono _ (fun _ s2 => exists m2, s2 = set_tasks m2 (set_proc_list (List.filter (fun q => negb (q =? p)) (proc_list s)) s) /\
    taken_out (tasks s) m2 par p l1 l2)); [|intros [] s2 (m2&->&T); kstep; by apply HQ].
  case_bool_decide as E1.
  - assert (l1 <> []) as El by (intros E0; by apply E1, Hl1).
    destruct Hla as [|Hla]; [done|]. destruct (Ho _ Hla) as (Hsome&Hlp).
    destruct (Halloc _ Hsome) as [tc Htc]. eapply wp_task_upd; [exact Htc|].
    eexists. split; [done|]. split; intros q; cbn [tasks set_tasks].
    + intros Hq. rewrite sib_insert. destruct (decide (q = last_of NULL l1)) as [->|Hql].
      * assert (Hs1 : sib_of m1 (last_of NULL l1) = Some (parent tc, yptr tc, optr tc)) by (unfold sib_of; by rewrite Htc).
        assert (Hne' : last_of NULL l1 <> List.hd NULL l2).
        { intros E0. destruct Hhd as [Hhd|Hhd]; [congruence|]. pose proof (tr_nodup _ _ _ H par) as Hnd. rewrite Ek in Hnd.
          apply NoDup_app in Hnd as (_&Hd&_). apply (Hd (last_of NULL l1)); [by apply last_of_in|].
          rewrite E0. destruct l2 as [|c l2]; [cbn in E0; congruence|]. cbn. set_solver +. }
        rewrite decide_False by done. rewrite S1, decide_False in Hs1 by done. by rewrite Hs1.
      * rewrite S1. done.
    + rewrite first_insert, F1. rewrite (decide_False (P := q = par /\ l1 = [])) by naive_solver.
      destruct (decide (q = last_of NULL l1)) as [->|]; [|done]. rewrite <-F1. unfold first_of. by rewrite Htc.
    + rewrite info_insert, I1. destruct (decide (q = last_of NULL l1)) as [->|]; [|done]. rewrite <-I1. unfold info. by rewrite Htc.
  - pose proof (proj1 Hl1 E1) as ->. destruct (Halloc par) as [tc Htc]; [eauto|].
    eapply wp_task_upd; [exact Htc|]. eexists. split; [done|]. split; intros q; cbn [tasks set_tasks last_of].
    + intros Hq. rewrite sib_insert. destruct (decide (q = par)) as [->|Hqp].
      * assert (Hs1 : sib_of m1 par = Some (parent tc, yptr tc, optr tc)) by (unfold sib_of; by rewrite Htc).
        assert (par <> NULL) by (intros ->; by rewrite (tr_null _ _ _ H) in Hi).
        assert (par <> List.hd NULL l2).
        { intros E0. destruct Hhd as [Hhd|Hhd]; [congruence|]. rewrite <-E0 in Hhd. by destruct (Ho _ Hhd) as (_&_&_&?). }
        rewrite S1, decide_False in Hs1 by done. by rewrite !decide_False, Hs1 by done.
      * rewrite S1. destruct (decide (q = List.hd NULL l2)); [done|]. destruct (decide (q = NULL)) as [->|]; [|done].
        unfold sib_of. by rewrite (tr_null _ _ _ H).
    + rewrite first_insert, F1. cbn. destruct (decide (q = par)) as [->|]; [by rewrite decide_True|]. by rewrite decide_False by naive_solver.
    + rewrite info_insert, I1. destruct (decide (q = par)) as [->|]; [|done]. rewrite <-I1. unfold info. by rewrite Htc.
Qed.
End ops.

(** ** Process numbers *)

(** Every number of [lo, hi) is taken. *)
Definition all_taken (taken : Z -> Prop) (lo hi : Z) : Prop := forall v, lo <= v < hi -> taken v.
(** No number of [lo, hi) is the number of a process of [l]. *)
Definition none_of (m : gmap pptr task) (l : list pptr) (lo hi : Z) : Prop :=
  forall p t, p ∈ l -> m !! p = Some t -> ~ (lo <= pid t < hi).
(** Some process of [l] has the number [v]. *)
Definition some_has (m : gmap pptr task) (l : list pptr) (v : Z) : Prop :=
  exists p t, p ∈ l /\ m !! p = Some t /\ pid t = v.

Lemma none_of_weaken m l lo hi lo' hi' : none_of m l lo hi -> lo <= lo' -> hi' <= hi -> none_of m l lo' hi'.
Proof. intros H Hl Hh p t Hp Ht. specialize (H p t Hp Ht). lia. Qed.

Lemma none_of_snoc m l p t lo hi : none_of m l lo hi -> m !! p = Some t -> ~ (lo <= pid t < hi) -> none_of m (l ++ [p]) lo hi.
Proof.
  intros H Ht Hn q t' [Hq| ->%list_elem_of_singleton]%elem_of_app Ht'; [by eapply H|]. congruence.
Qed.

Section get_pid.
Context {E : Type}.
Implicit Types (s : pst E) (l pre : list pptr).

(** What a pass finds: a number that is free, or a larger one to start again with. *)
Definition scanned (m : gmap pptr task) (l : list pptr) (last : Z) (r : bool * Z * Z) : Prop :=
  let '(again, last', next') := r in
  if again : bool then
    next' = MAX_PID /\ exists last'', last < last'' <= MAX_PID /\ all_taken (some_has m l) last last'' /\
      last' = (if last'' >=? MAX_PID then 1 else last'')
  else last <= last' < next' /\ next' <= MAX_PID /\ all_taken (some_has m l) last last' /\ none_of m l last' next'.

Lemma wp_pid_scan s l0 start l pre last next :
  l0 = pre ++ l -> (forall p, p ∈ l0 -> is_Some (tasks s !! p)) ->
  start <= last < next -> next <= MAX_PID -> all_taken (some_has (tasks s) l0) start last ->
  none_of (tasks s) pre last next ->
  wp (pid_scan l last next) (fun r s' => s' = s /\ scanned (tasks s) l0 start r) s.
Proof.
  intros E0 Hall. revert pre last next E0. induction l as [|p l IH]; intros pre last next -> Hr Hm Htk Hno; cbn [pid_scan].
  - kstep. rewrite app_nil_r in *. split; [done|]. cbn. split_and!; [lia|lia|done|done|done].
  - destruct (Hall p) as [t Ht]; [set_solver +|]. kstep. eapply wp_task_at; [exact Ht|]. cbv zeta.
    assert (Eapp : pre ++ p :: l = (pre ++ [p]) ++ l) by by rewrite <-app_assoc.
    assert (Hhas : pid t = last -> all_taken (some_has (tasks s) (pre ++ p :: l)) start (last + 1)).
    { intros Ep v Hv. destruct (decide (v = last)) as [->|]; [|apply Htk; lia]. exists p, t. split_and!; [set_solver +|done|done]. }
    destruct (Z.eqb_spec (pid t) last) as [Ep|Ep].
    + specialize (Hhas Ep). destruct (Z.geb_spec (last + 1) next).
      * kstep. split; [done|]. split; [done|]. exists (last + 1). split_and!; [lia|lia|done|done].
      * apply (IH (pre ++ [p])); [done|lia|done|done|]. eapply none_of_snoc; [|exact Ht|lia].
        eapply none_of_weaken; [exact Hno|lia|lia].
    + destruct ((pid t >? last) && (next >? pid t)) eqn:Eb.
      * apply andb_true_iff in Eb as [E1%Z.gtb_lt E2%Z.gtb_lt].
        apply (IH (pre ++ [p])); [done|lia|lia|done|]. eapply none_of_snoc; [|exact Ht|lia].
        eapply none_of_weaken; [exact Hno|lia|lia].
      * apply (IH (pre ++ [p])); [done|lia|done|done|]. eapply none_of_snoc; [exact Hno|exact Ht|].
        apply andb_false_iff in Eb as [E1|E1]; rewrite Z.gtb_ltb, Z.ltb_ge in E1; lia.
Qed.

(** [u] is a free number; the passes reach it at the latest. *)
Lemma wp_pid_repeat s u fuel last :
  (forall p, p ∈ proc_list s -> is_Some (tasks s !! p)) -> 1 <= u < MAX_PID -> ~ some_has (tasks s) (proc_list s) u ->
  1 <= last < MAX_PID -> (if decide (last <= u) then u - last else MAX_PID - last + u) < Z.of_nat fuel ->
  wp (pid_repeat fuel last MAX_PID) (fun r s' => s' = s /\ 1 <= r.1 < r.2 /\ r.2 <= MAX_PID /\
    none_of (tasks s) (proc_list s) r.1 r.2) s.
Proof.
  intros Hall Hu Hfree. revert last. induction fuel as [|fuel IH]; intros last Hl Hf; [by case_decide; lia|].
  cbn [pid_repeat]. ksteps. eapply wp_mono.
  { apply (wp_pid_scan s (proc_list s) last (proc_list s) []); [done|done|lia|lia| |].
    - intros v Hv. lia.
    - intros p t Hp. by apply not_elem_of_nil in Hp. }
  intros [[again last'] next'] s' [-> H]. unfold scanned in H. destruct again.
  - destruct H as (->&last''&Hr&Htk&->).
    assert (Hskip : ~ (last <= u < last'')) by (intros Hv; apply Hfree; by apply Htk).
    apply IH; destruct (Z.geb_spec last'' MAX_PID); [lia|lia| |]; repeat case_decide; lia.
  - kstep. cbn. destruct H as (?&?&_&?). split_and!; [done|lia|lia|done|done].
Qed.

(** With fewer processes than numbers one is free. *)
Lemma free_pid s : (Z.of_nat (length (proc_list s)) < MAX_PID - 1) ->
  exists u, 1 <= u < MAX_PID /\ ~ some_has (tasks s) (proc_list s) u.
Proof.
  intros Hlen. set (num p := default 0 (pid <$> tasks s !! p)).
  set (nums := num <$> proc_list s). set (cand := seqZ 1 (MAX_PID - 1)).
  destruct (decide (Forall (fun u => u ∈ nums) cand)) as [Hf|Hf].
  - exfalso. assert (Hsub : cand ⊆+ nums).
    { apply NoDup_submseteq; [apply NoDup_seqZ|]. rewrite Forall_forall in Hf. exact Hf. }
    apply submseteq_length in Hsub. unfold cand, nums in Hsub. rewrite length_seqZ, length_fmap in Hsub. lia.
  - apply not_Forall_Exists in Hf; [|apply _]. apply Exists_exists in Hf as (u&Hu&Hn).
    apply elem_of_seqZ in Hu. exists u. split; [lia|]. intros (p&t&Hp&Ht&<-). apply Hn. cbn.
    apply list_elem_of_fmap. exists p. split; [|done]. unfold num. by rewrite Ht.
Qed.

(** [get_pid] returns a number from 1 on below [MAX_PID] that no listed process
    has, and knows a range of free numbers above it. *)
Lemma wp_get_pid s (Q : Z -> pst E -> Prop) :
  (forall p, p ∈ proc_list s -> is_Some (tasks s !! p)) -> Z.of_nat (length (proc_list s)) < MAX_PID - 1 ->
  0 <= last_pid s -> next_safe s <= MAX_PID -> none_of (tasks s) (proc_list s) (last_pid s + 1) (next_safe s) ->
  (forall n next, 1 <= n < next -> next <= MAX_PID -> none_of (tasks s) (proc_list s) n next ->
     Q n (set_pids next n s)) ->
  wp get_pid Q s.
Proof.
  intros Hall Hlen Hl Hm Hno HQ. unfold get_pid. kstep. kstep. cbv zeta. kstep.
  destruct (free_pid s Hlen) as (u&Hu&Hfree).
  assert (Hrep : forall last, 1 <= last < MAX_PID -> wp (pid_repeat pid_fuel last MAX_PID)
    (fun r s' => wp (let '(last, next) := r in modify (set_pids next last);; mret last) Q s') s).
  { intros last Hr. eapply wp_mono; [apply (wp_pid_repeat s u); [done|done|done|done|]|].
    - unfold pid_fuel, MAX_PID, MAX_PROCESS in *. case_decide; lia.
    - intros [last' next'] s' (->&?&?&?). ksteps. by apply HQ. }
  destruct (Z.geb_spec (last_pid s + 1) MAX_PID); [apply Hrep; unfold MAX_PID, MAX_PROCESS; lia|].
  destruct (Z.geb_spec (last_pid s + 1) (next_safe s)); [apply Hrep; lia|].
  ksteps. apply HQ; [lia|done|done].
Qed.
End get_pid.

(** ** Families and numbers *)

(** The tree, the process list and the descriptors agree; the idle process is
    nobody's child and not listed. *)
Record family (m : gmap pptr task) (l : list pptr) (idle : pptr) (kids : pptr -> list pptr) : Prop := {
  fa_tree : tree_rep m kids;
  fa_list p : p ∈ l <-> is_Some (m !! p) /\ p <> idle;
  fa_nodup : NoDup l;
  fa_child p t : p ∈ l -> m !! p = Some t -> p ∈ kids (parent t);
  fa_kids p q : q ∈ kids p -> q ∈ l;
  fa_noself p : p ∉ kids p;
}.

(** Numbers are in range and unique, [get_pid]'s range is free, and the hash
    chains hold each listed process under its number. *)
Record numbers (m : gmap pptr task) (l : list pptr) (hash : Z -> list pptr) (last next : Z) : Prop := {
  nu_pid p t : p ∈ l -> m !! p = Some t -> 0 < pid t < MAX_PID;
  nu_unique p q t u : p ∈ l -> q ∈ l -> m !! p = Some t -> m !! q = Some u -> pid t = pid u -> p = q;
  nu_hash b p : p ∈ hash b <-> p ∈ l /\ exists t, m !! p = Some t /\ pid_hashfn (pid t) = b;
  nu_last : 0 <= last;
  nu_next : next <= MAX_PID;
  nu_safe : none_of m l (last + 1) next;
}.

Lemma numbers_ext m m' l hash last next :
  numbers m l hash last next -> (forall p, p ∈ l -> pid <$> m' !! p = pid <$> m !! p) -> numbers m' l hash last next.
Proof.
  intros [N1 N2 N3 N4 N5 N6] H.
  assert (Hm : forall p t', p ∈ l -> m' !! p = Some t' -> exists t, m !! p = Some t /\ pid t = pid t').
  { intros p t' Hp Ht. specialize (H p Hp). rewrite Ht in H. destruct (m !! p) as [t|]; [|done]. injection H. intros. by exists t. }
  split.
  - intros p t' Hp Ht. destruct (Hm p t' Hp Ht) as (t&?&<-). by apply (N1 p).
  - intros p q t' u' Hp Hq Ht Hu E. destruct (Hm p t' Hp Ht) as (t&?&?), (Hm q u' Hq Hu) as (u&?&?).
    apply (N2 p q t u); [done..|congruence].
  - intros b p. rewrite N3. split; intros [Hp (t&Ht&<-)]; (split; [done|]).
    + specialize (H p Hp). rewrite Ht in H. destruct (m' !! p) as [t'|]; [|done]. injection H as E. exists t'. by rewrite E.
    + destruct (Hm p t Hp Ht) as (t0&?&E). exists t0. by rewrite E.
  - done.
  - done.
  - intros p t' Hp Ht. destruct (Hm p t' Hp Ht) as (t&?&<-). by apply (N6 p).
Qed.

Lemma numbers_add m l hash last next p t n next' :
  numbers m l hash last next -> m !! p = Some t -> pid t = n -> p ∉ l -> 1 <= n < next' -> next' <= MAX_PID ->
  none_of m l n next' ->
  numbers m (p :: l) (<[pid_hashfn n := p :: hash (pid_hashfn n)]> hash) n next'.
Proof.
  intros [N1 N2 N3 N4 N5 N6] Ht Hn Hp Hr Hm Hno.
  assert (Hfree : forall q u, q ∈ l -> m !! q = Some u -> pid u <> n).
  { intros q u Hq Hu E. apply (Hno q u Hq Hu). lia. }
  split.
  - intros q u [->|Hq]%elem_of_cons Hu; [|by apply (N1 q)]. assert (u = t) as -> by congruence. lia.
  - intros q q' u u' [->|Hq]%elem_of_cons [->|Hq']%elem_of_cons Hu Hu' E.
    + done.
    + exfalso. apply (Hfree q' u'); [done|done|congruence].
    + exfalso. apply (Hfree q u); [done|done|congruence].
    + by apply (N2 q q' u u').
  - intros b q. rewrite elem_of_cons. destruct (decide (pid_hashfn n = b)) as [<-|Hb].
    + rewrite fn_lookup_insert, elem_of_cons, N3. split; [|naive_solver].
      intros [->|[? ?]]; [|naive_solver]. split; [by left|]. exists t. by rewrite Hn.
    + rewrite fn_lookup_insert_ne, N3 by done. split; [tauto|]. intros [[->|?] (u&Hu&<-)]; [|naive_solver].
      exfalso. congruence.
  - lia.
  - done.
  - intros q u [->|Hq]%elem_of_cons Hu; [assert (u = t) as -> by congruence; lia|]. pose proof (Hno q u Hq Hu). lia.
Qed.

Lemma numbers_remove m l hash last next p t :
  numbers m l hash last next -> m !! p = Some t -> p ∈ l ->
  numbers (delete p m) (List.filter (fun q => negb (q =? p)) l)
    (<[pid_hashfn (pid t) := List.filter (fun q => negb (q =? p)) (hash (pid_hashfn (pid t)))]> hash) last next.
Proof.
  intros [N1 N2 N3 N4 N5 N6] Ht Hp. split; [| | |done|done|].
  - intros q u [Hq Hne]%elem_of_remove. rewrite lookup_delete_ne by done. by apply N1.
  - intros q q' u u' [Hq Hne]%elem_of_remove [Hq' Hne']%elem_of_remove. rewrite !lookup_delete_ne by done. by apply N2.
  - intros b q. rewrite elem_of_remove. destruct (decide (pid_hashfn (pid t) = b)) as [<-|Hb].
    + rewrite fn_lookup_insert, elem_of_remove, N3. split.
      * intros [[Hq Hu] Hne]. split; [done|]. by rewrite lookup_delete_ne.
      * intros [[Hq Hne] Hu]. split; [|done]. by rewrite lookup_delete_ne in Hu.
    + rewrite fn_lookup_insert_ne, N3 by done. destruct (decide (q = p)) as [->|Hne].
      * split; [|tauto]. intros [_ (u&Hu&E)]. congruence.
      * rewrite lookup_delete_ne by done. tauto.
  - intros q u [Hq Hne]%elem_of_remove. rewrite lookup_delete_ne by done. by apply N6.
Qed.

Lemma family_linked m m' l idle kids p t c :
  family m l idle kids -> m !! p = None -> p <> NULL -> p <> idle -> p <> c -> is_Some (m !! c) ->
  parent t = c -> cptr t = NULL ->
  linked_in (<[p := t]> m) m' kids c p -> family m' (p :: l) idle (<[c := p :: kids c]> kids).
Proof.
  intros [F1 F2 F3 F4 F5 F6] Hp Hn Hi Hpc Hc Ht Ht0 L.
  assert (Hpl : p ∉ l) by (rewrite F2, Hp; by intros [[? ?] _]).
  assert (Hpk : forall q, p ∉ kids q) by (intros q Hq; by apply Hpl, (F5 q)).
  assert (Hid : forall q, ident m' q = ident (<[p := t]> m) q).
  { intros q. apply (linked_ident _ _ _ _ _ t _ L); [apply lookup_insert_eq|done]. }
  assert (Hdom : forall q, is_Some (m' !! q) <-> q = p \/ is_Some (m !! q)).
  { intros q. rewrite (info_alloc _ _ _ (ln_info _ _ _ _ _ L q)), lookup_insert_is_Some'. naive_solver. }
  split.
  - eapply linked_tree; [by apply tree_add|exact L|by eexists; apply lookup_insert_eq| |done|done].
    by rewrite lookup_insert_ne.
  - intros q. rewrite elem_of_cons, Hdom, F2. naive_solver.
  - by constructor.
  - intros q t' Hq Ht'. destruct (ident_lookup _ _ _ _ (Hid q) Ht') as (t0&E0&_&_&_&E1). rewrite <-E1.
    apply elem_of_cons in Hq as [->|Hq].
    + rewrite lookup_insert_eq in E0. injection E0 as <-. rewrite Ht, fn_lookup_insert. set_solver +.
    + rewrite lookup_insert_ne in E0 by (by intros ->). pose proof (F4 _ _ Hq E0) as Hk.
      destruct (decide (c = parent t0)) as [E|]; [|by rewrite fn_lookup_insert_ne].
      rewrite <-E, fn_lookup_insert in *. apply elem_of_cons. by right.
  - intros q x. destruct (decide (c = q)) as [<-|]; [rewrite fn_lookup_insert|rewrite fn_lookup_insert_ne by done];
      rewrite !elem_of_cons; intros Hx; [destruct Hx as [->|Hx]; [by left|]|]; right; by eapply F5.
  - intros q. destruct (decide (c = q)) as [<-|]; [rewrite fn_lookup_insert|rewrite fn_lookup_insert_ne by done; apply F6].
    rewrite elem_of_cons. intros [?|?]; [congruence|by apply (F6 c)].
Qed.

Lemma family_taken m m' l idle kids par p l1 l2 :
  family m l idle kids -> kids par = l1 ++ p :: l2 -> kids p = [] -> taken_out m m' par p l1 l2 ->
  family (delete p m') (List.filter (fun q => negb (q =? p)) l) idle (<[par := l1 ++ l2]> kids).
Proof.
  intros [F1 F2 F3 F4 F5 F6] Ek Hk T. pose proof (tr_nodup _ _ _ F1 par) as Hnd. rewrite Ek in Hnd.
  assert (Hp12 : p ∉ l1 ++ l2).
  { rewrite <-Permutation_middle in Hnd. by apply NoDup_cons in Hnd as [? _]. }
  assert (Hpk : p ∈ kids par) by (rewrite Ek; set_solver +).
  assert (Hsub : forall q x, x ∈ (<[par := l1 ++ l2]> kids : pptr -> list pptr) q -> x ∈ kids q /\ x <> p).
  { intros q x. destruct (decide (par = q)) as [<-|Hq].
    - rewrite fn_lookup_insert, Ek. intros Hx. split; [set_solver +Hx|]. by intros ->.
    - rewrite fn_lookup_insert_ne by done. intros Hx. split; [done|]. intros ->. apply Hq. by eapply tree_kid_unique. }
  assert (Hdom : forall q, is_Some (delete p m' !! q) <-> is_Some (m !! q) /\ q <> p).
  { intros q. rewrite lookup_delete. destruct (decide (p = q)) as [->|]; [split; [by intros [? ?]|tauto]|].
    rewrite (info_alloc m m') by apply T. naive_solver. }
  split.
  - apply tree_delete; [by eapply taken_tree| |].
    + destruct (decide (par = p)) as [->|]; [by destruct (F6 p)|by rewrite fn_lookup_insert_ne].
    + intros q Hq. by apply Hsub in Hq as [_ ?].
  - intros q. rewrite elem_of_remove, Hdom, F2. tauto.
  - apply NoDup_ListNoDup, List.NoDup_filter. by apply NoDup_ListNoDup.
  - intros q t' [Hq Hne]%elem_of_remove Ht'. rewrite lookup_delete_ne in Ht' by done.
    destruct (ident_lookup m m' q t') as (t0&E0&_&_&_&E1); [by eapply taken_ident|done|]. rewrite <-E1.
    pose proof (F4 _ _ Hq E0) as Hkq. destruct (decide (par = parent t0)) as [E|]; [|by rewrite fn_lookup_insert_ne].
    rewrite <-E in *. rewrite fn_lookup_insert. rewrite Ek in Hkq. set_solver +Hkq Hne.
  - intros q x [Hx Hne]%Hsub. apply elem_of_remove. split; [by eapply F5|done].
  - intros q Hq. apply Hsub in Hq as [Hq _]. by apply (F6 q).
Qed.

(** Property C22. With fewer processes than numbers, [get_pid] ends, with a number in
    range that no listed process has; the range of numbers it remembers as free
    is free. *)
Theorem get_pid_spec {E : Type} (s : pst E) :
  (forall p, p ∈ proc_list s -> is_Some (tasks s !! p)) -> Z.of_nat (length (proc_list s)) < MAX_PID - 1 ->
  0 <= last_pid s -> next_safe s <= MAX_PID -> none_of (tasks s) (proc_list s) (last_pid s + 1) (next_safe s) ->
  wp get_pid (fun n s' => 1 <= n < MAX_PID /\ (forall p t, p ∈ proc_list s -> tasks s !! p = Some t -> pid t <> n) /\
    last_pid s' = n /\ none_of (tasks s) (proc_list s) n (next_safe s') /\ tasks s' = tasks s) s.
Proof.
  intros Hall Hlen Hl Hn Hno. apply wp_get_pid; [done..|]. intros n next Hr Hm Hf. split_and!; [lia|lia| |done|done|done].
  intros p t Hp Ht E0. apply (Hf p t Hp Ht). lia.
Qed.

(** All low numbers are taken, and the search starts at the end: it wraps around. *)
Definition ex_pids : pst () :=
  mk_pst (mk_kst (mk_rqs ∅ ∅ (mk_rq [] 0 5 0)) 0 0 ∅ []) (<[1 := mk_task 1 0 0 0 0 0 0]> (<[2 := mk_task 2 0 0 0 0 0 0]> ∅)) [2; 1]
    (fun _ => []) 3 MAX_PID (MAX_PID - 1) 0 tt.

Lemma get_pid_spec_witness : wp get_pid (fun n s' => n = 3) ex_pids /\
  wp get_pid (fun n s' => 1 <= n < MAX_PID /\ (forall p t, p ∈ proc_list ex_pids -> tasks ex_pids !! p = Some t -> pid t <> n) /\
    last_pid s' = n /\ none_of (tasks ex_pids) (proc_list ex_pids) n (next_safe s') /\ tasks s' = tasks ex_pids) ex_pids.
Proof.
  split; [vm_compute; reflexivity|]. apply (get_pid_spec ex_pids).
  - intros p [->|[->|Hp]%elem_of_cons]%elem_of_cons; [eexists; reflexivity|eexists; reflexivity|by apply not_elem_of_nil in Hp].
  - reflexivity.
  - by vm_compute.
  - by vm_compute.
  - intros p t Hp Ht. cbn. unfold MAX_PID, MAX_PROCESS. lia.
Defined.
