(* ===== verification/Lifecycle.v ===== *)
(** The life of a process: the theorems about [Process].  [proc_inv kids s] says
    that the process table is well formed: the pointers spell the tree [kids],
    the list, the hash table and the descriptors agree, numbers are unique, a
    sleeping process alone waits for something, a zombie has no children, and
    every process holds exactly the resources its state calls for.  The theorem
    is on [do_fork]. *)
From stdpp Require Import functions relations.
From S2P Require Import Prelude Printfmt SkewHeap Sched RoundRobin Process ProcTree.
#[local] Abbreviation length := Datatypes.length.

(** ** What the process table relies on *)

(** Who has a descriptor, a kernel stack, a share of an address space, a share of
    a table of open files. *)
Record own := mk_own { objs : gset pptr; stacks : gset pptr; spaces : gset pptr; ftabs : gset pptr }.

Definition set_objs (x : gset pptr) (o : own) : own := mk_own x (stacks o) (spaces o) (ftabs o).
Definition set_stacks (x : gset pptr) (o : own) : own := mk_own (objs o) x (spaces o) (ftabs o).
Definition set_spaces (x : gset pptr) (o : own) : own := mk_own (objs o) (stacks o) x (ftabs o).
Definition set_ftabs (x : gset pptr) (o : own) : own := mk_own (objs o) (stacks o) (spaces o) x.

(** The preconditions of the laws are what the callers must ensure: nothing is
    released twice, and a descriptor goes last.  Copying an address space may end
    in a kernel panic. *)
Class Resources {E : Type} (R : resources E) := {
  holds : E -> own -> Prop;
  kmalloc_law e o : holds e o ->
    wp (kmalloc R) (fun r e' => match r with
      | None => holds e' o
      | Some p => p <> NULL /\ p ∉ objs o /\ holds e' (set_objs ({[p]} ∪ objs o) o) end) e;
  kfree_law e o p : holds e o -> p ∈ objs o -> p ∉ stacks o -> p ∉ spaces o -> p ∉ ftabs o ->
    wp (kfree R p) (fun _ e' => holds e' (set_objs (objs o ∖ {[p]}) o)) e;
  setup_kstack_law e o p : holds e o -> p ∈ objs o -> p ∉ stacks o ->
    wp (setup_kstack R p) (fun r e' => holds e' (if decide (r = 0) then set_stacks ({[p]} ∪ stacks o) o else o)) e;
  put_kstack_law e o p : holds e o -> p ∈ stacks o ->
    wp (put_kstack R p) (fun _ e' => holds e' (set_stacks (stacks o ∖ {[p]}) o)) e;
  copy_mm_law e o fl c p : holds e o -> c ∈ objs o -> p ∈ objs o -> p ∉ spaces o ->
    wlp (copy_mm R fl c p) (fun r e' => holds e' (if decide (r = 0) then set_spaces ({[p]} ∪ spaces o) o else o)) e;
  put_mm_law e o p : holds e o -> p ∈ spaces o ->
    wp (put_mm R p) (fun _ e' => holds e' (set_spaces (spaces o ∖ {[p]}) o)) e;
  copy_files_law e o fl c p : holds e o -> c ∈ objs o -> p ∈ objs o -> p ∉ ftabs o ->
    wp (copy_files R fl c p) (fun r e' => holds e' (if decide (r = 0) then set_ftabs ({[p]} ∪ ftabs o) o else o)) e;
  put_files_law e o p : holds e o -> p ∈ objs o ->
    wp (put_files R p) (fun _ e' => holds e' (set_ftabs (ftabs o ∖ {[p]}) o)) e;
  create_files_law e o p : holds e o -> p ∈ objs o -> wp (create_files R p) (fun _ e' => holds e' o) e;
  copy_thread_law e o p stack tf : holds e o -> p ∈ stacks o ->
    wp (copy_thread R p stack tf) (fun _ e' => holds e' o) e;
  check_store_law e o c a : holds e o -> wp (check_store R c a) (fun _ e' => holds e' o) e;
  store_int_law e o c a v : holds e o -> wlp (store_int R c a v) (fun _ e' => holds e' o) e;
}.

(** ** The invariant *)

(** States: the idle and the running process can run, a process that waits for
    something sleeps, a zombie has no children. *)
Record lives (r : rqs) (m : gmap pptr task) (idle cur : pptr) (kids : pptr -> list pptr) : Prop := {
  li_dom p : is_Some (m !! p) <-> is_Some (life r p);
  li_asleep p st ws : life r p = Some (st, ws) -> ws <> 0 -> st = PROC_SLEEPING;
  li_born p ws : life r p <> Some (PROC_UNINIT, ws);
  li_zombie p ws : life r p = Some (PROC_ZOMBIE, ws) -> kids p = [];
  li_idle : life r idle = Some (PROC_RUNNABLE, 0);
  li_current : life r cur = Some (PROC_RUNNABLE, 0);
}.

Definition zombie (r : rqs) (p : pptr) : Prop := exists ws, life r p = Some (PROC_ZOMBIE, ws).

(** Every process has a descriptor, every listed one a stack; a zombie has given
    back its address space and its files. *)
Record owned (r : rqs) (m : gmap pptr task) (l : list pptr) (o : own) : Prop := {
  ow_objs p : p ∈ objs o <-> is_Some (m !! p);
  ow_stacks p : p ∈ stacks o <-> p ∈ l;
  ow_spaces p : p ∈ spaces o <-> p ∈ l /\ ~ zombie r p;
  ow_ftabs p : p ∈ ftabs o <-> p ∈ l /\ ~ zombie r p;
}.

Lemma lives_ext r r' m idle cur kids : lives r m idle cur kids -> same_life r r' -> lives r' m idle cur kids.
Proof.
  intros [L1 L2 L3 L4 L5 L6] H. split.
  - intros p. by rewrite (H p).
  - intros p. rewrite (H p). apply L2.
  - intros p. rewrite (H p). apply L3.
  - intros p. rewrite (H p). apply L4.
  - by rewrite H.
  - by rewrite H.
Qed.

Lemma owned_ext r r' m l o : owned r m l o -> same_life r r' -> owned r' m l o.
Proof.
  intros [O1 O2 O3 O4] H. assert (Z : forall p, zombie r' p <-> zombie r p) by (intros p; unfold zombie; by rewrite H).
  split; intros p; [apply O1|apply O2|rewrite Z; apply O3|rewrite Z; apply O4].
Qed.

#[local] Opaque get_pid pid_hashfn.

Section proofs.
Context (sc : sched_class) `{!SchedPolicy sc} {E : Type} (R : resources E) `{!Resources R}.
Implicit Types (s : pst E) (p q c : pptr) (kids : pptr -> list pptr) (k : kstate) (o : own).

Abbreviation sched_inv := (Sched.sched_inv sc).

(** The process table is well formed; [c] is a process that can run. *)
Record proc_inv_at c kids s : Prop := {
  pi_sched : sched_inv (krn s);
  pi_family : family (tasks s) (proc_list s) (idleproc (krn s)) kids;
  pi_numbers : numbers (tasks s) (proc_list s) (hash_list s) (last_pid s) (next_safe s);
  pi_lives : lives (sch (krn s)) (tasks s) (idleproc (krn s)) c kids;
  pi_nr : nr_process s = 1 + Z.of_nat (length (proc_list s));
  pi_max : nr_process s <= MAX_PROCESS;
  pi_owns : exists o, holds (env s) o /\ owned (sch (krn s)) (tasks s) (proc_list s) o;
}.

(** Between two system calls the running process is one that can. *)
Definition proc_inv kids s : Prop := proc_inv_at (current (krn s)) kids s.

(** The state of a process and what it waits for. *)
Definition lf s p : option (proc_state * Z) := life (sch (krn s)) p.

(** ** Primitives *)
Lemma wp_env {A} (m : K E A) s (Q : A -> pst E -> Prop) :
  wp m (fun r e => Q r (set_env e s)) (env s) -> wp (in_env m) Q s.
Proof. apply wp_zoom. Qed.

Lemma wp_krn {A} (m : K kstate A) s (Q : A -> pst E -> Prop) :
  wp m (fun r k => Q r (set_krn k s)) (krn s) -> wp (in_krn m) Q s.
Proof. apply wp_zoom. Qed.

Lemma wp_cur s (Q : pptr -> pst E -> Prop) : Q (current (krn s)) s -> wp cur Q s.
Proof. done. Qed.

Lemma wp_sched_at s p st ws (Q : proc -> pst E -> Prop) :
  lf s p = Some (st, ws) -> (forall x, state x = st -> wait_state x = ws -> Q x s) -> wp (sched_at p) Q s.
Proof.
  intros (x&Hx&[= -> ->])%fmap_Some HQ. unfold sched_at, in_sch. apply wp_krn, wp_zoom. eapply wp_proc_at; [exact Hx|].
  replace (set_krn _ s) with s by by (destruct s as [[]]). by apply HQ.
Qed.

Lemma wp_wake s p st ws (Q : () -> pst E -> Prop) :
  sched_inv (krn s) -> lf s p = Some (st, ws) -> st <> PROC_ZOMBIE ->
  (forall r, sched_inv (set_sch r (krn s)) ->
     (forall q, life r q = if decide (q = p) then Some (PROC_RUNNABLE, if decide (st = PROC_RUNNABLE) then ws else 0)
                           else lf s q) -> Q () (set_krn (set_sch r (krn s)) s)) ->
  wp (in_krn (wakeup_proc sc p)) Q s.
Proof. intros Hi Hp Hz HQ. apply wp_krn. by eapply (wp_wakeup_proc sc). Qed.

Lemma current_task kids s : proc_inv kids s -> is_Some (tasks s !! current (krn s)).
Proof. intros H. apply (li_dom _ _ _ _ _ (pi_lives _ _ _ H)). by rewrite (li_current _ _ _ _ _ (pi_lives _ _ _ H)). Qed.

Lemma idle_task kids s : proc_inv kids s -> is_Some (tasks s !! idleproc (krn s)).
Proof. intros H. apply (li_dom _ _ _ _ _ (pi_lives _ _ _ H)). by rewrite (li_idle _ _ _ _ _ (pi_lives _ _ _ H)). Qed.

Lemma no_task kids s p : proc_inv kids s -> tasks s !! p = None -> lf s p = None.
Proof.
  intros H Hp. apply eq_None_not_Some. unfold lf. rewrite <-(li_dom _ _ _ _ _ (pi_lives _ _ _ H)), Hp. by intros [? ?].
Qed.

Lemma listed kids s p : proc_inv kids s -> p ∈ proc_list s <-> is_Some (tasks s !! p) /\ p <> idleproc (krn s).
Proof. intros H. apply (fa_list _ _ _ _ (pi_family _ _ _ H)). Qed.

(** ** Changes the table does not see *)

Record same_krn k k' : Prop := {
  sk_life : same_life (sch k) (sch k');
  sk_current : current k' = current k;
  sk_idle : idleproc k' = idleproc k;
}.

(** [s'] has the same table as [s]: only resources and the run queue may differ. *)
Definition same_table s s' : Prop := exists e k, s' = set_env e (set_krn k s) /\ same_krn (krn s) k.

Lemma proc_inv_frame kids s k e o :
  proc_inv kids s -> sched_inv k -> same_krn (krn s) k -> holds e o -> owned (sch (krn s)) (tasks s) (proc_list s) o ->
  proc_inv kids (set_env e (set_krn k s)).
Proof.
  intros [] Hk [L C I] He Ho. split; cbn; rewrite ?C, ?I; try done.
  - by eapply lives_ext.
  - exists o. split; [done|]. by eapply owned_ext.
Qed.

(** ** A descriptor that is not yet in the table *)

Definition born s p (t : task) k (e : E) : pst E := set_env e (set_tasks (<[p := t]> (tasks s)) (set_krn k s)).

Record newborn s p (t : task) k : Prop := {
  nb_null : p <> NULL;
  nb_fresh : tasks s !! p = None;
  nb_sched : sched_inv k;
  nb_life q : life (sch k) q = if decide (q = p) then Some (PROC_UNINIT, 0) else lf s q;
  nb_current : current k = current (krn s);
  nb_idle : idleproc k = idleproc (krn s);
  nb_task : cptr t = NULL /\ flags t = 0;
}.

Lemma wp_alloc_proc kids s o (Q : option pptr -> pst E -> Prop) :
  proc_inv kids s -> holds (env s) o -> owned (sch (krn s)) (tasks s) (proc_list s) o ->
  (forall e, holds e o -> Q None (set_env e s)) ->
  (forall p t k e, newborn s p t k -> holds e (set_objs ({[p]} ∪ objs o) o) -> Q (Some p) (born s p t k e)) ->
  wp (alloc_proc R) Q s.
Proof.
  intros H Ho Hown HN HS. unfold alloc_proc. kstep. apply wp_env. eapply wp_mono; [by apply kmalloc_law|].
  intros [p|] e; [|intros He; kstep; by apply HN]. intros (Hn&Hp&He).
  assert (Hf : tasks s !! p = None) by (apply eq_None_not_Some; by rewrite <-(ow_objs _ _ _ _ Hown)).
  assert (Hl : procs (sch (krn s)) !! p = None).
  { apply eq_None_not_Some. intros Hx. apply life_Some in Hx. pose proof (no_task _ _ _ H Hf) as E0. unfold lf in E0.
    rewrite E0 in Hx. by destruct Hx. }
  do 3 kstep. apply wp_krn. kstep. ksteps.
  apply (HS p (new_task (raw_exit_code R e p)) (set_sch (adopt p new_proc (mk_she NULL NULL NULL) (sch (krn s))) (krn s)) e); [|done].
  split; [done|done| | |done|done|done].
  - apply sched_inv_adopt; try done. apply (pi_sched _ _ _ H).
  - intros q. cbn. by rewrite life_adopt.
Qed.

Lemma wp_free_newborn kids s p t k e o (Q : () -> pst E -> Prop) :
  proc_inv kids s -> newborn s p t k -> holds e (set_objs ({[p]} ∪ objs o) o) -> owned (sch (krn s)) (tasks s) (proc_list s) o ->
  (forall s', proc_inv kids s' -> same_table s s' -> Q () s') -> wp (free_proc R p) Q (born s p t k e).
Proof.
  intros H N He Ho HQ. unfold free_proc. kstep. apply wp_env. pose proof (nb_fresh _ _ _ _ N) as Hf.
  assert (Hobj : p ∉ objs o) by (rewrite (ow_objs _ _ _ _ Ho), Hf; by intros [? ?]).
  assert (Hlist : p ∉ proc_list s).
  { intros Hin. apply (listed _ _ _ H) in Hin as [[? ?] _]. congruence. }
  eapply wp_mono; [eapply (kfree_law _ _ p); [exact He|cbn; set_solver +|cbn..]|].
  - rewrite (ow_stacks _ _ _ _ Ho). done.
  - rewrite (ow_spaces _ _ _ _ Ho). tauto.
  - rewrite (ow_ftabs _ _ _ _ Ho). tauto.
  - intros [] e' He'. cbn in He'. kstep. apply wp_krn. kstep. kstep. cbn. unfold set_env, set_tasks, set_krn. cbn.
    rewrite delete_insert_id by done.
    replace (set_objs (({[p]} ∪ objs o) ∖ {[p]}) (set_objs ({[p]} ∪ objs o) o)) with o in He'.
    2:{ destruct o as [ob st sp ft]. unfold set_objs. cbn in *. f_equal. set_solver +Hobj. }
    assert (Hs : same_krn (krn s) (set_sch (release p (sch k)) k)).
    { split; [|apply N|apply N]. intros q. cbn. rewrite life_release, (nb_life _ _ _ _ N).
      destruct (decide (q = p)) as [->|]; [|done]. symmetry. by eapply no_task. }
    apply (HQ (set_env e' (set_krn (set_sch (release p (sch k)) k) s))); [|by eexists _, _].
    apply (proc_inv_frame _ _ _ _ o); [done| |done|done|done].
    eapply (sched_inv_release sc k p PROC_UNINIT 0); [apply N|by rewrite (nb_life _ _ _ _ N), decide_True|done| |].
    + rewrite (nb_current _ _ _ _ N). intros ->. destruct (current_task _ _ H). congruence.
    + rewrite (nb_idle _ _ _ _ N). intros ->. destruct (idle_task _ _ H). congruence.
Qed.

(** ** A new process enters the table *)
Lemma lives_born r r' m m' idle c kids p :
  lives r m idle c kids -> m !! p = None -> (forall q, is_Some (m' !! q) <-> q = p \/ is_Some (m !! q)) ->
  (forall q, life r' q = if decide (q = p) then Some (PROC_RUNNABLE, 0) else life r q) ->
  lives r' m' idle c (<[c := p :: kids c]> kids).
Proof.
  intros [L1 L2 L3 L4 L5 L6] Hp Hm Hl.
  assert (Hn : life r p = None) by (apply eq_None_not_Some; rewrite <-L1, Hp; by intros [? ?]).
  split.
  - intros q. rewrite Hm, Hl, L1. destruct (decide (q = p)) as [->|]; naive_solver.
  - intros q st ws. rewrite Hl. destruct (decide (q = p)); [by intros [= <- <-]|apply L2].
  - intros q ws. rewrite Hl. destruct (decide (q = p)); [done|apply L3].
  - intros q ws. rewrite Hl. destruct (decide (q = p)); [done|]. intros Hz.
    destruct (decide (c = q)) as [<-|]; [congruence|]. rewrite fn_lookup_insert_ne by done. by eapply L4.
  - rewrite Hl, decide_False by congruence. done.
  - rewrite Hl, decide_False by congruence. done.
Qed.

(** Everything [p] can hold is added. *)
Definition own_all (p : pptr) o : own := mk_own ({[p]} ∪ objs o) ({[p]} ∪ stacks o) ({[p]} ∪ spaces o) ({[p]} ∪ ftabs o).

Lemma owned_born r r' m m' l o p :
  owned r m l o -> (forall q, is_Some (m' !! q) <-> q = p \/ is_Some (m !! q)) ->
  (forall q, life r' q = if decide (q = p) then Some (PROC_RUNNABLE, 0) else life r q) ->
  owned r' m' (p :: l) (own_all p o).
Proof.
  intros [O1 O2 O3 O4] Hm Hl.
  assert (Z : forall q, q <> p -> zombie r' q <-> zombie r q) by (intros q Hq; unfold zombie; by rewrite Hl, decide_False).
  assert (Zp : ~ zombie r' p) by (intros [ws Hw]; by rewrite Hl, decide_True in Hw).
  split; intros q; cbn; rewrite elem_of_union, elem_of_singleton, ?elem_of_cons.
  - by rewrite Hm, O1.
  - by rewrite O2.
  - rewrite O3. destruct (decide (q = p)) as [->|Hq]; [tauto|]. rewrite Z by done. tauto.
  - rewrite O4. destruct (decide (q = p)) as [->|Hq]; [tauto|]. rewrite Z by done. tauto.
Qed.

(** [s'] is [s] with the new process [p], number [n], a child of the running one. *)
Record forked kids s p n s' : Prop := {
  fk_fresh : tasks s !! p = None;
  fk_inv : proc_inv (<[current (krn s) := p :: kids (current (krn s))]> kids) s';
  fk_number : 1 <= n < MAX_PID;
  fk_new q t : q ∈ proc_list s -> tasks s !! q = Some t -> pid t <> n;
  fk_ident q : exists code, ident (tasks s') q =
    if decide (q = p) then Some (n, 0, code, current (krn s)) else ident (tasks s) q;
  fk_list : proc_list s' = p :: proc_list s;
  fk_life q : lf s' q = if decide (q = p) then Some (PROC_RUNNABLE, 0) else lf s q;
  fk_current : current (krn s') = current (krn s);
  fk_idle : idleproc (krn s') = idleproc (krn s);
  fk_init : initproc s' = initproc s;
}.

(** The last part of [do_fork], from [get_pid] on. *)
Definition fork_commit (p : pptr) : K (pst E) Z :=
  n ← get_pid;
  task_upd p (set_pid n);;
  hash_proc p;;
  set_links p;;
  in_krn (wakeup_proc sc p);;
  t ← task_at p;
  mret (pid t).

Lemma pid_info m m' q : info m' q = info m q -> pid <$> m' !! q = pid <$> m !! q.
Proof. unfold info. destruct (m' !! q), (m !! q); cbn; congruence. Qed.

Section commit.
Context kids s p t k (H : proc_inv kids s) (N : newborn s p t k) (Hpar : parent t = current (krn s)).
Let c := current (krn s).

Lemma fresh_listed q : q ∈ proc_list s -> q <> p /\ is_Some (tasks s !! q).
Proof.
  intros [Hq _]%(listed _ _ _ H). split; [|done]. intros ->. rewrite (nb_fresh _ _ _ _ N) in Hq. by destruct Hq.
Qed.

Lemma fresh_none lo hi t' : none_of (tasks s) (proc_list s) lo hi <-> none_of (<[p := t']> (tasks s)) (proc_list s) lo hi.
Proof.
  split; intros Hno q u Hq Hu; apply (Hno q u Hq); destruct (fresh_listed q Hq) as [? _].
  - by rewrite lookup_insert_ne in Hu.
  - by rewrite lookup_insert_ne.
Qed.

Lemma fresh_not_current : p <> c /\ p <> idleproc (krn s).
Proof.
  pose proof (nb_fresh _ _ _ _ N). split; intros ->; [destruct (current_task _ _ H)|destruct (idle_task _ _ H)]; unfold c in *; congruence.
Qed.

Lemma forked_intro n next m' r e o :
  linked_in (<[p := set_pid n t]> (tasks s)) m' kids c p ->
  1 <= n < next -> next <= MAX_PID -> none_of (tasks s) (proc_list s) n next -> nr_process s < MAX_PROCESS ->
  owned (sch (krn s)) (tasks s) (proc_list s) o -> holds e (own_all p o) ->
  sched_inv (set_sch r k) -> (forall q, life r q = if decide (q = p) then Some (PROC_RUNNABLE, 0) else life (sch (krn s)) q) ->
  forked kids s p n
    (mk_pst (set_sch r k) m' (p :: proc_list s) (<[pid_hashfn n := p :: hash_list s (pid_hashfn n)]> (hash_list s))
       (s32 (nr_process s + 1)) next n (initproc s) e).
Proof.
  intros L Hn Hm Hno Hmax Ho He Hr Hl. destruct N as [Nn Nf _ _ Nc Ni [Nt0 Nt1]]. destruct fresh_not_current as [Hpc Hpi].
  pose proof (current_task _ _ H) as Hc. fold c in Hc.
  assert (Hpl : p ∉ proc_list s) by (intros Hq; by destruct (fresh_listed p Hq)).
  assert (Hdom : forall q, is_Some (m' !! q) <-> q = p \/ is_Some (tasks s !! q)).
  { intros q. rewrite (info_alloc _ _ _ (ln_info _ _ _ _ _ L q)), lookup_insert_is_Some'. naive_solver. }
  assert (Hnr : s32 (nr_process s + 1) = nr_process s + 1).
  { pose proof (pi_nr _ _ _ H). unfold MAX_PROCESS in Hmax. apply swrap_small; lia. }
  split; cbn [krn tasks proc_list initproc set_sch current idleproc]; try done.
  - split; cbn [krn tasks proc_list hash_list nr_process next_safe last_pid env set_sch sch current idleproc]; rewrite ?Nc, ?Ni.
    + exact Hr.
    + eapply family_linked; [apply (pi_family _ _ _ H)|exact Nf|exact Nn|done|done|done| | |exact L]; done.
    + apply (numbers_ext (<[p := set_pid n t]> (tasks s))); [|intros q _; apply pid_info, L].
      eapply (numbers_add _ _ _ (last_pid s) (next_safe s)); [|apply lookup_insert_eq|done|done|done|done|by apply fresh_none].
      eapply numbers_ext; [apply (pi_numbers _ _ _ H)|]. intros q Hq. destruct (fresh_listed q Hq) as [? _]. by rewrite lookup_insert_ne.
    + apply (lives_born (sch (krn s)) _ (tasks s)); [apply (pi_lives _ _ _ H)|done..].
    + rewrite Hnr, (pi_nr _ _ _ H). cbn [length]. lia.
    + rewrite Hnr. lia.
    + exists (own_all p o). split; [done|]. by eapply owned_born.
  - lia.
  - intros q u Hq Hu E'. apply (Hno q u Hq Hu). lia.
  - intros q. exists (exit_code t). rewrite (linked_ident _ _ _ _ _ (set_pid n t) _ L); [|apply lookup_insert_eq|done].
    rewrite ident_insert. cbn. by rewrite Hpar, Nt1.
Qed.

Lemma wp_fork_commit e o :
  nr_process s < MAX_PROCESS -> owned (sch (krn s)) (tasks s) (proc_list s) o -> holds e (own_all p o) ->
  wp (fork_commit p) (fun n s' => forked kids s p n s') (born s p t k e).
Proof.
  intros Hmax Ho He. pose proof (nb_fresh _ _ _ _ N) as Hf. destruct fresh_not_current as [Hpc Hpi].
  pose proof (pi_numbers _ _ _ H) as Hnum. pose proof (pi_family _ _ _ H) as Hfam.
  unfold fork_commit. kstep. apply wp_get_pid; cbn [tasks proc_list last_pid next_safe born set_env set_tasks set_krn].
  { intros q Hq. destruct (fresh_listed q Hq). by rewrite lookup_insert_ne. }
  { pose proof (pi_nr _ _ _ H). unfold MAX_PID, MAX_PROCESS in *. lia. }
  { apply Hnum. } { apply Hnum. } { apply fresh_none, Hnum. }
  intros n next Hn Hm Hno%fresh_none. kstep. eapply wp_task_upd; [apply lookup_insert_eq|]. cbn [tasks set_pids born set_env set_tasks set_krn].
  rewrite insert_insert_eq. kstep. unfold hash_proc. kstep. eapply wp_task_at; [apply lookup_insert_eq|]. kstep. kstep.
  change (pid (set_pid n t)) with n. cbv zeta.
  eapply wp_set_links; cbn [tasks set_hash_list set_tasks set_pids born set_env set_krn];
    [|apply lookup_insert_eq| | | | |]; change (parent (set_pid n t)) with (parent t); rewrite ?Hpar; fold c.
  { apply tree_add; [apply Hfam|done|apply N|apply (nb_task _ _ _ _ N)]. }
  { intros q Hq. apply (fa_kids _ _ _ _ Hfam) in Hq. by destruct (fresh_listed p Hq). }
  { rewrite lookup_insert_ne by done. apply (current_task _ _ H). } { done. } { apply (fa_noself _ _ _ _ Hfam). }
  intros m' L. kstep.
  eapply wp_wake; [apply N|unfold lf; cbn; by rewrite (nb_life _ _ _ _ N), decide_True|done|].
  intros r Hr Hlr. rewrite decide_False in Hlr by done. kstep.
  destruct (m' !! p) as [tn|] eqn:Etn.
  2:{ exfalso. pose proof (ln_info _ _ _ _ _ L p) as Hi. unfold info in Hi. by rewrite Etn, lookup_insert_eq in Hi. }
  eapply wp_task_at; [exact Etn|]. kstep.
  assert (pid tn = n) as ->.
  { pose proof (pid_info _ _ _ (ln_info _ _ _ _ _ L p)) as Hi. rewrite Etn, lookup_insert_eq in Hi. by injection Hi. }
  match goal with |- forked _ _ _ _ ?x => replace x with
    (mk_pst (set_sch r k) m' (p :: proc_list s) (<[pid_hashfn n := p :: hash_list s (pid_hashfn n)]> (hash_list s))
       (s32 (nr_process s + 1)) next n (initproc s) e) by reflexivity end.
  eapply forked_intro; [exact L|done..|exact Ho|exact He|exact Hr|].
  intros q. rewrite Hlr. destruct (decide (q = p)); [done|]. unfold lf. cbn. by rewrite (nb_life _ _ _ _ N), decide_False.
Qed.
End commit.

(** The failing ends of [do_fork]. *)
Definition fork_failed kids s r s' : Prop :=
  (r = - E_NO_FREE_PROC /\ nr_process s = MAX_PROCESS \/ r = - E_NO_MEM) /\ proc_inv kids s' /\ same_table s s'.

Lemma wp_fork_abort kids s p t k e o r :
  proc_inv kids s -> newborn s p t k -> holds e (set_objs ({[p]} ∪ objs o) o) -> owned (sch (krn s)) (tasks s) (proc_list s) o ->
  r = - E_NO_MEM -> wp (free_proc R p;; mret r) (fork_failed kids s) (born s p t k e).
Proof.
  intros H N He Ho ->. kstep. eapply wp_free_newborn; [done..|]. intros s' Hi Hs. kstep. split; [by right|done].
Qed.

Lemma set_own_undo p o : p ∉ objs o -> p ∉ stacks o -> p ∉ spaces o -> p ∉ ftabs o ->
  ({[p]} ∪ stacks o) ∖ {[p]} = stacks o /\ ({[p]} ∪ spaces o) ∖ {[p]} = spaces o /\ ftabs o ∖ {[p]} = ftabs o.
Proof. intros. split_and!; apply leibniz_equiv; set_solver. Qed.

Lemma wlp_do_fork kids s fl stack tf :
  proc_inv kids s ->
  wlp (do_fork sc R fl stack tf) (fun r s' => fork_failed kids s r s' \/ exists p, forked kids s p r s') s.
Proof.
  intros H. destruct (pi_owns _ _ _ H) as (o&Ho&Hown). unfold do_fork. apply wlp_bind_wp, wp_get.
  destruct (Z.geb_spec (nr_process s) MAX_PROCESS) as [Hmax|Hmax].
  { apply wlp_ret. left. pose proof (pi_max _ _ _ H). split_and!; [left; split; [done|lia]|done|]. exists (env s), (krn s).
    split; [by destruct s|done]. }
  apply wlp_bind_wp. eapply wp_alloc_proc; [done..| |].
  { intros e He. apply wlp_ret. left. split_and!; [by right| |].
    - pose proof (proc_inv_frame kids s (krn s) e o H (pi_sched _ _ _ H)) as Hf. destruct s. by apply Hf.
    - exists e, (krn s). split; [by destruct s|done]. }
  intros p t0 k e N He.
  assert (Hno : p ∉ objs o /\ p ∉ stacks o /\ p ∉ spaces o /\ p ∉ ftabs o).
  { assert (Hnl : p ∉ proc_list s) by (intros Hq; destruct (fresh_listed kids s p t0 k H N p Hq); done).
    destruct Hown as [O1 O2 O3 O4]. rewrite O1, O2, O3, O4, (nb_fresh _ _ _ _ N). split_and!; [by intros [? ?]|tauto..]. }
  destruct Hno as (Hn1&Hn2&Hn3&Hn4). destruct (set_own_undo p o Hn1 Hn2 Hn3 Hn4) as (U1&U2&U3).
  apply wlp_bind_wp, wp_cur. cbn [krn born set_env set_tasks set_krn]. rewrite (nb_current _ _ _ _ N).
  apply wlp_bind_wp. eapply wp_task_upd; [apply lookup_insert_eq|]. cbn [tasks born set_env set_tasks set_krn].
  rewrite insert_insert_eq. set (t := set_parent (current (krn s)) t0).
  assert (N' : newborn s p t k) by (destruct N; by split). change (set_tasks _ _) with (born s p t k e).
  apply wlp_bind_wp. eapply (wp_sched_at _ _ PROC_RUNNABLE 0).
  { unfold lf. cbn. rewrite (nb_life _ _ _ _ N), decide_False; [apply (pi_lives _ _ _ H)|]. by destruct (fresh_not_current kids s p t0 k H N). }
  intros x _ Hx. apply wlp_bind_wp, wp_assert; [by rewrite bool_decide_true|].
  apply wlp_bind_wp, wp_env. eapply wp_mono; [apply setup_kstack_law; [exact He|cbn; set_solver +|done]|].
  intros r1 e1 He1. cbn beta in He1. change (set_env e1 _) with (born s p t k e1). destruct (decide (r1 = 0)) as [E1|E1]; [rewrite bool_decide_false by tauto|rewrite bool_decide_true by done].
  2:{ apply wp_wlp. eapply wp_mono; [by eapply wp_fork_abort|]. by left. }
  apply wlp_bind, wlp_zoom.
  eapply wlp_mono; [eapply (copy_mm_law _ _ fl (current (krn s)) p); [exact He1|..]|].
  { cbn. apply elem_of_union. right. apply Hown, (current_task _ _ H). } { cbn. set_solver +. } { done. }
  intros r2 e2 He2. cbn beta in He2. change (set_env e2 _) with (born s p t k e2). destruct (decide (r2 = 0)) as [E2|E2]; [rewrite bool_decide_false by tauto|rewrite bool_decide_true by done].
  2:{ apply wlp_bind_wp, wp_env. eapply wp_mono; [apply put_kstack_law; [exact He2|cbn; set_solver +]|].
    intros [] e3 He3. cbn in He3. rewrite U1 in He3. apply wp_wlp. eapply wp_mono; [by eapply (wp_fork_abort _ _ _ _ _ _ o)|]. by left. }
  apply wlp_bind_wp, wp_env.
  eapply wp_mono; [apply copy_files_law; [exact He2|..]|].
  { cbn. apply elem_of_union. right. apply Hown, (current_task _ _ H). } { cbn. set_solver +. } { done. }
  intros r3 e3 He3. cbn beta in He3. change (set_env e3 _) with (born s p t k e3). destruct (decide (r3 = 0)) as [E3|E3]; [rewrite bool_decide_false by tauto|rewrite bool_decide_true by done].
  2:{ apply wp_wlp. kstep. apply wp_env.
    eapply wp_mono; [apply put_files_law; [exact He3|cbn; set_solver +]|]. intros [] e4 He4. cbn in He4. rewrite U3 in He4.
    kstep. apply wp_env. eapply wp_mono; [apply put_mm_law; [exact He4|cbn; set_solver +]|]. intros [] e5 He5. cbn in He5. rewrite U2 in He5.
    kstep. apply wp_env. eapply wp_mono; [apply put_kstack_law; [exact He5|cbn; set_solver +]|]. intros [] e6 He6. cbn in He6. rewrite U1 in He6.
    eapply wp_mono; [by eapply (wp_fork_abort _ _ _ _ _ _ o)|]. by left. }
  apply wlp_bind_wp, wp_env.
  eapply wp_mono; [apply copy_thread_law; [exact He3|cbn; set_solver +]|]. intros [] e4 He4.
  change (set_env e4 _) with (born s p t k e4). change (wlp (fork_commit p) (fun r s' => fork_failed kids s r s' \/ exists p, forked kids s p r s') (born s p t k e4)).
  apply wp_wlp. eapply wp_mono; [by eapply (wp_fork_commit kids s p t k H N')|]. intros n s' Hs'. right. by exists p.
Qed.
End proofs.

(** Property C21. Whatever step of [do_fork] fails, everything it had taken is given
    back and the process table is as before; the error says whether the table
    was full or memory short.  Otherwise the new process has a number no other
    process has, is the youngest child of the caller, and can run. *)
Theorem do_fork_spec sc `{!SchedPolicy sc} {E : Type} (R : resources E) `{!Resources R} kids s clone_flags stack tf :
  proc_inv sc R kids s ->
  wlp (do_fork sc R clone_flags stack tf) (fun r s' =>
    fork_failed sc R kids s r s' \/ exists p, forked sc R kids s p r s') s.
Proof. apply wlp_do_fork. Qed.
