(* ===== verification/Reaping.v ===== *)
(** The end of a process: [do_exit], [do_wait] and [do_kill] of [Process].  A
    process that exits becomes a zombie, its children go to [initproc], and
    whoever waits for it is woken; its parent's [do_wait] takes it out of the
    table and gives back what it still held. *)
From stdpp Require Import functions.
From S2P Require Import Prelude Printfmt SkewHeap Sched RoundRobin Process ProcTree Lifecycle.
#[local] Abbreviation length := Datatypes.length.

(** ** Waking those that wait for a child *)

Definition waiting (r : rqs) (p : pptr) : Prop := life r p = Some (PROC_SLEEPING, WT_CHILD).

(** From [r] to [r'] nothing happened, except that [p] may have been woken. *)
Definition woken (p : pptr) (r r' : rqs) : Prop :=
  (forall q, q <> p -> life r' q = life r q) /\
  (life r' p = life r p \/ waiting r p /\ life r' p = Some (PROC_RUNNABLE, 0)).

Lemma woken_refl p r : woken p r r.
Proof. split; [done|by left]. Qed.

Lemma woken_trans p r1 r2 r3 : woken p r1 r2 -> woken p r2 r3 -> woken p r1 r3.
Proof.
  unfold woken, waiting. intros [A1 A2] [B1 B2]. split; [intros q Hq; by rewrite B1, A1|].
  destruct A2 as [A2|[A2 A3]], B2 as [B2|[B2 B3]]; rewrite ?A2 in *; rewrite ?A3 in *; auto.
Qed.

Lemma woken_not p r r' : woken p r r' -> ~ waiting r p -> ~ waiting r' p.
Proof. unfold woken, waiting. intros [_ [->|[? _]]]; tauto. Qed.

(** A process that waits for something sleeps. *)
Definition asleep (r : rqs) : Prop := forall p st ws, life r p = Some (st, ws) -> ws <> 0 -> st = PROC_SLEEPING.

Lemma woken_asleep p r r' : woken p r r' -> asleep r -> asleep r'.
Proof.
  intros [H1 H2] Ha q st ws Hq Hws. destruct (decide (q = p)) as [->|Hne]; [|rewrite H1 in Hq by done; by eapply Ha].
  destruct H2 as [E|[_ E]]; rewrite E in Hq; [by eapply Ha|]. by injection Hq as <- <-.
Qed.

Section proofs.
Context (sc : sched_class) `{!SchedPolicy sc} {E : Type} (R : resources E) `{!Resources R}.
Implicit Types (s : pst E) (p q c : pptr) (kids : pptr -> list pptr) (k : kstate) (o : own).

Abbreviation sched_inv := (Sched.sched_inv sc).
Abbreviation proc_inv := (Lifecycle.proc_inv sc R).

Lemma wp_wake_when s p y (Q : () -> pst E -> Prop) :
  sched_inv (krn s) -> lf s p = Some (state y, wait_state y) -> asleep (sch (krn s)) ->
  (forall r, sched_inv (set_sch r (krn s)) -> woken p (sch (krn s)) r -> ~ waiting r p ->
     Q () (set_krn (set_sch r (krn s)) s)) ->
  wp (when (bool_decide (wait_state y = WT_CHILD)) (in_krn (wakeup_proc sc p))) Q s.
Proof.
  intros Hi Hp Ha HQ. unfold lf in Hp. apply wp_when_dec; intros Ew.
  - rewrite Ew in Hp. assert (Es : state y = PROC_SLEEPING) by by apply (Ha _ _ _ Hp). rewrite Es in Hp.
    eapply (wp_wake sc); [done|exact Hp|done|]. intros r Hr Hl. rewrite decide_False in Hl by done. apply HQ; [done| |].
    + split; [intros q Hq; by rewrite Hl, decide_False|]. right. split; [done|]. by rewrite Hl, decide_True.
    + unfold waiting. by rewrite Hl, decide_True.
  - replace s with (set_krn (set_sch (sch (krn s)) (krn s)) s) by by destruct s as [[]].
    apply HQ; [by destruct s as [[]]|apply woken_refl|]. unfold waiting. rewrite Hp. intros [= _ E0]. done.
Qed.

(** ** Handing the children over *)

(** The processes of [l] have [init] as their parent, nothing else changed in who
    is who. *)
Definition rehome (init : pptr) (l : list pptr) (m m' : gmap pptr task) : Prop := forall q,
  ident m' q = if decide (q ∈ l) then (fun x => (x.1, init)) <$> ident m q else ident m q.

Lemma wp_hand_over s kids ys c init t p l (Q : () -> pst E -> Prop) :
  tree (tasks s) kids ys -> tasks s !! c = Some t -> is_Some (tasks s !! init) -> c <> init -> ys init = NULL ->
  kids c = p :: l -> (forall q, q ∉ kids q) -> p <> init ->
  (forall m', tree m' (<[init := p :: kids init]> (<[c := l]> kids)) (<[c := p]> ys) -> rehome init [p] (tasks s) m' ->
     Q () (set_tasks m' s)) ->
  wp (hand_over c init t) Q s.
Proof.
  intros H Ht [ti Hi] Hci Hy Ek Hself Hpi HQ.
  assert (Hpk : p ∈ kids c) by (rewrite Ek; set_solver +).
  destruct (tree_kid_alloc _ _ _ _ _ H Hpk) as ([x Hx]&_&Hpn).
  assert (Hpc : p <> c) by (intros ->; by apply (Hself c)).
  assert (Ecp : cptr t = p).
  { pose proof (tr_first _ _ _ H c ltac:(eauto)) as Hf. unfold first_of in Hf. rewrite Ht, Ek in Hf. by injection Hf. }
  assert (Eop : optr x = List.hd NULL l).
  { by destruct (sibs_mid _ _ _ c p [] l x H Ek Hx) as (_&?&_). }
  pose proof (behead_tree _ _ _ _ _ _ _ H Ek Ht) as H1. set (m1 := <[c := _]> _) in H1.
  set (kids1 := <[c := l]> kids) in *. set (ys1 := <[c := p]> ys) in *.
  assert (Hki : kids1 init = kids init) by (unfold kids1; by rewrite fn_lookup_insert_ne).
  assert (Hnok : forall q, p ∉ kids1 q).
  { intros q Hq. unfold kids1 in Hq. destruct (decide (c = q)) as [<-|Hne].
    - rewrite fn_lookup_insert in Hq. pose proof (tr_nodup _ _ _ H c) as Hnd. rewrite Ek in Hnd. by apply NoDup_cons in Hnd as [? _].
    - rewrite fn_lookup_insert_ne in Hq by done. apply Hne. exact (tree_kid_unique _ _ _ _ _ _ H Hpk Hq). }
  assert (Hm1p : m1 !! p = Some x) by (unfold m1; by rewrite lookup_insert_ne).
  assert (Hm1i : m1 !! init = Some ti) by (unfold m1; by rewrite lookup_insert_ne).
  set (x1 := set_parent init (set_optr (cptr ti) (set_yptr NULL x))).
  assert (H2 : tree (<[p := x1]> m1) kids1 ys1) by (by eapply tree_free).
  assert (Eci : cptr ti = List.hd NULL (kids1 init)).
  { pose proof (tr_first _ _ _ H1 init ltac:(eauto)) as Hf. unfold first_of in Hf. rewrite Hm1i in Hf. by injection Hf. }
  assert (Hsi : init ∉ kids1 init) by (rewrite Hki; apply Hself).
  (* the final map *)
  assert (Hend : forall m', (m' = <[init := set_cptr p ti]> (<[p := x1]> m1) /\ kids1 init = [] \/
     exists d l tc, kids1 init = d :: l /\ <[p := x1]> m1 !! d = Some tc /\ m' = <[init := set_cptr p ti]> (<[d := set_yptr p tc]> (<[p := x1]> m1))) ->
     Q () (set_tasks m' s)).
  { intros m' Hm'. assert (L : linked_in (<[p := x1]> m1) m' kids1 init p).
    { eapply (linked_writes _ kids1 ys1); [exact H2|apply lookup_insert_eq|by rewrite lookup_insert_ne|done|apply Hnok|done|done|done|exact Eci|exact Hm']. }
    apply HQ.
    - rewrite <-Hki. eapply linked_tree; [exact H2|exact L|by eexists; apply lookup_insert_eq|by eexists; rewrite lookup_insert_ne| |done].
      unfold ys1. by rewrite fn_lookup_insert_ne.
    - intros q. rewrite (linked_ident _ _ _ _ _ x1 _ L); [|apply lookup_insert_eq|done]. rewrite ident_insert.
      destruct (decide (q = p)) as [->|Hq].
      + rewrite decide_True by (by apply list_elem_of_singleton). unfold ident. by rewrite Hx.
      + rewrite decide_False by (by rewrite list_elem_of_singleton). unfold m1. rewrite ident_insert.
        destruct (decide (q = c)) as [->|]; [|done]. unfold ident. by rewrite Ht. }
  unfold hand_over. cbv zeta. rewrite Ecp. kstep. eapply wp_task_at; [exact Hx|]. rewrite Eop.
  kstep. eapply wp_task_upd; [exact Ht|]. cbn [tasks set_tasks]. fold m1.
  kstep. eapply wp_task_upd; [exact Hm1p|]. cbn [tasks set_tasks].
  kstep. eapply wp_task_at; [cbn; rewrite lookup_insert_ne by done; exact Hm1i|].
  kstep. eapply wp_task_upd; [apply lookup_insert_eq|]. cbn [tasks set_tasks]. rewrite insert_insert_eq.
  kstep. apply wp_when_dec; intros E0; [|apply dec_stable in E0].
  - destruct (kids1 init) as [|d k] eqn:Ed; [by rewrite Eci in E0|]. cbn [List.hd] in Eci.
    destruct (tree_kid_alloc _ _ _ init d H1) as ([td Htd]&_&_); [rewrite Ed; set_solver +|].
    assert (d <> p) by (intros ->; apply (Hnok init); rewrite Ed; set_solver +).
    assert (d <> init) by (intros ->; apply Hsi; set_solver +).
    rewrite Eci at 1. eapply wp_task_upd; [cbn; rewrite lookup_insert_ne by done; exact Htd|]. cbn [tasks set_tasks].
    kstep. eapply wp_task_upd; [cbn; rewrite Eci, lookup_insert_ne, lookup_insert_eq by done; done|]. cbn [tasks set_tasks].
    rewrite Eci, insert_insert_ne, insert_insert_eq by done. rewrite <-Eci.
    eapply wp_task_upd; [cbn; rewrite Eci, !lookup_insert_ne by done; exact Hm1i|]. cbn [tasks set_tasks].
    apply Hend. right. exists d, k, td. rewrite Eci. split_and!; [done|by rewrite lookup_insert_ne|]. unfold x1. by rewrite Eci.
  - kstep. eapply wp_task_upd; [apply lookup_insert_eq|]. cbn [tasks set_tasks]. rewrite insert_insert_eq.
    eapply wp_task_upd; [cbn; rewrite lookup_insert_ne by done; exact Hm1i|]. cbn [tasks set_tasks].
    apply Hend. left. split; [done|]. destruct (kids1 init) as [|d k] eqn:Ed; [done|]. exfalso. cbn in Eci.
    assert (Hd : d ∈ kids1 init) by (rewrite Ed; set_solver +).
    destruct (tree_kid_alloc _ _ _ init d H1 Hd) as (_&_&?). congruence.
Qed.

Lemma rehome_trans init l1 l2 m1 m2 m3 :
  rehome init l1 m1 m2 -> rehome init l2 m2 m3 -> rehome init (l1 ++ l2) m1 m3.
Proof.
  intros H1 H2 q. rewrite H2, H1. destruct (decide (q ∈ l2)), (decide (q ∈ l1)).
  - rewrite decide_True by set_solver. by destruct (ident m1 q).
  - by rewrite decide_True by set_solver.
  - by rewrite decide_True by set_solver.
  - by rewrite decide_False by set_solver.
Qed.

(** The children of [c] in front of those of [init], youngest last. *)
Definition handed kids c init : pptr -> list pptr := fun q =>
  if decide (q = init) then rev (kids c) ++ kids init else if decide (q = c) then [] else kids q.

Lemma handed_step kids c init p l q :
  c <> init -> kids c = p :: l ->
  handed (<[init := p :: kids init]> (<[c := l]> kids)) c init q = handed kids c init q.
Proof.
  intros Hne Ek. unfold handed. rewrite fn_lookup_insert, (fn_lookup_insert_ne _ init c), fn_lookup_insert by done.
  destruct (decide (q = init)); [rewrite Ek; cbn; by rewrite <-app_assoc|].
  destruct (decide (q = c)); [done|]. by rewrite !fn_lookup_insert_ne by done.
Qed.

(** The loop: all children of [c] go to [init], which is woken if it waits and
    one of them is a zombie. *)
Lemma wp_exit_reparent fuel c init s kids ys (Q : () -> pst E -> Prop) :
  tree (tasks s) kids ys -> (forall q, q <> c -> ys q = NULL) -> is_Some (tasks s !! c) -> is_Some (tasks s !! init) -> c <> init ->
  (forall q, q ∉ kids q) -> init ∉ kids c -> (length (kids c) < fuel)%nat ->
  sched_inv (krn s) -> asleep (sch (krn s)) -> is_Some (life (sch (krn s)) init) ->
  (forall ws, life (sch (krn s)) init <> Some (PROC_ZOMBIE, ws)) ->
  (forall q, q ∈ kids c -> is_Some (life (sch (krn s)) q)) ->
  (forall m' r, tree_rep m' (handed kids c init) ->
     rehome init (kids c) (tasks s) m' -> sched_inv (set_sch r (krn s)) -> woken init (sch (krn s)) r ->
     ((exists q, q ∈ kids c /\ zombie (sch (krn s)) q) -> ~ waiting r init) ->
     Q () (set_krn (set_sch r (krn s)) (set_tasks m' s))) ->
  wp (reparent sc fuel c init) Q s.
Proof.
  revert s kids ys. induction fuel as [|fuel IH];
    intros s kids ys H Hy [t Ht] Hi Hci Hself Hic Hlen Hsc Ha Hli Hz Hlk HQ; [lia|].
  cbn [reparent]. kstep. eapply wp_task_at; [exact Ht|].
  assert (Ecp : cptr t = List.hd NULL (kids c)).
  { pose proof (tr_first _ _ _ H c ltac:(eauto)) as Hf. unfold first_of in Hf. rewrite Ht in Hf. by injection Hf. }
  destruct (kids c) as [|p l] eqn:Ek; cbn [List.hd] in Ecp.
  { rewrite bool_decide_true by done. kstep. specialize (HQ (tasks s) (sch (krn s))).
    replace (set_krn (set_sch (sch (krn s)) (krn s)) (set_tasks (tasks s) s)) with s in HQ by by destruct s as [[]].
    apply HQ; [|done|by destruct s as [[]]|apply woken_refl|intros (q&Hq&_); set_solver +Hq].
    eapply tree_settled; [exact H| |].
    - intros q. unfold handed. rewrite Ek. destruct (decide (q = init)) as [->|]; [done|]. by destruct (decide (q = c)) as [->|].
    - intros q Hq. rewrite Hy; [done|]. intros ->. done. }
  assert (Hpc : p ∈ kids c) by (rewrite Ek; set_solver +).
  destruct (tree_kid_alloc _ _ _ _ _ H Hpc) as (_&_&Hpn).
  assert (Hpi : p <> init) by (intros ->; apply Hic; set_solver +).
  rewrite bool_decide_false by congruence. kstep.
  eapply wp_hand_over; [exact H|exact Ht|done|done|by apply Hy|exact Ek|done|done|]. intros m1 H1 R1. kstep.
  rewrite Ecp. destruct (Hlk p ltac:(set_solver +)) as [[stp wsp] Hlp].
  eapply (wp_sched_at (set_tasks m1 s)); [exact Hlp|]. intros y Ey _. rewrite Ey.
  set (kids1 := <[init := p :: kids init]> (<[c := l]> kids)) in *.
  assert (Ek1 : kids1 c = l) by (unfold kids1; by rewrite fn_lookup_insert_ne, fn_lookup_insert).
  assert (Hid : forall q, is_Some (m1 !! q) <-> is_Some (tasks s !! q)).
  { intros q. specialize (R1 q). unfold ident in R1. destruct (m1 !! q), (tasks s !! q), (decide (q ∈ [p])); cbn in R1; try done;
      split; intros [? ?]; eauto; done. }
  assert (Hself1 : forall q, q ∉ kids1 q).
  { intros q. unfold kids1. destruct (decide (init = q)) as [<-|]; [rewrite fn_lookup_insert, elem_of_cons; intros [?|?%Hself]; [congruence|done]|].
    rewrite fn_lookup_insert_ne by done. destruct (decide (c = q)) as [<-|]; [|rewrite fn_lookup_insert_ne by done; apply Hself].
    rewrite fn_lookup_insert. intros Hq. apply (Hself c). rewrite Ek. by apply elem_of_cons; right. }
  (* the rest of the loop, from a state where [init] may have been woken *)
  assert (Hrest : forall r, sched_inv (set_sch r (krn s)) -> woken init (sch (krn s)) r -> (stp = PROC_ZOMBIE -> ~ waiting r init) ->
    wp (reparent sc fuel c init) Q (set_krn (set_sch r (krn s)) (set_tasks m1 s))).
  { intros r Hr Hw Hnw.
    assert (Hlr : forall q, is_Some (life (sch (krn s)) q) -> is_Some (life r q)).
    { intros q Hq. destruct Hw as [W1 W2]. destruct (decide (q = init)) as [->|]; [|by rewrite W1].
      destruct W2 as [->|[_ ->]]; eauto. }
    apply (IH _ kids1 (<[c := p]> ys)); cbn [tasks krn set_krn set_tasks set_sch sch]; rewrite ?Ek1.
    - exact H1.
    - intros q Hq. rewrite fn_lookup_insert_ne by done. by apply Hy.
    - apply Hid. eauto.
    - by apply Hid.
    - done.
    - done.
    - intros Hin. apply Hic. by apply elem_of_cons; right.
    - cbn in Hlen. lia.
    - exact Hr.
    - by eapply woken_asleep.
    - by apply Hlr.
    - intros ws. destruct Hw as [_ [->|[_ ->]]]; [apply Hz|done].
    - intros q Hq. apply Hlr, Hlk. by apply elem_of_cons; right.
    - intros m' r' T R2 Hr' Hw' Hnw'. apply (HQ m' r'); [|by apply (rehome_trans init [p] l _ m1)|exact Hr'|by eapply woken_trans|].
      + eapply tree_settled; [exact T| |done]. intros q. symmetry. by apply handed_step.
      + intros (q&[->|Hq]%elem_of_cons&Hzq).
        * eapply woken_not; [exact Hw'|]. apply Hnw. destruct Hzq as [ws Hzq]. congruence.
        * apply Hnw'. exists q. split; [done|]. destruct Hzq as [ws Hzq]. exists ws. rewrite (proj1 Hw); [done|].
          intros ->. apply Hic. by apply elem_of_cons; right. }
  case_bool_decide as Ez.
  - do 2 kstep. destruct Hli as [[sti wsi] Hli]. eapply (wp_sched_at (set_tasks m1 s)); [exact Hli|]. intros z Ez1 Ez2.
    apply wp_wake_when; [exact Hsc|unfold lf; cbn; by rewrite Ez1, Ez2|exact Ha|]. intros r Hr Hw Hn. by apply Hrest.
  - kstep. kstep. specialize (Hrest (sch (krn s))).
    replace (set_krn (set_sch (sch (krn s)) (krn s)) (set_tasks m1 s)) with (set_tasks m1 s) in Hrest by by destruct s as [[]].
    apply Hrest; [by destruct s as [[]]|apply woken_refl|]. intros E0. congruence.
Qed.

(** ** Back to the scheduler *)

(** The part of the invariant that holds while the running process gives way. *)
Abbreviation table_inv kids s := (Lifecycle.proc_inv_at sc R (idleproc (krn s)) kids s).

Lemma lives_at r m idle c c' kids :
  lives r m idle c kids -> life r c' = Some (PROC_RUNNABLE, 0) -> lives r m idle c' kids.
Proof. intros [] H. by split. Qed.

Lemma wp_resched kids s (Q : () -> pst E -> Prop) :
  table_inv kids s ->
  (forall k, proc_inv kids (set_krn k s) -> same_life (sch (krn s)) (sch k) -> idleproc k = idleproc (krn s) ->
     lf s (current k) = Some (PROC_RUNNABLE, 0) -> Q () (set_krn k s)) ->
  wp (in_krn (schedule sc)) Q s.
Proof.
  intros [Hsc Hf Hn Hl Hnr Hmx (o&Ho&Hown)] HQ. apply wp_krn, (wp_schedule sc (krn s)); [exact Hsc|].
  intros r n Hs Hsame Hor.
  assert (Hrun : life (sch (krn s)) n = Some (PROC_RUNNABLE, 0)).
  { destruct Hor as [[-> _]|[_ [ws Hw]]]; [apply Hl|]. destruct (decide (ws = 0)) as [->|Hne]; [done|].
    by pose proof (li_asleep _ _ _ _ _ Hl _ _ _ Hw Hne). }
  apply HQ; [|exact Hsame|done|exact Hrun]. split; cbn [krn tasks proc_list hash_list nr_process next_safe last_pid env set_krn set_current set_sch sch current idleproc]; try done.
  - eapply lives_at; [by eapply lives_ext|]. by rewrite Hsame.
  - exists o. split; [done|]. by eapply owned_ext.
Qed.

(** ** do_exit *)

Definition has_init kids s : Prop :=
  initproc s ∈ kids (idleproc (krn s)) /\ ~ zombie (sch (krn s)) (initproc s).

Lemma rehome_alloc init l m m' q : rehome init l m m' -> is_Some (m' !! q) <-> is_Some (m !! q).
Proof.
  intros H. specialize (H q). unfold ident in H.
  destruct (m' !! q), (m !! q), (decide (q ∈ l)); cbn in H; try done; split; intros [? ?]; eauto; done.
Qed.

Lemma family_handed m m' l idle kids c init :
  family m l idle kids -> tree_rep m' (handed kids c init) -> rehome init (kids c) m m' -> c <> init -> init ∉ kids c ->
  family m' l idle (handed kids c init).
Proof.
  intros [F1 F2 F3 F4 F5 F6] T Rh Hne Hic.
  assert (Hin : forall q x, x ∈ handed kids c init q -> x ∈ kids q \/ q = init /\ x ∈ kids c).
  { intros q x. unfold handed. destruct (decide (q = init)) as [->|].
    - rewrite elem_of_app, list_elem_of_In, <-in_rev, <-list_elem_of_In. tauto.
    - destruct (decide (q = c)); [intros Hx; by apply not_elem_of_nil in Hx|tauto]. }
  split; [done| |done| | |].
  - intros q. by rewrite F2, (rehome_alloc _ _ _ _ _ Rh).
  - intros q t' Hq Ht'. specialize (Rh q). unfold ident in Rh. rewrite Ht' in Rh. cbn in Rh.
    destruct (m !! q) as [t|] eqn:Et; [|by destruct (decide (q ∈ kids c))].
    pose proof (F4 q t Hq Et) as Hk. destruct (decide (q ∈ kids c)) as [Hc|Hc]; injection Rh as _ _ _ Ep; rewrite Ep.
    + unfold handed. rewrite decide_True by done. apply elem_of_app. left. by rewrite list_elem_of_In, <-in_rev, <-list_elem_of_In.
    + unfold handed. destruct (decide (parent t = init)) as [<-|]; [by apply elem_of_app; right|].
      rewrite decide_False; [done|]. intros E0. apply Hc. by rewrite <-E0.
  - intros q x [Hx|[_ Hx]]%Hin; by eapply F5.
  - intros q [Hx|[-> Hx]]%Hin; [by apply (F6 q)|done].
Qed.

(** The running process becomes a zombie without children. *)
Lemma lives_exit r r' m m' idle c init kids :
  lives r m idle c kids -> (forall q, is_Some (m' !! q) <-> is_Some (m !! q)) -> c <> init -> c <> idle ->
  (forall ws, life r init <> Some (PROC_ZOMBIE, ws)) ->
  life r' c = Some (PROC_ZOMBIE, 0) ->
  (forall q, q <> c -> life r' q = life r q \/ waiting r q /\ life r' q = Some (PROC_RUNNABLE, 0)) ->
  lives r' m' idle idle (handed kids c init).
Proof.
  intros [L1 L2 L3 L4 L5 L6] Hm Hci Hcd Hiz Hc Hq.
  assert (Hidle : life r' idle = Some (PROC_RUNNABLE, 0)).
  { destruct (Hq idle) as [->|[_ ?]]; [by apply not_eq_sym|done..]. }
  split; [| | | |done|done].
  - intros q. rewrite Hm, L1. destruct (decide (q = c)) as [->|Hne]; [rewrite Hc, L6; split; eauto|].
    destruct (Hq q Hne) as [->|[-> ->]]; [done|]. split; eauto.
  - intros q st ws Hl Hws. destruct (decide (q = c)) as [->|Hne]; [rewrite Hc in Hl; by injection Hl as <- <-|].
    destruct (Hq q Hne) as [E0|[_ E0]]; rewrite E0 in Hl; [by eapply L2|by injection Hl as <- <-].
  - intros q ws Hl. destruct (decide (q = c)) as [->|Hne]; [congruence|].
    destruct (Hq q Hne) as [E0|[_ E0]]; rewrite E0 in Hl; [by eapply L3|done].
  - intros q ws Hl. unfold handed. destruct (decide (q = c)) as [->|Hne]; [by rewrite decide_False by done|].
    destruct (Hq q Hne) as [E0|[_ E0]]; rewrite E0 in Hl; [|done].
    rewrite decide_False; [by eapply L4|]. intros ->. by eapply Hiz.
Qed.

Lemma owned_exit r r' m m' l o c :
  owned r m l o -> c ∈ l -> (forall q, is_Some (m' !! q) <-> is_Some (m !! q)) ->
  life r' c = Some (PROC_ZOMBIE, 0) ->
  (forall q, q <> c -> life r' q = life r q \/ waiting r q /\ life r' q = Some (PROC_RUNNABLE, 0)) ->
  owned r' m' l (set_ftabs (ftabs o ∖ {[c]}) (set_spaces (spaces o ∖ {[c]}) o)).
Proof.
  intros [O1 O2 O3 O4] Hcl Hm Hc Hq.
  assert (Hz : forall q, zombie r' q <-> q = c \/ zombie r q).
  { intros q. unfold zombie. destruct (decide (q = c)) as [->|Hne]; [split; [by left|]; intros _; eauto|].
    destruct (Hq q Hne) as [->|[Hw ->]]; [naive_solver|]. unfold waiting in Hw. rewrite Hw. naive_solver. }
  split; intros q; cbn.
  - by rewrite Hm, O1.
  - done.
  - rewrite elem_of_difference, elem_of_singleton, O3, Hz. tauto.
  - rewrite elem_of_difference, elem_of_singleton, O4, Hz. tauto.
Qed.

(** [s'] is [s] after the running process has exited with [code]. *)
Record exited kids s code s' : Prop := {
  ex_inv : proc_inv (handed kids (current (krn s)) (initproc s)) s';
  ex_zombie : lf s' (current (krn s)) = Some (PROC_ZOMBIE, 0);
  ex_code : exists t, tasks s' !! current (krn s) = Some t /\ exit_code t = code;
  ex_away : current (krn s') <> current (krn s);
  ex_life q : q <> current (krn s) -> lf s' q = lf s q \/ waiting (sch (krn s)) q /\ lf s' q = Some (PROC_RUNNABLE, 0);
  ex_parent p : current (krn s) ∈ kids p -> ~ waiting (sch (krn s')) p;
  ex_orphans : (exists q, q ∈ kids (current (krn s)) /\ zombie (sch (krn s)) q) -> ~ waiting (sch (krn s')) (initproc s);
  ex_ident q : q <> current (krn s) -> ident (tasks s') q =
    if decide (q ∈ kids (current (krn s))) then (fun x => (x.1, initproc s)) <$> ident (tasks s) q else ident (tasks s) q;
  ex_pid q : pid <$> tasks s' !! q = pid <$> tasks s !! q;
  ex_list : proc_list s' = proc_list s;
  ex_idle : idleproc (krn s') = idleproc (krn s);
  ex_init : initproc s' = initproc s;
}.

(** How the states change between the start of [do_exit] and its call of
    [schedule]. *)
Lemma exit_lives r r1 r2 r3 c par init :
  (forall q, life r1 q = if decide (q = c) then Some (PROC_ZOMBIE, 0) else life r q) ->
  woken par r1 r2 -> woken init r2 r3 -> par <> c -> init <> c ->
  life r3 c = Some (PROC_ZOMBIE, 0) /\
  (forall q, q <> c -> life r3 q = life r q \/ waiting r q /\ life r3 q = Some (PROC_RUNNABLE, 0)).
Proof.
  unfold woken, waiting. intros H1 [A1 A2] [B1 B2] Hp Hi. split; [by rewrite B1, A1, H1, decide_True by auto|].
  intros q Hq. assert (E1 : life r1 q = life r q) by by rewrite H1, decide_False.
  assert (A : life r2 q = life r1 q \/ life r1 q = Some (PROC_SLEEPING, WT_CHILD) /\ life r2 q = Some (PROC_RUNNABLE, 0))
    by (destruct (decide (q = par)) as [->|]; [exact A2|left; by apply A1]).
  assert (B : life r3 q = life r2 q \/ life r2 q = Some (PROC_SLEEPING, WT_CHILD) /\ life r3 q = Some (PROC_RUNNABLE, 0))
    by (destruct (decide (q = init)) as [->|]; [exact B2|left; by apply B1]).
  destruct B as [->|[B ->]], A as [A|[A A']]; rewrite ?A, ?A' in *; try rewrite E1 in *; auto; congruence.
Qed.

Lemma exited_intro kids s code o t m' r e par :
  let c := current (krn s) in let init := initproc s in let m0 := <[c := set_exit_code code t]> (tasks s) in
  proc_inv kids s -> c <> idleproc (krn s) -> c <> init -> init ∉ kids c -> ~ zombie (sch (krn s)) init ->
  tasks s !! c = Some t -> c ∈ kids par -> owned (sch (krn s)) (tasks s) (proc_list s) o ->
  holds e (set_ftabs (ftabs o ∖ {[c]}) (set_spaces (spaces o ∖ {[c]}) o)) ->
  tree_rep m' (handed kids c init) -> rehome init (kids c) m0 m' -> sched_inv (set_sch r (krn s)) ->
  life r c = Some (PROC_ZOMBIE, 0) ->
  (forall q, q <> c -> life r q = life (sch (krn s)) q \/ waiting (sch (krn s)) q /\ life r q = Some (PROC_RUNNABLE, 0)) ->
  ~ waiting r par -> ((exists q, q ∈ kids c /\ zombie (sch (krn s)) q) -> ~ waiting r init) ->
  wp (in_krn (schedule sc)) (fun _ s' => exited kids s code s')
    (mk_pst (set_sch r (krn s)) m' (proc_list s) (hash_list s) (nr_process s) (next_safe s) (last_pid s) (initproc s) e).
Proof.
  cbv zeta. intros H Hd Hni Hic Hiz Ht Hpar Hown He T Rh Hr Z3 L3 Np Ni. pose proof H as [Hsc Hf Hn Hl Hnr Hmx _].
  set (c := current (krn s)) in *. set (init := initproc s) in *.
  assert (Hcl : c ∈ proc_list s) by (eapply fa_kids; [exact Hf|exact Hpar]).
  assert (F0 : family (<[c := set_exit_code code t]> (tasks s)) (proc_list s) (idleproc (krn s)) kids).
  { destruct Hf as [F1 F2 F3 F4 F5 F6]. split; [by eapply tree_update| |done| |done|done].
    - intros q. rewrite F2, lookup_insert_is_Some'. destruct (decide (c = q)) as [<-|]; [|tauto]. rewrite Ht. naive_solver.
    - intros q u Hq. rewrite lookup_insert. destruct (decide (c = q)) as [<-|]; [intros [= <-]; by apply (F4 c t)|by apply F4]. }
  assert (Hid : forall q, q <> c -> ident m' q = if decide (q ∈ kids c) then (fun x => (x.1, init)) <$> ident (tasks s) q else ident (tasks s) q).
  { intros q Hq. rewrite Rh, ident_insert, (decide_False (P := q = c)) by done. done. }
  assert (Hck : c ∉ kids c) by apply (fa_noself _ _ _ _ Hf).
  assert (Hpid : forall q, pid <$> m' !! q = pid <$> tasks s !! q).
  { intros q. destruct (decide (q = c)) as [->|Hq].
    - specialize (Rh c). rewrite decide_False, ident_insert, decide_True in Rh by done. apply fmap_Some in Rh as (u&->&[= Eu _ _ _]).
      rewrite Ht. cbn. by rewrite <-Eu.
    - rewrite !ident_pid, Hid by done. destruct (decide (q ∈ kids c)); [|done]. by destruct (ident (tasks s) q). }
  assert (Hdom : forall q, is_Some (m' !! q) <-> is_Some (tasks s !! q)).
  { intros q. rewrite <-!(fmap_is_Some pid). by rewrite Hpid. }
  apply (wp_resched (handed kids c init)).
  { split; cbn [krn tasks proc_list hash_list nr_process next_safe last_pid env set_sch sch idleproc]; try done.
    - by eapply family_handed.
    - eapply numbers_ext; [exact Hn|]. intros q _. apply Hpid.
    - eapply (lives_exit _ _ _ m'); [exact Hl|exact Hdom|done|done| |exact Z3|exact L3]. intros ws Hw. apply Hiz. by exists ws.
    - eexists. split; [exact He|]. by eapply (owned_exit _ _ _ m'). }
  intros k Hinv Hs Hi Hrun. cbn in Hs. assert (Hlf : forall q, life (sch k) q = life r q) by apply Hs.
  split; cbn [krn tasks proc_list initproc set_krn]; try done.
  - unfold lf. cbn. by rewrite Hlf.
  - specialize (Rh c). rewrite decide_False, ident_insert, decide_True in Rh by done. apply fmap_Some in Rh as (u&Eu&[= _ _ Ec _]). by exists u.
  - intros E0. cbn in E0. fold c in E0. unfold lf in Hrun. cbn in Hrun. by rewrite E0, Z3 in Hrun.
  - intros q Hq. unfold lf. cbn. rewrite Hlf. by apply L3.
  - intros p Hp. assert (p = par) as -> by exact (tree_kid_unique _ _ _ _ _ _ (fa_tree _ _ _ _ Hf) Hp Hpar).
    unfold waiting. by rewrite Hlf.
  - intros Hz. unfold waiting. rewrite Hlf. by apply Ni.
Qed.

Lemma wp_do_exit kids s code :
  proc_inv kids s -> current (krn s) <> idleproc (krn s) -> current (krn s) <> initproc s -> has_init kids s ->
  wp (do_exit sc R code) (fun _ s' => exited kids s code s') s.
Proof.
  intros H Hd Hni [Hinit Hiz]. pose proof H as [Hsc Hf Hn Hl Hnr Hmx (o&Ho&Hown)].
  set (c := current (krn s)) in *. set (init := initproc s) in *. set (idle := idleproc (krn s)) in *.
  assert (Hcl : c ∈ proc_list s) by (apply (listed sc R _ _ _ H); split; [by apply (current_task sc R kids)|done]).
  assert (Hcz : ~ zombie (sch (krn s)) c) by (intros [ws Hw]; rewrite (li_current _ _ _ _ _ Hl) in Hw; done).
  destruct (proj1 (listed sc R _ _ c H) Hcl) as [[t Ht] _].
  pose proof (fa_child _ _ _ _ Hf c t Hcl Ht) as Hpar. set (par := parent t) in *.
  assert (Hpc : par <> c) by (intros E0; apply (fa_noself _ _ _ _ Hf c); by rewrite E0 in Hpar).
  assert (Hic : init ∉ kids c) by (intros Hx; apply Hd; symmetry; exact (tree_kid_unique _ _ _ _ _ _ (fa_tree _ _ _ _ Hf) Hinit Hx)).
  destruct (tree_kid_alloc _ _ _ _ _ (fa_tree _ _ _ _ Hf) Hpar) as (_&Hpart&_).
  destruct (tree_kid_alloc _ _ _ _ _ (fa_tree _ _ _ _ Hf) Hinit) as (Hinitt&_&_).
  unfold do_exit. do 2 kstep. fold c init idle. kstep. kstep; [by rewrite bool_decide_true|]. kstep. kstep; [by rewrite bool_decide_true|].
  kstep. apply wp_env. eapply wp_mono; [apply put_mm_law; [exact Ho|by apply (ow_spaces _ _ _ _ Hown)]|]. intros [] e1 He1.
  kstep. apply wp_env. eapply wp_mono; [apply (put_files_law _ _ c He1); apply (ow_objs _ _ _ _ Hown); eauto|]. intros [] e2 He2.
  kstep. eapply (wp_sched_at _ c PROC_RUNNABLE 0); [apply Hl|]. intros x _ ->.
  kstep. apply wp_krn. cbn [krn set_env]. apply (wp_halt_current sc (krn s)); [exact Hsc|done|]. intros r1 Hr1 L1. fold c in L1.
  assert (A1 : asleep r1).
  { intros q st ws Hq Hws. rewrite L1 in Hq. destruct (decide (q = c)); [by injection Hq as <- <-|]. by eapply (li_asleep _ _ _ _ _ Hl). }
  kstep. eapply wp_task_upd; [exact Ht|]. cbn [tasks set_env set_krn set_tasks].
  kstep. eapply wp_task_at; [apply lookup_insert_eq|]. change (parent (set_exit_code code t)) with par.
  set (m0 := <[c := set_exit_code code t]> (tasks s)).
  assert (Lpar : life r1 par = life (sch (krn s)) par) by by rewrite L1, decide_False.
  destruct (proj1 (li_dom _ _ _ _ _ Hl par) Hpart) as [[stp wsp] Elp].
  kstep. eapply (wp_sched_at _ par stp wsp); [unfold lf; cbn; congruence|]. intros y Ey1 Ey2.
  kstep. apply (wp_wake_when _ par); cbn [krn set_tasks set_krn set_env sch set_sch]; [exact Hr1|unfold lf; cbn; rewrite Ey1, Ey2; congruence|exact A1|].
  intros r2 Hr2 W2 N2. cbn [krn set_tasks set_krn set_env sch set_sch] in *.
  do 3 kstep. cbn [tasks initproc set_tasks set_krn set_env]. fold init m0.
  assert (T0 : tree_rep m0 kids) by (eapply tree_update; [apply Hf|exact Ht|done..]).
  destruct (exit_lives _ _ _ _ _ _ init L1 W2 (woken_refl init r2) Hpc ltac:(done)) as [Z2 L2].
  assert (S2 : forall q, is_Some (life (sch (krn s)) q) -> is_Some (life r2 q)).
  { intros q Hq. destruct (decide (q = c)) as [->|Hne]; [by rewrite Z2|]. destruct (L2 q Hne) as [->|[_ ->]]; eauto. }
  eapply (wp_exit_reparent _ c init _ kids (fun _ => NULL)); cbn [tasks krn set_tasks set_krn set_env set_sch sch]; try done.
  { by eexists; apply lookup_insert_eq. } { unfold m0. apply lookup_insert_is_Some'. by right. }
  { apply (fa_noself _ _ _ _ Hf). }
  { apply Nat.lt_succ_r, alloc_size; [apply T0|]. intros q Hq. by destruct (tree_kid_alloc _ _ _ _ _ T0 Hq) as [? _]. }
  { by eapply woken_asleep. } { by apply S2, Hl. }
  { intros ws. destruct (L2 init) as [->|[_ ->]]; [done| |done]. intros Hw. apply Hiz. by exists ws. }
  { intros q Hq. apply S2, Hl. by destruct (tree_kid_alloc _ _ _ _ _ (fa_tree _ _ _ _ Hf) Hq) as [? _]. }
  intros m' r3 T3 Rh Hr3 W3 N3. cbn [krn set_tasks set_krn set_env sch set_sch].
  destruct (exit_lives _ _ _ _ _ _ init L1 W2 W3 Hpc ltac:(done)) as [Z3 L3].
  change (wp (in_krn (schedule sc)) (fun _ s' => exited kids s code s')
    (mk_pst (set_sch r3 (krn s)) m' (proc_list s) (hash_list s) (nr_process s) (next_safe s) (last_pid s) (initproc s) e2)).
  eapply exited_intro; try done.
  - destruct (decide (par = init)) as [E0|Hne]; [rewrite E0 in *; by eapply woken_not|].
    unfold waiting. by rewrite (proj1 W3).
  - intros (q&Hq&ws&Hw). apply N3. exists q. split; [done|]. exists ws.
    assert (q <> c) by (intros ->; by apply (fa_noself _ _ _ _ Hf c)).
    destruct (L2 q) as [->|[Hwq _]]; [done|done|]. unfold waiting in Hwq. congruence.
Qed.

Lemma has_init_handed kids s code s' :
  has_init kids s -> (forall q, q ∉ kids q) -> current (krn s) <> idleproc (krn s) -> current (krn s) <> initproc s ->
  exited kids s code s' -> has_init (handed kids (current (krn s)) (initproc s)) s'.
Proof.
  intros [Hi Hz] Hself Hd Hni X. unfold has_init. rewrite (ex_idle _ _ _ _ X), (ex_init _ _ _ _ X). split.
  - unfold handed. rewrite decide_False by (intros E0; rewrite E0 in Hi; by apply (Hself (initproc s))).
    by rewrite decide_False.
  - intros [ws Hw]. destruct (ex_life _ _ _ _ X (initproc s)) as [E0|[_ E0]]; [done| |]; unfold lf in E0; rewrite E0 in Hw; [|done].
    apply Hz. by exists ws.
Qed.

(** ** find_proc *)
Lemma wp_find_in l n s (Q : option pptr -> pst E -> Prop) :
  (forall p, p ∈ l -> is_Some (tasks s !! p)) ->
  (forall res, match res with
     | Some p => p ∈ l /\ exists t, tasks s !! p = Some t /\ pid t = n
     | None => forall p t, p ∈ l -> tasks s !! p = Some t -> pid t <> n end -> Q res s) ->
  wp (find_in l n) Q s.
Proof.
  induction l as [|p l IH]; intros Hall HQ; cbn [find_in].
  - kstep. apply HQ. intros p t Hp. by apply not_elem_of_nil in Hp.
  - destruct (Hall p) as [t Ht]; [set_solver +|]. kstep. eapply wp_task_at; [exact Ht|].
    destruct (Z.eqb_spec (pid t) n) as [E0|E0].
    + kstep. apply HQ. split; [set_solver +|by exists t].
    + apply IH; [intros q Hq; apply Hall, elem_of_cons; by right|]. intros [q|] Ho; apply HQ.
      * destruct Ho as [Hq Ho]. split; [apply elem_of_cons; by right|done].
      * intros q u [->|Hq]%elem_of_cons Hu; [congruence|by apply (Ho q)].
Qed.

(** [find_proc] finds the process with a number, if there is one. *)
Lemma wp_find_proc kids s n (Q : option pptr -> pst E -> Prop) :
  proc_inv kids s ->
  (forall res, match res with
     | Some p => p ∈ proc_list s /\ exists t, tasks s !! p = Some t /\ pid t = n
     | None => forall p t, p ∈ proc_list s -> tasks s !! p = Some t -> pid t <> n end -> Q res s) ->
  wp (find_proc n) Q s.
Proof.
  intros H HQ. pose proof (pi_numbers _ _ _ _ _ H) as N. unfold find_proc.
  destruct ((0 <? n) && (n <? MAX_PID)) eqn:Eb.
  - kstep. kstep. apply wp_find_in.
    + intros p [Hp _]%(nu_hash _ _ _ _ _ N). by apply (listed sc R _ _ _ H) in Hp as [? _].
    + intros [p|] Ho; apply HQ.
      * destruct Ho as [[Hp _]%(nu_hash _ _ _ _ _ N) Ho]. done.
      * intros p t Hp Ht E0. apply (Ho p t); [|done|done]. apply (nu_hash _ _ _ _ _ N). split; [done|]. exists t. by rewrite E0.
  - kstep. apply HQ. intros p t Hp Ht E0. pose proof (nu_pid _ _ _ _ _ N p t Hp Ht).
    apply andb_false_iff in Eb as [Eb%Z.ltb_ge|Eb%Z.ltb_ge]; lia.
Qed.

(** ** find_child *)
Lemma wp_find_zombie l fuel par y b s (Q : option pptr * bool -> pst E -> Prop) :
  sibs (tasks s) par y l NULL -> NULL ∉ l -> (length l <= fuel)%nat -> (forall q, q ∈ l -> is_Some (lf s q)) ->
  (forall res, match res with
     | Some p => p ∈ l /\ zombie (sch (krn s)) p
     | None => forall p, p ∈ l -> ~ zombie (sch (krn s)) p end ->
     Q (res, if res is Some _ then true else b || negb (bool_decide (l = []))) s) ->
  wp (find_zombie fuel (List.hd NULL l) b) Q s.
Proof.
  revert fuel y b. induction l as [|p l IH]; intros fuel y b Hs Hn Hf Hl HQ; cbn [List.hd].
  - specialize (HQ None). cbn in HQ. rewrite orb_false_r in HQ.
    destruct fuel; cbn [find_zombie]; (rewrite bool_decide_true by done); kstep; apply HQ; intros p Hp; by apply not_elem_of_nil in Hp.
  - rewrite not_elem_of_cons in Hn. destruct Hn as [Hpn Hn]. destruct fuel as [|fuel]; [cbn in Hf; lia|]. cbn [find_zombie].
    rewrite bool_decide_false by congruence. destruct Hs as [(t&Ht&_&_&Eo) Hs].
    destruct (Hl p) as [[st ws] Hp]; [set_solver +|]. kstep. eapply (wp_sched_at _ p st ws); [exact Hp|]. intros x Ex _.
    rewrite Ex. destruct (decide (st = PROC_ZOMBIE)) as [Ez|Ez]; [rewrite bool_decide_true by done|rewrite bool_decide_false by done].
    + kstep. apply (HQ (Some p)). split; [set_solver +|]. exists ws. unfold lf in Hp. congruence.
    + kstep. eapply wp_task_at; [exact Ht|]. rewrite Eo. eapply IH; [exact Hs|done|cbn in Hf; lia|intros q Hq; apply Hl, elem_of_cons; by right|].
      intros o Ho. specialize (HQ o). destruct o as [q|].
      * apply HQ. destruct Ho as [Hq Hz]. split; [apply elem_of_cons; by right|done].
      * rewrite bool_decide_false in HQ by done. rewrite orb_true_r in HQ. apply HQ.
        intros q [->|Hq]%elem_of_cons; [|by apply Ho]. intros [ws' Hw]. unfold lf in Hp. congruence.
Qed.

(** What a [do_wait] for the number [n] looks for: a child with that number, any
    child if [n] is zero. *)
Definition waits_for kids s c n p : Prop :=
  p ∈ kids c /\ (n = 0 \/ exists t, tasks s !! p = Some t /\ pid t = n).

Lemma wp_find_child kids s n (Q : option pptr * bool -> pst E -> Prop) :
  proc_inv kids s ->
  (forall p, waits_for kids s (current (krn s)) n p -> zombie (sch (krn s)) p -> Q (Some p, true) s) ->
  (forall p, waits_for kids s (current (krn s)) n p ->
     (forall q, waits_for kids s (current (krn s)) n q -> ~ zombie (sch (krn s)) q) -> Q (None, true) s) ->
  ((forall p, ~ waits_for kids s (current (krn s)) n p) -> Q (None, false) s) ->
  wp (find_child (current (krn s)) n) Q s.
Proof.
  intros H HZ HN H0. set (c := current (krn s)) in *. unfold find_child.
  pose proof (pi_family _ _ _ _ _ H) as F. pose proof (pi_lives _ _ _ _ _ H) as L. pose proof (pi_numbers _ _ _ _ _ H) as N.
  assert (Hkid : forall p t, p ∈ proc_list s -> tasks s !! p = Some t -> p ∈ kids c <-> parent t = c).
  { intros p t Hp Ht. split.
    - intros Hk. destruct (tree_kid _ _ _ _ _ (fa_tree _ _ _ _ F) Hk) as (u&Hu&<-). congruence.
    - intros <-. by apply (fa_child _ _ _ _ F). }
  case_bool_decide as En.
  - kstep. eapply wp_find_proc; [exact H|]. intros [p|] Ho.
    + destruct Ho as (Hp&t&Ht&Ep). kstep. eapply wp_task_at; [exact Ht|].
      assert (Hw : forall q, waits_for kids s c n q -> q = p).
      { intros q [Hq [?|(u&Hu&Eu)]]; [done|]. eapply (nu_unique _ _ _ _ _ N); [by eapply fa_kids|exact Hp|exact Hu|exact Ht|congruence]. }
      case_bool_decide as Epar.
      * assert (Hwp : waits_for kids s c n p) by (split; [by apply (Hkid p t)|right; by exists t]).
        destruct (proj1 (li_dom _ _ _ _ _ L p)) as [[st ws] Hl]; [eauto|]. kstep. eapply (wp_sched_at _ p st ws); [exact Hl|]. intros x Ex _.
        kstep. rewrite Ex. case_bool_decide as Ez.
        -- apply HZ; [done|]. exists ws. congruence.
        -- apply (HN p Hwp). intros q Hq%Hw [ws' Hw']. congruence.
      * kstep. apply H0. intros q Hq. pose proof (Hw q Hq) as ->. destruct Hq as [Hq _]. by apply Epar, (Hkid p t).
    + kstep. apply H0. intros q [Hq [?|(u&Hu&Eu)]]; [done|]. apply (Ho q u); [by eapply fa_kids|done|done].
  - kstep. kstep. destruct (current_task sc R _ _ H) as [t Ht]. fold c in Ht. kstep. eapply wp_task_at; [exact Ht|].
    pose proof (tr_first _ _ _ (fa_tree _ _ _ _ F) c ltac:(eauto)) as Ef. unfold first_of in Ef. rewrite Ht in Ef. injection Ef as ->.
    assert (Hall : forall q, q ∈ kids c -> is_Some (tasks s !! q) /\ q <> NULL).
    { intros q Hq. by destruct (tree_kid_alloc _ _ _ _ _ (fa_tree _ _ _ _ F) Hq) as (?&_&?). }
    eapply wp_find_zombie; [apply (tr_sibs _ _ _ (fa_tree _ _ _ _ F) c)| | | |].
    + intros Hx. by destruct (Hall _ Hx) as [_ ?].
    + apply alloc_size; [apply (tr_nodup _ _ _ (fa_tree _ _ _ _ F))|]. intros q Hq. by apply Hall.
    + intros q Hq. apply (li_dom _ _ _ _ _ L). by apply Hall.
    + intros [p|] Ho; cbn.
      * destruct Ho as [Hp Hz]. apply HZ; [split; [done|by left]|done].
      * destruct (kids c) as [|p l] eqn:Ek.
        -- rewrite bool_decide_true by done. apply H0. intros p [Hp _]. rewrite Ek in Hp. by apply not_elem_of_nil in Hp.
        -- rewrite bool_decide_false by done. apply (HN p); [split; [rewrite Ek; set_solver +|by left]|].
           intros q [Hq _]. rewrite Ek in Hq. by apply Ho.
Qed.

(** ** reap *)

(** [s'] is [s] without the zombie [p], a child of the running process. *)
Record reaped kids s p s' : Prop := {
  rp_inv : exists l1 l2, kids (current (krn s)) = l1 ++ p :: l2 /\ proc_inv (<[current (krn s) := l1 ++ l2]> kids) s';
  rp_gone : tasks s' !! p = None;
  rp_life q : q <> p -> lf s' q = lf s q;
  rp_ident q : q <> p -> ident (tasks s') q = ident (tasks s) q;
  rp_list : proc_list s' = List.filter (fun q => negb (q =? p)) (proc_list s);
  rp_current : current (krn s') = current (krn s);
  rp_idle : idleproc (krn s') = idleproc (krn s);
  rp_init : initproc s' = initproc s;
}.

Lemma lives_reap r m m' idle c kids p l :
  lives r m idle c kids -> zombie r p -> (forall q, is_Some (m' !! q) <-> is_Some (m !! q) /\ q <> p) ->
  lives (release p r) m' idle c (<[c := l]> kids).
Proof.
  intros [L1 L2 L3 L4 L5 L6] [wz Hz] Hm.
  assert (Hne : forall q ws, life r q = Some (PROC_RUNNABLE, ws) -> q <> p) by (intros q ws Hq ->; congruence).
  split.
  - intros q. rewrite Hm, life_release, L1. destruct (decide (q = p)); [|tauto]. split; [tauto|by intros [? ?]].
  - intros q st ws. rewrite life_release. destruct (decide (q = p)); [done|apply L2].
  - intros q ws. rewrite life_release. destruct (decide (q = p)); [done|apply L3].
  - intros q ws. rewrite life_release. destruct (decide (q = p)); [done|]. intros Hq.
    destruct (decide (c = q)) as [<-|]; [congruence|]. rewrite fn_lookup_insert_ne by done. by eapply L4.
  - rewrite life_release, decide_False by by eapply Hne. done.
  - rewrite life_release, decide_False by by eapply Hne. done.
Qed.

Lemma owned_reap r m m' l o p :
  owned r m l o -> zombie r p -> (forall q, is_Some (m' !! q) <-> is_Some (m !! q) /\ q <> p) ->
  owned (release p r) m' (List.filter (fun q => negb (q =? p)) l)
    (set_objs (objs o ∖ {[p]}) (set_stacks (stacks o ∖ {[p]}) o)).
Proof.
  intros [O1 O2 O3 O4] Hp Hm.
  assert (Z : forall q, q <> p -> zombie (release p r) q <-> zombie r q).
  { intros q Hq. unfold zombie. by rewrite life_release, decide_False. }
  split; intros q; cbn.
  - by rewrite elem_of_difference, elem_of_singleton, O1, Hm.
  - by rewrite elem_of_difference, elem_of_singleton, O2, elem_of_remove.
  - rewrite O3, elem_of_remove. destruct (decide (q = p)) as [->|Hq]; [tauto|]. rewrite Z by done. tauto.
  - rewrite O4, elem_of_remove. destruct (decide (q = p)) as [->|Hq]; [tauto|]. rewrite Z by done. tauto.
Qed.

Lemma reaped_intro kids s p t m' e o l1 l2 :
  proc_inv kids s -> kids (current (krn s)) = l1 ++ p :: l2 -> zombie (sch (krn s)) p -> tasks s !! p = Some t ->
  taken_out (tasks s) m' (current (krn s)) p l1 l2 -> owned (sch (krn s)) (tasks s) (proc_list s) o ->
  holds e (set_objs (objs o ∖ {[p]}) (set_stacks (stacks o ∖ {[p]}) o)) ->
  reaped kids s p (mk_pst (set_sch (release p (sch (krn s))) (krn s)) (delete p m') (List.filter (fun q => negb (q =? p)) (proc_list s))
    (<[pid_hashfn (pid t) := List.filter (fun q => negb (q =? p)) (hash_list s (pid_hashfn (pid t)))]> (hash_list s))
    (s32 (nr_process s - 1)) (next_safe s) (last_pid s) (initproc s) e).
Proof.
  intros H Ek Hz Ht T Hown He. pose proof H as [Hsc F N L Hnr Hmx _].
  assert (Hk : p ∈ kids (current (krn s))) by (rewrite Ek; set_solver +).
  assert (Hpl : p ∈ proc_list s) by by eapply fa_kids.
  assert (Hdom : forall q, is_Some (delete p m' !! q) <-> is_Some (tasks s !! q) /\ q <> p).
  { intros q. rewrite lookup_delete. destruct (decide (p = q)) as [->|]; [split; [by intros [? ?]|tauto]|].
    rewrite (info_alloc _ _ _ (tk_info _ _ _ _ _ _ T q)). naive_solver. }
  assert (Hid : forall q, q <> p -> ident (delete p m') q = ident (tasks s) q).
  { intros q Hq. rewrite <-(taken_ident _ _ _ _ _ _ q T Hq). unfold ident. by rewrite lookup_delete_ne. }
  assert (Hne : forall q ws, life (sch (krn s)) q = Some (PROC_RUNNABLE, ws) -> p <> q).
  { intros q ws Hq <-. destruct Hz as [wz Hz]. congruence. }
  assert (Hlen : S (length (List.filter (fun q => negb (q =? p)) (proc_list s))) = length (proc_list s)).
  { pose proof (fa_nodup _ _ _ _ F) as Hnd. apply list_elem_of_split in Hpl as (k1&k2&E0). rewrite E0 in *.
    assert (Hp : p ∉ k1 ++ k2) by (rewrite <-Permutation_middle in Hnd; by apply NoDup_cons in Hnd as [? _]).
    rewrite not_elem_of_app in Hp. destruct Hp as [Hp1 Hp2].
    rewrite List.filter_app. cbn [List.filter]. rewrite Z.eqb_refl. cbn [negb].
    rewrite !filter_notin by done. rewrite !length_app. cbn. lia. }
  assert (Es : s32 (nr_process s - 1) = nr_process s - 1) by (unfold MAX_PROCESS in Hmx; apply swrap_small; lia).
  destruct Hz as [wz Hz]. split; cbn [krn tasks proc_list initproc set_sch current idleproc]; try done.
  - exists l1, l2. split; [done|]. split; cbn [krn tasks proc_list hash_list nr_process next_safe last_pid env set_sch sch current idleproc].
    + eapply (sched_inv_release sc); [exact Hsc|exact Hz|done|by eapply Hne, L|by eapply Hne, L].
    + eapply family_taken; [exact F|exact Ek|by eapply li_zombie|exact T].
    + eapply numbers_ext; [by eapply numbers_remove|]. intros q [_ Hq]%elem_of_remove. rewrite !ident_pid, Hid by done.
      f_equal. unfold ident. by rewrite lookup_delete_ne.
    + eapply lives_reap; [exact L|by exists wz|exact Hdom].
    + rewrite Es, Hnr. lia.
    + rewrite Es. lia.
    + eexists. split; [exact He|]. eapply owned_reap; [exact Hown|by exists wz|exact Hdom].
  - by rewrite lookup_delete_eq.
  - intros q Hq. unfold lf. cbn. by rewrite life_release, decide_False.
Qed.

Lemma wlp_reap kids s p code_store :
  proc_inv kids s -> has_init kids s -> p ∈ kids (current (krn s)) -> zombie (sch (krn s)) p ->
  wlp (reap R (current (krn s)) p code_store) (fun _ s' => reaped kids s p s') s.
Proof.
  intros H [Hini Hiz] Hk Hz. pose proof H as [Hsc F N L Hnr Hmx (o&Ho&Hown)]. set (c := current (krn s)) in *.
  assert (Hpl : p ∈ proc_list s) by by eapply fa_kids.
  destruct (proj1 (listed sc R _ _ p H) Hpl) as [[t Ht] Hpd].
  pose proof Hk as (l1&l2&Ek)%list_elem_of_split.
  assert (Hp12 : p ∉ l1 ++ l2).
  { pose proof (tr_nodup _ _ _ (fa_tree _ _ _ _ F) c) as Hnd. rewrite Ek, <-Permutation_middle in Hnd. by apply NoDup_cons in Hnd as [? _]. }
  unfold reap. apply wlp_bind_wp, wp_get. apply wlp_bind_wp, wp_assert; [rewrite bool_decide_true; [done|]; split; [done|]; by intros ->|].
  apply wlp_bind_wp. eapply wp_task_at; [exact Ht|]. apply wlp_bind.
  apply (wlp_mono _ (fun _ s1 => exists e1, s1 = set_env e1 s /\ holds e1 o)).
  { unfold when. case_bool_decide; [|apply wlp_ret; exists (env s); by destruct s].
    apply wlp_zoom. eapply wlp_mono; [by apply store_int_law|]. intros [] e1 He1. by exists e1. }
  intros [] s1 (e1&->&He1). apply wp_wlp. kstep. unfold unhash_proc. kstep. eapply wp_task_at; [exact Ht|]. kstep. cbv zeta. kstep.
  eapply (wp_remove_links _ kids c p l1 l2); cbn [tasks proc_list nr_process set_hash_list set_env]; [apply F|exact Ek|exact Hp12|eauto| |apply (fa_noself _ _ _ _ F)|].
  { intros ->. by apply (fa_noself _ _ _ _ F c). }
  intros m' T. kstep. apply wp_env. eapply wp_mono; [apply put_kstack_law; [exact He1|by apply (ow_stacks _ _ _ _ Hown)]|].
  intros [] e2 He2. unfold free_proc. kstep. apply wp_env. eapply wp_mono; [apply (kfree_law _ _ p He2); cbn|].
  { apply (ow_objs _ _ _ _ Hown). eauto. } { set_solver +. }
  { rewrite (ow_spaces _ _ _ _ Hown). tauto. } { rewrite (ow_ftabs _ _ _ _ Hown). tauto. }
  intros [] e3 He3. kstep. apply wp_krn. kstep. kstep.
  exact (reaped_intro kids s p t m' e3 o l1 l2 H Ek Hz Ht T Hown He3).
Qed.
End proofs.

(** [do_exit] turns the running process into a zombie that has given back
    its address space and files, hands its children to [initproc] in order,
    wakes the parent and, for a child that is a zombie already, [initproc], if
    they wait, changes the state of no other process, and gives the processor
    away for good. *)
Theorem do_exit_spec sc `{!SchedPolicy sc} {E : Type} (R : resources E) `{!Resources R} kids s code :
  proc_inv sc R kids s -> current (krn s) <> idleproc (krn s) -> current (krn s) <> initproc s -> has_init kids s ->
  wp (do_exit sc R code) (fun _ s' => exited sc R kids s code s') s.
Proof. apply wp_do_exit. Qed.
