(* ===== verification/Waiting.v ===== *)
(** [do_wait] and [do_kill] of [Process], on the lemmas of [Reaping]: what one
    round of [do_wait] does on each branch, and what a kill changes. *)
From stdpp Require Import functions.
From S2P Require Import Prelude Printfmt SkewHeap Sched RoundRobin Process ProcTree Lifecycle Reaping.
#[local] Abbreviation length := Datatypes.length.

Section proofs.
Context (sc : sched_class) `{!SchedPolicy sc} {E : Type} (R : resources E) `{!Resources R}.
Implicit Types (s : pst E) (p q c : pptr) (kids : pptr -> list pptr) (k : kstate) (o : own).

Abbreviation sched_inv := (Sched.sched_inv sc).
Abbreviation proc_inv := (Lifecycle.proc_inv sc R).
Abbreviation reaped := (Reaping.reaped sc R).

(** ** Going to sleep *)
Lemma lives_sleep r r' m idle c kids ws :
  lives r m idle c kids -> c <> idle ->
  (forall q, life r' q = if decide (q = c) then Some (PROC_SLEEPING, ws) else life r q) -> lives r' m idle idle kids.
Proof.
  intros [L1 L2 L3 L4 L5 L6] Hc Hl. split.
  - intros q. rewrite Hl, L1. destruct (decide (q = c)) as [->|]; [rewrite L6; split; eauto|done].
  - intros q st w. rewrite Hl. destruct (decide (q = c)); [by intros [= <- <-]|apply L2].
  - intros q w. rewrite Hl. destruct (decide (q = c)); [done|apply L3].
  - intros q w. rewrite Hl. destruct (decide (q = c)); [done|apply L4].
  - rewrite Hl, decide_False by by apply not_eq_sym. done.
  - rewrite Hl, decide_False by by apply not_eq_sym. done.
Qed.

Lemma owned_sleep r r' m l o c ws idle kids :
  owned r m l o -> lives r m idle c kids ->
  (forall q, life r' q = if decide (q = c) then Some (PROC_SLEEPING, ws) else life r q) -> owned r' m l o.
Proof.
  intros [O1 O2 O3 O4] L Hl.
  assert (Z : forall q, zombie r' q <-> zombie r q).
  { intros q. unfold zombie. rewrite Hl. destruct (decide (q = c)) as [->|]; [|done].
    rewrite (li_current _ _ _ _ _ L). naive_solver. }
  split; intros q; [apply O1|apply O2|rewrite Z; apply O3|rewrite Z; apply O4].
Qed.

(** [s'] is [s] with the running process asleep, waiting for [ws]; another runs. *)
Record slept kids s ws s' : Prop := {
  sl_inv : proc_inv kids s';
  sl_tasks : tasks s' = tasks s;
  sl_life q : lf s' q = if decide (q = current (krn s)) then Some (PROC_SLEEPING, ws) else lf s q;
  sl_list : proc_list s' = proc_list s;
  sl_idle : idleproc (krn s') = idleproc (krn s);
  sl_init : initproc s' = initproc s;
}.

Lemma wp_sleep kids s ws :
  proc_inv kids s -> current (krn s) <> idleproc (krn s) ->
  wp (sched_upd (current (krn s)) (set_state PROC_SLEEPING ws);; in_krn (schedule sc)) (fun _ s' => slept kids s ws s') s.
Proof.
  intros [Hsc F N L Hnr Hmx (o&Ho&Hown)] Hd. kstep. apply wp_krn, (wp_halt_current sc); [exact Hsc|done|].
  intros r Hr Hl. apply (wp_resched sc R kids).
  { split; cbn [krn tasks proc_list hash_list nr_process next_safe last_pid env set_krn set_sch sch current idleproc]; try done.
    - by eapply lives_sleep.
    - exists o. split; [done|]. by eapply owned_sleep. }
  intros k Hinv Hs Hi Hrun. split; cbn [krn tasks proc_list initproc set_krn]; try done.
  intros q. unfold lf. cbn. rewrite (Hs q). cbn. apply Hl.
Qed.

(** ** do_wait *)

(** The process [c] can only go on waiting. *)
Definition must_wait kids s c n : Prop :=
  (exists p, waits_for kids s c n p) /\ (forall p, waits_for kids s c n p -> ~ zombie (sch (krn s)) p).

Definition wait_post kids s n (r : option Z) s' : Prop :=
  match r with
  | Some v =>
      v = 0 /\ (exists p, waits_for kids s (current (krn s)) n p /\ zombie (sch (krn s)) p /\ reaped kids s p s') \/
      v = - E_BAD_PROC /\ (forall p, ~ waits_for kids s (current (krn s)) n p) /\ s' = s
  | None => must_wait kids s (current (krn s)) n /\ slept kids s WT_CHILD s'
  end.

Lemma wlp_wait_once kids s n code_store :
  proc_inv kids s -> has_init kids s -> current (krn s) <> idleproc (krn s) ->
  wlp (wait_once sc R n code_store) (wait_post kids s n) s.
Proof.
  intros H Hini Hd. unfold wait_once. apply wlp_bind_wp, wp_cur. apply wlp_bind_wp.
  apply (wp_find_child sc R kids); [exact H|..].
  - intros p Hw Hz. apply wlp_bind. eapply wlp_mono; [apply (wlp_reap sc R kids); [done|done|apply Hw|done]|].
    intros [] s' Hs'. apply wlp_ret. left. split; [done|]. by exists p.
  - intros p Hw Hnz. apply wp_wlp. apply wp_assoc. eapply wp_mono; [by apply wp_sleep|].
    intros [] s' Hs'. kstep. split; [|done]. split; [by exists p|done].
  - intros Hn. apply wlp_ret. by right.
Qed.

Lemma wlp_do_wait_enter kids s n code_store :
  proc_inv kids s -> has_init kids s -> current (krn s) <> idleproc (krn s) ->
  wlp (do_wait_enter sc R n code_store) (fun r s' =>
    r = Some (- E_INVAL) /\ proc_inv kids s' /\ same_table s s' \/
    exists s1, proc_inv kids s1 /\ same_table s s1 /\ wait_post kids s1 n r s') s.
Proof.
  intros H Hini Hd. pose proof H as [Hsc F N L Hnr Hmx (o&Ho&Hown)]. unfold do_wait_enter. apply wlp_bind_wp, wp_cur.
  apply wlp_bind_wp, (wp_mono _ (fun _ s1 => exists e1, s1 = set_env e1 s /\ holds e1 o)).
  { case_bool_decide; [|kstep; exists (env s); by destruct s].
    apply wp_env. eapply wp_mono; [by apply check_store_law|]. intros b e1 He1. by exists e1. }
  intros ok s1 (e1&->&He1).
  assert (H1 : proc_inv kids (set_env e1 s)).
  { pose proof (proc_inv_frame sc R kids s (krn s) e1 o H Hsc) as Hfr. destruct s. by apply Hfr. }
  assert (T1 : same_table s (set_env e1 s)) by (exists e1, (krn s); split; [by destruct s|done]).
  destruct ok; [|apply wlp_ret; by left].
  eapply wlp_mono; [by apply (wlp_wait_once kids)|]. intros r s' Hr. right. by exists (set_env e1 s).
Qed.

(** A process that has been killed while it waited exits. *)
Lemma wlp_do_wait_resume kids s n code_store :
  proc_inv kids s -> has_init kids s -> current (krn s) <> idleproc (krn s) ->
  wlp (do_wait_resume sc R n code_store) (fun r s' =>
    (current (krn s) <> initproc s /\ r = None /\ exited sc R kids s (- E_KILLED) s') \/ wait_post kids s n r s') s.
Proof.
  intros H Hini Hd. unfold do_wait_resume. apply wlp_bind_wp, wp_cur. destruct (current_task sc R _ _ H) as [t Ht].
  apply wlp_bind_wp. eapply wp_task_at; [exact Ht|]. destruct (negb (Z.land (flags t) PF_EXITING =? 0)) eqn:Ef.
  - apply wlp_bind. destruct (decide (current (krn s) = initproc s)) as [Ei|Ei].
    + unfold do_exit. apply wlp_bind_wp, wp_get. cbv zeta. apply wlp_bind, wlp_assert. intros _.
      apply wlp_bind, wlp_assert. rewrite bool_decide_false by tauto. done.
    + apply wp_wlp. eapply wp_mono; [by apply (wp_do_exit sc R kids)|]. intros [] s' Hs'. apply wlp_ret. by left.
  - eapply wlp_mono; [by apply (wlp_wait_once kids)|]. intros r s' Hr. by right.
Qed.

(** ** do_kill *)

(** [s'] is [s] with the process of number [n] marked to exit, and awake if its
    sleep can be interrupted. *)
Record killed kids s n p s' : Prop := {
  kl_pid : exists t, tasks s !! p = Some t /\ pid t = n /\ Z.land (flags t) PF_EXITING = 0;
  kl_inv : proc_inv kids s';
  kl_flag : exists t, tasks s' !! p = Some t /\ Z.land (flags t) PF_EXITING <> 0;
  kl_ident q : q <> p -> ident (tasks s') q = ident (tasks s) q;
  kl_parent q : parent <$> tasks s' !! q = parent <$> tasks s !! q;
  kl_num q : pid <$> tasks s' !! q = pid <$> tasks s !! q;
  kl_life q : q <> p -> lf s' q = lf s q;
  kl_awake st ws : lf s p = Some (st, ws) ->
    lf s' p = if Z.land ws WT_INTERRUPTED =? 0 then Some (st, ws) else Some (PROC_RUNNABLE, 0);
  kl_list : proc_list s' = proc_list s;
  kl_current : current (krn s') = current (krn s);
  kl_idle : idleproc (krn s') = idleproc (krn s);
  kl_init : initproc s' = initproc s;
}.

Lemma land_exiting f : Z.land (Z.lor f PF_EXITING) PF_EXITING <> 0.
Proof.
  intros H. apply (f_equal (fun x => Z.testbit x 0)) in H. rewrite Z.land_spec, Z.lor_spec, Z.bits_0 in H.
  change (Z.testbit PF_EXITING 0) with true in H. by rewrite orb_true_r in H.
Qed.

(** The invariant when a flag is written and a process may have been woken. *)
Lemma proc_inv_killed kids s p t r f :
  proc_inv kids s -> tasks s !! p = Some t -> sched_inv (set_sch r (krn s)) ->
  (forall q, q <> p -> life r q = lf s q) ->
  (life r p = lf s p \/ (exists ws, lf s p = Some (PROC_SLEEPING, ws)) /\ life r p = Some (PROC_RUNNABLE, 0)) ->
  proc_inv kids (set_krn (set_sch r (krn s)) (set_tasks (<[p := set_flags f t]> (tasks s)) s)).
Proof.
  unfold lf. intros [Hsc F N L Hnr Hmx (o&Ho&Hown)] Ht Hr Hl Hp.
  assert (Hdom : forall q, is_Some (<[p := set_flags f t]> (tasks s) !! q) <-> is_Some (tasks s !! q)).
  { intros q. rewrite lookup_insert_is_Some'. split; [|tauto]. intros [<-|?]; eauto. }
  assert (Hall : forall q, life r q = life (sch (krn s)) q \/ (exists ws, life (sch (krn s)) q = Some (PROC_SLEEPING, ws)) /\ life r q = Some (PROC_RUNNABLE, 0)).
  { intros q. destruct (decide (q = p)) as [->|]; [done|]. left. by apply Hl. }
  split; cbn [krn tasks proc_list hash_list nr_process next_safe last_pid env set_krn set_tasks set_sch sch current idleproc]; try done.
  - destruct F as [F1 F2 F3 F4 F5 F6]. split; [by eapply tree_update| |done| |done|done].
    + intros q. by rewrite Hdom.
    + intros q u Hq. rewrite lookup_insert. destruct (decide (p = q)) as [<-|]; [intros [= <-]; by apply (F4 p t)|by apply F4].
  - eapply numbers_ext; [exact N|]. intros q _. rewrite lookup_insert. destruct (decide (p = q)) as [<-|]; [by rewrite Ht|done].
  - destruct L as [L1 L2 L3 L4 L5 L6].
    split.
    + intros q. rewrite Hdom, L1. destruct (Hall q) as [->|[[ws ->] ->]]; [done|]. split; eauto.
    + intros q st ws Hq. destruct (Hall q) as [E0|[_ E0]]; rewrite E0 in Hq; [by eapply L2|by injection Hq as <- <-].
    + intros q ws Hq. destruct (Hall q) as [E0|[_ E0]]; rewrite E0 in Hq; [by eapply L3|done].
    + intros q ws Hq. destruct (Hall q) as [E0|[_ E0]]; rewrite E0 in Hq; [by eapply L4|done].
    + by destruct (Hall (idleproc (krn s))) as [->|[_ ?]].
    + by destruct (Hall (current (krn s))) as [->|[_ ?]].
  - exists o. split; [done|]. destruct Hown as [O1 O2 O3 O4].
    assert (Z : forall q, zombie r q <-> zombie (sch (krn s)) q).
    { intros q. unfold zombie. destruct (Hall q) as [->|[[ws ->] ->]]; [done|]. naive_solver. }
    split; intros q; [rewrite Hdom; apply O1|apply O2|rewrite Z; apply O3|rewrite Z; apply O4].
Qed.

Lemma wp_do_kill kids s n :
  proc_inv kids s ->
  wp (do_kill sc n) (fun r s' =>
    r = - E_INVAL /\ s' = s /\ (forall p t, p ∈ proc_list s -> tasks s !! p = Some t -> pid t <> n) \/
    r = - E_KILLED /\ s' = s /\ (exists p t, p ∈ proc_list s /\ tasks s !! p = Some t /\ pid t = n /\ Z.land (flags t) PF_EXITING <> 0) \/
    r = 0 /\ exists p, p ∈ proc_list s /\ killed kids s n p s') s.
Proof.
  intros H. pose proof H as [Hsc F N L Hnr Hmx _]. unfold do_kill. kstep. eapply wp_find_proc; [exact H|]. intros [p|] Ho.
  2:{ kstep. by left. }
  destruct Ho as (Hp&t&Ht&En). kstep. eapply wp_task_at; [exact Ht|]. destruct (Z.eqb_spec (Z.land (flags t) PF_EXITING) 0) as [Ef|Ef].
  2:{ kstep. right. left. split_and!; [done|done|]. by exists p, t. }
  kstep. eapply wp_task_upd; [exact Ht|]. set (t' := set_flags _ t). set (m' := <[p := t']> (tasks s)).
  destruct (proj1 (li_dom _ _ _ _ _ L p)) as [[st ws] Hl]; [eauto|].
  kstep. eapply (wp_sched_at _ p st ws); [exact Hl|]. intros x Ex Ew. rewrite Ew. kstep.
  assert (Hend : forall r, sched_inv (set_sch r (krn s)) -> (forall q, q <> p -> life r q = lf s q) ->
    life r p = (if Z.land ws WT_INTERRUPTED =? 0 then Some (st, ws) else Some (PROC_RUNNABLE, 0)) ->
    (Z.land ws WT_INTERRUPTED <> 0 -> st = PROC_SLEEPING) ->
    killed kids s n p (set_krn (set_sch r (krn s)) (set_tasks m' s))).
  { intros r Hr Hlr Hlp Hst. split; cbn [krn tasks proc_list initproc set_krn set_tasks set_sch current idleproc]; try done.
    - by exists t.
    - apply proc_inv_killed; [done|done|done|done|]. rewrite Hlp. destruct (Z.eqb_spec (Z.land ws WT_INTERRUPTED) 0); [by left|right].
      split; [|done]. exists ws. unfold lf. by rewrite <-Hst.
    - exists t'. split; [apply lookup_insert_eq|apply land_exiting].
    - intros q Hq. unfold m'. by rewrite ident_insert, decide_False.
    - intros q. unfold m'. rewrite lookup_insert. destruct (decide (p = q)) as [<-|]; [by rewrite Ht|done].
    - intros q. unfold m'. rewrite lookup_insert. destruct (decide (p = q)) as [<-|]; [by rewrite Ht|done].
    - intros st' ws' Hl'. unfold lf in *. rewrite Hl in Hl'. injection Hl' as <- <-. exact Hlp. }
  apply wp_when; intros Eb.
  - apply negb_true_iff in Eb. pose proof Eb as Eb'%Z.eqb_neq.
    assert (Hst : st = PROC_SLEEPING).
    { eapply (li_asleep _ _ _ _ _ L); [exact Hl|]. intros ->. by apply Eb'. }
    eapply (wp_wake sc); [exact Hsc|exact Hl|by rewrite Hst|]. intros r Hr Hlr. rewrite Hst, decide_False in Hlr by done.
    kstep. right. right. split; [done|]. exists p. split; [done|]. apply Hend; [exact Hr| | |done].
    + intros q Hq. by rewrite Hlr, decide_False.
    + by rewrite Hlr, decide_True, Eb.
  - apply negb_false_iff in Eb. kstep. right. right. split; [done|]. exists p. split; [done|].
    pose proof (Hend (sch (krn s))) as He. replace (set_krn (set_sch (sch (krn s)) (krn s)) (set_tasks m' s)) with (set_tasks m' s) in He by by destruct s as [[]].
    apply He; [by destruct s as [[]]|done| |].
    + rewrite Eb. exact Hl.
    + by apply Z.eqb_eq in Eb.
Qed.
End proofs.

(** A round of [do_wait] takes a zombie among the children asked for out of
    the table and gives back all it held, or puts the caller to sleep exactly
    when there is such a child but none that has ended, or fails exactly when
    there is none. *)
Theorem do_wait_spec sc `{!SchedPolicy sc} {E : Type} (R : resources E) `{!Resources R} kids s n code_store :
  proc_inv sc R kids s -> has_init kids s -> current (krn s) <> idleproc (krn s) ->
  wlp (wait_once sc R n code_store) (wait_post sc R kids s n) s.
Proof. apply wlp_wait_once. Qed.

(** [do_kill] marks the process with the number it is given, wakes it
    exactly if its sleep can be interrupted, and changes nothing else; the
    errors are those of a number nobody has and of a process already marked. *)
Theorem do_kill_spec sc `{!SchedPolicy sc} {E : Type} (R : resources E) `{!Resources R} kids s n :
  proc_inv sc R kids s ->
  wp (do_kill sc n) (fun r s' =>
    r = - E_INVAL /\ s' = s /\ (forall p t, p ∈ proc_list s -> tasks s !! p = Some t -> pid t <> n) \/
    r = - E_KILLED /\ s' = s /\ (exists p t, p ∈ proc_list s /\ tasks s !! p = Some t /\ pid t = n /\ Z.land (flags t) PF_EXITING <> 0) \/
    r = 0 /\ exists p, p ∈ proc_list s /\ killed sc R kids s n p s') s.
Proof. apply wp_do_kill. Qed.
