(* ===== verification/ProcSystem.v ===== *)
(** The system calls of [Process], interleaved.  The kernel runs one process at a
    time and changes over at [schedule] only, so a run is a sequence of system
    calls, each of the process that is running at that time; a [do_wait] that
    sleeps is resumed when its process runs again.  From [proc_init] on the
    process table stays well formed, and a process asleep in [do_wait] waits for
    a child that has not ended yet: no wakeup is lost. *)
From stdpp Require Import functions relations.
From S2P Require Import Prelude Printfmt SkewHeap Sched RoundRobin Process ProcTree Lifecycle Reaping Waiting.
#[local] Abbreviation length := Datatypes.length.

Section system.
Context (sc : sched_class) `{!SchedPolicy sc} {E : Type} (R : resources E) `{!Resources R}.
Implicit Types (s : pst E) (p q c : pptr) (kids : pptr -> list pptr) (k : kstate) (o : own).

Abbreviation proc_inv := (Lifecycle.proc_inv sc R).

(** ** Steps *)

(** [calls] records the arguments of the [do_wait] a process is in. *)
Record sys := mk_sys { kernel : pst E; calls : gmap pptr (Z * Z) }.

Definition running s : pptr := current (krn s).

(** After a round of [do_wait] by [c] the call goes on exactly if [c] sleeps. *)
Definition note_call s c (n a : Z) (w : gmap pptr (Z * Z)) : gmap pptr (Z * Z) :=
  if decide (lf s c = Some (PROC_SLEEPING, WT_CHILD)) then <[c := (n, a)]> w else delete c w.

Inductive step : sys -> sys -> Prop :=
  | step_fork s w fl stack tf r s' : w !! running s = None ->
      do_fork sc R fl stack tf s = Done (r, s') -> step (mk_sys s w) (mk_sys s' w)
  | step_exit s w code s' : w !! running s = None ->
      do_exit sc R code s = Done ((), s') -> step (mk_sys s w) (mk_sys s' w)
  | step_wait s w n a r s' : w !! running s = None -> running s <> idleproc (krn s) ->
      do_wait_enter sc R n a s = Done (r, s') -> step (mk_sys s w) (mk_sys s' (note_call s' (running s) n a w))
  | step_resume s w n a r s' : w !! running s = Some (n, a) ->
      do_wait_resume sc R n a s = Done (r, s') -> step (mk_sys s w) (mk_sys s' (note_call s' (running s) n a w))
  | step_kill s w n r s' : do_kill sc n s = Done (r, s') -> step (mk_sys s w) (mk_sys s' w)
  | step_sleep s w ws s' : w !! running s = None -> running s <> idleproc (krn s) -> ws <> 0 -> ws <> WT_CHILD ->
      (sched_upd (running s) (set_state PROC_SLEEPING ws);; in_krn (schedule sc)) s = Done ((), s') ->
      step (mk_sys s w) (mk_sys s' w)
  | step_wakeup s w p ws s' : lf s p = Some (PROC_SLEEPING, ws) -> ws <> WT_CHILD ->
      in_krn (wakeup_proc sc p) s = Done ((), s') -> step (mk_sys s w) (mk_sys s' w)
  | step_schedule s w s' : in_krn (schedule sc) s = Done ((), s') -> step (mk_sys s w) (mk_sys s' w).

(** ** The invariant *)

Record sys_inv kids (x : sys) : Prop := {
  sy_proc : proc_inv kids (kernel x);
  sy_init : has_init kids (kernel x);
  sy_call p n a : calls x !! p = Some (n, a) ->
    p <> idleproc (krn (kernel x)) /\ (waiting (sch (krn (kernel x))) p \/ lf (kernel x) p = Some (PROC_RUNNABLE, 0));
  sy_blocked p : waiting (sch (krn (kernel x))) p -> exists n a, calls x !! p = Some (n, a) /\ must_wait kids (kernel x) p n;
}.

Lemma wlp_Done {A} (m : K (pst E) A) Q s r s' : wlp m Q s -> m s = Done (r, s') -> Q r s'.
Proof. unfold wlp. intros H E0. by rewrite E0 in H. Qed.
Lemma wp_Done_at {A} (m : K (pst E) A) Q s r s' : wp m Q s -> m s = Done (r, s') -> Q r s'.
Proof. unfold wp. intros H E0. by rewrite E0 in H. Qed.

(** What keeps a process waiting: its children stay, and none of them ends. *)
Lemma must_wait_keep kids kids' s s' p n :
  must_wait kids s p n -> (forall q, q ∈ kids p -> q ∈ kids' p) ->
  (forall q, q ∈ kids' p -> q ∉ kids p -> ~ zombie (sch (krn s')) q) ->
  (forall q, q ∈ kids p -> pid <$> tasks s' !! q = pid <$> tasks s !! q) ->
  (forall q, q ∈ kids p -> zombie (sch (krn s')) q -> zombie (sch (krn s)) q) -> must_wait kids' s' p n.
Proof.
  intros [(q&Hq&Hn) Hz] Hsub Hnew Hp Hzz. split.
  - exists q. split; [by apply Hsub|]. destruct Hn as [?|(t&Ht&<-)]; [by left|right]. specialize (Hp q Hq). rewrite Ht in Hp.
    destruct (tasks s' !! q) as [t'|]; [|done]. exists t'. split; [done|]. by injection Hp.
  - intros x [Hx Hxn] Hxz. destruct (decide (x ∈ kids p)) as [Hin|Hin]; [|by apply (Hnew x)].
    apply (Hz x); [|by apply Hzz]. split; [done|]. destruct Hxn as [?|(t'&Ht'&<-)]; [by left|right].
    specialize (Hp x Hin). rewrite Ht' in Hp. destruct (tasks s !! x) as [t|]; [|done]. exists t. split; [done|]. by injection Hp.
Qed.

Lemma not_waiting_current kids s : proc_inv kids s -> ~ waiting (sch (krn s)) (running s).
Proof. intros H. unfold waiting, running. rewrite (li_current _ _ _ _ _ (pi_lives _ _ _ _ _ H)). done. Qed.

Lemma has_init_keep kids kids' s s' :
  has_init kids s -> (forall q, q ∈ kids (idleproc (krn s)) -> q = initproc s -> q ∈ kids' (idleproc (krn s))) ->
  idleproc (krn s') = idleproc (krn s) -> initproc s' = initproc s ->
  (zombie (sch (krn s')) (initproc s) -> zombie (sch (krn s)) (initproc s)) -> has_init kids' s'.
Proof. intros [H1 H2] Hk Ei En Hz. split; rewrite ?Ei, ?En; [by apply Hk|]. intros Hx. by apply H2, Hz. Qed.

(** A step that changes no life to waiting and leaves children, numbers and
    zombies of waiting processes alone keeps what [sys_inv] says of waiting. *)
Lemma sys_inv_keep kids kids' s s' w :
  sys_inv kids (mk_sys s w) -> proc_inv kids' s' -> has_init kids' s' -> idleproc (krn s') = idleproc (krn s) ->
  (forall p n a, w !! p = Some (n, a) -> lf s' p = lf s p \/ lf s' p = Some (PROC_RUNNABLE, 0)) ->
  (forall p, waiting (sch (krn s')) p -> waiting (sch (krn s)) p /\
     forall n, must_wait kids s p n -> must_wait kids' s' p n) ->
  sys_inv kids' (mk_sys s' w).
Proof.
  intros [H1 H2 H3 H4] Hp Hi Ed Hc Hw. split; cbn [kernel calls] in *; [done|done| |].
  - intros p n a Hpn. destruct (H3 p n a Hpn) as [Hd Hl]. split; [by rewrite Ed|].
    unfold waiting, lf in *. destruct (Hc p n a Hpn) as [-> | ->]; [done|by right].
  - intros p Hx. destruct (Hw p Hx) as [Hx' Hm]. destruct (H4 p Hx') as (n&a&?&?). exists n, a. split; [done|by apply Hm].
Qed.

Lemma keep_same kids s s' w :
  sys_inv kids (mk_sys s w) -> proc_inv kids s' -> same_table s s' -> sys_inv kids (mk_sys s' w).
Proof.
  intros HI H' (e & k & -> & [L C I]). pose proof HI as [H Hini Hcall Hblk]. cbn [kernel calls] in *.
  apply (sys_inv_keep kids kids s _ w HI H').
  - apply (has_init_keep kids kids s); cbn; [done|done|done|done|]. intros [ws Hz]. exists ws. by rewrite <-L.
  - done.
  - intros q n a _. left. apply L.
  - intros q. unfold waiting. cbn. rewrite L. intros Hq. split; [done|]. intros n Hm.
    apply (must_wait_keep kids kids s); [done|done|done|done|]. intros x _ [ws Hz]. exists ws. cbn in Hz. by rewrite <-L.
Qed.

(** The call of a process that does not sleep in it is over. *)
Lemma sys_inv_return kids s w c :
  sys_inv kids (mk_sys s w) -> ~ waiting (sch (krn s)) c -> sys_inv kids (mk_sys s (delete c w)).
Proof.
  intros [H1 H2 H3 H4] Hc. split; cbn [kernel calls] in *; [done|done| |].
  - intros p n a [_ Hp]%lookup_delete_Some. by apply (H3 p n a).
  - intros p Hp. destruct (H4 p Hp) as (n&a&?&?). exists n, a. split; [|done]. rewrite lookup_delete_ne; [done|]. by intros ->.
Qed.

Lemma keep_fork kids s w fl stack tf r s' :
  sys_inv kids (mk_sys s w) -> w !! running s = None -> do_fork sc R fl stack tf s = Done (r, s') ->
  exists kids', sys_inv kids' (mk_sys s' w).
Proof.
  intros HI Hw Hrun. pose proof HI as [H Hini Hcall Hblk]. cbn [kernel calls] in *.
  destruct (wlp_Done _ _ _ _ _ (wlp_do_fork sc R kids s fl stack tf H) Hrun) as [(_&H'&Hs)|[p F]].
  - exists kids. by apply (keep_same kids s).
  - pose proof (pi_family _ _ _ _ _ H) as Fam.
    assert (Hold : forall q, is_Some (life (sch (krn s)) q) -> q <> p).
    { intros q Hq ->. rewrite <-(li_dom _ _ _ _ _ (pi_lives _ _ _ _ _ H)), (fk_fresh _ _ _ _ _ _ _ F) in Hq. by destruct Hq. }
    assert (Hkid : forall q x, x ∈ kids q -> x <> p).
    { intros q x Hx. apply Hold, (li_dom _ _ _ _ _ (pi_lives _ _ _ _ _ H)). by destruct (tree_kid_alloc _ _ _ _ _ (fa_tree _ _ _ _ Fam) Hx). }
    assert (Hlf : forall q, q <> p -> lf s' q = lf s q) by (intros q Hq; by rewrite (fk_life _ _ _ _ _ _ _ F), decide_False).
    eexists. apply (sys_inv_keep kids _ s s' w HI (fk_inv _ _ _ _ _ _ _ F)).
    + apply (has_init_keep kids _ s); [done| |apply F|apply F|].
      * intros q Hq _. destruct (decide (current (krn s) = idleproc (krn s))) as [->|]; [rewrite fn_lookup_insert; by apply elem_of_cons; right|].
        by rewrite fn_lookup_insert_ne.
      * intros [ws Hz]. exists ws. change (lf s' (initproc s) = Some (PROC_ZOMBIE, ws)) in Hz. rewrite Hlf in Hz; [done|].
        by apply (Hkid (idleproc (krn s))), Hini.
    + apply F.
    + intros q n a Hq. left. apply Hlf, Hold. destruct (Hcall q n a Hq) as [_ [Hl|Hl]]; unfold waiting, lf in Hl; rewrite Hl; eauto.
    + intros q Hq. unfold waiting in *. change (lf s' q = Some (PROC_SLEEPING, WT_CHILD)) in Hq.
      assert (Hqp : q <> p) by (intros ->; by rewrite (fk_life _ _ _ _ _ _ _ F), decide_True in Hq).
      rewrite Hlf in Hq by done. split; [done|]. intros n Hm.
      assert (Hqc : current (krn s) <> q) by (intros <-; by apply (not_waiting_current _ _ H)).
      apply (must_wait_keep kids _ s); [done|by rewrite fn_lookup_insert_ne|by rewrite fn_lookup_insert_ne| |].
      * intros x Hx. destruct (fk_ident _ _ _ _ _ _ _ F x) as [code Hid]. rewrite !ident_pid, Hid, decide_False; [done|]. by eapply Hkid.
      * intros x Hx [ws Hz]. exists ws. change (lf s' x = Some (PROC_ZOMBIE, ws)) in Hz. rewrite Hlf in Hz; [done|by eapply Hkid].
Qed.

Lemma keep_exit kids s w code s' :
  sys_inv kids (mk_sys s w) -> w !! running s = None -> running s <> idleproc (krn s) -> running s <> initproc s ->
  exited sc R kids s code s' -> sys_inv (handed kids (running s) (initproc s)) (mk_sys s' w).
Proof.
  intros HI Hw Hd Hni X. pose proof HI as [H Hini Hcall Hblk]. cbn [kernel calls] in *.
  pose proof (pi_family _ _ _ _ _ H) as Fam. set (c := running s) in *. set (init := initproc s) in *.
  assert (Hnw : forall q, waiting (sch (krn s')) q -> q <> c /\ waiting (sch (krn s)) q).
  { unfold waiting. intros q Hq. assert (Hqc : q <> c).
    { intros ->. pose proof (ex_zombie _ _ _ _ _ _ X) as Hz. unfold lf in Hz. unfold c, running in Hq. congruence. }
    split; [done|]. destruct (ex_life _ _ _ _ _ _ X q Hqc) as [E0|[? _]]; [|done]. unfold lf in E0. congruence. }
  assert (Hzz : forall q, q <> c -> zombie (sch (krn s')) q -> zombie (sch (krn s)) q).
  { intros q Hqc [ws Hz]. destruct (ex_life _ _ _ _ _ _ X q Hqc) as [E0|[_ E0]]; unfold lf in E0; [|congruence].
    exists ws. congruence. }
  apply (sys_inv_keep kids _ s s' w HI (ex_inv _ _ _ _ _ _ X)).
  - apply (has_init_handed sc R kids s code s'); [done|apply (fa_noself _ _ _ _ Fam)|done|done|done].
  - apply X.
  - intros q n a Hq. destruct (ex_life _ _ _ _ _ _ X q) as [E0|[_ E0]]; [intros ->; change (w !! c = Some (n, a)) in Hq; congruence|by left|by right].
  - intros q Hq. destruct (Hnw q Hq) as [Hqc Hqw]. split; [done|]. intros n Hm.
    assert (Hcq : c ∉ kids q) by (intros Hx; by apply (ex_parent _ _ _ _ _ _ X q Hx)).
    apply (must_wait_keep kids _ s); [done| | | |].
    + intros x Hx. unfold handed. fold (running s). fold c init. destruct (decide (q = init)) as [->|]; [apply elem_of_app; by right|].
      by rewrite decide_False.
    + intros x Hx Hnx. unfold handed in Hx. fold (running s) in Hx. fold c init in Hx. destruct (decide (q = init)) as [->|].
      * rewrite elem_of_app, list_elem_of_In, <-in_rev, <-list_elem_of_In in Hx. destruct Hx as [Hx|?]; [|done].
        intros Hxz. apply (ex_orphans _ _ _ _ _ _ X); [|exact Hq]. exists x. split; [done|]. apply Hzz; [|done].
        intros ->. by apply (fa_noself _ _ _ _ Fam c).
      * by rewrite decide_False in Hx by done.
    + intros x _. apply X.
    + intros x Hx. apply Hzz. by intros ->.
Qed.

Lemma keep_reap kids s w p s' :
  sys_inv kids (mk_sys s w) -> reaped sc R kids s p s' -> p ∈ kids (running s) -> zombie (sch (krn s)) p ->
  exists kids', sys_inv kids' (mk_sys s' w).
Proof.
  intros HI P Hp [wz Hpz]. pose proof HI as [H Hini Hcall Hblk]. cbn [kernel calls] in *.
  pose proof (pi_family _ _ _ _ _ H) as Fam. destruct (rp_inv _ _ _ _ _ _ P) as (l1&l2&Ek&Hinv).
  set (c := current (krn s)) in *.
  assert (Hlf : forall q, q <> p -> lf s' q = lf s q) by apply P.
  assert (Hgone : lf s' p = None).
  { apply (no_task sc R _ _ _ Hinv). apply P. }
  assert (Hpi : initproc s <> p) by (intros Ei; apply Hini; exists wz; by rewrite Ei).
  exists (<[c := l1 ++ l2]> kids). apply (sys_inv_keep kids _ s s' w HI Hinv).
  - apply (has_init_keep kids _ s); [done| |apply P|apply P|].
    + intros q Hq ->. destruct (decide (c = idleproc (krn s))) as [Ec|]; [|by rewrite fn_lookup_insert_ne].
      rewrite <-Ec, fn_lookup_insert. rewrite <-Ec, Ek in Hq. set_solver +Hq Hpi.
    + intros [ws Hz]. exists ws. change (lf s' (initproc s) = Some (PROC_ZOMBIE, ws)) in Hz. by rewrite Hlf in Hz.
  - apply P.
  - intros q n a Hq. left. apply Hlf. intros ->. destruct (Hcall p n a Hq) as [_ [Hl|Hl]]; unfold waiting, lf in Hl; congruence.
  - intros q Hq. unfold waiting in *. change (lf s' q = Some (PROC_SLEEPING, WT_CHILD)) in Hq.
    assert (Hqp : q <> p) by (intros ->; congruence). rewrite Hlf in Hq by done. split; [done|]. intros n Hm.
    assert (Hqc : c <> q) by (intros <-; by apply (not_waiting_current _ _ H)).
    assert (Hx : forall x, x ∈ kids q -> x <> p).
    { intros x Hx ->. apply Hqc. exact (tree_kid_unique _ _ _ _ _ _ (fa_tree _ _ _ _ Fam) Hp Hx). }
    apply (must_wait_keep kids _ s); [done|by rewrite fn_lookup_insert_ne|by rewrite fn_lookup_insert_ne| |].
    + intros x Hxq. rewrite !ident_pid, (rp_ident _ _ _ _ _ _ P) by by apply Hx. done.
    + intros x Hxq [ws Hz]. exists ws. change (lf s' x = Some (PROC_ZOMBIE, ws)) in Hz. rewrite Hlf in Hz; [done|by apply Hx].
Qed.

(** A process goes to sleep; if it is in [do_wait] it must. *)
Lemma keep_sleep kids s w ws s' w' :
  sys_inv kids (mk_sys s w) -> running s <> idleproc (krn s) -> slept sc R kids s ws s' ->
  (forall q, q <> running s -> w' !! q = w !! q) ->
  (ws = WT_CHILD -> exists n a, w' !! running s = Some (n, a) /\ must_wait kids s (running s) n) ->
  (ws <> WT_CHILD -> w' !! running s = None) ->
  sys_inv kids (mk_sys s' w').
Proof.
  intros [H Hini Hcall Hblk] Hd P Hw Hyes Hno. cbn [kernel calls] in *. set (c := running s) in *.
  assert (Hlf : forall q, q <> c -> lf s' q = lf s q) by (intros q Hq; by rewrite (sl_life _ _ _ _ _ _ P), decide_False).
  assert (Hc : lf s' c = Some (PROC_SLEEPING, ws)) by by rewrite (sl_life _ _ _ _ _ _ P), decide_True.
  assert (Hz : forall q, zombie (sch (krn s')) q -> zombie (sch (krn s)) q).
  { intros q [w0 Hq]. exists w0. change (lf s' q = Some (PROC_ZOMBIE, w0)) in Hq.
    destruct (decide (q = c)) as [->|]; [congruence|by rewrite Hlf in Hq]. }
  assert (Hkeep : forall q n, must_wait kids s q n -> must_wait kids s' q n).
  { intros q n Hm. apply (must_wait_keep kids kids s); [done|done|done| |by intros x _; apply Hz].
    intros x _. by rewrite (sl_tasks _ _ _ _ _ _ P). }
  split; cbn [kernel calls].
  - apply P.
  - eapply (has_init_keep kids kids s); [done|done|apply P|apply P|apply Hz].
  - intros q n a Hq. rewrite (sl_idle _ _ _ _ _ _ P). destruct (decide (q = c)) as [->|Hne].
    + split; [done|]. left. unfold waiting. destruct (decide (ws = WT_CHILD)) as [<-|Hn]; [exact Hc|]. rewrite (Hno Hn) in Hq. done.
    + rewrite Hw in Hq by done. destruct (Hcall q n a Hq) as [Hqd Hl]. split; [done|].
      unfold waiting. change (life (sch (krn s')) q) with (lf s' q). by rewrite Hlf.
  - intros q Hq. unfold waiting in Hq. change (lf s' q = Some (PROC_SLEEPING, WT_CHILD)) in Hq.
    destruct (decide (q = c)) as [->|Hne].
    + rewrite Hc in Hq. injection Hq as Ews. destruct (Hyes Ews) as (n&a&?&?). exists n, a. split; [done|by apply Hkeep].
    + rewrite Hlf in Hq by done. destruct (Hblk q Hq) as (n&a&?&?). exists n, a. rewrite Hw by done. split; [done|by apply Hkeep].
Qed.

(** One round of [do_wait]. *)
Lemma keep_wait kids s w n a r s' :
  sys_inv kids (mk_sys s w) -> running s <> idleproc (krn s) -> wait_post sc R kids s n r s' ->
  exists kids', sys_inv kids' (mk_sys s' (note_call s' (running s) n a w)).
Proof.
  intros HI Hd P. pose proof (sy_proc _ _ HI) as H. cbn [kernel] in H.
  pose proof (sys_inv_return _ _ _ _ HI (not_waiting_current _ _ H)) as HI'.
  assert (Hnote : lf s' (running s) = Some (PROC_RUNNABLE, 0) -> note_call s' (running s) n a w = delete (running s) w).
  { unfold note_call. intros ->. by rewrite decide_False. }
  pose proof (li_current _ _ _ _ _ (pi_lives _ _ _ _ _ H)) as Hcur.
  destruct r as [v|]; [destruct P as [(_&p&[Hp _]&Hz&P)|(_&_&->)]|destruct P as [Hm P]].
  - rewrite Hnote; [by eapply keep_reap|]. rewrite (rp_life _ _ _ _ _ _ P); [exact Hcur|].
    intros <-. destruct Hz as [ws Hz]. unfold running in Hz. congruence.
  - exists kids. by rewrite Hnote.
  - exists kids. unfold note_call. rewrite decide_True by by rewrite (sl_life _ _ _ _ _ _ P), decide_True.
    eapply (keep_sleep kids s (delete (running s) w)); [exact HI'|exact Hd|exact P| | |done].
    + intros q Hq. by rewrite lookup_insert_ne, lookup_delete_ne.
    + intros _. exists n, a. split; [apply lookup_insert_eq|exact Hm].
Qed.

Lemma keep_kill kids s w n p s' :
  sys_inv kids (mk_sys s w) -> p ∈ proc_list s -> killed sc R kids s n p s' -> sys_inv kids (mk_sys s' w).
Proof.
  intros HI Hp P. pose proof HI as [H Hini Hcall Hblk]. cbn [kernel calls] in *.
  assert (Hl : forall q, lf s' q = lf s q \/ (exists ws, lf s q = Some (PROC_SLEEPING, ws)) /\ lf s' q = Some (PROC_RUNNABLE, 0)).
  { intros q. destruct (decide (q = p)) as [->|Hq]; [|left; by apply P].
    pose proof (pi_lives _ _ _ _ _ H) as L. apply (listed sc R _ _ _ H) in Hp as [Hp _].
    apply (li_dom _ _ _ _ _ L) in Hp as [[st ws] Hl]. rewrite (kl_awake _ _ _ _ _ _ _ P st ws Hl).
    destruct (Z.eqb_spec (Z.land ws WT_INTERRUPTED) 0); [by left|right]. split; [|done]. exists ws. unfold lf. rewrite Hl.
    rewrite (li_asleep _ _ _ _ _ L _ _ _ Hl); [done|]. intros ->. done. }
  assert (Hz : forall q, zombie (sch (krn s')) q -> zombie (sch (krn s)) q).
  { intros q [ws Hq]. exists ws. change (lf s' q = Some (PROC_ZOMBIE, ws)) in Hq. destruct (Hl q) as [E0|[_ E0]]; unfold lf in *; congruence. }
  apply (sys_inv_keep kids kids s s' w HI); [apply P| |apply P| |].
  - apply (has_init_keep kids kids s); [done|done|apply P|apply P|apply Hz].
  - intros q m a _. destruct (Hl q) as [?|[_ ?]]; [by left|by right].
  - intros q Hq. unfold waiting in *. change (lf s' q = Some (PROC_SLEEPING, WT_CHILD)) in Hq.
    destruct (Hl q) as [E0|[_ E0]]; [|congruence]. split; [unfold lf in *; congruence|]. intros m Hm.
    apply (must_wait_keep kids kids s); [done|done|done| |by intros x _; apply Hz]. intros x _. apply P.
Qed.

Lemma keep_wakeup kids s w p ws s' :
  sys_inv kids (mk_sys s w) -> lf s p = Some (PROC_SLEEPING, ws) ->
  in_krn (wakeup_proc sc p) s = Done ((), s') -> sys_inv kids (mk_sys s' w).
Proof.
  intros HI Hp Hrun. pose proof HI as [H Hini Hcall Hblk]. cbn [kernel calls] in *.
  pose proof (pi_sched _ _ _ _ _ H) as Hsc. destruct (pi_owns _ _ _ _ _ H) as (o&Ho&Hown).
  pose proof (pi_lives _ _ _ _ _ H) as L. destruct (proj2 (li_dom _ _ _ _ _ L p)) as [t Ht]; [unfold lf in Hp; rewrite Hp; eauto|].
  assert (W : wp (in_krn (wakeup_proc sc p)) (fun _ s' => exists r, s' = set_krn (set_sch r (krn s)) s /\ Sched.sched_inv sc (set_sch r (krn s)) /\
    forall q, life r q = if decide (q = p) then Some (PROC_RUNNABLE, 0) else lf s q) s).
  { eapply (wp_wake sc); [exact Hsc|exact Hp|done|]. intros r Hr Hl. rewrite decide_False in Hl by done. by exists r. }
  destruct (wp_Done_at _ _ _ _ _ W Hrun) as (r & -> & Hr & Hl).
  assert (Hl' : forall q, q <> p -> life r q = lf s q) by (intros q Hq; by rewrite Hl, decide_False).
  assert (Hinv : proc_inv kids (set_krn (set_sch r (krn s)) s)).
  { pose proof (proc_inv_killed sc R kids s p t r (flags t) H Ht Hr Hl') as Hk.
    replace (<[p := set_flags (flags t) t]> (tasks s)) with (tasks s) in Hk.
    - destruct s as [[]]. apply Hk. right. split; [by exists ws|]. by rewrite Hl, decide_True.
    - symmetry. apply insert_id. rewrite Ht. by destruct t. }
  assert (Hz : forall q, zombie r q -> zombie (sch (krn s)) q).
  { intros q [w0 Hq]. exists w0. destruct (decide (q = p)) as [->|Hne]; [by rewrite Hl, decide_True in Hq|]. by rewrite Hl' in Hq. }
  apply (sys_inv_keep kids kids s _ w HI Hinv).
  - apply (has_init_keep kids kids s); [done|done|done|done|apply Hz].
  - done.
  - intros q n a _. unfold lf at 1 3. cbn. destruct (decide (q = p)) as [->|Hne]; [right; by rewrite Hl, decide_True|left; by apply Hl'].
  - intros q. unfold waiting. cbn. destruct (decide (q = p)) as [->|Hne]; [by rewrite Hl, decide_True|]. rewrite Hl' by done.
    intros Hq. split; [done|]. intros n Hm. apply (must_wait_keep kids kids s); [done|done|done|done|by intros x _; apply Hz].
Qed.

Lemma keep_schedule kids s w s' :
  sys_inv kids (mk_sys s w) -> in_krn (schedule sc) s = Done ((), s') -> sys_inv kids (mk_sys s' w).
Proof.
  intros HI Hrun. pose proof HI as [H _ _ _]. cbn [kernel] in H.
  assert (W : wp (in_krn (schedule sc)) (fun _ s' => proc_inv kids s' /\ exists k, s' = set_krn k s /\ same_life (sch (krn s)) (sch k) /\
    idleproc k = idleproc (krn s)) s).
  { apply (wp_resched sc R kids).
    - pose proof H as [? ? ? L ? ? ?]. split; try done. eapply lives_at; [exact L|apply L].
    - intros k Hk L I _. split; [done|]. by exists k. }
  destruct (wp_Done_at _ _ _ _ _ W Hrun) as (Hinv & k & -> & L & I).
  destruct HI as [_ [Hi1 Hi2] Hcall Hblk]. cbn [kernel calls] in *.
  assert (Hz : forall q, zombie (sch k) q -> zombie (sch (krn s)) q) by (intros q [ws Hq]; exists ws; by rewrite <-L).
  split; cbn [kernel calls].
  - done.
  - split; [cbn; by rewrite I|]. intros Hx. by apply Hi2, Hz.
  - intros q n a Hq. cbn. rewrite I. destruct (Hcall q n a Hq) as [? Hl]. split; [done|]. unfold waiting, lf in *. cbn. by rewrite L.
  - intros q Hq. unfold waiting in *. cbn in Hq. rewrite L in Hq. destruct (Hblk q Hq) as (n&a&?&Hm). exists n, a. split; [done|].
    apply (must_wait_keep kids kids s); [done|done|done|done|by intros x _; apply Hz].
Qed.

(** [do_exit] only returns to the scheduler for a process that may end. *)
Lemma exit_guard s code r s' : do_exit sc R code s = Done (r, s') -> running s <> idleproc (krn s) /\ running s <> initproc s.
Proof.
  unfold do_exit. intros (s0&?&[= <- <-]&H)%bind_Done. cbv zeta in H. unfold running.
  apply bind_Done in H as ([]&s1&H1&H). unfold assert in H1. destruct (bool_decide (current (krn s) <> idleproc _)) eqn:E1; [|done].
  injection H1 as <-. apply bind_Done in H as ([]&s1&H1&_). unfold assert in H1.
  destruct (bool_decide (current (krn s) <> initproc s)) eqn:E2; [|done].
  split; [by apply bool_decide_eq_true in E1|by apply bool_decide_eq_true in E2].
Qed.

Lemma sys_inv_step kids x y : sys_inv kids x -> step x y -> exists kids', sys_inv kids' y.
Proof.
  intros HI St. destruct St as [s w fl stack tf r s' Hw Hr|s w code s' Hw Hr|s w n a r s' Hw Hd Hr|s w n a r s' Hw Hr|s w n r s' Hr
    |s w ws s' Hw Hd H0 Hc Hr|s w p ws s' Hp Hc Hr|s w s' Hr]; pose proof (sy_proc _ _ HI) as H; pose proof (sy_init _ _ HI) as Hini; cbn [kernel] in *.
  - by eapply keep_fork.
  - pose proof (exit_guard _ _ _ _ Hr) as Hg.
    destruct Hg as [Hd Hni]. eexists. eapply keep_exit; [exact HI|done..|].
    exact (wp_Done_at _ _ _ _ _ (wp_do_exit sc R kids s code H Hd Hni Hini) Hr).
  - destruct (wlp_Done _ _ _ _ _ (wlp_do_wait_enter sc R kids s n a H Hini Hd) Hr) as [(->&H'&Hs)|(s1&H1&Hs&P)].
    + exists kids. pose proof Hs as (e & k & -> & [L C I]).
      assert (note_call (set_env e (set_krn k s)) (running s) n a w = w) as ->.
      { unfold note_call, lf. cbn. rewrite L, decide_False, delete_id; [done|done|]. by apply (not_waiting_current _ _ H). }
      by eapply keep_same.
    + pose proof (keep_same _ _ _ _ HI H1 Hs) as HI1. destruct Hs as (e & k & -> & [L C I]).
      assert (Er : running (set_env e (set_krn k s)) = running s) by apply C.
      destruct (keep_wait _ _ w n a r s' HI1) as [kids' HI2]; [by rewrite Er; cbn; rewrite I|done|]. exists kids'. by rewrite Er in HI2.
  - assert (Hd : running s <> idleproc (krn s)) by by eapply (sy_call _ _ HI).
    destruct (wlp_Done _ _ _ _ _ (wlp_do_wait_resume sc R kids s n a H Hini Hd) Hr) as [(Hni&->&X)|P]; [|by eapply keep_wait].
    eexists. unfold note_call. rewrite decide_False by (unfold running; by rewrite (ex_zombie _ _ _ _ _ _ X)).
    eapply keep_exit; [by apply (sys_inv_return _ _ _ _ HI), (not_waiting_current _ _ H)|apply lookup_delete_eq|done..|exact X].
  - destruct (wp_Done_at _ _ _ _ _ (wp_do_kill sc R kids s n H) Hr) as [(_&->&_)|[(_&->&_)|(_&p&Hp&P)]]; [by exists kids|by exists kids|].
    exists kids. by eapply keep_kill.
  - exists kids. pose proof (wp_Done_at _ _ _ _ _ (wp_sleep sc R kids s ws H Hd) Hr) as P.
    by eapply (keep_sleep kids s w ws).
  - exists kids. by eapply keep_wakeup.
  - exists kids. by eapply keep_schedule.
Qed.

(** ** proc_init *)

(** What [proc_init] finds: no process, an empty run queue, nothing held. *)
Record booting s : Prop := {
  bo_procs : procs (sch (krn s)) = ∅;
  bo_policy : policy_inv (sch (krn s));
  bo_queue : queued (sch (krn s)) = [];
  bo_tasks : tasks s = ∅;
  bo_nr : nr_process s = 0;
  bo_pids : last_pid s = MAX_PID /\ next_safe s = MAX_PID;
  bo_env : holds (env s) (mk_own ∅ ∅ ∅ ∅);
}.

(** The idle process alone. *)
Lemma proc_inv_idle s idle t x y z r e tm tl :
  tasks s = {[idle := t]} -> pid t = 0 -> cptr t = NULL -> idle <> NULL -> proc_list s = [] -> hash_list s = (fun _ => []) ->
  nr_process s = 1 -> last_pid s = MAX_PID -> next_safe s = MAX_PID ->
  env s = e -> holds e (mk_own {[idle]} ∅ ∅ ∅) ->
  krn s = mk_kst (set_procs (<[idle := z]> (<[idle := y]> (<[idle := x]> ∅))) r) idle idle tm tl ->
  state z = PROC_RUNNABLE -> wait_state z = 0 ->
  policy_inv (sch (krn s)) -> queued (sch (krn s)) = [] -> proc_inv (fun _ => []) s.
Proof.
  intros Et Ep Ec Hn El Eh En Ela Ens <- He Ek Ez1 Ez2 Hpol Hq.
  assert (Hl : forall q, life (sch (krn s)) q = if decide (q = idle) then Some (PROC_RUNNABLE, 0) else None).
  { intros q. rewrite Ek. unfold life. cbn. rewrite lookup_insert. destruct (decide (idle = q)) as [->|].
    - rewrite decide_True by done. cbn. by rewrite Ez1, Ez2.
    - rewrite (decide_False (P := q = idle)) by congruence. by rewrite !lookup_insert_ne. }
  assert (Hdom : forall q, is_Some (tasks s !! q) <-> q = idle).
  { intros q. rewrite Et, lookup_singleton_is_Some. naive_solver. }
  assert (Hs : is_Some (procs (sch (krn s)) !! idle)) by (apply life_Some; rewrite Hl, decide_True by done; eauto).
  unfold proc_inv. rewrite Ek at 1. cbn [current]. split.
  - split; [done|by rewrite Hq; constructor| | | |].
    + intros q. rewrite Hq. unfold runnable. rewrite Hl, Ek. cbn. split; [intros Hx; by apply not_elem_of_nil in Hx|].
      destruct (decide (q = idle)); naive_solver.
    + by rewrite Ek in Hs |- *.
    + by rewrite Ek in Hs |- *.
    + apply eq_None_not_Some. rewrite life_Some, Hl, decide_False by (by apply not_eq_sym). by intros [? ?].
  - rewrite El. split.
    + split; [by rewrite Et, lookup_singleton_ne|done| |constructor|done].
      intros q ->%Hdom. unfold first_of. rewrite Et, lookup_singleton_eq. cbn. by rewrite Ec.
    + intros q. rewrite Hdom, Ek. cbn. split; [intros Hx; by apply not_elem_of_nil in Hx|tauto].
    + constructor.
    + intros q u Hx. by apply not_elem_of_nil in Hx.
    + intros q u Hx. by apply not_elem_of_nil in Hx.
    + intros q Hx. by apply not_elem_of_nil in Hx.
  - rewrite El, Eh, Ela, Ens. split.
    + intros q u Hx. by apply not_elem_of_nil in Hx.
    + intros q q' u u' Hx. by apply not_elem_of_nil in Hx.
    + intros b q. split; [intros Hx; by apply not_elem_of_nil in Hx|]. intros [Hx _]. by apply not_elem_of_nil in Hx.
    + done.
    + done.
    + intros q u Hx. by apply not_elem_of_nil in Hx.
  - rewrite Ek at 2. cbn [idleproc]. split.
    + intros q. rewrite Hdom, Hl. destruct (decide (q = idle)); [naive_solver|]. split; [done|by intros [? ?]].
    + intros q st ws. rewrite Hl. destruct (decide (q = idle)); [by intros [= <- <-]|done].
    + intros q ws. rewrite Hl. by destruct (decide (q = idle)).
    + done.
    + by rewrite Hl, decide_True.
    + by rewrite Hl, decide_True.
  - rewrite En, El. done.
  - rewrite En. done.
  - eexists. split; [exact He|]. rewrite El. split; intros q; cbn.
    + by rewrite Hdom, elem_of_singleton.
    + set_solver +.
    + set_solver +.
    + set_solver +.
Qed.

Lemma proc_inv_initproc kids s p : proc_inv kids s -> proc_inv kids (set_initproc p s).
Proof. intros [H1 H2 H3 H4 H5 H6 H7]. by split. Qed.

(** From the second half of [proc_init] on: the idle process forks the first one. *)
Lemma wlp_start_init s tf :
  proc_inv (fun _ => []) s -> (forall q, ~ waiting (sch (krn s)) q) ->
  wlp (n ← kernel_thread sc R 0 tf;
       assert (0 <? n);;
       o ← find_proc n;
       modify (set_initproc (default NULL o));;
       t ← task_at (idleproc (krn s));
       assert (bool_decide (pid t = 0));;
       s ← get;
       assert (bool_decide (initproc s <> NULL));;
       i ← task_at (initproc s);
       assert (bool_decide (pid i = 1)))
    (fun _ s' => exists kids, proc_inv kids s' /\ has_init kids s' /\ forall q, ~ waiting (sch (krn s')) q) s.
Proof.
  intros H Hnw. apply wlp_bind. eapply wlp_mono; [by apply (wlp_do_fork sc R (fun _ => []) s (Z.lor 0 CLONE_VM) 0 tf)|].
  intros n s1 [([[-> _]| ->]&_)|[p F]]; [by apply wlp_bind, wlp_assert|by apply wlp_bind, wlp_assert|].
  apply wlp_bind, wlp_assert. intros _. apply wlp_bind_wp.
  pose proof (fk_inv _ _ _ _ _ _ _ F) as H1. eapply (wp_find_proc sc R _ s1); [exact H1|]. intros res Hres.
  destruct (fk_ident _ _ _ _ _ _ _ F p) as [code Hp]. rewrite decide_True in Hp by done.
  apply fmap_Some in Hp as (tp&Htp&Ep). injection Ep as Epid _ _ Epar.
  assert (Hpl : p ∈ proc_list s1) by (rewrite (fk_list _ _ _ _ _ _ _ F); set_solver +).
  destruct res as [q|]; [|exfalso; by apply (Hres p tp)]. destruct Hres as (Hq&tq&Htq&Eq).
  assert (q = p) as ->.
  { eapply (nu_unique _ _ _ _ _ (pi_numbers _ _ _ _ _ H1) q p tq tp); [done..|congruence]. }
  apply wlp_bind_wp, wp_modify. cbn [default].
  set (s2 := set_initproc p s1).
  assert (Hend : exists kids, proc_inv kids s2 /\ has_init kids s2 /\ forall q, ~ waiting (sch (krn s2)) q).
  { eexists. split; [by apply proc_inv_initproc|]. split; [split; cbn|].
    - rewrite (fk_idle _ _ _ _ _ _ _ F). pose proof (pi_family _ _ _ _ _ H1) as Fam.
      pose proof (fa_child _ _ _ _ Fam p tp Hpl Htp) as Hc. rewrite <-Epar in Hc.
      destruct (decide (current (krn s) = idleproc (krn s))) as [Ec|Ec]; [by rewrite Ec in *|].
      exfalso. destruct (current_task sc R _ _ H) as [t Ht].
      assert (Hcl : current (krn s) ∈ proc_list s) by by apply (listed sc R _ _ _ H).
      pose proof (fa_child _ _ _ _ (pi_family _ _ _ _ _ H) _ t Hcl Ht) as Hx. by apply not_elem_of_nil in Hx.
    - intros [ws Hz]. pose proof (fk_life _ _ _ _ _ _ _ F p) as Hl. rewrite decide_True in Hl by done. unfold lf in Hl. congruence.
    - intros q. cbn. unfold waiting. change (lf s1 q <> Some (PROC_SLEEPING, WT_CHILD)). rewrite (fk_life _ _ _ _ _ _ _ F).
      destruct (decide (q = p)); [done|apply Hnw]. }
  apply wlp_bind. apply wlp_unwrap. intros t _. apply wlp_bind, wlp_assert. intros _. apply wlp_bind_wp, wp_get.
  apply wlp_bind, wlp_assert. intros _. apply wlp_bind, wlp_unwrap. intros i _. apply wlp_assert. intros _. exact Hend.
Qed.

Lemma wlp_proc_init s tf :
  booting s -> wlp (proc_init sc R tf) (fun _ s' => exists kids, proc_inv kids s' /\ has_init kids s' /\
    forall q, ~ waiting (sch (krn s')) q) s.
Proof.
  intros [B1 B2 B3 B4 B5 [B6 B7] B8]. unfold proc_init. do 2 apply wlp_bind_wp, wp_modify. apply wlp_bind. unfold alloc_proc.
  apply wlp_bind_wp, wp_env. eapply wp_mono; [by apply kmalloc_law|]. intros [idle|] e1; [|intros _; apply wlp_ret, wlp_bind, wlp_unwrap; done].
  intros (Hn&_&He1). cbn in He1. apply wlp_bind_wp, wp_get. apply wlp_bind_wp, wp_krn, wp_modify. apply wlp_bind_wp, wp_modify. apply wlp_ret.
  apply wlp_bind, wlp_unwrap. intros x [= <-]. apply wlp_bind_wp, wp_env. cbn [env set_env set_tasks set_krn set_proc_list set_hash_list].
  eapply wp_mono; [apply (create_files_law _ _ idle He1); cbn; set_solver +|]. intros ok e2 He2. apply wlp_bind, wlp_assert. intros _.
  apply wlp_bind_wp, wp_krn, wp_modify. apply wlp_bind_wp. eapply wp_task_upd; [apply lookup_insert_eq|].
  unfold sched_upd. apply wlp_bind_wp, wp_krn. unfold in_sch. apply wp_zoom. cbn [sch krn set_krn set_tasks set_env set_proc_list set_hash_list set_sch].
  eapply wp_proc_upd; [apply lookup_insert_eq|].
  apply wlp_bind_wp, wp_krn, wp_zoom. cbn [sch krn set_krn set_tasks set_env set_proc_list set_hash_list set_sch].
  eapply wp_proc_upd; [apply lookup_insert_eq|]. apply wlp_bind_wp, wp_modify. apply wlp_bind_wp, wp_krn, wp_modify.
  set (s1 := set_krn _ _).
  destruct (adopt_law (sch (krn s)) idle new_proc (mk_she NULL NULL NULL) B2) as [P1 Q1]; [by rewrite B1|done|].
  set (r1 := adopt _ _ _ _) in *.
  assert (X1 : procs r1 !! idle = Some new_proc) by apply lookup_insert_eq.
  destruct (neutral_law r1 idle (set_state PROC_RUNNABLE 0) new_proc P1 X1) as [P2 Q2]; [done|]. set (r2 := set_procs _ r1) in *.
  destruct (neutral_law r2 idle (set_need_resched true) (set_state PROC_RUNNABLE 0 new_proc) P2) as [P3 Q3]; [apply lookup_insert_eq|done|].
  set (r3 := set_procs _ r2) in *.
  assert (Hinv : proc_inv (fun _ => []) s1).
  { apply (proc_inv_idle s1 idle (set_pid 0 (new_task (raw_exit_code R e1 idle))) new_proc (set_state PROC_RUNNABLE 0 new_proc)
      (set_need_resched true (set_state PROC_RUNNABLE 0 new_proc)) r1 e2 (timers (krn s)) (timer_list (krn s))); try reflexivity; try done.
    - cbn. rewrite B4, insert_insert_eq. done.
    - cbn. by rewrite B5.
    - cbn. replace ({[idle]} : gset pptr) with ({[idle]} ∪ (∅ : gset pptr)) by (apply leibniz_equiv; set_solver +). exact He2.
    - rewrite <-B1. reflexivity.
    - cbn. change (queued r3 = []). rewrite Q3, Q2, Q1. exact B3. }
  apply (wlp_start_init s1 tf Hinv). intros q Hq.
  assert (is_Some (tasks s1 !! q)) as Hs by (apply (li_dom _ _ _ _ _ (pi_lives _ _ _ _ _ Hinv)); unfold waiting in Hq; rewrite Hq; eauto).
  cbn in Hs. rewrite B4, insert_insert_eq, insert_empty, lookup_singleton_is_Some in Hs. subst q.
  pose proof (li_idle _ _ _ _ _ (pi_lives _ _ _ _ _ Hinv)) as Hi. unfold waiting in Hq. cbn in Hi, Hq. congruence.
Qed.

Lemma sys_inv_reachable kids x y : sys_inv kids x -> rtc step x y -> exists kids', sys_inv kids' y.
Proof.
  intros H St. revert kids H. induction St as [x|x y z Hxy _ IH]; intros kids H; [by exists kids|].
  destruct (sys_inv_step _ _ _ H Hxy) as [kids' H']. by eapply IH.
Qed.

Lemma sys_inv_boot s tf s0 : booting s -> proc_init sc R tf s = Done ((), s0) -> exists kids, sys_inv kids (mk_sys s0 ∅).
Proof.
  intros HB Hrun. destruct (wlp_Done _ _ _ _ _ (wlp_proc_init s tf HB) Hrun) as (kids&H&Hi&Hn).
  exists kids. split; [done|done|done|]. cbn. intros p Hp. by apply Hn in Hp.
Qed.
End system.

(** ** The properties *)

(** Property C2. From [proc_init] on, whatever system calls the processes make and
    whichever runs next, a process asleep in [do_wait] is waiting for a child
    that exists and has not ended: no exit, whether of a child or of the parent
    whose orphans it inherits, goes unnoticed. *)
Theorem wait_never_lost sc `{!SchedPolicy sc} {E : Type} (R : resources E) `{!Resources R} s tf s0 y p :
  booting sc R s -> proc_init sc R tf s = Done ((), s0) -> rtc (step sc R) (mk_sys s0 ∅) y ->
  lf (kernel y) p = Some (PROC_SLEEPING, WT_CHILD) ->
  exists kids n a, proc_inv sc R kids (kernel y) /\ calls y !! p = Some (n, a) /\
    (exists q, waits_for kids (kernel y) p n q) /\
    (forall q, waits_for kids (kernel y) p n q -> ~ zombie (sch (krn (kernel y))) q).
Proof.
  intros HB Hi St Hp. destruct (sys_inv_boot sc R s tf s0 HB Hi) as [kids H].
  destruct (sys_inv_reachable sc R _ _ _ H St) as [kids' H'].
  destruct (sy_blocked _ _ _ _ H' p Hp) as (n&a&Hc&Hm1&Hm2). exists kids', n, a.
  split_and!; [apply H'|exact Hc|exact Hm1|exact Hm2].
Qed.

(** Property C3. From [proc_init] on the process table stays well formed: the pointers
    spell a tree of children, the list, the hash table and the descriptors
    agree, process numbers are unique, and every process holds exactly what its
    state calls for, so that nothing leaks and nothing is released twice. *)
Theorem process_table_sound sc `{!SchedPolicy sc} {E : Type} (R : resources E) `{!Resources R} s tf s0 y :
  booting sc R s -> proc_init sc R tf s = Done ((), s0) -> rtc (step sc R) (mk_sys s0 ∅) y ->
  exists kids, proc_inv sc R kids (kernel y) /\ has_init kids (kernel y).
Proof.
  intros HB Hi St. destruct (sys_inv_boot sc R s tf s0 HB Hi) as [kids H].
  destruct (sys_inv_reachable sc R _ _ _ H St) as [kids' H']. exists kids'. split; apply H'.
Qed.

(** ** An example system *)

(** Resources that never run out, addresses given in order. *)
Abbreviation ex_env := (own * Z)%type.
Definition ex_update (f : own -> own) : K ex_env () := modify (fun e => (f e.1, e.2)).
Definition ex_res : resources ex_env := {|
  kmalloc := e ← get; put (set_objs ({[e.2]} ∪ objs e.1) e.1, e.2 + 1);; mret (Some e.2);
  raw_exit_code _ _ := 0;
  kfree p := ex_update (fun o => set_objs (objs o ∖ {[p]}) o);
  setup_kstack p := ex_update (fun o => set_stacks ({[p]} ∪ stacks o) o);; mret 0;
  put_kstack p := ex_update (fun o => set_stacks (stacks o ∖ {[p]}) o);
  copy_mm _ _ p := ex_update (fun o => set_spaces ({[p]} ∪ spaces o) o);; mret 0;
  put_mm p := ex_update (fun o => set_spaces (spaces o ∖ {[p]}) o);
  copy_files _ _ p := ex_update (fun o => set_ftabs ({[p]} ∪ ftabs o) o);; mret 0;
  put_files p := ex_update (fun o => set_ftabs (ftabs o ∖ {[p]}) o);
  create_files _ := mret true;
  copy_thread _ _ _ := mret ();
  check_store _ _ := mret true;
  store_int _ _ _ := mret ();
|}.

#[export] Program Instance ex_resources : Resources ex_res := {|
  holds e o := e.1 = o /\ 0 < e.2 /\ forall p, p ∈ objs o -> p < e.2;
|}.
Next Obligation.
  intros [o n] ? (<-&Hn&Ho). cbn in *. unfold wp. cbn. split_and!; cbn; [unfold NULL; lia|intros H; specialize (Ho _ H); lia|done|lia|].
  cbn. intros p [->%elem_of_singleton|Hp]%elem_of_union; [lia|]. specialize (Ho p Hp). lia.
Qed.
Next Obligation.
  intros [o n] ? p (<-&Hn&Ho) _ _ _ _. cbn in *. split_and!; [done|done|]. intros q [Hq _]%elem_of_difference. by apply Ho.
Qed.
Next Obligation. intros [o n] ? p (<-&?&?) _ _. unfold wp. cbn in *. done. Qed.
Next Obligation. intros [o n] ? p (<-&?&?) _. done. Qed.
Next Obligation. intros [o n] ? fl c p (<-&?&?) _ _ _. unfold wlp. cbn in *. done. Qed.
Next Obligation. intros [o n] ? p (<-&?&?) _. done. Qed.
Next Obligation. intros [o n] ? fl c p (<-&?&?) _ _ _. unfold wp. cbn in *. done. Qed.
Next Obligation. intros [o n] ? p (<-&?&?) _. done. Qed.
Next Obligation. done. Qed.
Next Obligation. done. Qed.
Next Obligation. done. Qed.
Next Obligation. done. Qed.

Definition ex_boot : pst ex_env :=
  mk_pst (mk_kst (mk_rqs ∅ ∅ (mk_rq [] 0 MAX_TIME_SLICE 0)) 0 0 ∅ []) ∅ [] (fun _ => []) 0 MAX_PID MAX_PID 0 (mk_own ∅ ∅ ∅ ∅, 1).

Definition after {S A} (m : K S A) (s : S) : S := match m s with Done (_, s') => s' | _ => s end.

Definition ex0 : pst ex_env := after (proc_init default_sched_class ex_res 0) ex_boot.
Definition ex1 : pst ex_env := after (in_krn (schedule default_sched_class)) ex0.
Definition ex2 : pst ex_env := after (do_fork default_sched_class ex_res 0 0 0) ex1.
Definition ex3 : pst ex_env := after (do_wait_enter default_sched_class ex_res 0 0) ex2.

Lemma ex_booting : booting default_sched_class ex_res ex_boot.
Proof.
  split; try done; cbn.
  - split; cbn; [constructor|done| |done]. intros p Hp. by apply not_elem_of_nil in Hp.
Qed.

Lemma ex_init : proc_init default_sched_class ex_res 0 ex_boot = Done ((), ex0).
Proof. vm_compute. reflexivity. Qed.

Lemma ex_step1 : rtc (step default_sched_class ex_res) (mk_sys ex0 ∅) (mk_sys ex1 ∅).
Proof.
  assert (H1 : in_krn (schedule default_sched_class) ex0 = Done ((), ex1)) by (vm_compute; reflexivity).
  apply rtc_once. exact (step_schedule _ _ ex0 ∅ ex1 H1).
Qed.

Lemma ex_step2 : rtc (step default_sched_class ex_res) (mk_sys ex0 ∅) (mk_sys ex2 ∅).
Proof.
  assert (H2 : do_fork default_sched_class ex_res 0 0 0 ex1 = Done (2, ex2)) by (vm_compute; reflexivity).
  eapply rtc_r; [exact ex_step1|]. exact (step_fork _ _ ex1 ∅ 0 0 0 2 ex2 (lookup_empty _) H2).
Qed.

Definition ex_calls : gmap pptr (Z * Z) := note_call ex3 (running ex2) 0 0 ∅.

Lemma ex_step3 : rtc (step default_sched_class ex_res) (mk_sys ex0 ∅) (mk_sys ex3 ex_calls).
Proof.
  assert (H3 : do_wait_enter default_sched_class ex_res 0 0 ex2 = Done (None, ex3)) by (vm_compute; reflexivity).
  assert (H4 : running ex2 <> idleproc (krn ex2)) by (vm_compute; done).
  eapply rtc_r; [exact ex_step2|]. exact (step_wait _ _ ex2 ∅ 0 0 None ex3 (lookup_empty _) H4 H3).
Qed.

Lemma ex_asleep : lf ex3 2 = Some (PROC_SLEEPING, WT_CHILD).
Proof. vm_compute. reflexivity. Qed.


Lemma ex_running : running ex3 = 3 /\ idleproc (krn ex3) = 1 /\ initproc ex3 = 2 /\ running ex2 = 2 /\ idleproc (krn ex2) = 1.
Proof. vm_compute. done. Qed.

Lemma ex_proc_inv x w : rtc (step default_sched_class ex_res) (mk_sys ex0 ∅) (mk_sys x w) ->
  exists kids, proc_inv default_sched_class ex_res kids x /\ has_init kids x.
Proof.
  intros St. destruct (sys_inv_boot default_sched_class ex_res ex_boot 0 ex0 ex_booting ex_init) as [kids H].
  destruct (sys_inv_reachable default_sched_class ex_res _ _ _ H St) as [kids' H']. exists kids'. split; apply H'.
Qed.

#[local] Opaque ex0 ex1 ex2 ex3 ex_calls.

(** [initproc], descriptor 2, forks descriptor 3 and waits for any child. *)
Lemma wait_never_lost_witness : lf ex3 2 = Some (PROC_SLEEPING, WT_CHILD) /\
  exists kids n a, proc_inv default_sched_class ex_res kids ex3 /\ ex_calls !! 2 = Some (n, a) /\
    (exists q, waits_for kids ex3 2 n q) /\ (forall q, waits_for kids ex3 2 n q -> ~ zombie (sch (krn ex3)) q).
Proof.
  split; [exact ex_asleep|].
  exact (wait_never_lost default_sched_class ex_res ex_boot 0 ex0 (mk_sys ex3 ex_calls) 2 ex_booting ex_init ex_step3 ex_asleep).
Defined.

Lemma process_table_sound_witness : exists kids, proc_inv default_sched_class ex_res kids ex3 /\ has_init kids ex3.
Proof.
  exact (process_table_sound default_sched_class ex_res ex_boot 0 ex0 (mk_sys ex3 ex_calls) ex_booting ex_init ex_step3).
Defined.

Lemma do_fork_spec_witness : exists kids, proc_inv default_sched_class ex_res kids ex1 /\
  wlp (do_fork default_sched_class ex_res 0 0 0) (fun r s' =>
    fork_failed default_sched_class ex_res kids ex1 r s' \/ exists p, forked default_sched_class ex_res kids ex1 p r s') ex1.
Proof.
  destruct (ex_proc_inv ex1 ∅ ex_step1) as (kids&H&_). exists kids. split; [exact H|].
  exact (do_fork_spec default_sched_class ex_res kids ex1 0 0 0 H).
Defined.

Lemma do_exit_spec_witness : exists kids, proc_inv default_sched_class ex_res kids ex3 /\
  wp (do_exit default_sched_class ex_res 7) (fun _ s' => exited default_sched_class ex_res kids ex3 7 s') ex3.
Proof.
  destruct (ex_proc_inv ex3 _ ex_step3) as (kids&H&Hi). exists kids. split; [exact H|].
  destruct ex_running as (E1&E2&E3&_).
  refine (do_exit_spec default_sched_class ex_res kids ex3 7 H _ _ Hi); unfold running in E1; congruence.
Defined.

Lemma do_wait_spec_witness : exists kids, proc_inv default_sched_class ex_res kids ex2 /\
  wlp (wait_once default_sched_class ex_res 0 0) (wait_post default_sched_class ex_res kids ex2 0) ex2.
Proof.
  destruct (ex_proc_inv ex2 _ ex_step2) as (kids&H&Hi). exists kids. split; [exact H|].
  destruct ex_running as (_&_&_&E1&E2).
  refine (do_wait_spec default_sched_class ex_res kids ex2 0 0 H Hi _). unfold running in E1. congruence.
Defined.

Lemma do_kill_spec_witness : exists kids, proc_inv default_sched_class ex_res kids ex3 /\
  wp (do_kill default_sched_class 1) (fun r s' =>
    r = - E_INVAL /\ s' = ex3 /\ (forall p t, p ∈ proc_list ex3 -> tasks ex3 !! p = Some t -> pid t <> 1) \/
    r = - E_KILLED /\ s' = ex3 /\ (exists p t, p ∈ proc_list ex3 /\ tasks ex3 !! p = Some t /\ pid t = 1 /\ Z.land (flags t) PF_EXITING <> 0) \/
    r = 0 /\ exists p, p ∈ proc_list ex3 /\ killed default_sched_class ex_res kids ex3 1 p s') ex3.
Proof.
  destruct (ex_proc_inv ex3 _ ex_step3) as (kids&H&_). exists kids. split; [exact H|].
  exact (do_kill_spec default_sched_class ex_res kids ex3 1 H).
Defined.
