(* ===== verification/Sfs.v ===== *)
(** kern/fs/sfs: the Simple File System, files and their blocks (sfs.h, sfs_io.c,
    sfs_lock.c and the part of sfs_inode.c on regular files).  A buffer in memory is a list of bytes and a
    position in it; the block device is behind the record [device], as in dev.h.
    A semaphore used as a lock is a flag, and taking a lock that is held, which
    would block for ever, is a panic.  The proofs are in [SfsBlocks] and [SfsFile]. *)
From S2P Require Import Prelude Bitmap Iobuf.
#[local] Abbreviation length := Datatypes.length.

(** ** Constants and data (sfs.h, dev.h) *)

Definition SFS_BLKSIZE := 4096.
Definition SFS_NDIRECT := 12.
Definition SFS_MAX_FILE_SIZE := 1024 * 1024 * 128.
Definition SFS_BLKN_SUPER := 0.
Definition SFS_BLKN_FREEMAP := 2.
Definition SFS_BLKBITS := SFS_BLKSIZE * 8.
Definition SFS_BLK_NENTRY := SFS_BLKSIZE / 4.
Definition SFS_TYPE_FILE := 1.
Definition SFS_TYPE_DIR := 2.
Definition SFS_TYPE_LINK := 3.

Record sfs_disk_inode := mk_din {
  din_size : Z;
  din_type : Z;
  nlinks : Z;
  blocks : Z;
  direct : list Z;
  indirect : Z;
}.

Definition set_din_size (v : Z) (d : sfs_disk_inode) := mk_din v (din_type d) (nlinks d) (blocks d) (direct d) (indirect d).
Definition set_blocks (v : Z) (d : sfs_disk_inode) := mk_din (din_size d) (din_type d) (nlinks d) v (direct d) (indirect d).
Definition set_direct (v : list Z) (d : sfs_disk_inode) := mk_din (din_size d) (din_type d) (nlinks d) (blocks d) v (indirect d).
Definition set_indirect (v : Z) (d : sfs_disk_inode) := mk_din (din_size d) (din_type d) (nlinks d) (blocks d) (direct d) v.

(** [sem] says whether the semaphore of the inode is held. *)
Record sfs_inode := mk_sin {
  din : sfs_disk_inode;
  ino : Z;
  dirty : bool;
  reclaim_count : Z;
  sem : bool;
}.

Definition set_din (v : sfs_disk_inode) (n : sfs_inode) := mk_sin v (ino n) (dirty n) (reclaim_count n) (sem n).
Definition set_dirty (v : bool) (n : sfs_inode) := mk_sin (din n) (ino n) v (reclaim_count n) (sem n).
Definition set_sem (v : bool) (n : sfs_inode) := mk_sin (din n) (ino n) (dirty n) (reclaim_count n) v.

(** [d_io write buf offset]: a transfer of the whole of [buf], a [struct iobuf]
    at [offset]; the result and the buffer afterwards. *)
Record device (D : Type) := mk_device {
  d_blocks : Z;
  d_io : bool -> list Z -> Z -> K D (Z * list Z);
}.
Arguments d_blocks {D}. Arguments d_io {D}.

(** A uint32_t in memory, least significant byte first. *)
Definition le32 (x : Z) : list Z := [x mod 256; x / 2 ^ 8 mod 256; x / 2 ^ 16 mod 256; x / 2 ^ 24 mod 256].
Definition get32 (l : list Z) : Z :=
  match l with
  | [a; b; c; d] => a + 2 ^ 8 * b + 2 ^ 16 * c + 2 ^ 24 * d
  | _ => 0
  end.

(** A sfs_disk_inode on disk. *)
Definition le16 (x : Z) : list Z := [x mod 256; x / 2 ^ 8 mod 256].
Definition din_bytes (d : sfs_disk_inode) : list Z :=
  le32 (din_size d) ++ le16 (din_type d) ++ le16 (nlinks d) ++ le32 (blocks d) ++ concat (le32 <$> direct d) ++ le32 (indirect d).

Section sfs.
Context {D : Type} (dv : device D).

Record sfs_fs := mk_sfs {
  super_blocks : Z;
  unused_blocks : Z;
  super_dirty : bool;
  freemap : bitmap;
  sfs_buffer : list Z;
  io_sem : bool;
  inodes : gmap Z sfs_inode;
  dev : D;
}.

Definition set_super (unused : Z) (s : sfs_fs) := mk_sfs (super_blocks s) unused true (freemap s) (sfs_buffer s) (io_sem s) (inodes s) (dev s).
Definition set_super_dirty (v : bool) (s : sfs_fs) := mk_sfs (super_blocks s) (unused_blocks s) v (freemap s) (sfs_buffer s) (io_sem s) (inodes s) (dev s).
Definition set_freemap (v : bitmap) (s : sfs_fs) := mk_sfs (super_blocks s) (unused_blocks s) (super_dirty s) v (sfs_buffer s) (io_sem s) (inodes s) (dev s).
Definition set_sfs_buffer (v : list Z) (s : sfs_fs) := mk_sfs (super_blocks s) (unused_blocks s) (super_dirty s) (freemap s) v (io_sem s) (inodes s) (dev s).
Definition set_io_sem (v : bool) (s : sfs_fs) := mk_sfs (super_blocks s) (unused_blocks s) (super_dirty s) (freemap s) (sfs_buffer s) v (inodes s) (dev s).
Definition set_inodes (v : gmap Z sfs_inode) (s : sfs_fs) := mk_sfs (super_blocks s) (unused_blocks s) (super_dirty s) (freemap s) (sfs_buffer s) (io_sem s) v (dev s).
Definition set_dev (v : D) (s : sfs_fs) := mk_sfs (super_blocks s) (unused_blocks s) (super_dirty s) (freemap s) (sfs_buffer s) (io_sem s) (inodes s) v.

Definition in_map {A} (m : K bitmap A) : K sfs_fs A := zoom freemap set_freemap m.
Definition in_dev {A} (m : K D A) : K sfs_fs A := zoom dev set_dev m.
Definition sin_at (n : Z) : K sfs_fs sfs_inode := fun s => unwrap (inodes s !! n) s.
Definition sin_upd (n : Z) (f : sfs_inode -> sfs_inode) : K sfs_fs () :=
  x ← sin_at n; modify (fun s => set_inodes (<[n := f x]> (inodes s)) s).
Definition din_upd (n : Z) (f : sfs_disk_inode -> sfs_disk_inode) : K sfs_fs () := sin_upd n (fun x => set_din (f (din x)) x).

(** [memcpy] out of and into a buffer. *)
Definition buf_get (buf : list Z) (pos len : Z) : K sfs_fs (list Z) :=
  assert ((0 <=? pos) && (0 <=? len) && (pos + len <=? Z.of_nat (length buf)));; mret (slice pos len buf).
Definition buf_put (buf : list Z) (pos : Z) (data : list Z) : K sfs_fs (list Z) :=
  assert ((0 <=? pos) && (pos + Z.of_nat (length data) <=? Z.of_nat (length buf)));; mret (splice pos data buf).

(** ** sfs_lock.c *)

Definition lock_sfs_io : K sfs_fs () := s ← get; assert (negb (io_sem s));; modify (set_io_sem true).
Definition unlock_sfs_io : K sfs_fs () := modify (set_io_sem false).
Definition lock_sin (n : Z) : K sfs_fs () := x ← sin_at n; assert (negb (sem x));; sin_upd n (set_sem true).
Definition unlock_sin (n : Z) : K sfs_fs () := sin_upd n (set_sem false).

(** ** sfs_io.c *)

(** The result, and the buffer at [buf] afterwards. *)
Definition sfs_rwblock_nolock (buf : list Z) (pos blkno : Z) (write check : bool) : K sfs_fs (Z * list Z) :=
  s ← get;
  assert ((negb (blkno =? 0) || negb check) && (blkno <? super_blocks s));;
  blk ← buf_get buf pos SFS_BLKSIZE;
  '(r, blk) ← in_dev (d_io dv write blk (u32 (blkno * SFS_BLKSIZE)));
  buf ← buf_put buf pos blk;
  mret (r, buf).

Fixpoint rwblocks (nblks : nat) (buf : list Z) (pos blkno : Z) (write : bool) : K sfs_fs (Z * list Z) :=
  match nblks with
  | O => mret (0, buf)
  | S nblks =>
      '(r, buf) ← sfs_rwblock_nolock buf pos blkno write true;
      if bool_decide (r <> 0) then mret (r, buf)
      else rwblocks nblks buf (pos + SFS_BLKSIZE) (u32 (blkno + 1)) write
  end.

Definition sfs_rwblock (buf : list Z) (pos blkno nblks : Z) (write : bool) : K sfs_fs (Z * list Z) :=
  lock_sfs_io;;
  r ← rwblocks (Z.to_nat nblks) buf pos blkno write;
  unlock_sfs_io;;
  mret r.

Definition sfs_rblock (buf : list Z) (pos blkno nblks : Z) : K sfs_fs (Z * list Z) := sfs_rwblock buf pos blkno nblks false.
Definition sfs_wblock (buf : list Z) (pos blkno nblks : Z) : K sfs_fs (Z * list Z) := sfs_rwblock buf pos blkno nblks true.

(** A transfer between the device and [sfs_buffer]. *)
Definition rw_sfs_buffer (blkno : Z) (write check : bool) : K sfs_fs Z :=
  s ← get;
  '(r, b) ← sfs_rwblock_nolock (sfs_buffer s) 0 blkno write check;
  modify (set_sfs_buffer b);;
  mret r.

Definition sfs_rbuf (buf : list Z) (pos len blkno offset : Z) : K sfs_fs (Z * list Z) :=
  assert ((0 <=? offset) && (offset <? SFS_BLKSIZE) && (offset + len <=? SFS_BLKSIZE));;
  lock_sfs_io;;
  r ← rw_sfs_buffer blkno false true;
  buf ← (if bool_decide (r = 0) then
           s ← get; d ← buf_get (sfs_buffer s) offset len; buf_put buf pos d
         else mret buf);
  unlock_sfs_io;;
  mret (r, buf).

Definition sfs_wbuf (buf : list Z) (pos len blkno offset : Z) : K sfs_fs Z :=
  assert ((0 <=? offset) && (offset <? SFS_BLKSIZE) && (offset + len <=? SFS_BLKSIZE));;
  lock_sfs_io;;
  r ← rw_sfs_buffer blkno false true;
  r ← (if bool_decide (r = 0) then
         d ← buf_get buf pos len;
         s ← get; b ← buf_put (sfs_buffer s) offset d;
         modify (set_sfs_buffer b);;
         rw_sfs_buffer blkno true true
       else mret r);
  unlock_sfs_io;;
  mret r.

Fixpoint clear_blocks (nblks : nat) (blkno r : Z) : K sfs_fs Z :=
  match nblks with
  | O => mret r
  | S nblks =>
      r ← rw_sfs_buffer blkno true true;
      if bool_decide (r <> 0) then mret r else clear_blocks nblks (u32 (blkno + 1)) r
  end.

(** With [nblks = 0] the C code returns an uninitialised variable. *)
Definition sfs_clear_block (blkno nblks : Z) : K sfs_fs Z :=
  assert (negb (nblks =? 0));;
  lock_sfs_io;;
  modify (set_sfs_buffer (replicate (Z.to_nat SFS_BLKSIZE) 0));;
  r ← clear_blocks (Z.to_nat nblks) blkno 0;
  unlock_sfs_io;;
  mret r.

(** ** sfs_inode.c: blocks *)

Definition sfs_block_inuse (b : Z) : K sfs_fs bool :=
  s ← get;
  if negb (b =? 0) && (b <? super_blocks s) then r ← in_map (bitmap_test b); mret (r =? 0) else panic.

Definition assert_inuse (b : Z) : K sfs_fs () := r ← sfs_block_inuse b; assert r.

(** The result and, on success, the block. *)
Definition sfs_block_alloc : K sfs_fs (Z * Z) :=
  '(r, o) ← in_map bitmap_alloc;
  match o with
  | None => mret (r, 0)
  | Some b =>
      s ← get;
      assert (0 <? unused_blocks s);;
      modify (set_super (unused_blocks s - 1));;
      assert_inuse b;;
      r ← sfs_clear_block b 1;
      mret (r, b)
  end.

Definition sfs_block_free (b : Z) : K sfs_fs () :=
  assert_inuse b;;
  in_map (bitmap_free b);;
  modify (fun s => set_super (u32 (unused_blocks s + 1)) s).

(** ** sfs_inode.c: the block map *)

(** [sfs_bmap_get_sub_nolock] from the second allocation on. *)
Definition bmap_new_entry (entp ent offset : Z) : K sfs_fs (Z * Z * Z) :=
  '(r, b) ← sfs_block_alloc;
  r ← (if bool_decide (r <> 0) then mret r
       else
         r ← sfs_wbuf (le32 b) 0 4 ent offset;
         when (bool_decide (r <> 0)) (sfs_block_free b);;
         mret r);
  if bool_decide (r <> 0) then
    when (bool_decide (ent <> entp)) (sfs_block_free ent);;
    mret (r, entp, 0)
  else mret (0, ent, b).

(** [entp] is read once; the result, the entry block and the block found. *)
Definition sfs_bmap_get_sub_nolock (entp index : Z) (create : bool) : K sfs_fs (Z * Z * Z) :=
  assert (index <? SFS_BLK_NENTRY);;
  let offset := index * 4 in
  '(r, ent, b) ←
    (if bool_decide (entp <> 0) then
       '(r, buf) ← sfs_rbuf (le32 0) 0 4 entp offset; mret (r, entp, get32 buf)
     else if create then '(r, ent) ← sfs_block_alloc; mret (r, ent, 0)
     else mret (0, 0, 0));
  if bool_decide (r <> 0) then mret (r, entp, 0)
  else if bool_decide (b <> 0) || negb create then mret (0, ent, b)
  else bmap_new_entry entp ent offset.

Definition sfs_bmap_get_nolock (n index : Z) (create : bool) : K sfs_fs (Z * Z) :=
  x ← sin_at n;
  '(r, b) ←
    (if index <? SFS_NDIRECT then
       b ← unwrap (direct (din x) !! Z.to_nat index);
       if (b =? 0) && create then
         '(r, b) ← sfs_block_alloc;
         if bool_decide (r <> 0) then mret (r, 0)
         else
           din_upd n (fun d => set_direct (<[Z.to_nat index := b]> (direct d)) d);;
           sin_upd n (set_dirty true);;
           mret (0, b)
       else mret (0, b)
     else
       let index := index - SFS_NDIRECT in
       if index <? SFS_BLK_NENTRY then
         '(r, ent, b) ← sfs_bmap_get_sub_nolock (indirect (din x)) index create;
         if bool_decide (r <> 0) then mret (r, 0)
         else
           when (bool_decide (ent <> indirect (din x)))
             (assert (indirect (din x) =? 0);; din_upd n (set_indirect ent);; sin_upd n (set_dirty true));;
           mret (0, b)
       else panic);
  if bool_decide (r <> 0) then mret (r, 0)
  else
    when (bool_decide (b <> 0)) (assert_inuse b);;
    mret (0, b).

Definition sfs_bmap_free_sub_nolock (ent index : Z) : K sfs_fs Z :=
  assert_inuse ent;;
  assert (index <? SFS_BLK_NENTRY);;
  let offset := index * 4 in
  '(r, buf) ← sfs_rbuf (le32 0) 0 4 ent offset;
  if bool_decide (r <> 0) then mret r
  else if bool_decide (get32 buf <> 0) then
    r ← sfs_wbuf (le32 0) 0 4 ent offset;
    if bool_decide (r <> 0) then mret r else sfs_block_free (get32 buf);; mret 0
  else mret 0.

Definition sfs_bmap_free_nolock (n index : Z) : K sfs_fs Z :=
  x ← sin_at n;
  if index <? SFS_NDIRECT then
    b ← unwrap (direct (din x) !! Z.to_nat index);
    when (bool_decide (b <> 0))
      (sfs_block_free b;;
       din_upd n (fun d => set_direct (<[Z.to_nat index := 0]> (direct d)) d);;
       sin_upd n (set_dirty true));;
    mret 0
  else
    let index := index - SFS_NDIRECT in
    if index <? SFS_BLK_NENTRY then
      if bool_decide (indirect (din x) <> 0) then sfs_bmap_free_sub_nolock (indirect (din x)) index
      else mret 0
    else mret 0.

(** The result and the block. *)
Definition sfs_bmap_load_nolock (n index : Z) : K sfs_fs (Z * Z) :=
  x ← sin_at n;
  assert (index <=? blocks (din x));;
  let create := index =? blocks (din x) in
  '(r, b) ← sfs_bmap_get_nolock n index create;
  if bool_decide (r <> 0) then mret (r, 0)
  else
    assert_inuse b;;
    when create (din_upd n (fun d => set_blocks (u32 (blocks d + 1)) d));;
    mret (0, b).

Definition sfs_bmap_truncate_nolock (n : Z) : K sfs_fs Z :=
  x ← sin_at n;
  assert (negb (blocks (din x) =? 0));;
  r ← sfs_bmap_free_nolock n (blocks (din x) - 1);
  if bool_decide (r <> 0) then mret r
  else
    din_upd n (fun d => set_blocks (blocks d - 1) d);;
    sin_upd n (set_dirty true);;
    mret 0.

(** ** sfs_inode.c: reading and writing a file *)

(** [sfs_buf_op] and [sfs_block_op]. *)
Definition buf_op (write : bool) (buf : list Z) (pos len blkno offset : Z) : K sfs_fs (Z * list Z) :=
  if write then r ← sfs_wbuf buf pos len blkno offset; mret (r, buf) else sfs_rbuf buf pos len blkno offset.
Definition block_op (write : bool) (buf : list Z) (pos blkno : Z) : K sfs_fs (Z * list Z) :=
  if write then sfs_wblock buf pos blkno 1 else sfs_rblock buf pos blkno 1.

(** One piece of a transfer: the block is looked up and [len] bytes of it are
    moved.  The result, what has been transferred so far, and the buffer. *)
Definition io_piece (n : Z) (write : bool) (buf : list Z) (alen blkno blkoff len : Z) (whole : bool) : K sfs_fs (Z * Z * list Z) :=
  '(r, b) ← sfs_bmap_load_nolock n blkno;
  if bool_decide (r <> 0) then mret (r, alen, buf)
  else
    '(r, buf) ← (if whole then block_op write buf alen b else buf_op write buf alen len b blkoff);
    if bool_decide (r <> 0) then mret (r, alen, buf) else mret (0, alen + len, buf).

Fixpoint io_blocks (nblks : nat) (n : Z) (write : bool) (buf : list Z) (alen blkno : Z) : K sfs_fs (Z * Z * list Z) :=
  match nblks with
  | O => mret (0, alen, buf)
  | S nblks =>
      '(r, alen, buf) ← io_piece n write buf alen blkno 0 SFS_BLKSIZE true;
      if bool_decide (r <> 0) then mret (r, alen, buf)
      else io_blocks nblks n write buf alen (u32 (blkno + 1))
  end.

(** [sfs_io_nolock] between the first [goto out] and the label. *)
Definition io_transfer (n : Z) (write : bool) (buf : list Z) (offset endpos : Z) : K sfs_fs (Z * Z * list Z) :=
  let blkno := u32 (offset / SFS_BLKSIZE) in
  let nblks := u32 (endpos / SFS_BLKSIZE - blkno) in
  let blkoff := offset mod SFS_BLKSIZE in
  '(r, alen, buf) ←
    (if bool_decide (blkoff <> 0) then
       let len := if bool_decide (nblks <> 0) then SFS_BLKSIZE - blkoff else endpos - offset in
       io_piece n write buf 0 blkno blkoff len false
     else mret (0, 0, buf));
  if bool_decide (r <> 0) || bool_decide (blkoff <> 0 /\ nblks = 0) then mret (r, alen, buf)
  else
    let '(blkno, nblks) := if bool_decide (blkoff <> 0) then (u32 (blkno + 1), nblks - 1) else (blkno, nblks) in
    '(r, alen, buf) ← io_blocks (Z.to_nat nblks) n write buf alen blkno;
    if bool_decide (r <> 0) || bool_decide (endpos mod SFS_BLKSIZE = 0) then mret (r, alen, buf)
    else io_piece n write buf alen (u32 (blkno + nblks)) 0 (endpos mod SFS_BLKSIZE) false.

(** The result, what is stored through [alenp], and the buffer. *)
Definition sfs_io_nolock (n : Z) (buf : list Z) (offset alen : Z) (write : bool) : K sfs_fs (Z * Z * list Z) :=
  x ← sin_at n;
  assert (negb (din_type (din x) =? SFS_TYPE_DIR));;
  let endpos := s64 (offset + alen) in
  if (offset <? 0) || (offset >=? SFS_MAX_FILE_SIZE) || (offset >? endpos) then mret (- E_INVAL, 0, buf)
  else if offset =? endpos then mret (0, 0, buf)
  else
    let endpos := if endpos >? SFS_MAX_FILE_SIZE then SFS_MAX_FILE_SIZE else endpos in
    if negb write && (offset >=? din_size (din x)) then mret (0, 0, buf)
    else
      let endpos := if negb write && (endpos >? din_size (din x)) then din_size (din x) else endpos in
      '(r, alen, buf) ← io_transfer n write buf offset endpos;
      x ← sin_at n;
      when (offset + alen >? din_size (din x))
        (din_upd n (set_din_size (u32 (offset + alen)));; sin_upd n (set_dirty true));;
      mret (r, alen, buf).

(** The buffer of [iob] starts at position [io_base] of [buf]. *)
Definition sfs_io (n : Z) (iob : iobuf) (buf : list Z) (write : bool) : K sfs_fs (Z * iobuf * list Z) :=
  lock_sin n;;
  buf0 ← buf_get buf (io_base iob) (Z.of_nat (length buf) - io_base iob);
  '(r, alen, buf1) ← sfs_io_nolock n buf0 (io_offset iob) (io_resid iob) write;
  buf ← buf_put buf (io_base iob) buf1;
  iob ← (if bool_decide (alen <> 0) then
           assert (io_resid iob >=? alen);;
           mret (mk_iobuf (io_base iob + alen) (io_offset iob + alen) (io_len iob) (u64 (io_resid iob - alen)))
         else mret iob);
  unlock_sin n;;
  mret (r, iob, buf).

Definition sfs_read (n : Z) (iob : iobuf) (buf : list Z) := sfs_io n iob buf false.
Definition sfs_write (n : Z) (iob : iobuf) (buf : list Z) := sfs_io n iob buf true.

Definition sfs_fsync (n : Z) : K sfs_fs Z :=
  x ← sin_at n;
  if dirty x then
    lock_sin n;;
    sin_upd n (set_dirty false);;
    r ← sfs_wbuf (din_bytes (din x)) 0 (Z.of_nat (length (din_bytes (din x)))) (ino x) 0;
    when (bool_decide (r <> 0)) (sin_upd n (set_dirty true));;
    unlock_sin n;;
    mret r
  else mret 0.

(** The loops of [sfs_truncfile]. *)
Fixpoint grow (k : nat) (n nblks : Z) : K sfs_fs Z :=
  match k with
  | O => mret 0
  | S k => '(r, _) ← sfs_bmap_load_nolock n nblks; if bool_decide (r <> 0) then mret r else grow k n (u32 (nblks + 1))
  end.

Fixpoint shrink (k : nat) (n : Z) : K sfs_fs Z :=
  match k with
  | O => mret 0
  | S k => r ← sfs_bmap_truncate_nolock n; if bool_decide (r <> 0) then mret r else shrink k n
  end.

Definition sfs_truncfile (n len : Z) : K sfs_fs Z :=
  if (len <? 0) || (len >? SFS_MAX_FILE_SIZE) then mret (- E_INVAL)
  else
    x ← sin_at n;
    let tblks := u32 (ROUNDUP_DIV len SFS_BLKSIZE) in
    if din_size (din x) =? len then assert (tblks =? blocks (din x));; mret 0
    else
      lock_sin n;;
      let nblks := blocks (din x) in
      r ← (if nblks <? tblks then grow (Z.to_nat (tblks - nblks)) n nblks
           else shrink (Z.to_nat (nblks - tblks)) n);
      (if bool_decide (r <> 0) then mret ()
       else
         x ← sin_at n;
         assert (blocks (din x) =? tblks);;
         din_upd n (set_din_size len);;
         sin_upd n (set_dirty true));;
      unlock_sin n;;
      mret r.

Definition sfs_tryseek (n pos : Z) : K sfs_fs Z :=
  if (pos <? 0) || (pos >=? SFS_MAX_FILE_SIZE) then mret (- E_INVAL)
  else
    x ← sin_at n;
    if pos >? din_size (din x) then sfs_truncfile n pos else mret 0.
End sfs.
Arguments sfs_fs D : clear implicits.
