(* ===== verification/SfsBlocks.v ===== *)
(** The blocks of a Simple File System: what the operations of [Sfs] on single
    blocks do to the disk and to the map of free blocks.  [BlockDevice] is what
    the file system asks of its device; it may fail, but then has written
    nothing.  [kept P s s'] says that between two states every block in use has
    stayed in use and kept its contents, those in [P] excepted. *)
From S2P Require Import Prelude Cstring Bitmap Sfs.
#[local] Abbreviation length := Datatypes.length.

(** ** The device *)

Definition block_ok (l : list Z) : Prop := Z.of_nat (length l) = SFS_BLKSIZE /\ Forall is_byte l.

Class BlockDevice {D : Type} (dv : device D) := {
  dev_wf : D -> Prop;
  content : D -> Z -> list Z;
  content_ok d b : dev_wf d -> 0 <= b < d_blocks dv -> block_ok (content d b);
  d_io_law d (write : bool) buf b : dev_wf d -> block_ok buf -> 0 <= b < d_blocks dv ->
    wp (d_io dv write buf (b * SFS_BLKSIZE)) (fun '(r, buf') d' =>
      dev_wf d' /\ block_ok buf' /\ (r = 0 \/ write = true -> buf' = if write then buf else content d b) /\
      forall c, 0 <= c < d_blocks dv ->
        content d' c = if decide (r = 0 /\ write = true /\ c = b) then buf else content d c) d;
}.

Lemma slice_block l i n : block_ok l -> 0 <= i -> 0 <= n -> i + n <= SFS_BLKSIZE -> Z.of_nat (length (slice i n l)) = n.
Proof. intros [E _] **. apply length_slice; lia. Qed.

Lemma splice_block l i d :
  block_ok l -> Forall is_byte d -> 0 <= i -> i + Z.of_nat (length d) <= SFS_BLKSIZE -> block_ok (splice i d l).
Proof. intros [E H] ? ? ?. split; [rewrite length_splice by lia; done|by apply Forall_splice]. Qed.

Lemma zero_block : block_ok (replicate (Z.to_nat SFS_BLKSIZE) 0).
Proof. split; [by rewrite length_replicate|]. apply Forall_replicate. unfold is_byte. lia. Qed.

Section blocks.
Context {D : Type} (dv : device D) `{!BlockDevice dv}.
Abbreviation st := (sfs_fs D).

Definition blk (s : st) (b : Z) : list Z := content (dev s) b.
Definition used (s : st) (b : Z) : Prop := 0 < b < super_blocks s /\ free_bit (freemap s) b = false.

(** Every free bit is a block, and their number is kept in the superblock. *)
Record sfs_wf (s : st) : Prop := {
  w_dev : dev_wf (dev s);
  w_super : 0 < super_blocks s <= d_blocks dv;
  w_small : super_blocks s <= 2 ^ 20;
  w_buffer : block_ok (sfs_buffer s);
  w_io : io_sem s = false;
  w_map : bitmap_wf (freemap s);
  w_bits : super_blocks s <= nbits (freemap s);
  w_free b : 0 <= b -> free_bit (freemap s) b = true -> 0 < b < super_blocks s;
  w_unused : unused_blocks s = count (free_bit (freemap s)) (seqZ 0 (super_blocks s));
}.

Record kept (P : Z -> Prop) (s s' : st) : Prop := {
  k_wf : sfs_wf s';
  k_super : super_blocks s' = super_blocks s;
  k_used b : used s b -> ~ P b -> used s' b;
  k_blk b : used s b -> ~ P b -> blk s' b = blk s b;
}.

Definition none (b : Z) : Prop := False.

Lemma not_none b : ~ none b.
Proof. by intros []. Qed.

Lemma kept_refl P s : sfs_wf s -> kept P s s.
Proof. by split. Qed.

Lemma kept_trans P P' s s1 s2 :
  kept P s s1 -> kept P' s1 s2 -> (forall b, used s b -> P' b -> P b) -> kept P s s2.
Proof.
  intros H1 H2 HP. split.
  - apply H2.
  - rewrite (k_super _ _ _ H2). apply H1.
  - intros b Hu Hb. apply (k_used _ _ _ H2); [by apply H1|]. intros Hc. by apply Hb, HP.
  - intros b Hu Hb. assert (~ P' b) by (intros Hc; by apply Hb, HP).
    rewrite (k_blk _ _ _ H2), (k_blk _ _ _ H1) by (done || by apply H1). done.
Qed.

Lemma kept_weaken (P P' : Z -> Prop) s s' : kept P s s' -> (forall b, P b -> P' b) -> kept P' s s'.
Proof. intros H HP. split; [apply H|apply H|..]; intros b Hu Hb; apply H; auto. Qed.

Lemma kept_weaken_used (P P' : Z -> Prop) s s' : kept P s s' -> (forall b, used s b -> P b -> P' b) -> kept P' s s'.
Proof. intros H HP. split; [apply H|apply H|..]; intros b Hu Hb; apply H; auto. Qed.

Lemma kept_none s s' b : kept none s s' -> used s b -> used s' b /\ blk s' b = blk s b.
Proof. intros H Hu. split; apply H; auto. Qed.

(** ** Transfers of a block *)

(** After a transfer only the device and the buffer have changed. *)
Definition after_io (buf : list Z) (d : D) (s : st) : st := set_sfs_buffer buf (set_dev d s).

Definition io_done (s : st) (write : bool) (data : list Z) (b r : Z) (d : D) : Prop :=
  dev_wf d /\ forall c, 0 <= c < super_blocks s ->
    content d c = if decide (r = 0 /\ write = true /\ c = b) then data else blk s c.

Lemma wp_buf_get buf pos len s (Q : list Z -> st -> Prop) :
  0 <= pos -> 0 <= len -> pos + len <= Z.of_nat (length buf) -> Q (slice pos len buf) s -> wp (buf_get buf pos len) Q s.
Proof. intros. unfold buf_get. ksteps; [|done]. rewrite !andb_true_iff, !Z.leb_le. lia. Qed.

Lemma wp_buf_put buf pos data s (Q : list Z -> st -> Prop) :
  0 <= pos -> pos + Z.of_nat (length data) <= Z.of_nat (length buf) -> Q (splice pos data buf) s -> wp (buf_put buf pos data) Q s.
Proof. intros. unfold buf_put. ksteps; [|done]. rewrite !andb_true_iff, !Z.leb_le. lia. Qed.

Lemma wp_rwblock_nolock buf pos b write check s (Q : Z * list Z -> st -> Prop) :
  dev_wf (dev s) -> super_blocks s <= d_blocks dv -> super_blocks s <= 2 ^ 20 ->
  0 <= b < super_blocks s -> (b <> 0 \/ check = false) ->
  0 <= pos -> pos + SFS_BLKSIZE <= Z.of_nat (length buf) -> Forall is_byte buf ->
  (forall r blk' d', block_ok blk' -> io_done s write (slice pos SFS_BLKSIZE buf) b r d' ->
     (r = 0 \/ write = true -> blk' = if write then slice pos SFS_BLKSIZE buf else blk s b) ->
     Q (r, splice pos blk' buf) (set_dev d' s)) ->
  wp (sfs_rwblock_nolock dv buf pos b write check) Q s.
Proof.
  intros Hd Hsb Hsm Hb Hc Hp Hl Hbs HQ. unfold sfs_rwblock_nolock. kstep. kstep. kstep. kstep.
  { rewrite andb_true_iff, Z.ltb_lt. split; [|lia]. destruct Hc as [Hc| ->]; [|apply orb_true_r].
    apply Z.eqb_neq in Hc. by rewrite Hc. }
  kstep. apply wp_buf_get; [done|done|done|].
  assert (Hok : block_ok (slice pos SFS_BLKSIZE buf)).
  { split; [apply length_slice; unfold SFS_BLKSIZE in *; lia|by apply Forall_slice]. }
  kstep. unfold in_dev. kstep. rewrite uwrap_small by (unfold SFS_BLKSIZE; lia).
  eapply wp_mono; [apply (d_io_law _ write _ b); [done|done|lia]|].
  intros [r blk'] d' (Hd'&Hb'&Hr&Hcont). kstep. apply wp_buf_put; [done| |].
  - destruct Hb' as [E _]. unfold SFS_BLKSIZE in *. lia.
  - apply wp_ret. apply HQ; [done| |done]. split; [done|]. intros c Hc'. apply Hcont. lia.
Qed.

Lemma wp_rw_sfs_buffer b write check s (Q : Z -> st -> Prop) :
  dev_wf (dev s) -> super_blocks s <= d_blocks dv -> super_blocks s <= 2 ^ 20 -> block_ok (sfs_buffer s) ->
  0 <= b < super_blocks s -> (b <> 0 \/ check = false) ->
  (forall r buf' d', block_ok buf' -> io_done s write (sfs_buffer s) b r d' ->
     (r = 0 \/ write = true -> buf' = if write then sfs_buffer s else blk s b) -> Q r (after_io buf' d' s)) ->
  wp (rw_sfs_buffer dv b write check) Q s.
Proof.
  intros Hd Hsb Hsm [Hlen Hbs] Hb Hc HQ. unfold rw_sfs_buffer. kstep. kstep. kstep.
  assert (Hall : slice 0 SFS_BLKSIZE (sfs_buffer s) = sfs_buffer s) by (rewrite <-Hlen; apply slice_all).
  apply wp_rwblock_nolock; [done..|lia|done|]. rewrite Hall. intros r blk' d' Hok Hio Hr.
  kstep. kstep. rewrite splice_all by (destruct Hok as [E _]; lia). apply wp_ret. by apply HQ.
Qed.

Lemma unlock_after_io buf d s : io_sem s = false -> set_io_sem false (after_io buf d (set_io_sem true s)) = after_io buf d s.
Proof. intros E. destruct s. cbn in *. by subst. Qed.

Lemma unlock_twice buf d x buf1 d1 s :
  io_sem s = false ->
  set_io_sem false (after_io buf d (set_sfs_buffer x (after_io buf1 d1 (set_io_sem true s)))) = after_io buf d s.
Proof. intros E. destruct s. cbn in *. by subst. Qed.

Lemma wf_after_io s buf d : sfs_wf s -> dev_wf d -> block_ok buf -> sfs_wf (after_io buf d s).
Proof. intros [] Hd Hb. by split. Qed.

Lemma kept_io (P : Z -> Prop) s write data b r buf d :
  sfs_wf s -> block_ok buf -> io_done s write data b r d -> (write = true -> r = 0 -> P b) -> kept P s (after_io buf d s).
Proof.
  intros H Hb [Hd Hio] HP. split; [by apply wf_after_io|done|done|]. intros c [Hc _] Hn. unfold blk at 1. cbn.
  rewrite Hio by lia. destruct (decide _) as [(Hr&Hw&->)|]; [|done]. by destruct (Hn (HP Hw Hr)).
Qed.

(** The state after a transfer that is not a write, or has failed. *)
Lemma kept_read s write data b r buf d :
  sfs_wf s -> block_ok buf -> io_done s write data b r d -> (r = 0 -> write = false) -> kept none s (after_io buf d s).
Proof. intros H Hb Hio Hw. eapply kept_io; [done..|]. intros -> Hr. by specialize (Hw Hr). Qed.

Lemma wp_lock_io s (Q : () -> st -> Prop) : sfs_wf s -> Q () (set_io_sem true s) -> wp lock_sfs_io Q s.
Proof. intros H HQ. unfold lock_sfs_io. ksteps; [by rewrite (w_io _ H)|]. done. Qed.

Lemma bounds_assert offset len s (Q : () -> st -> Prop) :
  0 <= offset -> offset < SFS_BLKSIZE -> offset + len <= SFS_BLKSIZE -> Q () s ->
  wp (assert ((0 <=? offset) && (offset <? SFS_BLKSIZE) && (offset + len <=? SFS_BLKSIZE))) Q s.
Proof. intros. apply wp_assert; [|done]. rewrite !andb_true_iff, !Z.leb_le, Z.ltb_lt. lia. Qed.

Lemma wp_sfs_rbuf buf pos len b offset s (Q : Z * list Z -> st -> Prop) :
  sfs_wf s -> 0 < b < super_blocks s ->
  0 <= offset -> offset < SFS_BLKSIZE -> 0 <= len -> offset + len <= SFS_BLKSIZE ->
  0 <= pos -> pos + len <= Z.of_nat (length buf) ->
  (forall r s', kept none s s' -> inodes s' = inodes s -> freemap s' = freemap s ->
     Q (r, if decide (r = 0) then splice pos (slice offset len (blk s b)) buf else buf) s') ->
  wp (sfs_rbuf dv buf pos len b offset) Q s.
Proof.
  intros H Hb Ho Ho' Hl Hol Hp Hpl HQ. unfold sfs_rbuf. kstep. apply bounds_assert; [done..|].
  kstep. apply wp_lock_io; [done|]. kstep.
  apply wp_rw_sfs_buffer; [apply H|apply H|apply H|apply H|cbn; lia|left; lia|].
  intros r buf' d' Hb' Hio Hr. kstep.
  assert (Hend : Q (r, if decide (r = 0) then splice pos (slice offset len (blk s b)) buf else buf) (after_io buf' d' s)).
  { apply HQ; [|done|done]. eapply kept_read; [done|done|exact Hio|done]. }
  case_bool_decide as E.
  - rewrite decide_True in Hend by done. specialize (Hr (or_introl E)). cbv iota in Hr. cbn [set_io_sem dev blk] in Hr.
    kstep. kstep. kstep. cbn [after_io set_sfs_buffer sfs_buffer]. destruct Hb' as [Hlen' _].
    apply wp_buf_get; [done|done|lia|]. apply wp_buf_put; [done|rewrite length_slice by lia; done|].
    kstep. unfold unlock_sfs_io. kstep. fold (after_io buf' d' (set_io_sem true s)).
    rewrite unlock_after_io by apply H. apply wp_ret. subst buf'. exact Hend.
  - rewrite decide_False in Hend by done. kstep. kstep. unfold unlock_sfs_io. kstep.
    rewrite unlock_after_io by apply H. by apply wp_ret.
Qed.

Lemma wp_sfs_wbuf buf pos len b offset s (Q : Z -> st -> Prop) :
  sfs_wf s -> 0 < b < super_blocks s ->
  0 <= offset -> offset < SFS_BLKSIZE -> 0 <= len -> offset + len <= SFS_BLKSIZE ->
  0 <= pos -> pos + len <= Z.of_nat (length buf) -> Forall is_byte buf ->
  (forall r s', kept (fun c => c = b) s s' -> inodes s' = inodes s -> freemap s' = freemap s ->
     blk s' b = (if decide (r = 0) then splice offset (slice pos len buf) (blk s b) else blk s b) -> Q r s') ->
  wp (sfs_wbuf dv buf pos len b offset) Q s.
Proof.
  intros H Hb Ho Ho' Hl Hol Hp Hpl Hby HQ. unfold sfs_wbuf. kstep. apply bounds_assert; [done..|].
  kstep. apply wp_lock_io; [done|]. kstep.
  apply wp_rw_sfs_buffer; [apply H|apply H|apply H|apply H|cbn; lia|left; lia|].
  intros r buf' d' Hb' Hio Hr. kstep. case_bool_decide as E.
  - specialize (Hr (or_introl E)). cbv iota in Hr. kstep. apply wp_buf_get; [done..|]. kstep. kstep. kstep.
    set (data := slice pos len buf). cbn [after_io set_sfs_buffer sfs_buffer].
    assert (Hd : Z.of_nat (length data) = len) by (by apply length_slice).
    apply wp_buf_put; [done|destruct Hb' as [Hlen' _]; lia|]. kstep. kstep.
    set (new := splice offset data buf'). set (s1 := set_sfs_buffer new _).
    assert (Hnew : block_ok new) by (apply splice_block; [done|by apply Forall_slice|done|lia]).
    apply wp_rw_sfs_buffer; [apply Hio|apply H|apply H|done|cbn; lia|left; lia|].
    intros r2 buf2 d2 Hb2 Hio2 Hr2. kstep. unfold unlock_sfs_io. kstep. apply wp_ret.
    replace (set_io_sem false (after_io buf2 d2 s1)) with (after_io buf2 d2 s) by (symmetry; apply unlock_twice, H).
    destruct Hio as [_ Hio], Hio2 as [Hd2 Hio2]. cbn in Hio, Hio2.
    assert (Hio' : io_done s true new b r2 d2).
    { split; [done|]. intros c Hc. rewrite Hio2 by done. destruct (decide _); [done|]. unfold blk. cbn. rewrite Hio by done.
      apply decide_False. naive_solver. }
    apply HQ; [by eapply kept_io|done|done|]. unfold blk at 1. cbn. rewrite (proj2 Hio') by lia.
    destruct (decide (r2 = 0)) as [E2|E2]; [|apply decide_False; naive_solver].
    rewrite decide_True by done. unfold new. rewrite Hr. done.
  - kstep. kstep. unfold unlock_sfs_io. kstep. rewrite unlock_after_io by apply H. apply wp_ret.
    apply HQ; [|done|done|].
    + eapply kept_weaken; [eapply kept_read; [done|done|exact Hio|done]|done].
    + rewrite decide_False by done. destruct Hio as [_ Hio]. unfold blk at 1. cbn. rewrite Hio by (cbn; lia).
      apply decide_False. naive_solver.
Qed.

(** One whole block to or from a buffer. *)
Lemma wp_sfs_rwblock1 buf pos b write s (Q : Z * list Z -> st -> Prop) :
  sfs_wf s -> 0 < b < super_blocks s -> 0 <= pos -> pos + SFS_BLKSIZE <= Z.of_nat (length buf) -> Forall is_byte buf ->
  (forall r buf' s', kept (fun c => write = true /\ c = b) s s' -> inodes s' = inodes s -> freemap s' = freemap s ->
     blk s' b = (if decide (r = 0 /\ write = true) then slice pos SFS_BLKSIZE buf else blk s b) ->
     (exists blk', block_ok blk' /\ buf' = splice pos blk' buf /\
        (r = 0 \/ write = true -> blk' = if write then slice pos SFS_BLKSIZE buf else blk s b)) -> Q (r, buf') s') ->
  wp (sfs_rwblock dv buf pos b 1 write) Q s.
Proof.
  intros H Hb Hp Hl Hby HQ. unfold sfs_rwblock. kstep. apply wp_lock_io; [done|]. kstep.
  change (Z.to_nat 1) with 1%nat. cbn [rwblocks]. kstep.
  apply wp_rwblock_nolock; [apply H|apply H|apply H|cbn; lia|left; lia|done|done|done|].
  intros r blk' d' Hok Hio Hr.
  assert (Hfin : Q (r, splice pos blk' buf) (set_io_sem false (set_dev d' (set_io_sem true s)))).
  { replace (set_io_sem false _) with (after_io (sfs_buffer s) d' s)
      by (pose proof (w_io _ H) as E; destruct s; cbn in *; by subst).
    apply HQ; [|done|done| |].
    - eapply kept_io; [done|apply H|exact Hio|done].
    - unfold blk at 1. cbn. destruct Hio as [_ Hio]. rewrite Hio by (cbn; lia).
      destruct (decide (r = 0 /\ write = true)) as [[]|]; [by rewrite decide_True|apply decide_False; naive_solver].
    - by exists blk'. }
  case_bool_decide as E; [|destruct (decide (r = 0)) as [->|]; [|done]]; kstep; kstep; unfold unlock_sfs_io; kstep; by apply wp_ret.
Qed.

Lemma wp_sfs_clear_block1 b s (Q : Z -> st -> Prop) :
  sfs_wf s -> 0 < b < super_blocks s ->
  (forall r s', kept (fun c => c = b) s s' -> inodes s' = inodes s -> freemap s' = freemap s ->
     (r = 0 -> blk s' b = replicate (Z.to_nat SFS_BLKSIZE) 0) -> Q r s') ->
  wp (sfs_clear_block dv b 1) Q s.
Proof.
  intros H Hb HQ. unfold sfs_clear_block. kstep. kstep; [done|]. kstep. apply wp_lock_io; [done|]. kstep. kstep. kstep.
  change (Z.to_nat 1) with 1%nat. cbn [clear_blocks]. kstep. set (z := replicate _ 0).
  apply wp_rw_sfs_buffer; [apply H|apply H|apply H|apply zero_block|cbn; lia|left; lia|].
  intros r buf' d' Hok Hio Hr.
  assert (Hfin : Q r (set_io_sem false (after_io buf' d' (set_sfs_buffer z (set_io_sem true s))))).
  { replace (set_io_sem false _) with (after_io buf' d' s) by (pose proof (w_io _ H) as E; destruct s; cbn in *; by subst).
    assert (Hio' : io_done s true z b r d') by exact Hio.
    apply HQ; [by eapply kept_io|done|done|]. intros ->. unfold blk. cbn. rewrite (proj2 Hio') by lia. by rewrite decide_True. }
  case_bool_decide as E; kstep; unfold unlock_sfs_io; kstep; by apply wp_ret.
Qed.

(** ** The map of free blocks *)
Lemma wp_block_inuse b s (Q : bool -> st -> Prop) :
  sfs_wf s -> 0 < b < super_blocks s -> Q (negb (free_bit (freemap s) b)) s -> wp (sfs_block_inuse b) Q s.
Proof.
  intros H Hb HQ. unfold sfs_block_inuse. kstep. kstep.
  rewrite (proj2 (Z.eqb_neq b 0)), (proj2 (Z.ltb_lt b _)) by lia. cbn [negb andb]. kstep. unfold in_map. kstep.
  eapply wp_mono; [apply wp_bitmap_test; [apply H|pose proof (w_bits _ H); lia]|]. intros r m [-> Hr]. apply wp_ret.
  replace (set_freemap (freemap s) s) with s by (by destruct s).
  replace (r =? 0) with (negb (free_bit (freemap s) b)); [done|].
  destruct (Z.eqb_spec r 0) as [E|E], (free_bit (freemap s) b); naive_solver.
Qed.

Lemma wp_assert_inuse b s (Q : () -> st -> Prop) : sfs_wf s -> used s b -> Q () s -> wp (assert_inuse b) Q s.
Proof.
  intros H [Hb Hu] HQ. unfold assert_inuse. kstep. apply wp_block_inuse; [done|done|]. rewrite Hu. by kstep.
Qed.

(** The state once bit [b] of the map has been given the value [v]. *)
Lemma wf_set_bit s m b v u :
  sfs_wf s -> bitmap_wf m -> 0 < b < super_blocks s -> bit_set (freemap s) m b v ->
  u = unused_blocks s + (if v then 1 else 0) - (if free_bit (freemap s) b then 1 else 0) ->
  sfs_wf (set_super u (set_freemap m s)).
Proof.
  intros H Hm Hb [Hn Hbit] Hu. destruct H. split; cbn; try done.
  - by rewrite Hn.
  - intros c Hc Hf. rewrite Hbit in Hf by done. case_decide; [by subst|eauto].
  - rewrite Hu, w_unused0. rewrite (count_change (free_bit (freemap s)) (free_bit m) (seqZ 0 (super_blocks s)) b);
      [|apply NoDup_seqZ|apply elem_of_seqZ; lia|].
    + rewrite (Hbit b) by lia. rewrite decide_True by done. destruct v, (free_bit (freemap s) b); lia.
    + intros c Hc%elem_of_seqZ Hne. rewrite Hbit by lia. by rewrite decide_False.
Qed.

Lemma wp_sfs_block_alloc s (Q : Z * Z -> st -> Prop) :
  sfs_wf s ->
  (forall r b s', r <> 0 -> kept none s s' -> inodes s' = inodes s -> Q (r, b) s') ->
  (forall b s', kept none s s' -> inodes s' = inodes s -> ~ used s b -> used s' b ->
     blk s' b = replicate (Z.to_nat SFS_BLKSIZE) 0 -> Q (0, b) s') ->
  wp (sfs_block_alloc dv) Q s.
Proof.
  intros H HE HS. unfold sfs_block_alloc. kstep. unfold in_map. kstep.
  eapply wp_mono; [apply wp_bitmap_alloc, H|]. intros [r [b|]] m [Hm Hr].
  2:{ destruct Hr as (->&->&_). apply wp_ret, HE; [done| |done].
      replace (set_freemap (freemap s) s) with s by (by destruct s). by apply kept_refl. }
  destruct Hr as (->&Hb&Hf&_&Hset). kstep. kstep. cbn [set_freemap unused_blocks].
  pose proof (w_free _ H b ltac:(lia) Hf) as Hr.
  pose proof (count_pos (free_bit (freemap s)) (seqZ 0 (super_blocks s)) b ltac:(apply elem_of_seqZ; lia) Hf) as Hc.
  rewrite <-(w_unused _ H) in Hc. kstep. kstep; [by apply Z.ltb_lt|]. kstep. kstep.
  assert (H1 : sfs_wf (set_super (unused_blocks s - 1) (set_freemap m s))).
  { eapply wf_set_bit; [done|done|done|exact Hset|]. rewrite Hf. lia. }
  set (s1 := set_super _ _) in *.
  assert (Hu1 : used s1 b) by (split; [done|]; cbn; rewrite (proj2 Hset) by lia; by rewrite decide_True).
  assert (Hk1 : kept none s s1).
  { split; [done|done| |done]. intros c [Hc1 Hc2] _. split; [done|]. cbn. rewrite (proj2 Hset) by lia. by case_decide. }
  assert (Hn : ~ used s b) by (intros [_ Hu]; by rewrite Hf in Hu).
  kstep. apply wp_assert_inuse; [done|done|]. kstep. apply wp_sfs_clear_block1; [done|apply Hu1|].
  intros r s2 Hk2 Hi2 Hf2 Hz. apply wp_ret.
  assert (Hk : kept none s s2) by (eapply kept_trans; [exact Hk1|exact Hk2|]; intros c Hc1 ->; by apply Hn).
  destruct (decide (r = 0)) as [->|Hr0]; [|by apply HE].
  apply HS; [done|by rewrite Hi2|done| |by apply Hz]. destruct Hu1 as [Hu1 Hu2]. split; [|by rewrite Hf2].
  by rewrite (k_super _ _ _ Hk2).
Qed.

Lemma wp_sfs_block_free b s (Q : () -> st -> Prop) :
  sfs_wf s -> used s b ->
  (forall s', kept (fun c => c = b) s s' -> inodes s' = inodes s -> dev s' = dev s -> ~ used s' b ->
     (forall c, used s' c -> used s c) -> Q () s') ->
  wp (sfs_block_free b) Q s.
Proof.
  intros H Hu HQ. unfold sfs_block_free. kstep. apply wp_assert_inuse; [done|done|]. kstep. unfold in_map. kstep.
  destruct Hu as [Hb Hf].
  eapply wp_mono; [apply wp_bitmap_free; [apply H|pose proof (w_bits _ H); lia|done]|].
  intros [] m [Hm Hset]. kstep. pose proof (count_bounds (free_bit (freemap s)) (seqZ 0 (super_blocks s))) as Hc.
  rewrite length_seqZ, <-(w_unused _ H) in Hc. pose proof (w_small _ H). cbn [unused_blocks set_freemap].
  rewrite uwrap_small by lia.
  assert (H1 : sfs_wf (set_super (unused_blocks s + 1) (set_freemap m s))).
  { eapply wf_set_bit; [done|done|done|exact Hset|]. rewrite Hf. lia. }
  apply HQ; [|done|done| |].
  - split; [done|done| |done]. intros c [Hc1 Hc2] Hn. split; [done|]. cbn. rewrite (proj2 Hset) by lia. by rewrite decide_False.
  - intros [_ Hu]. cbn in Hu. rewrite (proj2 Hset) in Hu by lia. by rewrite decide_True in Hu.
  - intros c [Hc1 Hc2]. split; [done|]. cbn in Hc1, Hc2. rewrite (proj2 Hset) in Hc2 by lia. by case_decide.
Qed.
End blocks.

#[export] Hint Resolve not_none : core.
