(* ===== verification/Disk.v ===== *)
(** kern/driver/ide.c, ramdisk.c and kern/fs/devs/dev_disk0.c: the disks are
    images in memory, reached in sectors; the device disk0 transfers blocks
    through a buffer of its own.  The theorem shows that it is a [BlockDevice],
    as the file system of [Sfs] asks for. *)
From S2P Require Import Prelude Cstring Iobuf Sfs SfsBlocks.
#[local] Abbreviation length := Datatypes.length.

(** ** ide.h, fs.h *)

Definition MAX_IDE := 4.
Definition MAX_NSECS := 128.
Definition MAX_DISK_NSECS := 2 ^ 28.
Definition SECTSIZE := 512.
Definition SWAP_DEV_NO := 1.
Definition DISK0_DEV_NO := 2.

(** The memory at [iobase] is the list [image]. *)
Record ide_device := mk_ide { valid : bool; size : Z; image : list Z }.

Record disks := mk_disks {
  ide_devices : gmap Z ide_device;
  disk0_buffer : list Z;
  disk0_sem : bool;
}.
Definition set_ide (v : gmap Z ide_device) (s : disks) := mk_disks v (disk0_buffer s) (disk0_sem s).
Definition set_disk0_buffer (v : list Z) (s : disks) := mk_disks (ide_devices s) v (disk0_sem s).
Definition set_disk0_sem (v : bool) (s : disks) := mk_disks (ide_devices s) (disk0_buffer s) v.

(** ** ramdisk.c *)

Definition check_initrd (img : list Z) : bool := negb (bool_decide (img = [])).

(** The number of sectors that [dev] can transfer; the test [nsecs < 0] that
    follows it in C is about a [size_t]. *)
Definition ramdisk_nsecs (dev : ide_device) (secno nsecs : Z) : Z :=
  let rest := u64 (size dev - secno) in if nsecs <? rest then nsecs else rest.

(** What is copied to [dst]. *)
Definition ramdisk_read (dev : ide_device) (secno nsecs : Z) : K disks (Z * list Z) :=
  let nsecs := ramdisk_nsecs dev secno nsecs in
  assert ((secno + nsecs) * SECTSIZE <=? Z.of_nat (length (image dev)));;
  mret (0, slice (secno * SECTSIZE) (nsecs * SECTSIZE) (image dev)).

(** [src] has [nsecs] sectors. *)
Definition ramdisk_write (ideno : Z) (dev : ide_device) (secno : Z) (src : list Z) (nsecs : Z) : K disks Z :=
  let nsecs := ramdisk_nsecs dev secno nsecs in
  assert (((secno + nsecs) * SECTSIZE <=? Z.of_nat (length (image dev))) && (nsecs * SECTSIZE <=? Z.of_nat (length src)));;
  let img := splice (secno * SECTSIZE) (slice 0 (nsecs * SECTSIZE) src) (image dev) in
  modify (fun s => set_ide (<[ideno := mk_ide (valid dev) (size dev) img]> (ide_devices s)) s);;
  mret 0.

(** [initrd devno] is the image that is linked into the kernel. *)
Definition ramdisk_init (initrd : Z -> list Z) (devno : Z) : K disks () :=
  if (devno =? SWAP_DEV_NO) || (devno =? DISK0_DEV_NO) then
    let img := initrd devno in
    let d := if check_initrd img then mk_ide true (u32 (Z.of_nat (length img)) / SECTSIZE) img else mk_ide false 0 [] in
    modify (fun s => set_ide (<[devno := d]> (ide_devices s)) s)
  else panic.

(** ** ide.c *)

Definition ide_device_valid (ideno : Z) : K disks bool :=
  gets (fun s => (0 <=? ideno) && (ideno <? MAX_IDE) && match ide_devices s !! ideno with Some d => valid d | None => false end).

Definition ide_init (initrd : Z -> list Z) : K disks () :=
  modify (set_ide (list_to_map ((fun n => (n, mk_ide false 0 [])) <$> seqZ 0 MAX_IDE)));;
  ramdisk_init initrd SWAP_DEV_NO;;
  v ← ide_device_valid SWAP_DEV_NO; assert v;;
  ramdisk_init initrd DISK0_DEV_NO;;
  v ← ide_device_valid DISK0_DEV_NO; assert v.

Definition ide_device_size (ideno : Z) : K disks Z :=
  v ← ide_device_valid ideno;
  if (v : bool) then s ← get; d ← unwrap (ide_devices s !! ideno); mret (size d) else mret 0.

(** The assertions of [ide_read_secs] and [ide_write_secs]. *)
Definition ide_checked (ideno secno nsecs : Z) : K disks ide_device :=
  v ← ide_device_valid ideno;
  assert ((nsecs <=? MAX_NSECS) && v);;
  assert ((secno <? MAX_DISK_NSECS) && (secno + nsecs <=? MAX_DISK_NSECS));;
  s ← get; unwrap (ide_devices s !! ideno).

Definition ide_read_secs (ideno secno nsecs : Z) : K disks (Z * list Z) :=
  d ← ide_checked ideno secno nsecs; ramdisk_read d secno nsecs.

Definition ide_write_secs (ideno secno : Z) (src : list Z) (nsecs : Z) : K disks Z :=
  d ← ide_checked ideno secno nsecs; ramdisk_write ideno d secno src nsecs.

(** ** dev_disk0.c *)

Definition DISK0_BLKSIZE := 4096.
Definition DISK0_BUFSIZE := 4 * DISK0_BLKSIZE.
Definition DISK0_BLK_NSECT := DISK0_BLKSIZE / SECTSIZE.

Definition lock_disk0 : K disks () := s ← get; assert (negb (disk0_sem s));; modify (set_disk0_sem true).
Definition unlock_disk0 : K disks () := modify (set_disk0_sem false).

Definition disk0_read_blks_nolock (blkno nblks : Z) : K disks () :=
  '(r, data) ← ide_read_secs DISK0_DEV_NO (u32 (blkno * DISK0_BLK_NSECT)) (u32 (nblks * DISK0_BLK_NSECT));
  assert (r =? 0);;
  modify (fun s => set_disk0_buffer (splice 0 data (disk0_buffer s)) s).

Definition disk0_write_blks_nolock (blkno nblks : Z) : K disks () :=
  s ← get;
  r ← ide_write_secs DISK0_DEV_NO (u32 (blkno * DISK0_BLK_NSECT)) (disk0_buffer s) (u32 (nblks * DISK0_BLK_NSECT));
  assert (r =? 0).

(** [iobuf_move] between [disk0_buffer] and the caller's memory [buf]; what is
    copied, the descriptor and [buf]. *)
Definition disk0_move (iob : iobuf) (buf : list Z) (len : Z) (m2b : bool) : K disks (Z * iobuf * list Z) :=
  let alen := if io_resid iob >? len then len else io_resid iob in
  if alen >? 0 then
    s ← get;
    let iob' := mk_iobuf (io_base iob + alen) (io_offset iob + alen) (io_len iob) (u64 (io_resid iob - alen)) in
    if m2b then mret (alen, iob', splice (io_base iob) (slice 0 alen (disk0_buffer s)) buf)
    else modify (set_disk0_buffer (splice 0 (slice (io_base iob) alen buf) (disk0_buffer s)));; mret (alen, iob', buf)
  else mret (alen, iob, buf).

(** The loop of [disk0_io]. *)
Fixpoint disk0_loop (fuel : nat) (write : bool) (iob : iobuf) (buf : list Z) (resid blkno : Z) : K disks (iobuf * list Z) :=
  if resid =? 0 then mret (iob, buf)
  else
    match fuel with
    | O => timeout
    | S fuel =>
        if write then
          '(copied, iob, buf) ← disk0_move iob buf DISK0_BUFSIZE false;
          assert (negb (copied =? 0) && (copied <=? resid) && (copied mod DISK0_BLKSIZE =? 0));;
          let nblks := u32 (copied / DISK0_BLKSIZE) in
          disk0_write_blks_nolock blkno nblks;;
          disk0_loop fuel write iob buf (u64 (resid - copied)) (u32 (blkno + nblks))
        else
          let alen := if DISK0_BUFSIZE >? resid then resid else DISK0_BUFSIZE in
          let nblks := u32 (alen / DISK0_BLKSIZE) in
          disk0_read_blks_nolock blkno nblks;;
          '(copied, iob, buf) ← disk0_move iob buf alen true;
          assert ((copied =? alen) && (copied mod DISK0_BLKSIZE =? 0));;
          disk0_loop fuel write iob buf (u64 (resid - copied)) (u32 (blkno + nblks))
    end.

(** [d_blocks] is the size of the device in blocks. *)
Definition disk0_io (d_blocks : Z) (iob : iobuf) (buf : list Z) (write : bool) : K disks (Z * iobuf * list Z) :=
  let offset := io_offset iob in
  let resid := io_resid iob in
  let blkno := u32 (offset / DISK0_BLKSIZE) in
  let nblks := u32 (resid / DISK0_BLKSIZE) in
  if bool_decide (offset mod DISK0_BLKSIZE <> 0) || bool_decide (resid mod DISK0_BLKSIZE <> 0) then mret (- E_INVAL, iob, buf)
  else if u32 (blkno + nblks) >? d_blocks then mret (- E_INVAL, iob, buf)
  else if nblks =? 0 then mret (0, iob, buf)
  else
    lock_disk0;;
    '(iob, buf) ← disk0_loop (Z.to_nat (resid / DISK0_BLKSIZE)) write iob buf resid blkno;
    unlock_disk0;;
    mret (0, iob, buf).

(** The device, its size taken at initialisation; the buffer comes from [kmalloc]. *)
Definition disk0_device (nsec : Z) : device disks := {|
  d_blocks := nsec / DISK0_BLK_NSECT;
  d_io write buf offset :=
    '(r, _, buf) ← disk0_io (nsec / DISK0_BLK_NSECT) (iobuf_init 0 (Z.of_nat (length buf)) offset) buf write;
    mret (r, buf);
|}.

Definition disk0_device_init (mem : list Z) : K disks (device disks) :=
  v ← ide_device_valid DISK0_DEV_NO; assert v;;
  n ← ide_device_size DISK0_DEV_NO;
  modify (set_disk0_sem false);;
  modify (set_disk0_buffer mem);;
  mret (disk0_device n).

(** ** Properties *)

(** The disk holds [img], [nsec] sectors. *)
Record holds (nsec : Z) (img : list Z) (s : disks) : Prop := {
  h_disk : ide_devices s !! DISK0_DEV_NO = Some (mk_ide true nsec img);
  h_img : Z.of_nat (length img) = nsec * 512;
  h_bytes : Forall is_byte img;
  h_nsec : 0 <= nsec <= 2 ^ 28;
  h_buf : Z.of_nat (length (disk0_buffer s)) = 16384;
  h_bufbytes : Forall is_byte (disk0_buffer s);
}.

Lemma holds_buffer nsec img s b :
  holds nsec img s -> Z.of_nat (length b) = 16384 -> Forall is_byte b -> holds nsec img (set_disk0_buffer b s).
Proof. by intros [] ? ?. Qed.

Lemma holds_sem nsec img s v : holds nsec img s -> holds nsec img (set_disk0_sem v s).
Proof. by intros []. Qed.

Lemma sectors k : 0 <= k < 2 ^ 26 -> u32 (k * DISK0_BLK_NSECT) = 8 * k.
Proof. intros. change DISK0_BLK_NSECT with 8. rewrite uwrap_small; lia. Qed.

Lemma wp_ide_checked nsec img s secno nsecs (Q : ide_device -> disks -> Prop) :
  holds nsec img s -> 0 <= secno -> 0 < nsecs <= 128 -> secno + nsecs <= nsec ->
  Q (mk_ide true nsec img) s -> wp (ide_checked DISK0_DEV_NO secno nsecs) Q s.
Proof.
  intros [Hd _ _ Hn _ _] Hs Hk Hle HQ. unfold ide_checked, ide_device_valid. kstep. kstep. rewrite Hd. cbn [valid].
  kstep. kstep. { apply andb_true_iff. split; [apply Z.leb_le; unfold MAX_NSECS; lia|done]. }
  kstep. kstep. { apply andb_true_iff. unfold MAX_DISK_NSECS. rewrite Z.ltb_lt, Z.leb_le. lia. }
  kstep. kstep. rewrite Hd. by kstep.
Qed.

Lemma ramdisk_nsecs_all nsec img secno nsecs :
  0 <= nsec <= 2 ^ 28 -> 0 <= secno -> 0 <= nsecs -> secno + nsecs <= nsec -> ramdisk_nsecs (mk_ide true nsec img) secno nsecs = nsecs.
Proof. intros. unfold ramdisk_nsecs. cbn [size]. rewrite uwrap_small by lia. destruct (Z.ltb_spec nsecs (nsec - secno)); lia. Qed.

Lemma wp_disk0_read_blks nsec img s blkno nblks (Q : () -> disks -> Prop) :
  holds nsec img s -> 0 <= blkno -> 0 < nblks <= 4 -> 8 * (blkno + nblks) <= nsec ->
  (let s' := set_disk0_buffer (splice 0 (slice (4096 * blkno) (4096 * nblks) img) (disk0_buffer s)) s in
   holds nsec img s' -> Q () s') ->
  wp (disk0_read_blks_nolock blkno nblks) Q s.
Proof.
  intros H Hb Hn Hle HQ. pose proof H as [Hd Hi Hby Hnn Hl Hlb]. unfold disk0_read_blks_nolock. rewrite !sectors by lia.
  kstep. unfold ide_read_secs. kstep. eapply wp_ide_checked; [done|lia|lia|lia|]. unfold ramdisk_read. rewrite ramdisk_nsecs_all by lia.
  kstep. kstep; [apply Z.leb_le; cbn [image]; unfold SECTSIZE; lia|]. kstep. kstep. kstep; [done|]. kstep.
  cbn [image]. unfold SECTSIZE. replace (8 * blkno * 512) with (4096 * blkno) by lia. replace (8 * nblks * 512) with (4096 * nblks) by lia.
  assert (Hs : Z.of_nat (length (slice (4096 * blkno) (4096 * nblks) img)) = 4096 * nblks) by (apply length_slice; lia).
  apply HQ. apply holds_buffer; [done|rewrite length_splice; lia|by apply Forall_splice; [|apply Forall_slice]].
Qed.

Lemma wp_disk0_write_blks nsec img s blkno nblks (Q : () -> disks -> Prop) :
  holds nsec img s -> 0 <= blkno -> 0 < nblks <= 4 -> 8 * (blkno + nblks) <= nsec ->
  (forall s', disk0_buffer s' = disk0_buffer s -> disk0_sem s' = disk0_sem s ->
     holds nsec (splice (4096 * blkno) (slice 0 (4096 * nblks) (disk0_buffer s)) img) s' -> Q () s') ->
  wp (disk0_write_blks_nolock blkno nblks) Q s.
Proof.
  intros H Hb Hn Hle HQ. pose proof H as [Hd Hi Hby Hnn Hl Hlb]. unfold disk0_write_blks_nolock. rewrite !sectors by lia.
  kstep. kstep. kstep. unfold ide_write_secs. kstep. eapply wp_ide_checked; [done|lia|lia|lia|]. unfold ramdisk_write. rewrite ramdisk_nsecs_all by lia.
  cbn [image size valid]. unfold SECTSIZE. replace (8 * blkno * 512) with (4096 * blkno) by lia. replace (8 * nblks * 512) with (4096 * nblks) by lia.
  assert (Hs : Z.of_nat (length (slice 0 (4096 * nblks) (disk0_buffer s))) = 4096 * nblks) by (apply length_slice; lia).
  kstep. kstep; [rewrite andb_true_iff, !Z.leb_le; lia|]. kstep. kstep. kstep. kstep; [done|].
  apply HQ; [done|done|]. split; cbn [ide_devices set_ide disk0_buffer]; [apply lookup_insert_eq|rewrite length_splice; lia| |done|done|done].
  by apply Forall_splice; [|apply Forall_slice].
Qed.

Lemma wp_disk0_move_out iob buf n len s (Q : Z * iobuf * list Z -> disks -> Prop) :
  0 < n < 2 ^ 60 -> n = Z.min (io_resid iob) len -> io_resid iob < 2 ^ 60 ->
  Q (n, skipped iob n, buf) (set_disk0_buffer (splice 0 (slice (io_base iob) n buf) (disk0_buffer s)) s) ->
  wp (disk0_move iob buf len false) Q s.
Proof.
  intros Hn En Hr HQ. unfold disk0_move. rewrite alen_min, <-En. cbv zeta. destruct (Z.gtb_spec n 0); [|lia].
  kstep. kstep. kstep. kstep. kstep. rewrite uwrap_small by lia. exact HQ.
Qed.

Lemma wp_disk0_move_in iob buf n len s (Q : Z * iobuf * list Z -> disks -> Prop) :
  0 < n < 2 ^ 60 -> n = Z.min (io_resid iob) len -> io_resid iob < 2 ^ 60 ->
  Q (n, skipped iob n, splice (io_base iob) (slice 0 n (disk0_buffer s)) buf) s ->
  wp (disk0_move iob buf len true) Q s.
Proof.
  intros Hn En Hr HQ. unfold disk0_move. rewrite alen_min, <-En. cbv zeta. destruct (Z.gtb_spec n 0); [|lia].
  kstep. kstep. kstep. rewrite uwrap_small by lia. exact HQ.
Qed.

(** The loop moves [k] blocks, four at most at a time. *)
Section loop.
Context (nsec : Z).
Hypothesis Hnsec : nsec <= 2 ^ 28.

Definition request (iob : iobuf) (buf : list Z) (blkno k : Z) : Prop :=
  io_resid iob = 4096 * k /\ 0 <= k /\ 0 <= blkno /\ 8 * (blkno + k) <= nsec /\
  0 <= io_base iob /\ io_base iob + 4096 * k <= Z.of_nat (length buf) /\ Forall is_byte buf.

Lemma request_step iob buf blkno k m :
  request iob buf blkno k -> 0 <= m <= k -> request (skipped iob (4096 * m)) buf (blkno + m) (k - m).
Proof. unfold request. cbn. intros. destruct_and!. split_and!; (done || lia). Qed.

Lemma step_counts m blkno k : 0 <= m <= 4 -> 0 <= k <= 2 ^ 25 -> m <= k -> 0 <= blkno <= 2 ^ 25 ->
  u32 (4096 * m / DISK0_BLKSIZE) = m /\ 4096 * m mod DISK0_BLKSIZE = 0 /\
  u64 (4096 * k - 4096 * m) = 4096 * (k - m) /\ u32 (blkno + m) = blkno + m.
Proof.
  intros. unfold DISK0_BLKSIZE. rewrite (Z.mul_comm 4096 m), Z.div_mul, Z_mod_mult by done.
  rewrite !uwrap_small by lia. split_and!; (done || lia).
Qed.

Lemma skipped_twice iob a b : skipped (skipped iob a) b = skipped iob (a + b).
Proof. unfold skipped. cbn. f_equal; lia. Qed.

Lemma wp_disk0_write_loop fuel iob buf blkno k img s (Q : iobuf * list Z -> disks -> Prop) :
  holds nsec img s -> request iob buf blkno k -> k <= Z.of_nat fuel ->
  (forall s', disk0_sem s' = disk0_sem s -> holds nsec (splice (4096 * blkno) (slice (io_base iob) (4096 * k) buf) img) s' ->
     Q (skipped iob (4096 * k), buf) s') ->
  wp (disk0_loop fuel true iob buf (4096 * k) blkno) Q s.
Proof.
  revert iob blkno k img s. induction fuel as [|fuel IH]; intros iob blkno k img s H Hq Hf HQ; cbn [disk0_loop].
  all: destruct (Z.eqb_spec (4096 * k) 0) as [E|E]; [assert (k = 0) as -> by lia; apply wp_ret|].
  1,3: rewrite slice_nil, splice_nil in HQ; destruct iob; unfold skipped in HQ; cbn in HQ;
    rewrite !Z.add_0_r, Z.sub_0_r in HQ; by apply HQ.
  { destruct Hq as (_&?&_). lia. }
  pose proof Hq as (Er&Hk&Hb&Hle&Hbase&Hend&Hby). pose proof H as [_ Hi _ _ Hl _].
  set (m := Z.min k 4). assert (Hm : 0 < m <= 4 /\ m <= k) by lia.
  destruct (step_counts m blkno k) as (E1&E2&E3&E4); [lia..|].
  kstep. apply (wp_disk0_move_out iob buf (4096 * m)); [lia|rewrite Er; unfold DISK0_BUFSIZE, DISK0_BLKSIZE; lia|lia|].
  cbv beta iota. rewrite E1, E2, E3, E4. kstep. kstep.
  { rewrite !andb_true_iff, negb_true_iff, Z.eqb_neq, Z.leb_le. split_and!; (done || lia). }
  assert (Hs : Z.of_nat (length (slice (io_base iob) (4096 * m) buf)) = 4096 * m) by (apply length_slice; lia).
  kstep. eapply (wp_disk0_write_blks nsec img); [|done|lia|lia|].
  { apply holds_buffer; [done|rewrite length_splice; lia|]. apply Forall_splice; [apply H|by apply Forall_slice]. }
  intros s1 _ Es Hs1. cbn [disk0_buffer disk0_sem set_disk0_buffer] in Hs1, Es. rewrite <-Hs in Hs1 at 1.
  rewrite slice_splice_eq in Hs1 by lia.
  eapply IH; [exact Hs1|by apply request_step; [|lia]|lia|]. intros s2 Es2 Hh. cbn [io_base skipped] in Hh.
  replace (skipped (skipped iob (4096 * m)) (4096 * (k - m))) with (skipped iob (4096 * k)) by (rewrite skipped_twice; f_equal; lia).
  apply HQ; [by rewrite Es2|]. replace (4096 * k) with (4096 * m + 4096 * (k - m)) by lia.
  rewrite slice_app by lia. assert (Hs2 : Z.of_nat (length (slice (io_base iob + 4096 * m) (4096 * (k - m)) buf)) = 4096 * (k - m))
    by (apply length_slice; lia).
  rewrite <-splice_app by lia. rewrite Hs. replace (4096 * blkno + 4096 * m) with (4096 * (blkno + m)) by lia. exact Hh.
Qed.

Lemma wp_disk0_read_loop fuel iob buf blkno k img s (Q : iobuf * list Z -> disks -> Prop) :
  holds nsec img s -> request iob buf blkno k -> k <= Z.of_nat fuel ->
  (forall s', disk0_sem s' = disk0_sem s -> holds nsec img s' ->
     Q (skipped iob (4096 * k), splice (io_base iob) (slice (4096 * blkno) (4096 * k) img) buf) s') ->
  wp (disk0_loop fuel false iob buf (4096 * k) blkno) Q s.
Proof.
  revert iob buf blkno k s. induction fuel as [|fuel IH]; intros iob buf blkno k s H Hq Hf HQ; cbn [disk0_loop].
  all: destruct (Z.eqb_spec (4096 * k) 0) as [E|E]; [assert (k = 0) as -> by lia; apply wp_ret|].
  1,3: rewrite slice_nil, splice_nil in HQ; destruct iob; unfold skipped in HQ; cbn in HQ;
    rewrite !Z.add_0_r, Z.sub_0_r in HQ; by apply HQ.
  { destruct Hq as (_&?&_). lia. }
  pose proof Hq as (Er&Hk&Hb&Hle&Hbase&Hend&Hby). pose proof H as [_ Hi Hib _ Hl _].
  set (m := Z.min k 4). assert (Hm : 0 < m <= 4 /\ m <= k) by lia.
  destruct (step_counts m blkno k) as (E1&E2&E3&E4); [lia..|].
  assert (Ea : (if DISK0_BUFSIZE >? 4096 * k then 4096 * k else DISK0_BUFSIZE) = 4096 * m).
  { unfold DISK0_BUFSIZE, DISK0_BLKSIZE. destruct (Z.gtb_spec (4 * 4096) (4096 * k)); lia. }
  rewrite Ea, E1. kstep. eapply wp_disk0_read_blks; [done|done|lia|lia|]. intros s1 Hs1.
  assert (Hs : Z.of_nat (length (slice (4096 * blkno) (4096 * m) img)) = 4096 * m) by (apply length_slice; lia).
  kstep. apply (wp_disk0_move_in iob buf (4096 * m)); [lia|lia|lia|].
  cbv beta iota. rewrite E2, E3, E4. kstep. kstep. { rewrite andb_true_iff, !Z.eqb_eq. done. }
  assert (Ed : slice 0 (4096 * m) (disk0_buffer s1) = slice (4096 * blkno) (4096 * m) img).
  { rewrite <-Hs at 1. apply slice_splice_eq; lia. }
  rewrite Ed. set (buf1 := splice (io_base iob) _ buf).
  assert (Hl1 : length buf1 = length buf) by (apply length_splice; lia).
  eapply IH; [exact Hs1| |lia|].
  { apply request_step; [|lia]. unfold request. rewrite Hl1. split_and!; try done. by apply Forall_splice; [|apply Forall_slice]. }
  intros s2 Es2 Hh. cbn [io_base skipped].
  replace (skipped (skipped iob (4096 * m)) (4096 * (k - m))) with (skipped iob (4096 * k)) by (rewrite skipped_twice; f_equal; lia).
  assert (Hs2 : Z.of_nat (length (slice (4096 * (blkno + m)) (4096 * (k - m)) img)) = 4096 * (k - m)) by (apply length_slice; lia).
  assert (E5 : splice (io_base iob + 4096 * m) (slice (4096 * (blkno + m)) (4096 * (k - m)) img) buf1 =
               splice (io_base iob) (slice (4096 * blkno) (4096 * k) img) buf).
  { replace (4096 * k) with (4096 * m + 4096 * (k - m)) by lia. rewrite slice_app by lia.
    replace (4096 * blkno + 4096 * m) with (4096 * (blkno + m)) by lia.
    unfold buf1. rewrite <-Hs at 1. apply splice_app; lia. }
  rewrite E5. by apply HQ.
Qed.
End loop.

(** What a transfer does: the device refuses what is not made of whole blocks or
    passes its end, and otherwise moves everything. *)
Definition disk0_done nsec img s iob buf (write : bool) (r : Z) iob' buf' s' : Prop :=
  let o := io_offset iob in let n := io_resid iob in
  if bool_decide (o mod 4096 = 0 /\ n mod 4096 = 0 /\ o / 4096 + n / 4096 <= nsec / 8) then
    r = 0 /\ iob' = skipped iob n /\ disk0_sem s' = false /\
    if write then buf' = buf /\ holds nsec (splice o (slice (io_base iob) n buf) img) s'
    else buf' = splice (io_base iob) (slice o n img) buf /\ holds nsec img s'
  else r = - E_INVAL /\ iob' = iob /\ buf' = buf /\ s' = s.

Lemma wp_disk0_io nsec img s iob buf (write : bool) (Q : Z * iobuf * list Z -> disks -> Prop) :
  holds nsec img s -> disk0_sem s = false -> Forall is_byte buf ->
  0 <= io_offset iob -> 0 <= io_resid iob -> io_offset iob + io_resid iob < 2 ^ 44 ->
  0 <= io_base iob -> io_base iob + io_resid iob <= Z.of_nat (length buf) ->
  (forall r iob' buf' s', disk0_done nsec img s iob buf write r iob' buf' s' -> Q (r, iob', buf') s') ->
  wp (disk0_io (nsec / DISK0_BLK_NSECT) iob buf write) Q s.
Proof.
  intros H Hs Hby Ho Hr Hsmall Hb Hlen HQ. unfold disk0_io, disk0_done in *. change DISK0_BLK_NSECT with 8. change DISK0_BLKSIZE with 4096 in *.
  set (o := io_offset iob) in *. set (n := io_resid iob) in *. cbv zeta in *.
  assert (Hno : ~ (o mod 4096 = 0 /\ n mod 4096 = 0 /\ o / 4096 + n / 4096 <= nsec / 8) -> Q (- E_INVAL, iob, buf) s).
  { intros E. apply HQ. by rewrite bool_decide_false. }
  destruct (decide (o mod 4096 <> 0)) as [E1|E1].
  { rewrite (bool_decide_true (o mod 4096 <> 0)) by done. apply wp_ret, Hno. tauto. }
  rewrite (bool_decide_false (o mod 4096 <> 0)) by done. cbn [orb].
  destruct (decide (n mod 4096 <> 0)) as [E2|E2].
  { rewrite (bool_decide_true (n mod 4096 <> 0)) by done. apply wp_ret, Hno. tauto. }
  rewrite (bool_decide_false (n mod 4096 <> 0)) by done.
  assert (Eo : o = 4096 * (o / 4096)) by zlia. assert (En : n = 4096 * (n / 4096)) by zlia.
  rewrite (uwrap_small 32 (o / 4096)), (uwrap_small 32 (n / 4096)), uwrap_small by lia.
  destruct (Z.gtb_spec (o / 4096 + n / 4096) (nsec / 8)) as [E3|E3]; [apply wp_ret, Hno; lia|].
  pose proof (h_nsec _ _ _ H) as Hnn.
  destruct (Z.eqb_spec (n / 4096) 0) as [E4|E4].
  { apply wp_ret, HQ. rewrite bool_decide_true by lia. assert (n = 0) as -> by lia.
    split_and!; [done| |done|rewrite !slice_nil, !splice_nil; by destruct write].
    unfold skipped. destruct iob. cbn in *. f_equal; lia. }
  kstep. unfold lock_disk0. kstep. kstep. kstep. kstep; [by rewrite Hs|]. kstep. kstep.
  assert (Hq : request nsec iob buf (o / 4096) (n / 4096)) by (unfold request; fold n; split_and!; (done || zlia)).
  rewrite En at 2. assert (Hon : o mod 4096 = 0 /\ n mod 4096 = 0 /\ o / 4096 + n / 4096 <= nsec / 8) by lia.
  destruct write.
  - eapply (wp_disk0_write_loop nsec); [lia|by apply holds_sem|exact Hq|lia|]. intros s1 _ Hh.
    rewrite <-En, <-Eo in *. kstep. unfold unlock_disk0. kstep. kstep. apply HQ. rewrite bool_decide_true by done.
    split_and!; try done. by apply holds_sem.
  - eapply (wp_disk0_read_loop nsec); [lia|by apply holds_sem|exact Hq|lia|]. intros s1 _ Hh.
    rewrite <-En, <-Eo in *. kstep. unfold unlock_disk0. kstep. kstep. apply HQ. rewrite bool_decide_true by done.
    split_and!; try done. by apply holds_sem.
Qed.

(** ** The device disk0 *)

Definition disk_image (s : disks) : list Z := match ide_devices s !! DISK0_DEV_NO with Some d => image d | None => [] end.

Lemma holds_image nsec img s : holds nsec img s -> disk_image s = img.
Proof. intros H. unfold disk_image. by rewrite (h_disk _ _ _ H). Qed.

#[export] Program Instance disk0_block_device (nsec : Z) : BlockDevice (disk0_device nsec) := {|
  dev_wf s := holds nsec (disk_image s) s /\ disk0_sem s = false;
  content s b := slice (4096 * b) 4096 (disk_image s);
|}.
Next Obligation.
  intros nsec d b [H _] Hb. cbn in Hb. change DISK0_BLK_NSECT with 8 in Hb. split.
  - change SFS_BLKSIZE with 4096. apply length_slice; [lia|done|]. pose proof (h_img _ _ _ H). zlia.
  - apply Forall_slice, H.
Qed.
Next Obligation.
  intros nsec s write buf b [H Hs] [Hl Hby] Hb. cbn [d_io d_blocks disk0_device] in *.
  change SFS_BLKSIZE with 4096 in *. assert (Hb2 := Hb). change DISK0_BLK_NSECT with 8 in Hb2. pose proof (h_nsec _ _ _ H) as Hn.
  kstep. eapply (wp_disk0_io nsec (disk_image s)); cbn [iobuf_init io_base io_offset io_resid]; try (done || lia); [zlia|].
  intros r iob' buf' s' Hd. unfold disk0_done in Hd. cbn [iobuf_init io_base io_offset io_resid] in Hd. rewrite Hl in Hd.
  rewrite bool_decide_true in Hd by zlia. cbv zeta in Hd. destruct Hd as (->&_&Hs'&Hd). apply wp_ret.
  pose proof (h_img _ _ _ H) as Himg. rewrite (Z.mul_comm b 4096) in Hd. destruct write.
  - destruct Hd as [-> Hh]. rewrite (holds_image _ _ _ Hh) in *. split_and!; [done|done|done|done|].
    replace (slice 0 4096 buf) with buf in * by (rewrite <-Hl; by rewrite slice_all).
    intros c Hc. change DISK0_BLK_NSECT with 8 in Hc. destruct (decide (c = b)) as [->|Hne].
    + rewrite decide_True by done. rewrite <-Hl at 2. apply slice_splice_eq; zlia.
    + rewrite decide_False by tauto. apply slice_splice_ne; zlia.
  - destruct Hd as [-> Hh]. rewrite (holds_image _ _ _ Hh) in *.
    assert (Hsl : Z.of_nat (length (slice (4096 * b) 4096 (disk_image s))) = 4096) by (apply length_slice; zlia).
    rewrite splice_all by lia. split_and!; [done|done|split; [done|apply Forall_slice, H]|done|].
    intros c Hc. by rewrite decide_False by naive_solver.
Qed.

(** Property C19. The device disk0, four blocks at a time through its buffer,
    moves a request of any number of whole blocks exactly: a write puts the
    caller's bytes in place on the disk, a read the disk's bytes in the caller's
    memory, and nothing else changes.  What is not aligned, or passes the end of
    the disk, is refused without effect.  The lock is given back. *)
Theorem disk0_io_spec nsec img s iob buf (write : bool) :
  holds nsec img s -> disk0_sem s = false -> Forall is_byte buf ->
  0 <= io_offset iob -> 0 <= io_resid iob -> io_offset iob + io_resid iob < 2 ^ 44 ->
  0 <= io_base iob -> io_base iob + io_resid iob <= Z.of_nat (length buf) ->
  wp (disk0_io (nsec / DISK0_BLK_NSECT) iob buf write) (fun '(r, iob', buf') s' =>
    let o := io_offset iob in let n := io_resid iob in
    if bool_decide (o mod 4096 = 0 /\ n mod 4096 = 0 /\ o / 4096 + n / 4096 <= nsec / 8) then
      r = 0 /\ iob' = skipped iob n /\ disk0_sem s' = false /\
      if write then buf' = buf /\ holds nsec (splice o (slice (io_base iob) n buf) img) s'
      else buf' = splice (io_base iob) (slice o n img) buf /\ holds nsec img s'
    else r = - E_INVAL /\ iob' = iob /\ buf' = buf /\ s' = s) s.
Proof. intros. by eapply wp_disk0_io. Qed.

(** ** Witness: one block is written to a disk of three *)

Definition ex_disks : disks := mk_disks {[ DISK0_DEV_NO := mk_ide true 24 (replicate 12288 7) ]} (replicate 16384 0) false.

Lemma ex_disks_hold : holds 24 (replicate 12288 7) ex_disks.
Proof. split; try (done || by vm_compute); apply Forall_replicate; unfold is_byte; lia. Qed.

Lemma disk0_io_spec_witness :
  wp (disk0_io 3 (mk_iobuf 0 4096 4096 4096) (replicate 4096 9) true) (fun '(r, iob', buf') s' =>
    r = 0 /\ iob' = skipped (mk_iobuf 0 4096 4096 4096) 4096 /\ disk0_sem s' = false /\
    buf' = replicate 4096 9 /\ holds 24 (splice 4096 (slice 0 4096 (replicate 4096 9)) (replicate 12288 7)) s') ex_disks.
Proof.
  refine (disk0_io_spec 24 (replicate 12288 7) ex_disks (mk_iobuf 0 4096 4096 4096) (replicate 4096 9) true ex_disks_hold _ _ _ _ _ _ _);
    try (cbn; lia). apply Forall_replicate. unfold is_byte. lia.
Defined.
