(* ===== verification/SfsFile.v ===== *)
(** Files of the Simple File System.  [file_rep s x bm] says that the inode [x]
    owns the blocks [bm], in order: twelve of them in the inode itself, the
    others in its indirect block.  On top of it a file is an array of bytes, and
    the theorems show that reading, writing and resizing do to this array what
    they should, whatever the device does; the errors of the device and a full
    disk are covered. *)
From S2P Require Import Prelude Cstring Bitmap Iobuf Sfs SfsBlocks.
#[local] Abbreviation length := Datatypes.length.

(** ** Numbers in a block *)

Definition entry (l : list Z) (i : Z) : Z := get32 (slice (4 * i) 4 l).

Lemma get32_le32 x : 0 <= x < 2 ^ 32 -> get32 (le32 x) = x.
Proof. intros H. cbn [get32 le32]. zlia. Qed.

Lemma le32_bytes x : Forall is_byte (le32 x).
Proof. unfold le32, is_byte. repeat constructor; apply Z.mod_pos_bound; lia. Qed.

Lemma entry_splice l i j x :
  block_ok l -> 0 <= i < SFS_BLK_NENTRY -> 0 <= j < SFS_BLK_NENTRY -> 0 <= x < 2 ^ 32 ->
  entry (splice (4 * i) (le32 x) l) j = if decide (j = i) then x else entry l j.
Proof.
  intros [Hl _] Hi Hj Hx. change SFS_BLK_NENTRY with 1024 in *. unfold SFS_BLKSIZE in Hl. unfold entry. case_decide as E.
  - subst j. change 4 with (Z.of_nat (length (le32 x))) at 2. rewrite slice_splice_eq by lia. by apply get32_le32.
  - rewrite slice_splice_ne by (cbn [length le32]; lia). done.
Qed.

Lemma entry_zero i : 0 <= i < SFS_BLK_NENTRY -> entry (replicate (Z.to_nat SFS_BLKSIZE) 0) i = 0.
Proof.
  intros Hi. change SFS_BLK_NENTRY with 1024 in Hi. unfold entry, slice. rewrite drop_replicate, take_replicate.
  by replace (Z.to_nat 4 `min` (Z.to_nat SFS_BLKSIZE - Z.to_nat (4 * i)))%nat with 4%nat by (unfold SFS_BLKSIZE; lia).
Qed.

Section file.
Context {D : Type} (dv : device D) `{!BlockDevice dv}.
Abbreviation st := (sfs_fs D).
Abbreviation blk := (blk dv).
Abbreviation sfs_wf := (sfs_wf dv).
Abbreviation kept := (kept dv).
Implicit Types s : st.

(** ** The blocks of a file *)

Definition foot (x : sfs_inode) (bm : list Z) : list Z :=
  bm ++ (if decide (indirect (din x) = 0) then [] else [indirect (din x)]).

Record file_rep (s : st) (x : sfs_inode) (bm : list Z) : Prop := {
  fr_blocks : blocks (din x) = Z.of_nat (length bm);
  fr_max : Z.of_nat (length bm) <= SFS_NDIRECT + SFS_BLK_NENTRY;
  fr_dlen : length (direct (din x)) = 12%nat;
  fr_direct i : (i < 12)%nat -> direct (din x) !! i = Some (default 0 (bm !! i));
  fr_noind : indirect (din x) = 0 -> (length bm <= 12)%nat;
  fr_ind : indirect (din x) <> 0 -> forall i, (i < 1024)%nat ->
    entry (blk s (indirect (din x))) (Z.of_nat i) = default 0 (bm !! (12 + i)%nat);
  fr_used b : b ∈ foot x bm -> used s b;
  fr_nodup : NoDup (foot x bm);
}.

Lemma foot_block x bm b : b ∈ bm -> b ∈ foot x bm.
Proof. intros H. apply elem_of_app. by left. Qed.
Lemma foot_indirect x bm : indirect (din x) <> 0 -> indirect (din x) ∈ foot x bm.
Proof. intros H. apply elem_of_app. right. rewrite decide_False by done. by apply list_elem_of_singleton. Qed.
Lemma foot_no_indirect s x bm : file_rep s x bm -> indirect (din x) ∉ bm.
Proof.
  intros H Hin. pose proof (fr_nodup _ _ _ H) as Hnd. pose proof (fr_used _ _ _ H _ (foot_block x bm _ Hin)) as [Hu _].
  unfold foot in Hnd. rewrite decide_False in Hnd by lia. apply NoDup_app in Hnd as (_&Hd&_).
  apply (Hd _ Hin), list_elem_of_singleton. done.
Qed.

Lemma file_rep_kept P s s' x bm :
  file_rep s x bm -> kept P s s' -> (forall b, b ∈ foot x bm -> ~ P b) -> file_rep s' x bm.
Proof.
  intros [] Hk HP. split; try done.
  - intros Hi i Hlt. rewrite (k_blk _ _ _ _ Hk); [by apply fr_ind0| |]; [apply fr_used0|apply HP]; by apply foot_indirect.
  - intros b Hb. apply (k_used _ _ _ _ Hk); auto.
Qed.

Lemma file_rep_none s s' x bm : file_rep s x bm -> kept none s s' -> file_rep s' x bm.
Proof. intros H Hk. apply (file_rep_kept none s s' x bm H Hk). by intros b _ []. Qed.

(** Writing a data block does not disturb the block map. *)
Lemma file_rep_data s s' x bm b : file_rep s x bm -> kept (fun c => c = b) s s' -> b ∈ bm -> used s' b -> file_rep s' x bm.
Proof.
  intros Hf Hk Hb Hu. pose proof (foot_no_indirect _ _ _ Hf) as Hni. destruct Hf. split; try done.
  - intros Hi i Hlt. rewrite (k_blk _ _ _ _ Hk); [by apply fr_ind0|by apply fr_used0, foot_indirect|by intros <-].
  - intros c Hc. destruct (decide (c = b)) as [->|]; [done|]. apply (k_used _ _ _ _ Hk); auto.
Qed.

Lemma kept_same b s s' :
  kept (fun c => c = b) s s' -> (used s b -> used s' b /\ blk s' b = blk s b) -> kept none s s'.
Proof.
  intros H HP. split; [apply H|apply H|..]; intros c Hu _; (destruct (decide (c = b)) as [->|]; [by apply HP|by apply H]).
Qed.

(** What was free before may change. *)
Lemma kept_fresh b s s1 s2 :
  kept none s s1 -> kept (fun c => c = b) s1 s2 -> ~ used s b -> kept none s s2.
Proof. intros H1 H2 Hn. eapply kept_trans; [exact H1|exact H2|]. intros c Hc ->. done. Qed.

Lemma kept_none_trans P s s1 s2 : kept none s s1 -> kept P s1 s2 -> kept P s s2.
Proof. intros H1 H2. eapply kept_trans; [|exact H2|done]. by eapply kept_weaken. Qed.

Lemma kept_trans_none P s s1 s2 : kept P s s1 -> kept none s1 s2 -> kept P s s2.
Proof. intros H1 H2. by eapply kept_trans. Qed.

Lemma used_same s s' c : super_blocks s' = super_blocks s -> freemap s' = freemap s -> used s' c <-> used s c.
Proof. intros E1 E2. unfold used. by rewrite E1, E2. Qed.

Lemma used_pos s b : used s b -> b <> 0.
Proof. intros [H _]. lia. Qed.

Lemma used_u32 s b : sfs_wf s -> used s b -> 0 <= b < 2 ^ 32.
Proof. intros H [Hb _]. pose proof (w_small _ _ H). lia. Qed.

Lemma block_len s b : sfs_wf s -> used s b -> block_ok (blk s b).
Proof. intros H [Hb _]. pose proof (w_super _ _ H). apply content_ok; [apply H|lia]. Qed.

Lemma wp_read_entry ent index s (Q : Z * list Z -> st -> Prop) :
  sfs_wf s -> used s ent -> 0 <= index < SFS_BLK_NENTRY ->
  (forall r buf s', kept none s s' -> inodes s' = inodes s -> freemap s' = freemap s ->
     (r = 0 -> get32 buf = entry (blk s ent) index) -> Q (r, buf) s') ->
  wp (sfs_rbuf dv (le32 0) 0 4 ent (index * 4)) Q s.
Proof.
  intros H Hu Hi HQ. change SFS_BLK_NENTRY with 1024 in Hi. pose proof Hu as [Hb _].
  apply (wp_sfs_rbuf dv); [done|done|lia|unfold SFS_BLKSIZE; lia|lia|unfold SFS_BLKSIZE; lia|lia|cbn; lia|].
  intros r s' Hk Hin Hm. apply HQ; [done|done|done|]. intros ->. rewrite decide_True by done. unfold entry.
  rewrite Z.mul_comm, splice_all; [done|]. pose proof (slice_block (blk s ent) (4 * index) 4 (block_len _ _ H Hu)) as E.
  unfold SFS_BLKSIZE in E. cbn. lia.
Qed.

Lemma wp_write_entry v ent index s (Q : Z -> st -> Prop) :
  sfs_wf s -> used s ent -> 0 <= index < SFS_BLK_NENTRY -> 0 <= v < 2 ^ 32 ->
  (forall r s', kept (fun c => c = ent) s s' -> inodes s' = inodes s -> freemap s' = freemap s -> used s' ent ->
     (r <> 0 -> blk s' ent = blk s ent) ->
     (r = 0 -> forall j, 0 <= j < SFS_BLK_NENTRY -> entry (blk s' ent) j = if decide (j = index) then v else entry (blk s ent) j) ->
     Q r s') ->
  wp (sfs_wbuf dv (le32 v) 0 4 ent (index * 4)) Q s.
Proof.
  intros H Hu Hi Hv HQ. pose proof Hu as [Hb Hf]. pose proof Hi as Hi'. change SFS_BLK_NENTRY with 1024 in Hi.
  apply (wp_sfs_wbuf dv); [done|done|lia|unfold SFS_BLKSIZE; lia|lia|unfold SFS_BLKSIZE; lia|lia|cbn; lia|apply le32_bytes|].
  intros r s' Hk Hin Hm E. apply HQ; [done|done|done| | |].
  - split; [by rewrite (k_super _ _ _ _ Hk)|by rewrite Hm].
  - intros Hr. by rewrite decide_False in E.
  - intros -> j Hj. rewrite E, decide_True by done.
    rewrite Z.mul_comm. change 4 with (Z.of_nat (length (le32 v))) at 2. rewrite slice_all.
    apply entry_splice; [by apply block_len|done|done|done].
Qed.

(** ** The block map *)
Lemma wp_get_sub_found s x bm index create (Q : Z * Z * Z -> st -> Prop) :
  sfs_wf s -> file_rep s x bm -> indirect (din x) <> 0 -> (12 + Z.to_nat index < length bm)%nat -> 0 <= index ->
  (forall r ent b s', kept none s s' -> inodes s' = inodes s ->
     (r = 0 -> ent = indirect (din x) /\ bm !! (12 + Z.to_nat index)%nat = Some b) -> Q (r, ent, b) s') ->
  wp (sfs_bmap_get_sub_nolock dv (indirect (din x)) index create) Q s.
Proof.
  intros H Hf Hi Hl H0 HQ. unfold sfs_bmap_get_sub_nolock. pose proof (fr_max _ _ _ Hf) as Hmax.
  change (SFS_NDIRECT + SFS_BLK_NENTRY) with 1036 in Hmax. kstep. kstep; [apply Z.ltb_lt; change SFS_BLK_NENTRY with 1024; lia|].
  kstep. rewrite bool_decide_true by done. kstep.
  apply wp_read_entry; [done|by apply (fr_used _ _ _ Hf), foot_indirect|change SFS_BLK_NENTRY with 1024; lia|].
  intros r buf s' Hk Hin _ He. apply wp_ret.
  destruct (decide (r = 0)) as [->|Hr].
  - specialize (He eq_refl). pose proof (fr_ind _ _ _ Hf Hi (Z.to_nat index) ltac:(lia)) as Hent. rewrite Z2Nat.id in Hent by done.
    destruct (lookup_lt_is_Some_2 bm (12 + Z.to_nat index)%nat Hl) as [b Hb]. rewrite Hb in Hent. cbn in Hent.
    rewrite He, Hent. rewrite bool_decide_false by lia.
    pose proof (used_pos _ _ (fr_used _ _ _ Hf b (foot_block _ _ _ (list_elem_of_lookup_2 _ _ _ Hb)))) as Hb0.
    rewrite bool_decide_true by done. cbn [orb]. apply wp_ret. by apply HQ.
  - rewrite bool_decide_true by done. apply wp_ret. by apply HQ.
Qed.

Lemma wp_new_entry entp ent index s (Q : Z * Z * Z -> st -> Prop) :
  sfs_wf s -> used s ent -> 0 <= index < SFS_BLK_NENTRY ->
  (forall r s', r <> 0 -> kept (fun c => ent <> entp /\ c = ent) s s' -> inodes s' = inodes s -> Q (r, entp, 0) s') ->
  (forall b s', kept (fun c => c = ent) s s' -> inodes s' = inodes s -> used s' ent -> ~ used s b -> used s' b ->
     blk s' b = replicate (Z.to_nat SFS_BLKSIZE) 0 ->
     (forall j, 0 <= j < SFS_BLK_NENTRY -> entry (blk s' ent) j = if decide (j = index) then b else entry (blk s ent) j) ->
     Q (0, ent, b) s') ->
  wp (bmap_new_entry dv entp ent (index * 4)) Q s.
Proof.
  intros H Hu Hi HE HS. unfold bmap_new_entry.
  assert (Hclean : forall r s1, r <> 0 -> kept none s s1 -> inodes s1 = inodes s ->
    wp (when (bool_decide (ent <> entp)) (sfs_block_free ent);; mret (r, entp, 0)) Q s1).
  { intros r s1 Hr Hk Hin. kstep. apply wp_when_dec; intros He.
    - apply (wp_sfs_block_free dv); [apply Hk|by apply (k_used _ _ _ _ Hk)|]. intros s2 Hk2 Hi2 _ _ _. apply wp_ret.
      apply HE; [done| |by rewrite Hi2]. eapply kept_weaken; [eapply kept_none_trans; eassumption|by intros b].
    - apply wp_ret, HE; [done| |done]. by eapply kept_weaken. }
  kstep. apply (wp_sfs_block_alloc dv); [done| |].
  - intros r b s1 Hr Hk Hin. cbv beta iota. rewrite (bool_decide_true (r <> 0)) by done. kstep. apply wp_ret. rewrite (bool_decide_true (r <> 0)) by done. by apply Hclean.
  - intros b s1 Hk Hin Hn Hb Hz. cbv beta iota. rewrite (bool_decide_false (0 <> 0)) by lia. kstep. kstep.
    assert (Hu1 : used s1 ent) by (by apply (k_used _ _ _ _ Hk)).
    assert (Hne : b <> ent) by (by intros ->).
    apply wp_write_entry; [apply Hk|done|done|by eapply used_u32; [apply Hk|]|].
    intros r s2 Hk2 Hi2 Hm2 Hu2 Hr2 Hent. kstep. apply wp_when_dec; intros Hr.
    + assert (Hk2' : kept none s1 s2) by (eapply kept_same; [exact Hk2|auto]).
      apply (wp_sfs_block_free dv); [apply Hk2|by apply (k_used _ _ _ _ Hk2)|].
      intros s3 Hk3 Hi3 _ _ _. apply wp_ret. rewrite (bool_decide_true (r <> 0)) by done. apply Hclean; [done| |by rewrite Hi3, Hi2].
      eapply kept_fresh; [eapply kept_trans_none; [exact Hk|exact Hk2']|exact Hk3|done].
    + apply wp_ret. assert (r = 0) as -> by (by destruct (decide (r = 0))). rewrite (bool_decide_false (0 <> 0)) by lia. apply wp_ret.
      apply HS; [by eapply kept_none_trans|by rewrite Hi2|done|done|by apply (k_used _ _ _ _ Hk2)| |].
      * by rewrite (k_blk _ _ _ _ Hk2).
      * intros j Hj. rewrite Hent by done. by rewrite (k_blk _ _ _ _ Hk).
Qed.

(** The block behind the last one, in the indirect block. *)
Lemma wp_get_sub_new s x bm index (Q : Z * Z * Z -> st -> Prop) :
  sfs_wf s -> file_rep s x bm -> length bm = (12 + Z.to_nat index)%nat -> 0 <= index < SFS_BLK_NENTRY ->
  (forall r ent b s', r <> 0 -> kept none s s' -> inodes s' = inodes s -> Q (r, ent, b) s') ->
  (forall ent b s', kept (fun c => c = indirect (din x)) s s' -> inodes s' = inodes s ->
     used s' ent -> ~ used s b -> used s' b -> b <> ent -> blk s' b = replicate (Z.to_nat SFS_BLKSIZE) 0 ->
     (if decide (indirect (din x) = 0) then ~ used s ent else ent = indirect (din x)) ->
     (forall j, (j < 1024)%nat -> entry (blk s' ent) (Z.of_nat j) = default 0 ((bm ++ [b]) !! (12 + j)%nat)) ->
     Q (0, ent, b) s') ->
  wp (sfs_bmap_get_sub_nolock dv (indirect (din x)) index true) Q s.
Proof.
  intros H Hf Hl Hi HE HS. unfold sfs_bmap_get_sub_nolock. kstep. kstep; [apply Z.ltb_lt; lia|]. kstep.
  assert (Hnth : forall e b j, (j < 1024)%nat ->
    e = (if decide (Z.of_nat j = index) then b else default 0 (bm !! (12 + j)%nat)) ->
    e = default 0 ((bm ++ [b]) !! (12 + j)%nat)).
  { intros e b j Hj ->. destruct (decide (Z.of_nat j = index)) as [E|E].
    - rewrite lookup_app_r by lia. by replace (12 + j - length bm)%nat with 0%nat by lia.
    - destruct (decide (12 + j < length bm)%nat); [by rewrite lookup_app_l by lia|].
      by rewrite !(lookup_ge_None_2 _ (12 + j)) by (rewrite ?length_app; cbn; lia). }
  change SFS_BLK_NENTRY with 1024 in Hi. destruct (decide (indirect (din x) = 0)) as [E|E].
  - rewrite E. rewrite (bool_decide_false (0 <> 0)) by lia. kstep. apply (wp_sfs_block_alloc dv); [done| |].
    { intros r ent s1 Hr Hk Hin. cbv beta iota. apply wp_ret. cbv beta iota. rewrite (bool_decide_true (r <> 0)) by done. apply wp_ret. by apply HE. }
    intros ent s1 Hk1 Hi1 Hn1 Hu1 Hz1. cbv beta iota. apply wp_ret. cbv beta iota. rewrite !(bool_decide_false (0 <> 0)) by lia. cbn [orb negb].
    apply wp_new_entry; [apply Hk1|done|done| |].
    + intros r s2 Hr Hk2 Hi2. apply HE; [done| |by rewrite Hi2]. eapply (kept_fresh ent); [exact Hk1| |done].
      eapply kept_weaken; [exact Hk2|by intros b [_ Eb]].
    + intros b s2 Hk2 Hi2 Hu2 Hn2 Hb2 Hz2 Hent. assert (Hne : b <> ent) by (by intros ->).
      apply HS; [|by rewrite Hi2|done| |done|done|done|done|].
      * eapply kept_weaken; [by eapply (kept_fresh ent)|done].
      * intros Hub. apply Hn2. by apply (k_used _ _ _ _ Hk1).
      * intros j Hj. apply Hnth; [done|]. rewrite Hent by (change SFS_BLK_NENTRY with 1024; lia).
        destruct (decide (Z.of_nat j = index)); [done|]. rewrite Hz1, entry_zero by (change SFS_BLK_NENTRY with 1024; lia).
        pose proof (fr_noind _ _ _ Hf E). by rewrite lookup_ge_None_2 by lia.
  - rewrite (bool_decide_true (indirect (din x) <> 0)) by done. kstep. assert (Hu : used s (indirect (din x))) by (by apply (fr_used _ _ _ Hf), foot_indirect).
    apply wp_read_entry; [done|done|done|]. intros r buf s1 Hk1 Hi1 _ He. cbv beta iota. apply wp_ret. cbv beta iota.
    destruct (decide (r = 0)) as [->|Hr]; [|rewrite (bool_decide_true (r <> 0)) by done; apply wp_ret; by apply HE].
    specialize (He eq_refl). pose proof (fr_ind _ _ _ Hf E (Z.to_nat index) ltac:(lia)) as Hent.
    rewrite Z2Nat.id, lookup_ge_None_2 in Hent by lia. cbn in Hent. rewrite He, Hent.
    rewrite !(bool_decide_false (0 <> 0)) by lia. cbn [orb negb].
    assert (Hu1 : used s1 (indirect (din x))) by (by apply (k_used _ _ _ _ Hk1)).
    apply wp_new_entry; [apply Hk1|done|done| |].
    + intros r s2 Hr Hk2 Hi2. apply HE; [done| |by rewrite Hi2]. eapply kept_trans_none; [exact Hk1|].
      eapply kept_weaken; [exact Hk2|by intros b [Hne _]].
    + intros b s2 Hk2 Hi2 Hu2 Hn2 Hb2 Hz2 Hent2. apply HS; [by eapply kept_none_trans|by rewrite Hi2|done| |done| |done| |].
      * intros Hub. apply Hn2. by apply (k_used _ _ _ _ Hk1).
      * by intros ->.
      * done.
      * intros j Hj. apply Hnth; [done|]. rewrite Hent2 by (change SFS_BLK_NENTRY with 1024; lia). destruct (decide (Z.of_nat j = index)); [done|].
        rewrite (k_blk _ _ _ _ Hk1) by done. apply (fr_ind _ _ _ Hf E). done.
Qed.

(** Blocks a file has gained were free. *)
Definition fresh_foot s (x : sfs_inode) bm (x' : sfs_inode) bm' : Prop :=
  forall c, c ∈ foot x' bm' -> used s c -> c ∈ foot x bm.

Lemma fresh_snoc s x x' bm b :
  ~ used s b -> indirect (din x') = indirect (din x) \/ ~ used s (indirect (din x')) -> fresh_foot s x bm x' (bm ++ [b]).
Proof.
  intros Hb Hi c. unfold foot. rewrite !elem_of_app, list_elem_of_singleton. intros [[Hc| ->]|Hc] Hu; [by left|done|right].
  destruct (decide (indirect (din x') = 0)); [by apply not_elem_of_nil in Hc|]. apply list_elem_of_singleton in Hc as ->.
  destruct Hi as [E|?]; [|done]. rewrite decide_False by congruence. rewrite <-E. by apply list_elem_of_singleton.
Qed.

(** What the block map leaves alone in an inode. *)
Record same_file (x x' : sfs_inode) : Prop := {
  sf_size : din_size (din x') = din_size (din x);
  sf_type : din_type (din x') = din_type (din x);
  sf_nlinks : nlinks (din x') = nlinks (din x);
  sf_ino : ino x' = ino x;
  sf_reclaim : reclaim_count x' = reclaim_count x;
  sf_sem : sem x' = sem x;
}.

Lemma same_file_refl x : same_file x x.
Proof. done. Qed.
Lemma same_file_trans x y z : same_file x y -> same_file y z -> same_file x z.
Proof. intros [] []. split; congruence. Qed.

Lemma wp_sin_at n x s (Q : sfs_inode -> st -> Prop) : inodes s !! n = Some x -> Q x s -> wp (sin_at n) Q s.
Proof. intros E HQ. unfold wp, sin_at, unwrap. by rewrite E. Qed.
Lemma wp_sin_upd n f x s (Q : () -> st -> Prop) :
  inodes s !! n = Some x -> Q () (set_inodes (<[n := f x]> (inodes s)) s) -> wp (sin_upd n f) Q s.
Proof. intros E HQ. unfold sin_upd. kstep. eapply wp_sin_at; [done|]. by kstep. Qed.

Lemma wf_set_inodes m s : sfs_wf s -> sfs_wf (set_inodes m s).
Proof. intros []. by split. Qed.
Lemma kept_set_inodes P m s : sfs_wf s -> kept P s (set_inodes m s).
Proof. intros H. split; [by apply wf_set_inodes|done|done|done]. Qed.

Lemma kept_set_inodes2 P m m' s : sfs_wf s -> kept P s (set_inodes m (set_inodes m' s)).
Proof. intros H. change (kept P s (set_inodes m s)). by apply kept_set_inodes. Qed.

(** A new last block, in the inode or in the indirect block. *)
Lemma file_rep_direct s s' x x' bm b :
  file_rep s x bm -> (length bm < 12)%nat -> kept none s s' -> ~ used s b -> used s' b ->
  blocks (din x') = blocks (din x) + 1 -> direct (din x') = <[length bm := b]> (direct (din x)) ->
  indirect (din x') = indirect (din x) -> file_rep s' x' (bm ++ [b]).
Proof.
  intros Hf Hl Hk Hn Hb Eb Ed Ei. pose proof (file_rep_none _ _ _ _ Hf Hk) as []. split.
  - rewrite Eb, fr_blocks0, length_app. cbn. lia.
  - rewrite length_app. cbn. unfold SFS_NDIRECT. change SFS_BLK_NENTRY with 1024. lia.
  - by rewrite Ed, length_insert.
  - intros i Hi. rewrite Ed. destruct (decide (i = length bm)) as [->|Hne].
    + rewrite list_lookup_insert_eq by lia. rewrite lookup_app_r, Nat.sub_diag by lia. done.
    + rewrite list_lookup_insert_ne by done. rewrite fr_direct0 by done. f_equal. f_equal.
      destruct (decide (i < length bm)%nat); [by rewrite lookup_app_l by lia|].
      by rewrite !lookup_ge_None_2 by (rewrite ?length_app; cbn; lia).
  - intros _. rewrite length_app. cbn. lia.
  - rewrite Ei. intros Hi i Hlt. rewrite fr_ind0 by done.
    by rewrite !lookup_ge_None_2 by (rewrite ?length_app; cbn; lia).
  - intros c. unfold foot. rewrite Ei, <-app_assoc. rewrite !elem_of_app, list_elem_of_singleton.
    intros [Hc|[->|Hc]]; [|done|]; apply fr_used0, elem_of_app; auto.
  - assert (Hnb : b ∉ foot x bm) by (intros Hin; by apply Hn, (fr_used _ _ _ Hf)).
    revert fr_nodup0 Hnb. unfold foot. rewrite Ei, <-app_assoc. intros Hnd Hnb.
    rewrite (Permutation_app_swap_app bm [b]). by constructor.
Qed.

Lemma file_rep_indirect s s' x x' bm ent b :
  file_rep s x bm -> (12 <= length bm < 1036)%nat -> kept (fun c => c = indirect (din x)) s s' ->
  ~ used s b -> used s' b -> used s' ent -> b <> ent ->
  (if decide (indirect (din x) = 0) then ~ used s ent else ent = indirect (din x)) ->
  (forall j, (j < 1024)%nat -> entry (blk s' ent) (Z.of_nat j) = default 0 ((bm ++ [b]) !! (12 + j)%nat)) ->
  blocks (din x') = blocks (din x) + 1 -> direct (din x') = direct (din x) ->
  indirect (din x') = ent -> file_rep s' x' (bm ++ [b]).
Proof.
  intros Hf Hl Hk Hn Hb Hue Hne Hent Hval Eb Ed Ei. pose proof (used_pos _ _ Hue) as He0. subst ent.
  assert (Hbm : forall c, c ∈ bm -> used s' c /\ c <> indirect (din x')).
  { intros c Hc. pose proof (fr_used _ _ _ Hf c (foot_block _ _ _ Hc)) as Hu.
    assert (c <> indirect (din x)) as Hci by (intros ->; by apply (foot_no_indirect _ _ _ Hf)).
    split; [by apply (k_used _ _ _ _ Hk)|]. destruct (decide (indirect (din x) = 0)); [by intros ->|by rewrite Hent]. }
  assert (Hnb : b ∉ bm) by (intros Hin; by apply Hn, (fr_used _ _ _ Hf), foot_block).
  split.
  - rewrite Eb, (fr_blocks _ _ _ Hf), length_app. cbn. lia.
  - rewrite length_app. cbn. unfold SFS_NDIRECT. change SFS_BLK_NENTRY with 1024. lia.
  - rewrite Ed. apply Hf.
  - intros i Hi. rewrite Ed, (fr_direct _ _ _ Hf i Hi). by rewrite lookup_app_l by lia.
  - done.
  - intros _ i Hi. by apply Hval.
  - intros c. unfold foot. rewrite decide_False by done. rewrite !elem_of_app, !list_elem_of_singleton.
    intros [[Hc| ->]| ->]; [by apply Hbm|done|done].
  - unfold foot. rewrite decide_False by done. rewrite <-app_assoc.
    assert (NoDup bm) by (pose proof (fr_nodup _ _ _ Hf) as Hnd; by apply NoDup_app in Hnd as (?&_&_)).
    apply NoDup_app. split_and!; [done| |].
    + intros c Hc Hin. cbn in Hin. rewrite !elem_of_cons in Hin. destruct Hin as [->|[->|Hin%not_elem_of_nil]]; [done| |done].
      by destruct (Hbm _ Hc).
    + cbn. apply NoDup_cons. split; [by rewrite list_elem_of_singleton|apply NoDup_singleton].
Qed.

(** The block with a given index is found, or, just behind the last one, made;
    the number of blocks is left to the caller. *)
Definition one_more (x : sfs_inode) : sfs_inode := set_din (set_blocks (u32 (blocks (din x) + 1)) (din x)) x.

Lemma wp_bmap_get s n x bm index (Q : Z * Z -> st -> Prop) :
  sfs_wf s -> inodes s !! n = Some x -> file_rep s x bm ->
  0 <= index -> (Z.to_nat index <= length bm)%nat -> index < SFS_NDIRECT + SFS_BLK_NENTRY ->
  (forall r b s', r <> 0 -> kept none s s' -> inodes s' = inodes s -> Q (r, b) s') ->
  (forall b s', bm !! Z.to_nat index = Some b -> kept none s s' -> inodes s' = inodes s -> Q (0, b) s') ->
  (forall b x1 s', Z.to_nat index = length bm -> inodes s' = <[n := x1]> (inodes s) -> same_file x x1 ->
     file_rep s' (one_more x1) (bm ++ [b]) -> kept (fun c => c = indirect (din x)) s s' ->
     fresh_foot s x bm (one_more x1) (bm ++ [b]) ->
     blk s' b = replicate (Z.to_nat SFS_BLKSIZE) 0 -> Q (0, b) s') ->
  wp (sfs_bmap_get_nolock dv n index (index =? blocks (din x))) Q s.
Proof.
  intros H Hx Hf Hi Hl Hmax HE HO HN. change (SFS_NDIRECT + SFS_BLK_NENTRY) with 1036 in Hmax.
  pose proof (fr_blocks _ _ _ Hf) as Hbl. unfold sfs_bmap_get_nolock. kstep. eapply wp_sin_at; [done|]. kstep.
  match goal with |- wp _ ?Q' s => set (R := Q') end.
  assert (HRE : forall r b s', r <> 0 -> kept none s s' -> inodes s' = inodes s -> R (r, b) s').
  { intros r b s' Hr Hk Hin. unfold R. rewrite (bool_decide_true (r <> 0)) by done. apply wp_ret. by apply HE. }
  assert (HR : forall b s', sfs_wf s' -> used s' b -> Q (0, b) s' -> R (0, b) s').
  { intros b s' Hw Hu HQ. unfold R. rewrite (bool_decide_false (0 <> 0)) by lia. kstep.
    apply wp_when_dec; intros _; [apply (wp_assert_inuse dv); [done|done|]|]; by apply wp_ret. }
  assert (HRO : forall b s', bm !! Z.to_nat index = Some b -> kept none s s' -> inodes s' = inodes s -> R (0, b) s').
  { intros b s' Hb Hk Hin. apply HR; [apply Hk| |by apply HO]. apply (k_used _ _ _ _ Hk); [|done].
    by apply (fr_used _ _ _ Hf), foot_block, (list_elem_of_lookup_2 _ _ _ Hb). }
  clearbody R. clear HE HO. change SFS_NDIRECT with 12. destruct (Z.ltb_spec index 12) as [Hd|Hd].
  - pose proof (fr_direct _ _ _ Hf (Z.to_nat index) ltac:(lia)) as Hdir. kstep. eapply wp_unwrap; [exact Hdir|].
    destruct (Z.eqb_spec index (blocks (din x))) as [E|E].
    + rewrite lookup_ge_None_2 by lia. cbn [default andb Z.eqb]. kstep. apply (wp_sfs_block_alloc dv); [done| |].
      { intros r b s1 Hr Hk Hin. cbv beta iota. rewrite (bool_decide_true (r <> 0)) by done. apply wp_ret. by apply HRE. }
      intros b s1 Hk Hin Hn Hu Hz. cbv beta iota. rewrite (bool_decide_false (0 <> 0)) by lia.
      kstep. unfold din_upd. eapply wp_sin_upd; [by rewrite Hin|]. kstep.
      eapply wp_sin_upd; [cbn; apply lookup_insert_eq|]. apply wp_ret. cbn [inodes set_inodes]. rewrite insert_insert_eq, Hin.
      set (s2 := set_inodes _ _). assert (Hk2 : kept none s1 s2) by (apply kept_set_inodes2, Hk).
      assert (Hu2 : used s2 b) by done. apply HR; [apply Hk2|done|].
      eapply HN; [lia|done|done| |eapply kept_weaken; [by eapply kept_trans_none|done]|apply fresh_snoc; [done|by left]|done].
      eapply (file_rep_direct s s2 x); [done|lia|by eapply kept_trans_none|done|done|cbn; apply uwrap_small; lia| |done].
      cbn. f_equal. lia.
    + destruct (lookup_lt_is_Some_2 bm (Z.to_nat index)) as [b Hb]; [lia|]. rewrite Hb. cbn [default].
      rewrite andb_false_r. apply wp_ret. apply HRO; [done|by apply kept_refl|done].
  - change SFS_BLK_NENTRY with 1024. rewrite (proj2 (Z.ltb_lt _ _)) by lia. kstep.
    destruct (Z.eqb_spec index (blocks (din x))) as [E|E].
    + eapply (wp_get_sub_new s x bm); [done|done|lia|change SFS_BLK_NENTRY with 1024; lia| |].
      { intros r ent b s1 Hr Hk Hin. cbv beta iota. rewrite (bool_decide_true (r <> 0)) by done. apply wp_ret. by apply HRE. }
      intros ent b s1 Hk Hin Hue Hn Hu Hne Hz Hent Hval. cbv beta iota. rewrite (bool_decide_false (0 <> 0)) by lia.
      assert (Hrep : forall x1 s2, kept none s1 s2 -> used s2 b -> used s2 ent ->
        blocks (din x1) = blocks (din x) -> direct (din x1) = direct (din x) -> indirect (din x1) = ent ->
        dev s2 = dev s1 -> file_rep s2 (one_more x1) (bm ++ [b])).
      { intros x1 s2 Hk2 Hb2 He2 Eb Ed Ei Edev.
        eapply (file_rep_indirect s s2 x (one_more x1) bm ent b); [done|lia|by eapply kept_trans_none|done|done|done|done|done| | |done|done].
        - intros j Hj. rewrite <-Hval by done. unfold SfsBlocks.blk. by rewrite Edev.
        - cbn. rewrite Eb. apply uwrap_small. lia. }
      kstep. apply wp_when_dec; intros Hent2.
      * destruct (decide (indirect (din x) = 0)) as [Ei|Ei]; [|done]. kstep. kstep; [by apply Z.eqb_eq|]. kstep. unfold din_upd.
        eapply wp_sin_upd; [by rewrite Hin|]. eapply wp_sin_upd; [cbn; apply lookup_insert_eq|]. apply wp_ret.
        cbn [inodes set_inodes]. rewrite insert_insert_eq, Hin.
        set (s2 := set_inodes _ _). assert (Hk2 : kept none s1 s2) by (apply kept_set_inodes2, Hk).
        apply HR; [apply Hk2|done|]. eapply HN; [lia|done|done|by apply Hrep|by eapply kept_trans_none|apply fresh_snoc; [done|by right]|done].
      * apply wp_ret. assert (ent = indirect (din x)) as Ee by (by destruct (decide (ent = indirect (din x)))).
        apply HR; [apply Hk|done|]. eapply (HN b x); [lia|by rewrite Hin, insert_id|done| |done|apply fresh_snoc; [done|by left]|done].
        apply Hrep; (done || by apply kept_refl, Hk).
    + destruct (decide (indirect (din x) = 0)) as [Ei|Ei]; [pose proof (fr_noind _ _ _ Hf Ei); lia|].
      eapply (wp_get_sub_found s x bm); [done|done|done|lia|lia|].
      intros r ent b s1 Hk Hin Hr. cbv beta iota. destruct (decide (r = 0)) as [->|Hr0].
      * rewrite (bool_decide_false (0 <> 0)) by lia. destruct (Hr eq_refl) as [-> Hb]. kstep.
        apply wp_when_dec; [done|intros _]. apply wp_ret. apply HRO; [|done|done]. rewrite <-Hb. f_equal. lia.
      * rewrite (bool_decide_true (r <> 0)) by done. apply wp_ret. by apply HRE.
Qed.

Lemma wp_bmap_load s n x bm index (Q : Z * Z -> st -> Prop) :
  sfs_wf s -> inodes s !! n = Some x -> file_rep s x bm ->
  0 <= index -> (Z.to_nat index <= length bm)%nat -> index < SFS_NDIRECT + SFS_BLK_NENTRY ->
  (forall r b s', r <> 0 -> kept none s s' -> inodes s' = inodes s -> Q (r, b) s') ->
  (forall b s', bm !! Z.to_nat index = Some b -> kept none s s' -> inodes s' = inodes s -> Q (0, b) s') ->
  (forall b x' s', Z.to_nat index = length bm -> inodes s' = <[n := x']> (inodes s) -> same_file x x' ->
     file_rep s' x' (bm ++ [b]) -> kept (fun c => c = indirect (din x)) s s' -> fresh_foot s x bm x' (bm ++ [b]) ->
     blk s' b = replicate (Z.to_nat SFS_BLKSIZE) 0 -> Q (0, b) s') ->
  wp (sfs_bmap_load_nolock dv n index) Q s.
Proof.
  intros H Hx Hf Hi Hl Hmax HE HO HN. unfold sfs_bmap_load_nolock. kstep. eapply wp_sin_at; [done|].
  pose proof (fr_blocks _ _ _ Hf) as Hbl. kstep. kstep; [apply Z.leb_le; lia|]. kstep. eapply wp_bmap_get; [done..| | |].
  - intros r b s1 Hr Hk Hin. rewrite (bool_decide_true (r <> 0)) by done. apply wp_ret. by apply HE.
  - intros b s1 Hb Hk Hin. rewrite (bool_decide_false (0 <> 0)) by lia. pose proof (lookup_lt_Some _ _ _ Hb).
    kstep. apply (wp_assert_inuse dv); [apply Hk| |].
    { apply (k_used _ _ _ _ Hk); [|done]. by apply (fr_used _ _ _ Hf), foot_block, (list_elem_of_lookup_2 _ _ _ Hb). }
    rewrite (proj2 (Z.eqb_neq index (blocks (din x)))) by lia. kstep. apply wp_ret. by apply HO.
  - intros b x1 s1 Hn Hin Hs Hf1 Hk Hnu Hz. rewrite (bool_decide_false (0 <> 0)) by lia.
    kstep. apply (wp_assert_inuse dv); [apply Hk|apply (fr_used _ _ _ Hf1), foot_block, elem_of_app; right; by apply list_elem_of_singleton|].
    rewrite (proj2 (Z.eqb_eq index (blocks (din x)))) by lia. kstep. unfold when, din_upd.
    eapply wp_sin_upd; [rewrite Hin; apply lookup_insert_eq|]. apply wp_ret.
    assert (Hk2 : kept none s1 (set_inodes (<[n := one_more x1]> (inodes s1)) s1)) by (apply kept_set_inodes, Hk).
    apply (HN b (one_more x1)); [done| | |by eapply file_rep_none|by eapply kept_trans_none|exact Hnu|done].
    + cbn. by rewrite Hin, insert_insert_eq.
    + by destruct Hs.
Qed.

(** ** The bytes of a file *)

(** The contents of the blocks, the last of them included to its end. *)
Definition fdata s (bm : list Z) : list Z := concat (blk s <$> bm).
Definition fbytes s (x : sfs_inode) (bm : list Z) : list Z := take (Z.to_nat (din_size (din x))) (fdata s bm).

Lemma fdata_length s bm :
  sfs_wf s -> (forall b, b ∈ bm -> used s b) -> Z.of_nat (length (fdata s bm)) = SFS_BLKSIZE * Z.of_nat (length bm).
Proof.
  intros H. induction bm as [|b bm IH]; intros Hu; [done|]. unfold fdata in *. cbn [fmap list_fmap concat].
  rewrite length_app. destruct (block_len s b H) as [E _]; [apply Hu; set_solver|].
  rewrite Nat2Z.inj_add, E, IH by set_solver. cbn [length]. lia.
Qed.

Lemma fdata_ext s s' bm : (forall b, b ∈ bm -> blk s' b = blk s b) -> fdata s' bm = fdata s bm.
Proof. intros H. unfold fdata. f_equal. apply list_fmap_ext. intros i b Hb. apply H. by eapply list_elem_of_lookup_2. Qed.

Lemma fdata_snoc s bm b : fdata s (bm ++ [b]) = fdata s bm ++ blk s b.
Proof. unfold fdata. rewrite fmap_app, concat_app. cbn. by rewrite app_nil_r. Qed.

(** The data of a file is kept by whatever keeps its blocks. *)
Lemma fdata_kept P s s' x bm :
  file_rep s x bm -> kept P s s' -> (forall b, b ∈ bm -> ~ P b) -> fdata s' bm = fdata s bm.
Proof.
  intros Hf Hk HP. apply fdata_ext. intros b Hb. apply (k_blk _ _ _ _ Hk); [by apply (fr_used _ _ _ Hf), foot_block|by apply HP].
Qed.

Lemma fdata_split s bm i b :
  bm !! i = Some b -> fdata s bm = fdata s (take i bm) ++ blk s b ++ fdata s (drop (S i) bm).
Proof.
  intros Hb. unfold fdata. rewrite <-(take_drop_middle bm i b Hb) at 1. rewrite fmap_app, concat_app. done.
Qed.

(** One block of a file is rewritten: its part of the data changes. *)
Lemma fdata_write s s' x bm i b off d :
  sfs_wf s -> file_rep s x bm -> bm !! i = Some b -> kept (fun c => c = b) s s' -> blk s' b = splice off d (blk s b) ->
  0 <= off -> off + Z.of_nat (length d) <= SFS_BLKSIZE ->
  fdata s' bm = splice (SFS_BLKSIZE * Z.of_nat i + off) d (fdata s bm).
Proof.
  intros H Hf Hb Hk Hd Ho Hl. assert (Hu : forall c, c ∈ bm -> used s c) by (intros c Hc; by apply (fr_used _ _ _ Hf), foot_block).
  assert (Hnd : NoDup bm) by (pose proof (fr_nodup _ _ _ Hf) as Hnd; by apply NoDup_app in Hnd as (?&_&_)).
  rewrite (fdata_split s' bm i b Hb), (fdata_split s bm i b Hb).
  rewrite <-(take_drop_middle bm i b Hb) in Hnd. apply NoDup_app in Hnd as (_&Hd1&Hnd). apply NoDup_cons in Hnd as [Hd2 _].
  assert (Hsame : forall l, l ⊆ bm -> b ∉ l -> fdata s' l = fdata s l).
  { intros l Hl' Hbl. apply fdata_ext. intros c Hc. apply (k_blk _ _ _ _ Hk); [by apply Hu, Hl'|]. by intros ->. }
  rewrite (Hsame (take i bm)), (Hsame (drop (S i) bm)), Hd; [|by apply subseteq_drop|done|by apply subseteq_take|].
  2:{ intros Hc. apply (Hd1 _ Hc). apply elem_of_cons. by left. }
  pose proof (block_len s b H (Hu b (list_elem_of_lookup_2 _ _ _ Hb))) as [Hlen _].
  assert (Hli : Z.of_nat (length (fdata s (take i bm))) = SFS_BLKSIZE * Z.of_nat i).
  { rewrite fdata_length; [|done|intros c Hc; apply Hu; by apply (subseteq_take i bm)].
    rewrite length_take. apply lookup_lt_Some in Hb. lia. }
  rewrite <-Hli, splice_app_l by (rewrite ?length_app; lia). f_equal. rewrite splice_app_r by lia. done.
Qed.
End file.

Arguments fr_blocks {D dv _ s x bm}. Arguments fr_max {D dv _ s x bm}. Arguments fr_dlen {D dv _ s x bm}.
Arguments fr_direct {D dv _ s x bm}. Arguments fr_noind {D dv _ s x bm}. Arguments fr_ind {D dv _ s x bm}.
Arguments fr_used {D dv _ s x bm}. Arguments fr_nodup {D dv _ s x bm}.
