(* ===== verification/SfsIo.v ===== *)
(** Reading, writing and resizing a file of the Simple File System: the routines
    of [Sfs] that go through a file block by block, on the lemmas of [SfsFile].
    [wrote] is the state in the middle of a write: so many bytes of the buffer
    have replaced the bytes of the file, which has grown by zeros where needed. *)
From S2P Require Import Prelude Cstring Bitmap Iobuf Sfs SfsBlocks SfsFile.
#[local] Abbreviation length := Datatypes.length.

Section io.
Context {D : Type} (dv : device D) `{!BlockDevice dv}.
Abbreviation st := (sfs_fs D).
Abbreviation blk := (blk dv).
Abbreviation sfs_wf := (sfs_wf dv).
Abbreviation kept := (kept dv).
Abbreviation file_rep := (file_rep dv).
Abbreviation fdata := (fdata dv).
Abbreviation fbytes := (fbytes dv).
Implicit Types s : st.

Definition zeros (k : nat) : list Z := replicate (k * Z.to_nat SFS_BLKSIZE) 0.

(** ** Writing *)

Record wrote s0 (n : Z) (x0 : sfs_inode) (bm0 : list Z) (off : Z) (buf : list Z) (alen : Z) s x bm : Prop := {
  wr_wf : sfs_wf s;
  wr_inodes : inodes s = <[n := x]> (inodes s0);
  wr_same : same_file x0 x;
  wr_rep : file_rep s x bm;
  wr_prefix : bm0 `prefix_of` bm;
  wr_fresh : fresh_foot s0 x0 bm0 x bm;
  wr_kept : kept (fun c => c ∈ foot x0 bm0) s0 s;
  wr_len : Z.of_nat (length (fdata s0 bm0)) = SFS_BLKSIZE * Z.of_nat (length bm0);
  wr_pos : 0 <= alen /\ off + alen <= SFS_BLKSIZE * Z.of_nat (length bm);
  wr_data : fdata s bm = splice off (slice 0 alen buf) (fdata s0 bm0 ++ zeros (length bm - length bm0));
}.

Arguments wr_wf {s0 n x0 bm0 off buf alen s x bm}.
Arguments wr_inodes {s0 n x0 bm0 off buf alen s x bm}.
Arguments wr_same {s0 n x0 bm0 off buf alen s x bm}.
Arguments wr_rep {s0 n x0 bm0 off buf alen s x bm}.
Arguments wr_prefix {s0 n x0 bm0 off buf alen s x bm}.
Arguments wr_fresh {s0 n x0 bm0 off buf alen s x bm}.
Arguments wr_kept {s0 n x0 bm0 off buf alen s x bm}.
Arguments wr_len {s0 n x0 bm0 off buf alen s x bm}.
Arguments wr_pos {s0 n x0 bm0 off buf alen s x bm}.
Arguments wr_data {s0 n x0 bm0 off buf alen s x bm}.

Lemma rep_used s x bm b : file_rep s x bm -> b ∈ bm -> used s b.
Proof. intros H Hb. by apply (fr_used H), foot_block. Qed.

Lemma rep_data_length s x bm : sfs_wf s -> file_rep s x bm -> Z.of_nat (length (fdata s bm)) = SFS_BLKSIZE * Z.of_nat (length bm).
Proof. intros H Hf. apply fdata_length; [done|]. intros b Hb. by eapply rep_used. Qed.

Lemma wrote_start s n x bm off buf :
  sfs_wf s -> inodes s !! n = Some x -> file_rep s x bm -> 0 <= off <= SFS_BLKSIZE * Z.of_nat (length bm) ->
  wrote s n x bm off buf 0 s x bm.
Proof.
  intros H Hx Hf Ho. split; [done|by rewrite insert_id|done|done|done| |by apply kept_refl|by eapply rep_data_length|lia|].
  - by intros c Hc _.
  - unfold zeros. rewrite Nat.sub_diag. cbn. by rewrite app_nil_r, slice_nil, splice_nil.
Qed.

(** What the transfer of a block leaves, as seen from the start. *)
Lemma wrote_keeps s0 n x0 bm0 off buf alen s x bm P s' :
  wrote s0 n x0 bm0 off buf alen s x bm -> kept P s s' -> (forall c, P c -> c ∈ foot x bm \/ ~ used s c) ->
  kept (fun c => c ∈ foot x0 bm0) s0 s'.
Proof.
  intros H Hk HP. eapply kept_trans; [apply H|exact Hk|]. intros c Hu Hc. destruct (HP c Hc) as [Hin|Hn].
  - by apply (wr_fresh H).
  - destruct (decide (c ∈ foot x0 bm0)); [done|]. destruct Hn. by apply (k_used _ _ _ _ (wr_kept H)).
Qed.

Lemma wrote_none s0 n x0 bm0 off buf alen s x bm s' :
  wrote s0 n x0 bm0 off buf alen s x bm -> kept none s s' -> inodes s' = inodes s ->
  wrote s0 n x0 bm0 off buf alen s' x bm.
Proof.
  intros H Hk Hin. split; [apply Hk|rewrite Hin; apply H|apply H|by eapply file_rep_none; [apply H|]|apply H|apply H| |apply H|apply H|].
  - eapply wrote_keeps; [done|done|]. by intros c [].
  - rewrite <-(wr_data H). eapply fdata_kept; [apply H|exact Hk|]. auto.
Qed.

Lemma wrote_grow s0 n x0 bm0 off buf alen s x bm s' x' b :
  wrote s0 n x0 bm0 off buf alen s x bm -> 0 <= off -> alen <= Z.of_nat (length buf) ->
  inodes s' = <[n := x']> (inodes s) -> same_file x x' -> file_rep s' x' (bm ++ [b]) ->
  kept (fun c => c = indirect (din x)) s s' -> fresh_foot s x bm x' (bm ++ [b]) ->
  blk s' b = replicate (Z.to_nat SFS_BLKSIZE) 0 -> wrote s0 n x0 bm0 off buf alen s' x' (bm ++ [b]).
Proof.
  intros H Ho Hal Hin Hs Hf Hk Hfr Hz. pose proof (wr_pos H) as Hp. split; [apply Hk| | |done| | | |apply H| |].
  - by rewrite Hin, (wr_inodes H), insert_insert_eq.
  - eapply same_file_trans; [apply H|done].
  - by apply prefix_app_r, H.
  - intros c Hc Hu. destruct (decide (c ∈ foot x0 bm0)) as [|Hn]; [done|].
    apply (wr_fresh H); [|done]. apply Hfr; [done|].
    by apply (k_used _ _ _ _ (wr_kept H)).
  - eapply wrote_keeps; [done|done|]. intros c ->. destruct (decide (indirect (din x) = 0)) as [E|E].
    + right. intros [Hu _]. lia.
    + left. by apply foot_indirect.
  - rewrite length_app. cbn. unfold SFS_BLKSIZE in *. lia.
  - pose proof (rep_data_length _ _ _ (wr_wf H) (wr_rep H)) as Hlen.
    pose proof (wr_data H) as Hd.
    rewrite fdata_snoc, Hz, (fdata_kept dv (fun c => c = indirect (din x)) s s' x bm), Hd; [|apply H|exact Hk|].
    2:{ intros c Hc ->. eapply foot_no_indirect; [apply H|done]. }
    assert (E : length (slice 0 alen buf) = Z.to_nat alen) by (pose proof (length_slice 0 alen buf); lia).
    pose proof (prefix_length _ _ (wr_prefix H)) as Hpre.
    pose proof (wr_len H) as Hl0. assert (HL : Z.of_nat (length (fdata s0 bm0 ++ zeros (length bm - length bm0))) = SFS_BLKSIZE * Z.of_nat (length bm)).
    { rewrite length_app. unfold zeros. rewrite length_replicate. unfold SFS_BLKSIZE in *. lia. }
    rewrite <-splice_app_r by lia. f_equal. rewrite <-app_assoc. f_equal.
    unfold zeros. rewrite <-replicate_add. f_equal. rewrite length_app. cbn [length].
    replace (length bm + 1 - length bm0)%nat with (S (length bm - length bm0)) by lia. cbn [Nat.mul]. apply Nat.add_comm.
Qed.

Lemma wrote_put s0 n x0 bm0 off buf alen s x bm s' i b blkoff len :
  wrote s0 n x0 bm0 off buf alen s x bm -> 0 <= off ->
  bm !! i = Some b -> kept (fun c => c = b) s s' -> inodes s' = inodes s ->
  used s' b -> blk s' b = splice blkoff (slice alen len buf) (blk s b) ->
  SFS_BLKSIZE * Z.of_nat i + blkoff = off + alen -> 0 <= blkoff -> 0 <= len -> blkoff + len <= SFS_BLKSIZE ->
  alen + len <= Z.of_nat (length buf) ->
  wrote s0 n x0 bm0 off buf (alen + len) s' x bm.
Proof.
  intros H Ho Hb Hk Hin Hus Hblk Hpos Hb0 Hl0 Hbl Hbuf. pose proof (wr_pos H) as Hp.
  pose proof (list_elem_of_lookup_2 _ _ _ Hb) as Hbin. pose proof (lookup_lt_Some _ _ _ Hb) as Hilt.
  assert (Hdl : Z.of_nat (length (slice alen len buf)) = len) by (apply length_slice; lia).
  split; [apply Hk|by rewrite Hin; apply H|apply H| |apply H|apply H| |apply H| |].
  - eapply file_rep_data; [exact (wr_rep H)|exact Hk|done|done].
  - eapply wrote_keeps; [done|done|]. intros c ->. left. by apply foot_block.
  - unfold SFS_BLKSIZE in *. lia.
  - rewrite (fdata_write dv s s' x bm i b blkoff (slice alen len buf)); [|apply H|apply H|done|done|done|done|lia].
    rewrite (wr_data H), Hpos. pose proof (wr_len H) as Hlen. pose proof (prefix_length _ _ (wr_prefix H)) as Hpre.
    assert (E : Z.of_nat (length (slice 0 alen buf)) = alen) by (apply length_slice; lia).
    rewrite <-E at 1. rewrite splice_app; [|done|].
    + f_equal. symmetry. rewrite <-(Z.add_0_l alen) at 2. by apply slice_app; lia.
    + rewrite E, Hdl, length_app. unfold zeros. rewrite length_replicate. unfold SFS_BLKSIZE in *. lia.
Qed.

(** One piece of a write. *)
Lemma wp_piece_write s0 n x0 bm0 off buf alen s x bm blkno blkoff len whole (Q : Z * Z * list Z -> st -> Prop) :
  inodes s0 !! n = Some x0 -> wrote s0 n x0 bm0 off buf alen s x bm -> 0 <= off -> 0 <= blkno < SFS_NDIRECT + SFS_BLK_NENTRY ->
  SFS_BLKSIZE * blkno + blkoff = off + alen -> 0 <= blkoff -> 0 < len -> blkoff + len <= SFS_BLKSIZE ->
  alen + len <= Z.of_nat (length buf) -> Forall is_byte buf -> (whole = true -> blkoff = 0 /\ len = SFS_BLKSIZE) ->
  (forall r s' x' bm', r <> 0 -> wrote s0 n x0 bm0 off buf alen s' x' bm' -> Q (r, alen, buf) s') ->
  (forall s' x' bm', wrote s0 n x0 bm0 off buf (alen + len) s' x' bm' ->
     Z.of_nat (length bm') = Z.max (Z.of_nat (length bm)) (blkno + 1) -> Q (0, alen + len, buf) s') ->
  wp (io_piece dv n true buf alen blkno blkoff len whole) Q s.
Proof.
  intros Hx0 H Ho Hbn Hpos Hb0 Hlen Hbl Hbuf Hby Hwh HE HS. pose proof (wr_pos H) as Hp. unfold io_piece. kstep.
  assert (Hput : forall s1 x1 bm1 b, wrote s0 n x0 bm0 off buf alen s1 x1 bm1 -> bm1 !! Z.to_nat blkno = Some b ->
    Z.of_nat (length bm1) = Z.max (Z.of_nat (length bm)) (blkno + 1) ->
    wp ('(r, buf1) ← (if whole then block_op dv true buf alen b else buf_op dv true buf alen len b blkoff);
        if bool_decide (r <> 0) then mret (r, alen, buf1) else mret (0, alen + len, buf1)) Q s1).
  { intros s1 x1 bm1 b H1 Hb Hl1. pose proof (rep_used _ _ _ b (wr_rep H1) (list_elem_of_lookup_2 _ _ _ Hb)) as [Hu _].
    assert (Hend : forall r s2, kept (fun c => c = b) s1 s2 -> inodes s2 = inodes s1 -> freemap s2 = freemap s1 ->
      blk s2 b = (if decide (r = 0) then splice blkoff (slice alen len buf) (blk s1 b) else blk s1 b) ->
      wp (if bool_decide (r <> 0) then mret (r, alen, buf) else mret (0, alen + len, buf)) Q s2).
    { intros r s2 Hk Hin Hfm Hblk.
      assert (Hus : used s2 b).
      { pose proof (rep_used _ _ _ b (wr_rep H1) (list_elem_of_lookup_2 _ _ _ Hb)) as [Hub1 Hub2].
        split; [by rewrite (k_super _ _ _ _ Hk)|by rewrite Hfm]. }
      destruct (decide (r = 0)) as [->|Hr].
      - rewrite (bool_decide_false (0 <> 0)) by lia. apply wp_ret. apply (HS s2 x1 bm1); [|done].
        eapply (wrote_put _ _ _ _ _ _ _ s1 x1 bm1 s2 (Z.to_nat blkno) b blkoff len); (done || (rewrite Z2Nat.id by lia; done) || lia).
      - rewrite (bool_decide_true (r <> 0)) by done. apply wp_ret. apply (HE r s2 x1 bm1); [done|].
        eapply wrote_none; [exact H1| |done]. by eapply kept_same. }
    kstep. destruct whole.
    - destruct (Hwh eq_refl) as [-> ->]. unfold block_op, sfs_wblock.
      apply (wp_sfs_rwblock1 dv); [apply H1|done|lia|done|done|].
      intros r buf' s2 Hk Hin Hfm Hblk (blk'&Hok&->&Hr). cbv beta iota.
      rewrite (Hr (or_intror eq_refl)), splice_slice by lia.
      apply Hend; [by eapply kept_weaken; [exact Hk|intros c []]|done|done|]. rewrite Hblk.
      destruct (decide (r = 0)) as [E|E]; [rewrite decide_True by done|by rewrite decide_False by tauto].
      pose proof (block_len dv s1 b (wr_wf H1) (rep_used _ _ _ b (wr_rep H1) (list_elem_of_lookup_2 _ _ _ Hb))) as [E1 _].
      rewrite splice_all; [done|]. pose proof (length_slice alen SFS_BLKSIZE buf). lia.
    - unfold buf_op. kstep. apply (wp_sfs_wbuf dv); [apply H1|done|done|lia|lia|done|lia|done|done|].
      intros r s2 Hk Hin Hfm Hblk. apply wp_ret. by apply Hend. }
  pose proof (rep_data_length _ _ _ (wr_wf H) (wr_rep H)) as Hdl.
  eapply (wp_bmap_load dv s n x bm blkno); [apply H|rewrite (wr_inodes H); apply lookup_insert_eq|apply H|lia|unfold SFS_BLKSIZE in *; lia|lia| | |].
  - intros r b s1 Hr Hk Hin. cbv beta iota. rewrite (bool_decide_true (r <> 0)) by done. apply wp_ret.
    apply (HE r s1 x bm); [done|]. by eapply wrote_none.
  - intros b s1 Hb Hk Hin. cbv beta iota. rewrite (bool_decide_false (0 <> 0)) by lia. pose proof (lookup_lt_Some _ _ _ Hb).
    apply (Hput s1 x bm b); [by eapply wrote_none|done|lia].
  - intros b x1 s1 Hn Hin Hs Hf Hk Hfr Hz. cbv beta iota. rewrite (bool_decide_false (0 <> 0)) by lia.
    apply (Hput s1 x1 (bm ++ [b]) b); [by eapply wrote_grow; (done || lia)| |rewrite length_app; cbn; lia].
    by rewrite Hn, lookup_app_r, Nat.sub_diag.
Qed.

(** ** The way through a file, for reading and for writing

    [I alen buf] holds when [alen] bytes have been moved, [E] when a piece has
    failed; a piece is a part of one block. *)
Section transfer.
Context (n : Z) (write : bool) (off endpos : Z).
Context (I : Z -> list Z -> st -> Prop) (E : Z -> list Z -> st -> Prop).

Definition io_post (alen' : Z) (a : Z * Z * list Z) s : Prop :=
  let '(r, alen, buf) := a in (r <> 0 /\ E alen buf s) \/ (r = 0 /\ alen = alen' /\ I alen' buf s).

Hypothesis piece : forall s buf alen blkno blkoff len whole,
  I alen buf s -> 0 <= alen -> 0 <= blkno -> 0 <= blkoff -> 0 < len -> blkoff + len <= SFS_BLKSIZE ->
  SFS_BLKSIZE * blkno + blkoff = off + alen -> off + alen + len <= endpos ->
  (whole = true -> blkoff = 0 /\ len = SFS_BLKSIZE) ->
  wp (io_piece dv n write buf alen blkno blkoff len whole) (io_post (alen + len)) s.
Hypothesis off_pos : 0 <= off < endpos.
Hypothesis end_small : endpos < 2 ^ 32.

Lemma wp_io_blocks k s buf alen blkno :
  I alen buf s -> 0 <= alen -> 0 <= blkno -> SFS_BLKSIZE * blkno = off + alen -> off + alen + SFS_BLKSIZE * Z.of_nat k <= endpos ->
  wp (io_blocks dv k n write buf alen blkno) (io_post (alen + SFS_BLKSIZE * Z.of_nat k)) s.
Proof.
  revert s buf alen blkno. induction k as [|k IH]; intros s buf alen blkno HI Ha Hb Hpos Hend; cbn [io_blocks].
  { apply wp_ret. right. by replace (alen + SFS_BLKSIZE * Z.of_nat 0) with alen by lia. }
  change SFS_BLKSIZE with 4096 in *. kstep.
  eapply wp_mono; [eapply piece; [exact HI|lia|lia|lia|lia|change SFS_BLKSIZE with 4096; lia|change SFS_BLKSIZE with 4096; lia|lia|done]|].
  intros [[r a] b] s1 [[Hr HE]|(->&->&HI1)].
  - rewrite (bool_decide_true (r <> 0)) by done. apply wp_ret. by left.
  - rewrite (bool_decide_false (0 <> 0)) by lia. rewrite uwrap_small by lia.
    replace (alen + 4096 * Z.of_nat (S k)) with (alen + 4096 + 4096 * Z.of_nat k) by lia. apply IH; (done || lia).
Qed.

Lemma wp_io_transfer s buf : I 0 buf s -> wp (io_transfer dv n write buf off endpos) (io_post (endpos - off)) s.
Proof.
  intros HI. change SFS_BLKSIZE with 4096 in *. unfold io_transfer. change SFS_BLKSIZE with 4096.
  pose proof (Z.div_mod off 4096 ltac:(lia)) as D1. pose proof (Z.mod_pos_bound off 4096 ltac:(lia)) as M1.
  pose proof (Z.div_mod endpos 4096 ltac:(lia)) as D2. pose proof (Z.mod_pos_bound endpos 4096 ltac:(lia)) as M2.
  cbv zeta. rewrite (uwrap_small 32 (off / 4096)) by lia. rewrite (uwrap_small 32 (endpos / 4096 - off / 4096)) by lia.
  set (q1 := off / 4096) in *. set (m1 := off mod 4096) in *. set (q2 := endpos / 4096) in *. set (m2 := endpos mod 4096) in *.
  (** What follows the first piece. *)
  assert (Hrest : forall s buf alen blkno, I alen buf s -> 0 <= alen -> 0 <= blkno <= q2 -> 4096 * blkno = off + alen ->
    wp ('(r, alen, buf) ← io_blocks dv (Z.to_nat (q2 - blkno)) n write buf alen blkno;
        if bool_decide (r <> 0) || bool_decide (m2 = 0) then mret (r, alen, buf)
        else io_piece dv n write buf alen (u32 (blkno + (q2 - blkno))) 0 m2 false) (io_post (endpos - off)) s).
  { intros s1 b1 alen blkno HI1 Ha Hb Hpos. kstep.
    eapply wp_mono; [apply wp_io_blocks; [exact HI1|done|lia|done|change SFS_BLKSIZE with 4096; lia]|].
    change SFS_BLKSIZE with 4096. intros [[r a] b] s2 [[Hr HE]|(->&->&HI2)].
    - rewrite (bool_decide_true (r <> 0)) by done. apply wp_ret. by left.
    - rewrite (bool_decide_false (0 <> 0)) by lia. cbn [orb]. case_bool_decide as Em.
      + apply wp_ret. right. replace (endpos - off) with (alen + 4096 * Z.of_nat (Z.to_nat (q2 - blkno))) by lia. done.
      + rewrite uwrap_small by lia. replace (endpos - off) with (alen + 4096 * Z.of_nat (Z.to_nat (q2 - blkno)) + m2) by lia.
        apply piece; (done || lia || (change SFS_BLKSIZE with 4096; lia)). }
  kstep. destruct (decide (m1 = 0)) as [E1|E1].
  - rewrite !(bool_decide_false (m1 <> 0)) by lia. apply wp_ret. rewrite (bool_decide_false (0 <> 0)) by lia.
    rewrite (bool_decide_false (m1 <> 0 /\ q2 - q1 = 0)) by lia. cbn [orb]. apply (Hrest s buf 0 q1); (done || lia).
  - rewrite !(bool_decide_true (m1 <> 0)) by done. set (len := if bool_decide _ then _ else _).
    assert (Hlen : len = if decide (q2 = q1) then endpos - off else 4096 - m1).
    { unfold len. destruct (decide (q2 = q1)); [by rewrite bool_decide_false by lia|by rewrite bool_decide_true by lia]. }
    clearbody len. eapply wp_mono.
    { apply (piece s buf 0 q1 m1 len); [done|lia|lia|lia| | |change SFS_BLKSIZE with 4096; lia| |done];
        change SFS_BLKSIZE with 4096; rewrite Hlen; destruct (decide (q2 = q1)); lia. }
    intros [[r a] b] s1 [[Hr HE]|(->&->&HI1)].
    + rewrite (bool_decide_true (r <> 0)) by done. apply wp_ret. by left.
    + rewrite (bool_decide_false (0 <> 0)) by lia. cbn [orb]. destruct (decide (q2 = q1)) as [E2|E2].
      * rewrite (bool_decide_true (m1 <> 0 /\ q2 - q1 = 0)) by lia. apply wp_ret. right. by rewrite Hlen in *.
      * rewrite (bool_decide_false (m1 <> 0 /\ q2 - q1 = 0)) by lia. rewrite (uwrap_small 32 (q1 + 1)) by lia.
        replace (q2 - q1 - 1) with (q2 - (q1 + 1)) by lia. apply (Hrest s1 b (0 + len) (q1 + 1)); (done || lia).
Qed.
End transfer.

Definition blocks_for (k : Z) : Z := (k + SFS_BLKSIZE - 1) / SFS_BLKSIZE.

Lemma blocks_for_spec k q : blocks_for k = q <-> SFS_BLKSIZE * (q - 1) < k <= SFS_BLKSIZE * q.
Proof. unfold blocks_for. change SFS_BLKSIZE with 4096. zlia. Qed.

(** The largest file the block map can hold. *)
Definition MAX_BYTES : Z := SFS_BLKSIZE * (SFS_NDIRECT + SFS_BLK_NENTRY).

(** The file [n] after [k] of the bytes of [buf] have been written at [off]. *)
Record written s n (x : sfs_inode) bm off buf k s' x' bm' : Prop := {
  wn_wf : sfs_wf s';
  wn_inodes : inodes s' = <[n := x']> (inodes s);
  wn_rep : file_rep s' x' bm';
  wn_size : din_size (din x') = Z.max (din_size (din x)) (off + k);
  wn_type : din_type (din x') = din_type (din x);
  wn_nlinks : nlinks (din x') = nlinks (din x);
  wn_ino : ino x' = ino x;
  wn_sem : sem x' = sem x;
  wn_prefix : bm `prefix_of` bm';
  wn_fresh : fresh_foot s x bm x' bm';
  wn_kept : kept (fun c => c ∈ foot x bm) s s';
  wn_fits : din_size (din x') <= SFS_BLKSIZE * Z.of_nat (length bm');
  wn_data : fdata s' bm' = splice off (slice 0 k buf) (fdata s bm ++ zeros (length bm' - length bm));
}.

Lemma file_rep_din s x x' bm :
  file_rep s x bm -> blocks (din x') = blocks (din x) -> direct (din x') = direct (din x) ->
  indirect (din x') = indirect (din x) -> file_rep s x' bm.
Proof.
  intros [] Eb Ed Ei. unfold foot in *.
  split; rewrite ?Eb, ?Ed, ?Ei; try done; unfold foot; rewrite Ei; done.
Qed.

Lemma kept_then_set P s s' m : kept P s s' -> kept P s (set_inodes m s').
Proof. intros H. eapply kept_trans_none; [exact H|]. apply kept_set_inodes, H. Qed.

(** The end of [sfs_io_nolock]: the size of the file is raised. *)
Lemma wp_io_end s0 n x0 bm0 off buf alen s x bm r buf' (Q : Z * Z * list Z -> st -> Prop) :
  wrote s0 n x0 bm0 off buf alen s x bm -> inodes s0 !! n = Some x0 -> 0 <= off -> off + alen < 2 ^ 32 ->
  din_size (din x0) <= SFS_BLKSIZE * Z.of_nat (length bm0) ->
  (forall s' x', written s0 n x0 bm0 off buf alen s' x' bm -> Q (r, alen, buf') s') ->
  wp (x ← sin_at n;
      when (off + alen >? din_size (din x)) (din_upd n (set_din_size (u32 (off + alen)));; sin_upd n (set_dirty true));;
      mret (r, alen, buf')) Q s.
Proof.
  intros H Hx0 Ho Hend Hfit HQ. pose proof (wr_pos H) as Hp. pose proof (wr_same H) as Hs.
  assert (Hx : inodes s !! n = Some x) by (rewrite (wr_inodes H); apply lookup_insert_eq).
  pose proof (prefix_length _ _ (wr_prefix H)) as Hpre.
  kstep. eapply wp_sin_at; [exact Hx|]. kstep. apply wp_when; intros E.
  - apply Z.gtb_lt in E. kstep. unfold din_upd. eapply wp_sin_upd; [exact Hx|].
    eapply wp_sin_upd; [cbn; apply lookup_insert_eq|]. apply wp_ret.
    set (x' := set_dirty true _). cbn [inodes set_inodes]. rewrite insert_insert_eq, (wr_inodes H), insert_insert_eq.
    change (set_inodes _ (set_inodes _ s)) with (set_inodes (<[n := x']> (inodes s0)) s).
    assert (Hk2 : kept none s (set_inodes (<[n := x']> (inodes s0)) s)) by (apply kept_set_inodes, H).
    rewrite (sf_size _ _ Hs) in E. apply (HQ _ x'). split; try (apply Hs || apply H || done).
    + apply wf_set_inodes, H.
    + eapply file_rep_none; [|exact Hk2]. eapply file_rep_din; [apply H|done..].
    + cbn. rewrite uwrap_small by lia. lia.
    + apply kept_then_set, H.
    + cbn. rewrite uwrap_small by lia. lia.
  - rewrite Z.gtb_ltb, Z.ltb_ge in E. apply wp_ret. rewrite (sf_size _ _ Hs) in E. apply (HQ s x).
    split; try (apply Hs || apply H || done).
    + rewrite (sf_size _ _ Hs). lia.
    + rewrite (sf_size _ _ Hs). unfold SFS_BLKSIZE in *. lia.
Qed.

Lemma wrote_written s n x bm off buf :
  sfs_wf s -> inodes s !! n = Some x -> file_rep s x bm -> 0 <= din_size (din x) <= SFS_BLKSIZE * Z.of_nat (length bm) ->
  0 <= off <= din_size (din x) -> written s n x bm off buf 0 s x bm.
Proof.
  intros H Hx Hf Hsz Ho. pose proof (wrote_start s n x bm off buf H Hx Hf ltac:(lia)) as Hw.
  split; try (apply Hw || done); lia.
Qed.

Lemma wp_io_write s n x bm off alen buf (Q : Z * Z * list Z -> st -> Prop) :
  sfs_wf s -> inodes s !! n = Some x -> file_rep s x bm -> din_type (din x) <> SFS_TYPE_DIR ->
  0 <= din_size (din x) <= SFS_BLKSIZE * Z.of_nat (length bm) -> 0 <= off <= din_size (din x) ->
  0 <= alen <= Z.of_nat (length buf) -> off + alen <= MAX_BYTES -> Forall is_byte buf ->
  (forall r k s' x' bm', 0 <= k <= alen -> (r = 0 -> k = alen /\ Z.of_nat (length bm') = Z.max (Z.of_nat (length bm)) (blocks_for (off + alen))) ->
     written s n x bm off buf k s' x' bm' -> Q (r, k, buf) s') ->
  wp (sfs_io_nolock dv n buf off alen true) Q s.
Proof.
  intros H Hx Hf Ht Hsz Ho Hal Hend Hby HQ. assert (EM : MAX_BYTES = 4243456) by done.
  pose proof (wrote_start s n x bm off buf H Hx Hf ltac:(lia)) as H0.
  unfold sfs_io_nolock. kstep. eapply wp_sin_at; [exact Hx|]. kstep. kstep; [by apply negb_true_iff, Z.eqb_neq|].
  assert (Es : s64 (off + alen) = off + alen) by (apply swrap_small; lia). rewrite Es.
  destruct (Z.ltb_spec off 0); [lia|]. destruct (Z.geb_spec off SFS_MAX_FILE_SIZE) as [Hbig|_]; [unfold SFS_MAX_FILE_SIZE in Hbig; lia|].
  destruct (Z.gtb_spec off (off + alen)); [lia|]. cbn [orb negb andb].
  assert (Hstart : Z.of_nat (length bm) = Z.max (Z.of_nat (length bm)) (blocks_for (off + 0))).
  { unfold blocks_for. change SFS_BLKSIZE with 4096 in *. zlia. }
  assert (Hfin : forall r a s' x' bm', 0 <= a <= alen -> wrote s n x bm off buf a s' x' bm' ->
    (r = 0 -> a = alen /\ Z.of_nat (length bm') = Z.max (Z.of_nat (length bm)) (blocks_for (off + alen))) ->
    wp (x ← sin_at n; when (off + a >? din_size (din x)) (din_upd n (set_din_size (u32 (off + a)));; sin_upd n (set_dirty true));;
        mret (r, a, buf)) Q s').
  { intros r a s' x' bm' Ha Hw Hr. eapply wp_io_end; [exact Hw|exact Hx|lia|lia|lia|]. intros s2 x2 Hw2. by eapply HQ. }
  destruct (Z.eqb_spec off (off + alen)) as [E0|E0].
  - apply wp_ret. assert (alen = 0) as -> by lia. eapply (HQ 0 0 s x bm); [lia|done|]. by apply wrote_written.
  - destruct (Z.gtb_spec (off + alen) SFS_MAX_FILE_SIZE) as [Hbig|_]; [unfold SFS_MAX_FILE_SIZE in Hbig; lia|]. kstep.
    pose (I := fun a b (s' : st) => b = buf /\ exists x' bm', wrote s n x bm off buf a s' x' bm' /\
      Z.of_nat (length bm') = Z.max (Z.of_nat (length bm)) (blocks_for (off + a))).
    pose (E := fun a b (s' : st) => b = buf /\ 0 <= a <= alen /\ exists x' bm', wrote s n x bm off buf a s' x' bm').
    eapply wp_mono; [apply (wp_io_transfer n true off (off + alen) I E)|].
    + intros s1 b a blkno blkoff len whole (->&x1&bm1&Hw&Hl) Ha Hb Hbo Hlen Hbl Hpos Hle Hwh.
      eapply (wp_piece_write s n x bm off buf a s1 x1 bm1); [exact Hx|exact Hw|lia| |done|done|done|done|lia|done|done| |].
      * change (SFS_NDIRECT + SFS_BLK_NENTRY) with 1036. change SFS_BLKSIZE with 4096 in *. lia.
      * intros r s2 x2 bm2 Hr Hw2. left. split; [done|]. split_and!; [done|lia|lia|by exists x2, bm2].
      * intros s2 x2 bm2 Hw2 Hl2. right. split; [done|]. split; [done|]. split; [done|]. exists x2, bm2. split; [done|]. rewrite Hl2, Hl.
        pose proof (proj1 (blocks_for_spec (off + a) _) eq_refl) as B1.
        assert (B2 : blocks_for (off + (a + len)) = blkno + 1) by (apply blocks_for_spec; change SFS_BLKSIZE with 4096 in *; lia).
        rewrite B2. change SFS_BLKSIZE with 4096 in *. lia.
    + lia.
    + lia.
    + split; [done|]. by exists x, bm.
    + replace (off + alen - off) with alen by lia. intros [[r a] b] s' [(Hr&->&Ha&x'&bm'&Hw)|(->&->&->&x'&bm'&Hw&Hl)].
      * apply (Hfin r a s' x' bm'); [done|exact Hw|by intros ->].
      * apply (Hfin 0 alen s' x' bm'); [lia|exact Hw|done].
Qed.

(** ** Reading *)
Lemma fdata_read s x bm i b o len :
  sfs_wf s -> file_rep s x bm -> bm !! i = Some b -> 0 <= o -> 0 <= len -> o + len <= SFS_BLKSIZE ->
  slice (SFS_BLKSIZE * Z.of_nat i + o) len (fdata s bm) = slice o len (blk s b).
Proof.
  intros H Hf Hb Ho Hl Hol. rewrite (fdata_split dv s bm i b Hb).
  assert (Hu : forall c, c ∈ bm -> used s c) by (intros c Hc; by eapply rep_used).
  pose proof (block_len dv s b H (Hu b (list_elem_of_lookup_2 _ _ _ Hb))) as [Hlen _].
  replace (SFS_BLKSIZE * Z.of_nat i) with (Z.of_nat (length (fdata s (take i bm)))).
  - rewrite slice_app_right by done. apply slice_app_left; lia.
  - rewrite fdata_length; [|done|intros c Hc; apply Hu; by apply (subseteq_take i bm)].
    rewrite length_take. apply lookup_lt_Some in Hb. lia.
Qed.

(** [alen] bytes have been read: the front of the buffer is a part of the file. *)
Record readed s0 bm off (size : nat) (alen : Z) (buf : list Z) s : Prop := {
  rd_kept : kept none s0 s;
  rd_inodes : inodes s = inodes s0;
  rd_len : length buf = size;
  rd_bytes : Forall is_byte buf;
  rd_data : slice 0 alen buf = slice off alen (fdata s0 bm);
}.

Lemma readed_step s0 bm off size alen buf s s' d len :
  readed s0 bm off size alen buf s -> kept none s s' -> inodes s' = inodes s -> 0 <= off -> 0 <= alen -> 0 <= len ->
  Forall is_byte d -> alen + Z.of_nat (length d) <= Z.of_nat size -> len <= Z.of_nat (length d) ->
  slice 0 len d = slice (off + alen) len (fdata s0 bm) -> readed s0 bm off size (alen + len) (splice alen d buf) s'.
Proof.
  intros [Hk Hin Hlen Hby Hd] Hk' Hin' Ho Ha Hl Hbd Hfit Hle Hdata. split.
  - by eapply kept_trans_none.
  - by rewrite Hin'.
  - rewrite length_splice by lia. done.
  - by apply Forall_splice.
  - rewrite !slice_app by lia. rewrite <-Hdata, <-Hd. f_equal; [apply slice_splice_ne; lia|].
    rewrite <-(slice_splice_eq alen d buf) at 2 by lia. rewrite slice_slice by lia. by rewrite Z.add_0_r.
Qed.

Lemma wp_piece_read s0 n x bm off size endpos alen buf s blkno blkoff len whole :
  inodes s0 !! n = Some x -> file_rep s0 x bm -> 0 <= off -> endpos <= SFS_BLKSIZE * Z.of_nat (length bm) ->
  endpos - off <= Z.of_nat size -> readed s0 bm off size alen buf s ->
  0 <= alen -> 0 <= blkno -> 0 <= blkoff -> 0 < len -> blkoff + len <= SFS_BLKSIZE ->
  SFS_BLKSIZE * blkno + blkoff = off + alen -> off + alen + len <= endpos -> (whole = true -> blkoff = 0 /\ len = SFS_BLKSIZE) ->
  wp (io_piece dv n false buf alen blkno blkoff len whole)
    (io_post (readed s0 bm off size) (fun a b s' => 0 <= a <= endpos - off /\ readed s0 bm off size a b s') (alen + len)) s.
Proof.
  intros Hx Hf0 Ho Hend Hsize Hr Ha Hbn Hbo Hlen Hbl Hpos Hle Hwh.
  assert (Hf : file_rep s x bm) by (eapply file_rep_none; [done|apply Hr]).
  pose proof (fr_max Hf) as Hmax. change (SFS_NDIRECT + SFS_BLK_NENTRY) with 1036 in Hmax. change SFS_BLKSIZE with 4096 in *.
  unfold io_piece. kstep.
  assert (Hfail : forall r b s', r <> 0 -> readed s0 bm off size alen b s' ->
    wp (if bool_decide (r <> 0) then mret (r, alen, b) else mret (0, alen + len, b))
      (io_post (readed s0 bm off size) (fun a b s' => 0 <= a <= endpos - off /\ readed s0 bm off size a b s') (alen + len)) s').
  { intros r b s' Hr0 Hrd. rewrite (bool_decide_true (r <> 0)) by done. apply wp_ret. left. split; [done|]. split; [lia|done]. }
  eapply (wp_bmap_load dv s n x bm blkno); [apply Hr|by rewrite (rd_inodes _ _ _ _ _ _ _ Hr)|done|done|lia| | | |].
  - change (SFS_NDIRECT + SFS_BLK_NENTRY) with 1036. lia.
  - intros r b s1 Hr0 Hk Hin. cbv beta iota. rewrite (bool_decide_true (r <> 0)) by done. apply wp_ret.
    left. split; [done|]. split; [lia|]. destruct Hr. split; [by eapply kept_trans_none|by rewrite Hin|done..].
  - intros b s1 Hb Hk Hin. cbv beta iota. rewrite (bool_decide_false (0 <> 0)) by lia.
    assert (Hr1 : readed s0 bm off size alen buf s1) by (destruct Hr; split; [by eapply kept_trans_none|by rewrite Hin|done..]).
    assert (Hf1 : file_rep s1 x bm) by (eapply file_rep_none; [exact Hf0|apply Hr1]).
    pose proof (list_elem_of_lookup_2 _ _ _ Hb) as Hbin.
    pose proof (rep_used _ _ _ b Hf1 Hbin) as [Hu _]. pose proof (rd_len _ _ _ _ _ _ _ Hr1) as Hbl1.
    assert (Hd : slice blkoff len (blk s1 b) = slice (off + alen) len (fdata s0 bm)).
    { rewrite <-Hpos. replace (4096 * blkno) with (SFS_BLKSIZE * Z.of_nat (Z.to_nat blkno)) by (change SFS_BLKSIZE with 4096; lia).
      assert (Hw0 : sfs_wf s1) by apply Hr1.
      rewrite <-(fdata_read s1 x bm (Z.to_nat blkno) b blkoff len Hw0 Hf1 Hb) by (change SFS_BLKSIZE with 4096; lia).
      f_equal. eapply fdata_kept; [exact Hf0|apply Hr1|auto]. }
    pose proof (block_len dv s1 b ltac:(apply Hr1) (rep_used _ _ _ b Hf1 Hbin)) as [Hlb Hbb]. change SFS_BLKSIZE with 4096 in Hlb.
    assert (Hls : Z.of_nat (length (slice blkoff len (blk s1 b))) = len) by (apply length_slice; lia).
    kstep. destruct whole.
    + destruct (Hwh eq_refl) as [-> ->]. unfold block_op, sfs_rblock.
      apply (wp_sfs_rwblock1 dv); [apply Hr1|done|lia|change SFS_BLKSIZE with 4096; lia|apply Hr1|].
      intros r buf' s2 Hk2 Hin2 _ _ (blk'&[Hl' Hb']&->&Hbk). cbv beta iota. change SFS_BLKSIZE with 4096 in Hl'.
      assert (Hk2' : kept none s1 s2) by (eapply kept_weaken; [exact Hk2|by intros c []]).
      destruct (decide (r = 0)) as [->|Hr0].
      * rewrite (bool_decide_false (0 <> 0)) by lia. apply wp_ret. right. split; [done|]. split; [done|].
        assert (blk' = blk s1 b) as -> by (by apply Hbk; left).
        eapply readed_step; [exact Hr1|exact Hk2'|exact Hin2|done|done|lia|done|lia|lia|exact Hd].
      * apply Hfail; [done|]. replace alen with (alen + 0) at 1 by lia.
        eapply readed_step; [exact Hr1|exact Hk2'|exact Hin2|done|done|lia|done|lia|lia|done].
    + unfold buf_op. apply (wp_sfs_rbuf dv); [apply Hr1|done|done|change SFS_BLKSIZE with 4096; lia|lia|done|lia|lia|].
      intros r s2 Hk2 Hin2 _. cbv beta iota. destruct (decide (r = 0)) as [->|Hr0].
      * rewrite (bool_decide_false (0 <> 0)) by lia. apply wp_ret. right. split; [done|]. split; [done|].
        eapply readed_step; [exact Hr1|exact Hk2|exact Hin2|done|done|lia|by apply Forall_slice|lia|lia|].
        rewrite <-Hd. rewrite slice_slice by lia. by rewrite Z.add_0_r.
      * apply Hfail; [done|]. destruct Hr1. split; [by eapply kept_trans_none|by rewrite Hin2|done..].
  - intros b x' s' E. lia.
Qed.

Lemma wp_io_read s n x bm off alen buf (Q : Z * Z * list Z -> st -> Prop) :
  sfs_wf s -> inodes s !! n = Some x -> file_rep s x bm -> din_type (din x) <> SFS_TYPE_DIR ->
  0 <= din_size (din x) <= SFS_BLKSIZE * Z.of_nat (length bm) -> 0 <= off < SFS_MAX_FILE_SIZE ->
  0 <= alen <= Z.of_nat (length buf) -> alen < 2 ^ 62 -> Forall is_byte buf ->
  (forall r k buf' s', 0 <= k <= Z.max 0 (Z.min alen (din_size (din x) - off)) ->
     (r = 0 -> k = Z.max 0 (Z.min alen (din_size (din x) - off))) -> kept none s s' -> inodes s' = inodes s ->
     length buf' = length buf -> slice 0 k buf' = slice off k (fbytes s x bm) -> Q (r, k, buf') s') ->
  wp (sfs_io_nolock dv n buf off alen false) Q s.
Proof.
  intros H Hx Hf Ht Hsz Ho Hal Hbig Hby HQ. unfold SFS_MAX_FILE_SIZE in Ho.
  pose proof (fr_max Hf) as Hmax. change (SFS_NDIRECT + SFS_BLK_NENTRY) with 1036 in Hmax. change SFS_BLKSIZE with 4096 in *.
  unfold sfs_io_nolock. kstep. eapply wp_sin_at; [exact Hx|]. kstep. kstep; [by apply negb_true_iff, Z.eqb_neq|].
  assert (Es : s64 (off + alen) = off + alen) by (apply swrap_small; lia). rewrite Es.
  destruct (Z.ltb_spec off 0); [lia|]. destruct (Z.geb_spec off SFS_MAX_FILE_SIZE) as [Hb|_]; [unfold SFS_MAX_FILE_SIZE in Hb; lia|].
  destruct (Z.gtb_spec off (off + alen)); [lia|]. cbn [orb negb andb].
  assert (Hnone : Z.max 0 (Z.min alen (din_size (din x) - off)) = 0 -> Q (0, 0, buf) s).
  { intros E. apply (HQ 0 0 buf s); [lia|by rewrite E|by apply kept_refl|done|done|done]. }
  destruct (Z.eqb_spec off (off + alen)); [apply wp_ret, Hnone; lia|].
  destruct (Z.geb_spec off (din_size (din x))); [apply wp_ret, Hnone; lia|].
  match goal with |- context [io_transfer _ _ _ _ _ ?e] => set (endpos := e) end.
  assert (He : endpos = Z.min (off + alen) (din_size (din x))).
  { unfold endpos, SFS_MAX_FILE_SIZE. destruct (Z.gtb_spec (off + alen) (1024 * 1024 * 128)).
    - destruct (Z.gtb_spec (1024 * 1024 * 128) (din_size (din x))); lia.
    - destruct (Z.gtb_spec (off + alen) (din_size (din x))); lia. }
  clearbody endpos. kstep.
  assert (Hend : forall r a b s', 0 <= a <= endpos - off -> (r = 0 -> a = endpos - off) -> readed s bm off (length buf) a b s' ->
    wp (x ← sin_at n; when (off + a >? din_size (din x)) (din_upd n (set_din_size (u32 (off + a)));; sin_upd n (set_dirty true));;
        mret (r, a, b)) Q s').
  { intros r a b s' Ha Hr Hrd. kstep. eapply wp_sin_at; [rewrite (rd_inodes _ _ _ _ _ _ _ Hrd); exact Hx|]. kstep.
    apply wp_when; intros E; [apply Z.gtb_lt in E; lia|]. apply wp_ret.
    apply HQ; [lia|intros ->; rewrite Hr by done; lia|apply Hrd|apply Hrd|apply Hrd|].
    rewrite (rd_data _ _ _ _ _ _ _ Hrd). unfold fbytes. pose proof (rep_data_length _ _ _ H Hf) as Hlen. change SFS_BLKSIZE with 4096 in Hlen.
    change (take (Z.to_nat (din_size (din x))) (fdata s bm)) with (slice 0 (din_size (din x)) (fdata s bm)).
    rewrite slice_slice by lia. done. }
  eapply wp_mono; [eapply (wp_io_transfer n false off endpos (readed s bm off (length buf))
    (fun a b s' => 0 <= a <= endpos - off /\ readed s bm off (length buf) a b s'))|].
  - intros s1 b a blkno blkoff len whole HI Ha Hbn Hbo Hlen Hbl Hpos Hle Hwh.
    eapply (wp_piece_read s n x bm off (length buf) endpos); try done; [change SFS_BLKSIZE with 4096; lia|lia].
  - lia.
  - lia.
  - split; [by apply kept_refl|done|done|done|by rewrite !slice_nil].
  - intros [[r a] b] s' [(Hr&Ha&Hrd)|(->&->&Hrd)]; apply Hend; (done || lia).
Qed.
End io.

Arguments wr_wf {D dv _ s0 n x0 bm0 off buf alen s x bm}.
Arguments wr_inodes {D dv _ s0 n x0 bm0 off buf alen s x bm}.
Arguments wr_same {D dv _ s0 n x0 bm0 off buf alen s x bm}.
Arguments wr_rep {D dv _ s0 n x0 bm0 off buf alen s x bm}.
Arguments wr_prefix {D dv _ s0 n x0 bm0 off buf alen s x bm}.
Arguments wr_fresh {D dv _ s0 n x0 bm0 off buf alen s x bm}.
Arguments wr_kept {D dv _ s0 n x0 bm0 off buf alen s x bm}.
Arguments wr_len {D dv _ s0 n x0 bm0 off buf alen s x bm}.
Arguments wr_pos {D dv _ s0 n x0 bm0 off buf alen s x bm}.
Arguments wr_data {D dv _ s0 n x0 bm0 off buf alen s x bm}.
