(* ===== verification/SfsTrunc.v ===== *)
(** Resizing a file of the Simple File System, on the lemmas of [SfsFile] and
    [SfsIo]: [sfs_truncfile] gives blocks back at the end of a file or adds
    blocks of zeros.  [shrunk] is the state in the middle of a shrinking. *)
From S2P Require Import Prelude Cstring Bitmap Iobuf Sfs SfsBlocks SfsFile SfsIo.
#[local] Abbreviation length := Datatypes.length.

Section trunc.
Context {D : Type} (dv : device D) `{!BlockDevice dv}.
Abbreviation st := (sfs_fs D).
Abbreviation blk := (blk dv).
Abbreviation sfs_wf := (sfs_wf dv).
Abbreviation kept := (kept dv).
Abbreviation file_rep := (file_rep dv).
Abbreviation fdata := (fdata dv).
Abbreviation fbytes := (fbytes dv).
Implicit Types s : st.

(** ** The last block is given back *)

Definition one_less (x : sfs_inode) : sfs_inode := set_din (set_blocks (blocks (din x) - 1) (din x)) x.

Lemma foot_less x x' bm b c : indirect (din x') = indirect (din x) -> c ∈ foot x' bm -> c ∈ foot x (bm ++ [b]).
Proof. intros E. unfold foot. rewrite E, !elem_of_app. tauto. Qed.

Lemma file_rep_drop s s' x x' bm b :
  file_rep s x (bm ++ [b]) -> kept (fun c => c = b \/ (12 <= length bm)%nat /\ c = indirect (din x)) s s' ->
  (used s (indirect (din x)) -> used s' (indirect (din x))) ->
  blocks (din x') = blocks (din x) - 1 -> indirect (din x') = indirect (din x) ->
  direct (din x') = (if decide (length bm < 12)%nat then <[length bm := 0]> (direct (din x)) else direct (din x)) ->
  ((12 <= length bm)%nat -> forall j, (j < 1024)%nat -> entry (blk s' (indirect (din x))) (Z.of_nat j) = default 0 (bm !! (12 + j)%nat)) ->
  file_rep s' x' bm.
Proof.
  intros Hf Hk Hind Eb Ei Ed Hval. pose proof (foot_no_indirect dv _ _ _ Hf) as Hni.
  assert (Hnd : NoDup (foot x' bm) /\ b ∉ foot x' bm).
  { pose proof (fr_nodup Hf) as Hnd. unfold foot in *. rewrite Ei. rewrite <-app_assoc, (Permutation_app_swap_app bm [b]) in Hnd.
    apply NoDup_cons in Hnd as [Hn Hnd]. done. }
  assert (Hmax := fr_max Hf). rewrite length_app in Hmax. cbn [length] in Hmax. split.
  - rewrite Eb, (fr_blocks Hf), length_app. cbn [length]. lia.
  - lia.
  - rewrite Ed. case_decide; rewrite ?length_insert; apply Hf.
  - intros i Hi. pose proof (fr_direct Hf i Hi) as Hdir. rewrite Ed. destruct (decide (length bm < 12)%nat).
    + destruct (decide (i = length bm)) as [->|Hne].
      * rewrite list_lookup_insert_eq by (rewrite (fr_dlen Hf); lia). by rewrite lookup_ge_None_2 by lia.
      * rewrite list_lookup_insert_ne, Hdir by done. do 2 f_equal. destruct (decide (i < length bm)%nat).
        -- by rewrite lookup_app_l by lia.
        -- by rewrite !lookup_ge_None_2 by (rewrite ?length_app; cbn; lia).
    + rewrite Hdir. by rewrite lookup_app_l by lia.
  - rewrite Ei. intros E. pose proof (fr_noind Hf E) as Hl. rewrite length_app in Hl. lia.
  - rewrite Ei. intros E i Hi. destruct (decide (12 <= length bm)%nat) as [Hl|Hl]; [by apply Hval|].
    rewrite (k_blk _ _ _ _ Hk).
    + rewrite (fr_ind Hf E i Hi). by rewrite !lookup_ge_None_2 by (rewrite ?length_app; cbn; lia).
    + by apply (fr_used Hf), foot_indirect.
    + intros [Hb|[Hb _]]; [|lia]. apply Hni, elem_of_app. right. by apply list_elem_of_singleton.
  - intros c Hc. pose proof (fr_used Hf c (foot_less _ _ _ _ _ Ei Hc)) as Hu.
    destruct (decide (c = indirect (din x))) as [->|Hne]; [by apply Hind|].
    apply (k_used _ _ _ _ Hk); [done|]. intros [->|[_ ?]]; [by apply Hnd|done].
  - apply Hnd.
Qed.

(** The last block [b] of a file is free; the inode does not know it yet. *)
Record freed s (n : Z) (x : sfs_inode) bm b s1 x1 : Prop := {
  fd_inodes : inodes s1 = <[n := x1]> (inodes s);
  fd_same : same_file x x1;
  fd_rep : file_rep s1 (one_less x1) bm;
  fd_kept : kept (fun c => c ∈ foot x (bm ++ [b])) s s1;
  fd_blk c : c ∈ bm -> blk s1 c = blk s c;
  fd_indirect : indirect (din x1) = indirect (din x);
  fd_gone : ~ used s1 b;
  fd_only c : used s1 c -> used s c;
}.

Section last_block.
Context (s : st) (n : Z) (x : sfs_inode) (bm : list Z) (b : Z).
Hypothesis H : sfs_wf s.
Hypothesis Hx : inodes s !! n = Some x.
Hypothesis Hf : file_rep s x (bm ++ [b]).

Lemma last_lookup : (bm ++ [b]) !! length bm = Some b.
Proof. by rewrite lookup_app_r, Nat.sub_diag. Qed.

Lemma last_in : b ∈ bm ++ [b].
Proof. eapply list_elem_of_lookup_2, last_lookup. Qed.

Lemma last_used : used s b.
Proof. apply (fr_used Hf), foot_block, last_in. Qed.

Lemma last_blocks : blocks (din x) = Z.of_nat (length bm) + 1 /\ Z.of_nat (length bm) < 1036.
Proof.
  pose proof (fr_blocks Hf) as Hbl. pose proof (fr_max Hf) as Hmax. rewrite length_app in Hbl, Hmax. cbn [length] in Hbl, Hmax.
  change (SFS_NDIRECT + SFS_BLK_NENTRY) with 1036 in Hmax. lia.
Qed.

Lemma last_not_indirect : b <> indirect (din x).
Proof. intros E. apply (foot_no_indirect dv _ _ _ Hf). rewrite <-E. apply last_in. Qed.

Lemma others_distinct c : c ∈ bm -> used s c /\ c <> b /\ c <> indirect (din x).
Proof.
  intros Hc. assert (Hin : c ∈ bm ++ [b]) by (apply elem_of_app; by left). split_and!.
  - by apply (fr_used Hf), foot_block.
  - intros ->. pose proof (fr_nodup Hf) as Hnd. unfold foot in Hnd. apply NoDup_app in Hnd as (Hnd&_&_).
    apply NoDup_app in Hnd as (_&Hd&_). by apply (Hd _ Hc), list_elem_of_singleton.
  - intros ->. by apply (foot_no_indirect dv _ _ _ Hf).
Qed.

(** [freed] from what has happened to the single blocks. *)
Lemma freed_intro s1 x1 :
  inodes s1 = <[n := x1]> (inodes s) -> same_file x x1 -> file_rep s1 (one_less x1) bm -> indirect (din x1) = indirect (din x) ->
  kept (fun c => c = b \/ (12 <= length bm)%nat /\ c = indirect (din x)) s s1 -> ~ used s1 b ->
  (forall c, used s1 c -> used s c) -> freed s n x bm b s1 x1.
Proof.
  intros Hin Hs Hr Hi Hk Hn Ho. split; try done.
  - eapply kept_weaken_used; [exact Hk|]. intros c Hu [->|[_ ->]]; [apply foot_block, last_in|].
    apply foot_indirect. by apply (used_pos s).
  - intros c Hc. destruct (others_distinct c Hc) as (Hu&Hb&Hi'). apply (k_blk _ _ _ _ Hk); [done|]. intros [?|[_ ?]]; done.
Qed.

(** The last block is named by the inode itself. *)
Lemma wp_free_direct (Q : Z -> st -> Prop) :
  (length bm < 12)%nat -> (forall s1 x1, freed s n x bm b s1 x1 -> Q 0 s1) ->
  wp (sfs_bmap_free_nolock dv n (Z.of_nat (length bm))) Q s.
Proof.
  intros Hl HQ. unfold sfs_bmap_free_nolock. kstep. eapply wp_sin_at; [exact Hx|]. change SFS_NDIRECT with 12.
  rewrite (proj2 (Z.ltb_lt _ _)) by lia. pose proof (fr_direct Hf (length bm) Hl) as Hdir. rewrite last_lookup in Hdir. cbn in Hdir.
  rewrite Nat2Z.id. kstep. eapply wp_unwrap; [exact Hdir|]. kstep.
  apply wp_when_dec; intros Hb0; [|by destruct Hb0; apply (used_pos _ _ last_used)].
  kstep. apply (wp_sfs_block_free dv); [done|apply last_used|]. intros s1 Hk1 Hi1 Hd1 Hn1 Ho1. kstep. unfold din_upd.
  eapply wp_sin_upd; [by rewrite Hi1|]. eapply wp_sin_upd; [cbn; apply lookup_insert_eq|]. apply wp_ret.
  set (x1 := set_dirty true _). cbn [inodes set_inodes]. rewrite Hi1, insert_insert_eq.
  change (set_inodes _ (set_inodes _ s1)) with (set_inodes (<[n := x1]> (inodes s)) s1).
  assert (Hk : kept (fun c => c = b) s (set_inodes (<[n := x1]> (inodes s)) s1)) by (by apply kept_then_set).
  apply (HQ _ x1), freed_intro; [done|done| |done|eapply kept_weaken; [exact Hk|by left]|done|exact Ho1].
  eapply (file_rep_drop s _ x (one_less x1) bm b); [exact Hf|eapply kept_weaken; [exact Hk|by left]| |done|done| |lia].
  - intros Hu. apply (k_used _ _ _ _ Hk); [done|]. intros E. by apply last_not_indirect.
  - by rewrite decide_True.
Qed.

(** The last block is named by the indirect block. *)
Lemma wp_free_indirect (Q : Z -> st -> Prop) :
  (12 <= length bm)%nat -> (forall r s', r <> 0 -> kept none s s' -> inodes s' = inodes s -> (forall c, used s' c -> used s c) -> Q r s') ->
  (forall s1 x1, freed s n x bm b s1 x1 -> Q 0 s1) ->
  wp (sfs_bmap_free_nolock dv n (Z.of_nat (length bm))) Q s.
Proof.
  intros Hl HE HQ. destruct last_blocks as [_ Hmax]. unfold sfs_bmap_free_nolock. kstep. eapply wp_sin_at; [exact Hx|].
  change SFS_NDIRECT with 12. rewrite (proj2 (Z.ltb_ge _ _)) by lia. change SFS_BLK_NENTRY with 1024. rewrite (proj2 (Z.ltb_lt _ _)) by lia.
  destruct (decide (indirect (din x) = 0)) as [Ei|Ei]; [pose proof (fr_noind Hf Ei) as Hn; rewrite length_app in Hn; cbn in Hn; lia|].
  rewrite (bool_decide_true (indirect (din x) <> 0)) by done.
  assert (Hui : used s (indirect (din x))) by (by apply (fr_used Hf), foot_indirect).
  set (index := Z.of_nat (length bm) - 12). assert (Hidx : 0 <= index < SFS_BLK_NENTRY) by (change SFS_BLK_NENTRY with 1024; lia).
  unfold sfs_bmap_free_sub_nolock. kstep. apply (wp_assert_inuse dv); [done|done|]. kstep. kstep; [apply Z.ltb_lt; lia|].
  kstep. apply (wp_read_entry dv); [done|done|done|]. intros r buf s1 Hk1 Hi1 Hm1 He. cbv beta iota.
  destruct (decide (r = 0)) as [->|Hr]; [|rewrite (bool_decide_true (r <> 0)) by done; apply wp_ret; apply HE; [done..|intros c; by rewrite (used_same s s1 c (k_super _ _ _ _ Hk1) Hm1)]].
  rewrite (bool_decide_false (0 <> 0)) by lia. specialize (He eq_refl).
  pose proof (fr_ind Hf Ei (Z.to_nat index) ltac:(lia)) as Hent. rewrite Z2Nat.id in Hent by lia.
  replace (12 + Z.to_nat index)%nat with (length bm) in Hent by lia. rewrite last_lookup in Hent. cbn in Hent. rewrite He, Hent.
  rewrite (bool_decide_true (b <> 0)) by (apply (used_pos s), last_used). kstep.
  apply (wp_write_entry dv 0); [apply Hk1|by apply (k_used _ _ _ _ Hk1)|done|lia|].
  intros r s2 Hk2 Hi2 Hm2 Hu2 Hb2 He2. destruct (decide (r = 0)) as [->|Hr].
  2:{ rewrite (bool_decide_true (r <> 0)) by done. apply wp_ret. apply HE; [done| |by rewrite Hi2|].
      - eapply kept_trans_none; [exact Hk1|]. eapply kept_same; [exact Hk2|auto].
      - intros c Hc. apply (used_same s s1 c (k_super _ _ _ _ Hk1) Hm1), (used_same s1 s2 c (k_super _ _ _ _ Hk2) Hm2), Hc. }
  rewrite (bool_decide_false (0 <> 0)) by lia. kstep. pose proof last_not_indirect as Hni.
  apply (wp_sfs_block_free dv); [apply Hk2|apply (k_used _ _ _ _ Hk2); [apply (k_used _ _ _ _ Hk1); [apply last_used|done]|done]|].
  intros s3 Hk3 Hi3 Hd3 Hn3 Ho3. apply wp_ret.
  assert (Hk : kept (fun c => c = b \/ (12 <= length bm)%nat /\ c = indirect (din x)) s s3).
  { eapply kept_trans; [eapply kept_weaken; [eapply kept_none_trans; [exact Hk1|exact Hk2]|]|exact Hk3|auto]. intros c ->. by right. }
  apply (HQ s3 x), freed_intro; [by rewrite Hi3, Hi2, Hi1, insert_id|done| |done|exact Hk|done|].
  2:{ intros c Hc%Ho3. apply (used_same s s1 c (k_super _ _ _ _ Hk1) Hm1), (used_same s1 s2 c (k_super _ _ _ _ Hk2) Hm2), Hc. }
  eapply (file_rep_drop s s3 x (one_less x) bm b); [exact Hf|exact Hk| |done|done|by rewrite decide_False by lia|].
  - intros _. apply (k_used _ _ _ _ Hk3); [done|congruence].
  - intros _ j Hj. unfold SfsBlocks.blk. rewrite Hd3. fold (blk s2 (indirect (din x))).
    rewrite He2 by (done || (change SFS_BLK_NENTRY with 1024; lia)). destruct (decide (Z.of_nat j = index)) as [Ej|Ej].
    + by rewrite lookup_ge_None_2 by lia.
    + rewrite (k_blk _ _ _ _ Hk1) by done. rewrite (fr_ind Hf Ei j Hj). f_equal. destruct (decide (12 + j < length bm)%nat).
      * by rewrite lookup_app_l by lia.
      * by rewrite !lookup_ge_None_2 by (rewrite ?length_app; cbn [length]; lia).
Qed.

Lemma wp_bmap_truncate (Q : Z -> st -> Prop) :
  (forall r s', r <> 0 -> kept none s s' -> inodes s' = inodes s -> (forall c, used s' c -> used s c) -> Q r s') ->
  (forall s' x', inodes s' = <[n := x']> (inodes s) -> same_file x x' -> file_rep s' x' bm ->
     kept (fun c => c ∈ foot x (bm ++ [b])) s s' -> (forall c, c ∈ bm -> blk s' c = blk s c) ->
     indirect (din x') = indirect (din x) -> ~ used s' b -> (forall c, used s' c -> used s c) -> Q 0 s') ->
  wp (sfs_bmap_truncate_nolock dv n) Q s.
Proof.
  intros HE HS. destruct last_blocks as [Hbl _]. unfold sfs_bmap_truncate_nolock. kstep. eapply wp_sin_at; [exact Hx|].
  kstep. kstep; [apply negb_true_iff, Z.eqb_neq; lia|]. kstep. replace (blocks (din x) - 1) with (Z.of_nat (length bm)) by lia.
  assert (Hfail : forall r s', r <> 0 -> kept none s s' -> inodes s' = inodes s -> (forall c, used s' c -> used s c) ->
    wp (if bool_decide (r <> 0) then mret r else din_upd n (fun d => set_blocks (blocks d - 1) d);; sin_upd n (set_dirty true);; mret 0) Q s').
  { intros r s' Hr Hk Hi Ho. rewrite (bool_decide_true (r <> 0)) by done. apply wp_ret. by apply HE. }
  assert (Hfin : forall s1 x1, freed s n x bm b s1 x1 ->
    wp (if bool_decide (0 <> 0) then mret 0 else din_upd n (fun d => set_blocks (blocks d - 1) d);; sin_upd n (set_dirty true);; mret 0) Q s1).
  { intros s1 x1 [Hin Hs Hr Hk Hc Hi Hn Ho]. rewrite (bool_decide_false (0 <> 0)) by lia. kstep. unfold din_upd.
    eapply wp_sin_upd; [rewrite Hin; apply lookup_insert_eq|]. kstep. eapply wp_sin_upd; [cbn; apply lookup_insert_eq|]. apply wp_ret.
    set (x2 := set_dirty true _). cbn [inodes set_inodes]. rewrite Hin, !insert_insert_eq.
    change (set_inodes _ (set_inodes _ s1)) with (set_inodes (<[n := x2]> (inodes s)) s1).
    assert (Hk2 : kept none s1 (set_inodes (<[n := x2]> (inodes s)) s1)) by (apply kept_set_inodes, Hk).
    apply (HS _ x2); [done|by destruct Hs| |by apply kept_then_set|done|done|done|exact Ho].
    eapply (file_rep_din dv _ (one_less x1)); [by eapply file_rep_none|done..]. }
  destruct (decide (length bm < 12)%nat) as [Hl|Hl]; [by apply wp_free_direct|apply wp_free_indirect; [lia|done|done]].
Qed.
End last_block.

(** ** Shrinking and growing *)

Record shrunk s0 (n : Z) (x0 : sfs_inode) bm0 s x bm : Prop := {
  sh_wf : sfs_wf s;
  sh_inodes : inodes s = <[n := x]> (inodes s0);
  sh_same : same_file x0 x;
  sh_rep : file_rep s x bm;
  sh_prefix : bm `prefix_of` bm0;
  sh_foot c : c ∈ foot x bm -> c ∈ foot x0 bm0;
  sh_kept : kept (fun c => c ∈ foot x0 bm0) s0 s;
  sh_blk c : c ∈ bm -> blk s c = blk s0 c;
  sh_gone c : c ∈ bm0 -> c ∉ bm -> ~ used s c;
}.

Lemma shrunk_start s n x bm : sfs_wf s -> inodes s !! n = Some x -> file_rep s x bm -> shrunk s n x bm s x bm.
Proof. intros H Hx Hf. split; [done|by rewrite insert_id|done|done|done|done|by apply kept_refl|done|done]. Qed.

Lemma wp_shrink k s0 n x0 bm0 s x bm (Q : Z -> st -> Prop) :
  shrunk s0 n x0 bm0 s x bm -> (k <= length bm)%nat ->
  (forall r s' x' bm', r <> 0 -> (0 < k)%nat -> shrunk s0 n x0 bm0 s' x' bm' -> Q r s') ->
  (forall s' x' bm', shrunk s0 n x0 bm0 s' x' bm' -> length bm' = (length bm - k)%nat -> Q 0 s') ->
  wp (shrink dv k n) Q s.
Proof.
  revert s x bm. induction k as [|k IH]; intros s x bm Hsh Hk HE HS; cbn [shrink].
  { apply wp_ret. apply (HS s x bm); [done|lia]. }
  destruct bm as [|b bm _] using rev_ind; [cbn in Hk; lia|]. rewrite length_app in Hk, HS. cbn [length] in Hk, HS.
  destruct Hsh as [H Hin Hs Hf Hp Hfo Hke Hb Hg]. kstep.
  eapply (wp_bmap_truncate s n x bm b); [done|rewrite Hin; apply lookup_insert_eq|done| |].
  - intros r s1 Hr Hk1 Hi1 Ho1. rewrite (bool_decide_true (r <> 0)) by done. apply wp_ret. apply (HE r s1 x (bm ++ [b])); [done|lia|].
    split; [apply Hk1|by rewrite Hi1|done|by eapply file_rep_none|done|done|by eapply kept_trans_none| |].
    + intros c Hc. rewrite (k_blk _ _ _ _ Hk1); [by apply Hb|by apply (fr_used Hf), foot_block|done].
    + intros c Hc1 Hc2 Hu%Ho1. by apply (Hg c).
  - intros s1 x1 Hi1 Hs1 Hf1 Hk1 Hb1 Hind Hn1 Ho1. rewrite (bool_decide_false (0 <> 0)) by lia.
    apply (IH s1 x1 bm); [|lia|intros; eapply HE; (done || lia)|intros s2 x2 bm2 Hsh2 Hl2; apply (HS s2 x2 bm2); [done|lia]].
    split; [apply Hk1|by rewrite Hi1, Hin, insert_insert_eq|by eapply same_file_trans|done| | | | |].
    + etransitivity; [by apply prefix_app_r|done].
    + intros c Hc. apply Hfo. by eapply foot_less.
    + eapply kept_trans; [exact Hke|exact Hk1|]. intros c _ Hc. by apply Hfo.
    + intros c Hc. rewrite Hb1 by done. apply Hb, elem_of_app. by left.
    + intros c Hc1 Hc2 Hu. destruct (decide (c = b)) as [->|Hne]; [done|]. apply (Hg c Hc1); [|by apply Ho1].
      rewrite elem_of_app, list_elem_of_singleton. tauto.
Qed.

(** Growing is writing nothing: only zeros are added. *)
Lemma wp_grow k s0 n x0 bm0 s x bm (Q : Z -> st -> Prop) :
  wrote dv s0 n x0 bm0 0 [] 0 s x bm -> Z.of_nat (length bm + k) <= SFS_NDIRECT + SFS_BLK_NENTRY ->
  (forall r s' x' bm', r <> 0 -> wrote dv s0 n x0 bm0 0 [] 0 s' x' bm' -> Q r s') ->
  (forall s' x' bm', wrote dv s0 n x0 bm0 0 [] 0 s' x' bm' -> length bm' = (length bm + k)%nat -> Q 0 s') ->
  wp (grow dv k n (Z.of_nat (length bm))) Q s.
Proof.
  change (SFS_NDIRECT + SFS_BLK_NENTRY) with 1036. revert s x bm. induction k as [|k IH]; intros s x bm Hw Hmax HE HS; cbn [grow].
  { apply wp_ret. apply (HS s x bm); [done|lia]. }
  kstep. eapply (wp_bmap_load dv s n x bm); [apply Hw|rewrite (wr_inodes Hw); apply lookup_insert_eq|apply Hw|lia|lia| | | |].
  - change (SFS_NDIRECT + SFS_BLK_NENTRY) with 1036. lia.
  - intros r b s1 Hr Hk Hin. cbv beta iota. rewrite (bool_decide_true (r <> 0)) by done. apply wp_ret.
    apply (HE r s1 x bm); [done|]. by eapply wrote_none.
  - intros b s1 Hb. rewrite lookup_ge_None_2 in Hb by lia. done.
  - intros b x1 s1 Hn Hin Hs Hf Hk Hfr Hz. cbv beta iota. rewrite (bool_decide_false (0 <> 0)) by lia.
    rewrite uwrap_small by lia. replace (Z.of_nat (length bm) + 1) with (Z.of_nat (length (bm ++ [b]))) by (rewrite length_app; cbn; lia).
    apply (IH s1 x1 (bm ++ [b])); [by eapply wrote_grow|rewrite length_app; cbn; lia|done|].
    intros s2 x2 bm2 Hw2 Hl2. apply (HS s2 x2 bm2); [done|]. rewrite Hl2, length_app. cbn. lia.
Qed.

(** The blocks of file [n] have become [bm'], from the end on. *)
Record restructured s (n : Z) (x : sfs_inode) bm s' x' bm' : Prop := {
  rt_wf : sfs_wf s';
  rt_inodes : inodes s' = <[n := x']> (inodes s);
  rt_rep : file_rep s' x' bm';
  rt_type : din_type (din x') = din_type (din x);
  rt_nlinks : nlinks (din x') = nlinks (din x);
  rt_ino : ino x' = ino x;
  rt_sem : sem x' = false;
  rt_kept : kept (fun c => c ∈ foot x bm) s s';
  rt_data : fdata s' bm' = take (length bm' * Z.to_nat SFS_BLKSIZE) (fdata s bm ++ zeros (length bm' - length bm));
  rt_gone c : c ∈ bm -> c ∉ bm' -> ~ used s' c;
  rt_fresh : fresh_foot s x bm x' bm';
}.

Lemma foot_sem v x bm : foot (set_sem v x) bm = foot x bm.
Proof. done. Qed.

Lemma fdata_prefix s bm bm' x :
  sfs_wf s -> file_rep s x bm -> bm' `prefix_of` bm -> fdata s bm' = take (length bm' * Z.to_nat SFS_BLKSIZE) (fdata s bm).
Proof.
  intros H Hf [l ->]. unfold SfsFile.fdata. rewrite fmap_app, concat_app.
  pose proof (fdata_length dv s bm' H) as Hl. unfold SfsFile.fdata in Hl. rewrite take_app_le.
  - rewrite take_ge; [done|]. rewrite <-(Nat2Z.id (length (concat _))), Hl; [unfold SFS_BLKSIZE; lia|].
    intros c Hc. apply (fr_used Hf), foot_block, elem_of_app. by left.
  - rewrite <-(Nat2Z.id (length (concat _))), Hl; [unfold SFS_BLKSIZE; lia|].
    intros c Hc. apply (fr_used Hf), foot_block, elem_of_app. by left.
Qed.

(** From the locked file to the unlocked one. *)
Lemma restructured_grown s n x bm s1 x1 bm1 x2 s2 :
  sfs_wf s -> file_rep s x bm ->
  wrote dv (set_inodes (<[n := set_sem true x]> (inodes s)) s) n (set_sem true x) bm 0 [] 0 s1 x1 bm1 ->
  inodes s2 = <[n := x2]> (inodes s) -> s2 = set_inodes (inodes s2) s1 -> sem x2 = false ->
  din_type (din x2) = din_type (din x1) -> nlinks (din x2) = nlinks (din x1) -> ino x2 = ino x1 ->
  blocks (din x2) = blocks (din x1) -> direct (din x2) = direct (din x1) -> indirect (din x2) = indirect (din x1) ->
  restructured s n x bm s2 x2 bm1.
Proof.
  intros H Hf Hw Hi Es Hs Et Enl Eino Eb Ed Ei. set (s0 := set_inodes _ s) in Hw.
  assert (Hk2 : kept none s1 s2) by (rewrite Es; apply kept_set_inodes, Hw).
  assert (Hk0 : kept none s s0) by (by apply kept_set_inodes).
  pose proof (wr_same Hw) as []. split; [apply Hk2|done| |by rewrite Et|by rewrite Enl|by rewrite Eino|done| | | |].
  - eapply (file_rep_din dv _ x1); [eapply file_rep_none; [apply Hw|done]|done..].
  - eapply kept_trans_none; [|exact Hk2]. eapply kept_none_trans; [exact Hk0|apply Hw].
  - rewrite (fdata_kept dv none s1 s2 x1 bm1); [|apply Hw|done|auto]. rewrite (wr_data Hw), slice_nil, splice_nil.
    change (fdata s0 bm) with (fdata s bm). rewrite take_ge; [done|].
    pose proof (wr_len Hw) as Hl. change (fdata s0 bm) with (fdata s bm) in Hl. pose proof (prefix_length _ _ (wr_prefix Hw)).
    rewrite length_app. unfold zeros. rewrite length_replicate. unfold SFS_BLKSIZE in *. lia.
  - intros c Hc Hn. destruct (wr_prefix Hw) as [l El]. destruct Hn. rewrite El. apply elem_of_app. by left.
  - intros c Hc Hu. apply (wr_fresh Hw c); [|done]. unfold foot in *. by rewrite <-Ei.
Qed.

Lemma restructured_shrunk s n x bm s1 x1 bm1 x2 s2 :
  sfs_wf s -> file_rep s x bm ->
  shrunk (set_inodes (<[n := set_sem true x]> (inodes s)) s) n (set_sem true x) bm s1 x1 bm1 ->
  inodes s2 = <[n := x2]> (inodes s) -> s2 = set_inodes (inodes s2) s1 -> sem x2 = false ->
  din_type (din x2) = din_type (din x1) -> nlinks (din x2) = nlinks (din x1) -> ino x2 = ino x1 ->
  blocks (din x2) = blocks (din x1) -> direct (din x2) = direct (din x1) -> indirect (din x2) = indirect (din x1) ->
  restructured s n x bm s2 x2 bm1.
Proof.
  intros H Hf Hw Hi Es Hs Et Enl Eino Eb Ed Ei. set (s0 := set_inodes _ s) in Hw.
  destruct Hw as [H1 Hin Hsame Hf1 Hp Hfo Hke Hb Hg].
  assert (Hk2 : kept none s1 s2) by (rewrite Es; by apply kept_set_inodes).
  assert (Hk0 : kept none s s0) by (by apply kept_set_inodes).
  destruct Hsame. split; [apply Hk2|done| |by rewrite Et|by rewrite Enl|by rewrite Eino|done| | | |].
  - eapply (file_rep_din dv _ x1); [eapply file_rep_none; [done|done]|done..].
  - eapply kept_trans_none; [|exact Hk2]. eapply kept_none_trans; [exact Hk0|exact Hke].
  - pose proof (prefix_length _ _ Hp). replace (length bm1 - length bm)%nat with 0%nat by lia. unfold zeros. cbn [Nat.mul replicate]. rewrite app_nil_r.
    rewrite <-(fdata_prefix s bm bm1 x) by done. apply fdata_ext. intros c Hc.
    rewrite (k_blk _ _ _ _ Hk2); [apply Hb, Hc|by apply (fr_used Hf1), foot_block|done].
  - intros c Hc Hn Hu. apply (Hg c Hc Hn). rewrite Es in Hu. exact Hu.
  - intros c Hc _. apply (Hfo c). unfold foot in *. by rewrite <-Ei.
Qed.

(** The end of [sfs_truncfile]: on success the new size is set; the lock is given back. *)
Lemma wp_trunc_end s1 n x1 r len (Q : Z -> st -> Prop) :
  inodes s1 !! n = Some x1 -> (r = 0 -> blocks (din x1) = u32 (ROUNDUP_DIV len SFS_BLKSIZE)) ->
  (forall x2, din_size (din x2) = (if decide (r = 0) then len else din_size (din x1)) -> sem x2 = false ->
     din_type (din x2) = din_type (din x1) -> nlinks (din x2) = nlinks (din x1) -> ino x2 = ino x1 ->
     blocks (din x2) = blocks (din x1) -> direct (din x2) = direct (din x1) -> indirect (din x2) = indirect (din x1) ->
     Q r (set_inodes (<[n := x2]> (inodes s1)) s1)) ->
  wp ((if bool_decide (r <> 0) then mret ()
       else x ← sin_at n; assert (blocks (din x) =? u32 (ROUNDUP_DIV len SFS_BLKSIZE));;
            din_upd n (set_din_size len);; sin_upd n (set_dirty true));;
      unlock_sin n;; mret r) Q s1.
Proof.
  intros Hx Hb HQ. kstep. destruct (decide (r = 0)) as [->|Hr].
  - rewrite (bool_decide_false (0 <> 0)) by lia. kstep. eapply wp_sin_at; [done|]. kstep. kstep; [by apply Z.eqb_eq, Hb|].
    kstep. unfold din_upd. eapply wp_sin_upd; [done|]. eapply wp_sin_upd; [cbn; apply lookup_insert_eq|].
    kstep. unfold unlock_sin. eapply wp_sin_upd; [cbn; apply lookup_insert_eq|]. apply wp_ret. cbn [inodes set_inodes].
    rewrite !insert_insert_eq. by apply (HQ (set_sem false (set_dirty true (set_din (set_din_size len (din x1)) x1)))).
  - rewrite (bool_decide_true (r <> 0)) by done. apply wp_ret. kstep. unfold unlock_sin. eapply wp_sin_upd; [done|]. apply wp_ret.
    by apply (HQ (set_sem false x1)).
Qed.

Lemma blocks_for_u32 len : 0 <= len <= MAX_BYTES -> u32 (ROUNDUP_DIV len SFS_BLKSIZE) = blocks_for len.
Proof.
  intros H. assert (EM : MAX_BYTES = 4243456) by done. unfold ROUNDUP_DIV, blocks_for. change SFS_BLKSIZE with 4096.
  rewrite (uwrap_small 64) by lia. apply uwrap_small. zlia.
Qed.

Definition truncated s n (x : sfs_inode) bm len r s' : Prop := exists x' bm',
  restructured s n x bm s' x' bm' /\
  (r = 0 -> din_size (din x') = len /\ Z.of_nat (length bm') = blocks_for len) /\
  (r <> 0 -> din_size (din x') = din_size (din x) /\ (Z.of_nat (length bm) <= blocks_for len -> bm `prefix_of` bm')).

Lemma restructured_refl s n x bm :
  sfs_wf s -> inodes s !! n = Some x -> file_rep s x bm -> sem x = false -> restructured s n x bm s x bm.
Proof.
  intros H Hx Hf Hs. split; try done; [by rewrite insert_id| |by intros c Hc _].
  rewrite Nat.sub_diag. unfold zeros. cbn. rewrite app_nil_r, take_ge; [done|].
  pose proof (rep_data_length dv _ _ _ H Hf). unfold SFS_BLKSIZE in *. lia.
Qed.

Lemma wp_truncfile s n x bm len (Q : Z -> st -> Prop) :
  sfs_wf s -> inodes s !! n = Some x -> file_rep s x bm -> sem x = false -> 0 <= din_size (din x) ->
  (din_size (din x) = len -> Z.of_nat (length bm) = blocks_for len) -> 0 <= len <= MAX_BYTES ->
  (forall r s', truncated s n x bm len r s' -> Q r s') -> wp (sfs_truncfile dv n len) Q s.
Proof.
  intros H Hx Hf Hs Hsz Hbl Hlen HQ. assert (EM : MAX_BYTES = 4243456) by done. unfold sfs_truncfile.
  destruct (Z.ltb_spec len 0) as [|_]; [lia|]. destruct (Z.gtb_spec len SFS_MAX_FILE_SIZE) as [E|_]; [unfold SFS_MAX_FILE_SIZE in E; lia|].
  cbn [orb]. kstep. eapply wp_sin_at; [done|]. pose proof (fr_blocks Hf) as Hb. cbv zeta. rewrite (blocks_for_u32 len Hlen).
  destruct (Z.eqb_spec (din_size (din x)) len) as [E|Hne].
  { specialize (Hbl E). subst len. kstep. kstep; [apply Z.eqb_eq; lia|]. apply wp_ret, HQ. exists x, bm. split; [by apply restructured_refl|]. split; [done|by intros []]. }
  kstep. unfold lock_sin. kstep. eapply wp_sin_at; [done|]. kstep. kstep; [by rewrite Hs|]. eapply wp_sin_upd; [done|].
  set (s0 := set_inodes _ s). kstep.
  assert (H0 : sfs_wf s0) by (by apply wf_set_inodes).
  assert (Hx0 : inodes s0 !! n = Some (set_sem true x)) by apply lookup_insert_eq.
  assert (Hf0 : file_rep s0 (set_sem true x) bm).
  { eapply (file_rep_din dv _ x); [|done..]. eapply file_rep_none; [done|]. by apply kept_set_inodes. }
  assert (Hend : forall r s1 x1 bm1, inodes s1 = <[n := x1]> (inodes s) -> file_rep s1 x1 bm1 -> din_size (din x1) = din_size (din x) ->
    (r = 0 -> Z.of_nat (length bm1) = blocks_for len) ->
    (r <> 0 -> Z.of_nat (length bm) <= blocks_for len -> bm `prefix_of` bm1) ->
    (forall x2 s2, inodes s2 = <[n := x2]> (inodes s) -> s2 = set_inodes (inodes s2) s1 -> sem x2 = false ->
       din_type (din x2) = din_type (din x1) -> nlinks (din x2) = nlinks (din x1) -> ino x2 = ino x1 ->
       blocks (din x2) = blocks (din x1) -> direct (din x2) = direct (din x1) -> indirect (din x2) = indirect (din x1) ->
       restructured s n x bm s2 x2 bm1) ->
    wp ((if bool_decide (r <> 0) then mret ()
         else x ← sin_at n; assert (blocks (din x) =? blocks_for len);; din_upd n (set_din_size len);; sin_upd n (set_dirty true));;
        unlock_sin n;; mret r) Q s1).
  { intros r s1 x1 bm1 Hi1 Hf1 Hsz1 Hr Hpre Hres. rewrite <-(blocks_for_u32 len Hlen).
    eapply wp_trunc_end; [rewrite Hi1; apply lookup_insert_eq| |].
    - intros E. rewrite (blocks_for_u32 len Hlen), <-Hr by done. apply (fr_blocks Hf1).
    - intros x2 Ez Es2 Et Enl Ei Eb Ed Ein. apply HQ. exists x2, bm1. rewrite Hi1, insert_insert_eq.
      split; [by apply Hres|]. split; [intros E|intros E]; rewrite Ez; [rewrite decide_True by done; auto|rewrite decide_False by done; auto]. }
  rewrite Hb. destruct (Z.ltb_spec (Z.of_nat (length bm)) (blocks_for len)) as [Hg|Hg].
  - assert (Hmax : blocks_for len <= 1036) by (unfold blocks_for; change SFS_BLKSIZE with 4096; zlia).
    eapply (wp_grow _ s0 n (set_sem true x) bm s0 (set_sem true x) bm).
    + apply wrote_start; [done|done|done|]. unfold SFS_BLKSIZE. lia.
    + change (SFS_NDIRECT + SFS_BLK_NENTRY) with 1036. lia.
    + intros r s1 x1 bm1 Hr Hw. pose proof (wr_same Hw) as Hsame. apply (Hend r s1 x1 bm1); [|apply Hw|apply Hsame|by intros ->|intros _ _; apply Hw|].
      * rewrite (wr_inodes Hw). cbn. by rewrite insert_insert_eq.
      * intros x2 s2 **. eapply restructured_grown; [done|done|exact Hw|done..].
    + intros s1 x1 bm1 Hw Hl1. pose proof (wr_same Hw) as Hsame. apply (Hend 0 s1 x1 bm1); [|apply Hw|apply Hsame|lia|by intros []|].
      * rewrite (wr_inodes Hw). cbn. by rewrite insert_insert_eq.
      * intros x2 s2 **. eapply restructured_grown; [done|done|exact Hw|done..].
  - assert (0 <= blocks_for len) by (unfold blocks_for; change SFS_BLKSIZE with 4096; zlia).
    eapply (wp_shrink _ s0 n (set_sem true x) bm s0 (set_sem true x) bm); [by apply shrunk_start|lia| |].
    + intros r s1 x1 bm1 Hr Hk Hw. pose proof Hw as [_ Hi1 Hsame Hf1 _ _ _ _ _]. apply (Hend r s1 x1 bm1); [|done|apply Hsame|by intros ->|lia|].
      * rewrite Hi1. cbn. by rewrite insert_insert_eq.
      * intros x2 s2 **. eapply restructured_shrunk; [done|done|exact Hw|done..].
    + intros s1 x1 bm1 Hw Hl1. pose proof Hw as [_ Hi1 Hsame Hf1 _ _ _ _ _].
      apply (Hend 0 s1 x1 bm1); [|done|apply Hsame|lia|by intros []|].
      * rewrite Hi1. cbn. by rewrite insert_insert_eq.
      * intros x2 s2 **. eapply restructured_shrunk; [done|done|exact Hw|done..].
Qed.
End trunc.
