(* ===== verification/SfsSpec.v ===== *)
(** What the Simple File System promises for regular files.  Abstractly a file
    system maps inodes to lists of bytes ([fs_rep]); reading, writing and
    resizing a file in [Sfs] refine the obvious operations on such a map,
    failures of the device and a full disk included, and never touch another
    file.  The last section shows where the code leaves this contract.  The
    examples run on the device of [Disk]. *)
From S2P Require Import Prelude Cstring Bitmap Iobuf Sfs SfsBlocks SfsFile SfsIo SfsTrunc Disk.
#[local] Abbreviation length := Datatypes.length.

Section spec.
Context {D : Type} (dv : device D) `{!BlockDevice dv}.
Abbreviation st := (sfs_fs D).
Abbreviation sfs_wf := (sfs_wf dv).
Abbreviation kept := (kept dv).
Abbreviation file_rep := (file_rep dv).
Abbreviation fdata := (fdata dv).
Abbreviation fbytes := (fbytes dv).
Implicit Types (s : st) (F : gmap Z (list Z)).

(** ** The abstract file system *)

(** Inode [n] is a regular file, not locked, with the blocks [bm]. *)
Record is_file s (n : Z) (x : sfs_inode) (bm : list Z) : Prop := {
  if_inode : inodes s !! n = Some x;
  if_rep : file_rep s x bm;
  if_type : din_type (din x) <> SFS_TYPE_DIR;
  if_size : 0 <= din_size (din x) <= SFS_BLKSIZE * Z.of_nat (length bm);
  if_sem : sem x = false;
}.

(** [L] gives the blocks of each file; files share no block. *)
Record laid_out s F (L : Z -> list Z) : Prop := {
  lo_file n bytes : F !! n = Some bytes -> exists x, is_file s n x (L n) /\ bytes = fbytes s x (L n);
  lo_disjoint n m x y c : n <> m -> is_Some (F !! n) -> is_Some (F !! m) -> inodes s !! n = Some x -> inodes s !! m = Some y ->
    c ∈ foot x (L n) -> c ∉ foot y (L m);
}.

Definition fs_rep s F : Prop := sfs_wf s /\ exists L, laid_out s F L.

(** Everything but file [n] survives an operation that changes only the blocks
    of file [n] and blocks that were free. *)
Lemma laid_out_update s F L n x s' x' bm' bytes :
  laid_out s F L -> F !! n = Some bytes -> inodes s !! n = Some x ->
  inodes s' = <[n := x']> (inodes s) -> is_file s' n x' bm' -> kept (fun c => c ∈ foot x (L n)) s s' ->
  fresh_foot s x (L n) x' bm' ->
  laid_out s' (<[n := fbytes s' x' bm']> F) (fun m => if decide (m = n) then bm' else L m).
Proof.
  intros [Hf Hd] Hn Hx Hi Hf' Hk Hfr.
  assert (Hoff : forall m y c, m <> n -> is_Some (F !! m) -> inodes s !! m = Some y -> c ∈ foot y (L m) -> c ∉ foot x (L n)).
  { intros m y c Hm HF Hy Hc Hc'. by apply (Hd m n y x c Hm HF (mk_is_Some _ _ Hn) Hy Hx Hc). }
  split.
  - intros m b. rewrite lookup_insert. destruct (decide (m = n)) as [->|Hm].
    + rewrite !decide_True by done. intros [= <-]. by exists x'.
    + rewrite !decide_False by congruence. intros Hm'. destruct (Hf m b Hm') as (y&[Hy Hr Ht Hs Hse]&->). exists y.
      split; [split; try done|].
      * rewrite Hi, lookup_insert_ne by congruence. done.
      * eapply file_rep_kept; [exact Hr|exact Hk|]. intros c Hc. by apply (Hoff m y c Hm ltac:(by eexists) Hy).
      * unfold SfsFile.fbytes. f_equal. symmetry. eapply fdata_kept; [exact Hr|exact Hk|]. intros c Hc.
        by apply (Hoff m y c Hm ltac:(by eexists) Hy), foot_block.
  - assert (Hside : forall m y c, m <> n -> is_Some (F !! m) -> inodes s !! m = Some y -> c ∈ foot x' bm' -> c ∉ foot y (L m)).
    { intros m y c Hm HF Hy Hc Hc'. apply (Hoff m y c Hm HF Hy Hc'). apply Hfr; [done|].
      destruct HF as [b Hb]. destruct (Hf m b Hb) as (y'&[Hy' Hr _ _ _]&_). assert (y' = y) as -> by congruence. by apply (fr_used Hr). }
    intros m1 m2 y1 y2 c Hne HF1 HF2. rewrite Hi. rewrite lookup_insert in HF1, HF2. rewrite !lookup_insert.
    destruct (decide (m1 = n)) as [->|H1]; destruct (decide (m2 = n)) as [->|H2].
    + done.
    + rewrite (decide_True (P := n = n)) in * by done. rewrite !(decide_False (P := n = m2)) in * by congruence.
      intros [= <-] Hy2. by apply Hside.
    + rewrite (decide_True (P := n = n)) in * by done. rewrite !(decide_False (P := n = m1)) in * by congruence.
      intros Hy1 [= <-] Hc Hc'. by apply (Hside m1 y1 c).
    + rewrite !(decide_False (P := n = m1)) in * by congruence. rewrite !(decide_False (P := n = m2)) in * by congruence.
      intros Hy1 Hy2. by apply (Hd m1 m2 y1 y2 c).
Qed.
(** ** Reading and writing *)

(** The lock of the inode is taken. *)
Definition locked s n (x : sfs_inode) : st := set_inodes (<[n := set_sem true x]> (inodes s)) s.

Lemma locked_file s n x bm :
  sfs_wf s -> is_file s n x bm ->
  sfs_wf (locked s n x) /\ inodes (locked s n x) !! n = Some (set_sem true x) /\ file_rep (locked s n x) (set_sem true x) bm /\
  kept none s (locked s n x).
Proof.
  intros H [Hx Hf _ _ _]. assert (Hk : kept none s (locked s n x)) by (by apply kept_set_inodes).
  split_and!; [apply Hk|apply lookup_insert_eq| |done].
  eapply (file_rep_din dv _ x); [by eapply file_rep_none|done..].
Qed.

Lemma wp_lock_sin s n x bm (Q : () -> st -> Prop) : is_file s n x bm -> Q () (locked s n x) -> wp (lock_sin n) Q s.
Proof.
  intros [Hx _ _ _ Hs] HQ. unfold lock_sin. kstep. eapply wp_sin_at; [done|]. kstep. kstep; [by rewrite Hs|]. by eapply wp_sin_upd.
Qed.

Lemma take_splice off size (d l z : list Z) :
  0 <= off <= size -> size <= Z.of_nat (length l) -> off + Z.of_nat (length d) <= Z.of_nat (length (l ++ z)) ->
  take (Z.to_nat (Z.max size (off + Z.of_nat (length d)))) (splice off d (l ++ z)) = splice off d (take (Z.to_nat size) l).
Proof.
  intros Ho Hs Hd. rewrite length_app in Hd. apply list_eq. intros k.
  rewrite (lookup_splice off d (take _ _)) by (rewrite ?length_take; lia).
  destruct (decide (k < Z.to_nat (Z.max size (off + Z.of_nat (length d))))%nat) as [Hk|Hk].
  - rewrite lookup_take_lt by lia. rewrite lookup_splice by (rewrite ?length_app; lia).
    repeat case_decide; try done; rewrite lookup_take_lt by lia; apply lookup_app_l; lia.
  - rewrite lookup_take_ge by lia. rewrite !decide_False by lia. rewrite lookup_take_ge by lia. done.
Qed.

(** [sfs_io] is its transfer between taking and giving back the lock. *)
Lemma wp_sfs_io s n x bm iob buf (write : bool) (Q : Z * iobuf * list Z -> st -> Prop) :
  is_file s n x bm -> 0 <= io_base iob -> 0 <= io_resid iob < 2 ^ 62 -> io_base iob + io_resid iob <= Z.of_nat (length buf) ->
  wp (sfs_io_nolock dv n (slice (io_base iob) (Z.of_nat (length buf) - io_base iob) buf) (io_offset iob) (io_resid iob) write)
    (fun '(r, k, b) s' => 0 <= k <= io_resid iob /\ Z.of_nat (length b) = Z.of_nat (length buf) - io_base iob /\
       exists x', inodes s' !! n = Some x' /\
       Q (r, skipped iob k, splice (io_base iob) b buf) (set_inodes (<[n := set_sem false x']> (inodes s')) s')) (locked s n x) ->
  wp (sfs_io dv n iob buf write) Q s.
Proof.
  intros Hf Hb Hr Hl Hio. unfold sfs_io. kstep. eapply wp_lock_sin; [done|]. kstep. apply wp_buf_get; [done|lia|lia|]. kstep.
  eapply wp_mono; [exact Hio|]. intros [[r k] b] s' (Hk&Hlb&x'&Hx'&HQ). kstep. apply wp_buf_put; [done|lia|]. kstep.
  assert (Hend : wp (unlock_sin n;; mret (r, skipped iob k, splice (io_base iob) b buf)) Q s').
  { kstep. unfold unlock_sin. eapply wp_sin_upd; [done|]. by apply wp_ret. }
  destruct (decide (k = 0)) as [->|Hk0].
  - rewrite (bool_decide_false (0 <> 0)) by lia. apply wp_ret.
    assert (E0 : skipped iob 0 = iob) by (unfold skipped; destruct iob; cbn; f_equal; lia). by rewrite E0 in Hend.
  - rewrite (bool_decide_true (k <> 0)) by done. kstep. kstep; [destruct (Z.geb_spec (io_resid iob) k); [done|lia]|].
    apply wp_ret. rewrite uwrap_small by lia. exact Hend.
Qed.

Lemma wp_sfs_write s F n iob buf bytes (Q : Z * iobuf * list Z -> st -> Prop) :
  fs_rep s F -> F !! n = Some bytes -> 0 <= io_offset iob <= Z.of_nat (length bytes) ->
  0 <= io_base iob -> 0 <= io_resid iob -> io_base iob + io_resid iob <= Z.of_nat (length buf) ->
  io_offset iob + io_resid iob <= MAX_BYTES -> Forall is_byte buf ->
  (forall r k s', 0 <= k <= io_resid iob -> (r = 0 -> k = io_resid iob) ->
     fs_rep s' (<[n := splice (io_offset iob) (slice (io_base iob) k buf) bytes]> F) -> Q (r, skipped iob k, buf) s') ->
  wp (sfs_write dv n iob buf) Q s.
Proof.
  intros [H [L HL]] Hn Ho Hb Hr Hl Hmax Hby HQ. assert (EM : MAX_BYTES = 4243456) by done.
  destruct (lo_file _ _ _ HL n bytes Hn) as (x&Hf&->). pose proof Hf as [Hx Hrep Ht Hsz Hse].
  pose proof (rep_data_length dv _ _ _ H Hrep) as Hdl.
  assert (Hbl : Z.of_nat (length (fbytes s x (L n))) = din_size (din x)) by (unfold SfsFile.fbytes; rewrite length_take; lia).
  destruct (locked_file s n x (L n) H Hf) as (H1&Hx1&Hf1&Hk1). rewrite Hbl in Ho.
  assert (Hsl : Z.of_nat (length (slice (io_base iob) (Z.of_nat (length buf) - io_base iob) buf)) = Z.of_nat (length buf) - io_base iob)
    by (apply length_slice; lia).
  eapply wp_sfs_io; [done|done|lia|done|].
  eapply (wp_io_write dv (locked s n x) n (set_sem true x) (L n)); try done; [lia|by apply Forall_slice|].
  intros r k s1 x1 bm1 Hk Hr0 Hw. destruct Hw as [W1 Wi Wr Wsz Wt _ _ _ Wp Wfr Wk Wfit Wd]. split; [done|]. split; [done|].
  exists x1. split; [rewrite Wi; apply lookup_insert_eq|]. rewrite splice_slice by lia. apply HQ; [done|by intros; apply Hr0|].
  set (s2 := set_inodes _ s1). assert (Hk2 : kept none s1 s2) by (by apply kept_set_inodes). split; [apply Hk2|].
  cbn [din set_sem] in Wsz, Wt, Wfit.
  assert (Hks : Z.of_nat (length (slice (io_base iob) k buf)) = k) by (apply length_slice; lia).
  assert (Eb : splice (io_offset iob) (slice (io_base iob) k buf) (fbytes s x (L n)) = fbytes s2 (set_sem false x1) bm1).
  { unfold SfsFile.fbytes. change (fdata s2 bm1) with (fdata s1 bm1). rewrite Wd. cbn [din set_sem]. rewrite Wsz.
    rewrite slice_slice by lia. rewrite Z.add_0_r. rewrite <-Hks at 2. symmetry. apply take_splice; [lia|lia|].
    rewrite Hks. change (fdata (locked s n x)) with (fdata s). unfold zeros. pose proof (prefix_length _ _ Wp).
    rewrite length_app, length_replicate. unfold SFS_BLKSIZE in *. lia. }
  rewrite Eb. eexists. eapply (laid_out_update s F L n x); [done|exact Hn|exact Hx| | | |].
  - unfold s2. cbn [inodes set_inodes]. rewrite Wi. unfold locked. cbn [inodes set_inodes]. by rewrite !insert_insert_eq.
  - split; cbn [inodes set_inodes s2 din set_sem]; [apply lookup_insert_eq| |by rewrite Wt|lia|done].
    eapply (file_rep_din dv _ x1); [by eapply file_rep_none|done..].
  - eapply kept_trans_none; [|exact Hk2]. eapply kept_none_trans; [exact Hk1|exact Wk].
  - intros c Hc Hu. by apply (Wfr c).
Qed.

Lemma wp_sfs_read s F n iob buf bytes (Q : Z * iobuf * list Z -> st -> Prop) :
  fs_rep s F -> F !! n = Some bytes -> 0 <= io_offset iob < SFS_MAX_FILE_SIZE ->
  0 <= io_base iob -> 0 <= io_resid iob < 2 ^ 62 -> io_base iob + io_resid iob <= Z.of_nat (length buf) -> Forall is_byte buf ->
  (let m := Z.max 0 (Z.min (io_resid iob) (Z.of_nat (length bytes) - io_offset iob)) in
   forall r k buf' s', 0 <= k <= m -> (r = 0 -> k = m) -> length buf' = length buf ->
     slice (io_base iob) k buf' = slice (io_offset iob) k bytes -> take (Z.to_nat (io_base iob)) buf' = take (Z.to_nat (io_base iob)) buf ->
     fs_rep s' F -> Q (r, skipped iob k, buf') s') ->
  wp (sfs_read dv n iob buf) Q s.
Proof.
  intros [H [L HL]] Hn Ho Hb Hr Hl Hby HQ. cbv zeta in HQ.
  destruct (lo_file _ _ _ HL n bytes Hn) as (x&Hf&->). pose proof Hf as [Hx Hrep Ht Hsz Hse].
  pose proof (rep_data_length dv _ _ _ H Hrep) as Hdl.
  assert (Hbl : Z.of_nat (length (fbytes s x (L n))) = din_size (din x)) by (unfold SfsFile.fbytes; rewrite length_take; lia).
  destruct (locked_file s n x (L n) H Hf) as (H1&Hx1&Hf1&Hk1). rewrite Hbl in HQ.
  assert (Hsl : Z.of_nat (length (slice (io_base iob) (Z.of_nat (length buf) - io_base iob) buf)) = Z.of_nat (length buf) - io_base iob)
    by (apply length_slice; lia).
  eapply wp_sfs_io; [done|done|lia|done|].
  eapply (wp_io_read dv (locked s n x) n (set_sem true x) (L n)); try done; [lia|lia|by apply Forall_slice|].
  cbn [din set_sem]. intros r k b s1 Hk Hr0 Hk2 Hi2 Hlb Hd. split; [lia|]. split; [lia|].
  exists (set_sem true x). split; [by rewrite Hi2|].
  change (set_sem false (set_sem true x)) with (set_sem false x).
  assert (Ex : set_sem false x = x) by (destruct x; cbn in Hse; by subst). rewrite Ex.
  set (s2 := set_inodes _ s1). assert (Hk3 : kept none s1 s2) by (apply kept_set_inodes, Hk2).
  assert (Hk4 : kept none s s2) by (eapply kept_trans_none; [eapply kept_none_trans; [exact Hk1|exact Hk2]|exact Hk3]).
  assert (Hi4 : inodes s2 = <[n := x]> (inodes s)).
  { unfold s2. cbn [inodes set_inodes]. rewrite Hi2. unfold locked. cbn [inodes set_inodes]. by rewrite insert_insert_eq. }
  assert (Ed : fdata s2 (L n) = fdata s (L n)) by (eapply fdata_kept; [exact Hrep|exact Hk4|by intros c _ []]).
  apply HQ; [lia|done|apply length_splice; lia| | |].
  - change (fbytes (locked s n x) (set_sem true x) (L n)) with (fbytes s x (L n)) in Hd. rewrite <-Hd.
    rewrite <-(slice_splice_eq (io_base iob) b buf) at 2 by lia. rewrite slice_slice by lia. by rewrite Z.add_0_r.
  - apply list_eq. intros i. destruct (decide (i < Z.to_nat (io_base iob))%nat).
    + rewrite !lookup_take_lt by lia. rewrite lookup_splice by lia. by rewrite decide_True by lia.
    + by rewrite !lookup_take_ge by lia.
  - split; [apply Hk4|]. assert (EF : <[n := fbytes s2 x (L n)]> F = F).
    { apply insert_id. rewrite Hn. f_equal. unfold SfsFile.fbytes. by rewrite Ed. }
    rewrite <-EF. eexists. eapply (laid_out_update s F L n x s2 x (L n)); [done|exact Hn|exact Hx|exact Hi4| | |by intros c Hc _].
    + split; [by rewrite Hi4, lookup_insert_eq|by eapply file_rep_none|done|done|done].
    + eapply kept_weaken; [exact Hk4|by intros c []].
Qed.
(** ** Resizing *)

(** File [n] has exactly the blocks its size needs. *)
Definition tight s (n : Z) (size : Z) : Prop := exists x, inodes s !! n = Some x /\ blocks (din x) = blocks_for size.

(** After a resizing to [len]: [tail] is what was left in the last block. *)
Definition resized s F (n len : Z) (bytes : list Z) (r : Z) s' : Prop :=
  if bool_decide (r = 0) then
    tight s' n len /\ exists tail k, Z.of_nat (length tail) < SFS_BLKSIZE /\
      len <= Z.of_nat (length (bytes ++ tail ++ replicate k 0)) /\
      fs_rep s' (<[n := take (Z.to_nat len) (bytes ++ tail ++ replicate k 0)]> F)
  else Z.of_nat (length bytes) <= len -> fs_rep s' F.

Lemma truncated_resized s F L n x len r s' :
  sfs_wf s -> laid_out s F L -> F !! n = Some (fbytes s x (L n)) -> is_file s n x (L n) ->
  Z.of_nat (length (L n)) = blocks_for (din_size (din x)) -> 0 <= len ->
  truncated dv s n x (L n) len r s' -> resized s F n len (fbytes s x (L n)) r s'.
Proof.
  intros H HL Hn Hf Hb Hlen (x'&bm'&[R1 Ri Rr Rt _ _ Rs Rk Rd _ Rf]&Hok&Hfail). pose proof Hf as [Hx Hrep Ht Hsz _].
  pose proof (rep_data_length dv _ _ _ H Hrep) as Hdl. pose proof (proj1 (blocks_for_spec (din_size (din x)) _) eq_refl) as B1.
  rewrite <-Hb in B1. change SFS_BLKSIZE with 4096 in *.
  assert (Hbl : Z.of_nat (length (fbytes s x (L n))) = din_size (din x)) by (unfold SfsFile.fbytes; rewrite length_take; lia).
  assert (Hupd : din_size (din x') <= 4096 * Z.of_nat (length bm') -> 0 <= din_size (din x') ->
    fs_rep s' (<[n := fbytes s' x' bm']> F)).
  { intros Hfit H0. split; [done|]. eexists. eapply (laid_out_update s F L n x); [done|exact Hn|exact Hx|exact Ri| |done|done].
    split; [by rewrite Ri, lookup_insert_eq|done|by rewrite Rt|change SFS_BLKSIZE with 4096; lia|done]. }
  unfold resized. destruct (decide (r = 0)) as [->|Hr].
  - rewrite bool_decide_true by done. destruct Hok as [Hsz' Hb']; [done|].
    pose proof (proj1 (blocks_for_spec len _) eq_refl) as B2. rewrite <-Hb' in B2. change SFS_BLKSIZE with 4096 in *.
    split. { exists x'. split; [by rewrite Ri, lookup_insert_eq|]. by rewrite (fr_blocks Rr). }
    exists (drop (Z.to_nat (din_size (din x))) (fdata s (L n))), ((length bm' - length (L n)) * Z.to_nat 4096)%nat.
    unfold SfsFile.fbytes in *. rewrite app_assoc, take_drop. split; [rewrite length_drop; lia|].
    split; [rewrite length_app, length_replicate; lia|].
    assert (E : take (Z.to_nat (din_size (din x'))) (fdata s' bm') =
      take (Z.to_nat len) (fdata s (L n) ++ replicate ((length bm' - length (L n)) * Z.to_nat 4096) 0)).
    { rewrite Rd, Hsz', take_take. f_equal. lia. }
    rewrite <-E. apply Hupd; lia.
  - rewrite bool_decide_false by done. intros Hle. destruct Hfail as [Hsz' Hpre]; [done|]. rewrite Hbl in Hle.
    assert (Hge : Z.of_nat (length (L n)) <= blocks_for len).
    { rewrite Hb. unfold blocks_for. apply Z.div_le_mono; [done|]. lia. }
    specialize (Hpre Hge). pose proof (prefix_length _ _ Hpre) as Hpl.
    assert (E : fbytes s' x' bm' = fbytes s x (L n)).
    { unfold SfsFile.fbytes. rewrite Rd, Hsz', take_take. rewrite Nat.min_l by (unfold SFS_BLKSIZE; lia). apply take_app_le. lia. }
    rewrite E in Hupd. rewrite insert_id in Hupd by done. apply Hupd; lia.
Qed.

Lemma wp_sfs_truncfile s F n len bytes (Q : Z -> st -> Prop) :
  fs_rep s F -> F !! n = Some bytes -> tight s n (Z.of_nat (length bytes)) -> 0 <= len <= MAX_BYTES ->
  (forall r s', resized s F n len bytes r s' -> Q r s') -> wp (sfs_truncfile dv n len) Q s.
Proof.
  intros [H [L HL]] Hn (x0&Hx0&Ht) Hlen HQ.
  destruct (lo_file _ _ _ HL n bytes Hn) as (x&Hf&->). pose proof Hf as [Hx Hrep _ Hsz Hse].
  assert (x0 = x) as -> by congruence. pose proof (rep_data_length dv _ _ _ H Hrep) as Hdl.
  assert (Hbl : Z.of_nat (length (fbytes s x (L n))) = din_size (din x)) by (unfold SfsFile.fbytes; rewrite length_take; lia).
  rewrite Hbl, (fr_blocks Hrep) in Ht.
  eapply (wp_truncfile dv s n x (L n)); try done; [lia|by intros <-|]. intros r s' Htr. apply HQ.
  eapply (truncated_resized s F L n x); (done || lia).
Qed.

(** ** Out of the contract: the block map is too short *)
Lemma load_panics s n x bm index :
  inodes s !! n = Some x -> file_rep s x bm -> 0 <= index < 2 ^ 32 -> Z.of_nat (length bm) < index \/ SFS_NDIRECT + SFS_BLK_NENTRY <= index ->
  sfs_bmap_load_nolock dv n index s = Panic.
Proof.
  intros Hx Hf Hi Hbad. pose proof (fr_blocks Hf) as Hb. change (SFS_NDIRECT + SFS_BLK_NENTRY) with 1036 in Hbad.
  unfold sfs_bmap_load_nolock, sin_at, unwrap, mbind, K_bind. rewrite Hx. unfold assert.
  destruct (Z.leb_spec index (blocks (din x))) as [E|E]; [|done].
  unfold sfs_bmap_get_nolock, sin_at, unwrap, mbind, K_bind. rewrite Hx.
  change SFS_NDIRECT with 12. change SFS_BLK_NENTRY with 1024.
  destruct (Z.ltb_spec index 12); [lia|]. destruct (Z.ltb_spec (index - 12) 1024); [lia|]. done.
Qed.

Lemma piece_panics s n write buf alen blkno blkoff len whole :
  sfs_bmap_load_nolock dv n blkno s = Panic -> io_piece dv n write buf alen blkno blkoff len whole s = Panic.
Proof. intros E. unfold io_piece, mbind, K_bind. by rewrite E. Qed.

(** The first block a transfer looks up is the one at its offset. *)
Lemma transfer_panics s n write buf off endpos :
  0 <= off < endpos -> endpos < 2 ^ 32 ->
  sfs_bmap_load_nolock dv n (off / SFS_BLKSIZE) s = Panic -> io_transfer dv n write buf off endpos s = Panic.
Proof.
  intros Ho He Hl. unfold io_transfer. change SFS_BLKSIZE with 4096 in *.
  rewrite (uwrap_small 32 (off / 4096)) by zlia. rewrite (uwrap_small 32 (endpos / 4096 - _)) by zlia.
  cbv zeta. unfold mbind at 1, K_bind at 1. destruct (decide (off mod 4096 <> 0)) as [E|E].
  { rewrite (bool_decide_true (off mod 4096 <> 0)) by done. by rewrite piece_panics. }
  rewrite (bool_decide_false (off mod 4096 <> 0)) by done. unfold mret at 1, K_ret at 1. rewrite (bool_decide_false (0 <> 0)) by lia.
  rewrite bool_decide_false by tauto. cbn [orb]. unfold mbind at 1, K_bind at 1.
  destruct (Z.to_nat (endpos / 4096 - off / 4096)) as [|k] eqn:Ek; cbn [io_blocks].
  - unfold mret at 1, K_ret at 1. rewrite (bool_decide_false (0 <> 0)) by lia. rewrite bool_decide_false by zlia. cbn [orb].
    apply piece_panics. assert (E2 : endpos / 4096 - off / 4096 = 0) by zlia. rewrite E2, Z.add_0_r. by rewrite uwrap_small by zlia.
  - unfold mbind at 1, K_bind at 1. by rewrite piece_panics.
Qed.

Lemma sfs_write_panic_at s n x bm iob buf :
  is_file s n x bm -> 0 <= io_base iob -> 0 < io_resid iob -> io_base iob + io_resid iob <= Z.of_nat (length buf) ->
  0 <= io_offset iob -> io_offset iob + io_resid iob <= SFS_MAX_FILE_SIZE ->
  Z.of_nat (length bm) < io_offset iob / SFS_BLKSIZE \/ SFS_NDIRECT + SFS_BLK_NENTRY <= io_offset iob / SFS_BLKSIZE ->
  sfs_write dv n iob buf s = Panic.
Proof.
  intros [Hx Hf Ht _ Hs] Hb Hr Hl Ho Hmax Hbad. unfold SFS_MAX_FILE_SIZE in Hmax.
  assert (Hf1 : file_rep (locked s n x) (set_sem true x) bm) by (eapply (file_rep_din dv _ x); [by destruct Hf|done..]).
  pose proof (load_panics (locked s n x) n (set_sem true x) bm (io_offset iob / SFS_BLKSIZE) (lookup_insert_eq _ _ _) Hf1) as Hp.
  unfold sfs_write, sfs_io, lock_sin, sin_at, sin_upd, buf_get, mbind, K_bind, unwrap, assert, modify. rewrite Hx. cbn [negb]. rewrite Hs. cbn [negb].
  unfold mbind, K_bind. unfold sin_at, unwrap. rewrite Hx. fold (locked s n x).
  destruct (_ && _) eqn:E; [|done]. clear E. unfold mret at 1, K_ret at 1.
  unfold sfs_io_nolock, sin_at, unwrap, mbind, K_bind, assert. rewrite (lookup_insert_eq (inodes s) n (set_sem true x) : inodes (locked s n x) !! n = _).
  cbn [din set_sem]. rewrite (proj2 (Z.eqb_neq _ _) Ht). cbn [negb andb].
  rewrite swrap_small by lia. destruct (Z.ltb_spec (io_offset iob) 0); [lia|]. unfold SFS_MAX_FILE_SIZE.
  destruct (Z.geb_spec (io_offset iob) (1024 * 1024 * 128)); [lia|]. destruct (Z.gtb_spec (io_offset iob) (io_offset iob + io_resid iob)); [lia|].
  cbn [orb]. destruct (Z.eqb_spec (io_offset iob) (io_offset iob + io_resid iob)); [lia|].
  destruct (Z.gtb_spec (io_offset iob + io_resid iob) (1024 * 1024 * 128)); [lia|]. change SFS_BLKSIZE with 4096 in *.
  rewrite transfer_panics; [done|lia|lia|]. apply Hp; [zlia|done].
Qed.

(** ** The theorems *)

(** Property C1. Writing refines the overwriting of a part of a byte string, for
    any device, at any offset up to the end of the file.  A write reports success
    only when all of it is done; when the device fails or the disk is full, a
    front part of it of the length reported is done.  No other file changes, and
    the map of free blocks stays exact. *)
Theorem sfs_write_refines s F n iob buf bytes :
  fs_rep s F -> F !! n = Some bytes -> 0 <= io_offset iob <= Z.of_nat (length bytes) ->
  0 <= io_base iob -> 0 <= io_resid iob -> io_base iob + io_resid iob <= Z.of_nat (length buf) ->
  io_offset iob + io_resid iob <= MAX_BYTES -> Forall is_byte buf ->
  wp (sfs_write dv n iob buf) (fun '(r, iob', buf') s' => exists k,
    0 <= k <= io_resid iob /\ (r = 0 -> k = io_resid iob) /\ iob' = skipped iob k /\ buf' = buf /\
    fs_rep s' (<[n := splice (io_offset iob) (slice (io_base iob) k buf) bytes]> F)) s.
Proof. intros. eapply wp_sfs_write; [done..|]. intros r k s' ? ? ?. by exists k. Qed.

(** Property C8. Reading stores the bytes of the file from the offset on, as many
    as asked for and as the file has, and nothing else before them; the abstract
    file system is unchanged.  A failure reports what was read before it. *)
Theorem sfs_read_refines s F n iob buf bytes :
  fs_rep s F -> F !! n = Some bytes -> 0 <= io_offset iob < SFS_MAX_FILE_SIZE ->
  0 <= io_base iob -> 0 <= io_resid iob < 2 ^ 62 -> io_base iob + io_resid iob <= Z.of_nat (length buf) -> Forall is_byte buf ->
  wp (sfs_read dv n iob buf) (fun '(r, iob', buf') s' => exists k,
    let m := Z.max 0 (Z.min (io_resid iob) (Z.of_nat (length bytes) - io_offset iob)) in
    0 <= k <= m /\ (r = 0 -> k = m) /\ iob' = skipped iob k /\ length buf' = length buf /\
    slice (io_base iob) k buf' = slice (io_offset iob) k bytes /\
    take (Z.to_nat (io_base iob)) buf' = take (Z.to_nat (io_base iob)) buf /\ fs_rep s' F) s.
Proof. intros. eapply wp_sfs_read; [done..|]. intros m r k buf' s' ? ? ? ? ? ?. by exists k. Qed.

(** Property C20. What a successful write has stored, a successful read of the
    same place gives back. *)
Theorem sfs_write_read s F n iob buf buf2 bytes :
  fs_rep s F -> F !! n = Some bytes -> 0 <= io_offset iob <= Z.of_nat (length bytes) ->
  0 <= io_base iob -> 0 < io_resid iob -> io_base iob + io_resid iob <= Z.of_nat (length buf) ->
  io_offset iob + io_resid iob <= MAX_BYTES -> Forall is_byte buf -> length buf2 = length buf -> Forall is_byte buf2 ->
  wp ('(r, _, _) ← sfs_write dv n iob buf; '(r2, iob2, buf2) ← sfs_read dv n iob buf2; mret (r, r2, iob2, buf2))
    (fun '(r, r2, iob2, buf2) s' => r = 0 -> r2 = 0 ->
       io_resid iob2 = 0 /\ slice (io_base iob) (io_resid iob) buf2 = slice (io_base iob) (io_resid iob) buf) s.
Proof.
  intros H Hn Ho Hb Hr Hl Hmax Hby El Hby2. assert (EM : MAX_BYTES = 4243456) by done.
  kstep. eapply wp_sfs_write; [exact H|exact Hn|done|done|lia|done|done|done|]. intros r k s1 Hk Hk0 H1. kstep.
  set (d := slice (io_base iob) k buf) in *. assert (Hd : Z.of_nat (length d) = k) by (apply length_slice; lia).
  assert (Hlen : Z.of_nat (length (splice (io_offset iob) d bytes)) = Z.max (Z.of_nat (length bytes)) (io_offset iob + k)).
  { unfold splice. rewrite !length_app, length_take, length_drop. lia. }
  eapply wp_sfs_read; [exact H1|apply lookup_insert_eq|unfold SFS_MAX_FILE_SIZE; lia|done|lia|lia|done|].
  rewrite Hlen. intros m r2 k2 b2 s2 _ Hk2 _ Hs _ _. kstep. intros -> ->. specialize (Hk0 eq_refl). specialize (Hk2 eq_refl).
  assert (k2 = io_resid iob) as -> by lia. clear Hk2. subst k. cbn [io_resid skipped]. split; [lia|].
  rewrite Hs. rewrite <-Hd at 1. apply slice_splice_eq; lia.
Qed.

(** Property C9. Resizing cuts the file or extends it: the bytes that fit are
    kept, what follows comes from the rest of the last block and from zeros, and
    the file ends with exactly the blocks its new size needs.  A failed extension
    leaves the contents alone.  No other file changes. *)
Theorem sfs_truncfile_spec s F n len bytes :
  fs_rep s F -> F !! n = Some bytes -> tight s n (Z.of_nat (length bytes)) -> 0 <= len <= MAX_BYTES ->
  wp (sfs_truncfile dv n len) (fun r s' => resized s F n len bytes r s') s.
Proof. intros. eapply wp_sfs_truncfile; [done..|]. auto. Qed.

(** Property C38. A write that skips a whole block of the file is not refused: the
    kernel panics, although the write is within [SFS_MAX_FILE_SIZE].  To skip a
    block is to start in a block with a number above that of the block just after
    the file's last one (offset / 4096 greater than the number of blocks; a write
    that starts in the block just after the last one is an append, and goes
    through).  A write that starts at or past the 1036 blocks that a block map can
    hold panics as well. *)
Theorem sfs_write_beyond_refuted s n x bm iob buf :
  is_file s n x bm -> 0 <= io_base iob -> 0 < io_resid iob -> io_base iob + io_resid iob <= Z.of_nat (length buf) ->
  0 <= io_offset iob -> io_offset iob + io_resid iob <= SFS_MAX_FILE_SIZE ->
  Z.of_nat (length bm) < io_offset iob / SFS_BLKSIZE \/ MAX_BYTES <= io_offset iob ->
  sfs_write dv n iob buf s = Panic.
Proof.
  intros Hf Hb Hr Hl Ho Hmax Hbad. eapply sfs_write_panic_at; [exact Hf|done..|].
  destruct Hbad as [?|Hbad]; [by left|right]. unfold MAX_BYTES in Hbad. rewrite Z.mul_comm in Hbad.
  change SFS_BLKSIZE with 4096 in *. apply Z.div_le_lower_bound; lia.
Qed.
End spec.

(** ** A disk of eight blocks, and a file of five bytes in block 4 *)

Definition ex_text : list Z := [104; 101; 108; 108; 111].
Definition ex_image : list Z := replicate 16384 0 ++ ex_text ++ replicate 16379 0.
Definition ex_disk : disks := mk_disks {[ DISK0_DEV_NO := mk_ide true 64 ex_image ]} (replicate 16384 0) false.
Definition ex_dev : device disks := disk0_device 64.
Definition ex_file : sfs_inode := mk_sin (mk_din 5 SFS_TYPE_FILE 1 1 (4 :: replicate 11 0) 0) 3 false 1 false.
Definition ex_fs : sfs_fs disks :=
  mk_sfs 8 3 false (mk_bitmap 8 1 [0xE0]) (replicate 4096 0) false {[ 1 := ex_file ]} ex_disk.

Lemma ex_holds : holds 64 ex_image ex_disk.
Proof.
  split; [done|by vm_compute| |done|by vm_compute|apply Forall_replicate; unfold is_byte; lia].
  unfold ex_image. rewrite !Forall_app. split_and!; [| |]; try (apply Forall_replicate; unfold is_byte; lia).
  repeat constructor; done.
Qed.

Lemma ex_map_wf : bitmap_wf (freemap ex_fs).
Proof.
  split; try done; [cbn; intros w Hw; apply list_elem_of_singleton in Hw as ->; lia|].
  intros i Hi. unfold free_bit. cbn in Hi |- *. destruct (decide (i < 32)) as [Hs|Hs].
  - rewrite Z.div_small by lia. cbn. rewrite Z.mod_small by lia. apply Z.bits_above_log2; [done|]. cbn. lia.
  - rewrite lookup_ge_None_2; [done|]. cbn. zlia.
Qed.

Lemma ex_free b : 0 <= b -> free_bit (freemap ex_fs) b = true -> 0 < b < 8.
Proof.
  intros Hb E. pose proof (free_bit_range _ _ ex_map_wf Hb E) as [_ Hlt]. cbn in Hlt.
  assert (b <> 0) by (intros ->; done). lia.
Qed.

Lemma ex_fs_wf : sfs_wf ex_dev ex_fs.
Proof.
  split; try (done || by vm_compute).
  - split; [exact ex_holds|done].
  - split; [by vm_compute|apply Forall_replicate; unfold is_byte; lia].
  - exact ex_map_wf.
  - exact ex_free.
Qed.

Lemma ex_file_rep : file_rep ex_dev ex_fs ex_file [4].
Proof.
  split; try (done || by vm_compute).
  - intros i Hi. do 12 (destruct i as [|i]; [done|]). lia.
  - intros _. cbn. lia.
  - intros b Hb. apply list_elem_of_singleton in Hb as ->. by split.
  - apply NoDup_singleton.
Qed.

Lemma ex_is_file : is_file ex_dev ex_fs 1 ex_file [4].
Proof. split; try done; [exact ex_file_rep]. Qed.

Lemma ex_fs_rep : fs_rep ex_dev ex_fs {[ 1 := ex_text ]}.
Proof.
  split; [exact ex_fs_wf|]. exists (fun _ => [4]). split.
  - intros n b Hb. apply lookup_singleton_Some in Hb as [<- <-]. exists ex_file. split; [exact ex_is_file|by vm_compute].
  - intros n m x y c Hne [b1 H1] [b2 H2]. apply lookup_singleton_Some in H1 as [<- _]. apply lookup_singleton_Some in H2 as [<- _]. done.
Qed.

Lemma ex_bytes_small l : forallb (fun x => (0 <=? x) && (x <? 256)) l = true -> Forall is_byte l.
Proof. intros H. apply Forall_forall. intros x Hx. apply list_elem_of_In in Hx. rewrite forallb_forall in H. specialize (H x Hx). unfold is_byte. lia. Qed.

(** ** Witnesses *)
Lemma sfs_write_refines_witness :
  wp (sfs_write ex_dev 1 (mk_iobuf 0 3 4 4) [112; 33; 10; 0]) (fun '(r, iob', buf') s' => exists k,
    0 <= k <= 4 /\ (r = 0 -> k = 4) /\ iob' = skipped (mk_iobuf 0 3 4 4) k /\ buf' = [112; 33; 10; 0] /\
    fs_rep ex_dev s' (<[1 := splice 3 (slice 0 k [112; 33; 10; 0]) ex_text]> {[ 1 := ex_text ]})) ex_fs.
Proof.
  refine (sfs_write_refines ex_dev ex_fs {[ 1 := ex_text ]} 1 (mk_iobuf 0 3 4 4) [112; 33; 10; 0] ex_text ex_fs_rep _ _ _ _ _ _ _);
    try (cbn; lia); [reflexivity|by vm_compute|by apply ex_bytes_small].
Defined.

Lemma sfs_read_refines_witness :
  wp (sfs_read ex_dev 1 (mk_iobuf 0 1 8 8) (replicate 8 0)) (fun '(r, iob', buf') s' => exists k,
    let m := Z.max 0 (Z.min 8 (5 - 1)) in
    0 <= k <= m /\ (r = 0 -> k = m) /\ iob' = skipped (mk_iobuf 0 1 8 8) k /\ length buf' = 8%nat /\
    slice 0 k buf' = slice 1 k ex_text /\ take 0 buf' = [] /\ fs_rep ex_dev s' {[ 1 := ex_text ]}) ex_fs.
Proof.
  refine (sfs_read_refines ex_dev ex_fs {[ 1 := ex_text ]} 1 (mk_iobuf 0 1 8 8) (replicate 8 0) ex_text ex_fs_rep _ _ _ _ _ _);
    try (cbn; unfold SFS_MAX_FILE_SIZE; lia); [reflexivity|by apply ex_bytes_small].
Defined.

Lemma sfs_write_read_witness :
  wp ('(r, _, _) ← sfs_write ex_dev 1 (mk_iobuf 0 3 4 4) [112; 33; 10; 0];
      '(r2, iob2, buf2) ← sfs_read ex_dev 1 (mk_iobuf 0 3 4 4) [0; 0; 0; 0]; mret (r, r2, iob2, buf2))
    (fun '(r, r2, iob2, buf2) s' => r = 0 -> r2 = 0 ->
       io_resid iob2 = 0 /\ slice 0 4 buf2 = slice 0 4 [112; 33; 10; 0]) ex_fs.
Proof.
  refine (sfs_write_read ex_dev ex_fs {[ 1 := ex_text ]} 1 (mk_iobuf 0 3 4 4) [112; 33; 10; 0] [0; 0; 0; 0] ex_text ex_fs_rep _ _ _ _ _ _ _ _ _);
    try (cbn; lia); [reflexivity|by vm_compute|by apply ex_bytes_small|by apply ex_bytes_small].
Defined.

Lemma sfs_truncfile_spec_witness :
  wp (sfs_truncfile ex_dev 1 5000) (fun r s' => resized ex_dev ex_fs {[ 1 := ex_text ]} 1 5000 ex_text r s') ex_fs.
Proof.
  refine (sfs_truncfile_spec ex_dev ex_fs {[ 1 := ex_text ]} 1 5000 ex_text ex_fs_rep _ _ _);
    [reflexivity|exists ex_file; split; reflexivity|by vm_compute].
Defined.

Lemma sfs_write_beyond_refuted_witness :
  sfs_write ex_dev 1 (mk_iobuf 0 8192 1 1) [65] ex_fs = Panic.
Proof.
  refine (sfs_write_beyond_refuted ex_dev ex_fs 1 ex_file [4] (mk_iobuf 0 8192 1 1) [65] ex_is_file _ _ _ _ _ _);
    try (cbn; lia); [by vm_compute|left; by vm_compute].
Defined.

(** ** Two defects of resizing, on the disk above *)

(** The result of a run, without its state. *)
Definition result {S A} (m : K S A) (s : S) : outcome A :=
  match m s with Done (a, _) => Done a | Panic => Panic | Timeout => Timeout end.

(** An extension that finds the disk full keeps the blocks it got:
    the file then has more blocks than its size needs, none is left for others,
    and resizing the file to the size it has (what opening it with [O_TRUNC]
    does to an empty file) trips an assertion. *)
Theorem sfs_tryseek_full_refuted :
  result (sfs_tryseek ex_dev 1 40000) ex_fs = Done (- E_NO_MEM) /\
  result (sfs_tryseek ex_dev 1 40000;; x ← sin_at 1; s ← get; mret (din_size (din x), blocks (din x), unused_blocks s)) ex_fs
    = Done (5, 4, 0) /\
  result (sfs_tryseek ex_dev 1 40000;; sfs_truncfile ex_dev 1 5) ex_fs = Panic.
Proof. split_and!; by vm_compute. Qed.

(** Shrinking does not clear the rest of the last block: after a
    file has been cut to two bytes, an extension brings the old bytes back where
    zeros are expected. *)
Theorem sfs_truncfile_stale_refuted :
  result (sfs_truncfile ex_dev 1 2;; sfs_tryseek ex_dev 1 6;; '(r, _, b) ← sfs_read ex_dev 1 (mk_iobuf 0 0 6 6) (replicate 6 1); mret (r, b)) ex_fs
    = Done (0, ex_text ++ [0]).
Proof. by vm_compute. Qed.
