(* ===== verification/Vfs.v ===== *)
(** kern/fs/vfs (inode.c, inode.h, vfs.c, vfsdev.c, vfsfile.c, vfslookup.c,
    vfspath.c): inodes with their counts, the devices and file systems that paths
    begin with, opening and closing.

    What an inode does is behind the record [inode_ops] of function pointers, as
    in C, where a missing operation is NULL.  The operations run on the whole
    state, because looking a name up brings inodes into memory.  A C string is
    the list of its bytes without the final zero. *)
From S2P Require Import Prelude Iobuf.
#[local] Abbreviation length := Datatypes.length.

(** ** unistd.h, stat.h, fs.h *)

Definition O_WRONLY := 1.
Definition O_RDWR := 2.
Definition O_CREAT := 4.
Definition O_EXCL := 8.
Definition O_TRUNC := 16.
Definition O_APPEND := 32.
Definition O_ACCMODE := 3.
Definition FS_MAX_DNAME_LEN := 31.
Definition MAX_INODE_COUNT := 0x10000.
Definition S_IFMT := 28672.
Definition S_IFDIR := 8192.
Definition S_ISDIR (mode : Z) : bool := Z.land mode S_IFMT =? S_IFDIR.
Definition SLASH := 47.
Definition COLON := 58.

Definition has_flag (flags f : Z) : bool := negb (Z.land flags f =? 0).

(** [O_ACCMODE] of the flags: reading, writing; [None] is the fourth value. *)
Definition access_mode (flags : Z) : option (bool * bool) :=
  let m := Z.land flags O_ACCMODE in
  if m =? 0 then Some (true, false) else if m =? O_WRONLY then Some (false, true) else if m =? O_RDWR then Some (true, true) else None.

(** ** Data *)

Record stat := mk_stat { st_mode : Z; st_nlinks : Z; st_blocks : Z; st_size : Z }.

(** [in_ops] numbers the table of operations, [in_fs] the file system, 0 is NULL. *)
Record inode := mk_inode { ref_count : Z; open_count : Z; in_ops : Z; in_fs : Z }.
Definition set_ref_count (v : Z) (x : inode) := mk_inode v (open_count x) (in_ops x) (in_fs x).
Definition set_open_count (v : Z) (x : inode) := mk_inode (ref_count x) v (in_ops x) (in_fs x).

Record vfs_dev := mk_vfs_dev { devname : list Z; devnode : Z; dev_fs : Z; mountable : bool }.
Definition set_dev_fs (v : Z) (d : vfs_dev) := mk_vfs_dev (devname d) (devnode d) v (mountable d).

(** file.h, fs.h; [node] 0 is NULL. *)
Inductive fd_status := FD_NONE | FD_INIT | FD_OPENED | FD_CLOSED.
#[export] Instance fd_status_eq_dec : EqDecision fd_status.
Proof. solve_decision. Defined.

Record file := mk_file { status : fd_status; readable : bool; writable : bool; fd : Z; pos : Z; node : Z; fopen_count : Z }.
Definition set_status (v : fd_status) (f : file) := mk_file v (readable f) (writable f) (fd f) (pos f) (node f) (fopen_count f).
Definition set_pos (v : Z) (f : file) := mk_file (status f) (readable f) (writable f) (fd f) v (node f) (fopen_count f).
Definition set_node (v : Z) (f : file) := mk_file (status f) (readable f) (writable f) (fd f) (pos f) v (fopen_count f).
Definition set_fopen_count (v : Z) (f : file) := mk_file (status f) (readable f) (writable f) (fd f) (pos f) (node f) v.

Record files_struct := mk_files { pwd : Z; fd_array : list file; files_count : Z; files_nlinks : Z; files_sem : bool }.
Definition set_pwd (v : Z) (p : files_struct) := mk_files v (fd_array p) (files_count p) (files_nlinks p) (files_sem p).
Definition set_fd_array (v : list file) (p : files_struct) := mk_files (pwd p) v (files_count p) (files_nlinks p) (files_sem p).
Definition set_files_sem (v : bool) (p : files_struct) := mk_files (pwd p) (fd_array p) (files_count p) (files_nlinks p) v.

(** [vdev_list] is a list of devices (see [Dlist]); [tables] holds the open files
    of the processes, [cur] is [current->filesp]; [ext] is the state behind the
    operations of the inodes.  A semaphore used as a lock is a bool. *)
Record vfs (X : Type) := mk_vfs {
  inodes : gmap Z inode;
  vdev_list : list vfs_dev;
  vdev_list_sem : bool;
  bootfs_node : Z;
  bootfs_sem : bool;
  tables : gmap Z files_struct;
  cur : Z;
  ext : X;
}.
Arguments mk_vfs {X}.
Arguments inodes {X}.
Arguments vdev_list {X}.
Arguments vdev_list_sem {X}.
Arguments bootfs_node {X}.
Arguments bootfs_sem {X}.
Arguments tables {X}.
Arguments cur {X}.
Arguments ext {X}.

(** inode.h; the functions that store through a pointer return what they store. *)
Record inode_ops (X : Type) := mk_inode_ops {
  op_open : option (Z -> Z -> K (vfs X) Z);
  op_close : option (Z -> K (vfs X) Z);
  op_read : option (Z -> iobuf -> K (vfs X) (Z * iobuf));
  op_write : option (Z -> iobuf -> K (vfs X) (Z * iobuf));
  op_fstat : option (Z -> K (vfs X) (Z * stat));
  op_fsync : option (Z -> K (vfs X) Z);
  op_namefile : option (Z -> iobuf -> K (vfs X) (Z * iobuf));
  op_getdirentry : option (Z -> iobuf -> K (vfs X) (Z * iobuf));
  op_reclaim : option (Z -> K (vfs X) Z);
  op_gettype : option (Z -> K (vfs X) (Z * Z));
  op_tryseek : option (Z -> Z -> K (vfs X) Z);
  op_truncate : option (Z -> Z -> K (vfs X) Z);
  op_create : option (Z -> list Z -> bool -> K (vfs X) (Z * Z));
  op_lookup : option (Z -> list Z -> K (vfs X) (Z * Z));
}.
Arguments op_open {X}. Arguments op_close {X}. Arguments op_read {X}. Arguments op_write {X}.
Arguments op_fstat {X}. Arguments op_fsync {X}. Arguments op_namefile {X}. Arguments op_getdirentry {X}.
Arguments op_reclaim {X}. Arguments op_gettype {X}. Arguments op_tryseek {X}. Arguments op_truncate {X}.
Arguments op_create {X}. Arguments op_lookup {X}.

(** vfs.h, struct fs. *)
Record fs_ops (X : Type) := mk_fs_ops {
  fs_sync : Z -> K (vfs X) Z;
  fs_get_root : Z -> K (vfs X) Z;
  fs_unmount : Z -> K (vfs X) Z;
  fs_cleanup : Z -> K (vfs X) ();
}.
Arguments fs_sync {X}. Arguments fs_get_root {X}. Arguments fs_unmount {X}. Arguments fs_cleanup {X}.

Section vfs.
Context {X : Type} (ops : Z -> inode_ops X) (fops : fs_ops X).
Abbreviation K := (K (vfs X)).

Definition set_inodes (v : gmap Z inode) (s : vfs X) := mk_vfs v (vdev_list s) (vdev_list_sem s) (bootfs_node s) (bootfs_sem s) (tables s) (cur s) (ext s).
Definition set_vdev_list (v : list vfs_dev) (s : vfs X) := mk_vfs (inodes s) v (vdev_list_sem s) (bootfs_node s) (bootfs_sem s) (tables s) (cur s) (ext s).
Definition set_vdev_list_sem (v : bool) (s : vfs X) := mk_vfs (inodes s) (vdev_list s) v (bootfs_node s) (bootfs_sem s) (tables s) (cur s) (ext s).
Definition set_bootfs_node (v : Z) (s : vfs X) := mk_vfs (inodes s) (vdev_list s) (vdev_list_sem s) v (bootfs_sem s) (tables s) (cur s) (ext s).
Definition set_bootfs_sem (v : bool) (s : vfs X) := mk_vfs (inodes s) (vdev_list s) (vdev_list_sem s) (bootfs_node s) v (tables s) (cur s) (ext s).
Definition set_tables (v : gmap Z files_struct) (s : vfs X) := mk_vfs (inodes s) (vdev_list s) (vdev_list_sem s) (bootfs_node s) (bootfs_sem s) v (cur s) (ext s).
Definition set_ext (v : X) (s : vfs X) := mk_vfs (inodes s) (vdev_list s) (vdev_list_sem s) (bootfs_node s) (bootfs_sem s) (tables s) (cur s) v.

Definition inode_at (n : Z) : K inode := fun s => unwrap (inodes s !! n) s.
Definition inode_upd (n : Z) (f : inode -> inode) : K () := x ← inode_at n; modify (fun s => set_inodes (<[n := f x]> (inodes s)) s).
Definition files_at (p : Z) : K files_struct := fun s => unwrap (tables s !! p) s.
Definition files_upd (p : Z) (f : files_struct -> files_struct) : K () := x ← files_at p; modify (fun s => set_tables (<[p := f x]> (tables s)) s).

(** ** inode.c *)

(** The assertions before a call of an operation. *)
Definition inode_check (n : Z) : K () :=
  x ← inode_at n;
  assert ((open_count x <=? ref_count x) && (0 <=? open_count x));;
  assert ((ref_count x <? MAX_INODE_COUNT) && (open_count x <? MAX_INODE_COUNT)).

(** [__vop_op]: the operation of an inode; NULL is a panic. *)
Definition vop {F} (op : inode_ops X -> option F) (n : Z) : K F :=
  x ← inode_at n;
  f ← unwrap (op (ops (in_ops x)));
  inode_check n;;
  mret f.

Definition vop_open (n flags : Z) : K Z := f ← vop op_open n; f n flags.
Definition vop_close (n : Z) : K Z := f ← vop op_close n; f n.
Definition vop_read (n : Z) (iob : iobuf) : K (Z * iobuf) := f ← vop op_read n; f n iob.
Definition vop_write (n : Z) (iob : iobuf) : K (Z * iobuf) := f ← vop op_write n; f n iob.
Definition vop_fstat (n : Z) : K (Z * stat) := f ← vop op_fstat n; f n.
Definition vop_fsync (n : Z) : K Z := f ← vop op_fsync n; f n.
Definition vop_namefile (n : Z) (iob : iobuf) : K (Z * iobuf) := f ← vop op_namefile n; f n iob.
Definition vop_getdirentry (n : Z) (iob : iobuf) : K (Z * iobuf) := f ← vop op_getdirentry n; f n iob.
Definition vop_reclaim (n : Z) : K Z := f ← vop op_reclaim n; f n.
Definition vop_gettype (n : Z) : K (Z * Z) := f ← vop op_gettype n; f n.
Definition vop_tryseek (n p : Z) : K Z := f ← vop op_tryseek n; f n p.
Definition vop_truncate (n len : Z) : K Z := f ← vop op_truncate n; f n len.
Definition vop_create (n : Z) (name : list Z) (excl : bool) : K (Z * Z) := f ← vop op_create n; f n name excl.
Definition vop_lookup (n : Z) (path : list Z) : K (Z * Z) := f ← vop op_lookup n; f n path.

Definition inode_ref_inc (n : Z) : K Z := inode_upd n (fun x => set_ref_count (s32 (ref_count x + 1)) x);; x ← inode_at n; mret (ref_count x).
Definition inode_open_inc (n : Z) : K Z := inode_upd n (fun x => set_open_count (s32 (open_count x + 1)) x);; x ← inode_at n; mret (open_count x).

Definition inode_init (n o fs : Z) : K () :=
  modify (fun s => set_inodes (<[n := mk_inode 0 0 o fs]> (inodes s)) s);; inode_ref_inc n;; mret ().

Definition inode_kill (n : Z) : K () :=
  x ← inode_at n;
  assert (ref_count x =? 0);; assert (open_count x =? 0);;
  modify (fun s => set_inodes (delete n (inodes s)) s).

(** A failed [vop_reclaim] or [vop_close] only prints. *)
Definition inode_ref_dec (n : Z) : K Z :=
  x ← inode_at n;
  assert (0 <? ref_count x);;
  inode_upd n (set_ref_count (ref_count x - 1));;
  when (bool_decide (ref_count x - 1 = 0)) (vop_reclaim n;; mret ());;
  mret (ref_count x - 1).

Definition inode_open_dec (n : Z) : K Z :=
  x ← inode_at n;
  assert (0 <? open_count x);;
  inode_upd n (set_open_count (open_count x - 1));;
  when (bool_decide (open_count x - 1 = 0)) (vop_close n;; mret ());;
  mret (open_count x - 1).

(** ** vfspath.c: the current directory *)

Definition get_cwd_nolock : K Z := s ← get; p ← files_at (cur s); mret (pwd p).
Definition set_cwd_nolock (d : Z) : K () := s ← get; files_upd (cur s) (set_pwd d).
Definition lock_files (p : Z) : K () := x ← files_at p; assert (negb (files_sem x));; files_upd p (set_files_sem true).
Definition unlock_files (p : Z) : K () := files_upd p (set_files_sem false).

Definition vfs_get_curdir : K (Z * Z) :=
  n ← get_cwd_nolock;
  if bool_decide (n <> 0) then inode_ref_inc n;; mret (0, n) else mret (- E_NOENT, 0).

(** The part between the locks. *)
Definition set_curdir (dir : Z) : K Z :=
  old ← get_cwd_nolock;
  if bool_decide (old <> dir) then
    ret ← (if bool_decide (dir <> 0) then
             '(ret, type) ← vop_gettype dir;
             if bool_decide (ret <> 0) then mret ret
             else if negb (S_ISDIR type) then mret (- E_NOTDIR)
             else inode_ref_inc dir;; mret 0
           else mret 0);
    when (bool_decide (ret = 0)) (
      set_cwd_nolock dir;;
      when (bool_decide (old <> 0)) (inode_ref_dec old;; mret ()));;
    mret ret
  else mret 0.

Definition vfs_set_curdir (dir : Z) : K Z :=
  s ← get; lock_files (cur s);; ret ← set_curdir dir; unlock_files (cur s);; mret ret.

(** ** vfs.c: the boot file system *)

Definition lock_bootfs : K () := s ← get; assert (negb (bootfs_sem s));; modify (set_bootfs_sem true).
Definition unlock_bootfs : K () := modify (set_bootfs_sem false).

Definition change_bootfs (n : Z) : K () :=
  lock_bootfs;;
  s ← get;
  modify (set_bootfs_node n);;
  unlock_bootfs;;
  when (bool_decide (bootfs_node s <> 0)) (inode_ref_dec (bootfs_node s);; mret ()).

Definition vfs_get_bootfs : K (Z * Z) :=
  s ← get;
  n ← (if bool_decide (bootfs_node s <> 0) then
         lock_bootfs;;
         s ← get;
         when (bool_decide (bootfs_node s <> 0)) (inode_ref_inc (bootfs_node s);; mret ());;
         unlock_bootfs;;
         mret (bootfs_node s)
       else mret 0);
  if bool_decide (n = 0) then mret (- E_NOENT, 0) else mret (0, n).

(** ** vfsdev.c: devices *)

Definition lock_vdev_list : K () := s ← get; assert (negb (vdev_list_sem s));; modify (set_vdev_list_sem true).
Definition unlock_vdev_list : K () := modify (set_vdev_list_sem false).
Definition vfs_devlist_init : K () := modify (fun s => set_vdev_list_sem false (set_vdev_list [] s)).
Definition vfs_init : K () := modify (set_bootfs_sem false);; vfs_devlist_init.

Definition find_dev (name : list Z) (l : list vfs_dev) : option vfs_dev := snd <$> list_find (fun d => name = devname d) l.

Definition dev_root (d : vfs_dev) : K (Z * Z) :=
  if bool_decide (dev_fs d <> 0) then
    n ← fs_get_root fops (dev_fs d);
    mret (if bool_decide (n = 0) then (- E_NA_DEV, 0) else (0, n))
  else if negb (mountable d) then inode_ref_inc (devnode d);; mret (0, devnode d)
  else mret (- E_NA_DEV, 0).

Definition vfs_get_root (name : list Z) : K (Z * Z) :=
  s ← get;
  match vdev_list s with
  | [] => mret (- E_NO_DEV, 0)
  | _ =>
      lock_vdev_list;;
      r ← match find_dev name (vdev_list s) with Some d => dev_root d | None => mret (- E_NO_DEV, 0) end;
      unlock_vdev_list;;
      mret r
  end.

Definition vfs_get_devname (fs : Z) : K (option (list Z)) :=
  s ← get; mret (devname ∘ snd <$> list_find (fun d => dev_fs d = fs) (vdev_list s)).

(** The list has no device called [name]. *)
Definition check_devname_conflict (name : list Z) : K bool :=
  s ← get; mret (match find_dev name (vdev_list s) with Some _ => false | None => true end).

(** [mem] says whether [strdup] and [kmalloc] find memory; the device node and
    the file system may be 0. *)
Definition vfs_do_add (mem : bool) (name : list Z) (dn fs : Z) (m : bool) : K Z :=
  assert (if bool_decide (dn = 0) then negb m else true);;
  if FS_MAX_DNAME_LEN <? Z.of_nat (length name) then mret (- E_TOO_BIG)
  else if negb mem then mret (- E_NO_MEM)
  else
    lock_vdev_list;;
    ok ← check_devname_conflict name;
    if negb ok then unlock_vdev_list;; mret (- E_EXISTS)
    else
      modify (fun s => set_vdev_list (mk_vfs_dev name dn fs m :: vdev_list s) s);;
      unlock_vdev_list;;
      mret 0.
Definition vfs_add_fs (mem : bool) (name : list Z) (fs : Z) : K Z := vfs_do_add mem name 0 fs false.
Definition vfs_add_dev (mem : bool) (name : list Z) (dn : Z) (m : bool) : K Z := vfs_do_add mem name dn 0 m.

(** The position of a mountable device. *)
Definition find_mount (name : list Z) : K (option (nat * vfs_dev)) :=
  s ← get; mret (list_find (fun d => mountable d = true /\ devname d = name) (vdev_list s)).

Definition dev_set_fs (i : nat) (fs : Z) : K () := modify (fun s => set_vdev_list (alter (set_dev_fs fs) i (vdev_list s)) s).

(** [mountfunc] gets the inode of the device and returns the file system. *)
Definition vfs_mount (name : list Z) (mountfunc : Z -> K (Z * Z)) : K Z :=
  lock_vdev_list;;
  o ← find_mount name;
  ret ← match o with
        | None => mret (- E_NO_DEV)
        | Some (i, d) =>
            if bool_decide (dev_fs d <> 0) then mret (- E_BUSY)
            else
              '(ret, fs) ← mountfunc (devnode d);
              when (bool_decide (ret = 0)) (assert (bool_decide (fs <> 0));; dev_set_fs i fs);;
              mret ret
        end;
  unlock_vdev_list;;
  mret ret.

(** [fsop_sync], then [fsop_unmount]. *)
Definition unmount_dev (i : nat) (fs : Z) : K Z :=
  ret ← fs_sync fops fs;
  if bool_decide (ret <> 0) then mret ret
  else
    ret ← fs_unmount fops fs;
    when (bool_decide (ret = 0)) (dev_set_fs i 0);;
    mret ret.

Definition vfs_unmount (name : list Z) : K Z :=
  lock_vdev_list;;
  o ← find_mount name;
  ret ← match o with
        | None => mret (- E_NO_DEV)
        | Some (i, d) => if bool_decide (dev_fs d = 0) then mret (- E_INVAL) else unmount_dev i (dev_fs d)
        end;
  unlock_vdev_list;;
  mret ret.

Fixpoint unmount_from (n i : nat) : K () :=
  match n with
  | O => mret ()
  | S n =>
      s ← get;
      match vdev_list s !! i with
      | Some d => when (mountable d && bool_decide (dev_fs d <> 0)) (unmount_dev i (dev_fs d);; mret ())
      | None => mret ()
      end;;
      unmount_from n (S i)
  end.
Definition vfs_unmount_all : K Z :=
  s ← get;
  match vdev_list s with
  | [] => mret 0
  | l => lock_vdev_list;; unmount_from (length l) 0;; unlock_vdev_list;; mret 0
  end.

Fixpoint cleanup_from (l : list vfs_dev) : K () :=
  match l with
  | [] => mret ()
  | d :: l => when (bool_decide (dev_fs d <> 0)) (fs_cleanup fops (dev_fs d));; cleanup_from l
  end.
Definition vfs_cleanup : K () :=
  s ← get;
  match vdev_list s with
  | [] => mret ()
  | l => lock_vdev_list;; cleanup_from l;; unlock_vdev_list
  end.

(** ** vfslookup.c *)

(** The first colon or slash of a path: what is before it, and it with the rest. *)
Fixpoint split_path (path : list Z) : list Z * list Z :=
  match path with
  | [] => ([], [])
  | c :: rest => if (c =? COLON) || (c =? SLASH) then ([], path) else let '(a, b) := split_path rest in (c :: a, b)
  end.

Fixpoint skip_slashes (path : list Z) : list Z :=
  match path with c :: rest => if c =? SLASH then skip_slashes rest else path | [] => [] end.

(** The result, the inode, the rest of the path, and the path as it is left in
    the caller's buffer: the colon after a device is overwritten by a zero. *)
Definition get_device (path : list Z) : K (Z * Z * list Z * list Z) :=
  match split_path path with
  | (dev, c :: rest) =>
      match dev with
      | [] =>
          if c =? SLASH then
            '(ret, n) ← vfs_get_bootfs;
            mret (ret, n, skip_slashes rest, path)
          else
            '(ret, n) ← vfs_get_curdir;
            if bool_decide (ret <> 0) then mret (ret, 0, path, path)
            else
              x ← inode_at n;
              assert (bool_decide (in_fs x <> 0));;
              root ← fs_get_root fops (in_fs x);
              inode_ref_dec n;;
              mret (0, root, skip_slashes rest, path)
      | _ =>
          if c =? COLON then '(ret, n) ← vfs_get_root dev; mret (ret, n, skip_slashes rest, dev)
          else '(ret, n) ← vfs_get_curdir; mret (ret, n, path, path)
      end
  | (_, []) => '(ret, n) ← vfs_get_curdir; mret (ret, n, path, path)
  end.

(** The result, the inode, the path as it is left. *)
Definition vfs_lookup (path : list Z) : K (Z * Z * list Z) :=
  '(ret, n, sub, path') ← get_device path;
  if bool_decide (ret <> 0) then mret (ret, 0, path')
  else
    match sub with
    | [] => mret (0, n, path')
    | _ => '(ret, m) ← vop_lookup n sub; inode_ref_dec n;; mret (ret, m, path')
    end.

(** The result, the directory, the name in it. *)
Definition vfs_lookup_parent (path : list Z) : K (Z * Z * list Z) :=
  '(ret, n, sub, _) ← get_device path;
  if bool_decide (ret <> 0) then mret (ret, 0, path) else mret (0, n, sub).

Definition vfs_chdir (path : list Z) : K Z :=
  '(ret, n, _) ← vfs_lookup path;
  if bool_decide (ret = 0) then ret ← vfs_set_curdir n; inode_ref_dec n;; mret ret else mret ret.

Definition vfs_set_bootfs (fsname : option (list Z)) : K Z :=
  match fsname with
  | None => change_bootfs 0;; mret 0
  | Some name =>
      match list_find (fun c => c = COLON) name with
      | Some (i, _) =>
          if negb (i + 1 =? length name)%nat then mret (- E_INVAL)
          else
            ret ← vfs_chdir name;
            if bool_decide (ret <> 0) then mret ret
            else
              '(ret, n) ← vfs_get_curdir;
              if bool_decide (ret <> 0) then mret ret else change_bootfs n;; mret 0
      | None => mret (- E_INVAL)
      end
  end.

(** ** vfsfile.c *)

(** [vop_create] leaves the inode unset when it fails, and what follows uses it:
    a panic here.  The second lookup works on the path the first one has left. *)
Definition open_lookup (path : list Z) (flags : Z) : K (Z * Z) :=
  let excl := has_flag flags O_EXCL in
  let create := has_flag flags O_CREAT in
  '(ret, n, path') ← vfs_lookup path;
  if bool_decide (ret <> 0) then
    if bool_decide (ret = - E_NOENT) && create then
      '(ret, dir, name) ← vfs_lookup_parent path';
      if bool_decide (ret <> 0) then mret (ret, 0)
      else '(ret, n) ← vop_create dir name excl; assert (bool_decide (ret = 0));; mret (0, n)
    else mret (ret, 0)
  else if excl && create then mret (- E_EXISTS, 0)
  else mret (0, n).

Definition vfs_open (path : list Z) (flags : Z) : K (Z * Z) :=
  match access_mode flags with
  | None => mret (- E_INVAL, 0)
  | Some (_, can_write) =>
      if has_flag flags O_TRUNC && negb can_write then mret (- E_INVAL, 0)
      else
        '(ret, n) ← open_lookup path flags;
        if bool_decide (ret <> 0) then mret (ret, 0)
        else
          assert (bool_decide (n <> 0));;
          ret ← vop_open n flags;
          if bool_decide (ret <> 0) then inode_ref_dec n;; mret (ret, 0)
          else
            inode_open_inc n;;
            ret ← (if has_flag flags O_TRUNC || has_flag flags O_CREAT then vop_truncate n 0 else mret 0);
            if bool_decide (ret <> 0) then inode_open_dec n;; inode_ref_dec n;; mret (ret, 0)
            else mret (0, n)
  end.

Definition vfs_close (n : Z) : K Z := inode_open_dec n;; inode_ref_dec n;; mret 0.
End vfs.
