(* ===== verification/VfsSpec.v ===== *)
(** The counts of inodes (kern/fs/vfs/inode.c) and who they count: [need] is the
    number of references that the tables of open files, the working directories,
    the devices and the boot file system hold, and an inode has exactly these and
    those of the call that runs.  An opening that may create a file can leave one
    reference behind that nobody gives back ([leaked]).  The operations of the
    inodes are behind the contract [VopLaws]. *)
From S2P Require Import Prelude Iobuf Vfs.
#[local] Abbreviation length := Datatypes.length.

(** ** Sums over a map *)

Definition msum {A} (f : A -> Z) (m : gmap Z A) : Z := map_fold (fun _ x acc => f x + acc) 0 m.

Lemma msum_insert_new {A} (f : A -> Z) (m : gmap Z A) k x : m !! k = None -> msum f (<[k := x]> m) = f x + msum f m.
Proof. intros Hk. unfold msum. rewrite (map_fold_insert_L (fun _ x acc => f x + acc)); [done| |done]. intros. lia. Qed.

Lemma msum_delete {A} (f : A -> Z) (m : gmap Z A) k x : m !! k = Some x -> msum f m = f x + msum f (delete k m).
Proof. intros Hk. rewrite <-(insert_delete_id m k x) at 1 by done. apply msum_insert_new. apply lookup_delete_eq. Qed.

Lemma msum_insert {A} (f : A -> Z) (m : gmap Z A) k x y : m !! k = Some x -> msum f (<[k := y]> m) = msum f m - f x + f y.
Proof.
  intros Hk. rewrite (msum_delete f m k x Hk), <-insert_delete_eq, msum_insert_new by apply lookup_delete_eq. lia.
Qed.

Lemma msum_nonneg {A} (f : A -> Z) (m : gmap Z A) : (forall x, 0 <= f x) -> 0 <= msum f m.
Proof. intros Hf. induction m as [|k x m Hk IH] using map_ind; [done|]. rewrite msum_insert_new by done. specialize (Hf x). lia. Qed.

Lemma msum_ge {A} (f : A -> Z) (m : gmap Z A) k x : (forall x, 0 <= f x) -> m !! k = Some x -> f x <= msum f m.
Proof. intros Hf Hk. rewrite (msum_delete f m k x Hk). pose proof (msum_nonneg f (delete k m) Hf). lia. Qed.

Lemma msum_le {A} (f : A -> Z) (m : gmap Z A) c : (forall k x, m !! k = Some x -> f x <= c) -> msum f m <= c * Z.of_nat (size m).
Proof.
  induction m as [|k x m Hk IH] using map_ind; intros Hf; [rewrite map_size_empty; unfold msum; rewrite map_fold_empty; lia|].
  rewrite msum_insert_new, map_size_insert_None by done. pose proof (Hf k x (lookup_insert_eq _ _ _)). rewrite Nat2Z.inj_succ.
  assert (msum f m <= c * Z.of_nat (size m)); [|lia]. apply IH. intros j y Hj. apply (Hf j). rewrite lookup_insert_ne; [done|]. congruence.
Qed.

(** ** Running where a panic is allowed *)

Ltac lstep :=
  lazymatch goal with
  | |- wlp (mret _) _ _ => apply wlp_ret
  | |- wlp (mbind _ _) _ _ => apply wlp_bind
  | |- wlp get _ _ => apply wp_wlp, wp_get
  | |- wlp (modify _) _ _ => apply wp_wlp, wp_modify
  | |- wlp (assert _) _ _ => apply wlp_assert
  | |- wlp (unwrap _) _ _ => apply wlp_unwrap
  | |- wlp (let _ := _ in _) _ _ => cbv zeta
  end.

(** ** Holders *)

Definition eqz (n m : Z) : Z := if decide (n = m) then 1 else 0.

Definition holds (n : Z) (f : file) : bool := bool_decide ((status f = FD_OPENED \/ status f = FD_CLOSED) /\ node f = n).

Section counts.
Context {X : Type} (ops : Z -> inode_ops X) (fops : fs_ops X).
Implicit Types (s : vfs X) (R O : Z -> Z).

Definition opens s (n : Z) : Z := msum (fun t => count (holds n) (fd_array t)) (tables s).
(** A table that no process has is being taken apart, its directory first. *)
Definition held_pwd (n : Z) (t : files_struct) : Z := if decide (0 < files_nlinks t) then eqz (pwd t) n else 0.
Definition pwds s (n : Z) : Z := msum (held_pwd n) (tables s).
Definition devs s (n : Z) : Z := count (fun d => bool_decide (devnode d = n)) (vdev_list s).
Definition need s (n : Z) : Z := opens s n + pwds s n + devs s n + eqz (bootfs_node s) n.

Lemma eqz_range n m : 0 <= eqz n m <= 1.
Proof. unfold eqz. case_decide; lia. Qed.

Lemma opens_nonneg s n : 0 <= opens s n.
Proof. apply msum_nonneg. intros t. pose proof (count_bounds (holds n) (fd_array t)). lia. Qed.
Lemma held_pwd_range n t : 0 <= held_pwd n t <= 1.
Proof. unfold held_pwd. pose proof (eqz_range (pwd t) n). case_decide; lia. Qed.
Lemma pwds_nonneg s n : 0 <= pwds s n.
Proof. apply msum_nonneg. intros t. apply held_pwd_range. Qed.
Lemma devs_nonneg s n : 0 <= devs s n.
Proof. pose proof (count_bounds (fun d => bool_decide (devnode d = n)) (vdev_list s)). unfold devs. lia. Qed.

Lemma opens_need s n : opens s n <= need s n.
Proof. unfold need. pose proof (pwds_nonneg s n). pose proof (devs_nonneg s n). pose proof (eqz_range (bootfs_node s) n). lia. Qed.

(** ** The contract of the operations *)

(** Only the state behind the operations changes. *)
Definition quiet s s' : Prop := exists e, s' = set_ext e s.
(** Inodes may come, go and be counted. *)
Definition calm s s' : Prop := exists i e, s' = set_ext e (set_inodes i s).

(** [m] has one more reference; it may just have been brought into memory. *)
Definition looked_up s s' (m : Z) : Prop := m <> 0 /\ exists x e,
  (inodes s !! m = Some x \/ inodes s !! m = None /\ ref_count x = 0 /\ open_count x = 0 /\ op_reclaim (ops (in_ops x)) <> None) /\
  s' = set_ext e (set_inodes (<[m := set_ref_count (ref_count x + 1) x]> (inodes s)) s).

(** Which inodes there are, of which kind, and which have no reference. *)
Definition kind s (n : Z) := (fun x => (in_ops x, in_fs x, bool_decide (ref_count x = 0))) <$> inodes s !! n.

Definition low s (b : Z) : Prop := forall n x, inodes s !! n = Some x -> ref_count x <= b.

Class VopLaws := {
  vl_ready : vfs X -> Prop;
  vl_stable s s' : vl_ready s -> ext s' = ext s -> (forall n, kind s' n = kind s n) -> vl_ready s';
  vl_open s n x flags : vl_ready s -> inodes s !! n = Some x -> exists f, op_open (ops (in_ops x)) = Some f /\
    wp (f n flags) (fun r s' => r <= 0 /\ quiet s s' /\ vl_ready s') s;
  vl_close s n x : vl_ready s -> inodes s !! n = Some x -> exists f, op_close (ops (in_ops x)) = Some f /\
    wp (f n) (fun _ s' => quiet s s' /\ vl_ready s') s;
  vl_fstat s n x : vl_ready s -> inodes s !! n = Some x -> 0 <= open_count x <= ref_count x -> ref_count x < MAX_INODE_COUNT -> exists f, op_fstat (ops (in_ops x)) = Some f /\
    wp (f n) (fun r s' => r.1 <= 0 /\ quiet s s' /\ vl_ready s') s;
  vl_gettype s n x : vl_ready s -> inodes s !! n = Some x -> exists f, op_gettype (ops (in_ops x)) = Some f /\
    wp (f n) (fun _ s' => quiet s s' /\ vl_ready s') s;
  vl_read s n x f iob : vl_ready s -> inodes s !! n = Some x -> op_read (ops (in_ops x)) = Some f ->
    wp (f n iob) (fun _ s' => quiet s s' /\ vl_ready s') s;
  vl_write s n x f iob : vl_ready s -> inodes s !! n = Some x -> op_write (ops (in_ops x)) = Some f ->
    wlp (f n iob) (fun _ s' => quiet s s' /\ vl_ready s') s;
  vl_fsync s n x f : vl_ready s -> inodes s !! n = Some x -> op_fsync (ops (in_ops x)) = Some f ->
    wlp (f n) (fun _ s' => quiet s s' /\ vl_ready s') s;
  vl_getdirentry s n x f iob : vl_ready s -> inodes s !! n = Some x -> op_getdirentry (ops (in_ops x)) = Some f ->
    wlp (f n iob) (fun _ s' => quiet s s' /\ vl_ready s') s;
  vl_tryseek s n x f p : vl_ready s -> inodes s !! n = Some x -> op_tryseek (ops (in_ops x)) = Some f ->
    wlp (f n p) (fun _ s' => quiet s s' /\ vl_ready s') s;
  vl_truncate s n x f len : vl_ready s -> inodes s !! n = Some x -> op_truncate (ops (in_ops x)) = Some f ->
    wlp (f n len) (fun r s' => r <= 0 /\ quiet s s' /\ vl_ready s') s;
  vl_create s n x f name excl : vl_ready s -> low s (2 ^ 30) -> inodes s !! n = Some x -> op_create (ops (in_ops x)) = Some f ->
    wlp (f n name excl) (fun r s' => vl_ready s' /\ if decide (r.1 = 0) then looked_up s s' r.2 else quiet s s') s;
  vl_lookup s n x f path : vl_ready s -> low s (2 ^ 30) -> inodes s !! n = Some x -> 0 <= open_count x <= ref_count x -> op_lookup (ops (in_ops x)) = Some f ->
    wlp (f n path) (fun r s' => r.1 <= 0 /\ vl_ready s' /\ if decide (r.1 = 0) then looked_up s s' r.2 else quiet s s') s;
  vl_get_root s f : vl_ready s -> low s (2 ^ 30) ->
    wlp (fs_get_root fops f) (fun m s' => vl_ready s' /\ looked_up s s' m) s;
  (** The last reference is gone. *)
  vl_reclaim s n x f : vl_ready s -> inodes s !! n = Some x -> ref_count x = 1 -> open_count x = 0 -> op_reclaim (ops (in_ops x)) = Some f ->
    let s0 := set_inodes (<[n := set_ref_count 0 x]> (inodes s)) s in
    wp (f n) (fun r s' => vl_ready s' /\ exists e, s' = set_ext e (if decide (r = 0) then set_inodes (delete n (inodes s0)) s0 else s0)) s0;
}.

Lemma quiet_calm s s' : quiet s s' -> calm s s'.
Proof. intros [e ->]. exists (inodes s), e. by destruct s. Qed.
Lemma calm_id s : calm s s.
Proof. exists (inodes s), (ext s). by destruct s. Qed.
Lemma calm_comp s s1 s2 : calm s s1 -> calm s1 s2 -> calm s s2.
Proof. intros (i&e&->) (i'&e'&->). by exists i', e'. Qed.
Lemma calm_need s s' n : calm s s' -> opens s' n = opens s n /\ need s' n = need s n /\ devs s' n = devs s n.
Proof. by intros (i&e&->). Qed.
Lemma calm_inodes s i : calm s (set_inodes i s).
Proof. exists i, (ext s). by destruct s. Qed.
Lemma looked_up_calm s s' m : looked_up s s' m -> calm s s'.
Proof. intros (_&x&e&_&->). by eexists _, e. Qed.

Context {HL : VopLaws}.

(** [R] and [O]: how many more references and openings there are than the holders
    account for, on behalf of the call that runs or left behind for ever. *)
Record counted s R O : Prop := {
  co_ready : vl_ready s;
  co_held n : n <> 0 -> 0 < need s n + R n -> is_Some (inodes s !! n);
  co_inode n x : inodes s !! n = Some x -> n <> 0 /\ open_count x = opens s n + O n /\ ref_count x = need s n + R n;
  co_le n : O n <= R n;
  co_nonneg n : 0 <= opens s n + O n;
  co_reclaim n x : inodes s !! n = Some x -> op_reclaim (ops (in_ops x)) = None -> 0 < devs s n;
}.

Definition add (n v : Z) R : Z -> Z := fun m => if decide (m = n) then R m + v else R m.

Lemma add_eq n v R : add n v R n = R n + v.
Proof. unfold add. by rewrite decide_True. Qed.
Lemma add_ne n v R m : m <> n -> add n v R m = R m.
Proof. intros. unfold add. by rewrite decide_False. Qed.

Lemma counted_ext s R O R' O' : counted s R O -> (forall n, R' n = R n) -> (forall n, O' n = O n) -> counted s R' O'.
Proof.
  intros [A1 A2 A3 A4 A5 A6] HR HO. split; try done; intros n; [| |by rewrite HR, HO|by rewrite HO]; rewrite HR; [by apply A2|].
  intros x. rewrite HO. by apply A3.
Qed.

Lemma counted_alive s R O n : counted s R O -> n <> 0 -> 0 < need s n + R n -> exists x, inodes s !! n = Some x /\ 0 < ref_count x.
Proof. intros H Hn Hr. destruct (co_held _ _ _ H n Hn Hr) as [x Hx]. exists x. split; [done|]. destruct (co_inode _ _ _ H n x Hx) as (_&_&?). lia. Qed.

(** ** Primitives *)
Lemma wp_inode_at n x s (Q : inode -> vfs X -> Prop) : inodes s !! n = Some x -> Q x s -> wp (inode_at n) Q s.
Proof. intros E HQ. unfold wp, inode_at, unwrap. by rewrite E. Qed.

Lemma wp_files_at p t s (Q : files_struct -> vfs X -> Prop) : tables s !! p = Some t -> Q t s -> wp (files_at p) Q s.
Proof. intros E HQ. unfold wp, files_at, unwrap. by rewrite E. Qed.

Lemma wp_inode_upd n x f s (Q : () -> vfs X -> Prop) : inodes s !! n = Some x -> Q () (set_inodes (<[n := f x]> (inodes s)) s) -> wp (inode_upd n f) Q s.
Proof. intros E HQ. unfold inode_upd. kstep. eapply wp_inode_at; [done|]. by kstep. Qed.

Lemma wp_inode_check s R O n x (Q : () -> vfs X -> Prop) :
  counted s R O -> inodes s !! n = Some x -> ref_count x < MAX_INODE_COUNT -> Q () s -> wp (inode_check n) Q s.
Proof.
  intros H Hx Hlow HQ. destruct (co_inode _ _ _ H n x Hx) as (_&Eo&Hr). pose proof (co_le _ _ _ H n). pose proof (co_nonneg _ _ _ H n).
  pose proof (opens_need s n). unfold inode_check. kstep. eapply wp_inode_at; [done|]. kstep.
  kstep; [apply andb_true_iff; split; apply Z.leb_le; lia|]. kstep; [apply andb_true_iff; split; apply Z.ltb_lt; lia|done].
Qed.

(** The assertions of a call of an operation hold. *)
Lemma wp_vop_raw {F} (op : inode_ops X -> option F) s n x f (Q : F -> vfs X -> Prop) :
  inodes s !! n = Some x -> 0 <= open_count x <= ref_count x -> ref_count x < MAX_INODE_COUNT -> op (ops (in_ops x)) = Some f -> Q f s ->
  wp (vop ops op n) Q s.
Proof.
  intros Hx Ho Hlow Hf HQ. unfold vop, inode_check. kstep. eapply wp_inode_at; [done|]. kstep. kstep; [exact Hf|]. kstep.
  kstep. eapply wp_inode_at; [done|]. kstep. kstep; [apply andb_true_iff; split; apply Z.leb_le; lia|].
  kstep; [apply andb_true_iff; split; apply Z.ltb_lt; lia|]. by kstep.
Qed.

Lemma counted_open s R O n x : counted s R O -> inodes s !! n = Some x -> 0 <= open_count x <= ref_count x.
Proof.
  intros H Hx. destruct (co_inode _ _ _ H n x Hx) as (_&Eo&Hr). pose proof (co_le _ _ _ H n). pose proof (co_nonneg _ _ _ H n).
  pose proof (opens_need s n). lia.
Qed.

Lemma wp_vop {F} (op : inode_ops X -> option F) s R O n x f (Q : F -> vfs X -> Prop) :
  counted s R O -> inodes s !! n = Some x -> ref_count x < MAX_INODE_COUNT -> op (ops (in_ops x)) = Some f -> Q f s -> wp (vop ops op n) Q s.
Proof. intros H Hx. eapply wp_vop_raw; [done|by eapply counted_open]. Qed.

Lemma wlp_vop {F} (op : inode_ops X -> option F) s R O n x (Q : F -> vfs X -> Prop) :
  counted s R O -> inodes s !! n = Some x -> ref_count x < MAX_INODE_COUNT ->
  (forall f, op (ops (in_ops x)) = Some f -> Q f s) -> wlp (vop ops op n) Q s.
Proof.
  intros H Hx Hlow HQ. unfold vop. apply wlp_bind_wp. eapply wp_inode_at; [done|]. lstep. lstep. intros f Hf.
  apply wlp_bind_wp. eapply wp_inode_check; [done..|]. lstep. by apply HQ.
Qed.

Lemma low_le s b b' : low s b -> b <= b' -> low s b'.
Proof. intros H Hb n x Hx. specialize (H n x Hx). lia. Qed.

Lemma counted_quiet s s' R O : counted s R O -> quiet s s' -> vl_ready s' -> counted s' R O.
Proof. intros [A1 A2 A3 A4 A5 A6] [e ->] Hr. by split. Qed.

Lemma counted_looked_up s s' R O m b : counted s R O -> looked_up s s' m -> vl_ready s' -> low s b -> 0 <= b ->
  counted s' (add m 1 R) O /\ low s' (b + 1).
Proof.
  intros [A1 A2 A3 A4 A5 A6] (Hm&x&e&Hx&->) Hr Hlow Hb.
  assert (Hnew : inodes s !! m = None -> need s m + R m <= 0).
  { intros E. destruct (decide (0 < need s m + R m)) as [Hp|]; [|lia]. destruct (A2 m Hm Hp) as [y Hy]. congruence. }
  split.
  - split; try done.
    + intros n Hn Hp. cbn in *. destruct (decide (n = m)) as [->|Hne]; [rewrite lookup_insert_eq; by eexists|].
      rewrite lookup_insert_ne by done. rewrite add_ne in Hp by done. by apply A2.
    + intros n y. cbn. destruct (decide (n = m)) as [->|Hne]; [rewrite lookup_insert_eq, add_eq|rewrite lookup_insert_ne, add_ne by done; apply A3].
      intros [= <-]. cbn. change (opens (set_ext _ _) m) with (opens s m). change (need (set_ext _ _) m) with (need s m). split; [done|].
      destruct Hx as [Hx|(Hx&E1&E2&_)]; [destruct (A3 m x Hx) as (_&?&?); lia|]. specialize (Hnew Hx). pose proof (opens_need s m). pose proof (A4 m). pose proof (A5 m). lia.
    + intros n. specialize (A4 n). unfold add. case_decide; lia.
    + intros n y. cbn. destruct (decide (n = m)) as [->|Hne]; [rewrite lookup_insert_eq|rewrite lookup_insert_ne by done; apply A6].
      intros [= <-]. cbn. destruct Hx as [Hx|(_&_&_&Hx)]; [by apply A6|done].
  - intros n y. cbn. destruct (decide (n = m)) as [->|Hne]; [rewrite lookup_insert_eq|rewrite lookup_insert_ne by done; intros Hy; specialize (Hlow n y Hy); lia].
    intros [= <-]. cbn. destruct Hx as [Hx|(_&E&_)]; [specialize (Hlow m x Hx)|]; lia.
Qed.

Lemma kind_insert s n x y : inodes s !! n = Some x -> in_ops y = in_ops x -> in_fs y = in_fs x ->
  bool_decide (ref_count y = 0) = bool_decide (ref_count x = 0) -> forall m, kind (set_inodes (<[n := y]> (inodes s)) s) m = kind s m.
Proof.
  intros Hx E1 E2 E3 m. unfold kind. cbn. destruct (decide (m = n)) as [->|]; [rewrite lookup_insert_eq, Hx; cbn; congruence|by rewrite lookup_insert_ne].
Qed.

Lemma counted_update s R O R' O' n x y b :
  counted s R O -> low s b -> inodes s !! n = Some x -> in_ops y = in_ops x -> in_fs y = in_fs x ->
  bool_decide (ref_count y = 0) = bool_decide (ref_count x = 0) -> (forall m, m <> n -> R' m = R m /\ O' m = O m) ->
  open_count y = opens s n + O' n -> ref_count y = need s n + R' n -> ref_count y <= b -> O' n <= R' n -> 0 <= opens s n + O' n ->
  let s' := set_inodes (<[n := y]> (inodes s)) s in counted s' R' O' /\ low s' b /\ calm s s'.
Proof.
  intros [A1 A2 A3 A4 A5 A6] Hlow Hx E1 E2 E3 Ho Eo Er Hb Hle Hnn s'. split; [|split; [|apply calm_inodes]].
  - split.
    + eapply vl_stable; [exact A1|done|]. by eapply kind_insert.
    + intros m Hm Hp. cbn. destruct (decide (m = n)) as [->|Hne]; [rewrite lookup_insert_eq; by eexists|].
      rewrite lookup_insert_ne by done. destruct (Ho m Hne) as [E _]. apply A2; [done|]. by rewrite <-E.
    + intros m z. cbn. destruct (decide (m = n)) as [->|Hne].
      * rewrite lookup_insert_eq. intros [= <-]. by destruct (A3 n x Hx).
      * rewrite lookup_insert_ne by done. destruct (Ho m Hne) as [-> ->]. apply A3.
    + intros m. destruct (decide (m = n)) as [->|Hne]; [done|]. destruct (Ho m Hne) as [-> ->]. apply A4.
    + intros m. destruct (decide (m = n)) as [->|Hne]; [done|]. destruct (Ho m Hne) as [_ ->]. apply A5.
    + intros m z. cbn. destruct (decide (m = n)) as [->|Hne].
      * rewrite lookup_insert_eq. intros [= <-]. rewrite E1. by apply A6.
      * rewrite lookup_insert_ne by done. apply A6.
  - intros m z. cbn. destruct (decide (m = n)) as [->|Hne]; [rewrite lookup_insert_eq; by intros [= <-]|].
    rewrite lookup_insert_ne by done. intros Hz. specialize (Hlow m z Hz). lia.
Qed.

(** ** Counting *)
Lemma wp_inode_ref_inc s R O n x b (Q : Z -> vfs X -> Prop) :
  counted s R O -> low s b -> b < 2 ^ 30 -> inodes s !! n = Some x -> 0 < ref_count x ->
  (forall s', counted s' (add n 1 R) O -> low s' (b + 1) -> calm s s' -> Q (ref_count x + 1) s') -> wp (inode_ref_inc n) Q s.
Proof.
  intros H Hlow Hb Hx Hpos HQ. destruct (co_inode _ _ _ H n x Hx) as (_&Eo&Hr). pose proof (co_le _ _ _ H n). pose proof (Hlow n x Hx).
  pose proof (co_nonneg _ _ _ H n). unfold inode_ref_inc. kstep. eapply wp_inode_upd; [done|]. kstep. eapply wp_inode_at; [cbn; apply lookup_insert_eq|].
  cbn [ref_count set_ref_count]. rewrite swrap_small by lia. kstep.
  destruct (counted_update s R O (add n 1 R) O n x (set_ref_count (ref_count x + 1) x) (b + 1)) as (G1&G2&G3);
    try done; try (rewrite add_eq); cbn; try lia; [eapply low_le; [exact Hlow|lia]|rewrite !bool_decide_false by lia; done|intros m Hm; by rewrite add_ne|].
  by apply HQ.
Qed.

(** The last reference. *)
Lemma counted_gone s R O n x e : counted s R O -> inodes s !! n = Some x -> need s n + R n <= 1 -> O n <= R n - 1 -> op_reclaim (ops (in_ops x)) <> None ->
  (forall i, (i = delete n (<[n := set_ref_count 0 x]> (inodes s)) \/ ref_count x = 1 /\ i = <[n := set_ref_count 0 x]> (inodes s)) ->
  vl_ready (set_ext e (set_inodes i s)) -> counted (set_ext e (set_inodes i s)) (add n (-1) R) O).
Proof.
  intros [A1 A2 A3 A4 A5 A6] Hx Hn Ho Hrec i Hi Hready. split; cbn; [done| | | |exact A5|].
  - intros m Hm Hp. destruct (decide (m = n)) as [->|Hne]; [rewrite add_eq in Hp; cbn in Hp; change (need _ n) with (need s n) in Hp; lia|].
    rewrite add_ne in Hp by done. destruct (A2 m Hm Hp) as [y Hy]. exists y. destruct Hi as [->|[_ ->]]; by rewrite ?lookup_delete_ne, lookup_insert_ne.
  - intros m y Hy. change (opens _ m) with (opens s m). change (need _ m) with (need s m). destruct (decide (m = n)) as [->|Hne].
    + rewrite add_eq. destruct Hi as [->|[E ->]]; [by rewrite lookup_delete_eq in Hy|]. rewrite lookup_insert_eq in Hy. injection Hy as <-.
      destruct (A3 n x Hx) as (?&?&?). cbn. lia.
    + rewrite add_ne by done. apply A3. by destruct Hi as [->|[_ ->]]; rewrite ?lookup_delete_ne, lookup_insert_ne in Hy.
  - intros m. unfold add. specialize (A4 m). case_decide; subst; lia.
  - intros m y Hy Hop. change (devs _ m) with (devs s m). destruct (decide (m = n)) as [->|Hne].
    + destruct Hi as [->|[E ->]]; [by rewrite lookup_delete_eq in Hy|]. rewrite lookup_insert_eq in Hy. by injection Hy as <-.
    + apply (A6 m y); [|done]. by destruct Hi as [->|[_ ->]]; rewrite ?lookup_delete_ne, lookup_insert_ne in Hy.
Qed.

Lemma wp_inode_ref_dec s R O n b (Q : Z -> vfs X -> Prop) :
  counted s R O -> low s b -> b < MAX_INODE_COUNT -> n <> 0 -> 0 < need s n + R n -> O n <= R n - 1 ->
  (forall v s', counted s' (add n (-1) R) O -> low s' b -> calm s s' -> Q v s') -> wp (inode_ref_dec ops n) Q s.
Proof.
  intros H Hlow Hb Hn0 Hp Ho HQ. destruct (counted_alive s R O n H Hn0 Hp) as (x&Hx&Hpos).
  destruct (co_inode _ _ _ H n x Hx) as (_&Eo&Hr). pose proof (Hlow n x Hx). pose proof (co_nonneg _ _ _ H n). pose proof (opens_need s n).
  unfold inode_ref_dec. kstep. eapply wp_inode_at; [done|]. kstep. kstep; [by apply Z.ltb_lt|]. kstep. eapply wp_inode_upd; [done|]. kstep.
  destruct (decide (ref_count x - 1 = 0)) as [E|E].
  - rewrite bool_decide_true by done. cbn [when]. kstep. assert (E1 : ref_count x = 1) by lia. rewrite E1. change (1 - 1) with 0.
    destruct (op_reclaim (ops (in_ops x))) as [f|] eqn:Hf; [|pose proof (co_reclaim _ _ _ H n x Hx Hf); pose proof (opens_nonneg s n);
      pose proof (pwds_nonneg s n); pose proof (eqz_range (bootfs_node s) n); pose proof (co_le _ _ _ H n); unfold need in *; lia].
    assert (Eopen : open_count x = 0) by lia. unfold vop_reclaim. kstep.
    eapply wp_vop_raw; [cbn; apply lookup_insert_eq|cbn; lia|cbn; unfold MAX_INODE_COUNT; lia|exact Hf|].
    eapply wp_mono; [by apply (vl_reclaim s n x f (co_ready _ _ _ H))|]. intros r s' [Hready [e Es]]. kstep. kstep.
    pose proof (counted_gone s R O n x e H Hx ltac:(lia) Ho ltac:(congruence)) as Hg. destruct (decide (r = 0)).
    + assert (Es' : s' = set_ext e (set_inodes (delete n (<[n := set_ref_count 0 x]> (inodes s))) s)) by done. subst s'.
      apply HQ; [apply Hg; [by left|done]| |by eexists _, e]. intros m y. cbn. intros [_ Hy]%lookup_delete_Some.
      rewrite lookup_insert_Some in Hy. destruct Hy as [[<- <-]|[_ Hy]]; [cbn; lia|by eapply Hlow].
    + subst s'. apply HQ; [apply Hg; [by right|done]| |by eexists _, e]. intros m y. cbn. intros Hy.
      rewrite lookup_insert_Some in Hy. destruct Hy as [[<- <-]|[_ Hy]]; [cbn; lia|by eapply Hlow].
  - rewrite bool_decide_false by done. cbn [when]. kstep. kstep.
    destruct (counted_update s R O (add n (-1) R) O n x (set_ref_count (ref_count x - 1) x) b) as (G1&G2&G3);
      try done; try (rewrite add_eq); cbn; try lia; [rewrite !bool_decide_false by lia; done|intros m Hm; by rewrite add_ne|].
    by apply HQ.
Qed.

Lemma wp_open_inc s R O n x b (Q : Z -> vfs X -> Prop) :
  counted s R O -> low s b -> b < 2 ^ 30 -> inodes s !! n = Some x -> O n + 1 <= R n ->
  (forall v s', counted s' R (add n 1 O) -> low s' b -> calm s s' -> Q v s') -> wp (inode_open_inc n) Q s.
Proof.
  intros H Hlow Hb Hx Ho HQ. destruct (co_inode _ _ _ H n x Hx) as (_&Eo&Hr). pose proof (counted_open _ _ _ _ _ H Hx). pose proof (Hlow n x Hx).
  pose proof (co_nonneg _ _ _ H n). unfold inode_open_inc. kstep. eapply wp_inode_upd; [done|]. kstep. eapply wp_inode_at; [cbn; apply lookup_insert_eq|]. kstep.
  rewrite swrap_small by lia.
  destruct (counted_update s R O R (add n 1 O) n x (set_open_count (open_count x + 1) x) b) as (G1&G2&G3);
    try done; try (rewrite add_eq); cbn; try lia; [intros m Hm; by rewrite add_ne|].
  by eapply HQ.
Qed.

Lemma wp_open_dec s R O n b (Q : Z -> vfs X -> Prop) :
  counted s R O -> low s b -> b < MAX_INODE_COUNT -> n <> 0 -> 0 < need s n + R n -> 0 < opens s n + O n ->
  (forall v s', counted s' R (add n (-1) O) -> low s' b -> calm s s' -> Q v s') -> wp (inode_open_dec ops n) Q s.
Proof.
  intros H Hlow Hb Hn0 Hp Ho HQ. destruct (counted_alive s R O n H Hn0 Hp) as (x&Hx&Hpos).
  destruct (co_inode _ _ _ H n x Hx) as (_&Eo&Hr). pose proof (co_le _ _ _ H n). pose proof (Hlow n x Hx).
  unfold inode_open_dec. kstep. eapply wp_inode_at; [done|]. kstep. kstep; [apply Z.ltb_lt; lia|]. kstep. eapply wp_inode_upd; [done|]. kstep.
  destruct (counted_update s R O R (add n (-1) O) n x (set_open_count (open_count x - 1) x) b) as (G1&G2&G3);
    try done; try (rewrite add_eq); cbn; try lia; [intros m Hm; by rewrite add_ne|].
  destruct (decide (open_count x - 1 = 0)) as [E|E].
  - rewrite bool_decide_true by done. cbn [when]. kstep. unfold vop_close. kstep. set (s1 := set_inodes _ s) in *.
    assert (Hx1 : inodes s1 !! n = Some (set_open_count (open_count x - 1) x)) by apply lookup_insert_eq.
    destruct (vl_close s1 n _ (co_ready _ _ _ G1) Hx1) as (f&Hf&Hwp).
    eapply wp_vop; [exact G1|exact Hx1|cbn; lia|exact Hf|]. eapply wp_mono; [exact Hwp|]. intros r s' [Hq Hready]. kstep.
    apply HQ; [by eapply counted_quiet| |eapply calm_comp; [exact G3|by apply quiet_calm]]. destruct Hq as [e ->]. exact G2.
  - rewrite bool_decide_false by done. cbn [when]. kstep. by apply HQ.
Qed.

Lemma wp_vfs_close s R O n b (Q : Z -> vfs X -> Prop) :
  counted s R O -> low s b -> b < MAX_INODE_COUNT -> n <> 0 -> 0 < need s n + R n -> 0 < opens s n + O n ->
  (forall s', counted s' (add n (-1) R) (add n (-1) O) -> low s' b -> calm s s' -> Q 0 s') -> wp (vfs_close ops n) Q s.
Proof.
  intros H Hlow Hb Hn0 Hp Ho HQ. unfold vfs_close. kstep. eapply wp_open_dec; [done..|]. intros _ s1 H1 Hl1 Hc1.
  destruct (calm_need _ _ n Hc1) as (Eo&En&_). pose proof (co_le _ _ _ H n). kstep.
  eapply wp_inode_ref_dec; [exact H1|exact Hl1|done|done|by rewrite En|rewrite add_eq; lia|].
  intros v s2 H2 Hl2 Hc2. kstep. apply HQ; [done|done|by eapply calm_comp].
Qed.

(** ** Paths *)

(** No lock is held, and a device without a file system has an inode. *)
Definition steady s : Prop := vdev_list_sem s = false /\ bootfs_sem s = false /\ forall d, d ∈ vdev_list s -> dev_fs d = 0 -> devnode d <> 0.

(** A call that may return an inode: on success it comes with a reference. *)
Definition found s R O (b r m : Z) s' : Prop :=
  calm s s' /\ low s' b /\ r <= 0 /\ if decide (r = 0) then m <> 0 /\ counted s' (add m 1 R) O else counted s' R O.

Lemma found_none s R O b r m : counted s R O -> low s b -> r < 0 -> found s R O b r m s.
Proof. intros H Hl Hr. split; [apply calm_id|]. split; [done|]. split; [lia|]. by rewrite decide_False by lia. Qed.

Lemma found_some s s' R O b m : calm s s' -> low s' b -> m <> 0 -> counted s' (add m 1 R) O -> found s R O b 0 m s'.
Proof. intros. split; [done|]. split; [done|]. split; [done|]. by rewrite decide_True. Qed.

Lemma counted_locks s R O v w : counted s R O -> counted (set_vdev_list_sem v (set_bootfs_sem w s)) R O.
Proof. intros [A1 A2 A3 A4 A5 A6]. split; try done. by eapply vl_stable. Qed.

Lemma calm_steady s s' : calm s s' -> steady s -> steady s'.
Proof. by intros (i&e&->). Qed.

(** A lock that is taken and given back. *)
Lemma found_vdev_lock s R O b r m s' : vdev_list_sem s = false -> found (set_vdev_list_sem true s) R O b r m s' ->
  found s R O b r m (set_vdev_list_sem false s').
Proof.
  intros Hu ((i&e&->)&Hl&Hr&Hf). split; [exists i, e; destruct s; cbn in *; by subst|]. split; [done|]. split; [done|].
  destruct (decide (r = 0)); [destruct Hf as [Hm Hc]; split; [done|]|]; by eapply (counted_locks _ _ _ false (bootfs_sem s)) in Hc || by eapply (counted_locks _ _ _ false (bootfs_sem s)) in Hf.
Qed.

(** What a call on a path starts from. *)
Record ctx s R O (b : Z) : Prop := {
  cx_counted : counted s R O;
  cx_low : low s b;
  cx_b : 0 <= b < MAX_INODE_COUNT;
  cx_R n : 0 <= R n;
}.

Lemma ctx_le s R O b b' : ctx s R O b -> b <= b' < MAX_INODE_COUNT -> ctx s R O b'.
Proof. intros [A1 A2 A3 A4] Hb. split; [done|eapply low_le; [done|lia]|lia|done]. Qed.

Lemma found_ctx s R O b b' m s' : ctx s R O b -> b' < MAX_INODE_COUNT -> b <= b' -> found s R O b' 0 m s' -> m <> 0 /\ ctx s' (add m 1 R) O b' /\ calm s s'.
Proof.
  intros [A1 A2 A3 A4] Hb Hbb (Hc&Hl&_&Hf). rewrite decide_True in Hf by done. destruct Hf as [Hm Hf]. split_and!; [done| |done].
  split; [done|done|lia|]. intros n. specialize (A4 n). unfold add. case_decide; lia.
Qed.

Lemma found_trans s s1 R O b r m s2 : calm s s1 -> found s1 R O b r m s2 -> found s R O b r m s2.
Proof. intros Hc (Hc2&Hf). split; [by eapply calm_comp|done]. Qed.

Lemma wp_hold s R O b n (Q : Z -> vfs X -> Prop) :
  ctx s R O b -> n <> 0 -> 0 < need s n -> (forall v s', found s R O (b + 1) 0 n s' -> Q v s') -> wp (inode_ref_inc n) Q s.
Proof.
  intros [H Hlow Hb HR] Hn Hp HQ. unfold MAX_INODE_COUNT in *. specialize (HR n). destruct (counted_alive s R O n H Hn) as (x&Hx&Hpos); [lia|].
  eapply wp_inode_ref_inc; [exact H|exact Hlow|lia|exact Hx|done|]. intros s' H' Hl' Hc'. apply HQ. by apply found_some.
Qed.

Lemma pwd_need s p t : tables s !! p = Some t -> 0 < files_nlinks t -> 0 < need s (pwd t).
Proof.
  intros Ht Hl. unfold need. pose proof (opens_nonneg s (pwd t)). pose proof (devs_nonneg s (pwd t)). pose proof (eqz_range (bootfs_node s) (pwd t)).
  pose proof (msum_ge (held_pwd (pwd t)) (tables s) p t (fun t' => proj1 (held_pwd_range _ _)) Ht) as Hge.
  unfold pwds. unfold held_pwd at 1, eqz at 1 in Hge. rewrite !decide_True in Hge by done. lia.
Qed.

Lemma boot_need s : 0 < need s (bootfs_node s).
Proof.
  unfold need. pose proof (opens_nonneg s (bootfs_node s)). pose proof (devs_nonneg s (bootfs_node s)). pose proof (pwds_nonneg s (bootfs_node s)).
  unfold eqz. rewrite decide_True by done. lia.
Qed.

Lemma dev_need s d : d ∈ vdev_list s -> 0 < need s (devnode d).
Proof.
  intros Hd. unfold need. pose proof (opens_nonneg s (devnode d)). pose proof (pwds_nonneg s (devnode d)). pose proof (eqz_range (bootfs_node s) (devnode d)).
  pose proof (count_pos (fun d' => bool_decide (devnode d' = devnode d)) (vdev_list s) d Hd (bool_decide_eq_true_2 _ eq_refl)). unfold devs. lia.
Qed.

Lemma ctx_none s R O b b' r m : ctx s R O b -> b <= b' -> r < 0 -> found s R O b' r m s.
Proof. intros [H Hlow Hb HR] Hbb Hr. apply found_none; [done|by eapply low_le|done]. Qed.

Lemma wp_get_curdir s R O b t (Q : Z * Z -> vfs X -> Prop) :
  ctx s R O b -> tables s !! cur s = Some t -> 0 < files_nlinks t -> (forall r m s', found s R O (b + 1) r m s' -> Q (r, m) s') -> wp vfs_get_curdir Q s.
Proof.
  intros H Ht Hlk HQ. unfold vfs_get_curdir, get_cwd_nolock. kstep. kstep. kstep. kstep. eapply wp_files_at; [exact Ht|]. kstep.
  destruct (decide (pwd t = 0)) as [E|E].
  - rewrite bool_decide_false by tauto. apply wp_ret, HQ. eapply ctx_none; [exact H|lia|done].
  - rewrite bool_decide_true by done. kstep. eapply wp_hold; [exact H|done|by eapply pwd_need|intros v s' Hf; kstep; by apply HQ].
Qed.

Lemma wp_get_bootfs s R O b (Q : Z * Z -> vfs X -> Prop) :
  ctx s R O b -> steady s -> (forall r m s', found s R O (b + 1) r m s' -> Q (r, m) s') -> wp vfs_get_bootfs Q s.
Proof.
  intros H (_&Hu&_) HQ. unfold vfs_get_bootfs. kstep. kstep. kstep. destruct (decide (bootfs_node s = 0)) as [E|E].
  - rewrite bool_decide_false by tauto. apply wp_ret. cbv beta iota. rewrite bool_decide_true by done. apply wp_ret, HQ. eapply ctx_none; [exact H|lia|done].
  - rewrite bool_decide_true by done. unfold lock_bootfs, unlock_bootfs. kstep. kstep. kstep. kstep. kstep; [by rewrite Hu|]. kstep. kstep. kstep. kstep.
    cbn [bootfs_node set_bootfs_sem]. rewrite bool_decide_true by done. cbn [when]. kstep.
    set (s1 := set_bootfs_sem true s). assert (H1 : ctx s1 R O b).
    { destruct H as [A1 A2 A3 A4]. split; try done. pose proof (counted_locks s R O (vdev_list_sem s) true A1) as Hc. by destruct s. }
    eapply wp_hold; [exact H1|done|by apply (boot_need s1)|]. intros v s2 ((i&e&->)&Hl&_&Hf). kstep. kstep. kstep. kstep.
    rewrite bool_decide_false by done. apply wp_ret, HQ. split; [exists i, e; destruct s; cbn in *; by subst|]. split; [done|]. split; [done|].
    rewrite decide_True in Hf |- * by done. destruct Hf as [Hm Hf]. split; [done|].
    pose proof (counted_locks _ _ _ (vdev_list_sem s) false Hf) as Hc. by destruct s.
Qed.

Lemma wlp_dev_root s R O b d (Q : Z * Z -> vfs X -> Prop) :
  ctx s R O b -> d ∈ vdev_list s -> (dev_fs d = 0 -> devnode d <> 0) ->
  (forall r m s', found s R O (b + 1) r m s' -> Q (r, m) s') -> wlp (dev_root fops d) Q s.
Proof.
  intros H Hd Hdn HQ. unfold dev_root. destruct (decide (dev_fs d = 0)) as [E|E].
  - rewrite bool_decide_false by tauto. apply wp_wlp. destruct (mountable d); cbn [negb].
    + apply wp_ret, HQ. eapply ctx_none; [exact H|lia|done].
    + kstep. eapply wp_hold; [exact H|by apply Hdn|by apply dev_need|]. intros v s' Hf. kstep. by apply HQ.
  - rewrite bool_decide_true by done. lstep. destruct H as [H Hlow Hb HR]. unfold MAX_INODE_COUNT in *.
    eapply wlp_mono; [apply vl_get_root; [apply H|eapply low_le; [exact Hlow|lia]]|]. intros m s' [Hready Hlook]. lstep.
    destruct (counted_looked_up s s' R O m b H Hlook Hready Hlow ltac:(lia)) as [H' Hl']. destruct Hlook as [Hm Hlook].
    rewrite (bool_decide_false (m = 0)) by done. apply HQ. apply found_some; [by eapply looked_up_calm; split|done|done|done].
Qed.

Lemma find_dev_elem name l d : find_dev name l = Some d -> d ∈ l /\ devname d = name.
Proof.
  unfold find_dev. destruct (list_find _ l) as [[i x]|] eqn:E; [|done]. intros [= <-]. apply list_find_Some in E as (Hi&->&_).
  split; [by eapply list_elem_of_lookup_2|done].
Qed.

Lemma wlp_get_root s R O b name (Q : Z * Z -> vfs X -> Prop) :
  ctx s R O b -> steady s -> (forall r m s', found s R O (b + 1) r m s' -> Q (r, m) s') -> wlp (vfs_get_root fops name) Q s.
Proof.
  intros H (Hu&_&Hdev) HQ. unfold vfs_get_root. lstep. lstep.
  destruct (vdev_list s) as [|d0 l] eqn:El; [apply wlp_ret, HQ; eapply ctx_none; [exact H|lia|done]|]. rewrite <-El in *. clear El.
  unfold lock_vdev_list, unlock_vdev_list. lstep. lstep. lstep. lstep. lstep. intros _. lstep. lstep.
  set (s1 := set_vdev_list_sem true s). assert (H1 : ctx s1 R O b).
  { destruct H as [A1 A2 A3 A4]. split; try done. pose proof (counted_locks s R O true (bootfs_sem s) A1) as Hc. by destruct s. }
  assert (Hend : forall r m s2, found s1 R O (b + 1) r m s2 -> Q (r, m) (set_vdev_list_sem false s2)).
  { intros r m s2 Hf. apply HQ. by apply (found_vdev_lock s). }
  destruct (find_dev name (vdev_list s)) as [d|] eqn:Ed.
  - apply find_dev_elem in Ed as [Hd _]. eapply (wlp_dev_root s1); [exact H1|exact Hd|by apply Hdev|].
    intros r m s2 Hf. lstep. lstep. lstep. by apply Hend.
  - lstep. lstep. lstep. lstep. apply Hend. eapply ctx_none; [exact H1|lia|done].
Qed.

Lemma wp_get_root_dev s R O b name d (Q : Z * Z -> vfs X -> Prop) :
  ctx s R O b -> steady s -> find_dev name (vdev_list s) = Some d -> dev_fs d = 0 -> mountable d = false ->
  (forall s', found s R O (b + 1) 0 (devnode d) s' -> Q (0, devnode d) s') -> wp (vfs_get_root fops name) Q s.
Proof.
  intros H (Hu&_&Hdev) Ed Hfs Hm HQ. pose proof (find_dev_elem _ _ _ Ed) as [Hd _]. unfold vfs_get_root. kstep. kstep.
  destruct (vdev_list s) as [|d0 l] eqn:El; [done|]. rewrite <-El in *. clear El.
  unfold lock_vdev_list, unlock_vdev_list. kstep. kstep. kstep. kstep. kstep; [by rewrite Hu|]. kstep. kstep.
  set (s1 := set_vdev_list_sem true s). assert (H1 : ctx s1 R O b).
  { destruct H as [A1 A2 A3 A4]. split; try done. pose proof (counted_locks s R O true (bootfs_sem s) A1) as Hc. by destruct s. }
  rewrite Ed. unfold dev_root. rewrite (bool_decide_false (dev_fs d <> 0)) by tauto. rewrite Hm. cbn [negb]. kstep.
  eapply (wp_hold s1); [exact H1|by apply Hdev|by apply (dev_need s1)|]. intros v s2 Hf. kstep. kstep. kstep. kstep. apply HQ.
  by apply (found_vdev_lock s).
Qed.

Lemma add_back n m R k : add n (-1) (add m 1 (add n 1 R)) k = add m 1 R k.
Proof. unfold add. repeat case_decide; lia. Qed.
Lemma add_back1 n R k : add n (-1) (add n 1 R) k = R k.
Proof. unfold add. case_decide; lia. Qed.

(** The reference that a call of an operation was made through is given back. *)
Lemma found_through s s1 s2 R O b n r m (Q : Z -> vfs X -> Prop) :
  ctx s R O b -> n <> 0 -> ctx s1 (add n 1 R) O b -> calm s s1 -> b + 1 < MAX_INODE_COUNT ->
  r <= 0 -> vl_ready s2 -> (if decide (r = 0) then looked_up s1 s2 m else quiet s1 s2) ->
  (forall v s', found s R O (b + 1) r m s' -> Q v s') -> wp (inode_ref_dec ops n) Q s2.
Proof.
  intros [H Hlow Hb HR] Hn [K1 Hlow1 _ HR1] Hc1 Hb1 Hsign Hready Hr HQ. pose proof (co_le _ _ _ H n) as Hle. pose proof (HR n) as HRn.
  destruct (decide (r = 0)) as [->|Hr0].
  - destruct (counted_looked_up s1 s2 _ O m b K1 Hr Hready Hlow1 ltac:(lia)) as [K2 Hl2].
    pose proof (looked_up_calm _ _ _ Hr) as Hc2. destruct Hr as [Hm _]. destruct (calm_need s1 s2 n Hc2) as (_&En&_). destruct (calm_need s s1 n Hc1) as (_&En1&_).
    assert (Hpos : 0 < need s2 n + add m 1 (add n 1 R) n).
    { pose proof (opens_need s n). pose proof (opens_nonneg s n). rewrite En, En1. unfold add at 1. case_decide; rewrite add_eq; lia. }
    eapply wp_inode_ref_dec; [exact K2|exact Hl2|lia|done|exact Hpos|unfold add at 1; case_decide; rewrite add_eq; lia|].
    intros v s3 K3 Hl3 Hc3. apply HQ. apply found_some; [by eapply calm_comp, calm_comp|done|done|].
    eapply counted_ext; [exact K3| |done]. intros k. by rewrite add_back.
  - pose proof (counted_quiet s1 s2 _ O K1 Hr Hready) as K2. pose proof (quiet_calm _ _ Hr) as Hc2.
    assert (Hl2 : low s2 b) by (by destruct Hr as [e ->]). destruct (calm_need s1 s2 n Hc2) as (_&En&_). destruct (calm_need s s1 n Hc1) as (_&En1&_).
    pose proof (opens_need s n). pose proof (opens_nonneg s n).
    eapply wp_inode_ref_dec; [exact K2|exact Hl2|lia|done|rewrite En, En1, add_eq; lia|rewrite add_eq; lia|].
    intros v s3 K3 Hl3 Hc3. apply HQ. split; [by eapply calm_comp, calm_comp|]. split; [eapply low_le; [exact Hl3|lia]|]. split; [done|]. rewrite decide_False by done.
    eapply counted_ext; [exact K3| |done]. intros k. by rewrite add_back1.
Qed.

Lemma ctx_alive s R O b n : ctx s (add n 1 R) O b -> (0 <= R n) -> n <> 0 -> exists x, inodes s !! n = Some x /\ ref_count x < MAX_INODE_COUNT.
Proof.
  intros [H Hlow Hb _] HR Hn. pose proof (opens_need s n). pose proof (opens_nonneg s n).
  destruct (counted_alive _ _ _ n H Hn) as (x&Hx&_); [rewrite add_eq; lia|]. exists x. split; [done|]. specialize (Hlow n x Hx). lia.
Qed.

Lemma found_low s R O b b' r m s' : found s R O b r m s' -> b <= b' -> found s R O b' r m s'.
Proof. intros (Hc&Hl&Hf) Hb. split; [done|]. split; [by eapply low_le|done]. Qed.

Lemma found_fail s R O b r m s' m' : found s R O b r m s' -> r <> 0 -> found s R O b r m' s'.
Proof. intros (Hc&Hl&Hs&Hf) Hr. split_and!; [done..|]. by rewrite decide_False in Hf |- *. Qed.

Lemma wlp_get_device s R O b t path (Q : Z * Z * list Z * list Z -> vfs X -> Prop) :
  ctx s R O b -> b + 2 < MAX_INODE_COUNT -> steady s -> tables s !! cur s = Some t -> 0 < files_nlinks t ->
  (forall r m sub path' s', found s R O (b + 2) r m s' -> Q (r, m, sub, path') s') -> wlp (get_device ops fops path) Q s.
Proof.
  intros H Hb Hu Ht Hlk HQ0.
  assert (HQ : forall r m sub path' s', found s R O (b + 1) r m s' -> Q (r, m, sub, path') s') by (intros; eapply HQ0, found_low; [done|lia]).
  unfold get_device. destruct (split_path path) as [dev [|c rest]].
  { apply wlp_bind_wp. eapply wp_get_curdir; [exact H|exact Ht|exact Hlk|]. intros r m s' Hf. by apply wlp_ret, HQ. }
  destruct dev as [|d dev].
  - destruct (c =? SLASH).
    + apply wlp_bind_wp. eapply wp_get_bootfs; [exact H|exact Hu|]. intros r m s' Hf. by apply wlp_ret, HQ.
    + apply wlp_bind_wp. eapply wp_get_curdir; [exact H|exact Ht|exact Hlk|]. intros r n s1 Hf. destruct (decide (r = 0)) as [->|Hr].
      2: { rewrite bool_decide_true by done. by eapply wlp_ret, HQ, found_fail. }
      rewrite bool_decide_false by tauto. destruct (found_ctx s R O b (b + 1) n s1 H ltac:(lia) ltac:(lia) Hf) as (Hn&H1&Hc1).
      destruct (ctx_alive s1 R O (b + 1) n H1 (cx_R _ _ _ _ H n) Hn) as (x&Hx&_). unfold MAX_INODE_COUNT in *.
      apply wlp_bind_wp. eapply wp_inode_at; [exact Hx|]. lstep. lstep. intros _. lstep.
      eapply wlp_mono; [apply vl_get_root; [apply H1|eapply low_le; [apply H1|lia]]|]. intros m s2 [Hready Hlook]. apply wlp_bind_wp.
      eapply (found_through s s1 s2 R O (b + 1) n 0 m); [eapply ctx_le; [exact H|unfold MAX_INODE_COUNT; lia]|exact Hn|exact H1|exact Hc1|unfold MAX_INODE_COUNT; lia|done|exact Hready|done|].
      intros v s' Hf'. apply wlp_ret, HQ0. eapply found_low; [exact Hf'|lia].
  - destruct (c =? COLON).
    + lstep. eapply wlp_get_root; [exact H|exact Hu|]. intros r m s' Hf. by apply wlp_ret, HQ.
    + apply wlp_bind_wp. eapply wp_get_curdir; [exact H|exact Ht|exact Hlk|]. intros r m s' Hf. by apply wlp_ret, HQ.
Qed.

Lemma wlp_vfs_lookup s R O b t path (Q : Z * Z * list Z -> vfs X -> Prop) :
  ctx s R O b -> b + 3 < MAX_INODE_COUNT -> steady s -> tables s !! cur s = Some t -> 0 < files_nlinks t ->
  (forall r m path' s', found s R O (b + 3) r m s' -> Q (r, m, path') s') -> wlp (vfs_lookup ops fops path) Q s.
Proof.
  intros H Hb Hu Ht Hlk HQ. unfold vfs_lookup. lstep. eapply wlp_get_device; [exact H|lia|exact Hu|exact Ht|exact Hlk|]. intros r n sub path' s1 Hf. cbv beta iota.
  destruct (decide (r = 0)) as [->|Hr].
  2: { rewrite bool_decide_true by done. apply wlp_ret, HQ. eapply found_fail; [|done]. eapply found_low; [exact Hf|lia]. }
  rewrite bool_decide_false by tauto. destruct sub as [|c sub]; [apply wlp_ret, HQ; eapply found_low; [exact Hf|lia]|].
  destruct (found_ctx s R O b (b + 2) n s1 H ltac:(lia) ltac:(lia) Hf) as (Hn&H1&Hc1).
  destruct (ctx_alive s1 R O (b + 2) n H1 (cx_R _ _ _ _ H n) Hn) as (x&Hx&Hmax).
  lstep. unfold vop_lookup. lstep. eapply wlp_vop; [apply H1|exact Hx|exact Hmax|]. intros f Hop.
  eapply wlp_mono; [eapply vl_lookup; [apply H1|eapply low_le; [apply H1|unfold MAX_INODE_COUNT in *; lia]|exact Hx|by eapply counted_open; [apply H1|]|exact Hop]|].
  intros [r m] s2 (Hsign&Hready&Hlook). cbv beta iota. cbn [fst snd] in Hsign, Hlook. apply wlp_bind_wp.
  eapply (found_through s s1 s2 R O (b + 2) n r m); [eapply ctx_le; [exact H|lia]|exact Hn|exact H1|exact Hc1|lia|exact Hsign|exact Hready|exact Hlook|].
  intros v s' Hf'. apply wlp_ret, HQ. eapply found_low; [exact Hf'|lia].
Qed.

(** ** Opening *)

(** What an opening leaves behind: [vfs_open] forgets the reference it has to a
    file that must not be there yet, and the one to the directory in which it has
    created a file. *)
Definition leaked (flags : Z) R R' : Prop :=
  (forall n, R' n = R n) \/ has_flag flags O_CREAT = true /\ exists d, forall n, R' n = add d 1 R n.

Lemma leaked_refl flags R : leaked flags R R.
Proof. by left. Qed.
Lemma leaked_le flags R R' n : leaked flags R R' -> R n <= R' n <= R n + Z.b2z (has_flag flags O_CREAT).
Proof. intros [E|[Ef [d E]]]; rewrite E; [destruct (has_flag _ _); cbn; lia|]. rewrite Ef. unfold add. cbn. case_decide; lia. Qed.

(** An inode that has been opened comes with a reference and an opening. *)
Definition opened (flags : Z) s R O (b r n : Z) s' : Prop :=
  calm s s' /\ low s' b /\ r <= 0 /\ exists R', leaked flags R R' /\
  if decide (r = 0) then n <> 0 /\ counted s' (add n 1 R') (add n 1 O) else counted s' R' O.

Lemma opened_none flags s R O b r n : counted s R O -> low s b -> r < 0 -> opened flags s R O b r n s.
Proof.
  intros H Hl Hr. split; [apply calm_id|]. split; [done|]. split; [lia|]. exists R. split; [apply leaked_refl|]. by rewrite decide_False by lia.
Qed.

Lemma wlp_open_lookup s R O b t path flags (Q : Z * Z -> vfs X -> Prop) :
  ctx s R O b -> b + 6 < MAX_INODE_COUNT -> steady s -> tables s !! cur s = Some t -> 0 < files_nlinks t ->
  (forall r m s' R', leaked flags R R' -> found s R' O (b + 6) r m s' -> Q (r, m) s') -> wlp (open_lookup ops fops path flags) Q s.
Proof.
  intros H Hb Hu Ht Hlk HQ. assert (HQ0 : forall r m s', found s R O (b + 6) r m s' -> Q (r, m) s') by (intros; eapply HQ; [apply leaked_refl|done]).
  unfold open_lookup. cbv zeta. lstep.
  eapply wlp_vfs_lookup; [exact H|lia|exact Hu|exact Ht|exact Hlk|]. intros r m path' s1 Hf. cbv beta iota. destruct (decide (r = 0)) as [->|Hr].
  - rewrite bool_decide_false by tauto. destruct (found_ctx s R O b (b + 3) m s1 H ltac:(lia) ltac:(lia) Hf) as (Hn&H1&Hc1).
    destruct (_ && _) eqn:Efl; apply wlp_ret; [|apply HQ0; eapply found_low; [exact Hf|lia]]. apply andb_true_iff in Efl as [_ Efl].
    eapply (HQ _ _ _ (add m 1 R)); [by right; split; [done|exists m]|]. split; [done|]. split; [eapply low_le; [apply H1|lia]|]. split; [done|].
    rewrite decide_False by done. apply H1.
  - rewrite bool_decide_true by done. pose proof Hf as (Hc1&Hl1&_&Hf1). rewrite decide_False in Hf1 by done.
    destruct (_ && _) eqn:Efl; [|apply wlp_ret, HQ0; eapply found_fail; [|done]; eapply found_low; [exact Hf|lia]]. apply andb_true_iff in Efl as [_ Efl].
    assert (H1 : ctx s1 R O (b + 3)) by (destruct H; split; (done || lia)).
    assert (Ht1 : tables s1 !! cur s1 = Some t) by (by destruct Hc1 as (i&e&->)).
    unfold vfs_lookup_parent. lstep. lstep. eapply wlp_get_device; [exact H1|lia|by eapply calm_steady|exact Ht1|exact Hlk|].
    intros r2 dir name path2 s2 Hf2. cbv beta iota. destruct (decide (r2 = 0)) as [->|Hr2].
    2: { rewrite (bool_decide_true (r2 <> 0)) by done. lstep. cbv beta iota. rewrite (bool_decide_true (r2 <> 0)) by done. apply wlp_ret, HQ0.
         eapply found_fail; [|done]. eapply found_trans; [exact Hc1|]. eapply found_low; [exact Hf2|lia]. }
    rewrite (bool_decide_false (0 <> 0)) by tauto. lstep. cbv beta iota. rewrite (bool_decide_false (0 <> 0)) by tauto.
    destruct (found_ctx s1 R O (b + 3) (b + 3 + 2) dir s2 H1 ltac:(lia) ltac:(lia) Hf2) as (Hn&H2&Hc2).
    destruct (ctx_alive s2 R O _ dir H2 (cx_R _ _ _ _ H dir) Hn) as (x&Hx&Hmax).
    lstep. unfold vop_create. lstep. eapply wlp_vop; [apply H2|exact Hx|exact Hmax|]. intros f Hop.
    eapply wlp_mono; [eapply vl_create; [apply H2|eapply low_le; [apply H2|unfold MAX_INODE_COUNT in *; lia]|exact Hx|exact Hop]|].
    intros [r3 n] s3 [Hready Hlook]. cbv beta iota. cbn [fst snd] in Hlook. lstep. lstep. intros E%bool_decide_eq_true. subst r3. lstep.
    rewrite decide_True in Hlook by done. apply (HQ _ _ _ (add dir 1 R)); [by right; split; [done|exists dir]|].
    destruct (counted_looked_up s2 s3 _ O n _ (cx_counted _ _ _ _ H2) Hlook Hready (cx_low _ _ _ _ H2) ltac:(destruct H; lia)) as [H3 Hl3].
    pose proof (looked_up_calm _ _ _ Hlook) as Hc3. destruct Hlook as [Hnz _].
    apply found_some; [by eapply calm_comp, calm_comp|eapply low_le; [exact Hl3|lia]|done|exact H3].
Qed.

(** A run that is known to end well, or one that may stop with a panic. *)
Definition runs {A} (total : bool) (m : K (vfs X) A) (Q : A -> vfs X -> Prop) s : Prop := if total then wp m Q s else wlp m Q s.

Lemma runs_wp {A} total (m : K (vfs X) A) Q s : wp m Q s -> runs total m Q s.
Proof. destruct total; [done|]. apply wp_wlp. Qed.
Lemma runs_bind {A B} total (m : K (vfs X) A) (f : A -> K (vfs X) B) Q s : runs total m (fun a => runs total (f a) Q) s -> runs total (m ≫= f) Q s.
Proof. destruct total; [apply wp_bind|apply wlp_bind]. Qed.
Lemma runs_bind_wp {A B} total (m : K (vfs X) A) (f : A -> K (vfs X) B) Q s : wp m (fun a => runs total (f a) Q) s -> runs total (m ≫= f) Q s.
Proof. intros H. by apply runs_bind, runs_wp. Qed.
Lemma runs_mono {A} total (m : K (vfs X) A) (P Q : A -> vfs X -> Prop) s : runs total m P s -> (forall a s', P a s' -> Q a s') -> runs total m Q s.
Proof. destruct total; [apply wp_mono|apply wlp_mono]. Qed.

Lemma runs_wlp {A} total (m : K (vfs X) A) Q s : runs total m Q s -> wlp m Q s.
Proof. destruct total; [apply wp_wlp|done]. Qed.

(** Nothing is created and no file is cut off. *)
Definition mild (flags : Z) : bool := negb (has_flag flags O_TRUNC || has_flag flags O_CREAT).

(** What the operation of the inode answers. *)
Definition open_says (n flags : Z) (P : Z -> Prop) : Prop :=
  forall s x f r s', inodes s !! n = Some x -> op_open (ops (in_ops x)) = Some f -> f n flags s = Done (r, s') -> P r.

(** [vfs_open] from where the inode has been found. *)
Lemma runs_open_found s R O b n flags (P : Z -> Prop) (Q : Z * Z -> vfs X -> Prop) :
  ctx s (add n 1 R) O b -> (forall k, O k <= R k) -> 0 <= R n -> b < 2 ^ 30 -> n <> 0 -> open_says n flags P ->
  (forall r m s', calm s s' -> low s' b -> r <= 0 -> (mild flags = true -> P r) -> (if decide (r = 0) then m = n /\ counted s' (add n 1 R) (add n 1 O) else counted s' R O) -> Q (r, m) s') ->
  runs (mild flags)
    (assert (bool_decide (n <> 0));;
     ret ← vop_open ops n flags;
     if bool_decide (ret <> 0) then inode_ref_dec ops n;; mret (ret, 0)
     else
       inode_open_inc n;;
       ret ← (if has_flag flags O_TRUNC || has_flag flags O_CREAT then vop_truncate ops n 0 else mret 0);
       if bool_decide (ret <> 0) then inode_open_dec ops n;; inode_ref_dec ops n;; mret (ret, 0)
       else mret (0, n)) Q s.
Proof.
  intros H1 Hle HR Hb Hn HP HQ. destruct (ctx_alive s R O _ n H1 HR Hn) as (x&Hx&Hmax). pose proof (Hle n) as Hlen. pose proof (cx_b _ _ _ _ H1) as Hb0.
  pose proof (opens_need s n) as Hon. pose proof (opens_nonneg s n) as Hop0.
  apply runs_bind_wp. kstep; [by apply bool_decide_eq_true|]. unfold vop_open. destruct (vl_open s n x flags (co_ready _ _ _ (cx_counted _ _ _ _ H1)) Hx) as (f&Hop&Hwp).
  apply runs_bind_wp. kstep. eapply wp_vop; [apply H1|exact Hx|exact Hmax|exact Hop|]. destruct (proj1 (wp_Done _ _ _) Hwp) as (r&s2&Er&Hsign&Hq&Hready).
  apply wp_Done. exists r, s2. split; [exact Er|]. specialize (HP s x f r s2 Hx Hop Er).
  pose proof (counted_quiet _ _ _ _ (cx_counted _ _ _ _ H1) Hq Hready) as H2. pose proof (quiet_calm _ _ Hq) as Hc2.
  assert (Hl2 : low s2 b) by (destruct Hq as [e ->]; apply H1). destruct (calm_need _ _ n Hc2) as (Eo2&En2&_).
  destruct (decide (r = 0)) as [->|Hr].
  2: { rewrite bool_decide_true by done. apply runs_bind_wp. eapply wp_inode_ref_dec; [exact H2|exact Hl2|lia|done|rewrite En2, add_eq; lia|rewrite add_eq; lia|].
       intros v s3 H3 Hl3 Hc3. apply runs_wp, wp_ret, HQ; [by eapply calm_comp|done..|]. rewrite decide_False by done.
       eapply counted_ext; [exact H3| |done]. intros k. by rewrite add_back1. }
  rewrite (bool_decide_false (0 <> 0)) by tauto. assert (Hx2 : inodes s2 !! n = Some x) by (by destruct Hq as [e ->]).
  apply runs_bind_wp. eapply wp_open_inc; [exact H2|exact Hl2|done|exact Hx2|rewrite add_eq; lia|].
  intros _ s3 H3 Hl3 Hc3. assert (Hc03 : calm s s3) by (by eapply calm_comp).
  destruct (calm_need _ _ n Hc3) as (Eo3&En3&_). assert (Hpos3 : 0 < need s3 n + add n 1 R n) by (rewrite En3, En2, add_eq; lia).
  unfold mild in *. destruct (_ || _); cbn [negb] in *; apply runs_bind.
  2: { apply wp_ret. rewrite bool_decide_false by tauto. apply wp_ret, HQ; [done..|]. by rewrite decide_True. }
  destruct (counted_alive _ _ _ n H3 Hn Hpos3) as (x3&Hx3&_). unfold vop_truncate. apply wlp_bind.
  eapply wlp_vop; [exact H3|exact Hx3|specialize (Hl3 n x3 Hx3); lia|]. intros g Hg.
  eapply wlp_mono; [eapply vl_truncate; [exact (co_ready _ _ _ H3)|exact Hx3|exact Hg]|]. intros r s4 (Hsign4&Hq4&Hready4).
  pose proof (counted_quiet _ _ _ _ H3 Hq4 Hready4) as H4. pose proof (quiet_calm _ _ Hq4) as Hc4. destruct (calm_need _ _ n Hc4) as (Eo4&En4&_).
  assert (Hl4 : low s4 b) by (destruct Hq4 as [e ->]; exact Hl3). destruct (decide (r = 0)) as [->|Hr].
  { rewrite bool_decide_false by tauto. apply wlp_ret, HQ; [by eapply calm_comp|done..|]. by rewrite decide_True. }
  rewrite bool_decide_true by done. pose proof (co_nonneg _ _ _ H2 n).
  apply wlp_bind_wp. eapply wp_open_dec; [exact H4|exact Hl4|lia|done|by rewrite En4|rewrite Eo4, Eo3, add_eq; lia|].
  intros _ s5 H5 Hl5 Hc5. destruct (calm_need _ _ n Hc5) as (Eo5&En5&_).
  apply wlp_bind_wp. eapply wp_inode_ref_dec; [exact H5|exact Hl5|lia|done|by rewrite En5, En4|rewrite add_back1, add_eq; lia|].
  intros _ s6 H6 Hl6 Hc6. apply wlp_ret, HQ; [eapply calm_comp; [exact Hc03|]; by eapply calm_comp, calm_comp|done..|].
  rewrite decide_False by done. eapply counted_ext; [exact H6|intros k; by rewrite add_back1|intros k; by rewrite add_back1].
Qed.

Lemma wlp_vfs_open s R O b t path flags (Q : Z * Z -> vfs X -> Prop) :
  ctx s R O b -> b + 6 < MAX_INODE_COUNT -> steady s -> tables s !! cur s = Some t -> 0 < files_nlinks t ->
  (forall r n s', opened flags s R O (b + 6) r n s' -> (access_mode flags = None -> r < 0 /\ s' = s) -> Q (r, n) s') -> wlp (vfs_open ops fops path flags) Q s.
Proof.
  intros H Hb Hu Ht Hlk HQ. pose proof (cx_R _ _ _ _ H) as HR. pose proof (fun n => co_le _ _ _ (cx_counted _ _ _ _ H) n) as Hle.
  assert (Hnone : Q (- E_INVAL, 0) s).
  { apply HQ; [|done]. apply opened_none; [apply H|eapply low_le; [apply H|lia]|done]. }
  unfold vfs_open. destruct (access_mode flags) as [[r0 w0]|] eqn:Ea; [|by apply wlp_ret, Hnone].
  destruct (_ && _); [by apply wlp_ret, Hnone|]. lstep. eapply wlp_open_lookup; [exact H|exact Hb|exact Hu|exact Ht|exact Hlk|].
  intros r n s1 R1 Hleak Hf. cbv beta iota. pose proof (fun k => leaked_le flags R R1 k Hleak) as Hle1. destruct (decide (r = 0)) as [->|Hr].
  2: { rewrite bool_decide_true by done. apply wlp_ret, HQ; [|done]. destruct Hf as (Hc&Hl&Hs&Hf). do 3 (split; [done|]). exists R1. split; [done|].
       by rewrite decide_False in Hf |- *. }
  rewrite bool_decide_false by tauto.
  assert (HR1 : forall k, 0 <= R1 k) by (intros k; specialize (HR k); specialize (Hle1 k); lia).
  destruct Hf as (Hc1&Hl1&_&Hf). rewrite decide_True in Hf by done. destruct Hf as [Hn H1].
  assert (H1' : ctx s1 (add n 1 R1) O (b + 6)).
  { destruct H. split; [done|done|lia|]. intros k. specialize (HR1 k). unfold add. case_decide; lia. }
  eapply runs_wlp.
  eapply (runs_open_found _ _ _ _ _ _ (fun _ => True)); [exact H1'| |done|unfold MAX_INODE_COUNT in *; lia|done|done|].
  - intros k. specialize (Hle k). specialize (Hle1 k). lia.
  - intros r m s2 Hc2 Hl2 Hs2 _ Hm. apply HQ; [|done]. split; [by eapply calm_comp|]. split; [done|]. split; [done|]. exists R1. split; [done|].
    destruct (decide (r = 0)); [|done]. by destruct Hm as [-> Hm].
Qed.

(** ** Opening a device by its name *)

Definition plain_name (name : list Z) : Prop := name <> [] /\ COLON ∉ name /\ SLASH ∉ name.

Lemma split_plain name : plain_name name -> split_path (name ++ [COLON]) = (name, [COLON]).
Proof.
  intros (_&Hc&Hs). induction name as [|c name IH]; [done|]. apply not_elem_of_cons in Hc as [Hc1 Hc2]. apply not_elem_of_cons in Hs as [Hs1 Hs2].
  cbn. rewrite (proj2 (Z.eqb_neq c COLON)), (proj2 (Z.eqb_neq c SLASH)) by done. cbn. by rewrite IH.
Qed.

(** [path] names the device [d], and nothing is to be created. *)
Definition device_path s (path : list Z) (flags : Z) (d : vfs_dev) : Prop :=
  mild flags = true /\ access_mode flags <> None /\ dev_fs d = 0 /\ mountable d = false /\
  exists name, path = name ++ [COLON] /\ plain_name name /\ find_dev name (vdev_list s) = Some d.

Lemma wp_vfs_open_dev s R O b path d flags (P : Z -> Prop) (Q : Z * Z -> vfs X -> Prop) :
  ctx s R O b -> b + 6 < MAX_INODE_COUNT -> steady s -> device_path s path flags d -> open_says (devnode d) flags P ->
  (forall r n s', opened flags s R O (b + 6) r n s' -> (r = 0 -> n = devnode d) -> P r -> Q (r, n) s') -> wp (vfs_open ops fops path flags) Q s.
Proof.
  intros H Hb Hu (Hfl&Hacc&Hfs&Hmt&name&->&Hp&Hd) HP HQ. pose proof (cx_R _ _ _ _ H) as HR. pose proof (fun n => co_le _ _ _ (cx_counted _ _ _ _ H) n) as Hle.
  pose proof Hfl as Hfl'. unfold mild in Hfl'. apply negb_true_iff, orb_false_iff in Hfl' as [Ht Hcr].
  unfold vfs_open. destruct (access_mode flags) as [[r0 w0]|]; [|done]. rewrite Ht. cbn [andb]. kstep. unfold open_lookup. rewrite Hcr. kstep.
  unfold vfs_lookup. kstep. unfold get_device. rewrite split_plain by done. destruct name as [|c name]; [by destruct Hp|]. rewrite Z.eqb_refl. kstep.
  eapply wp_get_root_dev; [exact H|exact Hu|exact Hd|done|done|]. intros s1 Hf. kstep. cbv beta iota. rewrite (bool_decide_false (0 <> 0)) by tauto.
  cbn [skip_slashes]. kstep. cbv beta iota. rewrite (bool_decide_false (0 <> 0)) by tauto. rewrite andb_false_r. kstep. cbv beta iota.
  rewrite (bool_decide_false (0 <> 0)) by tauto. destruct (found_ctx s R O b (b + 1) _ s1 H ltac:(lia) ltac:(lia) Hf) as (Hn&H1&Hc1).
  pose proof (runs_open_found s1 R O (b + 1) (devnode d) flags P Q H1 Hle (HR _) ltac:(unfold MAX_INODE_COUNT in *; lia) Hn HP) as Hr.
  rewrite Hfl, Ht, Hcr in Hr. apply Hr. intros r m s2 Hc2 Hl2 Hs2 HPr Hm. apply HQ.
  - split; [by eapply calm_comp|]. split; [eapply low_le; [done|lia]|]. split; [done|]. exists R. split; [apply leaked_refl|].
    destruct (decide (r = 0)); [|done]. by destruct Hm as [-> Hm].
  - intros ->. rewrite decide_True in Hm by done. by destruct Hm.
  - by apply HPr.
Qed.
End counts.
Arguments VopLaws {X}.
