(* ===== verification/Files.v ===== *)
(** kern/fs/file.c, fs.c, and copy_files and put_files of kern/process/proc.c:
    the tables of open files.  A [struct file *] is a table and a position in
    it.  A call that can sleep in an operation of an inode is cut before that
    operation: [file_begin], then the rest; between the two other processes may
    use the same table. *)
From S2P Require Import Prelude Iobuf Vfs.
#[local] Abbreviation length := Datatypes.length.

(** ** fs.h: sizes of the structures with the alignment of the machine *)

Definition sizeof_files_struct := 56.
Definition sizeof_file := 56.
Definition FILES_STRUCT_BUFSIZE := 4096 - sizeof_files_struct.
Definition FILES_STRUCT_NENTRY := FILES_STRUCT_BUFSIZE / sizeof_file.
Definition FS_MAX_FNAME_LEN := 255.
Definition NO_FD := -100.
Definition LSEEK_SET := 0.
Definition LSEEK_CUR := 1.
Definition LSEEK_END := 2.
Definition CLONE_FILES := 0x400.

Section files.
Context {X : Type} (ops : Z -> inode_ops X) (fops : fs_ops X).
Abbreviation K := (K (vfs X)).

(** ** file.c *)

Definition testfd (n : Z) : bool := (0 <=? n) && (n <? FILES_STRUCT_NENTRY).

Definition get_fd_array : K (list file) := s ← get; p ← files_at (cur s); mret (fd_array p).
Definition file_at (p : Z) (i : nat) : K file := t ← files_at p; unwrap (fd_array t !! i).
Definition file_upd (p : Z) (i : nat) (f : file -> file) : K () :=
  x ← file_at p i; files_upd p (fun t => set_fd_array (<[i := f x]> (fd_array t)) t).

(** The fields that [fd_array_init] does not set are what the memory held. *)
Definition fd_array_init (l : list file) : list file :=
  imap (fun i f => mk_file FD_NONE (readable f) (writable f) (Z.of_nat i) (pos f) (node f) 0) l.

(** A result, and a position when it is 0. *)
Definition fd_array_alloc (n : Z) : K (Z * nat) :=
  s ← get;
  l ← get_fd_array;
  let found i :=
    f ← file_at (cur s) i;
    assert (bool_decide (fopen_count f = 0));;
    file_upd (cur s) i (fun f => set_node 0 (set_status FD_INIT f));;
    mret (0, i) in
  if bool_decide (n = NO_FD) then
    match list_find (fun f => status f = FD_NONE) l with
    | Some (i, _) => found i
    | None => mret (- E_MAX_OPEN, O)
    end
  else if testfd n then
    f ← file_at (cur s) (Z.to_nat n);
    if bool_decide (status f = FD_NONE) then found (Z.to_nat n) else mret (- E_BUSY, O)
  else mret (- E_INVAL, O).

Definition fd_array_free (p : Z) (i : nat) : K () :=
  f ← file_at p i;
  assert (bool_decide (status f = FD_INIT \/ status f = FD_CLOSED));;
  assert (bool_decide (fopen_count f = 0));;
  when (bool_decide (status f = FD_CLOSED)) (vfs_close ops (node f);; mret ());;
  file_upd p i (set_status FD_NONE).

Definition fopen_count_inc (p : Z) (i : nat) : K () := file_upd p i (fun f => set_fopen_count (s32 (fopen_count f + 1)) f).
Definition fopen_count_dec (p : Z) (i : nat) : K Z :=
  file_upd p i (fun f => set_fopen_count (s32 (fopen_count f - 1)) f);; f ← file_at p i; mret (fopen_count f).

Definition fd_array_acquire (p : Z) (i : nat) : K () :=
  f ← file_at p i; assert (bool_decide (status f = FD_OPENED));; fopen_count_inc p i.

Definition fd_array_release (p : Z) (i : nat) : K () :=
  f ← file_at p i;
  assert (bool_decide (status f = FD_OPENED \/ status f = FD_CLOSED));;
  assert (0 <? fopen_count f);;
  n ← fopen_count_dec p i;
  when (bool_decide (n = 0)) (fd_array_free p i).

Definition fd_array_open (p : Z) (i : nat) : K () :=
  f ← file_at p i;
  assert (bool_decide (status f = FD_INIT /\ node f <> 0));;
  file_upd p i (set_status FD_OPENED);;
  fopen_count_inc p i.

Definition fd_array_close (p : Z) (i : nat) : K () :=
  f ← file_at p i;
  assert (bool_decide (status f = FD_OPENED));;
  assert (0 <? fopen_count f);;
  file_upd p i (set_status FD_CLOSED);;
  n ← fopen_count_dec p i;
  when (bool_decide (n = 0)) (fd_array_free p i).

Definition fd_array_dup (pt : Z) (i : nat) (pf : Z) (j : nat) : K () :=
  t ← file_at pt i;
  f ← file_at pf j;
  assert (bool_decide (status t = FD_INIT /\ status f = FD_OPENED));;
  file_upd pt i (fun t => mk_file (status t) (readable f) (writable f) (fd t) (pos f) (node t) (fopen_count t));;
  inode_ref_inc (node f);; inode_open_inc (node f);;
  file_upd pt i (set_node (node f));;
  fd_array_open pt i.

(** The position of an open descriptor of the current process. *)
Definition fd2file (n : Z) : K (option nat) :=
  if testfd n then
    s ← get;
    f ← file_at (cur s) (Z.to_nat n);
    mret (if bool_decide (status f = FD_OPENED /\ fd f = n) then Some (Z.to_nat n) else None)
  else mret None.

Definition file_testfd (n : Z) (r w : bool) : K bool :=
  o ← fd2file n;
  match o with
  | None => mret false
  | Some i => s ← get; f ← file_at (cur s) i; mret ((negb r || readable f) && (negb w || writable f))
  end.

Definition file_open (path : list Z) (flags : Z) : K Z :=
  match access_mode flags with
  | None => mret (- E_INVAL)
  | Some (r, w) =>
      s ← get;
      let p := cur s in
      '(ret, i) ← fd_array_alloc NO_FD;
      if bool_decide (ret <> 0) then mret ret
      else
        '(ret, n) ← vfs_open ops fops path flags;
        if bool_decide (ret <> 0) then fd_array_free p i;; mret ret
        else
          file_upd p i (set_pos 0);;
          '(ret, size) ← (if has_flag flags O_APPEND then '(ret, st) ← vop_fstat ops n; mret (ret, st_size st) else mret (0, 0));
          if bool_decide (ret <> 0) then vfs_close ops n;; fd_array_free p i;; mret ret
          else
            file_upd p i (fun f => mk_file (status f) r w (fd f) size n (fopen_count f));;
            fd_array_open p i;;
            f ← file_at p i;
            mret (fd f)
  end.

Definition file_close (n : Z) : K Z :=
  o ← fd2file n;
  match o with
  | None => mret (- E_INVAL)
  | Some i => s ← get; fd_array_close (cur s) i;; mret 0
  end.

(** What the calls on an open descriptor do first; [ok] is the test of the mode. *)
Definition file_begin (n : Z) (ok : file -> bool) : K (Z * nat) :=
  o ← fd2file n;
  match o with
  | None => mret (- E_INVAL, O)
  | Some i =>
      s ← get;
      f ← file_at (cur s) i;
      if negb (ok f) then mret (- E_INVAL, O) else fd_array_acquire (cur s) i;; mret (0, i)
  end.

(** The second half of [file_read] and [file_write]: the result and the number
    of bytes moved. *)
Definition file_io_end (write : bool) (p : Z) (i : nat) (iob : iobuf) : K (Z * Z) :=
  f ← file_at p i;
  '(ret, iob) ← (if write then vop_write ops (node f) iob else vop_read ops (node f) iob);
  let copied := iobuf_used iob in
  f ← file_at p i;
  when (bool_decide (status f = FD_OPENED)) (file_upd p i (fun f => set_pos (s64 (pos f + copied)) f));;
  fd_array_release p i;;
  mret (ret, copied).

Definition file_read (n base len : Z) : K (Z * Z) :=
  s ← get;
  '(ret, i) ← file_begin n readable;
  if bool_decide (ret <> 0) then mret (ret, 0)
  else f ← file_at (cur s) i; file_io_end false (cur s) i (iobuf_init base len (pos f)).

Definition file_write (n base len : Z) : K (Z * Z) :=
  s ← get;
  '(ret, i) ← file_begin n writable;
  if bool_decide (ret <> 0) then mret (ret, 0)
  else f ← file_at (cur s) i; file_io_end true (cur s) i (iobuf_init base len (pos f)).

Definition file_seek_end (p : Z) (i : nat) (off whence : Z) : K Z :=
  f ← file_at p i;
  '(ret, off) ←
    (if bool_decide (whence = LSEEK_SET) then mret (0, off)
     else if bool_decide (whence = LSEEK_CUR) then mret (0, s64 (off + pos f))
     else if bool_decide (whence = LSEEK_END) then
       '(ret, st) ← vop_fstat ops (node f);
       mret (ret, if bool_decide (ret = 0) then s64 (off + st_size st) else off)
     else mret (- E_INVAL, off));
  ret ← (if bool_decide (ret = 0) then
           ret ← vop_tryseek ops (node f) off;
           when (bool_decide (ret = 0)) (file_upd p i (set_pos off));;
           mret ret
         else mret ret);
  fd_array_release p i;;
  mret ret.

Definition file_seek (n off whence : Z) : K Z :=
  s ← get;
  '(ret, i) ← file_begin n (fun _ => true);
  if bool_decide (ret <> 0) then mret ret else file_seek_end (cur s) i off whence.

Definition file_fstat_end (p : Z) (i : nat) : K (Z * stat) :=
  f ← file_at p i;
  r ← vop_fstat ops (node f);
  fd_array_release p i;;
  mret r.
Definition file_fstat (n : Z) : K (Z * stat) :=
  s ← get;
  '(ret, i) ← file_begin n (fun _ => true);
  if bool_decide (ret <> 0) then mret (ret, mk_stat 0 0 0 0) else file_fstat_end (cur s) i.

Definition file_fsync_end (p : Z) (i : nat) : K Z :=
  f ← file_at p i;
  r ← vop_fsync ops (node f);
  fd_array_release p i;;
  mret r.
Definition file_fsync (n : Z) : K Z :=
  s ← get;
  '(ret, i) ← file_begin n (fun _ => true);
  if bool_decide (ret <> 0) then mret ret else file_fsync_end (cur s) i.

(** The name goes to [base]; the offset of the entry is returned. *)
Definition file_getdirentry_end (p : Z) (i : nat) (base offset : Z) : K (Z * Z) :=
  f ← file_at p i;
  '(ret, iob) ← vop_getdirentry ops (node f) (iobuf_init base (FS_MAX_FNAME_LEN + 1) offset);
  fd_array_release p i;;
  mret (ret, if bool_decide (ret = 0) then s64 (offset + iobuf_used iob) else offset).
Definition file_getdirentry (n base offset : Z) : K (Z * Z) :=
  s ← get;
  '(ret, i) ← file_begin n (fun _ => true);
  if bool_decide (ret <> 0) then mret (ret, offset) else file_getdirentry_end (cur s) i base offset.

Definition file_dup (n1 n2 : Z) : K Z :=
  o ← fd2file n1;
  match o with
  | None => mret (- E_INVAL)
  | Some j =>
      '(ret, i) ← fd_array_alloc n2;
      if bool_decide (ret <> 0) then mret ret
      else
        s ← get;
        fd_array_dup (cur s) i (cur s) j;;
        f ← file_at (cur s) i;
        mret (fd f)
  end.

(** ** fs.c; [kmalloc] returns [p], with [l] in the memory behind it, or NULL *)

Definition files_create (o : option (Z * list file)) : K (option Z) :=
  match o with
  | None => mret None
  | Some (p, l) => modify (fun s => set_tables (<[p := mk_files 0 (fd_array_init l) 0 1 false]> (tables s)) s);; mret (Some p)
  end.

Fixpoint close_loop (check : bool) (n i : nat) (p : Z) : K () :=
  match n with
  | O => mret ()
  | S n =>
      f ← file_at p i;
      when (bool_decide (status f = FD_OPENED)) (fd_array_close p i);;
      when check (f ← file_at p i; assert (bool_decide (status f = FD_NONE)));;
      close_loop check n (S i) p
  end.

Definition files_destroy (p : Z) : K () :=
  t ← files_at p;
  assert (bool_decide (files_count t = 0));;
  when (bool_decide (pwd t <> 0)) (inode_ref_dec ops (pwd t);; mret ());;
  close_loop true (Z.to_nat FILES_STRUCT_NENTRY) 0 p;;
  modify (fun s => set_tables (delete p (tables s)) s).

(** Standard input and output stay open. *)
Definition files_closeall (p : Z) : K () :=
  t ← files_at p;
  assert (0 <? files_count t);;
  close_loop false (Z.to_nat FILES_STRUCT_NENTRY - 2) 2 p.

Fixpoint dup_loop (n i : nat) (to from : Z) : K () :=
  match n with
  | O => mret ()
  | S n =>
      f ← file_at from i;
      when (bool_decide (status f = FD_OPENED)) (file_upd to i (set_status FD_INIT);; fd_array_dup to i from i);;
      dup_loop n (S i) to from
  end.

Definition dup_files (to from : Z) : K Z :=
  t ← files_at to;
  f ← files_at from;
  assert (bool_decide (files_count t = 0));;
  files_upd to (set_pwd (pwd f));;
  when (bool_decide (pwd f <> 0)) (inode_ref_inc (pwd f);; mret ());;
  dup_loop (Z.to_nat FILES_STRUCT_NENTRY) 0 to from;;
  mret 0.

(** ** proc.c; the table of the new process is [Some] on success *)

Definition set_files_nlinks (v : Z) (p : files_struct) := mk_files (pwd p) (fd_array p) (files_count p) v (files_sem p).

Definition copy_files (clone_flags : Z) (o : option (Z * list file)) : K (Z * Z) :=
  s ← get;
  let old := cur s in
  if bool_decide (old = 0) then
    r ← files_create o; mret (match r with Some p => (0, p) | None => (- E_NO_MEM, 0) end)
  else if has_flag clone_flags CLONE_FILES then
    files_upd old (fun t => set_files_nlinks (s32 (files_nlinks t + 1)) t);; mret (0, old)
  else
    r ← files_create o;
    match r with
    | None => mret (- E_NO_MEM, 0)
    | Some p => dup_files p old;; mret (0, p)
    end.

Definition put_files (p : Z) : K () :=
  if bool_decide (p = 0) then mret ()
  else
    files_upd p (fun t => set_files_nlinks (s32 (files_nlinks t - 1)) t);;
    t ← files_at p;
    when (bool_decide (files_nlinks t = 0)) (files_destroy p).
End files.
