(* ===== verification/FilesSpec.v ===== *)
(** The tables of open files ([Files]) and the inodes they name: the invariant
    [sound], and what every call does to it, for any number of tables and with
    calls that are under way in other processes. *)
From S2P Require Import Prelude Iobuf Vfs VfsSpec Files.
#[local] Abbreviation length := Datatypes.length.

(** ** Lists *)

Definition b2z (b : bool) : Z := if b then 1 else 0.

Lemma count_set {A} (g : A -> bool) l i x y : l !! i = Some x -> count g (<[i := y]> l) = count g l - b2z (g x) + b2z (g y).
Proof.
  revert i. induction l as [|z l IH]; intros [|i] E; cbn in *; try done.
  - injection E as ->. unfold b2z. destruct (g x), (g y); lia.
  - etrans; [exact (f_equal (Z.add _) (IH i E))|]. lia.
Qed.

Lemma count_perm {A} (g : A -> bool) l l' : l ≡ₚ l' -> count g l = count g l'.
Proof. induction 1; cbn; lia. Qed.

Lemma count_cons {A} (g : A -> bool) x l : count g (x :: l) = b2z (g x) + count g l.
Proof. unfold b2z. cbn. destruct (g x); lia. Qed.

(** ** The invariant of the tables *)

(** The calls under way on an entry. *)
Definition fly (F : list (Z * nat)) (p : Z) (i : nat) : Z := count (fun q => bool_decide (q = (p, i))) F.

(** An entry with [k] calls under way; [init] when it is being opened. *)
Record file_ok (k : Z) (init : bool) (i : nat) (f : file) : Prop := {
  fo_fd : fd f = Z.of_nat i;
  fo_count : fopen_count f = k + b2z (bool_decide (status f = FD_OPENED));
  fo_init : status f = FD_INIT <-> init = true;
  fo_idle : status f = FD_NONE \/ status f = FD_INIT -> k = 0;
  fo_closed : status f = FD_CLOSED -> 0 < k;
  fo_node : status f = FD_OPENED \/ status f = FD_CLOSED -> node f <> 0;
}.

Section spec.
Context {X : Type} (ops : Z -> inode_ops X) (fops : fs_ops X) {HL : VopLaws ops fops}.
Implicit Types (s : vfs X) (F : list (Z * nat)) (N : option (Z * nat)).
Abbreviation counted := (counted ops fops).
Abbreviation vl_ready := (vl_ready ops fops).

Record tab_ok s F N : Prop := {
  tk_len p t : tables s !! p = Some t -> length (fd_array t) = Z.to_nat FILES_STRUCT_NENTRY /\ files_count t = 0 /\ files_sem t = false;
  tk_file p t i f : tables s !! p = Some t -> fd_array t !! i = Some f -> file_ok (fly F p i) (bool_decide (N = Some (p, i))) i f;
  tk_fly p i : (p, i) ∈ F -> exists t f, tables s !! p = Some t /\ fd_array t !! i = Some f;
}.

Definition none : Z -> Z := fun _ => 0.

(** [L n]: the references to [n] that openings have left behind ([leaked]). *)
Context (L : Z -> Z).

(** Nothing is held on behalf of a running call. *)
Record sound s F : Prop := {
  so_counted : counted s L none;
  so_tab : tab_ok s F None;
  so_steady : steady s;
  so_few : Z.of_nat (length F) < 2 ^ 20;
}.

(** No inode is near the limit of [inode_check]. *)
Definition roomy s : Prop := low s (MAX_INODE_COUNT - 8).

(** ** One entry *)

Definition file_of s (p : Z) (i : nat) : option file := t ← tables s !! p; fd_array t !! i.
Definition set_file (p : Z) (i : nat) (y : file) s : vfs X := set_tables (alter (fun t => set_fd_array (<[i := y]> (fd_array t)) t) p (tables s)) s.

Lemma file_of_Some s p i f : file_of s p i = Some f <-> exists t, tables s !! p = Some t /\ fd_array t !! i = Some f.
Proof. unfold file_of. by rewrite bind_Some. Qed.

Lemma file_of_set s p i y f q j : file_of s p i = Some f ->
  file_of (set_file p i y s) q j = if decide ((q, j) = (p, i)) then Some y else file_of s q j.
Proof.
  intros (t&Ht&Hf)%file_of_Some. unfold file_of, set_file. cbn. destruct (decide (q = p)) as [->|Hq].
  - rewrite lookup_alter_eq, Ht. cbn. destruct (decide (j = i)) as [->|Hj].
    + rewrite list_lookup_insert_eq by (by eapply lookup_lt_Some). by rewrite decide_True.
    + rewrite list_lookup_insert_ne by done. by rewrite decide_False by congruence.
  - rewrite lookup_alter_ne by done. by rewrite decide_False by congruence.
Qed.

Lemma wp_file_at p i f s (Q : file -> vfs X -> Prop) : file_of s p i = Some f -> Q f s -> wp (file_at p i) Q s.
Proof. intros (t&Ht&Hf)%file_of_Some HQ. unfold file_at. kstep. eapply wp_files_at; [exact Ht|]. by kstep; [exact Hf|]. Qed.

Lemma alter_insert_eq {A} (g : A -> A) (m : gmap Z A) k x : m !! k = Some x -> <[k := g x]> m = alter g k m.
Proof.
  intros Hk. apply map_eq. intros j. destruct (decide (j = k)) as [->|]; [by rewrite lookup_insert_eq, lookup_alter_eq, Hk|].
  by rewrite lookup_insert_ne, lookup_alter_ne.
Qed.

Lemma wp_file_upd p i f g s (Q : () -> vfs X -> Prop) : file_of s p i = Some f -> Q () (set_file p i (g f) s) -> wp (file_upd p i g) Q s.
Proof.
  intros Hf HQ. pose proof Hf as (t&Ht&Hi)%file_of_Some. unfold file_upd, files_upd. kstep. eapply wp_file_at; [exact Hf|].
  kstep. eapply wp_files_at; [exact Ht|]. kstep. unfold set_file in HQ. by rewrite <-(alter_insert_eq (fun t => set_fd_array (<[i := g f]> (fd_array t)) t) _ p t Ht) in HQ.
Qed.

Lemma opens_set_file s p i f y n : file_of s p i = Some f -> opens (set_file p i y s) n = opens s n - b2z (holds n f) + b2z (holds n y).
Proof.
  intros (t&Ht&Hi)%file_of_Some. unfold opens, set_file. cbn. rewrite <-(alter_insert_eq (fun t => set_fd_array (<[i := y]> (fd_array t)) t) _ p t Ht).
  erewrite msum_insert by exact Ht. cbn. rewrite (count_set _ _ _ f) by done. lia.
Qed.

Lemma pwds_set_file s p i y n : pwds (set_file p i y s) n = pwds s n.
Proof.
  unfold pwds, set_file. cbn. destruct (tables s !! p) as [t|] eqn:Ht; [|rewrite alter_id; [done|intros t Ht2; congruence]].
  rewrite <-(alter_insert_eq (fun t => set_fd_array (<[i := y]> (fd_array t)) t) _ p t Ht). erewrite msum_insert by exact Ht. unfold held_pwd. cbn. lia.
Qed.

Lemma need_set_file s p i f y n : file_of s p i = Some f -> need (set_file p i y s) n = need s n - b2z (holds n f) + b2z (holds n y).
Proof.
  intros Hf. unfold need. rewrite (opens_set_file s p i f y n Hf), pwds_set_file. unfold devs, set_file. cbn. lia.
Qed.

(** The tables change, and with them who is accounted for by whom. *)
Lemma counted_shift s s' R O R' O' :
  counted s R O -> inodes s' = inodes s -> ext s' = ext s -> (forall n, devs s' n = devs s n) ->
  (forall n, opens s' n + O' n = opens s n + O n) -> (forall n, n <> 0 -> need s' n + R' n = need s n + R n) -> (forall n, O' n <= R' n) -> counted s' R' O'.
Proof.
  intros [A1 A2 A3 A4 A5 A6] E1 E2 E3 Ho Hr Hle. split; try done.
  - eapply vl_stable; [exact A1|done|]. intros n. unfold kind. by rewrite E1.
  - intros n Hn Hp. rewrite E1. apply A2; [done|]. specialize (Hr n Hn). lia.
  - intros n x. rewrite E1. intros Hx. destruct (A3 n x Hx) as (Hn&?&?). specialize (Ho n). specialize (Hr n Hn). split_and!; [done|lia|lia].
  - intros n. specialize (A5 n). specialize (Ho n). lia.
  - intros n x. rewrite E1, E3. apply A6.
Qed.

Lemma counted_set_file s R O R' O' p i f y :
  counted s R O -> file_of s p i = Some f ->
  (forall n, b2z (holds n y) + O' n = b2z (holds n f) + O n) -> (forall n, b2z (holds n y) + R' n = b2z (holds n f) + R n) ->
  counted (set_file p i y s) R' O'.
Proof.
  intros H Hf Ho Hr. eapply counted_shift; [exact H|done|done|done| | |].
  - intros n. rewrite (opens_set_file s p i f) by done. specialize (Ho n). lia.
  - intros n _. rewrite (need_set_file s p i f) by done. specialize (Hr n). lia.
  - intros n. specialize (Ho n). specialize (Hr n). pose proof (co_le _ _ _ _ _ H n). lia.
Qed.

Lemma tab_set_file s F N F' N' p i f y :
  tab_ok s F N -> file_of s p i = Some f ->
  file_ok (fly F' p i) (bool_decide (N' = Some (p, i))) i y ->
  (forall q j, (q, j) <> (p, i) -> fly F' q j = fly F q j /\ bool_decide (N' = Some (q, j)) = bool_decide (N = Some (q, j))) ->
  (forall q j, (q, j) ∈ F' -> (q, j) = (p, i) \/ (q, j) ∈ F) ->
  tab_ok (set_file p i y s) F' N'.
Proof.
  intros [A1 A2 A3] Hf Hy Ho Hin. pose proof Hf as (t&Ht&Hi)%file_of_Some.
  assert (Hall : forall q j g, file_of (set_file p i y s) q j = Some g -> file_ok (fly F' q j) (bool_decide (N' = Some (q, j))) j g).
  { intros q j g. rewrite (file_of_set s p i y f) by done. destruct (decide ((q, j) = (p, i))) as [E|E].
    { injection E as E1 E2. subst q j. by intros [= <-]. }
    destruct (Ho q j E) as [-> ->]. intros (t'&Ht'&Hj)%file_of_Some. by eapply A2. }
  split.
  - intros q t'. unfold set_file. cbn. destruct (decide (q = p)) as [->|Hq]; [|rewrite lookup_alter_ne by done; apply A1].
    rewrite lookup_alter_eq, Ht. intros [= <-]. cbn. rewrite length_insert. by apply A1 in Ht.
  - intros q t' j g Ht' Hg. apply Hall. apply file_of_Some. by exists t'.
  - intros q j Hq. assert (Hex : is_Some (file_of (set_file p i y s) q j)).
    { rewrite (file_of_set s p i y f) by done. destruct (decide ((q, j) = (p, i))); [by eexists|]. destruct (Hin q j Hq) as [|Hq']; [done|].
      destruct (A3 q j Hq') as (t'&g&Ht'&Hg). exists g. apply file_of_Some. by exists t'. }
    destruct Hex as [g (t'&Ht'&Hg)%file_of_Some]. by exists t', g.
Qed.

Lemma tab_calm s s' F N : tab_ok s F N -> calm s s' -> tab_ok s' F N.
Proof. intros [A1 A2 A3] (i&e&->). by split. Qed.

Lemma fly_nonneg F p i : 0 <= fly F p i <= Z.of_nat (length F).
Proof. unfold fly. apply count_bounds. Qed.

Lemma set_file_twice p i x y s : set_file p i y (set_file p i x s) = set_file p i y s.
Proof.
  destruct s as [a1 a2 a3 a4 a5 m a7 a8]. unfold set_file, set_tables. cbn [tables inodes vdev_list vdev_list_sem bootfs_node bootfs_sem cur ext]. f_equal. apply map_eq. intros q. destruct (decide (q = p)) as [->|Hq].
  - rewrite !lookup_alter_eq. destruct (m !! p) as [t|]; [|done]. cbn. f_equal. unfold set_fd_array. cbn. f_equal. apply list_insert_insert_eq.
  - by rewrite !lookup_alter_ne.
Qed.

Lemma calm_file_of s s1 p i : calm s s1 -> file_of s1 p i = file_of s p i.
Proof. by intros (j&e&->). Qed.

Lemma calm_set_file_back s p i y s1 : calm (set_file p i y s) s1 -> exists s2, calm s s2 /\ s1 = set_file p i y s2.
Proof. intros (j&e&->). exists (set_ext e (set_inodes j s)). split; [by exists j, e|done]. Qed.

Lemma holds_live f n : status f = FD_OPENED \/ status f = FD_CLOSED -> holds n f = bool_decide (node f = n).
Proof. intros Hs. unfold holds. apply bool_decide_ext. split; [by intros [_ E]|done]. Qed.

Lemma holds_idle f n : status f = FD_NONE \/ status f = FD_INIT -> holds n f = false.
Proof. intros Hs. unfold holds. apply bool_decide_eq_false. intros [[E|E] _]; destruct Hs; congruence. Qed.

Lemma live_need s p i f : file_of s p i = Some f -> status f = FD_OPENED \/ status f = FD_CLOSED -> 0 < opens s (node f).
Proof.
  intros Hf Hs. pose proof (opens_set_file s p i f (set_status FD_NONE f) (node f) Hf) as E.
  rewrite (holds_live f), (holds_idle (set_status FD_NONE f)), bool_decide_true in E by (done || by left). cbn in E.
  pose proof (opens_nonneg (set_file p i (set_status FD_NONE f) s) (node f)). lia.
Qed.

(** ** Giving an entry up *)
Lemma leak_pos s n : counted s L none -> 0 <= L n.
Proof. intros H. by apply (co_le _ _ _ _ _ H n). Qed.

Lemma wp_free_closed s p i f b (Q : () -> vfs X -> Prop) :
  counted s L none -> low s b -> b < MAX_INODE_COUNT -> file_of s p i = Some f -> status f = FD_CLOSED -> fopen_count f = 0 -> node f <> 0 ->
  (forall s1, calm s s1 -> low s1 b -> counted (set_file p i (set_status FD_NONE f) s1) L none -> Q () (set_file p i (set_status FD_NONE f) s1)) ->
  wp (fd_array_free ops p i) Q s.
Proof.
  intros H Hlow Hb Hf Hs Hc Hn HQ. pose proof (live_need s p i f Hf (or_intror Hs)) as Hopen. pose proof (opens_need s (node f)). pose proof (leak_pos s (node f) H) as HLn.
  unfold fd_array_free. kstep. eapply wp_file_at; [exact Hf|]. kstep. kstep; [apply bool_decide_eq_true; by right|].
  kstep. kstep; [by apply bool_decide_eq_true|]. rewrite bool_decide_true by done. cbn [when]. kstep. kstep.
  eapply wp_vfs_close; [exact H|exact Hlow|exact Hb|exact Hn|lia|unfold none; lia|]. intros s1 H1 Hl1 Hc1. kstep.
  eapply wp_file_upd; [by rewrite (calm_file_of s s1)|]. apply HQ; [done|done|].
  eapply counted_set_file; [exact H1|by rewrite (calm_file_of s s1)|..].
  all: intros n; rewrite (holds_live f), (holds_idle (set_status FD_NONE f)) by first [by right|by left]; unfold add, none;
    destruct (decide (n = node f)) as [->|]; [rewrite bool_decide_true by done|rewrite bool_decide_false by done]; cbn; lia.
Qed.

(** An entry with one use less. *)
Definition drop_file (f : file) : file := set_status (if decide (fopen_count f = 1) then FD_NONE else status f) (set_fopen_count (fopen_count f - 1) f).

Lemma wp_drop s F N F' p i f0 f b (Q : () -> vfs X -> Prop) :
  counted (set_file p i f s) L none -> low s b -> b < MAX_INODE_COUNT -> tab_ok s F N -> file_of s p i = Some f0 ->
  (forall q j, (q, j) <> (p, i) -> fly F' q j = fly F q j /\ bool_decide (N = Some (q, j)) = false) -> (forall q, q ∈ F' -> q ∈ F) ->
  status f = FD_OPENED \/ status f = FD_CLOSED -> node f <> 0 -> fd f = Z.of_nat i ->
  fopen_count f = 1 + fly F' p i + b2z (bool_decide (status f = FD_OPENED)) -> fly F' p i < 2 ^ 20 ->
  (forall s1, calm s s1 -> low s1 b -> counted (set_file p i (drop_file f) s1) L none -> tab_ok (set_file p i (drop_file f) s1) F' None ->
     Q () (set_file p i (drop_file f) s1)) ->
  wp (n ← fopen_count_dec p i; when (bool_decide (n = 0)) (fd_array_free ops p i)) Q (set_file p i f s).
Proof.
  intros H Hlow Hb Htab Hf0 Hfly Hin Hs Hn Hfd Hcount Hk HQ. pose proof (fly_nonneg F' p i) as Hk0.
  assert (Hf : file_of (set_file p i f s) p i = Some f) by (rewrite (file_of_set s p i f f0) by done; by rewrite decide_True).
  assert (Htab' : forall s1, calm s s1 -> tab_ok (set_file p i (drop_file f) s1) F' None).
  { intros s1 Hc1. eapply tab_set_file; [eapply tab_calm; [exact Htab|exact Hc1]|by rewrite (calm_file_of s s1)| |intros q j E; split; [by apply Hfly|]|intros q j Hq; right; by apply Hin].
    - assert (D : fopen_count f = 1 -> fly F' p i = 0 /\ status f = FD_CLOSED).
      { intros E. unfold b2z in Hcount. destruct Hs as [Ho|Ho]; [rewrite bool_decide_true in Hcount by done; lia|].
        split; [|done]. rewrite bool_decide_false in Hcount by congruence. lia. }
      unfold drop_file. destruct (decide (fopen_count f = 1)) as [E|E].
      + destruct (D E) as [-> _]. split; cbn; try done. rewrite bool_decide_false by done. unfold b2z. lia.
      + split; cbn; try done; [lia| | |].
        * split; [intros E'; destruct Hs; congruence|done].
        * intros [E'|E']; destruct Hs; congruence.
        * intros E'. unfold b2z in Hcount. rewrite bool_decide_false in Hcount by congruence. lia.
    - destruct (Hfly q j E) as [_ ->]. by apply bool_decide_eq_false. }
  unfold fopen_count_dec. kstep. kstep. eapply wp_file_upd; [exact Hf|]. rewrite set_file_twice. kstep.
  rewrite swrap_small by (unfold b2z in *; destruct (bool_decide (status f = FD_OPENED)); lia).
  set (g := set_fopen_count (fopen_count f - 1) f). assert (Hg : file_of (set_file p i g s) p i = Some g) by (rewrite (file_of_set s p i g f0) by done; by rewrite decide_True).
  assert (H1 : counted (set_file p i g s) L none).
  { rewrite <-(set_file_twice p i f g). by eapply counted_set_file. }
  eapply wp_file_at; [exact Hg|]. kstep. cbn [fopen_count g set_fopen_count]. unfold drop_file in *. destruct (decide (fopen_count f = 1)) as [E|E].
  - rewrite bool_decide_true by lia. cbn [when].
    assert (Hcl : status f = FD_CLOSED) by (destruct Hs as [Ho|]; [|done]; unfold b2z in Hcount; rewrite bool_decide_true in Hcount by done; lia).
    eapply wp_free_closed; [exact H1|exact Hlow|exact Hb|exact Hg|done|cbn; lia|done|]. intros s1 Hc1 Hl1 H2.
    destruct (calm_set_file_back _ _ _ _ _ Hc1) as (s2&Hc2&->). rewrite set_file_twice in *. apply HQ; [done|done|done|by apply Htab'].
  - rewrite bool_decide_false by lia. cbn [when]. apply wp_ret.
    assert (Eg : set_status (status f) (set_fopen_count (fopen_count f - 1) f) = g) by (by destruct f). rewrite Eg in HQ, Htab'. apply HQ; [apply calm_id|done|done|apply Htab', calm_id].
Qed.

Lemma set_file_id s p i f : file_of s p i = Some f -> set_file p i f s = s.
Proof.
  intros (t&Ht&Hi)%file_of_Some. destruct s as [a1 a2 a3 a4 a5 m a7 a8]. unfold set_file, set_tables. cbn in *. f_equal.
  apply map_eq. intros q. destruct (decide (q = p)) as [->|Hq]; [|by rewrite lookup_alter_ne]. rewrite lookup_alter_eq, Ht. cbn. f_equal.
  rewrite list_insert_id by done. by destruct t.
Qed.

Lemma tab_file s F N p i f : tab_ok s F N -> file_of s p i = Some f -> file_ok (fly F p i) (bool_decide (N = Some (p, i))) i f.
Proof. intros H (t&Ht&Hi)%file_of_Some. by eapply (tk_file s F N H). Qed.

Lemma file_ok_live k i f : file_ok k false i f -> 0 < k \/ status f = FD_OPENED -> status f = FD_OPENED \/ status f = FD_CLOSED.
Proof.
  intros [_ _ A3 A4 _ _] Hk. destruct (status f) eqn:E; [|destruct A3 as [A3 _]; by specialize (A3 eq_refl)|by left|by right].
  exfalso. destruct Hk as [Hk|Hk]; [|done]. specialize (A4 (or_introl eq_refl)). lia.
Qed.

Lemma counted_same_holds s p i f y : counted s L none -> file_of s p i = Some f -> (forall n, holds n y = holds n f) -> counted (set_file p i y s) L none.
Proof. intros H Hf Hh. eapply counted_set_file; [exact H|exact Hf|..]; intros n; by rewrite Hh. Qed.

(** What a call leaves behind: everything but one entry and the inodes. *)
Definition done_with s F' p i y s' : Prop := sound s' F' /\ exists s1, calm s s1 /\ s' = set_file p i y s1.

Lemma sound_done s F' p i y s1 :
  steady s -> calm s s1 -> Z.of_nat (length F') < 2 ^ 20 -> counted (set_file p i y s1) L none -> tab_ok (set_file p i y s1) F' None ->
  done_with s F' p i y (set_file p i y s1).
Proof.
  intros Hs Hc Hl H1 H2. split; [|by exists s1]. split; [done|done| |done]. pose proof (calm_steady s s1 Hc Hs). done.
Qed.

Lemma wp_fd_close s F p i f (Q : () -> vfs X -> Prop) :
  sound s F -> roomy s -> file_of s p i = Some f -> status f = FD_OPENED ->
  (forall s', done_with s F p i (drop_file (set_status FD_CLOSED f)) s' -> roomy s' -> Q () s') -> wp (fd_array_close ops p i) Q s.
Proof.
  intros [H Ht Hst Hfew] Hlow Hf Hs HQ. pose proof (tab_file s F None p i f Ht Hf) as [B1 B2 _ _ _ B6]. pose proof (fly_nonneg F p i) as Hk.
  rewrite bool_decide_true in B2 by done. unfold b2z in B2.
  unfold fd_array_close. kstep. eapply wp_file_at; [exact Hf|]. kstep. kstep; [by apply bool_decide_eq_true|]. kstep. kstep; [apply Z.ltb_lt; lia|].
  kstep. eapply wp_file_upd; [exact Hf|]. set (g := set_status FD_CLOSED f).
  eapply (wp_drop s F None F p i f g (MAX_INODE_COUNT - 8)); try done; [|by right|by apply B6; left| |lia|].
  - eapply counted_same_holds; [done|exact Hf|]. intros n. rewrite !holds_live; [done|by left|by right].
  - unfold b2z. rewrite bool_decide_false by done. cbn. lia.
  - intros s1 Hc1 Hl1 H1 Ht1. apply HQ; [by apply sound_done|exact Hl1].
Qed.

Lemma fly_cons F F' p i q j : F ≡ₚ (p, i) :: F' -> fly F q j = fly F' q j + b2z (bool_decide ((q, j) = (p, i))).
Proof.
  intros HF. unfold fly. rewrite (count_perm _ _ _ HF), count_cons.
  rewrite (bool_decide_ext ((p, i) = (q, j)) ((q, j) = (p, i))) by (split; by intros ->). lia.
Qed.

Lemma wp_release s F F' p i f (Q : () -> vfs X -> Prop) :
  sound s F -> roomy s -> F ≡ₚ (p, i) :: F' -> file_of s p i = Some f ->
  (forall s', done_with s F' p i (drop_file f) s' -> Q () s') -> wp (fd_array_release ops p i) Q s.
Proof.
  intros [H Ht Hst Hfew] Hlow HF Hf HQ. pose proof (tab_file s F None p i f Ht Hf) as B. pose proof (fly_nonneg F p i) as Hk. pose proof (fly_nonneg F' p i) as Hk'.
  assert (Ek : fly F p i = fly F' p i + 1) by (rewrite (fly_cons F F' p i) by done; by rewrite bool_decide_true).
  pose proof (file_ok_live _ i f B ltac:(left; lia)) as Hlive. destruct B as [B1 B2 _ _ _ B6].
  assert (Hlen : length F = S (length F')) by (by rewrite HF).
  unfold fd_array_release. kstep. eapply wp_file_at; [exact Hf|]. kstep. kstep; [by apply bool_decide_eq_true|].
  kstep. kstep; [apply Z.ltb_lt; unfold b2z in B2; destruct (bool_decide _); lia|].
  rewrite <-(set_file_id s p i f Hf) at 1.
  eapply (wp_drop s F None F' p i f f (MAX_INODE_COUNT - 8)); try done; [by rewrite set_file_id| | |by apply B6|lia|lia|].
  - intros q j E. rewrite (fly_cons F F' p i) by done. rewrite bool_decide_false by done. split; [unfold b2z; lia|]. by apply bool_decide_eq_false.
  - intros q Hq. rewrite HF. by right.
  - intros s1 Hc1 Hl1 H1 Ht1. apply HQ. apply sound_done; [done|done|lia|done|done].
Qed.

Lemma wp_fd_acquire s F p i f (Q : () -> vfs X -> Prop) :
  sound s F -> Z.of_nat (length F) + 1 < 2 ^ 20 -> file_of s p i = Some f -> status f = FD_OPENED ->
  (forall s', done_with s ((p, i) :: F) p i (set_fopen_count (fopen_count f + 1) f) s' -> Q () s') -> wp (fd_array_acquire p i) Q s.
Proof.
  intros [H Ht Hst Hfew] Hl Hf Hs HQ. pose proof (tab_file s F None p i f Ht Hf) as B. pose proof (fly_nonneg F p i) as Hk.
  destruct B as [B1 B2 B3 B4 B5 B6]. rewrite bool_decide_true in B2 by done. unfold b2z in B2.
  unfold fd_array_acquire, fopen_count_inc. kstep. eapply wp_file_at; [exact Hf|]. kstep. kstep; [by apply bool_decide_eq_true|].
  eapply wp_file_upd; [exact Hf|]. rewrite swrap_small by lia. apply HQ.
  apply sound_done; [done|apply calm_id|cbn [length]; lia|by eapply counted_same_holds|].
  pose proof (fun q j => fly_cons ((p, i) :: F) F p i q j (reflexivity _)) as Hfc.
  eapply tab_set_file; [exact Ht|exact Hf| | |intros q j Hq; by apply elem_of_cons in Hq].
  - rewrite Hfc. rewrite (bool_decide_true ((p, i) = (p, i))) by done. split; cbn; try done.
    + rewrite bool_decide_true by done. unfold b2z. lia.
    + intros E. rewrite Hs in E. by destruct E.
    + rewrite Hs. done.
  - intros q j E. rewrite Hfc. rewrite bool_decide_false by done. split; [unfold b2z; lia|done].
Qed.

(** ** Descriptors of the current process *)

Definition open_fd s (n : Z) : option (nat * file) :=
  if testfd n then
    f ← file_of s (cur s) (Z.to_nat n);
    if bool_decide (status f = FD_OPENED) then Some (Z.to_nat n, f) else None
  else None.

Lemma testfd_range n : testfd n = true <-> 0 <= n < FILES_STRUCT_NENTRY.
Proof. unfold testfd. rewrite andb_true_iff, Z.leb_le, Z.ltb_lt. done. Qed.

Lemma tab_entry s F N t p i : tab_ok s F N -> tables s !! p = Some t -> (i < Z.to_nat FILES_STRUCT_NENTRY)%nat -> exists f, file_of s p i = Some f.
Proof.
  intros H Ht Hi. destruct (tk_len s F N H p t Ht) as [Hl _]. rewrite <-Hl in Hi. apply lookup_lt_is_Some in Hi as [f Hf].
  exists f. apply file_of_Some. by exists t.
Qed.

Lemma wp_fd2file s F N t n (Q : option nat -> vfs X -> Prop) :
  tab_ok s F N -> tables s !! cur s = Some t -> Q (fst <$> open_fd s n) s -> wp (fd2file n) Q s.
Proof.
  intros H Ht HQ. unfold fd2file, open_fd in *. destruct (testfd n) eqn:En; [|by kstep]. apply testfd_range in En.
  destruct (tab_entry s F N t (cur s) (Z.to_nat n) H Ht) as [f Hf]; [lia|]. pose proof (tab_file s F N _ _ f H Hf) as [B1 _ _ _ _ _].
  kstep. kstep. kstep. eapply wp_file_at; [exact Hf|]. kstep. rewrite Hf in HQ. cbn in HQ.
  destruct (decide (status f = FD_OPENED)) as [Hs|Hs].
  - rewrite bool_decide_true in HQ by done. rewrite bool_decide_true; [done|]. split; [done|lia].
  - rewrite bool_decide_false in HQ by done. rewrite bool_decide_false; [done|]. by intros [].
Qed.

Lemma open_fd_Some s n i f : open_fd s n = Some (i, f) -> file_of s (cur s) i = Some f /\ status f = FD_OPENED /\ i = Z.to_nat n.
Proof.
  unfold open_fd. destruct (testfd n); [|done]. destruct (file_of s (cur s) (Z.to_nat n)) as [g|] eqn:E; [|done]. cbn.
  destruct (decide (status g = FD_OPENED)); [rewrite bool_decide_true by done|by rewrite bool_decide_false by done]. by intros [= <- <-].
Qed.

(** What [file_close] and the end of a call do. *)
Lemma wp_file_close s F t n (Q : Z -> vfs X -> Prop) :
  sound s F -> roomy s -> tables s !! cur s = Some t ->
  (open_fd s n = None -> Q (- E_INVAL) s) ->
  (forall i f s', open_fd s n = Some (i, f) -> done_with s F (cur s) i (drop_file (set_status FD_CLOSED f)) s' -> Q 0 s') ->
  wp (file_close ops n) Q s.
Proof.
  intros H Hr Ht HN HQ. unfold file_close. kstep. eapply wp_fd2file; [apply H|exact Ht|].
  destruct (open_fd s n) as [[i f]|] eqn:E; cbn [fmap option_fmap option_map fst]; [|by apply wp_ret, HN].
  apply open_fd_Some in E as Ef. destruct Ef as (Hf&Hs&_).
  kstep. kstep. kstep. eapply wp_fd_close; [exact H|exact Hr|exact Hf|exact Hs|]. intros s' Hd _. kstep. by eapply HQ.
Qed.

Lemma wp_file_begin s F t n ok (Q : Z * nat -> vfs X -> Prop) :
  sound s F -> Z.of_nat (length F) + 1 < 2 ^ 20 -> tables s !! cur s = Some t ->
  ((forall i f, open_fd s n = Some (i, f) -> ok f = false) -> Q (- E_INVAL, O) s) ->
  (forall i f s', open_fd s n = Some (i, f) -> ok f = true -> done_with s ((cur s, i) :: F) (cur s) i (set_fopen_count (fopen_count f + 1) f) s' -> Q (0, i) s') ->
  wp (file_begin n ok) Q s.
Proof.
  intros H Hl Ht HN HQ. unfold file_begin. kstep. eapply wp_fd2file; [apply H|exact Ht|].
  destruct (open_fd s n) as [[i f]|] eqn:E; cbn [fmap option_fmap option_map fst]; [|by apply wp_ret, HN].
  apply open_fd_Some in E as Ef. destruct Ef as (Hf&Hs&_).
  kstep. kstep. kstep. eapply wp_file_at; [exact Hf|]. destruct (ok f) eqn:Eok; cbn [negb]; [|apply wp_ret, HN; congruence].
  kstep. eapply wp_fd_acquire; [exact H|exact Hl|exact Hf|exact Hs|]. intros s' Hd. kstep. by eapply HQ.
Qed.

(** ** The end of a call that was under way *)
Lemma sound_quiet s s1 F : sound s F -> quiet s s1 -> vl_ready s1 -> sound s1 F.
Proof.
  intros [A1 A2 A3 A4] Hq Hr. pose proof (quiet_calm _ _ Hq) as Hc. split; [by eapply counted_quiet|by eapply tab_calm|by eapply calm_steady|done].
Qed.

Lemma roomy_quiet s s1 : roomy s -> quiet s s1 -> roomy s1.
Proof. by intros H [e ->]. Qed.

Lemma done_quiet s s1 F' p i y s' : quiet s s1 -> done_with s1 F' p i y s' -> done_with s F' p i y s'.
Proof. intros Hq [H (s2&Hc&->)]. split; [done|]. exists s2. split; [|done]. eapply calm_comp; [by apply quiet_calm|done]. Qed.

(** An entry in use names an inode on which operations can be called. *)
Lemma sound_node s F p i f : sound s F -> roomy s -> file_of s p i = Some f -> status f = FD_OPENED \/ status f = FD_CLOSED ->
  exists x, inodes s !! node f = Some x /\ ref_count x < MAX_INODE_COUNT.
Proof.
  intros [H Ht _ _] Hr Hf Hs. pose proof (fo_node _ _ _ _ (tab_file s F None p i f Ht Hf) Hs) as Hn. pose proof (live_need s p i f Hf Hs).
  pose proof (opens_need s (node f)). pose proof (leak_pos s (node f) H) as HLn. destruct (counted_alive _ _ _ _ _ _ H Hn) as (x&Hx&_); [lia|].
  exists x. split; [done|]. specialize (Hr _ x Hx). unfold MAX_INODE_COUNT in *. lia.
Qed.

Lemma under_way s F F' p i f : sound s F -> F ≡ₚ (p, i) :: F' -> file_of s p i = Some f -> status f = FD_OPENED \/ status f = FD_CLOSED.
Proof.
  intros [_ Ht _ _] HF Hf. pose proof (tab_file s F None p i f Ht Hf) as B. apply (file_ok_live _ i f B). left.
  pose proof (fly_nonneg F' p i). rewrite (fly_cons F F' p i p i HF), bool_decide_true by done. unfold b2z. lia.
Qed.

Lemma sound_pos s F p i f v : sound s F -> file_of s p i = Some f -> sound (set_file p i (set_pos v f) s) F.
Proof.
  intros [H Ht Hst Hfew] Hf. pose proof (tab_file s F None p i f Ht Hf) as [B1 B2 B3 B4 B5 B6].
  split; [by eapply counted_same_holds| |done|done]. by eapply tab_set_file; [exact Ht|exact Hf| | |by right].
Qed.

(** The new position, then the release. *)
Lemma wp_advance s F F' p i f v (Q : () -> vfs X -> Prop) :
  sound s F -> roomy s -> F ≡ₚ (p, i) :: F' -> file_of s p i = Some f ->
  (forall s', done_with s F' p i (drop_file (if decide (status f = FD_OPENED) then set_pos (v f) f else f)) s' -> Q () s') ->
  wp (when (bool_decide (status f = FD_OPENED)) (file_upd p i (fun f => set_pos (v f) f));; fd_array_release ops p i) Q s.
Proof.
  intros H Hr HF Hf HQ. kstep. destruct (decide (status f = FD_OPENED)) as [Hs|Hs].
  - rewrite bool_decide_true by done. cbn [when]. eapply wp_file_upd; [exact Hf|]. set (g := set_pos (v f) f) in *.
    eapply (wp_release _ F F' p i g); [by apply sound_pos|done|done|by rewrite (file_of_set s p i g f), decide_True by done|].
    intros s' [Hd (s1&Hc&->)]. apply HQ. split; [done|]. destruct (calm_set_file_back _ _ _ _ _ Hc) as (s2&Hc2&->).
    exists s2. split; [done|]. by rewrite set_file_twice.
  - rewrite bool_decide_false by done. cbn [when]. kstep. by eapply wp_release.
Qed.

(** The entry after a transfer of [copied] bytes, without the use by the call. *)
Definition moved (f : file) (copied : Z) : file := drop_file (if decide (status f = FD_OPENED) then set_pos (s64 (pos f + copied)) f else f).

Lemma wp_read_end s F F' p i f x g iob (Q : Z * Z -> vfs X -> Prop) :
  sound s F -> roomy s -> F ≡ₚ (p, i) :: F' -> file_of s p i = Some f -> inodes s !! node f = Some x -> op_read (ops (in_ops x)) = Some g ->
  (forall r copied s', done_with s F' p i (moved f copied) s' -> Q (r, copied) s') -> wp (file_io_end ops false p i iob) Q s.
Proof.
  intros H Hr HF Hf Hx Hg HQ. pose proof (under_way s F F' p i f H HF Hf) as Hs. destruct (sound_node s F p i f H Hr Hf Hs) as (x'&Hx'&Hmax).
  assert (x' = x) as -> by congruence. unfold file_io_end. kstep. eapply wp_file_at; [exact Hf|]. kstep. unfold vop_read. kstep.
  eapply wp_vop; [apply H|exact Hx|exact Hmax|exact Hg|]. eapply wp_mono; [eapply vl_read; [apply H|exact Hx|exact Hg]|].
  intros [r iob'] s1 [Hq Hready]. cbv beta iota zeta. assert (Hf1 : file_of s1 p i = Some f) by (by rewrite (calm_file_of s s1 p i (quiet_calm _ _ Hq))).
  kstep. eapply wp_file_at; [exact Hf1|]. apply wp_assoc.
  eapply (wp_advance s1 F F' p i f (fun f => s64 (pos f + iobuf_used iob'))); [by eapply sound_quiet|by eapply roomy_quiet|done|exact Hf1|].
  intros s' Hd. kstep. apply HQ. by eapply done_quiet.
Qed.

Lemma wlp_vop_call {Fn A} (op : inode_ops X -> option Fn) (call : Fn -> K (vfs X) A) s F n x (Q : A -> vfs X -> Prop) :
  sound s F -> inodes s !! n = Some x -> ref_count x < MAX_INODE_COUNT ->
  (forall g, op (ops (in_ops x)) = Some g -> wlp (call g) (fun _ s' => quiet s s' /\ vl_ready s') s) ->
  (forall r s', quiet s s' -> vl_ready s' -> Q r s') -> wlp (f ← vop ops op n; call f) Q s.
Proof.
  intros H Hx Hmax Hlaw HQ. lstep. eapply wlp_vop; [apply H|exact Hx|exact Hmax|]. intros g Hg.
  eapply wlp_mono; [by apply Hlaw|]. intros r s' [Hq Hr]. by apply HQ.
Qed.

Lemma wlp_io_end s F F' p i f write iob (Q : Z * Z -> vfs X -> Prop) :
  sound s F -> roomy s -> F ≡ₚ (p, i) :: F' -> file_of s p i = Some f ->
  (forall r copied s', done_with s F' p i (moved f copied) s' -> Q (r, copied) s') -> wlp (file_io_end ops write p i iob) Q s.
Proof.
  intros H Hr HF Hf HQ. pose proof (under_way s F F' p i f H HF Hf) as Hs. destruct (sound_node s F p i f H Hr Hf Hs) as (x&Hx&Hmax).
  unfold file_io_end. apply wlp_bind_wp. eapply wp_file_at; [exact Hf|]. lstep.
  assert (Htail : forall r iob' s1, quiet s s1 -> vl_ready s1 ->
    wlp (let copied := iobuf_used iob' in f ← file_at p i; when (bool_decide (status f = FD_OPENED)) (file_upd p i (fun f => set_pos (s64 (pos f + copied)) f));;
         fd_array_release ops p i;; mret (r, copied)) Q s1).
  { intros r iob' s1 Hq Hready. cbv zeta. assert (Hf1 : file_of s1 p i = Some f) by (by rewrite (calm_file_of s s1 p i (quiet_calm _ _ Hq))).
    apply wlp_bind_wp. eapply wp_file_at; [exact Hf1|]. apply wp_wlp, wp_assoc.
    eapply (wp_advance s1 F F' p i f (fun f => s64 (pos f + iobuf_used iob'))); [by eapply sound_quiet|by eapply roomy_quiet|done|exact Hf1|].
    intros s' Hd. kstep. apply HQ. by eapply done_quiet. }
  destruct write.
  - unfold vop_write. eapply (wlp_vop_call op_write (fun g => g (node f) iob) s F); [exact H|exact Hx|exact Hmax| |intros [r iob'] s1 Hq Hready; by apply Htail].
    intros g Hg. eapply vl_write; [apply H|exact Hx|exact Hg].
  - unfold vop_read. eapply (wlp_vop_call op_read (fun g => g (node f) iob) s F); [exact H|exact Hx|exact Hmax| |intros [r iob'] s1 Hq Hready; by apply Htail].
    intros g Hg. apply wp_wlp. eapply vl_read; [apply H|exact Hx|exact Hg].
Qed.

(** The calls that only release. *)
Lemma wlp_end_quiet {A B} (m : K (vfs X) A) (k : A -> B) s F F' p i f (Q : B -> vfs X -> Prop) :
  sound s F -> roomy s -> F ≡ₚ (p, i) :: F' -> file_of s p i = Some f ->
  (forall Q' : A -> vfs X -> Prop, (forall r s1, quiet s s1 -> vl_ready s1 -> Q' r s1) -> wlp m Q' s) ->
  (forall r s', done_with s F' p i (drop_file f) s' -> Q (k r) s') -> wlp (r ← m; fd_array_release ops p i;; mret (k r)) Q s.
Proof.
  intros H Hr HF Hf Hm HQ. lstep. apply Hm. intros r s1 Hq Hready.
  apply wp_wlp. kstep. eapply (wp_release s1 F F' p i f); [by eapply sound_quiet|by eapply roomy_quiet|done|by rewrite (calm_file_of s s1 p i (quiet_calm _ _ Hq))|].
  intros s' Hd. kstep. apply HQ. by eapply done_quiet.
Qed.

Lemma wlp_fstat s F n x (Q : Z * stat -> vfs X -> Prop) :
  sound s F -> inodes s !! n = Some x -> ref_count x < MAX_INODE_COUNT -> (forall r s1, quiet s s1 -> vl_ready s1 -> Q r s1) -> wlp (vop_fstat ops n) Q s.
Proof.
  intros H Hx Hmax HQ. unfold vop_fstat. eapply (wlp_vop_call op_fstat (fun g => g n) s F); [exact H|exact Hx|exact Hmax| |exact HQ].
  intros g Hg. apply wp_wlp. destruct (vl_fstat _ _ s n x (co_ready _ _ _ _ _ (so_counted _ _ H)) Hx (counted_open _ _ _ _ _ _ _ (so_counted _ _ H) Hx) Hmax) as (g'&Hg'&Hwp). assert (g = g') as -> by congruence. eapply wp_mono; [exact Hwp|]. by intros r s1 [_ Hr].
Qed.

Lemma wlp_fstat_end s F F' p i f (Q : Z * stat -> vfs X -> Prop) :
  sound s F -> roomy s -> F ≡ₚ (p, i) :: F' -> file_of s p i = Some f ->
  (forall r s', done_with s F' p i (drop_file f) s' -> Q r s') -> wlp (file_fstat_end ops p i) Q s.
Proof.
  intros H Hr HF Hf HQ. destruct (sound_node s F p i f H Hr Hf (under_way s F F' p i f H HF Hf)) as (x&Hx&Hmax).
  unfold file_fstat_end. apply wlp_bind_wp. eapply wp_file_at; [exact Hf|].
  eapply (wlp_end_quiet _ (fun r => r) s F F' p i f); [done..| |done]. intros Q' HQ'. by eapply wlp_fstat.
Qed.

Lemma wlp_fsync_end s F F' p i f (Q : Z -> vfs X -> Prop) :
  sound s F -> roomy s -> F ≡ₚ (p, i) :: F' -> file_of s p i = Some f ->
  (forall r s', done_with s F' p i (drop_file f) s' -> Q r s') -> wlp (file_fsync_end ops p i) Q s.
Proof.
  intros H Hr HF Hf HQ. destruct (sound_node s F p i f H Hr Hf (under_way s F F' p i f H HF Hf)) as (x&Hx&Hmax).
  unfold file_fsync_end. apply wlp_bind_wp. eapply wp_file_at; [exact Hf|].
  eapply (wlp_end_quiet _ (fun r => r) s F F' p i f); [done..| |done]. intros Q' HQ'.
  unfold vop_fsync. eapply (wlp_vop_call op_fsync (fun g => g (node f)) s F); [exact H|exact Hx|exact Hmax| |exact HQ'].
  intros g Hg. eapply vl_fsync; [apply H|exact Hx|exact Hg].
Qed.

Lemma wlp_getdirentry_end s F F' p i f base offset (Q : Z * Z -> vfs X -> Prop) :
  sound s F -> roomy s -> F ≡ₚ (p, i) :: F' -> file_of s p i = Some f ->
  (forall r s', done_with s F' p i (drop_file f) s' -> Q r s') -> wlp (file_getdirentry_end ops p i base offset) Q s.
Proof.
  intros H Hr HF Hf HQ. destruct (sound_node s F p i f H Hr Hf (under_way s F F' p i f H HF Hf)) as (x&Hx&Hmax).
  unfold file_getdirentry_end. apply wlp_bind_wp. eapply wp_file_at; [exact Hf|]. lstep. unfold vop_getdirentry.
  eapply (wlp_vop_call op_getdirentry (fun g => g (node f) _) s F); [exact H|exact Hx|exact Hmax| |].
  - intros g Hg. eapply vl_getdirentry; [apply H|exact Hx|exact Hg].
  - intros [r iob] s1 Hq Hready. apply wp_wlp. kstep. eapply (wp_release s1 F F' p i f); [by eapply sound_quiet|by eapply roomy_quiet|done|by rewrite (calm_file_of s s1 p i (quiet_calm _ _ Hq))|].
    intros s' Hd. kstep. apply HQ. by eapply done_quiet.
Qed.

Lemma wlp_seek_end s F F' p i f off whence (Q : Z -> vfs X -> Prop) :
  sound s F -> roomy s -> F ≡ₚ (p, i) :: F' -> file_of s p i = Some f ->
  (forall r s' v, done_with s F' p i (drop_file (set_pos v f)) s' -> Q r s') -> wlp (file_seek_end ops p i off whence) Q s.
Proof.
  intros H Hr HF Hf HQ. destruct (sound_node s F p i f H Hr Hf (under_way s F F' p i f H HF Hf)) as (x&Hx&Hmax).
  unfold file_seek_end. apply wlp_bind_wp. eapply wp_file_at; [exact Hf|].
  assert (Hid : set_pos (pos f) f = f) by (by destruct f).
  assert (Htail : forall r off' s1, quiet s s1 -> vl_ready s1 ->
    wlp (ret ← (if bool_decide (r = 0) then ret ← vop_tryseek ops (node f) off'; when (bool_decide (ret = 0)) (file_upd p i (set_pos off'));; mret ret else mret r);
         fd_array_release ops p i;; mret ret) Q s1).
  { intros r off' s1 Hq Hready. pose proof (sound_quiet s s1 F H Hq Hready) as H1. pose proof (roomy_quiet s s1 Hr Hq) as Hr1.
    assert (Hf1 : file_of s1 p i = Some f) by (by rewrite (calm_file_of s s1 p i (quiet_calm _ _ Hq))).
    assert (Hend : forall r s2 v, quiet s s2 -> vl_ready s2 -> wp (fd_array_release ops p i;; mret r) Q (set_file p i (set_pos v f) s2)).
    { intros r2 s2 v Hq2 Hready2. assert (Hf2 : file_of s2 p i = Some f) by (by rewrite (calm_file_of s s2 p i (quiet_calm _ _ Hq2))).
      kstep. eapply (wp_release _ F F' p i (set_pos v f)); [eapply sound_pos; [exact (sound_quiet s s2 F H Hq2 Hready2)|exact Hf2]|exact (roomy_quiet s s2 Hr Hq2)|done|
        by rewrite (file_of_set s2 p i _ f), decide_True by done|]. intros s' [Hd (s3&Hc&->)]. kstep. apply (HQ r2 _ v). split; [done|].
      destruct (calm_set_file_back _ _ _ _ _ Hc) as (s4&Hc2&->). exists s4. split; [eapply calm_comp; [by apply quiet_calm|done]|by rewrite set_file_twice]. }
    assert (Hsame : forall s2, quiet s s2 -> set_file p i (set_pos (pos f) f) s2 = s2).
    { intros s2 Hq2. rewrite Hid. apply set_file_id. by rewrite (calm_file_of s s2 p i (quiet_calm _ _ Hq2)). }
    lstep. destruct (decide (r = 0)) as [->|Hr0].
    - rewrite bool_decide_true by done. lstep. unfold vop_tryseek.
      assert (Hx1 : inodes s1 !! node f = Some x) by (by destruct Hq as [e ->]).
      eapply (wlp_vop_call op_tryseek (fun g => g (node f) off') s1 F); [exact H1|exact Hx1|exact Hmax|intros g Hg; eapply vl_tryseek; [apply H1|exact Hx1|exact Hg]|].
      intros r2 s2 Hq2 Hready2. assert (Hq02 : quiet s s2) by (destruct Hq as [e ->], Hq2 as [e' ->]; by exists e').
      apply wp_wlp. kstep. destruct (decide (r2 = 0)) as [->|Hr2].
      + rewrite bool_decide_true by done. cbn [when].
        eapply wp_file_upd; [by rewrite (calm_file_of s s2 p i (quiet_calm _ _ Hq02))|]. kstep. apply wp_wlp; by apply Hend.
      + rewrite bool_decide_false by done. cbn [when]. kstep. kstep. rewrite <-(Hsame s2 Hq02). apply wp_wlp; by apply Hend.
    - rewrite bool_decide_false by done. lstep. apply wp_wlp. rewrite <-(Hsame s1 Hq). by apply Hend. }
  assert (Hq0 : quiet s s) by (exists (ext s); by destruct s). assert (Hready0 : vl_ready s) by apply H.
  lstep. destruct (bool_decide (whence = LSEEK_SET)); [lstep; by apply Htail|].
  destruct (bool_decide (whence = LSEEK_CUR)); [lstep; by apply Htail|].
  destruct (bool_decide (whence = LSEEK_END)); [|lstep; by apply Htail].
  lstep. eapply wlp_fstat; [exact H|exact Hx|exact Hmax|]. intros [r st] s1 Hq Hready. lstep. by apply Htail.
Qed.
End spec.
