(* ===== verification/FilesOpen.v ===== *)
(** Descriptors that come: [file_open] and [file_dup], on the invariant of
    [FilesSpec]. *)
From S2P Require Import Prelude Iobuf Vfs VfsSpec Files FilesSpec.
#[local] Abbreviation length := Datatypes.length.

Section opening.
Context {X : Type} (ops : Z -> inode_ops X) (fops : fs_ops X) {HL : VopLaws ops fops}.
Implicit Types (s : vfs X) (F : list (Z * nat)).
Abbreviation counted := (counted ops fops).
Context (L : Z -> Z).
Abbreviation sound := (sound ops fops L).
Abbreviation done_with := (done_with ops fops L).

(** An entry is being opened. *)
Record half s F (p : Z) (i : nat) : Prop := {
  ha_counted : counted s L none;
  ha_tab : tab_ok s F (Some (p, i));
  ha_steady : steady s;
  ha_few : Z.of_nat (length F) < 2 ^ 20;
}.

Definition fresh (f : file) : file := set_node 0 (set_status FD_INIT f).

Lemma half_init s F p i f y : sound s F -> file_of s p i = Some f -> status f = FD_NONE ->
  status y = FD_INIT -> fd y = fd f -> fopen_count y = fopen_count f -> half (set_file p i y s) F p i.
Proof.
  intros [H Ht Hst Hfew] Hf Hs Hy E1 E2. pose proof (tab_file s F None p i f Ht Hf) as [B1 B2 _ B4 _ _]. specialize (B4 (or_introl Hs)).
  rewrite bool_decide_false in B2 by congruence. unfold b2z in B2. split; [| |done|done].
  - eapply counted_same_holds; [done|exact Hf|]. intros n. rewrite !holds_idle; [done|by left|by right].
  - eapply tab_set_file; [exact Ht|exact Hf| | |by right].
    + rewrite (bool_decide_true (Some (p, i) = Some (p, i))) by done. rewrite B4 in *. split; rewrite ?Hy, ?E1, ?E2; try done. by intros [|].
    + intros q j E. split; [done|]. rewrite (bool_decide_false (Some (p, i) = Some (q, j))) by (intros [= <- <-]; by destruct E). done.
Qed.

Lemma half_fresh s F p i f : sound s F -> file_of s p i = Some f -> status f = FD_NONE -> half (set_file p i (fresh f) s) F p i.
Proof. intros H Hf Hs. by eapply half_init. Qed.

Lemma fresh_of s p i f : file_of s p i = Some f -> file_of (set_file p i (fresh f) s) p i = Some (fresh f).
Proof. intros Hf. rewrite (file_of_set s p i _ f) by done. by rewrite decide_True. Qed.

Lemma wp_get_fd_array s t (Q : list file -> vfs X -> Prop) : tables s !! cur s = Some t -> Q (fd_array t) s -> wp get_fd_array Q s.
Proof. intros Ht HQ. unfold get_fd_array. kstep. kstep. kstep. eapply wp_files_at; [exact Ht|]. by kstep. Qed.

(** An entry that [fd_array_alloc] finds. *)
Lemma wp_found s F p i f (Q : Z * nat -> vfs X -> Prop) :
  sound s F -> file_of s p i = Some f -> status f = FD_NONE -> Q (0, i) (set_file p i (fresh f) s) ->
  wp (f ← file_at p i; assert (bool_decide (fopen_count f = 0));; file_upd p i (fun f => set_node 0 (set_status FD_INIT f));; mret (0, i)) Q s.
Proof.
  intros H Hf Hs HQ. pose proof (tab_file s F None p i f (so_tab _ _ _ _ _ H) Hf) as [_ B2 _ B4 _ _]. specialize (B4 (or_introl Hs)).
  rewrite bool_decide_false in B2 by congruence. unfold b2z in B2.
  kstep. eapply wp_file_at; [exact Hf|]. kstep. kstep; [apply bool_decide_eq_true; lia|]. kstep. eapply wp_file_upd; [exact Hf|]. by kstep.
Qed.

(** Which entry a request gets, or why it gets none. *)
Definition first_free s (p : Z) (i : nat) : Prop := forall j f, (j < i)%nat -> file_of s p j = Some f -> status f <> FD_NONE.

Lemma wp_fd_array_alloc s F t n (Q : Z * nat -> vfs X -> Prop) :
  sound s F -> tables s !! cur s = Some t ->
  (forall i f, file_of s (cur s) i = Some f -> status f = FD_NONE -> (n = NO_FD -> first_free s (cur s) i) -> (n <> NO_FD -> i = Z.to_nat n) ->
     Q (0, i) (set_file (cur s) i (fresh f) s)) ->
  (n = NO_FD -> (forall i f, file_of s (cur s) i = Some f -> status f <> FD_NONE) -> Q (- E_MAX_OPEN, O) s) ->
  (n <> NO_FD -> forall r, r = - E_BUSY \/ r = - E_INVAL -> Q (r, O) s) ->
  wp (fd_array_alloc n) Q s.
Proof.
  intros H Ht HQ HN HE. unfold fd_array_alloc. kstep. kstep. kstep. eapply wp_get_fd_array; [exact Ht|]. cbv zeta.
  assert (Hfo : forall i, file_of s (cur s) i = fd_array t !! i) by (intros i; unfold file_of; by rewrite Ht).
  destruct (decide (n = NO_FD)) as [En|En].
  - rewrite bool_decide_true by done. destruct (list_find _ (fd_array t)) as [[i f]|] eqn:El.
    + apply list_find_Some in El as (Hi&Hs&Hmin). eapply (wp_found s F (cur s) i f); [done|by rewrite Hfo|done|].
      apply HQ; [by rewrite Hfo|done| |done]. intros _ j g Hj Hg. rewrite Hfo in Hg. by eapply Hmin.
    + apply wp_ret, HN; [done|]. intros i f Hf Hs. rewrite Hfo in Hf. apply list_find_None in El. rewrite Forall_lookup in El. by eapply El.
  - rewrite bool_decide_false by done. destruct (testfd n) eqn:Er; [|apply wp_ret; apply HE; [done|by right]]. apply testfd_range in Er.
    destruct (tab_entry s F None t (cur s) (Z.to_nat n) (so_tab _ _ _ _ _ H) Ht) as [f Hf]; [lia|].
    kstep. eapply wp_file_at; [exact Hf|]. destruct (decide (status f = FD_NONE)) as [Hs|Hs].
    + rewrite bool_decide_true by done. eapply (wp_found s F); [done|exact Hf|done|]. by apply HQ.
    + rewrite bool_decide_false by done. apply wp_ret, HE; [done|by left].
Qed.

(** The opening is given up. *)
Lemma wp_free_init s F p i f (Q : () -> vfs X -> Prop) :
  half s F p i -> file_of s p i = Some f -> status f = FD_INIT ->
  (sound (set_file p i (set_status FD_NONE f) s) F -> Q () (set_file p i (set_status FD_NONE f) s)) -> wp (fd_array_free ops p i) Q s.
Proof.
  intros [H Ht Hst Hfew] Hf Hs HQ. pose proof (tab_file s F _ p i f Ht Hf) as [B1 B2 _ B4 _ _]. specialize (B4 (or_intror Hs)).
  rewrite bool_decide_false in B2 by congruence. unfold b2z in B2. unfold fd_array_free. kstep. eapply wp_file_at; [exact Hf|].
  kstep. kstep; [apply bool_decide_eq_true; by left|]. kstep. kstep; [apply bool_decide_eq_true; lia|].
  rewrite bool_decide_false by congruence. cbn [when]. kstep. kstep. eapply wp_file_upd; [exact Hf|]. apply HQ. split; [| |done|done].
  - eapply counted_same_holds; [done|exact Hf|]. intros n. rewrite !holds_idle; [done|by right|by left].
  - eapply tab_set_file; [exact Ht|exact Hf| | |by right].
    + rewrite B4 in *. split; cbn; try done. by intros [|].
    + intros q j E. split; [done|]. rewrite (bool_decide_false (Some (p, i) = Some (q, j))) by (intros [= <- <-]; by destruct E). done.
Qed.

(** The entry takes over the reference and the opening of the call. *)
Lemma wp_fd_array_open s F p i f (Q : () -> vfs X -> Prop) :
  counted s (add (node f) 1 L) (add (node f) 1 none) -> tab_ok s F (Some (p, i)) -> steady s -> Z.of_nat (length F) < 2 ^ 20 ->
  file_of s p i = Some f -> node f <> 0 ->
  (let y := set_fopen_count 1 (set_status FD_OPENED f) in sound (set_file p i y s) F -> Q () (set_file p i y s)) -> wp (fd_array_open p i) Q s.
Proof.
  intros H Ht Hst Hfew Hf Hn HQ. pose proof (tab_file s F _ p i f Ht Hf) as [B1 B2 B3 B4 _ _].
  rewrite (bool_decide_true (Some (p, i) = Some (p, i))) in B3 by done. assert (Hs : status f = FD_INIT) by (by apply B3). specialize (B4 (or_intror Hs)).
  rewrite bool_decide_false in B2 by congruence. unfold b2z in B2.
  unfold fd_array_open, fopen_count_inc. kstep. eapply wp_file_at; [exact Hf|]. kstep. kstep; [by apply bool_decide_eq_true|].
  kstep. eapply wp_file_upd; [exact Hf|]. eapply wp_file_upd; [by rewrite (file_of_set s p i _ f), decide_True by done|].
  rewrite set_file_twice. cbn [fopen_count set_status]. rewrite B2, B4. change (s32 (0 + 0 + 1)) with 1. apply HQ. split; [| |done|done].
  - eapply counted_set_file; [exact H|exact Hf|..]; intros n; rewrite (holds_idle f) by (by right); rewrite holds_live by (by left); unfold add, none; cbn;
      (destruct (decide (n = node f)) as [->|]; [rewrite bool_decide_true by done; cbn; lia|rewrite bool_decide_false by done; cbn; lia]).
  - eapply tab_set_file; [exact Ht|exact Hf| | |by right].
    + rewrite B4. split; cbn; try done.
    + intros q j E. split; [done|]. rewrite (bool_decide_false (Some (p, i) = Some (q, j))) by (intros [= <- <-]; by destruct E). done.
Qed.
(** ** [file_open] *)
Lemma table_set_file s p i y t : tables s !! p = Some t ->
  tables (set_file p i y s) !! p = Some (set_fd_array (<[i := y]> (fd_array t)) t).
Proof. intros Ht. unfold set_file. cbn. by rewrite lookup_alter_eq, Ht. Qed.

Lemma roomy_ctx s : counted s L none -> roomy s -> ctx ops fops s L none (MAX_INODE_COUNT - 8).
Proof. intros H Hr. split; [done|done|unfold MAX_INODE_COUNT; lia|intros n; by eapply leak_pos]. Qed.

(** The entry is free again. *)
Definition given_up s F p i s' : Prop := exists y, status y = FD_NONE /\ done_with s F p i y s'.

Lemma wp_give_up s0 s F p i f (r : Z) (Q : Z -> vfs X -> Prop) s1 :
  calm s0 s1 -> s = set_file p i f s1 -> half s F p i -> file_of s0 p i <> None -> status f = FD_INIT ->
  (forall s', given_up s0 F p i s' -> Q r s') -> wp (fd_array_free ops p i;; mret r) Q s.
Proof.
  intros Hc -> H Hf0 Hs HQ. destruct (file_of s0 p i) as [f0|] eqn:E; [|done].
  assert (Hf : file_of (set_file p i f s1) p i = Some f) by (rewrite (file_of_set s1 p i f f0) by (by rewrite (calm_file_of s0 s1)); by rewrite decide_True).
  kstep. eapply wp_free_init; [exact H|exact Hf|exact Hs|]. intros Hsound. kstep. apply HQ. exists (set_status FD_NONE f). split; [done|].
  split; [done|]. exists s1. split; [done|]. by rewrite set_file_twice.
Qed.

Lemma counted_init s R O p i f y : counted s R O -> file_of s p i = Some f -> status f = FD_INIT -> status y = FD_INIT -> counted (set_file p i y s) R O.
Proof. intros H Hf Hs Hy. eapply counted_set_file; [exact H|exact Hf|..]; intros n; by rewrite !holds_idle by (by right). Qed.

Lemma tab_init s F p i f y : tab_ok s F (Some (p, i)) -> file_of s p i = Some f -> status f = FD_INIT ->
  status y = FD_INIT -> fd y = fd f -> fopen_count y = fopen_count f -> tab_ok (set_file p i y s) F (Some (p, i)).
Proof.
  intros Ht Hf Hs Hy E1 E2. pose proof (tab_file s F _ p i f Ht Hf) as [B1 B2 B3 B4 _ _]. eapply tab_set_file; [exact Ht|exact Hf| |done|by right].
  rewrite Hs in *. split; rewrite ?Hy; try done; [by rewrite E1|by rewrite E2|by intros [|]].
Qed.
(** What is known of the entry while the file behind it is opened. *)
Record opening s F p i g n s' : Prop := {
  op_back : exists s1, calm s s1 /\ s' = set_file p i g s1;
  op_init : status g = FD_INIT;
  op_fd : fd g = Z.of_nat i;
  op_tab : tab_ok s' F (Some (p, i));
  op_steady : steady s';
  op_low : low s' (MAX_INODE_COUNT - 2);
  op_node : n <> 0;
  op_counted : counted s' (add n 1 L) (add n 1 none);
}.

Lemma opening_file s F p i g n s' f0 : opening s F p i g n s' -> file_of s p i = Some f0 -> file_of s' p i = Some g.
Proof. intros [(s1&Hc&->) _ _ _ _ _ _ _] Hf. rewrite (file_of_set s1 p i g f0) by (by rewrite (calm_file_of s s1)). by rewrite decide_True. Qed.

Lemma opening_upd s F p i g n s' f0 y : opening s F p i g n s' -> file_of s p i = Some f0 -> status y = FD_INIT -> fd y = fd g -> fopen_count y = fopen_count g ->
  opening s F p i y n (set_file p i y s').
Proof.
  intros H Hf Hy E1 E2. pose proof (opening_file _ _ _ _ _ _ _ _ H Hf) as Hg. destruct H as [(s1&Hc&->) A2 A3 A4 A5 A6 A7 A8].
  split; try done; [exists s1; split; [done|by rewrite set_file_twice]|congruence|by eapply tab_init|by eapply counted_init].
Qed.

Lemma opening_quiet s F p i g n s' s2 : opening s F p i g n s' -> quiet s' s2 -> vl_ready ops fops s2 -> opening s F p i g n s2.
Proof.
  intros [(s1&Hc&->) A2 A3 A4 A5 A6 A7 A8] Hq Hr. pose proof (quiet_calm _ _ Hq) as Hc2. split; try done.
  - destruct (calm_set_file_back _ _ _ _ _ Hc2) as (s3&Hc3&->). exists s3. split; [by eapply calm_comp|done].
  - by eapply tab_calm.
  - by eapply calm_steady.
  - by destruct Hq as [e ->].
  - by eapply counted_quiet.
Qed.

Lemma wp_open_done s F p i g n s' f0 r w size (Q : Z -> vfs X -> Prop) :
  opening s F p i g n s' -> file_of s p i = Some f0 -> Z.of_nat (length F) < 2 ^ 20 ->
  (forall s2, done_with s F p i (mk_file FD_OPENED r w (Z.of_nat i) size n 1) s2 -> Q (Z.of_nat i) s2) ->
  wp (file_upd p i (fun f => mk_file (status f) r w (fd f) size n (fopen_count f));; fd_array_open p i;; f ← file_at p i; mret (fd f)) Q s'.
Proof.
  intros H Hf Hfew HQ. pose proof (opening_file _ _ _ _ _ _ _ _ H Hf) as Hg. kstep. eapply wp_file_upd; [exact Hg|].
  set (y := mk_file _ _ _ _ _ _ _). pose proof (opening_upd _ _ _ _ _ _ _ _ y H Hf (op_init _ _ _ _ _ _ _ H) eq_refl eq_refl) as Hy.
  assert (Hyf : file_of (set_file p i y s') p i = Some y) by (by eapply opening_file).
  kstep. eapply (wp_fd_array_open _ F p i y); [exact (op_counted _ _ _ _ _ _ _ Hy)|exact (op_tab _ _ _ _ _ _ _ Hy)|exact (op_steady _ _ _ _ _ _ _ Hy)|done|exact Hyf|exact (op_node _ _ _ _ _ _ _ Hy)|].
  cbv zeta. set (z := set_fopen_count _ _). intros Hs. kstep. eapply wp_file_at; [by rewrite (file_of_set _ p i z y), decide_True by done|].
  kstep. destruct Hy as [(s1&Hc&E) _ Efd _ _ _ _ _]. rewrite E in Hs |- *. rewrite set_file_twice in Hs |- *. cbn [fd z set_fopen_count set_status].
  rewrite Efd. apply HQ. assert (z = mk_file FD_OPENED r w (Z.of_nat i) size n 1) as Ez.
  { cbn in Efd. subst z y. unfold set_fopen_count, set_status. cbn. by rewrite Efd. }
  rewrite Ez in Hs |- *. split; [done|by exists s1].
Qed.

(** Everything that was taken is given back. *)
Lemma wp_open_undone s F p i g n s' f0 r (Q : Z -> vfs X -> Prop) :
  opening s F p i g n s' -> file_of s p i = Some f0 -> Z.of_nat (length F) < 2 ^ 20 -> (forall s2, given_up s F p i s2 -> Q r s2) ->
  wp (vfs_close ops n;; fd_array_free ops p i;; mret r) Q s'.
Proof.
  intros [(s1&Hc&->) A2 A3 A4 A5 A6 A7 A8] Hf Hfew HQ. pose proof (opens_need (set_file p i g s1) n) as Hon. pose proof (opens_nonneg (set_file p i g s1) n) as Hop.
  pose proof (co_le _ _ _ _ _ A8 n) as Hle. rewrite !add_eq in Hle. kstep. eapply wp_vfs_close; [exact A8|exact A6|unfold MAX_INODE_COUNT; lia|done|rewrite add_eq; unfold none in *; lia|rewrite add_eq; unfold none in *; lia|].
  intros s2 H2 Hl2 Hc2. destruct (calm_set_file_back _ _ _ _ _ Hc2) as (s3&Hc3&->).
  assert (H3 : counted (set_file p i g s3) L none) by (eapply counted_ext; [exact H2|intros k; by rewrite add_back1|intros k; by rewrite add_back1]).
  eapply (wp_give_up s _ F p i g r Q s3); [by eapply calm_comp|done| |by rewrite Hf|done|done].
  split; [done|by eapply tab_calm|by eapply calm_steady|done].
Qed.

Lemma wp_opening_fstat s F p i g n s' (Q : Z * stat -> vfs X -> Prop) :
  opening s F p i g n s' -> (forall r s2, r.1 <= 0 -> opening s F p i g n s2 -> Q r s2) -> wp (vop_fstat ops n) Q s'.
Proof.
  intros H HQ. pose proof (op_counted _ _ _ _ _ _ _ H) as A8. pose proof (op_node _ _ _ _ _ _ _ H) as A7.
  pose proof (opens_need s' n) as Hon. pose proof (opens_nonneg s' n) as Hop. pose proof (co_le _ _ _ _ _ A8 n) as Hle. rewrite !add_eq in Hle.
  destruct (counted_alive _ _ _ _ _ n A8 A7) as (x&Hx&_); [rewrite add_eq; unfold none in *; lia|].
  pose proof (op_low _ _ _ _ _ _ _ H n x Hx). unfold MAX_INODE_COUNT in *. unfold vop_fstat. kstep.
  destruct (vl_fstat _ _ s' n x (co_ready _ _ _ _ _ A8) Hx (counted_open _ _ _ _ _ _ _ A8 Hx) ltac:(unfold MAX_INODE_COUNT; lia)) as (f&Hf&Hwp).
  eapply wp_vop; [exact A8|exact Hx|unfold MAX_INODE_COUNT; lia|exact Hf|].
  eapply wp_mono; [exact Hwp|]. intros r s2 (Hs&Hq&Hr). apply HQ; [done|]. by eapply opening_quiet.
Qed.

(** ** [fd_array_dup] *)

Definition dup_of (g f : file) : file := mk_file FD_OPENED (readable f) (writable f) (fd g) (pos f) (node f) 1.

Lemma wp_fd_array_dup s F p i g q j f b (Q : () -> vfs X -> Prop) :
  half s F p i -> low s b -> b < 2 ^ 30 - 1 -> file_of s p i = Some g -> status g = FD_INIT -> file_of s q j = Some f -> status f = FD_OPENED ->
  (forall s', done_with s F p i (dup_of g f) s' -> low s' (b + 1) -> Q () s') -> wp (fd_array_dup p i q j) Q s.
Proof.
  intros [H Ht Hst Hfew] Hlow Hb Hg Hgs Hf Hfs HQ. pose proof (tab_file s F _ q j f Ht Hf) as B. pose proof (tab_file s F _ p i g Ht Hg) as [G1 G2 G3 G4 _ _].
  specialize (G4 (or_intror Hgs)). rewrite bool_decide_false in G2 by congruence. unfold b2z in G2.
  pose proof (fo_node _ _ _ _ B (or_introl Hfs)) as Hn. pose proof (live_need s q j f Hf (or_introl Hfs)) as Hop. pose proof (opens_need s (node f)). pose proof (leak_pos _ _ _ _ (node f) H) as HLn.
  unfold fd_array_dup. kstep. eapply wp_file_at; [exact Hg|]. kstep. eapply wp_file_at; [exact Hf|]. kstep. kstep; [by apply bool_decide_eq_true|].
  kstep. eapply wp_file_upd; [exact Hg|]. set (g1 := mk_file _ _ _ _ _ _ _). assert (H1 : counted (set_file p i g1 s) L none) by (by eapply counted_init).
  destruct (counted_alive _ _ _ _ _ (node f) H1 Hn) as (x&Hx&Hpos).
  { rewrite (need_set_file s p i g) by done. rewrite !holds_idle by (by right). unfold none. cbn. lia. }
  kstep. eapply wp_inode_ref_inc; [exact H1|exact Hlow|lia|exact Hx|done|]. intros s2 H2 Hl2 Hc2.
  destruct (counted_alive _ _ _ _ _ (node f) H2 Hn) as (x2&Hx2&_).
  { destruct (calm_need _ _ (node f) Hc2) as (_&->&_). rewrite (need_set_file s p i g) by done. rewrite !holds_idle by (by right). rewrite add_eq. unfold none. cbn. lia. }
  kstep. eapply wp_open_inc; [exact H2|exact Hl2|lia|exact Hx2|rewrite add_eq; unfold none in *; lia|]. intros _ s3 H3 Hl3 Hc3.
  destruct (calm_set_file_back _ _ _ _ _ (calm_comp _ _ _ Hc2 Hc3)) as (s4&Hc4&->).
  assert (Hg4 : file_of s4 p i = Some g) by (by rewrite (calm_file_of s s4)).
  kstep. eapply wp_file_upd; [by rewrite (file_of_set s4 p i g1 g), decide_True by done|]. rewrite set_file_twice. set (g2 := set_node (node f) g1).
  eapply (wp_fd_array_open _ F p i g2).
  - cbn [node g2 set_node]. rewrite <-(set_file_twice p i g1 g2). eapply counted_init; [exact H3|by rewrite (file_of_set s4 p i g1 g), decide_True by done|done|done].
  - eapply tab_init; [by eapply tab_calm|exact Hg4|done..].
  - by eapply (calm_steady s s4).
  - done.
  - by rewrite (file_of_set s4 p i g2 g), decide_True by done.
  - done.
  - cbv zeta. intros Hsound. rewrite set_file_twice in Hsound |- *. apply HQ; [|done]. split; [done|]. by exists s4.
Qed.

Lemma wp_file_dup s F t n1 n2 (Q : Z -> vfs X -> Prop) :
  sound s F -> roomy s -> tables s !! cur s = Some t ->
  (forall r, r = - E_INVAL \/ r = - E_MAX_OPEN \/ r = - E_BUSY -> Q r s) ->
  (forall i f j g s', open_fd s n1 = Some (j, g) -> file_of s (cur s) i = Some f -> status f = FD_NONE ->
     (n2 = NO_FD -> first_free s (cur s) i) -> (n2 <> NO_FD -> i = Z.to_nat n2) ->
     done_with s F (cur s) i (dup_of f g) s' -> Q (Z.of_nat i) s') ->
  wp (file_dup n1 n2) Q s.
Proof.
  intros H Hr Ht H0 HQ. unfold file_dup. kstep. eapply wp_fd2file; [apply H|exact Ht|].
  destruct (open_fd s n1) as [[j g]|] eqn:E; cbn [fmap option_fmap option_map fst]; [|by apply wp_ret, H0; left].
  apply open_fd_Some in E as (Hg&Hgs&_). kstep. eapply wp_fd_array_alloc; [exact H|exact Ht| | |].
  - intros i f Hf Hs Hfirst Hi. cbv beta iota. rewrite (bool_decide_false (0 <> 0)) by tauto. kstep. kstep. kstep.
    change (cur (set_file (cur s) i (fresh f) s)) with (cur s). assert (Hne : (cur s, j) <> (cur s, i)) by (intros [= ->]; congruence).
    eapply (wp_fd_array_dup _ F (cur s) i (fresh f) (cur s) j g); [by eapply half_fresh|exact Hr|unfold MAX_INODE_COUNT; lia|by apply fresh_of|done|
      by rewrite (file_of_set s _ i _ f), decide_False by done|done|]. intros s' [Hs' (s1&Hc1&->)] _.
    destruct (calm_set_file_back _ _ _ _ _ Hc1) as (s2&Hc2&->). rewrite set_file_twice in *.
    kstep. eapply wp_file_at; [rewrite (file_of_set s2 _ i _ f) by (by rewrite (calm_file_of s s2)); by rewrite decide_True|]. kstep.
    cbn [fd dup_of fresh set_node set_status]. rewrite (fo_fd _ _ _ _ (tab_file s F None (cur s) i f (so_tab _ _ _ _ _ H) Hf)).
    eapply (HQ i f j g); try done. split; [done|]. by exists s2.
  - intros _ _. cbv beta iota. rewrite bool_decide_true by done. apply wp_ret, H0. by right; left.
  - intros _ r Hr2. cbv beta iota. rewrite bool_decide_true by (by destruct Hr2 as [->| ->]). apply wp_ret, H0. destruct Hr2 as [->| ->]; [by right; right|by left].
Qed.
End opening.

(** ** [file_open] *)

Section file_open.
Context {X : Type} (ops : Z -> inode_ops X) (fops : fs_ops X) {HL : VopLaws ops fops}.
Implicit Types (s : vfs X) (F : list (Z * nat)) (L : Z -> Z).
Abbreviation sound := (sound ops fops).
Abbreviation done_with := (done_with ops fops).
Abbreviation given_up := (given_up ops fops).

(** From where the file behind the entry has been opened, or has not. *)
Lemma wp_open_after L s F i f t flags r w ret n s2 (Q : Z -> vfs X -> Prop) :
  let p := cur s in
  sound L s F -> roomy s -> tables s !! p = Some t -> file_of s p i = Some f -> status f = FD_NONE ->
  opened ops fops flags (set_file p i (fresh f) s) L none (MAX_INODE_COUNT - 2) ret n s2 ->
  (forall r L' s', r < 0 -> (ret = 0 -> has_flag flags O_APPEND = true) -> leaked flags L L' -> given_up L' s F p i s' -> Q r s') ->
  (forall size L' s', ret = 0 -> (has_flag flags O_APPEND = false -> size = 0) -> leaked flags L L' ->
     done_with L' s F p i (mk_file FD_OPENED r w (Z.of_nat i) size n 1) s' -> Q (Z.of_nat i) s') ->
  wp (if bool_decide (ret <> 0) then fd_array_free ops p i;; mret ret
      else
        file_upd p i (set_pos 0);;
        '(ret, size) ← (if has_flag flags O_APPEND then '(ret, st) ← vop_fstat ops n; mret (ret, st_size st) else mret (0, 0));
        if bool_decide (ret <> 0) then vfs_close ops n;; fd_array_free ops p i;; mret ret
        else
          file_upd p i (fun f => mk_file (status f) r w (fd f) size n (fopen_count f));;
          fd_array_open p i;;
          f ← file_at p i;
          mret (fd f)) Q s2.
Proof.
  intros p H Hr Ht Hf Hs (Hc&Hlow&Hsign&L'&Hleak&Ho) HE HQ.
  pose proof (half_fresh ops fops L s F p i f H Hf Hs) as Hh. pose proof (so_few _ _ _ _ _ H) as Hfew. set (s1 := set_file p i (fresh f) s) in *.
  assert (Hfd : fd f = Z.of_nat i) by (eapply fo_fd, (tab_file s F None p i f); [apply H|done]).
  destruct (calm_set_file_back _ _ _ _ _ Hc) as (s0&Hc0&->). destruct (decide (ret = 0)) as [->|Hret].
  2: { rewrite bool_decide_true by done. eapply (wp_give_up ops fops L' s _ F p i (fresh f) ret Q s0); [done|done| |by rewrite Hf|done|].
       - destruct Hh as [_ Hta Hst _]. split; [done|by eapply (tab_calm s1)|by eapply (calm_steady s1)|done].
       - intros s' Hg. eapply (HE ret L'); [lia|done|done|done]. }
  rewrite bool_decide_false by tauto. destruct Ho as [Hn Ho].
  assert (Hop : opening ops fops L' s F p i (fresh f) n (set_file p i (fresh f) s0)).
  { split; try done; [by exists s0|eapply tab_calm; [apply Hh|done]|eapply calm_steady; [done|apply Hh]]. }
  kstep. eapply wp_file_upd; [by eapply opening_file|].
  pose proof (opening_upd _ _ _ _ _ _ _ _ _ _ _ (set_pos 0 (fresh f)) Hop Hf eq_refl eq_refl eq_refl) as Hop2.
  assert (Htail : forall ret size s3, ret <= 0 -> (ret <> 0 -> has_flag flags O_APPEND = true) -> (has_flag flags O_APPEND = false -> size = 0) ->
    opening ops fops L' s F p i (set_pos 0 (fresh f)) n s3 ->
    wp (if bool_decide (ret <> 0) then vfs_close ops n;; fd_array_free ops p i;; mret ret
         else file_upd p i (fun f => mk_file (status f) r w (fd f) size n (fopen_count f));; fd_array_open p i;; f ← file_at p i; mret (fd f)) Q s3).
  { intros ret size s3 Hret Hap Hsize H3. destruct (decide (ret = 0)) as [->|Hret0].
    - rewrite bool_decide_false by tauto. eapply wp_open_done; [exact H3|exact Hf|done|]. intros s4 Hd. by eapply HQ.
    - rewrite bool_decide_true by done. eapply wp_open_undone; [exact H3|exact Hf|done|]. intros s4 Hg. eapply (HE ret L'); [lia|by intros _; apply Hap|done|done]. }
  kstep. destruct (has_flag flags O_APPEND).
  - kstep. eapply wp_opening_fstat; [exact Hop2|]. intros [ret st] s3 Hret H3. kstep. by apply Htail.
  - kstep. by apply Htail.
Qed.

(** The descriptor that [file_open] returns is the lowest free one; a failure
    leaves all of them as they were.  [P]: what is known of the result of
    [vfs_open] and of the inode. *)
Lemma runs_file_open total L s F t path flags (P : Z -> Z -> Prop) (Q : Z -> vfs X -> Prop) :
  sound L s F -> roomy s -> tables s !! cur s = Some t ->
  (forall i f, file_of s (cur s) i = Some f -> status f = FD_NONE -> let s1 := set_file (cur s) i (fresh f) s in
     runs total (vfs_open ops fops path flags) (fun a s2 => opened ops fops flags s1 L none (MAX_INODE_COUNT - 2) a.1 a.2 s2 /\ P a.1 a.2) s1) ->
  (access_mode flags = None -> Q (- E_INVAL) s) ->
  (access_mode flags <> None -> (forall i f, file_of s (cur s) i = Some f -> status f <> FD_NONE) -> Q (- E_MAX_OPEN) s) ->
  (forall i f ret n r L' s', access_mode flags <> None -> file_of s (cur s) i = Some f -> status f = FD_NONE -> first_free s (cur s) i ->
     P ret n -> r < 0 -> (ret = 0 -> has_flag flags O_APPEND = true) -> leaked flags L L' -> given_up L' s F (cur s) i s' -> Q r s') ->
  (forall i f r w size n L' s', access_mode flags = Some (r, w) -> file_of s (cur s) i = Some f -> status f = FD_NONE -> first_free s (cur s) i ->
     P 0 n -> (has_flag flags O_APPEND = false -> size = 0) -> leaked flags L L' ->
     done_with L' s F (cur s) i (mk_file FD_OPENED r w (Z.of_nat i) size n 1) s' -> Q (Z.of_nat i) s') ->
  runs total (file_open ops fops path flags) Q s.
Proof.
  intros H Hr Ht Hopen H0 HM HE HQ. unfold file_open. destruct (access_mode flags) as [[r w]|]; [|by apply runs_wp, wp_ret, H0].
  apply runs_bind_wp, wp_get. cbv zeta. apply runs_bind_wp. eapply (wp_fd_array_alloc ops fops L); [exact H|exact Ht| | |done].
  - intros i f Hf Hs Hfirst _. cbv beta iota. rewrite (bool_decide_false (0 <> 0)) by tauto. apply runs_bind.
    eapply runs_mono; [by apply Hopen|]. intros [ret n] s2 [Ho HP]. cbv beta iota. cbn [fst snd] in Ho, HP. apply runs_wp.
    eapply (wp_open_after L s F i f t); [done..|exact Ho| |].
    + intros r2 L' s' Hr2 Hap Hleak Hg. eapply (HE i f ret n); [done|done|done|by apply Hfirst|done..].
    + intros size L' s' -> Hsize Hleak Hd. eapply (HQ i f r w size n); [done|done|done|by apply Hfirst|done..].
  - intros _ Hfull. cbv beta iota. rewrite bool_decide_true by done. apply runs_wp, wp_ret. by apply HM.
Qed.

(** [vfs_open] from where an entry has been taken. *)
Lemma fresh_ctx L s F i f : sound L s F -> roomy s -> file_of s (cur s) i = Some f -> status f = FD_NONE ->
  let s1 := set_file (cur s) i (fresh f) s in ctx ops fops s1 L none (MAX_INODE_COUNT - 8) /\ steady s1.
Proof. intros H Hr Hf Hs s1. pose proof (half_fresh ops fops L s F (cur s) i f H Hf Hs) as Hh. split; [|apply Hh]. by apply roomy_ctx; [apply Hh|]. Qed.

Lemma wlp_open_any L s F t i f path flags : sound L s F -> roomy s -> tables s !! cur s = Some t -> 0 < files_nlinks t ->
  file_of s (cur s) i = Some f -> status f = FD_NONE -> let s1 := set_file (cur s) i (fresh f) s in
  wlp (vfs_open ops fops path flags) (fun a s2 => opened ops fops flags s1 L none (MAX_INODE_COUNT - 2) a.1 a.2 s2 /\ True) s1.
Proof.
  intros H Hr Ht Hl Hf Hs s1. destruct (fresh_ctx L s F i f H Hr Hf Hs) as [Hctx Hst].
  eapply (wlp_vfs_open ops fops s1 L none _ _ path flags); [exact Hctx|unfold MAX_INODE_COUNT; lia|exact Hst|by apply table_set_file|exact Hl|]. done.
Qed.

Lemma wp_open_device L s F i f path flags d P : sound L s F -> roomy s -> device_path s path flags d -> open_says ops (devnode d) flags P ->
  file_of s (cur s) i = Some f -> status f = FD_NONE -> let s1 := set_file (cur s) i (fresh f) s in
  wp (vfs_open ops fops path flags) (fun a s2 => opened ops fops flags s1 L none (MAX_INODE_COUNT - 2) a.1 a.2 s2 /\ ((a.1 = 0 -> a.2 = devnode d) /\ P a.1)) s1.
Proof.
  intros H Hr Hd HP Hf Hs s1. destruct (fresh_ctx L s F i f H Hr Hf Hs) as [Hctx Hst].
  eapply (wp_vfs_open_dev ops fops s1 L none); [exact Hctx|unfold MAX_INODE_COUNT; lia|exact Hst|exact Hd|exact HP|]. done.
Qed.
End file_open.
