(* ===== verification/FilesFork.v ===== *)
(** The table of open files of a process that is forked or exits: [copy_files]
    and [put_files], on the invariant of [FilesSpec]. *)
From S2P Require Import Prelude Iobuf Vfs VfsSpec Files FilesSpec FilesOpen.
#[local] Abbreviation length := Datatypes.length.

Section fork.
Context {X : Type} (ops : Z -> inode_ops X) (fops : fs_ops X) {HL : VopLaws ops fops}.
Implicit Types (s : vfs X) (F : list (Z * nat)).
Abbreviation counted := (counted ops fops).
Context (L : Z -> Z).
Abbreviation sound := (sound ops fops L).
Abbreviation half := (half ops fops L).

(** The entries of one table may be other ones. *)
Definition same_but (p : Z) s s' : Prop := exists t l, tables s !! p = Some t /\ length l = length (fd_array t) /\
  calm (set_tables (<[p := set_fd_array l t]> (tables s)) s) s'.

Lemma same_but_refl p t s s' : tables s !! p = Some t -> calm s s' -> same_but p s s'.
Proof.
  intros Ht Hc. exists t, (fd_array t). split_and!; [done|done|]. destruct s. cbn in *. unfold set_tables. cbn.
  rewrite insert_id by (rewrite Ht; by destruct t). done.
Qed.

Lemma same_but_trans p s s1 s2 : same_but p s s1 -> same_but p s1 s2 -> same_but p s s2.
Proof.
  intros (t&l&Ht&El&(j&e&->)) (t1&l1&Ht1&El1&(j1&e1&->)). cbn in Ht1. rewrite lookup_insert_eq in Ht1. injection Ht1 as <-.
  exists t, l1. split_and!; [done|by rewrite El1|]. exists j1, e1. unfold set_tables, set_ext, set_inodes, set_fd_array. cbn. by rewrite insert_insert_eq.
Qed.

Lemma same_but_set_file p i y t s s1 : tables s !! p = Some t -> calm s s1 -> same_but p s (set_file p i y s1).
Proof.
  intros Ht (j&e&->). exists t, (<[i := y]> (fd_array t)). split_and!; [done|by rewrite length_insert|]. exists j, e.
  unfold set_file. cbn. by rewrite <-(alter_insert_eq (fun t => set_fd_array (<[i := y]> (fd_array t)) t) _ p t Ht).
Qed.

Lemma same_but_table p s s' t : same_but p s s' -> tables s !! p = Some t -> exists l, length l = length (fd_array t) /\ tables s' !! p = Some (set_fd_array l t).
Proof. intros (t'&l&Ht&El&(j&e&->)) Ht'. assert (t' = t) as -> by congruence. exists l. split; [done|]. cbn. by rewrite lookup_insert_eq. Qed.

Lemma same_but_ne p s s' q : same_but p s s' -> q <> p -> tables s' !! q = tables s !! q.
Proof. intros (t&l&Ht&_&(j&e&->)) Hq. cbn. by rewrite lookup_insert_ne. Qed.

Lemma same_but_cur p s s' : same_but p s s' -> cur s' = cur s.
Proof. by intros (t&l&Ht&_&(j&e&->)). Qed.

(** A field of a table other than its entries changes. *)
Lemma tab_set_table s F N p t t' : tab_ok s F N -> tables s !! p = Some t -> fd_array t' = fd_array t -> files_count t' = files_count t ->
  files_sem t' = files_sem t -> tab_ok (set_tables (<[p := t']> (tables s)) s) F N.
Proof.
  intros [A1 A2 A3] Ht E1 E2 E3.
  assert (Hb : forall q u', <[p := t']> (tables s) !! q = Some u' -> exists u, tables s !! q = Some u /\ fd_array u' = fd_array u /\ files_count u' = files_count u /\ files_sem u' = files_sem u).
  { intros q u'. rewrite lookup_insert_Some. intros [[<- <-]|[_ Hu]]; [by exists t|by exists u']. }
  split; cbn.
  - intros q u' (u&Hu&->&->&->)%Hb. by apply (A1 q).
  - intros q u' j f (u&Hu&->&_)%Hb. by apply (A2 q).
  - intros q j (u&f&Hu&Hf)%A3. destruct (decide (q = p)) as [->|Hq]; [|exists u, f; by rewrite lookup_insert_ne].
    exists t', f. rewrite lookup_insert_eq, E1. split; [done|]. congruence.
Qed.

Lemma opens_set_table s p t t' n : tables s !! p = Some t -> fd_array t' = fd_array t -> opens (set_tables (<[p := t']> (tables s)) s) n = opens s n.
Proof. intros Ht E. unfold opens. cbn. rewrite (msum_insert _ _ p t) by done. rewrite E. lia. Qed.

Lemma need_set_table s p t t' n : tables s !! p = Some t -> fd_array t' = fd_array t ->
  need (set_tables (<[p := t']> (tables s)) s) n = need s n - held_pwd n t + held_pwd n t'.
Proof.
  intros Ht E. unfold need. rewrite (opens_set_table s p t t' n Ht E). unfold pwds. cbn. rewrite (msum_insert _ _ p t) by done.
  unfold devs. lia.
Qed.
(** ** The end of a table *)
Lemma fly_zero F p i : (p, i) ∉ F -> fly F p i = 0.
Proof.
  intros Hn. unfold fly. apply count_zero. intros q Hq. apply bool_decide_eq_false. by intros ->.
Qed.

Definition idle F (p : Z) : Prop := forall i, (p, i) ∉ F.

(** An entry without a call under way. *)
Lemma idle_status s F p i f : sound s F -> idle F p -> file_of s p i = Some f ->
  status f = FD_NONE \/ status f = FD_OPENED /\ fopen_count f = 1.
Proof.
  intros H Hi Hf. pose proof (tab_file s F None p i f (so_tab _ _ _ _ _ H) Hf) as [_ B2 B3 _ B5 _]. rewrite fly_zero in * by apply Hi.
  destruct (status f) eqn:E; [by left|destruct B3 as [B3 _]; by specialize (B3 eq_refl)| |specialize (B5 eq_refl); lia].
  right. split; [done|]. by rewrite bool_decide_true in B2.
Qed.

Lemma wp_close_loop n : forall i s F p (Q : () -> vfs X -> Prop),
  sound s F -> roomy s -> idle F p -> is_Some (tables s !! p) -> (i + n = Z.to_nat FILES_STRUCT_NENTRY)%nat ->
  (forall j f, (j < i)%nat -> file_of s p j = Some f -> status f = FD_NONE) ->
  (forall s', sound s' F -> roomy s' -> same_but p s s' -> (forall j f, file_of s' p j = Some f -> status f = FD_NONE) -> Q () s') ->
  wp (close_loop ops true n i p) Q s.
Proof.
  induction n as [|n IH]; intros i s F p Q H Hr Hi [t Ht] Hlen Hdone HQ.
  - apply wp_ret, HQ; [done|done|by eapply same_but_refl, calm_id|]. intros j f Hf. apply (Hdone j f); [|done].
    apply file_of_Some in Hf as (t'&Ht'&Hf). assert (t' = t) as -> by congruence. apply lookup_lt_Some in Hf.
    destruct (tk_len _ _ _ (so_tab _ _ _ _ _ H) p t Ht) as [E _]. lia.
  - destruct (tab_entry s F None t p i (so_tab _ _ _ _ _ H) Ht ltac:(lia)) as [f Hf]. cbn [close_loop].
    kstep. eapply wp_file_at; [exact Hf|]. destruct (idle_status s F p i f H Hi Hf) as [Hs|[Hs Hc]].
    + rewrite bool_decide_false by congruence. cbn [when]. kstep. kstep. kstep. kstep. eapply wp_file_at; [exact Hf|].
      kstep; [by apply bool_decide_eq_true|]. eapply IH; [done|done|done|by eexists|lia| |done].
      intros j g Hj Hg. destruct (decide (j = i)) as [->|]; [congruence|]. eapply Hdone; [|exact Hg]. lia.
    + rewrite bool_decide_true by done. cbn [when]. kstep. eapply wp_fd_close; [exact H|exact Hr|exact Hf|exact Hs|].
      intros s' [Hs' (s1&Hc1&->)] Hr'. set (y := drop_file (set_status FD_CLOSED f)) in *.
      assert (Hy : status y = FD_NONE) by (unfold y, drop_file; cbn; by rewrite decide_True).
      assert (Hf1 : file_of s1 p i = Some f) by (by rewrite (calm_file_of s s1)).
      kstep. kstep. eapply wp_file_at; [by rewrite (file_of_set s1 p i y f), decide_True by done|]. kstep; [by apply bool_decide_eq_true|].
      pose proof (same_but_set_file p i y t s s1 Ht Hc1) as Hsb. destruct (same_but_table p s _ t Hsb Ht) as (l&_&Ht').
      eapply IH; [exact Hs'|exact Hr'|exact Hi|by eexists|lia| |].
      * intros j g Hj. rewrite (file_of_set s1 p i y f) by done. case_decide as E; [intros [= <-]; done|].
        rewrite (calm_file_of s s1) by done. intros Hg. eapply Hdone; [|exact Hg]. destruct (decide (j = i)) as [->|]; [done|lia].
      * intros s2 H2 Hr2 Hsb2 Hall. apply HQ; [done|done|by eapply same_but_trans|done].
Qed.
(** A table that holds nothing goes. *)
Lemma sound_delete s F p t : sound s F -> tables s !! p = Some t -> idle F p -> files_nlinks t <= 0 ->
  (forall j f, file_of s p j = Some f -> status f = FD_NONE) -> sound (set_tables (delete p (tables s)) s) F.
Proof.
  intros [H Ht Hst Hfew] Hp Hi Hl Hall.
  assert (Hopen : forall n, count (holds n) (fd_array t) = 0).
  { intros n. apply count_zero. intros f Hf. apply list_elem_of_lookup in Hf as [j Hf]. apply holds_idle. left. apply (Hall j). apply file_of_Some. by exists t. }
  assert (Hpwd : forall n, held_pwd n t = 0) by (intros n; unfold held_pwd; by rewrite decide_False by lia).
  assert (Eo : forall n, opens (set_tables (delete p (tables s)) s) n = opens s n).
  { intros n. unfold opens. cbn. rewrite (msum_delete _ (tables s) p t) by done. rewrite Hopen. lia. }
  assert (En : forall n, need (set_tables (delete p (tables s)) s) n = need s n).
  { intros n. unfold need. rewrite Eo. unfold pwds. cbn. rewrite (msum_delete (held_pwd n) (tables s) p t) by done. rewrite Hpwd. unfold devs. lia. }
  split; [|  |done|done].
  - eapply counted_shift; [exact H|done|done|done| | |intros n; by eapply leak_pos]; intros n; [by rewrite Eo|by rewrite En].
  - destruct Ht as [A1 A2 A3]. split; cbn.
    + intros q u [_ Hu]%lookup_delete_Some. by eapply A1.
    + intros q u j f [_ Hu]%lookup_delete_Some. by eapply A2.
    + intros q j Hq. destruct (A3 q j Hq) as (u&f&Hu&Hf). exists u, f. split; [|done]. apply lookup_delete_Some. split; [|done]. intros ->. by eapply Hi.
Qed.

Definition gone (p : Z) s s' : Prop := calm (set_tables (delete p (tables s)) s) s'.

Lemma same_but_gone p s s' : same_but p s s' -> gone p s (set_tables (delete p (tables s')) s').
Proof.
  intros (t&l&Ht&El&(j&e&->)). exists j, e. unfold set_tables, set_ext, set_inodes. cbn. by rewrite delete_insert_eq.
Qed.

(** [files_destroy] on a table that no process has any more; its directory still
    counts as one reference of the inode. *)
Lemma wp_files_destroy s F p t (Q : () -> vfs X -> Prop) :
  (forall n, 0 <= L n) -> counted s (if decide (pwd t = 0) then L else add (pwd t) 1 L) none -> tab_ok s F None -> steady s -> Z.of_nat (length F) < 2 ^ 20 ->
  roomy s -> tables s !! p = Some t -> files_nlinks t <= 0 -> idle F p ->
  (forall s', sound s' F -> roomy s' -> gone p s s' -> Q () s') -> wp (files_destroy ops p) Q s.
Proof.
  intros HL0 H Ht Hst Hfew Hr Hp Hl Hi HQ. unfold files_destroy. kstep. eapply wp_files_at; [exact Hp|].
  destruct (tk_len _ _ _ Ht p t Hp) as (_&Hc&_). kstep. kstep; [by apply bool_decide_eq_true|].
  assert (Hloop : forall s1, calm s s1 -> roomy s1 -> counted s1 L none ->
    wp (close_loop ops true (Z.to_nat FILES_STRUCT_NENTRY) 0 p;; modify (fun s => set_tables (delete p (tables s)) s)) Q s1).
  { intros s1 Hc1 Hr1 H1. assert (Hp1 : tables s1 !! p = Some t) by (by destruct Hc1 as (j&e&->)).
    kstep. eapply (wp_close_loop _ 0 s1 F p); [|exact Hr1|exact Hi|by eexists|done|intros j f Hj; lia|].
    - split; [done|by eapply tab_calm|by eapply calm_steady|done].
    - intros s2 H2 Hr2 Hsb Hall. apply wp_modify. destruct (same_but_table p s1 s2 t Hsb Hp1) as (l&_&Hp2). apply HQ; [by eapply sound_delete|done|].
      pose proof (same_but_gone p s1 s2 Hsb) as Hg. destruct Hc1 as (j&e&->). destruct Hg as (j2&e2&E). exists j2, e2. by rewrite E. }
  destruct (decide (pwd t = 0)) as [E|E].
  - rewrite bool_decide_false by tauto. cbn [when]. kstep. kstep. apply Hloop; [apply calm_id|done|done].
  - rewrite bool_decide_true by done. cbn [when]. kstep. kstep. pose proof (opens_need s (pwd t)). pose proof (opens_nonneg s (pwd t)). specialize (HL0 (pwd t)).
    eapply wp_inode_ref_dec; [exact H|exact Hr|unfold MAX_INODE_COUNT; lia|done|rewrite add_eq; unfold none in *; lia|rewrite add_eq; unfold none in *; lia|].
    intros _ s1 K1 Hl1 Hc1. kstep. apply Hloop; [done|exact Hl1|]. eapply counted_ext; [exact K1|intros k; by rewrite add_back1|done].
Qed.

(** The number of processes that have a table. *)
Lemma sound_nlinks s F p t v : sound s F -> tables s !! p = Some t -> 0 < files_nlinks t -> 0 < v -> sound (set_tables (<[p := set_files_nlinks v t]> (tables s)) s) F.
Proof.
  intros [H Ht Hst Hfew] Hp Hl Hv. split; [|by eapply tab_set_table|done|done].
  assert (E : forall n, held_pwd n (set_files_nlinks v t) = held_pwd n t) by (intros n; unfold held_pwd; cbn; by rewrite !decide_True).
  eapply counted_shift; [exact H|done|done|done| | |intros n; by eapply leak_pos]; intros n; [by rewrite (opens_set_table s p t)|].
  intros _. rewrite (need_set_table s p t) by done. rewrite E. lia.
Qed.

Lemma wp_put_files s F p t (Q : () -> vfs X -> Prop) :
  sound s F -> roomy s -> p <> 0 -> tables s !! p = Some t -> 0 < files_nlinks t < 2 ^ 31 -> (files_nlinks t = 1 -> idle F p) ->
  (1 < files_nlinks t -> let s' := set_tables (<[p := set_files_nlinks (files_nlinks t - 1) t]> (tables s)) s in sound s' F -> Q () s') ->
  (files_nlinks t = 1 -> forall s', sound s' F -> roomy s' -> gone p s s' -> Q () s') -> wp (put_files ops p) Q s.
Proof.
  intros H Hr Hp0 Hp Hl Hi HQ HQ1. unfold put_files. rewrite bool_decide_false by done.
  unfold files_upd. kstep. kstep. eapply wp_files_at; [exact Hp|]. kstep. rewrite swrap_small by lia.
  set (t1 := set_files_nlinks (files_nlinks t - 1) t). kstep. eapply wp_files_at; [cbn; apply lookup_insert_eq|]. cbn [t1 files_nlinks set_files_nlinks].
  destruct (decide (files_nlinks t = 1)) as [E|E].
  - rewrite bool_decide_true by lia. cbn [when]. set (s1 := set_tables _ s). destruct H as [H Ht Hst Hfew].
    assert (E1 : forall n, held_pwd n t1 = 0) by (intros n; unfold held_pwd; cbn; by rewrite decide_False by lia).
    assert (E2 : forall n, held_pwd n t = eqz (pwd t) n) by (intros n; unfold held_pwd; by rewrite decide_True by lia).
    eapply (wp_files_destroy s1 F p t1); [intros n; by eapply leak_pos| |by eapply tab_set_table|done|done|exact Hr|apply lookup_insert_eq|cbn; lia|by apply Hi|].
    + change (pwd t1) with (pwd t). eapply counted_shift; [exact H|done|done|done| | |].
      * intros n. unfold s1. by rewrite (opens_set_table s p t).
      * intros n Hn. unfold s1. rewrite (need_set_table s p t) by done. rewrite E1, E2. unfold eqz, add, none. repeat case_decide; subst; (lia || done).
      * intros n. pose proof (leak_pos _ _ _ _ n H). unfold add, none. repeat case_decide; lia.
    + intros s' Hs' Hr' Hg. apply HQ1; [done|done|done|]. destruct Hg as (j&e&->). exists j, e. unfold set_tables, set_ext, set_inodes. cbn. by rewrite delete_insert_eq.
  - rewrite bool_decide_false by lia. cbn [when]. apply wp_ret, HQ; [lia|]. apply sound_nlinks; [done|done|lia|lia].
Qed.
(** ** The table of a child *)

(** The entry of a child, from its own free entry and the one of the parent. *)
Definition child (g f : file) : file := if decide (status f = FD_OPENED) then dup_of g f else g.

Lemma wp_dup_entry s F p i g q f b (Q : () -> vfs X -> Prop) :
  sound s F -> low s b -> b < 2 ^ 30 - 1 -> p <> q -> file_of s p i = Some g -> status g = FD_NONE -> file_of s q i = Some f ->
  (forall s1, calm s s1 -> low s1 (b + 1) -> sound (set_file p i (child g f) s1) F -> Q () (set_file p i (child g f) s1)) ->
  wp (when (bool_decide (status f = FD_OPENED)) (file_upd p i (set_status FD_INIT);; fd_array_dup p i q i)) Q s.
Proof.
  intros H Hlow Hb Hpq Hg Hgs Hf HQ. unfold child in HQ. destruct (decide (status f = FD_OPENED)) as [Hs|Hs].
  - rewrite bool_decide_true by done. cbn [when]. kstep. eapply wp_file_upd; [exact Hg|]. set (g1 := set_status FD_INIT g).
    eapply (wp_fd_array_dup ops fops L _ F p i g1 q i f b); [by eapply half_init|exact Hlow|done|by rewrite (file_of_set s p i g1 g), decide_True by done|done|
      rewrite (file_of_set s p i g1 g), decide_False by (done || congruence); exact Hf|done|].
    intros s' [Hs' (s1&Hc1&->)] Hl. destruct (calm_set_file_back _ _ _ _ _ Hc1) as (s2&Hc2&->). rewrite set_file_twice in *.
    apply HQ; [done|exact Hl|exact Hs'].
  - rewrite bool_decide_false by done. cbn [when]. apply wp_ret. rewrite <-(set_file_id s p i g Hg).
    apply HQ; [apply calm_id|eapply low_le; [exact Hlow|lia]|by rewrite set_file_id].
Qed.

Lemma wp_dup_loop n : forall i s F p q b (Q : () -> vfs X -> Prop),
  sound s F -> low s b -> b + Z.of_nat n < 2 ^ 30 - 1 -> p <> q -> is_Some (tables s !! p) -> is_Some (tables s !! q) -> (i + n = Z.to_nat FILES_STRUCT_NENTRY)%nat ->
  (forall j g, (i <= j)%nat -> file_of s p j = Some g -> status g = FD_NONE) ->
  (forall s', sound s' F -> low s' (b + Z.of_nat n) -> same_but p s s' -> (forall j, (j < i)%nat -> file_of s' p j = file_of s p j) ->
     (forall j g f, (i <= j)%nat -> file_of s p j = Some g -> file_of s q j = Some f -> file_of s' p j = Some (child g f)) -> Q () s') ->
  wp (dup_loop n i p q) Q s.
Proof.
  induction n as [|n IH]; intros i s F p q b Q H Hlow Hb Hpq [t Ht] [u Hu] Hlen Hnone HQ.
  - apply wp_ret, HQ; [done|eapply low_le; [exact Hlow|lia]|by eapply same_but_refl, calm_id|done|]. intros j g f Hj Hg.
    apply file_of_Some in Hg as (t'&Ht'&Hg). assert (t' = t) as -> by congruence. apply lookup_lt_Some in Hg.
    destruct (tk_len _ _ _ (so_tab _ _ _ _ _ H) p t Ht) as [E _]. lia.
  - destruct (tab_entry s F None t p i (so_tab _ _ _ _ _ H) Ht ltac:(lia)) as [g Hg]. destruct (tab_entry s F None u q i (so_tab _ _ _ _ _ H) Hu ltac:(lia)) as [f Hf].
    cbn [dup_loop]. kstep. eapply wp_file_at; [exact Hf|]. kstep.
    eapply (wp_dup_entry s F p i g q f b); [done|done|lia|done|exact Hg|by eapply Hnone|exact Hf|]. intros s1 Hc1 Hl1 H1.
    pose proof (same_but_set_file p i (child g f) t s s1 Ht Hc1) as Hsb. destruct (same_but_table p s _ t Hsb Ht) as (l&_&Ht1).
    assert (Hfo : forall r j, file_of (set_file p i (child g f) s1) r j = if decide ((r, j) = (p, i)) then Some (child g f) else file_of s r j).
    { intros r j. rewrite (file_of_set s1 p i _ g) by (by rewrite (calm_file_of s s1)). by rewrite (calm_file_of s s1). }
    eapply (IH (S i) _ F p q (b + 1)); [exact H1|exact Hl1|lia|done|by eexists|exists u; by rewrite (same_but_ne p s)|lia| |].
    + intros j g' Hj. rewrite Hfo, decide_False by (intros [=]; lia). apply Hnone. lia.
    + intros s' Hs' Hl' Hsb' Hlt Hge. apply HQ; [done|eapply low_le; [exact Hl'|lia]|by eapply same_but_trans| |].
      * intros j Hj. rewrite Hlt by lia. by rewrite Hfo, decide_False by (intros [=]; lia).
      * intros j g' f' Hj Hg' Hf'. destruct (decide (j = i)) as [->|].
        { rewrite Hlt by lia. rewrite Hfo, decide_True by done. congruence. }
        apply Hge; [lia|by rewrite Hfo, decide_False by (intros [=]; lia)|by rewrite Hfo, decide_False by (intros [=]; lia)].
Qed.

(** The child gets the directory. *)
Lemma wp_share_pwd s F p t q u b (Q : () -> vfs X -> Prop) :
  sound s F -> low s b -> b < 2 ^ 30 -> tables s !! p = Some t -> pwd t = 0 -> 0 < files_nlinks t -> tables s !! q = Some u -> 0 < files_nlinks u ->
  (forall s1, calm s s1 -> low s1 (b + 1) -> let s' := set_tables (<[p := set_pwd (pwd u) t]> (tables s1)) s1 in sound s' F -> Q () s') ->
  wp (files_upd p (set_pwd (pwd u));; when (bool_decide (pwd u <> 0)) (inode_ref_inc (pwd u);; mret ())) Q s.
Proof.
  intros H Hlow Hb Ht Ht0 Hl Hu Hlu HQ. unfold files_upd. kstep. kstep. eapply wp_files_at; [exact Ht|]. kstep.
  destruct (decide (pwd u = 0)) as [E|E].
  - rewrite bool_decide_false by tauto. cbn [when]. apply wp_ret. apply (HQ s); [apply calm_id|eapply low_le; [exact Hlow|lia]|].
    assert (set_pwd (pwd u) t = t) as -> by (rewrite E, <-Ht0; by destruct t). rewrite insert_id by done. by destruct s.
  - rewrite bool_decide_true by done. cbn [when]. destruct H as [H Htab Hst Hfew]. pose proof (pwd_need s q u Hu Hlu) as Hneed.
    pose proof (leak_pos _ _ _ _ (pwd u) H). destruct (counted_alive _ _ _ _ _ (pwd u) H E) as (x&Hx&Hpos); [lia|]. pose proof (Hlow _ x Hx).
    destruct (co_inode _ _ _ _ _ H (pwd u) x Hx) as (_&Eo&Hr). unfold none in Eo, Hr.
    destruct (counted_update ops fops s L none (add (pwd u) 1 L) none (pwd u) x (set_ref_count (ref_count x + 1) x) (b + 1)) as (G1&G2&G3);
      try done; try (rewrite add_eq); unfold none; cbn; try lia; [eapply low_le; [exact Hlow|lia]|rewrite !bool_decide_false by lia; done|intros m Hm; by rewrite add_ne| |].
    { pose proof (opens_nonneg s (pwd u)). lia. }
    unfold inode_ref_inc. kstep. kstep. eapply wp_inode_upd; [exact Hx|]. kstep. eapply wp_inode_at; [cbn; apply lookup_insert_eq|].
    rewrite swrap_small by lia. kstep. kstep. specialize (HQ _ G3 G2). cbn in HQ. apply HQ. clear HQ.
    set (s1 := set_inodes _ s) in G1, G2, G3. change (sound (set_tables (<[p := set_pwd (pwd u) t]> (tables s1)) s1) F).
    split; [|eapply (tab_set_table s1 F None p t); [by eapply tab_calm|done..]|done|done]. eapply counted_shift; [exact G1|done|done|done| | |intros n; by eapply leak_pos].
    + intros n. by rewrite (opens_set_table s1 p t).
    + intros n Hn. rewrite (need_set_table s1 p t) by done. unfold held_pwd. cbn. rewrite !decide_True by done. rewrite Ht0. unfold eqz, add, none.
      repeat case_decide; subst; (lia || done).
Qed.
Lemma fd_array_init_lookup l i f : fd_array_init l !! i = Some f ->
  exists g, l !! i = Some g /\ f = mk_file FD_NONE (readable g) (writable g) (Z.of_nat i) (pos g) (node g) 0.
Proof. unfold fd_array_init. rewrite list_lookup_imap. intros (g&Hg&E)%fmap_Some. by exists g. Qed.

Definition new_table (l : list file) : files_struct := mk_files 0 (fd_array_init l) 0 1 false.

Lemma sound_create s F p l : sound s F -> tables s !! p = None -> length l = Z.to_nat FILES_STRUCT_NENTRY ->
  sound (set_tables (<[p := new_table l]> (tables s)) s) F.
Proof.
  intros [H Ht Hst Hfew] Hp Hl.
  assert (Hnone : forall i f, fd_array_init l !! i = Some f -> status f = FD_NONE) by (by intros i f (g&_&->)%fd_array_init_lookup).
  assert (Hopen : forall n, count (holds n) (fd_array_init l) = 0).
  { intros n. apply count_zero. intros f [j Hf]%list_elem_of_lookup. apply holds_idle. left. by eapply Hnone. }
  assert (Eo : forall n, opens (set_tables (<[p := new_table l]> (tables s)) s) n = opens s n).
  { intros n. unfold opens. cbn [tables set_tables]. rewrite msum_insert_new by done. cbn [new_table fd_array]. rewrite Hopen. lia. }
  split; [| |done|done].
  - eapply counted_shift; [exact H|done|done|done| | |intros n; by eapply leak_pos]; intros n; [by rewrite Eo|]. intros Hn. unfold need. rewrite Eo. unfold pwds. cbn [tables set_tables].
    rewrite msum_insert_new by done. assert (held_pwd n (new_table l) = 0) as -> by (unfold held_pwd, eqz; repeat case_decide; cbn in *; congruence). unfold devs. cbn. lia.
  - destruct Ht as [A1 A2 A3].
    assert (Hi : forall i, (p, i) ∉ F) by (intros i (t&f&E&_)%A3; congruence).
    split; cbn.
    + intros q u. rewrite lookup_insert_Some. intros [[<- <-]|[_ Hu]]; [|by eapply A1]. cbn. unfold fd_array_init. by rewrite length_imap.
    + intros q u i f. rewrite lookup_insert_Some. intros [[<- <-]|[_ Hu]]; [|by eapply A2]. cbn. intros (g&_&->)%fd_array_init_lookup. rewrite fly_zero by apply Hi.
      split; cbn; try done. by intros [|].
    + intros q i Hq. destruct (A3 q i Hq) as (u&f&Hu&Hf). exists u, f. rewrite lookup_insert_ne; [done|]. intros <-. by eapply Hi.
Qed.

(** What [copy_files] makes for a child that does not share the table. *)
Record forked s p (l : list file) u s' : Prop := {
  fk_others q : q <> p -> tables s' !! q = tables s !! q;
  fk_table : exists t, tables s' !! p = Some t /\ pwd t = pwd u /\ files_nlinks t = 1;
  fk_files i g f : fd_array_init l !! i = Some g -> fd_array u !! i = Some f -> file_of s' p i = Some (child g f);
  fk_cur : cur s' = cur s;
}.

Lemma wp_dup_files s F p l u b (Q : Z -> vfs X -> Prop) :
  sound s F -> low s b -> b < 2 ^ 29 -> tables s !! p = None -> length l = Z.to_nat FILES_STRUCT_NENTRY -> tables s !! cur s = Some u -> 0 < files_nlinks u ->
  (forall s', sound s' F -> low s' (b + 73) -> forked s p l u s' -> Q 0 s') ->
  wp (dup_files p (cur s)) Q (set_tables (<[p := new_table l]> (tables s)) s).
Proof.
  intros H Hlow Hb Hp Hl Hu Hlu HQ. set (s0 := set_tables _ s). pose proof (sound_create s F p l H Hp Hl) as H0. assert (Hne : cur s <> p) by congruence.
  assert (Hu0 : tables s0 !! cur s = Some u) by (cbn; by rewrite lookup_insert_ne). assert (Ht0 : tables s0 !! p = Some (new_table l)) by apply lookup_insert_eq.
  unfold dup_files. kstep. eapply wp_files_at; [exact Ht0|]. kstep. eapply wp_files_at; [exact Hu0|]. kstep. kstep; [done|]. apply wp_assoc.
  eapply (wp_share_pwd s0 F p (new_table l) (cur s) u b); [exact H0|exact Hlow|lia|exact Ht0|done|done|exact Hu0|done|].
  intros s1 Hc1 Hl1. cbv zeta. set (s2 := set_tables _ s1). intros H2. set (t2 := set_pwd (pwd u) (new_table l)) in *.
  assert (Ht2 : tables s2 !! p = Some t2) by apply lookup_insert_eq.
  assert (Hu2 : tables s2 !! cur s = Some u) by (cbn; rewrite lookup_insert_ne by done; by destruct Hc1 as (j&e&->)).
  kstep. eapply (wp_dup_loop _ 0 s2 F p (cur s) (b + 1)); [exact H2|exact Hl1|rewrite Z2Nat.id by done; change FILES_STRUCT_NENTRY with 72; lia|done|by eexists|by eexists|done| |].
  - intros j g _ (t&Ht&Hg)%file_of_Some. assert (t = t2) as -> by congruence. cbn in Hg. by apply fd_array_init_lookup in Hg as (g'&_&->).
  - intros s' Hs' Hl' Hsb _ Hge. kstep. apply HQ; [done|eapply low_le; [exact Hl'|rewrite Z2Nat.id by done; change FILES_STRUCT_NENTRY with 72; lia]|]. split.
    + intros q Hq. rewrite (same_but_ne p s2) by done. cbn. rewrite lookup_insert_ne by done. destruct Hc1 as (j&e&->). cbn. by rewrite lookup_insert_ne.
    + destruct (same_but_table p s2 s' t2 Hsb Ht2) as (l'&_&Hp'). by exists (set_fd_array l' t2).
    + intros i g f Hg Hf. apply Hge; [lia|apply file_of_Some; by exists t2|apply file_of_Some; by exists u].
    + rewrite (same_but_cur p s2) by done. by destruct Hc1 as (j&e&->).
Qed.

Lemma wp_copy_files s F flags o (Q : Z * Z -> vfs X -> Prop) :
  sound s F -> roomy s -> (forall p l, o = Some (p, l) -> tables s !! p = None /\ length l = Z.to_nat FILES_STRUCT_NENTRY) ->
  (cur s <> 0 -> exists u, tables s !! cur s = Some u /\ 0 < files_nlinks u < 2 ^ 31 - 1) ->
  (o = None -> cur s = 0 \/ has_flag flags CLONE_FILES = false -> Q (- E_NO_MEM, 0) s) ->
  (forall p l, cur s = 0 -> o = Some (p, l) -> let s' := set_tables (<[p := new_table l]> (tables s)) s in sound s' F -> Q (0, p) s') ->
  (forall u, cur s <> 0 -> has_flag flags CLONE_FILES = true -> tables s !! cur s = Some u ->
     let s' := set_tables (<[cur s := set_files_nlinks (files_nlinks u + 1) u]> (tables s)) s in sound s' F -> Q (0, cur s) s') ->
  (forall p l u s', cur s <> 0 -> has_flag flags CLONE_FILES = false -> o = Some (p, l) -> tables s !! cur s = Some u ->
     forked s p l u s' -> sound s' F -> Q (0, p) s') ->
  wp (copy_files flags o) Q s.
Proof.
  intros H Hr Ho Hcur HN H0 Hshare Hnew. unfold copy_files. kstep. kstep. cbv zeta.
  assert (Hcreate : forall (k : option Z -> K (vfs X) (Z * Z)),
    (o = None -> wp (k None) Q s) -> (forall p l, o = Some (p, l) -> wp (k (Some p)) Q (set_tables (<[p := new_table l]> (tables s)) s)) -> wp (r ← files_create o; k r) Q s).
  { intros k K1 K2. unfold files_create. destruct o as [[p l]|]; kstep; [kstep; kstep; kstep; by apply K2|kstep; by apply K1]. }
  destruct (decide (cur s = 0)) as [E|E].
  - rewrite bool_decide_true by done. apply Hcreate; [intros Eo; apply wp_ret; apply HN; [done|by left]|]. intros p l Eo. apply wp_ret. destruct (Ho p l Eo). by apply H0; [| |apply sound_create].
  - rewrite bool_decide_false by done. destruct (Hcur E) as (u&Hu&Hlu). destruct (has_flag flags CLONE_FILES) eqn:Ef.
    + unfold files_upd. kstep. kstep. eapply wp_files_at; [exact Hu|]. kstep. rewrite swrap_small by lia. kstep.
      apply Hshare; [done|done|done|]. apply sound_nlinks; [done|done|lia|lia].
    + apply Hcreate; [intros Eo; apply wp_ret; apply HN; [done|by right]|]. intros p l Eo. destruct (Ho p l Eo) as [Hp Hl]. kstep.
      eapply (wp_dup_files s F p l u (MAX_INODE_COUNT - 8)); [done|exact Hr|unfold MAX_INODE_COUNT; lia|done|done|done|lia|].
      intros s' Hs' _ Hf. kstep. by eapply Hnew.
Qed.
End fork.
