(* ===== verification/FilesCwd.v ===== *)
(** The working directory of a process: [vfs_chdir], on the invariant of
    [FilesSpec]. *)
From S2P Require Import Prelude Iobuf Vfs VfsSpec Files FilesSpec FilesOpen FilesFork.
#[local] Abbreviation length := Datatypes.length.

Section cwd.
Context {X : Type} (ops : Z -> inode_ops X) (fops : fs_ops X) {HL : VopLaws ops fops}.
Implicit Types (s : vfs X) (F : list (Z * nat)).
Abbreviation counted := (counted ops fops).
Context (L : Z -> Z).
Abbreviation sound := (sound ops fops L).

(** A table whose entries stay, with the directories that count changed. *)
Lemma counted_set_table s R O R' p t t' : counted s R O -> tables s !! p = Some t -> fd_array t' = fd_array t ->
  (forall n, n <> 0 -> held_pwd n t' + R' n = held_pwd n t + R n) -> (forall n, O n <= R' n) ->
  counted (set_tables (<[p := t']> (tables s)) s) R' O.
Proof.
  intros H Ht E Hr Hle. eapply counted_shift; [exact H|done|done|done| | |done]; intros n; [by rewrite (opens_set_table s p t)|].
  intros Hn. rewrite (need_set_table s p t) by done. specialize (Hr n Hn). lia.
Qed.

Lemma counted_lock s R O p t v : counted s R O -> tables s !! p = Some t -> counted (set_tables (<[p := set_files_sem v t]> (tables s)) s) R O.
Proof. intros H Ht. eapply counted_set_table; [exact H|exact Ht|done|intros n _; unfold held_pwd; cbn; lia|apply H]. Qed.

Lemma wp_files_upd p t f s (Q : () -> vfs X -> Prop) : tables s !! p = Some t -> Q () (set_tables (<[p := f t]> (tables s)) s) -> wp (files_upd p f) Q s.
Proof. intros Ht HQ. unfold files_upd. kstep. eapply wp_files_at; [exact Ht|]. by kstep. Qed.

(** The part between the locks: the directory of the process becomes [n], which
    the call holds, or stays. *)
Lemma wp_set_curdir s b n t (Q : Z -> vfs X -> Prop) :
  (forall k, 0 <= L k) -> counted s (add n 1 L) none -> low s b -> b + 1 < MAX_INODE_COUNT -> n <> 0 -> tables s !! cur s = Some t -> 0 < files_nlinks t ->
  (forall r d s1, calm s s1 -> low s1 (b + 1) -> d = pwd t \/ d = n ->
     let s' := set_tables (<[cur s := set_pwd d t]> (tables s1)) s1 in counted s' (add n 1 L) none -> Q r s') ->
  wp (set_curdir ops n) Q s.
Proof.
  intros HL0 H Hlow Hb Hn Ht Hl HQ. unfold set_curdir, get_cwd_nolock. kstep. kstep. kstep. kstep. eapply wp_files_at; [exact Ht|]. kstep.
  assert (Hsame : forall r s1, calm s s1 -> low s1 b -> counted s1 (add n 1 L) none -> Q r s1).
  { intros r s1 Hc Hl1 H1. assert (Ht1 : tables s1 !! cur s = Some t) by (by destruct Hc as (j&e&->)).
    assert (E : set_tables (<[cur s := set_pwd (pwd t) t]> (tables s1)) s1 = s1).
    { rewrite insert_id; [by destruct s1|]. rewrite Ht1. by destruct t. }
    rewrite <-E. apply HQ; [done|eapply low_le; [exact Hl1|lia]|by left|by rewrite E]. }
  destruct (decide (pwd t = n)) as [En|En]; [rewrite bool_decide_false by tauto; apply wp_ret, Hsame; [apply calm_id|done|done]|].
  rewrite (bool_decide_true (pwd t <> n)) by done. rewrite (bool_decide_true (n <> 0)) by done. pose proof (opens_need s n). pose proof (opens_nonneg s n). pose proof (HL0 n).
  destruct (counted_alive _ _ _ _ _ n H Hn) as (x&Hx&Hpos); [rewrite add_eq; lia|]. pose proof (Hlow n x Hx).
  destruct (vl_gettype _ _ s n x (co_ready _ _ _ _ _ H) Hx) as (f&Hf&Hwp). unfold vop_gettype. kstep. kstep. kstep.
  eapply wp_vop; [exact H|exact Hx|lia|exact Hf|]. eapply wp_mono; [exact Hwp|]. intros [r type] s2 [Hq Hready]. cbv beta iota.
  pose proof (quiet_calm _ _ Hq) as Hc2. pose proof (counted_quiet ops fops s s2 _ _ H Hq Hready) as G2. assert (Hl2 : low s2 b) by (by destruct Hq as [e ->]).
  destruct (decide (r = 0)) as [->|Hr].
  2: { rewrite (bool_decide_true (r <> 0)) by done. apply wp_ret. rewrite bool_decide_false by done. cbn [when]. kstep. kstep. kstep. by apply Hsame. }
  rewrite (bool_decide_false (0 <> 0)) by tauto. destruct (negb (S_ISDIR type)).
  { apply wp_ret. rewrite bool_decide_false by done. cbn [when]. kstep. kstep. kstep. by apply Hsame. }
  assert (Hx2 : inodes s2 !! n = Some x) by (by destruct Hq as [e ->]). unfold MAX_INODE_COUNT in *.
  kstep. eapply wp_inode_ref_inc; [exact G2|exact Hl2|lia|exact Hx2|done|]. intros s3 G3 Hl3 Hc3. kstep. rewrite (bool_decide_true (0 = 0)) by done. cbn [when].
  pose proof (calm_comp _ _ _ Hc2 Hc3) as Hc03. assert (Ht3 : tables s3 !! cur s = Some t /\ cur s3 = cur s) by (by destruct Hc03 as (j&e&->)). destruct Ht3 as [Ht3 Ec3].
  unfold set_cwd_nolock. kstep. kstep. kstep. kstep. rewrite Ec3. eapply wp_files_upd; [exact Ht3|]. set (s4 := set_tables _ s3).
  destruct (decide (pwd t = 0)) as [E0|E0].
  - rewrite (bool_decide_false (pwd t <> 0)) by tauto. cbn [when]. kstep. kstep. apply (HQ 0 n s3); [done|done|by right|].
    eapply counted_set_table; [exact G3|exact Ht3|done| |intros k; specialize (HL0 k); unfold add, none; case_decide; lia].
    intros k Hk. unfold held_pwd, eqz, add, none. cbn. rewrite !decide_True by done. repeat case_decide; subst; (lia || done).
  - rewrite (bool_decide_true (pwd t <> 0)) by done. cbn [when]. kstep.
    assert (G4 : counted s4 (add (pwd t) 1 (add n 1 L)) none).
    { eapply counted_set_table; [exact G3|exact Ht3|done| |intros k; specialize (HL0 k); unfold add, none; repeat case_decide; lia].
      intros k Hk. unfold held_pwd, eqz, add, none. cbn. rewrite !decide_True by done. repeat case_decide; subst; (lia || done). }
    pose proof (opens_need s4 (pwd t)). pose proof (opens_nonneg s4 (pwd t)).
    assert (Ea : add (pwd t) 1 (add n 1 L) (pwd t) = L (pwd t) + 1) by (unfold add; rewrite decide_True by done; by rewrite decide_False by done). specialize (HL0 (pwd t)).
    eapply (wp_inode_ref_dec ops fops s4 _ _ _ (b + 1)); [exact G4|exact Hl3|unfold MAX_INODE_COUNT; lia|exact E0|rewrite Ea; lia|rewrite Ea; unfold none; lia|].
    intros v s5 G5 Hl5 (j&e&->). kstep. kstep. apply (HQ 0 n (set_ext e (set_inodes j s3))); [eapply calm_comp; [exact Hc03|by exists j, e]|exact Hl5|by right|].
    eapply counted_ext; [exact G5|intros k; by rewrite add_back1|done].
Qed.
(** The table of the current process after [vfs_chdir]. *)
Definition turned s s' : Prop := exists d t s1, tables s !! cur s = Some t /\ calm s s1 /\ s' = set_tables (<[cur s := set_pwd d t]> (tables s1)) s1.

Lemma wlp_vfs_chdir s F t path (Q : Z -> vfs X -> Prop) :
  sound s F -> roomy s -> tables s !! cur s = Some t -> 0 < files_nlinks t ->
  (forall r s', turned s s' -> sound s' F -> Q r s') -> wlp (vfs_chdir ops fops path) Q s.
Proof.
  intros [H Htab Hst Hfew] Hr Ht Hl HQ. destruct (tk_len _ _ _ Htab (cur s) t Ht) as (_&_&Esem).
  assert (Eid : forall s1, tables s1 !! cur s = Some t -> set_tables (<[cur s := set_pwd (pwd t) t]> (tables s1)) s1 = s1).
  { intros s1 Ht1. rewrite insert_id; [by destruct s1|]. rewrite Ht1. by destruct t. }
  assert (Hend : forall r d s1, calm s s1 -> counted (set_tables (<[cur s := set_pwd d t]> (tables s1)) s1) L none ->
    Q r (set_tables (<[cur s := set_pwd d t]> (tables s1)) s1)).
  { intros r d s1 Hc H1. apply HQ; [by exists d, t, s1|]. split; [done| |by eapply (calm_steady s s1)|done].
    eapply tab_set_table; [by eapply tab_calm|by destruct Hc as (j&e&->)|done..]. }
  unfold vfs_chdir. lstep. eapply (wlp_vfs_lookup ops fops s L none (MAX_INODE_COUNT - 8)); [by apply roomy_ctx|unfold MAX_INODE_COUNT; lia|done|exact Ht|exact Hl|].
  intros r n path' s1 (Hc1&Hl1&_&Hf). cbv beta iota. assert (Ht1 : tables s1 !! cur s = Some t /\ cur s1 = cur s) by (by destruct Hc1 as (j&e&->)). destruct Ht1 as [Ht1 Ec1].
  destruct (decide (r = 0)) as [->|Hr0]; [|rewrite bool_decide_false by done; apply wlp_ret; rewrite <-(Eid s1 Ht1); apply Hend; [done|by rewrite Eid]].
  rewrite bool_decide_true by done. destruct Hf as [Hn H1]. unfold vfs_set_curdir, lock_files, unlock_files. apply wp_wlp. kstep. kstep. kstep.
  rewrite Ec1. kstep. kstep. eapply wp_files_at; [exact Ht1|]. kstep. kstep; [by rewrite Esem|]. eapply wp_files_upd; [exact Ht1|].
  set (s2 := set_tables _ s1). set (t2 := set_files_sem true t) in *. kstep.
  eapply (wp_set_curdir s2 (MAX_INODE_COUNT - 5) n t2); [intros k; by eapply leak_pos|by apply counted_lock|exact Hl1|unfold MAX_INODE_COUNT; lia|exact Hn|cbn; rewrite Ec1; apply lookup_insert_eq|exact Hl|].
  intros v d s3 Hc3 Hl3 _ s4 H4. assert (Ht3 : tables s3 !! cur s = Some t2) by (destruct Hc3 as (j&e&->); apply lookup_insert_eq).
  assert (Ht4 : tables s4 !! cur s = Some (set_pwd d t2)) by (unfold s4; cbn; rewrite Ec1; apply lookup_insert_eq).
  kstep. eapply wp_files_upd; [exact Ht4|]. kstep. pose proof (counted_lock s4 _ _ (cur s) _ false H4 Ht4) as H5. set (s5 := set_tables _ s4) in *. kstep.
  pose proof (opens_need s5 n). pose proof (opens_nonneg s5 n). pose proof (leak_pos _ _ _ _ n H).
  eapply (wp_inode_ref_dec ops fops s5 _ _ _ (MAX_INODE_COUNT - 4)); [exact H5|eapply low_le; [exact Hl3|lia]|unfold MAX_INODE_COUNT; lia|exact Hn|rewrite add_eq; unfold none; lia|rewrite add_eq; unfold none; lia|].
  intros w s6 H6 Hl6 (j6&e6&->). kstep. destruct Hc3 as (j3&e3&->).
  assert (E : set_ext e6 (set_inodes j6 s5) = set_tables (<[cur s := set_pwd d t]> (tables (set_ext e6 (set_inodes j6 s1)))) (set_ext e6 (set_inodes j6 s1))).
  { unfold s5, s4, s2, set_tables, set_ext, set_inodes. cbn. rewrite Ec1, !insert_insert_eq. do 2 f_equal. unfold set_files_sem, set_pwd, t2. cbn. by rewrite Esem. }
  rewrite E. apply Hend; [eapply calm_comp; [exact Hc1|by exists j6, e6]|]. rewrite <-E. eapply counted_ext; [exact H6|intros k; by rewrite add_back1|done].
Qed.
End cwd.
