(* ===== verification/FilesRun.v ===== *)
(** Processes that open, close, share and inherit files, interleaved: a run is any
    sequence of [fstep]s, and the invariant [fwf] holds all along it. *)
From S2P Require Import Prelude Iobuf Vfs VfsSpec Files FilesSpec FilesOpen FilesFork FilesCwd.
#[local] Abbreviation length := Datatypes.length.

(** ** Runs *)

(** The second half of a call that was cut at an operation of the inode. *)
Inductive ending :=
| EndIo (write : bool) (iob : iobuf)
| EndSeek (off whence : Z)
| EndFstat
| EndFsync
| EndDirentry (base offset : Z).

Section run.
Context {X : Type} (ops : Z -> inode_ops X) (fops : fs_ops X).

Definition file_end (e : ending) (p : Z) (i : nat) : K (vfs X) () :=
  match e with
  | EndIo write iob => file_io_end ops write p i iob;; mret ()
  | EndSeek off whence => file_seek_end ops p i off whence;; mret ()
  | EndFstat => file_fstat_end ops p i;; mret ()
  | EndFsync => file_fsync_end ops p i;; mret ()
  | EndDirentry base offset => file_getdirentry_end ops p i base offset;; mret ()
  end.

(** The state, the calls that are under way, the tables of the processes (0 is
    NULL), and how many times a file has been opened with O_CREAT. *)
Record fstate := mk_fstate { f_vfs : vfs X; f_calls : list (Z * nat); f_procs : list Z; f_creates : Z }.

Definition set_cur (v : Z) (s : vfs X) : vfs X := mk_vfs (inodes s) (vdev_list s) (vdev_list_sem s) (bootfs_node s) (bootfs_sem s) (tables s) v (ext s).

Definition holders (H : list Z) (p : Z) : Z := count (fun q => bool_decide (q = p)) H.
Definition calls (F : list (Z * nat)) (p : Z) : Z := count (fun c => bool_decide (c.1 = p)) F.

(** The current process is not inside a call itself; every other process is
    inside one call at most. *)
Definition at_ease (s : vfs X) F H : Prop := calls F (cur s) < holders H (cur s) /\ (length F < length H)%nat.

(** What the memory allocator promises for a new table. *)
Definition fresh_table (s : vfs X) (o : option (Z * list file)) : Prop :=
  forall p l, o = Some (p, l) -> p <> 0 /\ tables s !! p = None /\ length l = Z.to_nat FILES_STRUCT_NENTRY.

(** One step, of the process whose table is [cur]. *)
Inductive fmove : fstate -> fstate -> Prop :=
| st_switch s F H c p : p ∈ H -> fmove (mk_fstate s F H c) (mk_fstate (set_cur p s) F H c)
| st_open s F H c path flags r s' : cur s <> 0 -> at_ease s F H -> file_open ops fops path flags s = Done (r, s') ->
    fmove (mk_fstate s F H c) (mk_fstate s' F H (c + b2z (has_flag flags O_CREAT)))
| st_close s F H c n r s' : cur s <> 0 -> at_ease s F H -> file_close ops n s = Done (r, s') ->
    fmove (mk_fstate s F H c) (mk_fstate s' F H c)
| st_dup s F H c n1 n2 r s' : cur s <> 0 -> at_ease s F H -> file_dup n1 n2 s = Done (r, s') ->
    fmove (mk_fstate s F H c) (mk_fstate s' F H c)
| st_chdir s F H c path r s' : cur s <> 0 -> at_ease s F H -> vfs_chdir ops fops path s = Done (r, s') ->
    fmove (mk_fstate s F H c) (mk_fstate s' F H c)
| st_begin s F H c n ok i s' : cur s <> 0 -> at_ease s F H -> file_begin n ok s = Done ((0, i), s') ->
    fmove (mk_fstate s F H c) (mk_fstate s' ((cur s, i) :: F) H c)
| st_end s F F' H c p i e s' : F ≡ₚ (p, i) :: F' -> file_end e p i s = Done ((), s') ->
    fmove (mk_fstate s F H c) (mk_fstate s' F' H c)
| st_fork s F H c flags o p s' : at_ease s F H -> fresh_table s o -> Z.of_nat (length H) + 1 < 2 ^ 20 -> copy_files flags o s = Done ((0, p), s') ->
    fmove (mk_fstate s F H c) (mk_fstate s' F (p :: H) c)
| st_exit s F H H' c s' : at_ease s F H -> H ≡ₚ cur s :: H' -> put_files ops (cur s) s = Done ((), s') ->
    fmove (mk_fstate s F H c) (mk_fstate s' F H' c).

(** No inode is about to reach the limit on its references. *)
Definition fstep (a b : fstate) : Prop := roomy (f_vfs a) /\ fmove a b.

(** ** The invariant *)

Context {HL : VopLaws ops fops}.
Implicit Types (s : vfs X) (F : list (Z * nat)) (H : list Z) (L : Z -> Z).
Abbreviation sound := (sound ops fops).

(** [L n]: the references to [n] that are lost. *)
Record fwf L (st : fstate) : Prop := {
  fw_sound : sound L (f_vfs st) (f_calls st);
  fw_leak n : L n <= f_creates st;
  fw_links p t : tables (f_vfs st) !! p = Some t -> p <> 0 /\ files_nlinks t = holders (f_procs st) p /\ 0 < holders (f_procs st) p;
  fw_procs p : p ∈ f_procs st -> p = 0 \/ is_Some (tables (f_vfs st) !! p);
  fw_calls p : calls (f_calls st) p <= holders (f_procs st) p;
  fw_length : (length (f_calls st) <= length (f_procs st))%nat;
  fw_few : Z.of_nat (length (f_procs st)) < 2 ^ 20;
}.

Definition links s (p : Z) : option Z := files_nlinks <$> tables s !! p.

Lemma links_set_file s p i y q : links (set_file p i y s) q = links s q.
Proof.
  unfold links, set_file. cbn. destruct (decide (q = p)) as [->|]; [|by rewrite lookup_alter_ne]. rewrite lookup_alter_eq. by destruct (tables s !! p).
Qed.

Lemma links_calm s s' q : calm s s' -> links s' q = links s q.
Proof. by intros (j&e&->). Qed.

Lemma links_done L s F p i y s' q : done_with ops fops L s F p i y s' -> links s' q = links s q.
Proof. intros [_ (s1&Hc&->)]. rewrite links_set_file. by apply links_calm. Qed.

Lemma links_turned s s' q : turned s s' -> links s' q = links s q.
Proof.
  intros (d&t&s1&Ht&(j&e&->)&->). unfold links. cbn. destruct (decide (q = cur s)) as [->|]; [by rewrite lookup_insert_eq, Ht|by rewrite lookup_insert_ne].
Qed.

Lemma fwf_same L L' s s' F F' H c c' : fwf L (mk_fstate s F H c) -> sound L' s' F' -> (forall n, L' n <= c') -> (forall q, links s' q = links s q) ->
  (forall p, calls F' p <= holders H p) -> (length F' <= length H)%nat -> fwf L' (mk_fstate s' F' H c').
Proof.
  intros [A1 A2 A3 A4 A5 A6 A7] Hs Hk Hlk Hc Hl. cbn in *. split; cbn; try done.
  - intros p t' Ht'. specialize (Hlk p). unfold links in Hlk. rewrite Ht' in Hlk. symmetry in Hlk. apply fmap_Some in Hlk as (t&Ht&E). rewrite E. by apply A3.
  - intros p [|[t Ht]]%A4; [by left|right]. specialize (Hlk p). unfold links in Hlk. rewrite Ht in Hlk. by destruct (tables s' !! p).
Qed.

Lemma holders_pos H p : 0 < holders H p -> p ∈ H.
Proof.
  intros Hp. destruct (decide (p ∈ H)) as [|Hn]; [done|]. unfold holders in Hp. rewrite count_zero in Hp; [lia|].
  intros q Hq. apply bool_decide_eq_false. by intros ->.
Qed.

Lemma calls_nonneg F p : 0 <= calls F p.
Proof. unfold calls. apply count_bounds. Qed.

Lemma fwf_cur L s F H c : fwf L (mk_fstate s F H c) -> cur s <> 0 -> at_ease s F H -> exists t, tables s !! cur s = Some t /\ 0 < files_nlinks t < 2 ^ 31 - 1.
Proof.
  intros Hw Hc [He _]. pose proof (calls_nonneg F (cur s)). destruct (fw_procs _ _ Hw (cur s)) as [|[t Ht]]; [apply (holders_pos H); lia|done|].
  exists t. split; [done|]. destruct (fw_links _ _ Hw _ t Ht) as (_&->&?). cbn in *. pose proof (fw_few _ _ Hw) as Hfew. cbn in Hfew.
  pose proof (count_bounds (fun q => bool_decide (q = cur s)) H). unfold holders in *. lia.
Qed.

Lemma wlp_result {A} (m : K (vfs X) A) (Q : A -> vfs X -> Prop) s a s' : wlp m Q s -> m s = Done (a, s') -> Q a s'.
Proof. unfold wlp. intros Hm E. by rewrite E in Hm. Qed.
Lemma wlp_file_end L s F F' p i e (Q : () -> vfs X -> Prop) :
  sound L s F -> roomy s -> F ≡ₚ (p, i) :: F' -> (forall y s', done_with ops fops L s F' p i y s' -> Q () s') -> wlp (file_end e p i) Q s.
Proof.
  intros Hs Hr HF HQ. destruct (tk_fly _ _ _ (so_tab _ _ _ _ _ Hs) p i) as (t&f&Ht&Hf); [rewrite HF; by left|].
  assert (Hfo : file_of s p i = Some f) by (apply file_of_Some; by exists t).
  destruct e; cbn [file_end]; apply wlp_bind.
  - eapply wlp_io_end; [done..|]. intros r copied s' Hd. apply wlp_ret. by eapply HQ.
  - eapply wlp_seek_end; [done..|]. intros r s' v Hd. apply wlp_ret. by eapply HQ.
  - eapply wlp_fstat_end; [done..|]. intros r s' Hd. apply wlp_ret. by eapply HQ.
  - eapply wlp_fsync_end; [done..|]. intros r s' Hd. apply wlp_ret. by eapply HQ.
  - eapply wlp_getdirentry_end; [done..|]. intros r s' Hd. apply wlp_ret. by eapply HQ.
Qed.

Lemma sound_cur L v s F : sound L s F -> sound L (set_cur v s) F.
Proof.
  intros [[A1 A2 A3 A4 A5 A6] [B1 B2 B3] Hst Hfew]. split; [split; try done; by eapply vl_stable|by split|done|done].
Qed.

Lemma calls_cons F p i q : calls ((p, i) :: F) q = calls F q + b2z (bool_decide (p = q)).
Proof. unfold calls. rewrite count_cons. cbn [fst]. lia. Qed.

Lemma holders_cons H p q : holders (p :: H) q = holders H q + b2z (bool_decide (p = q)).
Proof. unfold holders. rewrite count_cons. lia. Qed.

Lemma calls_idle F p : calls F p <= 0 -> idle F p.
Proof.
  intros Hc i Hi. pose proof (count_pos (fun c => bool_decide (c.1 = p)) F (p, i) Hi) as Hp. cbn in Hp. rewrite bool_decide_true in Hp by done.
  specialize (Hp eq_refl). unfold calls in Hc. lia.
Qed.

Lemma fwf_fork L s F H c flags o p s' : fwf L (mk_fstate s F H c) -> roomy s -> at_ease s F H -> fresh_table s o -> Z.of_nat (length H) + 1 < 2 ^ 20 ->
  copy_files flags o s = Done ((0, p), s') -> fwf L (mk_fstate s' F (p :: H) c).
Proof.
  intros Hw Hr He Ho Hfew. pose proof (fwf_cur L s F H c Hw) as Hcur. destruct Hw as [A1 A7 A2 A3 A4 A5 A6]. cbn [f_vfs f_calls f_procs f_creates] in *.
  assert (Hnew : forall t, tables s !! p = None -> p <> 0 -> files_nlinks t = 1 -> tables s' !! p = Some t -> (forall q, q <> p -> tables s' !! q = tables s !! q) ->
    sound L s' F -> fwf L (mk_fstate s' F (p :: H) c)).
  { intros t Hp Hp0 Hlk Ht Hoth Hs'. assert (Hh : holders H p = 0).
    { apply count_zero. intros q Hq. apply bool_decide_eq_false. intros ->. destruct (A3 p Hq) as [|[u Hu]]; congruence. }
    split; cbn [f_vfs f_calls f_procs f_creates length]; [done|done| | | |lia|lia].
    - intros q u Hu. rewrite holders_cons. destruct (decide (q = p)) as [->|Hq].
      + rewrite bool_decide_true, Hh by done. assert (u = t) as -> by congruence. unfold b2z. lia.
      + rewrite bool_decide_false by done. rewrite Hoth in Hu by done. unfold b2z. destruct (A2 q u Hu) as (?&?&?). lia.
    - intros q Hq. destruct (decide (q = p)) as [->|Hqp]; [right; by eexists|]. rewrite Hoth by done. apply A3. by apply elem_of_cons in Hq as [|].
    - intros q. rewrite holders_cons. specialize (A4 q). unfold b2z. case_match; lia. }
  enough (Hq : wlp (copy_files flags o) (fun r s1 => r = (0, p) -> s1 = s' -> fwf L (mk_fstate s' F (p :: H) c)) s) by (intros E; exact (wlp_result _ _ _ _ _ Hq E eq_refl eq_refl)).
  apply wp_wlp. eapply (wp_copy_files ops fops L s F); [exact A1|exact Hr|intros q l Eo; by apply (Ho q l Eo)|intros Hc; by apply Hcur|by intros _ _ ?| | |].
  - intros q l Hc Eo s1 Hs1 [= ->] Es. destruct (Ho p l Eo) as (G1&G2&_). subst s'. eapply (Hnew (new_table l)); try done; [apply lookup_insert_eq|].
    intros q Hq. cbn. by rewrite lookup_insert_ne.
  - intros u Hc _ Hu s1 Hs1 [= <-] Es. destruct (Hcur Hc He) as (u'&Hu'&Hl). assert (u' = u) as -> by congruence.
    subst s'. split; cbn [f_vfs f_calls f_procs f_creates length]; [done|done| | | |lia|lia].
    + intros q t. unfold s1. cbn [tables set_tables]. rewrite holders_cons, lookup_insert_Some. intros [[<- <-]|[Hq Ht]].
      * rewrite bool_decide_true by done. destruct (A2 _ u Hu) as (?&?&?). cbn. lia.
      * rewrite bool_decide_false by done. destruct (A2 q t Ht) as (?&?&?). unfold b2z. lia.
    + intros q Hq. destruct (decide (q = cur s)) as [->|Hqp]; [right; unfold s1; cbn [tables set_tables]; by rewrite lookup_insert_eq|].
      unfold s1; cbn [tables set_tables]. rewrite lookup_insert_ne by done. apply A3. by apply elem_of_cons in Hq as [|].
    + intros q. rewrite holders_cons. specialize (A4 q). unfold b2z. case_match; lia.
  - intros q l u s1 Hc _ Eo Hu Hf Hs1 [= ->] ->. destruct (Ho p l Eo) as (G1&G2&_). destruct (fk_table _ _ _ _ _ Hf) as (t&Ht&_&Hlk).
    eapply (Hnew t); try done. apply Hf.
Qed.
Lemma fwf_exit L s F H H' c s' : fwf L (mk_fstate s F H c) -> roomy s -> at_ease s F H -> H ≡ₚ cur s :: H' -> put_files ops (cur s) s = Done ((), s') ->
  fwf L (mk_fstate s' F H' c).
Proof.
  intros Hw Hr He HP. pose proof (fwf_cur L s F H c Hw) as Hcur. destruct Hw as [A1 A7 A2 A3 A4 A5 A6], He as [He1 He2]. cbn [f_vfs f_calls f_procs f_creates] in *.
  assert (Hlen : length H = S (length H')) by (by rewrite HP).
  assert (Hh : forall q, holders H q = holders H' q + b2z (bool_decide (cur s = q))) by (intros q; unfold holders; rewrite (count_perm _ _ _ HP), count_cons; lia).
  assert (Hc : forall q, calls F q <= holders H' q).
  { intros q. specialize (A4 q). rewrite Hh in A4. destruct (decide (cur s = q)) as [<-|]; [rewrite Hh, bool_decide_true in He1 by done|rewrite bool_decide_false in A4 by done]; unfold b2z in *; lia. }
  assert (Hin : forall q, q ∈ H' -> q ∈ H) by (intros q Hq; rewrite HP; by right).
  assert (Hpos : forall q, 0 <= holders H' q) by (intros q; apply count_bounds).
  enough (Hq : wlp (put_files ops (cur s)) (fun _ s1 => fwf L (mk_fstate s1 F H' c)) s) by (intros E; by apply (wlp_result _ _ _ _ _ Hq E)).
  apply wp_wlp. destruct (decide (cur s = 0)) as [E0|E0].
  { unfold put_files. rewrite bool_decide_true by done. apply wp_ret. split; cbn [f_vfs f_calls f_procs f_creates]; try done; [|by intros q Hq; apply A3, Hin|lia|lia].
    intros q t Ht. destruct (A2 q t Ht) as (Hq&E1&E2). rewrite Hh, bool_decide_false in E1, E2 by congruence. unfold b2z in *. split_and!; [done|lia|lia]. }
  destruct (Hcur E0) as (t&Ht&Hl); [done|]. destruct (A2 _ t Ht) as (_&El&_). pose proof (Hh (cur s)) as Hhc. rewrite bool_decide_true in Hhc by done. unfold b2z in Hhc.
  eapply (wp_put_files ops fops L s F (cur s) t); [done|done|done|done|lia|intros E1; apply calls_idle; lia| |].
  - intros Hl1 s1 Hs1. unfold s1. split; cbn [f_vfs f_calls f_procs f_creates tables set_tables]; try done; [| |lia|lia].
    + intros q u. rewrite lookup_insert_Some. intros [[<- <-]|[Hq Hu]]; [cbn [files_nlinks set_files_nlinks]; split_and!; [done|lia|lia]|].
      destruct (A2 q u Hu) as (?&E1&E2). rewrite Hh, bool_decide_false in E1, E2 by done. unfold b2z in *. split_and!; [done|lia|lia].
    + intros q Hq. destruct (decide (q = cur s)) as [->|Hqp]; [right; by rewrite lookup_insert_eq|]. rewrite lookup_insert_ne by done. by apply A3, Hin.
  - intros Hl1 s1 Hs1 Hr1 (j&e&->). split; cbn [f_vfs f_calls f_procs f_creates tables set_tables set_ext set_inodes]; try done; [| |lia|lia].
    + intros q u. rewrite lookup_delete_Some. intros [Hq Hu].
      destruct (A2 q u Hu) as (?&E1&E2). rewrite Hh, bool_decide_false in E1, E2 by done. unfold b2z in *. split_and!; [done|lia|lia].
    + intros q Hq. rewrite lookup_delete_ne; [by apply A3, Hin|]. intros <-. pose proof (count_pos (fun c => bool_decide (c = cur s)) H' (cur s) Hq) as Hp.
      cbv beta in Hp. rewrite bool_decide_true in Hp by done. specialize (Hp eq_refl). unfold holders in *. lia.
Qed.

Lemma fwf_done L L' s F H c c' p i y s' : fwf L (mk_fstate s F H c) -> done_with ops fops L' s F p i y s' -> (forall n, L' n <= c') -> fwf L' (mk_fstate s' F H c').
Proof. intros Hw Hd Hk. eapply fwf_same; [exact Hw|apply Hd|done|intros q; by eapply links_done|apply (fw_calls _ _ Hw)|apply (fw_length _ _ Hw)]. Qed.

Lemma fwf_wlp {A} (m : K (vfs X) A) F H c s a s' : m s = Done (a, s') -> wlp m (fun _ s1 => exists L, fwf L (mk_fstate s1 F H c)) s ->
  exists L, fwf L (mk_fstate s' F H c).
Proof. unfold wlp. by intros ->. Qed.

Lemma fwf_open L s F H c t path flags r s' : fwf L (mk_fstate s F H c) -> roomy s -> tables s !! cur s = Some t -> 0 < files_nlinks t ->
  file_open ops fops path flags s = Done (r, s') -> exists L', fwf L' (mk_fstate s' F H (c + b2z (has_flag flags O_CREAT))).
Proof.
  intros Hw Hr Ht Hl E. pose proof (fw_leak _ _ Hw) as Hk. cbn [f_creates] in Hk. apply (fwf_wlp _ _ _ _ _ _ _ E).
  assert (Hk' : forall L' n, leaked flags L L' -> L' n <= c + b2z (has_flag flags O_CREAT)).
  { intros L' n Hleak. pose proof (leaked_le flags L L' n Hleak). specialize (Hk n). unfold b2z, Z.b2z in *. lia. }
  assert (Hsame : exists L', fwf L' (mk_fstate s F H (c + b2z (has_flag flags O_CREAT)))).
  { exists L. eapply fwf_same; [exact Hw|apply Hw| |done|apply (fw_calls _ _ Hw)|apply (fw_length _ _ Hw)]. intros n. apply Hk', leaked_refl. }
  apply (runs_file_open ops fops false L s F t path flags (fun _ _ => True)); [apply Hw|done|done| |done|done| |].
  - intros i f Hf Hs s1. apply (wlp_open_any ops fops L s F t); [apply Hw|done..].
  - intros i f ret n r' L' s1 _ _ _ _ _ _ _ Hleak (y&_&Hd). exists L'. eapply fwf_done; [exact Hw|exact Hd|]. intros m. by apply Hk'.
  - intros i f r' w size n L' s1 _ _ _ _ _ _ Hleak Hd. exists L'. eapply fwf_done; [exact Hw|exact Hd|]. intros m. by apply Hk'.
Qed.

Lemma fwf_fmove L a b : fwf L a -> roomy (f_vfs a) -> fmove a b -> exists L', fwf L' b.
Proof.
  intros Hw Hr Hm. pose proof (fw_leak _ _ Hw) as Hk. destruct Hm as [s F H c p Hp|s F H c path flags r s' Hc He E|s F H c n r s' Hc He E|s F H c n1 n2 r s' Hc He E|
    s F H c path r s' Hc He E|s F H c n ok i s' Hc He E|s F F' H c p i e s' HF E|s F H c flags o p s' He Ho Hfew E|s F H H' c s' He HP E]; cbn [f_vfs f_creates] in *.
  - exists L. eapply fwf_same; [exact Hw|apply sound_cur, Hw|done|done|apply (fw_calls _ _ Hw)|apply (fw_length _ _ Hw)].
  - destruct (fwf_cur L s F H c Hw Hc He) as (t&Ht&Hl). eapply fwf_open; [exact Hw|done|exact Ht|lia|exact E].
  - destruct (fwf_cur L s F H c Hw Hc He) as (t&Ht&Hl). apply (fwf_wlp _ _ _ _ _ _ _ E), wp_wlp. eapply wp_file_close; [apply Hw|exact Hr|exact Ht|intros _; by exists L|].
    intros i f s1 _ Hd. exists L. by eapply fwf_done.
  - destruct (fwf_cur L s F H c Hw Hc He) as (t&Ht&Hl). apply (fwf_wlp _ _ _ _ _ _ _ E), wp_wlp.
    eapply (wp_file_dup ops fops L); [apply Hw|exact Hr|exact Ht|intros r' _; by exists L|].
    intros i f j g s1 _ _ _ _ _ Hd. exists L. by eapply fwf_done.
  - destruct (fwf_cur L s F H c Hw Hc He) as (t&Ht&Hl). apply (fwf_wlp _ _ _ _ _ _ _ E). eapply wlp_vfs_chdir; [apply Hw|exact Hr|exact Ht|lia|].
    intros r' s1 Htu Hs1. exists L. eapply fwf_same; [exact Hw|exact Hs1|done|intros q; by apply links_turned|apply (fw_calls _ _ Hw)|apply (fw_length _ _ Hw)].
  - destruct (fwf_cur L s F H c Hw Hc He) as (t&Ht&Hl). pose proof (fw_few _ _ Hw) as Hfew. cbn [f_procs] in Hfew. destruct He as [He1 He2]. exists L.
    enough (Hq : wlp (file_begin n ok) (fun r s1 => r.1 = 0 -> fwf L (mk_fstate s1 ((cur s, r.2) :: F) H c)) s) by exact (wlp_result _ _ _ _ _ Hq E eq_refl).
    apply wp_wlp. eapply (wp_file_begin ops fops L s F t); [apply Hw|lia|exact Ht|done|].
    intros j f s1 _ _ Hd _. cbn [fst snd]. eapply fwf_same; [exact Hw|apply Hd|done|intros q; by eapply links_done| |cbn [length]; lia].
    intros q. rewrite calls_cons. pose proof (fw_calls _ _ Hw q) as Hq. cbn [f_calls f_procs] in Hq. destruct (decide (cur s = q)) as [<-|]; [rewrite bool_decide_true by done|rewrite bool_decide_false by done]; unfold b2z; lia.
  - apply (fwf_wlp _ _ _ _ _ _ _ E). eapply wlp_file_end; [apply Hw|exact Hr|exact HF|]. intros y s1 Hd. exists L.
    pose proof (fw_length _ _ Hw) as Hlen. cbn [f_calls f_procs] in Hlen. rewrite HF in Hlen. cbn [length] in Hlen.
    eapply fwf_same; [exact Hw|apply Hd|done|intros q; by eapply links_done| |lia].
    intros q. pose proof (fw_calls _ _ Hw q) as Hq. cbn [f_calls f_procs] in Hq. unfold calls in *. rewrite (count_perm _ _ _ HF), count_cons in Hq. unfold b2z in Hq. case_match; lia.
  - exists L. by eapply fwf_fork.
  - exists L. by eapply fwf_exit.
Qed.

(** How many references there can be: a table holds one for each of its entries
    and one for its directory. *)
Lemma need_bound s F N n : tab_ok s F N ->
  need s n <= (FILES_STRUCT_NENTRY + 1) * Z.of_nat (size (tables s)) + Z.of_nat (length (vdev_list s)) + 1.
Proof.
  intros Ht. unfold need. pose proof (count_bounds (fun d => bool_decide (devnode d = n)) (vdev_list s)). fold (devs s n) in *.
  pose proof (eqz_range (bootfs_node s) n). assert (opens s n <= FILES_STRUCT_NENTRY * Z.of_nat (size (tables s))).
  { apply msum_le. intros p t Hp. destruct (tk_len _ _ _ Ht p t Hp) as (E&_&_). pose proof (count_bounds (holds n) (fd_array t)).
    rewrite E, Z2Nat.id in * by done. lia. }
  assert (pwds s n <= 1 * Z.of_nat (size (tables s))) by (apply msum_le; intros p t _; apply held_pwd_range). lia.
Qed.

Lemma fwf_run L a b : fwf L a -> rtc fstep a b -> exists L', fwf L' b.
Proof. intros Hw. apply (rtc_ind_r (fun b => exists L', fwf L' b)); [by exists L|]. intros b' c _ [Hr Hm] [L' Hb]. by eapply fwf_fmove. Qed.
End run.
