(* ===== verification/Devs.v ===== *)
(** kern/fs/devs/dev.c and dev_stdout.c: devices as inodes.  The functions of a
    device are behind the record [dev_ops], as in dev.h; [DevLaws] is what the
    file layer needs of them, and with it device inodes meet [VopLaws]. *)
From S2P Require Import Prelude Cstring Iobuf Vfs VfsSpec.
#[local] Abbreviation length := Datatypes.length.

Definition S_IFCHR := 0x4000.
Definition S_IFBLK := 0x5000.

(** ** Data *)

(** dev.h, [struct device]; [d_fun] numbers the table of functions. *)
Record device := mk_device { d_blocks : Z; d_blocksize : Z; d_fun : Z }.

(** The devices of the inodes, the memory behind I/O buffers, and the console. *)
Record dev_state := mk_dev_state { dev_info : gmap Z device; dmem : mem; printed : list Z }.
Definition set_dev_info (v : gmap Z device) (x : dev_state) := mk_dev_state v (dmem x) (printed x).
Definition set_printed (v : list Z) (x : dev_state) := mk_dev_state (dev_info x) (dmem x) v.

Abbreviation W := (vfs dev_state).

Record dev_ops := mk_dev_ops {
  d_open : Z -> Z -> K W Z;
  d_close : Z -> K W Z;
  d_io : Z -> iobuf -> bool -> K W (Z * iobuf);
}.

Definition no_ops : inode_ops dev_state := mk_inode_ops _ None None None None None None None None None None None None None None.

(** ** dev.c *)

Section dev.
Context (dops : Z -> dev_ops) (ops : Z -> inode_ops dev_state).

(** [vop_info]. *)
Definition dev_at (n : Z) : K W device := s ← get; unwrap (dev_info (ext s) !! n).

Definition dev_open (n flags : Z) : K W Z :=
  if has_flag flags (Z.lor O_CREAT (Z.lor O_TRUNC (Z.lor O_EXCL O_APPEND))) then mret (- E_INVAL)
  else d ← dev_at n; d_open (dops (d_fun d)) n flags.
Definition dev_close (n : Z) : K W Z := d ← dev_at n; d_close (dops (d_fun d)) n.
Definition dev_read (n : Z) (iob : iobuf) : K W (Z * iobuf) := d ← dev_at n; d_io (dops (d_fun d)) n iob false.
Definition dev_write (n : Z) (iob : iobuf) : K W (Z * iobuf) := d ← dev_at n; d_io (dops (d_fun d)) n iob true.

Definition dev_gettype (n : Z) : K W (Z * Z) := d ← dev_at n; mret (0, if 0 <? d_blocks d then S_IFBLK else S_IFCHR).

Definition dev_fstat (n : Z) : K W (Z * stat) :=
  '(ret, type) ← vop_gettype ops n;
  if bool_decide (ret <> 0) then mret (ret, mk_stat type 0 0 0)
  else d ← dev_at n; mret (0, mk_stat type 1 (d_blocks d) (u64 (d_blocks d * d_blocksize d))).

(** The position is compared with sizes that are unsigned. *)
Definition dev_tryseek (n p : Z) : K W Z :=
  d ← dev_at n;
  if 0 <? d_blocks d then
    assert (bool_decide (d_blocksize d <> 0));;
    mret (if (u64 p mod d_blocksize d =? 0) && (0 <=? p) && (u64 p <? u64 (d_blocks d * d_blocksize d)) then 0 else - E_INVAL)
  else mret (- E_INVAL).

Definition dev_lookup (n : Z) (path : list Z) : K W (Z * Z) :=
  match path with
  | [] => inode_ref_inc n;; mret (0, n)
  | _ => mret (- E_NOENT, 0)
  end.

Definition dev_node_ops : inode_ops dev_state :=
  mk_inode_ops _ (Some dev_open) (Some dev_close) (Some dev_read) (Some dev_write) (Some dev_fstat) None None None None
    (Some dev_gettype) (Some dev_tryseek) None None (Some dev_lookup).
End dev.

(** The number of [dev_node_ops]. *)
Definition DEV_OPS := 1.

(** [dev_fstat] calls [dev_gettype] through the table it is in. *)
Definition dev_table (dops : Z -> dev_ops) : Z -> inode_ops dev_state :=
  let t ops := fun k => if k =? DEV_OPS then dev_node_ops dops ops else no_ops in t (t (fun _ => no_ops)).

(** There is no file system on these devices. *)
Definition no_fs : fs_ops dev_state := mk_fs_ops _ (fun _ => panic) (fun _ => panic) (fun _ => panic) (fun _ => panic).

(** [alloc_inode] returns [o]. *)
Definition dev_create_inode (o : option Z) : K W (option Z) :=
  match o with
  | None => mret None
  | Some n => inode_init n DEV_OPS 0;; mret (Some n)
  end.

(** ** dev_stdout.c *)

Definition stdout_open (n flags : Z) : K W Z := mret (if bool_decide (flags <> O_WRONLY) then - E_INVAL else 0).
Definition stdout_close (n : Z) : K W Z := mret 0.

Definition cputchar (c : Z) : K W () := modify (fun s => set_ext (set_printed (printed (ext s) ++ [c]) (ext s)) s).

(** Prints [n] bytes from [data]. *)
Fixpoint put_bytes (n : nat) (data : Z) : K W () :=
  match n with
  | O => mret ()
  | S n => s ← get; c ← unwrap (dmem (ext s) !! data); cputchar c;; put_bytes n (data + 1)
  end.

Definition stdout_io (n : Z) (iob : iobuf) (write : bool) : K W (Z * iobuf) :=
  if write then
    put_bytes (Z.to_nat (io_resid iob)) (io_base iob);;
    mret (0, mk_iobuf (io_base iob) (io_offset iob) (io_len iob) 0)
  else mret (- E_INVAL, iob).

Definition stdout_ops : dev_ops := mk_dev_ops stdout_open stdout_close stdout_io.

(** The number of [stdout_ops]. *)
Definition STDOUT := 2.
Definition stdout_device_init (n : Z) : K W () :=
  modify (fun s => set_ext (set_dev_info (<[n := mk_device 0 1 STDOUT]> (dev_info (ext s))) (ext s)) s).

Definition stdout_name : list Z := [115; 116; 100; 111; 117; 116].
Definition dev_init_stdout (o : option Z) (mem : bool) : K W () :=
  r ← dev_create_inode o;
  n ← unwrap r;
  stdout_device_init n;;
  ret ← vfs_add_dev mem stdout_name n false;
  assert (bool_decide (ret = 0)).

(** ** Device inodes meet the contract of the file layer *)

(** [m] touches nothing but what the devices keep for themselves. *)
Definition dev_quiet (s s' : W) : Prop := exists e, s' = set_ext e s /\ dev_info e = dev_info (ext s).

Class DevLaws (dops : Z -> dev_ops) := {
  dl_open k n flags s : wp (d_open (dops k) n flags) (fun r s' => r <= 0 /\ dev_quiet s s') s;
  dl_close k n s : wp (d_close (dops k) n) (fun _ s' => dev_quiet s s') s;
  dl_read k n iob s : wp (d_io (dops k) n iob false) (fun _ s' => dev_quiet s s') s;
  dl_write k n iob s : wlp (d_io (dops k) n iob true) (fun _ s' => dev_quiet s s') s;
}.

(** Every inode is one of a device. *)
Definition dev_ready (s : W) : Prop := forall n x, inodes s !! n = Some x -> n <> 0 /\ in_ops x = DEV_OPS /\ is_Some (dev_info (ext s) !! n).

Lemma dev_quiet_refl s : dev_quiet s s.
Proof. exists (ext s). by destruct s. Qed.
Lemma dev_quiet_ready s s' : dev_ready s -> dev_quiet s s' -> quiet s s' /\ dev_ready s'.
Proof. intros Hr (e&->&E). split; [by exists e|]. intros n x Hx. cbn. rewrite E. by apply Hr. Qed.

Section laws.
Context (dops : Z -> dev_ops) {HD : DevLaws dops}.

Lemma wp_dev_at s n x (Q : device -> W -> Prop) : dev_ready s -> inodes s !! n = Some x -> (forall d, dev_info (ext s) !! n = Some d -> Q d s) -> wp (dev_at n) Q s.
Proof. intros Hr Hx HQ. destruct (Hr n x Hx) as (_&_&[d Hd]). unfold dev_at. kstep. kstep. kstep; [exact Hd|]. by apply HQ. Qed.

(** An operation that is one call of the device. *)
Lemma wp_dev_call {A} (m : Z -> K W A) s n x :
  dev_ready s -> inodes s !! n = Some x -> (forall k, wp (m k) (fun _ s' => dev_quiet s s') s) ->
  wp (d ← dev_at n; m (d_fun d)) (fun _ s' => quiet s s' /\ dev_ready s') s.
Proof.
  intros Hr Hx Hm. kstep. eapply wp_dev_at; [done|exact Hx|]. intros d Hd. eapply wp_mono; [apply Hm|]. intros a s'. by apply dev_quiet_ready.
Qed.

Lemma wlp_dev_call {A} (m : Z -> K W A) s n x :
  dev_ready s -> inodes s !! n = Some x -> (forall k, wlp (m k) (fun _ s' => dev_quiet s s') s) ->
  wlp (d ← dev_at n; m (d_fun d)) (fun _ s' => quiet s s' /\ dev_ready s') s.
Proof.
  intros Hr Hx Hm. apply wlp_bind_wp. eapply wp_dev_at; [done|exact Hx|]. intros d Hd. eapply wlp_mono; [apply Hm|]. intros a s'. by apply dev_quiet_ready.
Qed.

Lemma dev_table_ops s n x : dev_ready s -> inodes s !! n = Some x -> exists ops, dev_table dops (in_ops x) = dev_node_ops dops ops /\
  op_gettype (ops (in_ops x)) = Some dev_gettype.
Proof. intros Hr Hx. destruct (Hr n x Hx) as (_&->&_). by eexists. Qed.

#[export] Program Instance dev_laws : VopLaws (dev_table dops) no_fs := {| vl_ready := dev_ready |}.
Next Obligation.
  intros s s' Hr E Hk n x Hx. specialize (Hk n). unfold kind in Hk. rewrite Hx in Hk. symmetry in Hk. apply fmap_Some in Hk as (y&Hy&[= E1 E2 E3]).
  rewrite E, E1. by apply Hr.
Qed.
Next Obligation.
  intros s n x flags Hr Hx. destruct (dev_table_ops s n x Hr Hx) as (ops&->&_). eexists. split; [done|]. unfold dev_open.
  destruct (has_flag _ _); [apply wp_ret; split; [done|apply dev_quiet_ready; [done|apply dev_quiet_refl]]|].
  kstep. eapply wp_dev_at; [done|exact Hx|]. intros d Hd. eapply wp_mono; [apply dl_open|]. intros r s' [Hs Hq]. split; [done|by apply dev_quiet_ready].
Qed.
Next Obligation.
  intros s n x Hr Hx. destruct (dev_table_ops s n x Hr Hx) as (ops&->&_). eexists. split; [done|].
  eapply (wp_dev_call (fun k => d_close (dops k) n)); [done|exact Hx|]. intros k. apply dl_close.
Qed.
Next Obligation.
  intros s n x Hr Hx Ho Hmax. destruct (dev_table_ops s n x Hr Hx) as (ops&->&Hg). eexists. split; [done|]. unfold dev_fstat, vop_gettype. kstep. kstep.
  eapply (wp_vop_raw ops); [exact Hx|exact Ho|exact Hmax|exact Hg|]. unfold dev_gettype. kstep. eapply wp_dev_at; [done|exact Hx|]. intros d Hd. kstep.
  rewrite bool_decide_false by tauto. kstep. eapply wp_dev_at; [done|exact Hx|]. intros d' Hd'. kstep. split; [done|]. apply dev_quiet_ready; [done|apply dev_quiet_refl].
Qed.
Next Obligation.
  intros s n x Hr Hx. destruct (dev_table_ops s n x Hr Hx) as (ops&->&Hg). eexists. split; [done|]. unfold dev_gettype. kstep.
  eapply wp_dev_at; [done|exact Hx|]. intros d Hd. kstep. apply dev_quiet_ready; [done|apply dev_quiet_refl].
Qed.
Next Obligation.
  intros s n x f iob Hr Hx. destruct (dev_table_ops s n x Hr Hx) as (ops&->&_). intros [= <-].
  eapply (wp_dev_call (fun k => d_io (dops k) n iob false)); [done|exact Hx|]. intros k. apply dl_read.
Qed.
Next Obligation.
  intros s n x f iob Hr Hx. destruct (dev_table_ops s n x Hr Hx) as (ops&->&_). intros [= <-].
  eapply (wlp_dev_call (fun k => d_io (dops k) n iob true)); [done|exact Hx|]. intros k. apply dl_write.
Qed.
Next Obligation. intros s n x f Hr Hx. by destruct (dev_table_ops s n x Hr Hx) as (ops&->&_). Qed.
Next Obligation. intros s n x f iob Hr Hx. by destruct (dev_table_ops s n x Hr Hx) as (ops&->&_). Qed.
Next Obligation.
  intros s n x f p Hr Hx. destruct (dev_table_ops s n x Hr Hx) as (ops&->&_). intros [= <-]. unfold dev_tryseek.
  assert (Hq : quiet s s /\ dev_ready s) by (apply dev_quiet_ready; [done|apply dev_quiet_refl]).
  apply wlp_bind_wp. eapply wp_dev_at; [done|exact Hx|]. intros d Hd. destruct (0 <? d_blocks d); [|by apply wlp_ret]. lstep. lstep. intros _. by lstep.
Qed.
Next Obligation. intros s n x f len Hr Hx. by destruct (dev_table_ops s n x Hr Hx) as (ops&->&_). Qed.
Next Obligation. intros s n x f name excl Hr _ Hx. by destruct (dev_table_ops s n x Hr Hx) as (ops&->&_). Qed.
Next Obligation.
  intros s n x f path Hr Hlow Hx Hpos. destruct (dev_table_ops s n x Hr Hx) as (ops&->&_). intros [= <-]. unfold dev_lookup.
  destruct path as [|c path]; [|apply wlp_ret; split; [done|]; cbn; rewrite decide_False by done; split; [done|by exists (ext s); destruct s]].
  destruct (Hr n x Hx) as (Hn&E&Hd). apply wp_wlp. unfold inode_ref_inc. kstep. kstep. eapply wp_inode_upd; [exact Hx|]. kstep.
  eapply wp_inode_at; [apply lookup_insert_eq|]. kstep. kstep. cbn [fst snd]. rewrite decide_True by done.
  pose proof (Hlow n x Hx). split; [done|]. split.
  - intros m y. cbn. rewrite lookup_insert_Some. intros [[<- <-]|[_ Hy]]; [done|by apply Hr].
  - split; [done|]. exists x, (ext s). split; [by left|]. cbn in *. by rewrite swrap_small by lia.
Qed.
Next Obligation. done. Qed.
Next Obligation. intros s n x f Hr Hx _ _. by destruct (dev_table_ops s n x Hr Hx) as (ops&->&_). Qed.
End laws.
