(* ===== verification/Console.v ===== *)
(** Writing to the console through a descriptor: [file_write] on an inode of the
    device of dev_stdout.c.  A kernel with nothing but this device is the example
    on which the theorems of the file layer are tried. *)
From S2P Require Import Prelude Cstring Iobuf Vfs VfsSpec Files FilesSpec FilesOpen FilesFork FilesCwd FilesRun Devs.
#[local] Abbreviation length := Datatypes.length.

(** Every table of functions is the one of dev_stdout.c. *)
Definition console_dops (k : Z) : dev_ops := stdout_ops.
Definition console_ops : Z -> inode_ops dev_state := dev_table console_dops.

(** ** dev_stdout.c *)
Lemma wlp_put_bytes n : forall data s, wlp (put_bytes n data) (fun _ s' => dev_quiet s s') s.
Proof.
  induction n as [|n IH]; intros data s; cbn [put_bytes]; [apply wlp_ret, dev_quiet_refl|]. lstep. lstep. lstep. lstep. intros c _.
  unfold cputchar. lstep. lstep. eapply wlp_mono; [apply IH|]. intros _ s' (e&->&E). by exists e.
Qed.

#[export] Instance console_laws : DevLaws console_dops.
Proof.
  split; intros; cbn.
  - apply wp_ret. split; [by case_bool_decide|apply dev_quiet_refl].
  - apply wp_ret, dev_quiet_refl.
  - apply wp_ret, dev_quiet_refl.
  - unfold stdout_io. apply wlp_bind. eapply wlp_mono; [apply wlp_put_bytes|]. intros a s' Hq. by apply wlp_ret.
Qed.

(** The bytes of the buffer are printed in order. *)
Lemma wp_put_bytes l : forall data s (Q : () -> W -> Prop), bytes_at (dmem (ext s)) data l ->
  Q () (set_ext (set_printed (printed (ext s) ++ l) (ext s)) s) -> wp (put_bytes (length l) data) Q s.
Proof.
  induction l as [|c l IH]; intros data s Q Hb HQ; cbn [put_bytes length].
  - apply wp_ret. rewrite app_nil_r in HQ. destruct s as [a1 a2 a3 a4 a5 a6 a7 [e1 e2 e3]]. exact HQ.
  - kstep. kstep. kstep. kstep; [rewrite <-(Z.add_0_r data); by apply (Hb 0%nat)|]. unfold cputchar. kstep. kstep. apply IH.
    + intros i b Hi. cbn. replace (data + 1 + Z.of_nat i) with (data + Z.of_nat (S i)) by lia. by apply Hb.
    + cbn. rewrite <-app_assoc. exact HQ.
Qed.

(** ** [file_write] *)

Section write.
Implicit Types (s : W) (F : list (Z * nat)).
Context (L : Z -> Z).
Abbreviation sound := (sound console_ops no_fs L).

(** What is computed from an entry that another call does not close. *)
Lemma wp_release_shared s p i f (Q : () -> W -> Prop) :
  file_of s p i = Some f -> status f = FD_OPENED -> 1 < fopen_count f < 2 ^ 31 ->
  Q () (set_file p i (set_fopen_count (fopen_count f - 1) f) s) -> wp (fd_array_release console_ops p i) Q s.
Proof.
  intros Hf Hs Hc HQ. unfold fd_array_release. kstep. eapply wp_file_at; [exact Hf|]. kstep. kstep; [apply bool_decide_eq_true; by left|].
  kstep. kstep; [apply Z.ltb_lt; lia|]. unfold fopen_count_dec. kstep. kstep. eapply wp_file_upd; [exact Hf|]. rewrite swrap_small by lia.
  set (g := set_fopen_count _ f). kstep. eapply wp_file_at; [by rewrite (file_of_set s p i g f), decide_True by done|]. kstep.
  cbn [fopen_count g set_fopen_count]. rewrite bool_decide_false by lia. cbn [when]. by kstep.
Qed.

(** A descriptor open for writing on the console. *)
Record console_fd s F (n : Z) (i : nat) (f : file) : Prop := {
  cf_sound : sound s F;
  cf_roomy : roomy s;
  cf_open : open_fd s n = Some (i, f);
  cf_mode : writable f = true;
}.

Lemma wp_console_write s F n i f t base l (Q : Z * Z -> W -> Prop) :
  console_fd s F n i f -> tables s !! cur s = Some t -> Z.of_nat (length F) + 1 < 2 ^ 20 -> bytes_at (dmem (ext s)) base l -> Z.of_nat (length l) < 2 ^ 64 ->
  (let e := set_printed (printed (ext s) ++ l) (ext s) in
   Q (0, Z.of_nat (length l)) (set_ext e (set_file (cur s) i (set_pos (s64 (pos f + Z.of_nat (length l))) f) s))) ->
  wp (file_write console_ops n base (Z.of_nat (length l))) Q s.
Proof.
  intros [Hs Hr Ho Hw] Ht Hl Hb Hlen HQ. pose proof Ho as (Hf&Hst&_)%open_fd_Some.
  pose proof (tab_file s F None _ i f (so_tab _ _ _ _ _ Hs) Hf) as [B1 B2 _ _ _ B6]. rewrite bool_decide_true in B2 by done. unfold b2z in B2.
  pose proof (fly_nonneg F (cur s) i) as Hk. unfold file_write, file_begin. kstep. kstep. kstep. kstep. eapply wp_fd2file; [apply Hs|exact Ht|].
  rewrite Ho. cbn [fmap option_fmap option_map fst]. kstep. kstep. kstep. eapply wp_file_at; [exact Hf|]. rewrite Hw. cbn [negb].
  unfold fd_array_acquire, fopen_count_inc. kstep. kstep. eapply wp_file_at; [exact Hf|]. kstep. kstep; [by apply bool_decide_eq_true|].
  eapply wp_file_upd; [exact Hf|]. rewrite swrap_small by lia. set (g := set_fopen_count _ f). set (s1 := set_file _ _ g s).
  assert (Hg : file_of s1 (cur s) i = Some g) by (unfold s1; by rewrite (file_of_set s _ i g f), decide_True by done).
  kstep. cbv beta iota. rewrite (bool_decide_false (0 <> 0)) by tauto. kstep. eapply wp_file_at; [exact Hg|].
  unfold file_io_end. kstep. eapply wp_file_at; [exact Hg|]. cbn [node g set_fopen_count pos].
  destruct (sound_node console_ops no_fs L s F (cur s) i f Hs Hr Hf (or_introl Hst)) as (x&Hx&Hmax).
  destruct (co_ready _ _ _ _ _ (so_counted _ _ _ _ _ Hs) (node f) x Hx) as (_&Eo&[d Hd]).
  kstep. unfold vop_write. kstep.
  eapply (wp_vop_raw console_ops op_write s1 (node f) x); [exact Hx|by eapply (counted_open _ _ _ _ _ _ _ (so_counted _ _ _ _ _ Hs))|exact Hmax|by rewrite Eo|].
  unfold dev_write, dev_at. kstep. kstep. kstep. kstep; [exact Hd|]. unfold console_dops. cbn [d_io stdout_ops]. unfold stdout_io.
  cbn [io_resid io_base io_offset io_len iobuf_init]. kstep. rewrite Nat2Z.id. eapply wp_put_bytes; [exact Hb|]. kstep. cbv beta iota zeta.
  unfold iobuf_used. cbn [io_len io_resid]. rewrite Z.sub_0_r, uwrap_small by lia.
  kstep. eapply wp_file_at; [exact Hg|]. kstep. cbn [status g set_fopen_count]. rewrite bool_decide_true by done. cbn [when].
  eapply wp_file_upd; [exact Hg|]. set (h := set_pos _ g). kstep.
  eapply (wp_release_shared _ (cur s) i h); [rewrite (file_of_set _ _ i h g); [by rewrite decide_True|exact Hg]|done|cbn; lia|]. kstep.
  assert (E : set_file (cur s) i (set_fopen_count (fopen_count h - 1) h) (set_file (cur s) i h (set_ext (set_printed (printed (ext s1) ++ l) (ext s1)) s1)) =
              set_ext (set_printed (printed (ext s) ++ l) (ext s)) (set_file (cur s) i (set_pos (s64 (pos f + Z.of_nat (length l))) f) s)).
  { rewrite set_file_twice. unfold s1. change (ext (set_file (cur s) i g s)) with (ext s).
    change (set_ext ?e (set_file ?p ?j ?y s)) with (set_file p j y (set_ext e s)). rewrite set_file_twice. do 2 f_equal.
    unfold h, g, set_pos, set_fopen_count. cbn. f_equal. lia. }
  rewrite E. exact HQ.
Qed.
End write.

(** ** A kernel with a console *)

(** The state as one record again. *)
Ltac norm := cbv [set_inodes set_vdev_list set_vdev_list_sem set_bootfs_node set_bootfs_sem set_tables set_ext
  inodes vdev_list vdev_list_sem bootfs_node bootfs_sem tables cur ext].

Lemma console_boot n e l b c : n <> 0 ->
  wp (vfs_init;; dev_init_stdout (Some n) true) (fun _ s => fwf console_ops no_fs none (mk_fstate s [] [0] 0) /\ tables s = ∅ /\ cur s = 0)
    (mk_vfs ∅ l b 0 c ∅ 0 e).
Proof.
  intros Hn. set (x := mk_inode 1 0 DEV_OPS 0). set (e' := set_dev_info (<[n := mk_device 0 1 STDOUT]> (dev_info e)) e).
  unfold vfs_init, vfs_devlist_init, dev_init_stdout, dev_create_inode, inode_init, inode_ref_inc, stdout_device_init, vfs_add_dev, vfs_do_add, check_devname_conflict, lock_vdev_list, unlock_vdev_list.
  do 9 kstep. norm. kstep. eapply wp_inode_upd; [apply lookup_insert_eq|]. kstep. norm. eapply wp_inode_at; [apply lookup_insert_eq|].
  do 4 kstep. kstep; [done|]. kstep. kstep. norm. kstep. kstep. kstep; [by rewrite bool_decide_false|]. cbn [negb].
  assert ((FS_MAX_DNAME_LEN <? Z.of_nat (length stdout_name)) = false) as -> by done.
  do 4 kstep. kstep; [done|]. norm. do 4 kstep. norm. apply wp_ret. cbn [negb find_dev]. cbn. do 5 kstep. norm. kstep; [done|].
  set (s := mk_vfs {[n := x]} [mk_vfs_dev stdout_name n 0 false] false 0 false ∅ 0 e').
  match goal with |- fwf _ _ _ (mk_fstate ?y _ _ _) /\ _ => assert (y = s) as -> by (unfold s; by rewrite insert_insert_eq) end.
  split; [|done].
  assert (Hx : forall m y, inodes s !! m = Some y -> m = n /\ y = x) by (intros m y; cbn; by intros [<- <-]%lookup_singleton_Some).
  assert (Hneed : forall m, m <> 0 -> need s m = eqz n m).
  { intros m Hm. unfold need, opens, pwds, devs, msum, eqz. cbn. repeat case_match; repeat case_decide; subst; (done || lia). }
  split; cbn [f_vfs f_calls f_procs f_creates]; [|done|done|intros p Hp; left; by apply list_elem_of_singleton in Hp|intros p; exact (proj1 (count_bounds _ _))|cbn; lia|cbn; lia]. split; [| |split_and!; [done..|by intros d ->%list_elem_of_singleton]|done].
  - split.
    + intros m y [-> ->]%Hx. split_and!; [done|done|]. cbn. rewrite lookup_insert_eq. by eexists.
    + intros m Hm. rewrite Hneed by done. unfold eqz, none. case_decide as Em; [subst; intros _; exists x; apply lookup_singleton_eq|lia].
    + intros m y [-> ->]%Hx. rewrite Hneed by done. split_and!; [done|done|]. unfold eqz, none. by rewrite decide_True.
    + done.
    + intros m. unfold none. pose proof (opens_nonneg s m). lia.
    + intros m y [-> ->]%Hx _. unfold devs. cbn. by rewrite bool_decide_true.
  - split; [done..|]. intros p i Hi. by apply not_elem_of_nil in Hi.
Qed.
