(* ===== verification/Stdin.v ===== *)
(** kern/fs/devs/dev_stdin.c: the ring of typed characters, and the reader that
    sleeps when it is empty.  A read is cut where it calls [schedule]. *)
From S2P Require Import Prelude Iobuf Vfs.
#[local] Abbreviation length := Datatypes.length.

Definition STDIN_BUFSIZE := 4096.

(** The static variables; [woken] counts the calls of [wakeup_queue], [waiting]
    says that the wait queue is not empty. *)
Record stdin := mk_stdin { stdin_buffer : list Z; p_rpos : Z; p_wpos : Z; waiting : bool; woken : Z }.
Definition set_rpos (v : Z) (s : stdin) := mk_stdin (stdin_buffer s) v (p_wpos s) (waiting s) (woken s).
Definition set_waiting (v : bool) (s : stdin) := mk_stdin (stdin_buffer s) (p_rpos s) (p_wpos s) v (woken s).

Definition slot (p : Z) : nat := Z.to_nat (p mod STDIN_BUFSIZE).

(** A character from the keyboard. *)
Definition dev_stdin_write (c : Z) : K stdin () :=
  if bool_decide (c <> 0) then
    modify (fun s => mk_stdin (<[slot (p_wpos s) := c]> (stdin_buffer s)) (p_rpos s) (p_wpos s) (waiting s) (woken s));;
    s ← get;
    when (p_wpos s - p_rpos s <? STDIN_BUFSIZE)
      (modify (fun s => mk_stdin (stdin_buffer s) (p_rpos s) (s64 (p_wpos s + 1)) (waiting s) (woken s)));;
    s ← get;
    when (waiting s) (modify (fun s => mk_stdin (stdin_buffer s) (p_rpos s) (p_wpos s) false (woken s + 1)))
  else mret ().

(** The loop of [dev_stdin_read] up to its end or the next wait: how many bytes
    are still wanted, and the bytes stored so far. *)
Fixpoint read_on (n : nat) (got : list Z) : K stdin (nat * list Z) :=
  match n with
  | O => mret (O, got)
  | S n' =>
      s ← get;
      if p_rpos s <? p_wpos s then
        c ← unwrap (stdin_buffer s !! slot (p_rpos s));
        modify (fun s => set_rpos (s64 (p_rpos s + 1)) s);;
        read_on n' (got ++ [c])
      else modify (set_waiting true);; mret (n, got)
  end.

(** [dev_stdin_read]: it returns the bytes, or sleeps with some still wanted. *)
Inductive reading := Returned (got : list Z) | Asleep (want : nat) (got : list Z).
Definition as_reading (r : nat * list Z) : reading := match r with (O, got) => Returned got | (n, got) => Asleep n got end.
Definition dev_stdin_read (len : Z) : K stdin reading := r ← read_on (Z.to_nat len) []; mret (as_reading r).

(** What it does when it runs again; [kbd] tells whether it was woken by a key. *)
Definition stdin_resume (kbd : bool) (want : nat) (got : list Z) : K stdin reading :=
  modify (set_waiting false);;
  if kbd then r ← read_on want got; mret (as_reading r) else mret (Returned got).

Definition stdin_open (flags : Z) : Z := if bool_decide (flags <> 0) then - E_INVAL else 0.
Definition stdin_close : Z := 0.

(** What [stdin_io] does with the bytes of [dev_stdin_read]. *)
Definition stdin_io_end (iob : iobuf) (got : list Z) : Z * iobuf :=
  let ret := s32 (Z.of_nat (length got)) in
  (ret, if 0 <? ret then mk_iobuf (io_base iob) (io_offset iob) (io_len iob) (u64 (io_resid iob - ret)) else iob).

Definition stdin_device_init (buf : list Z) : stdin := mk_stdin buf 0 0 false 0.

(** ** The abstract queue of characters *)

(** A full ring loses its oldest character to the new one. *)
Definition typed (c : Z) (q : list Z) : list Z :=
  if bool_decide (c = 0) then q else if Z.of_nat (length q) <? STDIN_BUFSIZE then q ++ [c] else c :: tail q.

(** [q] is what has been typed and not been read. *)
Record stdin_rep (q : list Z) (s : stdin) : Prop := {
  sr_len : Z.of_nat (length (stdin_buffer s)) = STDIN_BUFSIZE;
  sr_pos : 0 <= p_rpos s /\ p_wpos s = p_rpos s + Z.of_nat (length q) /\ p_wpos s < 2 ^ 62;
  sr_fit : Z.of_nat (length q) <= STDIN_BUFSIZE;
  sr_chars i c : q !! i = Some c -> stdin_buffer s !! slot (p_rpos s + Z.of_nat i) = Some c;
}.

Lemma slot_lt s p : Z.of_nat (length (stdin_buffer s)) = STDIN_BUFSIZE -> (slot p < length (stdin_buffer s))%nat.
Proof. intros E. unfold slot, STDIN_BUFSIZE in *. pose proof (Z.mod_pos_bound p 4096). lia. Qed.

Lemma slot_inj p a b : 0 <= a < STDIN_BUFSIZE -> 0 <= b < STDIN_BUFSIZE -> slot (p + a) = slot (p + b) -> a = b.
Proof.
  unfold slot, STDIN_BUFSIZE. intros Ha Hb E. pose proof (Z.mod_pos_bound (p + a) 4096). pose proof (Z.mod_pos_bound (p + b) 4096).
  pose proof (Z.div_mod (p + a) 4096). pose proof (Z.div_mod (p + b) 4096). lia.
Qed.

Lemma wp_stdin_write c q s (Q : () -> stdin -> Prop) :
  stdin_rep q s -> p_wpos s + 1 < 2 ^ 62 ->
  (forall s', stdin_rep (typed c q) s' -> woken s' = (if bool_decide (c <> 0) && waiting s then woken s + 1 else woken s) ->
     (c = 0 -> s' = s) -> (c <> 0 -> waiting s' = false) -> p_wpos s <= p_wpos s' <= p_wpos s + 1 -> Q () s') ->
  wp (dev_stdin_write c) Q s.
Proof.
  intros [Hl [Hr [Hw Hb]] Hf Hc] Hb1 HQ. unfold dev_stdin_write, typed in *. destruct (decide (c = 0)) as [->|Hc0].
  { rewrite bool_decide_false by tauto. apply wp_ret, HQ; [rewrite bool_decide_true by done; by split|done|done|done|lia]. }
  rewrite bool_decide_true by done. rewrite (bool_decide_false (c = 0)) in HQ by done. kstep. kstep. kstep. kstep. cbn [p_wpos p_rpos].
  assert (Hend : forall s1, stdin_rep (if Z.of_nat (length q) <? STDIN_BUFSIZE then q ++ [c] else c :: tail q) s1 -> woken s1 = woken s -> waiting s1 = waiting s ->
    p_wpos s <= p_wpos s1 <= p_wpos s + 1 ->
    wp (s ← get; when (waiting s) (modify (fun s => mk_stdin (stdin_buffer s) (p_rpos s) (p_wpos s) false (woken s + 1)))) Q s1).
  { intros s1 [G1 G2 G3 G4] Ek Ew Hp. kstep. kstep. rewrite Ew. destruct (waiting s) eqn:E; cbn [when]; kstep; (apply HQ; [by split|by rewrite bool_decide_true by done; cbn; congruence|done|done|done]). }
  assert (Hlook : forall i b, (q ++ [c]) !! i = Some b -> Z.of_nat (length q) < STDIN_BUFSIZE -> <[slot (p_wpos s) := c]> (stdin_buffer s) !! slot (p_rpos s + Z.of_nat i) = Some b).
  { intros i b Hi Hlt. pose proof (lookup_lt_Some _ _ _ Hi) as Hlen. rewrite length_app in Hlen. cbn in Hlen. destruct (decide (i = length q)) as [->|Hne].
    - rewrite lookup_app_r, Nat.sub_diag in Hi by lia. injection Hi as ->. rewrite Hw. apply list_lookup_insert_eq. by apply slot_lt.
    - rewrite lookup_app_l in Hi by lia. rewrite list_lookup_insert_ne; [by apply Hc|]. rewrite Hw. intros E. apply slot_inj in E; lia. }
  kstep. destruct (Z.ltb_spec (p_wpos s - p_rpos s) STDIN_BUFSIZE) as [Hlt|Hge]; cbn [when]; kstep; apply Hend; try done; cbn; try lia.
  - destruct (Z.ltb_spec (Z.of_nat (length q)) STDIN_BUFSIZE); [|lia]. rewrite swrap_small by lia. split; cbn; [by rewrite length_insert| |rewrite length_app; cbn; lia|].
    + rewrite length_app. cbn. lia.
    + intros i b Hi. by apply Hlook.
  - rewrite swrap_small by lia. lia.
  - destruct (Z.ltb_spec (Z.of_nat (length q)) STDIN_BUFSIZE); [lia|]. destruct q as [|a q]; [cbn in *; unfold STDIN_BUFSIZE in *; lia|]. cbn [tail].
    assert (Eslot : slot (p_wpos s) = slot (p_rpos s + 0)).
    { unfold slot. f_equal. rewrite Hw. replace (p_rpos s + Z.of_nat (length (a :: q))) with (p_rpos s + 0 + 1 * STDIN_BUFSIZE) by lia. unfold STDIN_BUFSIZE. by rewrite Z.mod_add. }
    split; cbn [stdin_buffer p_rpos p_wpos]; [by rewrite length_insert|done|done|]. intros [|i] b Hi; rewrite Eslot.
    + injection Hi as ->. apply list_lookup_insert_eq. by apply slot_lt.
    + rewrite list_lookup_insert_ne; [by apply (Hc (S i))|]. pose proof (lookup_lt_Some _ _ _ Hi) as Hlen. cbn [length] in Hlen, Hf. intros E. apply slot_inj in E; cbn in *; lia.
Qed.

Lemma wp_read_on n : forall q s got (Q : nat * list Z -> stdin -> Prop), stdin_rep q s ->
  (forall s', stdin_rep (drop n q) s' -> woken s' = woken s -> waiting s' = (waiting s || (length q <? n)%nat) -> p_wpos s' = p_wpos s ->
     Q ((n - length q)%nat, got ++ take n q) s') ->
  wp (read_on n got) Q s.
Proof.
  induction n as [|n IH]; intros q s got Q H HQ; cbn [read_on].
  - apply wp_ret. specialize (HQ s). cbn in HQ. rewrite app_nil_r in HQ. apply HQ; [done|done| |done]. by rewrite orb_false_r.
  - destruct H as [Hl [Hr [Hw Hb]] Hf Hc]. kstep. kstep. destruct q as [|c q].
    + destruct (Z.ltb_spec (p_rpos s) (p_wpos s)); [cbn in *; lia|]. kstep. kstep. kstep. specialize (HQ (set_waiting true s)). cbn in HQ. rewrite app_nil_r in HQ.
      apply HQ; [by split|done|by rewrite orb_true_r|done].
    + destruct (Z.ltb_spec (p_rpos s) (p_wpos s)); [|cbn in *; lia]. kstep. kstep; [rewrite <-(Z.add_0_r (p_rpos s)); by apply (Hc 0%nat)|]. kstep. kstep.
      cbn [length] in *. rewrite swrap_small by lia. eapply (IH q).
      * split; cbn; [done|lia|lia|]. intros i b Hi. replace (p_rpos s + 1 + Z.of_nat i) with (p_rpos s + Z.of_nat (S i)) by lia. by apply Hc.
      * intros s' G1 G2 G3 G4. cbn in *. rewrite <-app_assoc. by apply HQ.
Qed.

Lemma wp_stdin_read len q s (Q : reading -> stdin -> Prop) :
  stdin_rep q s -> 0 <= len ->
  (forall s', stdin_rep (drop (Z.to_nat len) q) s' -> woken s' = woken s -> waiting s' = (waiting s || (Z.of_nat (length q) <? len)) -> p_wpos s' = p_wpos s ->
     Q (if Z.of_nat (length q) <? len then Asleep (Z.to_nat len - length q) q else Returned (take (Z.to_nat len) q)) s') ->
  wp (dev_stdin_read len) Q s.
Proof.
  intros H Hlen HQ. unfold dev_stdin_read. kstep. eapply wp_read_on; [exact H|]. intros s' G1 G2 G3 G4. kstep. specialize (HQ s' G1 G2).
  destruct (Z.ltb_spec (Z.of_nat (length q)) len) as [Hlt|Hge].
  - rewrite take_ge by lia. destruct (Z.to_nat len - length q)%nat as [|k] eqn:E; [lia|]. apply HQ; [|done]. rewrite G3. f_equal. apply Nat.ltb_lt. lia.
  - replace (Z.to_nat len - length q)%nat with O by lia. apply HQ; [|done]. rewrite G3. f_equal. apply Nat.ltb_ge. lia.
Qed.

Lemma wp_stdin_resume want got q s (Q : reading -> stdin -> Prop) :
  stdin_rep q s ->
  (forall s', stdin_rep (drop want q) s' -> waiting s' = (length q <? want)%nat -> p_wpos s' = p_wpos s ->
     Q (if (length q <? want)%nat then Asleep (want - length q) (got ++ q) else Returned (got ++ take want q)) s') ->
  wp (stdin_resume true want got) Q s.
Proof.
  intros H HQ. unfold stdin_resume. kstep. kstep. kstep. eapply (wp_read_on want q); [by destruct H|]. intros s' G1 G2 G3 G4. kstep. specialize (HQ s' G1).
  destruct (Nat.ltb_spec (length q) want) as [Hlt|Hge].
  - rewrite take_ge by lia. destruct (want - length q)%nat as [|k] eqn:E; [lia|]. by apply HQ.
  - replace (want - length q)%nat with O by lia. by apply HQ.
Qed.

(** ** Keys and a reader, interleaved *)

(** The ring, the reader that sleeps (how much it still wants, what it has), the
    characters for the readers and those returned to them. *)
Record kbd := mk_kbd { k_ring : stdin; k_reader : option (nat * list Z); k_typed : list Z; k_read : list Z }.

Definition after_read (k : kbd) (s : stdin) (r : reading) : kbd :=
  match r with
  | Returned got => mk_kbd s None (k_typed k) (k_read k ++ got)
  | Asleep want got => mk_kbd s (Some (want, got)) (k_typed k) (k_read k)
  end.

Definition held (k : kbd) : list Z := match k_reader k with Some (_, got) => got | None => [] end.

(** What the readers are to get after a key: the characters in the order in which
    they are typed, where one that comes when 4096 are not read yet takes the
    place of the oldest of these. *)
Definition press (c : Z) (k : kbd) : list Z :=
  let taken := length (k_read k ++ held k) in
  if bool_decide (c = 0) then k_typed k
  else if Z.of_nat (length (k_typed k)) - Z.of_nat taken <? STDIN_BUFSIZE then k_typed k ++ [c]
  else <[taken := c]> (k_typed k).

(** A key is typed; a reader comes; one that was woken runs, or it is killed, and
    returns what it has.  2^62 keys are never typed. *)
Inductive kmove : kbd -> kbd -> Prop :=
| km_key k c s' : p_wpos (k_ring k) + 1 < 2 ^ 62 -> dev_stdin_write c (k_ring k) = Done ((), s') ->
    kmove k (mk_kbd s' (k_reader k) (press c k) (k_read k))
| km_read k len r s' : k_reader k = None -> 0 <= len -> dev_stdin_read len (k_ring k) = Done (r, s') -> kmove k (after_read k s' r)
| km_resume k want got r s' : k_reader k = Some (want, got) -> waiting (k_ring k) = false ->
    stdin_resume true want got (k_ring k) = Done (r, s') -> kmove k (after_read k s' r)
| km_kill k want got r s' : k_reader k = Some (want, got) -> stdin_resume false want got (k_ring k) = Done (r, s') -> kmove k (after_read k s' r).

Record kbd_ok (k : kbd) : Prop := {
  ko_rep : exists q, stdin_rep q (k_ring k) /\ k_typed k = k_read k ++ held k ++ q /\ (waiting (k_ring k) = true -> q = []);
  ko_wait : waiting (k_ring k) = true -> k_reader k <> None;
  ko_left want got : k_reader k = Some (want, got) -> (0 < want)%nat;
}.

Lemma wp_Done_eq {S A} (m : K S A) (Q : A -> S -> Prop) s a s' : wp m Q s -> m s = Done (a, s') -> Q a s'.
Proof. unfold wp. intros Hm E. by rewrite E in Hm. Qed.

Lemma press_spec c k q : k_typed k = k_read k ++ held k ++ q -> Z.of_nat (length q) <= STDIN_BUFSIZE ->
  press c k = k_read k ++ held k ++ typed c q.
Proof.
  intros Et Hq. rewrite !(app_assoc (k_read k)) in *. unfold press, typed. rewrite Et. set (p := k_read k ++ held k).
  destruct (bool_decide (c = 0)); [done|]. rewrite length_app.
  replace (Z.of_nat (length p + length q) - Z.of_nat (length p)) with (Z.of_nat (length q)) by lia.
  destruct (Z.ltb_spec (Z.of_nat (length q)) STDIN_BUFSIZE); [by rewrite app_assoc|].
  rewrite <-(Nat.add_0_r (length p)) at 1. rewrite insert_app_r. destruct q; [unfold STDIN_BUFSIZE in *; cbn in *; lia|done].
Qed.

Lemma kbd_ok_key k c s' : kbd_ok k -> p_wpos (k_ring k) + 1 < 2 ^ 62 -> dev_stdin_write c (k_ring k) = Done ((), s') ->
  kbd_ok (mk_kbd s' (k_reader k) (press c k) (k_read k)).
Proof.
  intros [(q&Hq&Et&Hw) Hn Hl] Hb. pose proof (press_spec c k q Et (sr_fit _ _ Hq)) as Ep.
  refine (wp_Done_eq _ (fun _ s1 => kbd_ok (mk_kbd s1 _ _ _)) _ _ _ _). eapply wp_stdin_write; [exact Hq|exact Hb|].
  intros s1 G1 _ G2 G3 _. split; cbn; [exists (typed c q); split_and!; [done|done|]| |done].
  - intros Ew. destruct (decide (c = 0)) as [->|Hc]; [rewrite G2 in Ew by done; by rewrite (Hw Ew)|by rewrite G3 in Ew].
  - intros Ew. destruct (decide (c = 0)) as [->|Hc]; [rewrite G2 in Ew by done; by apply Hn|by rewrite G3 in Ew].
Qed.

(** A reader that returns, or sleeps on an empty ring. *)
Lemma kbd_ok_reader k q got r s' (want : nat) :
  stdin_rep (drop want q) s' -> k_typed k = k_read k ++ got ++ q -> (waiting s' = true -> (length q < want)%nat) ->
  (if (length q <? want)%nat then r = Asleep (want - length q) (got ++ q) else r = Returned (got ++ take want q)) -> kbd_ok (after_read k s' r).
Proof.
  intros Hq Et Hw Hr. destruct (Nat.ltb_spec (length q) want) as [Hlt|Hge]; subst r; cbn.
  - rewrite drop_ge in Hq by lia. split; cbn; [|done|intros ?? [= <- _]; lia]. exists []. split_and!; [done|by rewrite app_nil_r|done].
  - split; cbn; [|intros E; specialize (Hw E); lia|done]. exists (drop want q). split_and!; [done|by rewrite <-!app_assoc, take_drop|intros E; specialize (Hw E); lia].
Qed.

Lemma kbd_ok_kmove k k' : kbd_ok k -> kmove k k' -> kbd_ok k'.
Proof.
  intros Hk Hm. destruct Hm as [k c s' H1 E|k len r s' Hn Hlen E|k want got r s' Hr Hw E|k want got r s' Hr E]; [by eapply kbd_ok_key|..];
    pose proof Hk as [(q&Hq&Et&He) Hwait Hwant]; unfold held in Et.
  - rewrite Hn in Et. refine (wp_Done_eq _ (fun r s1 => kbd_ok (after_read k s1 r)) _ _ _ _ E). eapply wp_stdin_read; [exact Hq|exact Hlen|].
    intros s1 G1 _ G3 _. assert (Hwf : waiting (k_ring k) = false) by (destruct (waiting _) eqn:Ew; [by destruct Hwait|done]). rewrite Hwf in G3. cbn in G3.
    eapply (kbd_ok_reader k q [] _ _ (Z.to_nat len)); [exact G1|exact Et|rewrite G3; intros ?%Z.ltb_lt; lia|].
    destruct (Z.ltb_spec (Z.of_nat (length q)) len), (Nat.ltb_spec (length q) (Z.to_nat len)); (done || lia).
  - rewrite Hr in Et. refine (wp_Done_eq _ (fun r s1 => kbd_ok (after_read k s1 r)) _ _ _ _ E). eapply wp_stdin_resume; [exact Hq|].
    intros s1 G1 G3 _. eapply (kbd_ok_reader k q got _ _ want); [exact G1|exact Et|by rewrite G3; intros ?%Nat.ltb_lt|]. by destruct (length q <? want)%nat.
  - rewrite Hr in Et. unfold stdin_resume in E. injection E as <- <-. split; cbn; [|done|done]. exists q. split_and!; [by destruct Hq|by rewrite Et, <-app_assoc|done].
Qed.

Lemma stdin_init_rep buf : Z.of_nat (length buf) = STDIN_BUFSIZE -> stdin_rep [] (stdin_device_init buf).
Proof. intros Hl. by split. Qed.

Definition kbd_boot (buf : list Z) : kbd := mk_kbd (stdin_device_init buf) None [] [].

Lemma kbd_ok_run buf k : Z.of_nat (length buf) = STDIN_BUFSIZE -> rtc kmove (kbd_boot buf) k -> kbd_ok k.
Proof.
  intros Hl. apply rtc_ind_r; [|intros k1 k2 _ Hm Hk; by eapply kbd_ok_kmove]. split; cbn; [|done|done]. exists []. split; [by apply stdin_init_rep|done].
Qed.

(** Property C16. In every run of keys and a reader, what the readers have got,
    followed by what the sleeping one holds and by what is in the ring, is what was
    typed, in order: nothing is doubled or reordered, and nothing is lost but the
    oldest unread character when a key comes while 4096 are unread ([press]).  The
    ring holds exactly the unread characters, and that of a reader that waits is
    empty: no reader sleeps while there is a character for it. *)
Theorem stdin_fifo buf k : Z.of_nat (length buf) = STDIN_BUFSIZE -> rtc kmove (kbd_boot buf) k ->
  exists q, k_typed k = k_read k ++ held k ++ q /\ stdin_rep q (k_ring k) /\
    (waiting (k_ring k) = true -> k_reader k <> None /\ q = []).
Proof.
  intros Hl Hrun. destruct (kbd_ok_run buf k Hl Hrun) as [(q&Hq&Et&He) Hwait _]. exists q.
  split_and!; [done|done|]. intros Ew. split; [by apply Hwait|by apply He].
Qed.

Definition ex_ring : list Z := replicate (Z.to_nat STDIN_BUFSIZE) 0.

(** A reader of two bytes sleeps with none, two keys wake it up. *)
Lemma stdin_fifo_witness : exists k, rtc kmove (kbd_boot ex_ring) k /\ k_typed k = [104; 105] /\ k_read k = [104; 105] /\
  exists q, k_typed k = k_read k ++ held k ++ q /\ stdin_rep q (k_ring k) /\ (waiting (k_ring k) = true -> k_reader k <> None /\ q = []).
Proof.
  assert (Hrun : exists k, rtc kmove (kbd_boot ex_ring) k /\ k_typed k = [104; 105] /\ k_read k = [104; 105]).
  { eexists. split; [|shelve].
    eapply rtc_l; [eapply (km_read _ 2); [done|done|vm_compute; reflexivity]|].
    eapply rtc_l; [eapply (km_key _ 104); [done|vm_compute; reflexivity]|].
    eapply rtc_l; [eapply (km_key _ 105); [done|vm_compute; reflexivity]|].
    eapply rtc_l; [eapply km_resume; [done|done|vm_compute; reflexivity]|]. apply rtc_refl.
    Unshelve. split; vm_compute; reflexivity. }
  destruct Hrun as (k&Hrun&Ek1&Ek2). exists k. split; [done|]. split; [done|]. split; [done|]. by apply (stdin_fifo ex_ring).
Defined.

(** Property C37. A character typed while the ring is full is not dropped: it
    takes the place of the oldest one, which is lost, so that the next read
    returns the newest character before all the older ones. *)
Theorem stdin_overflow_refuted a q c s :
  stdin_rep (a :: q) s -> Z.of_nat (length (a :: q)) = STDIN_BUFSIZE -> c <> 0 -> p_wpos s + 1 < 2 ^ 62 ->
  wp (dev_stdin_write c;; dev_stdin_read 1) (fun r s' => r = Returned [c] /\ stdin_rep q s') s.
Proof.
  intros Hq Hl Hc Hb. kstep. eapply wp_stdin_write; [exact Hq|exact Hb|]. intros s1 G1 _ _ _ _. unfold typed in G1.
  rewrite bool_decide_false in G1 by done. destruct (Z.ltb_spec (Z.of_nat (length (a :: q))) STDIN_BUFSIZE); [lia|].
  eapply wp_stdin_read; [exact G1|done|]. intros s2 G2 _ _ _. cbn [tail] in *. destruct (Z.ltb_spec (Z.of_nat (length (c :: q))) 1); [cbn in *; lia|]. done.
Qed.

Lemma stdin_full_rep q : Z.of_nat (length q) = STDIN_BUFSIZE -> stdin_rep q (mk_stdin q 0 (Z.of_nat (length q)) false 0).
Proof.
  intros Hl. split; cbn; [done|unfold STDIN_BUFSIZE in *; lia|lia|]. intros i c Hi. pose proof (lookup_lt_Some _ _ _ Hi).
  unfold slot. rewrite Z.add_0_l. rewrite Z.mod_small by lia. by rewrite Nat2Z.id.
Qed.

Lemma stdin_overflow_refuted_witness : let q := replicate (Z.to_nat (STDIN_BUFSIZE - 1)) 98 in
  wp (dev_stdin_write 99;; dev_stdin_read 1) (fun r s' => r = Returned [99] /\ stdin_rep q s') (mk_stdin (97 :: q) 0 STDIN_BUFSIZE false 0).
Proof. intros q. apply (stdin_overflow_refuted 97); [by apply (stdin_full_rep (97 :: q))|done|done|done]. Defined.
