(* ===== verification/FilesProps.v ===== *)
(** What the file layer promises: the theorems about [Files] and their use on a
    kernel with a console. *)
From S2P Require Import Prelude Cstring Iobuf Vfs VfsSpec Files FilesSpec FilesOpen FilesFork FilesCwd FilesRun Devs Console.
#[local] Abbreviation length := Datatypes.length.

(** ** A kernel with a console, step by step *)

Definition final {S A} (m : K S A) (s : S) : S := match m s with Done (_, s') => s' | _ => s end.

Definition ex_boot : W :=
  final (vfs_init;; dev_init_stdout (Some 1) true) (mk_vfs ∅ [] false 0 false ∅ 0 (mk_dev_state ∅ (poke 500 [104; 105] ∅) [])).
Definition blank_table : list file := replicate (Z.to_nat FILES_STRUCT_NENTRY) (mk_file FD_NONE false false 0 0 0 0).
Definition stdout_path : list Z := stdout_name ++ [COLON].

Lemma ex_boot_fwf : fwf console_ops no_fs none (mk_fstate ex_boot [] [0] 0).
Proof.
  pose proof (console_boot 1 (mk_dev_state ∅ (poke 500 [104; 105] ∅) []) [] false false ltac:(done)) as H. unfold wp in H. unfold ex_boot, final.
  match goal with |- context [match ?m with _ => _ end] => destruct m as [[u s]| |] end; [apply H|done..].
Qed.

Lemma roomy_bool {X} (s : vfs X) : bool_decide (map_Forall (fun _ x => ref_count x <= MAX_INODE_COUNT - 8) (inodes s)) = true -> roomy s.
Proof. intros H%bool_decide_eq_true n x Hx. by apply (H n). Qed.

Lemma fresh_blank (s : W) p : p <> 0 -> tables s !! p = None -> fresh_table s (Some (p, blank_table)).
Proof. intros Hp Ht q l [= <- <-]. done. Qed.

(** The process with table 100 opens the console. *)
Definition ex_first : W := set_cur 100 (final (copy_files 0 (Some (100, blank_table))) ex_boot).
Definition ex_open : W := final (file_open console_ops no_fs stdout_path O_WRONLY) ex_first.
(** A second process inherits the descriptor, a third shares the table. *)
Definition ex_forked : W := final (copy_files 0 (Some (200, blank_table))) ex_open.
Definition ex_shared : W := final (copy_files CLONE_FILES None) ex_forked.
(** The first is inside a write when the second closes the descriptor and exits. *)
Definition ex_writing : W := set_cur 200 (final (file_begin 0 writable) ex_shared).
Definition ex_closed : W := final (file_close console_ops 0) ex_writing.
Definition ex_exit : W := final (put_files console_ops (cur ex_closed)) ex_closed.

Lemma run_final {S A} (m : K S A) s r : (match m s with Done (a, _) => a = r | _ => False end) -> m s = Done (r, final m s).
Proof. unfold final. destruct (m s) as [[a s']| |]; [by intros ->|done..]. Qed.

Lemma ease_bool (s : W) F H : (calls F (cur s) <? holders H (cur s)) && (length F <? length H)%nat = true -> at_ease s F H.
Proof. intros [?%Z.ltb_lt ?%Nat.ltb_lt]%andb_true_iff. by split. Qed.

Ltac frun := eapply rtc_l; [split; [apply roomy_bool; vm_compute; reflexivity|]|].
Ltac ease := apply ease_bool; vm_compute; reflexivity.
Ltac fcall := apply run_final; vm_compute; reflexivity.
Ltac nonzero := apply (bool_decide_eq_true_1 (_ <> 0)); vm_compute; reflexivity.

Definition ex_start : fstate := mk_fstate ex_boot [] [0] 0.
Definition ex_state1 : fstate := mk_fstate ex_first [] [100; 0] 0.
Definition ex_state2 : fstate := mk_fstate ex_exit [(cur ex_shared, 0%nat)] [100; 100; 0] 0.

Lemma ex_run1 : rtc (fstep console_ops no_fs) ex_start ex_state1.
Proof.
  frun; [eapply (st_fork _ _ _ _ _ _ 0 (Some (100, blank_table)) 100); [ease|apply fresh_blank; [done|vm_compute; reflexivity]|done|fcall]|].
  frun; [apply (st_switch _ _ _ _ _ _ 100); by left|]. apply rtc_refl.
Qed.

Lemma ex_run2 : rtc (fstep console_ops no_fs) ex_state1 ex_state2.
Proof.
  frun; [eapply (st_open _ _ _ _ _ _ stdout_path O_WRONLY); [nonzero|ease|fcall]|].
  frun; [eapply (st_fork _ _ _ _ _ _ 0 (Some (200, blank_table)) 200); [ease|apply fresh_blank; [done|vm_compute; reflexivity]|done|fcall]|].
  frun; [eapply (st_fork _ _ _ _ _ _ CLONE_FILES None 100); [ease|done|done|fcall]|].
  frun; [eapply (st_begin _ _ _ _ _ _ 0 writable 0%nat); [nonzero|ease|fcall]|].
  frun; [apply (st_switch _ _ _ _ _ _ 200); right; by left|].
  frun; [eapply (st_close _ _ _ _ _ _ 0); [nonzero|ease|fcall]|].
  frun; [eapply (st_exit _ _ _ _ _ [100; 100; 0]); [ease|symmetry; apply (Permutation_middle [100] [100; 0] 200)|fcall]|].
  unfold ex_state2, ex_exit, ex_closed, ex_writing, ex_shared, ex_forked, ex_open. apply rtc_refl.
Qed.

(** ** Every run *)

Section props.
Context {X : Type} (ops : Z -> inode_ops X) (fops : fs_ops X) {HL : VopLaws ops fops}.
Implicit Types (s : vfs X) (F : list (Z * nat)) (H : list Z).

(** The other entries, of this table and of the others. *)
Definition others s s' (p : Z) (i : nat) : Prop := forall q j, (q, j) <> (p, i) -> file_of s' q j = file_of s q j.

Lemma done_others L s F p i y s' : is_Some (file_of s p i) -> done_with ops fops L s F p i y s' -> others s s' p i /\ file_of s' p i = Some y.
Proof.
  intros [f Hf] [_ (s1&Hc&->)]. split.
  - intros q j E. rewrite (file_of_set s1 p i y f) by (by rewrite (calm_file_of s s1)). rewrite decide_False by done. by rewrite (calm_file_of s s1).
  - rewrite (file_of_set s1 p i y f) by (by rewrite (calm_file_of s s1)). by rewrite decide_True.
Qed.

(** No process is left with a table: nothing is open. *)
Lemma fwf_empty L st : fwf ops fops L st -> (forall p, p ∈ f_procs st -> p = 0) -> tables (f_vfs st) = ∅.
Proof.
  intros Hw Hall. apply map_eq. intros p. rewrite lookup_empty. destruct (tables (f_vfs st) !! p) as [t|] eqn:Ht; [|done].
  destruct (fw_links _ _ _ _ Hw p t Ht) as (Hp&_&Hh). by apply holders_pos, Hall in Hh.
Qed.
End props.

(** Property C6. In every run of processes that open, duplicate, close, inherit
    and share descriptors, with calls of other processes half-way, the counts of
    the inodes are right.  The openings of an inode are exactly the descriptors
    that name it.  Its references are exactly what descriptors, directories and
    devices hold, but for those that openings with O_CREAT have lost, at most one
    for each such opening ([vfs_open] forgets them): a run without O_CREAT has
    exact counts.  An inode that an open descriptor names is in memory, a table
    counts the processes that have it, and once no process has a table no inode is
    open.  The run may use no state with an inode within 8 of the limit of 65536
    references; so few tables, devices and openings with O_CREAT as the last part
    says keep it away from there. *)
Theorem files_run_sound {X} (ops : Z -> inode_ops X) (fops : fs_ops X) `{VopLaws X ops fops} L a b :
  fwf ops fops L a -> rtc (fstep ops fops) a b ->
  let s := f_vfs b in
  (forall n x, inodes s !! n = Some x -> open_count x = opens s n /\ need s n <= ref_count x <= need s n + f_creates b) /\
  (forall p i f, file_of s p i = Some f -> status f = FD_OPENED \/ status f = FD_CLOSED -> exists x, inodes s !! node f = Some x /\ 0 < open_count x) /\
  (forall p t, tables s !! p = Some t -> files_nlinks t = holders (f_procs b) p) /\
  ((forall p, p ∈ f_procs b -> p = 0) -> forall n x, inodes s !! n = Some x -> open_count x = 0) /\
  ((FILES_STRUCT_NENTRY + 1) * Z.of_nat (size (tables s)) + Z.of_nat (length (vdev_list s)) + 1 + f_creates b <= MAX_INODE_COUNT - 8 -> roomy s).
Proof.
  intros Hw Hrun s. destruct (fwf_run ops fops L a b Hw Hrun) as [L' Hb]. pose proof (fw_sound _ _ _ _ Hb) as Hs. pose proof (so_counted _ _ _ _ _ Hs) as Hc. fold s in Hc, Hs.
  assert (Hcount : forall n x, inodes s !! n = Some x -> open_count x = opens s n /\ need s n <= ref_count x <= need s n + f_creates b).
  { intros n x Hx. destruct (co_inode _ _ _ _ _ Hc n x Hx) as (_&E&Hr). pose proof (leak_pos _ _ _ _ n Hc). pose proof (fw_leak _ _ _ _ Hb n).
    unfold none in *. split; [by rewrite E, Z.add_0_r|lia]. }
  split_and!; [done| | | |].
  - intros p i f Hf Hst. pose proof (live_need s p i f Hf Hst) as Ho. pose proof (opens_need s (node f)). pose proof (leak_pos _ _ _ _ (node f) Hc).
    pose proof (fo_node _ _ _ _ (tab_file _ _ _ _ _ _ (so_tab _ _ _ _ _ Hs) Hf) Hst) as Hn.
    destruct (counted_alive _ _ _ _ _ (node f) Hc Hn) as (x&Hx&_); [lia|]. exists x. split; [done|]. destruct (Hcount _ x Hx). lia.
  - intros p t Ht. by apply (fw_links _ _ _ _ Hb).
  - intros Hall n x Hx. destruct (Hcount n x Hx) as [-> _]. unfold opens, s. by rewrite (fwf_empty ops fops L' b Hb Hall).
  - intros Hfew n x Hx. destruct (Hcount n x Hx). pose proof (need_bound s _ _ n (so_tab _ _ _ _ _ Hs)). lia.
Qed.

Lemma files_run_sound_witness : rtc (fstep console_ops no_fs) ex_start ex_state2 /\
  forall n x, inodes (f_vfs ex_state2) !! n = Some x -> open_count x = opens (f_vfs ex_state2) n /\ ref_count x = need (f_vfs ex_state2) n.
Proof.
  assert (Hrun : rtc (fstep console_ops no_fs) ex_start ex_state2) by (etrans; [apply ex_run1|apply ex_run2]).
  split; [done|]. intros n x Hx. assert (Ec : f_creates ex_state2 = 0) by reflexivity.
  destruct (files_run_sound console_ops no_fs none ex_start ex_state2 ex_boot_fwf Hrun) as [Hall _]. destruct (Hall n x Hx) as [Ho Hr].
  split; [exact Ho|]. rewrite Ec in Hr. lia.
Defined.

(** Property C7. No assertion of the descriptor code fails in a run that stays
    away from the limit on references: where no inode is within 8 of the 65536
    references that [inode_check] allows, neither at a step of the run nor at its
    end, a process can close and duplicate any number as a descriptor, start a
    call on it, fork with or without a shared table, and exit, and each of these
    calls returns.  (Property C35: the limit can be reached, and then an assertion
    does fail.) *)
Theorem files_run_safe {X} (ops : Z -> inode_ops X) (fops : fs_ops X) `{VopLaws X ops fops} L a b :
  fwf ops fops L a -> rtc (fstep ops fops) a b -> roomy (f_vfs b) ->
  let s := f_vfs b in cur s <> 0 -> at_ease s (f_calls b) (f_procs b) ->
  (forall n, exists r s', file_close ops n s = Done (r, s')) /\
  (forall n1 n2, exists r s', file_dup n1 n2 s = Done (r, s')) /\
  (forall n ok, exists r s', file_begin n ok s = Done (r, s')) /\
  (forall flags o, fresh_table s o -> exists r s', copy_files flags o s = Done (r, s')) /\
  (exists s', put_files ops (cur s) s = Done ((), s')).
Proof.
  intros Hw Hrun Hr s Hc He. destruct (fwf_run ops fops L a b Hw Hrun) as [L' Hb]. destruct b as [s0 F H0 c]. cbn [f_vfs f_calls f_procs] in *. subst s.
  pose proof (fw_sound _ _ _ _ Hb) as Hs. pose proof (fw_few _ _ _ _ Hb) as Hfew. cbn [f_vfs f_calls f_procs] in Hs, Hfew.
  destruct (fwf_cur ops fops L' s0 F H0 c Hb Hc He) as (t&Ht&Hl).
  assert (Hrun1 : forall A (m : K (vfs X) A), wp m (fun _ _ => True) s0 -> exists r s', m s0 = Done (r, s')).
  { intros A m (r&s'&E&_)%wp_Done. by exists r, s'. }
  split_and!.
  - intros n. apply Hrun1. by eapply wp_file_close.
  - intros n1 n2. apply Hrun1. by eapply (wp_file_dup ops fops L').
  - intros n ok. apply Hrun1. eapply (wp_file_begin ops fops L' s0 F t); [done|destruct He; lia|done..].
  - intros flags o Ho. apply Hrun1. eapply (wp_copy_files ops fops L' s0 F); try done; [intros p l E; by apply (Ho p l)|intros _; by exists t].
  - destruct (Hrun1 _ (put_files ops (cur s0))) as ([]&s'&E); [|by exists s'].
    destruct (fw_links _ _ _ _ Hb _ t Ht) as (_&Elk&_). cbn [f_procs] in Elk.
    eapply (wp_put_files ops fops L' s0 F (cur s0) t); [done..|lia| |done|done]. intros E1. apply calls_idle. destruct He. lia.
Qed.

Lemma files_run_safe_witness : cur (f_vfs ex_state1) <> 0 /\ exists s', put_files console_ops (cur (f_vfs ex_state1)) (f_vfs ex_state1) = Done ((), s').
Proof.
  split; [by vm_compute|]. apply (files_run_safe console_ops no_fs none ex_start ex_state1); [apply ex_boot_fwf|apply ex_run1|apply roomy_bool; vm_compute; reflexivity|nonzero|ease].
Defined.

(** ** Single calls *)

(** What [file_open] answers, and the state after it.  The lowest free entry [i]
    of the table is the one that is opened, or is free again after a failure;
    [known] is what is known of the inode. *)
Definition file_opened {X} (flags : Z) (known : Z -> Prop) (s : vfs X) (r : Z) (s' : vfs X) : Prop :=
  match access_mode flags with
  | None => r = - E_INVAL /\ s' = s
  | Some (readable, writable) =>
      (forall i f, file_of s (cur s) i = Some f -> status f <> FD_NONE) /\ r = - E_MAX_OPEN /\ s' = s \/
      exists i f g, file_of s (cur s) i = Some f /\ status f = FD_NONE /\ first_free s (cur s) i /\ others s s' (cur s) i /\ file_of s' (cur s) i = Some g /\
        (r < 0 /\ status g = FD_NONE \/
         r = Z.of_nat i /\ exists size n, n <> 0 /\ known n /\ (has_flag flags O_APPEND = false -> size = 0) /\ g = mk_file FD_OPENED readable writable r size n 1)
  end.

Lemma runs_file_opened {X} (ops : Z -> inode_ops X) (fops : fs_ops X) `{VopLaws X ops fops} total L (s : vfs X) F t path flags (P : Z -> Z -> Prop) :
  sound ops fops L s F -> roomy s -> tables s !! cur s = Some t ->
  (forall i f, file_of s (cur s) i = Some f -> status f = FD_NONE -> let s1 := set_file (cur s) i (fresh f) s in
     runs total (vfs_open ops fops path flags) (fun a s2 => opened ops fops flags s1 L none (MAX_INODE_COUNT - 2) a.1 a.2 s2 /\ P a.1 a.2) s1) ->
  runs total (file_open ops fops path flags) (fun r s' => (exists L', leaked flags L L' /\ sound ops fops L' s' F) /\ file_opened flags (P 0) s r s' /\
    (access_mode flags <> None -> (forall ret n, P ret n -> ret = 0) -> has_flag flags O_APPEND = false -> 0 <= r \/ r = - E_MAX_OPEN)) s.
Proof.
  intros Hs Hr Ht Hopen. assert (Hsame : exists L', leaked flags L L' /\ sound ops fops L' s F) by (exists L; split; [apply leaked_refl|done]).
  apply (runs_file_open ops fops total L s F t path flags P); [done|done|exact Ht|exact Hopen| | | |]; unfold file_opened.
  - intros E. rewrite E. by split_and!.
  - intros E Hfull. destruct (access_mode flags) as [[r w]|]; [|done]. split; [done|]. split; [by left|by intros _ _ _; right].
  - intros i f ret n r L' s' Ea Hf Hst Hfirst HP Hneg Hap Hleak (y&Hy&Hd). destruct (done_others ops fops L' s F _ i y s' ltac:(by eexists) Hd) as [Ho Hf'].
    split; [exists L'; split; [done|apply Hd]|]. split.
    + destruct (access_mode flags) as [[rd w]|]; [|done]. right. exists i, f, y. split_and!; [done..|]. by left.
    + intros _ HP0 Eap. rewrite (Hap (HP0 _ _ HP)) in Eap. done.
  - intros i f rd w size n L' s' -> Hf Hst Hfirst HP Hsize Hleak Hd. destruct (done_others ops fops L' s F _ i _ s' ltac:(by eexists) Hd) as [Ho Hf'].
    split; [exists L'; split; [done|apply Hd]|]. split; [|intros _ _ _; left; lia]. right. eexists i, f, _. split_and!; [done..|exact Hf'|]. right. split; [done|].
    exists size, n. split_and!; [|done..]. destruct Hd as [Hd _]. exact (fo_node _ _ _ _ (tab_file s' F None _ i _ (so_tab _ _ _ _ _ Hd) Hf') (or_introl eq_refl)).
Qed.

(** Property C15. [file_open] refuses flags without an access mode, and a full
    table with E_MAX_OPEN, and changes nothing; otherwise it is about the lowest
    free descriptor.  Either the result is that number, and the entry is open, in
    the mode of the flags, on an inode, at the start of the file or at its end
    with O_APPEND; or the result is negative and the entry is free again.  No other
    entry of any table changes, and every count stays exact, but for the reference
    that an opening with O_CREAT may lose.  Where the path is the name of a device
    and nothing is to be created or cut off, the call returns, the inode is the
    one of the device, and it fails only if the operation of the device does, or
    on a full table.  (On a file system it may stop at an operation of the file
    system.) *)
Theorem file_open_spec {X} (ops : Z -> inode_ops X) (fops : fs_ops X) `{VopLaws X ops fops} L (s : vfs X) F t path flags :
  sound ops fops L s F -> roomy s -> tables s !! cur s = Some t -> 0 < files_nlinks t ->
  wlp (file_open ops fops path flags) (fun r s' => (exists L', leaked flags L L' /\ sound ops fops L' s' F) /\ file_opened flags (fun _ => True) s r s') s /\
  forall d, device_path s path flags d -> exists r s', file_open ops fops path flags s = Done (r, s') /\ file_opened flags (fun n => n = devnode d) s r s' /\
    (open_says ops (devnode d) flags (fun v => v = 0) -> has_flag flags O_APPEND = false -> 0 <= r \/ r = - E_MAX_OPEN).
Proof.
  intros Hs Hr Ht Hl. split.
  - apply (wlp_mono _ (fun r s' => (exists L', leaked flags L L' /\ sound ops fops L' s' F) /\ file_opened flags (fun _ => True) s r s' /\
      (access_mode flags <> None -> (forall ret n : Z, True -> ret = 0) -> has_flag flags O_APPEND = false -> 0 <= r \/ r = - E_MAX_OPEN))); [|by intros r s' (?&?&_)].
    apply (runs_file_opened ops fops false L s F t path flags (fun _ _ => True)); [done..|]. intros i f Hf Hst s1. by apply (wlp_open_any ops fops L s F t).
  - intros d Hd. pose proof Hd as (_&Hacc&_).
    assert (Hall : forall P, open_says ops (devnode d) flags P -> exists r s', file_open ops fops path flags s = Done (r, s') /\
      file_opened flags (fun n => (0 = 0 -> n = devnode d) /\ P 0) s r s' /\
      ((forall v, P v -> v = 0) -> has_flag flags O_APPEND = false -> 0 <= r \/ r = - E_MAX_OPEN)).
    { intros P HP. pose proof (runs_file_opened ops fops true L s F t path flags (fun ret n => (ret = 0 -> n = devnode d) /\ P ret) Hs Hr Ht) as Hrun.
      destruct (proj1 (wp_Done _ _ _) (Hrun (fun i f Hf Hst => wp_open_device ops fops L s F i f path flags d P Hs Hr Hd HP Hf Hst))) as (r&s'&E&_&Ho&Hn).
      exists r, s'. split; [exact E|]. split; [exact Ho|]. intros HP0. apply Hn; [done|]. intros ret n [_ HPr]. by apply HP0. }
    destruct (Hall (fun _ => True)) as (r&s'&E&Ho&_); [done|]. exists r, s'. split; [exact E|]. split.
    + unfold file_opened in *. destruct (access_mode flags) as [[rd w]|]; [|done]. destruct Ho as [|(i&f&g&H1&H2&H3&H4&H5&H6)]; [by left|right].
      exists i, f, g. split_and!; [done..|]. destruct H6 as [|(Er&size&n&Hn&[Hk _]&Hg)]; [by left|right]. split; [done|]. exists size, n. split; [done|]. split; [by apply Hk|done].
    + intros Hsay Hap. destruct (Hall _ Hsay) as (r'&s2&E'&_&Hn). assert (r' = r) as -> by congruence. by apply Hn.
Qed.

(** In terms of the state, which is not to be computed. *)
Lemma run_sound (s : W) F H c a L : fwf console_ops no_fs L a -> rtc (fstep console_ops no_fs) a (mk_fstate s F H c) -> exists L', sound console_ops no_fs L' s F.
Proof. intros Hw Hrun. destruct (fwf_run console_ops no_fs L a _ Hw Hrun) as [L' Hw']. exists L'. apply (fw_sound _ _ _ _ Hw'). Qed.

Lemma state1_sound : exists L, sound console_ops no_fs L ex_first [].
Proof. exact (run_sound ex_first [] [100; 0] 0 ex_start none ex_boot_fwf ex_run1). Qed.

Lemma ex_first_table : tables ex_first !! cur ex_first = Some (mk_files 0 (fd_array_init blank_table) 0 1 false).
Proof. vm_compute. reflexivity. Qed.

Definition ex_dev : vfs_dev := mk_vfs_dev stdout_name 1 0 false.

Lemma ex_device_path : device_path ex_first stdout_path O_WRONLY ex_dev.
Proof.
  split; [done|]. split; [done|]. split; [done|]. split; [done|]. exists stdout_name. split; [done|]. split.
  - split; [done|]. split; apply (bool_decide_eq_true_1 (_ ∉ _)); vm_compute; reflexivity.
  - vm_compute. reflexivity.
Qed.

Lemma stdout_says n : open_says console_ops n O_WRONLY (fun v => v = 0).
Proof.
  intros s x f r s' _. unfold console_ops, dev_table. destruct (in_ops x =? DEV_OPS); [|done]. intros [= <-]. unfold dev_open, dev_at, get, mbind, K_bind.
  change (has_flag O_WRONLY _) with false. cbv iota beta. destruct (dev_info (ext s) !! n) as [d|]; [|done]. by intros [= <- _].
Qed.

Lemma file_open_spec_witness : file_open console_ops no_fs stdout_path O_WRONLY ex_first = Done (0, ex_open) /\
  exists r s', file_open console_ops no_fs stdout_path O_WRONLY ex_first = Done (r, s') /\ file_opened O_WRONLY (fun n => n = 1) ex_first r s' /\ (0 <= r \/ r = - E_MAX_OPEN).
Proof.
  split; [unfold ex_open; apply run_final; vm_compute; reflexivity|]. destruct state1_sound as [L Hs].
  assert (Hr : roomy ex_first) by (apply roomy_bool; vm_compute; reflexivity).
  destruct (file_open_spec console_ops no_fs L ex_first [] _ stdout_path O_WRONLY Hs Hr ex_first_table ltac:(done)) as [_ Hdev].
  destruct (Hdev ex_dev ex_device_path) as (r&s'&E&Ho&Hn). exists r, s'. split; [exact E|]. split; [exact Ho|]. apply Hn; [apply stdout_says|reflexivity].
Defined.

(** Property C26. [file_close]: a number that is not an open descriptor is refused
    and nothing changes; otherwise the descriptor is closed at once, and the entry
    is free again unless a call of another process is still using it, in which
    case the end of that call frees it.  No other entry changes. *)
Theorem file_close_spec {X} (ops : Z -> inode_ops X) (fops : fs_ops X) `{VopLaws X ops fops} L (s : vfs X) F t n :
  sound ops fops L s F -> roomy s -> tables s !! cur s = Some t ->
  wp (file_close ops n) (fun r s' => sound ops fops L s' F /\
    match open_fd s n with
    | None => r = - E_INVAL /\ s' = s
    | Some (i, f) => r = 0 /\ others s s' (cur s) i /\
        file_of s' (cur s) i = Some (set_status (if bool_decide (fly F (cur s) i = 0) then FD_NONE else FD_CLOSED) (set_fopen_count (fly F (cur s) i) f))
    end) s.
Proof.
  intros Hs Hr Ht. eapply wp_file_close; [done|done|exact Ht|by intros ->|]. intros i f s' E Hd. rewrite E. pose proof E as (Hf&Hst&_)%open_fd_Some.
  destruct (done_others ops fops L s F _ i _ s' ltac:(by eexists) Hd) as [Ho Hf']. split; [apply Hd|]. split_and!; [done|done|]. rewrite Hf'. f_equal.
  pose proof (tab_file s F None _ i f (so_tab _ _ _ _ _ Hs) Hf) as [_ B2 _ _ _ _]. rewrite bool_decide_true in B2 by done. unfold b2z in B2.
  unfold drop_file. cbn [fopen_count set_status status]. rewrite B2. replace (fly F (cur s) i + 1 - 1) with (fly F (cur s) i) by lia.
  destruct (decide (fly F (cur s) i = 0)) as [E0|E0].
  - rewrite (decide_True (P := fly F (cur s) i + 1 = 1)) by lia. by rewrite bool_decide_true.
  - rewrite (decide_False (P := fly F (cur s) i + 1 = 1)) by lia. by rewrite bool_decide_false.
Qed.

Lemma ex_run12 : rtc (fstep console_ops no_fs) ex_start ex_state2.
Proof. etrans; [apply ex_run1|apply ex_run2]. Qed.

Definition ex_flying : list (Z * nat) := [(cur ex_shared, 0%nat)].

Lemma state2_sound v : exists L, sound console_ops no_fs L (set_cur v ex_exit) ex_flying.
Proof. destruct (run_sound ex_exit ex_flying [100; 100; 0] 0 ex_start none ex_boot_fwf ex_run12) as [L Hs]. exists L. by apply sound_cur. Qed.

(** The write of the first process is under way; another one has its table. *)
Lemma file_close_spec_witness : let s := set_cur 100 ex_exit in
  wp (file_close console_ops 0) (fun r s' => r = 0 /\ exists f, file_of s' 100 0 = Some f /\ status f = FD_CLOSED) s.
Proof.
  intros s. assert (Et : exists t, tables s !! cur s = Some t) by (eexists; vm_compute; reflexivity). destruct Et as [t Et].
  assert (Eo : exists f, open_fd s 0 = Some (0%nat, f)) by (eexists; vm_compute; reflexivity). destruct Eo as [f Eo]. destruct (state2_sound 100) as [L Hs].
  assert (Ef : bool_decide (fly ex_flying 100 0 = 0) = false) by (vm_compute; reflexivity).
  eapply wp_mono; [apply (file_close_spec console_ops no_fs L s ex_flying t 0); [exact Hs|apply roomy_bool; vm_compute; reflexivity|exact Et]|].
  intros r s' [_ Hm]. rewrite Eo in Hm. destruct Hm as (->&_&Hf). split; [done|]. eexists. split; [exact Hf|].
  change (cur s) with 100. rewrite Ef. reflexivity.
Defined.

(** [file_read] after its first half: whatever the operation of the
    inode transfers, the position of the descriptor moves by the bytes it has
    moved, unless the descriptor was closed meanwhile, and the use of the entry
    ends; the last use of a closed one frees it. *)
Theorem file_read_spec {X} (ops : Z -> inode_ops X) (fops : fs_ops X) `{VopLaws X ops fops} L (s : vfs X) F F' p i f x g iob :
  sound ops fops L s F -> roomy s -> F ≡ₚ (p, i) :: F' -> file_of s p i = Some f -> inodes s !! node f = Some x -> op_read (ops (in_ops x)) = Some g ->
  wp (file_io_end ops false p i iob) (fun r s' => sound ops fops L s' F' /\ others s s' p i /\
    let f1 := if bool_decide (status f = FD_OPENED) then set_pos (s64 (pos f + r.2)) f else f in
    let f2 := set_fopen_count (fopen_count f - 1) f1 in
    file_of s' p i = Some (if bool_decide (fopen_count f = 1) then set_status FD_NONE f2 else f2)) s.
Proof.
  intros Hs Hr HF Hf Hx Hg. eapply wp_read_end; [done|done|exact HF|exact Hf|exact Hx|exact Hg|]. intros r copied s' Hd.
  destruct (done_others ops fops L s F' p i _ s' ltac:(by eexists) Hd) as [Ho Hf']. split; [apply Hd|]. split; [done|]. rewrite Hf'. f_equal.
  unfold moved, drop_file. cbn [snd]. destruct (decide (status f = FD_OPENED)) as [E|E].
  - rewrite (bool_decide_true (status f = FD_OPENED)) by done. cbn [fopen_count set_pos status]. destruct (decide (fopen_count f = 1)) as [E1|E1].
    + by rewrite bool_decide_true.
    + rewrite bool_decide_false by done. by destruct f.
  - rewrite (bool_decide_false (status f = FD_OPENED)) by done. destruct (decide (fopen_count f = 1)) as [E1|E1].
    + by rewrite bool_decide_true.
    + rewrite bool_decide_false by done. by destruct f.
Qed.

(** The console refuses to be read; the descriptor is used once less. *)
Lemma file_read_spec_witness : wp (file_io_end console_ops false (cur ex_shared) 0 (iobuf_init 500 2 0))
  (fun r s' => exists L, sound console_ops no_fs L s' []) (set_cur 100 ex_exit).
Proof.
  set (s := set_cur 100 ex_exit). assert (Ef : exists f, file_of s (cur ex_shared) 0 = Some f /\ node f = 1) by (eexists; vm_compute; by split). destruct Ef as (f&Ef&En).
  assert (Ex : exists x, inodes s !! 1 = Some x /\ in_ops x = DEV_OPS) by (eexists; vm_compute; by split). destruct Ex as (x&Ex&Eo). destruct (state2_sound 100) as [L Hs].
  eapply wp_mono; [eapply (file_read_spec console_ops no_fs L s ex_flying [] (cur ex_shared) 0 f x)|].
  - exact Hs.
  - apply roomy_bool; vm_compute; reflexivity.
  - done.
  - exact Ef.
  - rewrite En. exact Ex.
  - rewrite Eo. reflexivity.
  - intros r s' [Hs' _]. exists L. exact Hs'.
Defined.

(** Property C14. [copy_files]: without CLONE_FILES the child gets a table of its
    own whose descriptors are the parent's, with the same files, modes and
    positions, and the parent's directory; with CLONE_FILES it gets the parent's
    table; without memory the fork fails and nothing has changed. *)
Theorem copy_files_spec {X} (ops : Z -> inode_ops X) (fops : fs_ops X) `{VopLaws X ops fops} L (s : vfs X) F flags o u :
  sound ops fops L s F -> roomy s -> fresh_table s o -> cur s <> 0 -> tables s !! cur s = Some u -> 0 < files_nlinks u < 2 ^ 31 - 1 ->
  wp (copy_files flags o) (fun r s' => sound ops fops L s' F /\
    if has_flag flags CLONE_FILES then
      r = (0, cur s) /\ s' = set_tables (<[cur s := set_files_nlinks (files_nlinks u + 1) u]> (tables s)) s
    else match o with
    | None => r = (- E_NO_MEM, 0) /\ s' = s
    | Some (p, l) => r = (0, p) /\ (forall q, q <> p -> tables s' !! q = tables s !! q) /\
        exists t, tables s' !! p = Some t /\ pwd t = pwd u /\ files_nlinks t = 1 /\
          forall i f, fd_array u !! i = Some f -> exists g, fd_array t !! i = Some g /\
            if bool_decide (status f = FD_OPENED) then g = mk_file FD_OPENED (readable f) (writable f) (Z.of_nat i) (pos f) (node f) 1
            else status g = FD_NONE
    end) s.
Proof.
  intros Hs Hr Ho Hc Hu Hl. destruct (tk_len _ _ _ (so_tab _ _ _ _ _ Hs) _ u Hu) as [Hlen _].
  eapply (wp_copy_files ops fops L s F flags o); [done|done|intros p l E; by apply (Ho p l)|intros _; by exists u| | | |].
  - intros -> [|E]; [done|]. by rewrite E.
  - done.
  - intros u' _ -> Hu' s1 Hs1. assert (u' = u) as -> by congruence. done.
  - intros p l u' s' _ -> -> Hu' [G1 (t&Ht&Ep&El) G3 G4] Hs'. assert (u' = u) as -> by congruence. destruct (Ho p l eq_refl) as (_&_&Hl').
    split; [done|]. split_and!; [done|done|]. exists t. split_and!; [done..|]. intros i f Hf.
    assert (Hi : (i < length l)%nat) by (apply lookup_lt_Some in Hf; lia). apply lookup_lt_is_Some_2 in Hi as [g0 Hg0].
    assert (Hg : fd_array_init l !! i = Some (mk_file FD_NONE (readable g0) (writable g0) (Z.of_nat i) (pos g0) (node g0) 0)).
    { unfold fd_array_init. by rewrite list_lookup_imap, Hg0. }
    specialize (G3 i _ f Hg Hf). apply file_of_Some in G3 as (t'&Ht'&Hc'). assert (t' = t) as -> by congruence.
    eexists. split; [exact Hc'|]. unfold child. destruct (decide (status f = FD_OPENED)); [by rewrite bool_decide_true|by rewrite bool_decide_false].
Qed.

Lemma ex_open_sound : exists L, sound console_ops no_fs L ex_open [].
Proof.
  assert (Hrun : rtc (fstep console_ops no_fs) ex_state1 (mk_fstate ex_open [] [100; 0] 0)).
  { frun; [eapply (st_open _ _ _ _ _ _ stdout_path O_WRONLY); [nonzero|ease|fcall]|]. apply rtc_refl. }
  apply (run_sound ex_open [] [100; 0] 0 ex_start none ex_boot_fwf). etrans; [apply ex_run1|exact Hrun].
Qed.

Lemma copy_files_spec_witness : exists s' t, copy_files 0 (Some (200, blank_table)) ex_open = Done ((0, 200), s') /\
  tables s' !! 200 = Some t /\ (node <$> fd_array t !! 0%nat) = Some 1.
Proof.
  assert (Eu : exists u, tables ex_open !! cur ex_open = Some u /\ 0 < files_nlinks u < 2 ^ 31 - 1 /\
    exists f, fd_array u !! 0%nat = Some f /\ bool_decide (status f = FD_OPENED) = true /\ node f = 1).
  { eexists. split; [vm_compute; reflexivity|]. split; [by vm_compute|]. eexists. split; [vm_compute; reflexivity|]. by vm_compute. }
  destruct Eu as (u&Eu&Hl&f&Ef&Es&En).
  destruct ex_open_sound as [L Hs].
  assert (Hfr : fresh_table ex_open (Some (200, blank_table))) by (apply fresh_blank; [done|vm_compute; reflexivity]).
  assert (Hr : roomy ex_open) by (apply roomy_bool; vm_compute; reflexivity).
  assert (Hc : cur ex_open <> 0) by nonzero.
  pose proof (copy_files_spec console_ops no_fs L ex_open [] 0 (Some (200, blank_table)) u Hs Hr Hfr Hc Eu Hl) as Hspec.
  destruct (proj1 (wp_Done _ _ _) Hspec) as (r&s'&E&_&E2&_&t&Ht&_&_&Hall). rewrite E2 in E.
  exists s', t. split; [exact E|]. split; [exact Ht|]. destruct (Hall 0%nat f Ef) as (g&Hg&Hg2). rewrite Es in Hg2. rewrite Hg, Hg2. cbn. by rewrite En.
Defined.

(** Property C17. [file_write] on a descriptor of the console prints the bytes of
    the buffer, in order and all of them, moves the position past them and
    changes nothing else. *)
Theorem console_write_spec L (s : W) F n i f t base l :
  sound console_ops no_fs L s F -> roomy s -> tables s !! cur s = Some t -> open_fd s n = Some (i, f) -> writable f = true ->
  Z.of_nat (length F) + 1 < 2 ^ 20 -> bytes_at (dmem (ext s)) base l -> Z.of_nat (length l) < 2 ^ 64 ->
  wp (file_write console_ops n base (Z.of_nat (length l))) (fun r s' => r = (0, Z.of_nat (length l)) /\
    s' = set_ext (set_printed (printed (ext s) ++ l) (ext s)) (set_file (cur s) i (set_pos (s64 (pos f + Z.of_nat (length l))) f) s)) s.
Proof. intros Hs Hr Ht Ho Hw Hl Hb Hlen. by eapply (wp_console_write L s F n i f t base l). Qed.

Lemma console_write_spec_witness : exists s', file_write console_ops 0 500 2 ex_open = Done ((0, 2), s') /\ printed (ext s') = [104; 105].
Proof.
  assert (Et : exists t, tables ex_open !! cur ex_open = Some t) by (eexists; vm_compute; reflexivity). destruct Et as [t Et].
  assert (Eo : exists f, open_fd ex_open 0 = Some (0%nat, f) /\ writable f = true) by (eexists; split; vm_compute; reflexivity). destruct Eo as (f&Eo&Ew).
  assert (Ep : printed (ext ex_open) = []) by (vm_compute; reflexivity).
  assert (Hb : bytes_at (dmem (ext ex_open)) 500 [104; 105]).
  { assert (Em : dmem (ext ex_open) = poke 500 [104; 105] ∅) by (vm_compute; reflexivity). rewrite Em. by intros [|[|i]] b [= <-]. }
  assert (Hspec : wp (file_write console_ops 0 500 2) (fun r s' => r = (0, 2) /\ s' = set_ext (set_printed (printed (ext ex_open) ++ [104; 105]) (ext ex_open)) (set_file (cur ex_open) 0 (set_pos (s64 (pos f + 2)) f) ex_open)) ex_open).
  { destruct ex_open_sound as [L Hs]. apply (console_write_spec L ex_open [] 0 0 f t 500 [104; 105]); [exact Hs|apply roomy_bool; vm_compute; reflexivity|done..]. }
  destruct (proj1 (wp_Done _ _ _) Hspec) as (r&s'&E&E1&E2). rewrite E1 in E. exists s'. split; [exact E|]. rewrite E2.
  change (printed (ext (set_ext ?e ?s1))) with (printed e). change (printed (set_printed ?l ?e)) with l. by rewrite Ep.
Defined.

(** ** What the calls should not do *)

Definition excl : K W Z := file_open console_ops no_fs stdout_path (Z.lor O_CREAT (Z.lor O_EXCL O_WRONLY)).

(** The first process, with [r] references to the console. *)
Definition counted_state (r : Z) : W :=
  mk_vfs {[1 := mk_inode r 0 DEV_OPS 0]} (vdev_list ex_boot) false 0 false (tables ex_first) 100 (ext ex_boot).

Lemma excl_alloc r : fd_array_alloc NO_FD (counted_state r) =
  Done ((0, 0%nat), set_tables (alter (fun t => set_fd_array (alter (set_status FD_INIT) 0%nat (fd_array t)) t) 100 (tables ex_first)) (counted_state r)).
Proof. vm_compute. reflexivity. Qed.

(** The inode is found, and the call fails after that. *)
Lemma excl_open m e r :
  let st v := mk_vfs {[1 := mk_inode v 0 DEV_OPS 0]} [mk_vfs_dev stdout_name 1 0 false] false 0 false m 100 e in
  vfs_open console_ops no_fs stdout_path (Z.lor O_CREAT (Z.lor O_EXCL O_WRONLY)) (st r) = Done ((- E_EXISTS, 0), st (s32 (r + 1))).
Proof. reflexivity. Qed.

Lemma excl_step r : excl (counted_state r) = Done (- E_EXISTS, counted_state (s32 (r + 1))).
Proof.
  unfold excl, file_open. change (access_mode (Z.lor O_CREAT (Z.lor O_EXCL O_WRONLY))) with (Some (false, true)).
  unfold mbind, K_bind, get. rewrite excl_alloc. cbv beta iota zeta. change (bool_decide (0 <> 0)) with false. cbv beta iota.
  set (m := alter _ 100 (tables ex_first)). change (set_tables m (counted_state r)) with
    (mk_vfs {[1 := mk_inode r 0 DEV_OPS 0]} [mk_vfs_dev stdout_name 1 0 false] false 0 false m 100 (ext ex_boot)).
  rewrite excl_open. cbv beta iota. change (bool_decide (- E_EXISTS <> 0)) with true. cbv iota. generalize (s32 (r + 1)). intros v. subst m. vm_compute. reflexivity.
Qed.

Lemma excl_many k : Z.of_nat k <= 65535 -> Nat.iter k (final excl) ex_first = counted_state (1 + Z.of_nat k).
Proof.
  induction k as [|k IH]; intros Hk; [vm_compute; reflexivity|]. rewrite Nat.iter_succ, IH by lia. unfold final at 1. rewrite excl_step, swrap_small by lia.
  by replace (1 + Z.of_nat k + 1) with (1 + Z.of_nat (S k)) by lia.
Qed.

(** Property C35. Opening a file that is there with O_CREAT and O_EXCL is refused,
    but the reference that the lookup has taken is not given back.  A program that
    asks 65535 times is refused every time, and then an ordinary open of that file
    stops the kernel: [inode_check] finds too many references. *)
Theorem vfs_open_excl_refuted :
  (forall k, Z.of_nat k < 65535 -> exists s', excl (Nat.iter k (final excl) ex_first) = Done (- E_EXISTS, s') /\ ref_count <$> inodes s' !! 1 = Some (2 + Z.of_nat k)) /\
  file_open console_ops no_fs stdout_path O_WRONLY (Nat.iter (Z.to_nat 65535) (final excl) ex_first) = Panic.
Proof.
  split.
  - intros k Hk. rewrite excl_many by lia. rewrite excl_step, swrap_small by lia. eexists. split; [reflexivity|].
    unfold counted_state. cbn [inodes]. rewrite lookup_singleton_eq. cbn. f_equal. lia.
  - rewrite excl_many, Z2Nat.id by lia. vm_compute. reflexivity.
Qed.

(** ** An operation that is not there *)
Lemma vop_missing {X Fn} (ops : Z -> inode_ops X) (op : inode_ops X -> option Fn) (s : vfs X) n x :
  inodes s !! n = Some x -> op (ops (in_ops x)) = None -> vop ops op n s = Panic.
Proof.
  intros Hx Hop. unfold vop. rewrite (bind_after _ _ s x s) by (unfold inode_at, mbind, K_bind, get, unwrap; by rewrite Hx).
  apply bind_panic. by rewrite Hop.
Qed.

(** The call has found its descriptor and is about to use the inode. *)
Lemma begun {X} (ops : Z -> inode_ops X) (fops : fs_ops X) `{VopLaws X ops fops} L (s : vfs X) F t n i f :
  sound ops fops L s F -> roomy s -> Z.of_nat (length F) + 1 < 2 ^ 20 -> tables s !! cur s = Some t -> open_fd s n = Some (i, f) ->
  exists s1 g x, file_begin n (fun _ => true) s = Done ((0, i), s1) /\ file_at (cur s) i s1 = Done (g, s1) /\ inodes s1 !! node g = Some x.
Proof.
  intros Hs Hr Hl Ht Ho. pose proof Ho as (Hf&Hst&_)%open_fd_Some.
  assert (Hb : wp (file_begin n (fun _ => true)) (fun r s1 => r = (0, i) /\ exists g x, file_of s1 (cur s) i = Some g /\ inodes s1 !! node g = Some x) s).
  { eapply (wp_file_begin ops fops L s F t n); [done|done|exact Ht|intros Hno; by specialize (Hno i f Ho)|].
    intros i' f' s1 Ho' _ [Hs1 (s2&Hc&->)]. rewrite Ho in Ho'. injection Ho' as <- <-. split; [done|]. set (g := set_fopen_count _ f) in *.
    assert (Hr1 : file_of (set_file (cur s) i g s2) (cur s) i = Some g) by (rewrite (file_of_set s2 _ i g f) by (by rewrite (calm_file_of s s2)); by rewrite decide_True).
    exists g. pose proof (fo_node _ _ _ _ (tab_file _ _ _ _ i g (so_tab _ _ _ _ _ Hs1) Hr1) (or_introl Hst)) as Hn.
    pose proof (live_need _ _ _ _ Hr1 (or_introl Hst)). pose proof (opens_need (set_file (cur s) i g s2) (node g)).
    pose proof (leak_pos _ _ _ _ (node g) (so_counted _ _ _ _ _ Hs1)).
    destruct (counted_alive _ _ _ _ _ (node g) (so_counted _ _ _ _ _ Hs1) Hn) as (x&Hx&_); [lia|]. exists x. by split. }
  apply wp_Done in Hb as (r&s1&E&->&g&x&Hg&Hx). exists s1, g, x. split; [exact E|]. split; [|done].
  destruct (proj1 (wp_Done _ _ _) (wp_file_at (cur s) i g s1 (fun a s' => a = g /\ s' = s1) Hg (conj eq_refl eq_refl))) as (?&?&Eg&->&->). exact Eg.
Qed.

(** Property C36. An operation that an inode does not have stops the kernel when a
    program asks for it.  The inodes of devices have neither [op_fsync] nor
    [op_getdirentry]: in every state with exact counts, on every descriptor that
    is open on a device, [file_fsync] and [file_getdirentry] panic, whatever the
    device. *)
Theorem missing_op_refuted (dops : Z -> dev_ops) `{DevLaws dops} L (s : W) F t n i f :
  sound (dev_table dops) no_fs L s F -> roomy s -> Z.of_nat (length F) + 1 < 2 ^ 20 -> tables s !! cur s = Some t -> open_fd s n = Some (i, f) ->
  file_fsync (dev_table dops) n s = Panic /\ forall base offset, file_getdirentry (dev_table dops) n base offset s = Panic.
Proof.
  intros Hs Hr Hl Ht Ho. destruct (begun (dev_table dops) no_fs L s F t n i f Hs Hr Hl Ht Ho) as (s1&g&x&Eb&Eg&Hx).
  assert (Hno : op_fsync (dev_table dops (in_ops x)) = None /\ op_getdirentry (dev_table dops (in_ops x)) = None) by (unfold dev_table; by destruct (in_ops x =? DEV_OPS)).
  destruct Hno as [Hno1 Hno2]. split.
  - unfold file_fsync. rewrite (bind_after _ _ s s s) by done. rewrite (bind_after _ _ s _ _ Eb). rewrite (bool_decide_false (0 <> 0)) by tauto.
    unfold file_fsync_end. rewrite (bind_after _ _ s1 _ _ Eg). apply bind_panic. unfold vop_fsync. apply bind_panic. by eapply vop_missing.
  - intros base offset. unfold file_getdirentry. rewrite (bind_after _ _ s s s) by done. rewrite (bind_after _ _ s _ _ Eb). rewrite (bool_decide_false (0 <> 0)) by tauto.
    unfold file_getdirentry_end. rewrite (bind_after _ _ s1 _ _ Eg). apply bind_panic. unfold vop_getdirentry. apply bind_panic. by eapply vop_missing.
Qed.

Lemma missing_op_refuted_witness : (exists f, open_fd ex_open 0 = Some (0%nat, f)) /\ file_fsync console_ops 0 ex_open = Panic /\ file_getdirentry console_ops 0 500 0 ex_open = Panic.
Proof.
  assert (Et : exists t, tables ex_open !! cur ex_open = Some t) by (eexists; vm_compute; reflexivity). destruct Et as [t Et].
  assert (Eo : exists f, open_fd ex_open 0 = Some (0%nat, f)) by (eexists; vm_compute; reflexivity). split; [exact Eo|]. destruct Eo as [f Eo].
  destruct ex_open_sound as [L Hs]. assert (Hr : roomy ex_open) by (apply roomy_bool; vm_compute; reflexivity).
  destruct (missing_op_refuted console_dops L ex_open [] t 0 0 f Hs Hr ltac:(done) Et Eo) as [E1 E2]. split; [exact E1|apply E2].
Defined.
